(* ===== verification/_CoqProject ===== *)
-Q . S2P
Prelude.v
Process.v
ReadyQueue.v
Scheduler.v
SchedSpec.v
SchedInv.v
SchedDispatch.v
SchedPick.v
SchedAging.v
SchedLottery.v
SchedTick.v
SchedChoice.v
SchedOps.v
SchedParam.v
CString.v
Ipc.v
Mm.v
Mmio.v
Uart.v
Irq.v
Paging.v
Boot.v
BootMap.v
Fork.v
UserMem.v
ForkMem.v
Frame.v
Syscalls.v
System.v
Demo.v
FatNames.v
FatTable.v
FatCache.v
FatChain.v
FatFile.v
FatData.v
FatMount.v
FatMounted.v
FatDir.v
FatCalls.v
FatTypes.v
Sd.v
SdSpec.v
SdCard.v
Board.v
Framebuffer.v
Filesystem.v
Kernel.v
FileCalls.v
UserCalls.v
Exec.v
ExecMem.v
Dispatch.v
Svc.v
Shell.v
UserLib.v
Programs.v
ShellPath.v
FileSpec.v
FatSlots.v
FatSearch.v
FatAdd.v
FatPath.v
FatDemo.v
PropSched.v
PropState.v
PropTick.v
PropCalls.v
PropFat.v
PropFile.v
PropDir.v
PropPath.v
PropMem.v
PropWorld.v
PropDevice.v
PropIrq.v
PropShell.v
PropBoot.v
PropSvc.v
PropUser.v
