(* ===== verification/Prelude.v ===== *)
(** * demoOS: a verification development

    demoOS is a kernel in C for the Raspberry Pi 3: preemptive processes under one of seven
    scheduling algorithms, messages and signals between them, virtual memory, a FAT32 volume
    on an SD card, a console on the UART, a framebuffer, a shell and a few user libraries.
    This development models these parts as executable functions and proves what they
    promise.

    ** How the parts interact

    The timer and the UART interrupt the processor ([Irq]); the handler ticks the scheduler
    or fills the ring buffer of the console.  A program raises an exception with [svc]
    ([Svc]), the dispatcher ([Dispatch]) reads number and arguments from the saved registers
    and calls a handler: on processes ([Syscalls], [Ipc], [Fork]), on the console ([Uart]),
    on files ([FileCalls], [Exec]).  Handlers on files join the kernel with the mount point
    ([Filesystem]) and the FAT32 library ([FatTable], [FatFile], [FatMount], [FatDir],
    [FatCalls]), which reads and writes sectors through the SD card driver ([Sd]).  Whatever
    blocks ends in the scheduler ([Scheduler]), which keeps the processes that can run in
    intrusive queues ([ReadyQueue]) of process control blocks ([Process]).  [Kernel] starts
    all of this on one [Board] after [Boot] has built the page tables of the kernel.

    ** Conventions

    A C function is a function from the state it reads to an [outcome]: a value and a new
    state, undefined behaviour, or a bound on a loop that was too small.  Undefined are a
    NULL or dangling dereference, an access outside an array and a page of one structure
    used as another; a theorem that ends in [Done] excludes them.  Each component has the
    state it works on: [K] is the kernel, [I] the kernel with its devices, [V] one FAT volume,
    [F] a volume and an open file, [L] all volumes, [W] kernel, volumes and the structures in
    kernel pages, [D] the SD driver, [B] the board.  Integers are [Z] with their wrap-around
    written out ([to_int], [u32], [u64]); [char] is unsigned, as on this processor; bytes are
    lists of [Z].

    - Pointers to PCBs are names ([pcb_ptr]) of the idle task or of a kernel page, in a store,
      so that the queues and the process table alias as they do in the code.
    - Memory is a map of 64-bit words by kernel virtual address; bytes are parts of words.
      A process sees it through the walk of its page tables ([Paging.translate]); the TLB
      is not modelled.  While the MMU is off an address is physical, and memory is indexed
      by [VA_START] plus it.
    - The memory behind a pointer of a program is [memory_at], and what a handler stores
      through such a pointer is a list of writes.
    - A call that blocks is one round of its loop: it sets the state of the caller, calls
      [schedule] and is made again when the caller is dispatched.
    - A device is a state with effects of reading and writing registers (class [Mmio]); what a
      driver needs of one are the laws of a class ([SystemTimer], [EmmcController]) that
      follow the manual of the peripherals.  A program is written against the class
      [UserCalls].  All FAT volumes are on one device.
    - Interrupts come between the operations of [System.step], not inside one; the interrupt
      mask is recorded.

    ** The files and the code they model

    - [Process], [ReadyQueue], [Scheduler]: src/libs/scheduler.h and scheduler.c, with the
      context switch of src/libs/fork_asm.S.  [SchedSpec] gives the operations on abstract
      queues, [SchedInv] the invariant, [SchedDispatch], [SchedPick], [SchedAging],
      [SchedLottery], [SchedTick], [SchedOps] and [SchedParam] refine the code to them,
      [SchedChoice] says which process a decision chooses, [Frame] what none of them touches.
    - [CString]: src/common/string.c.  [Ipc]: src/libs/ipc.c.
    - [Mm]: src/libs/mm.c and the routines of src/common/memory.S; [Paging], [UserMem] and
      [ForkMem] give the mapping and the bytes of a process.
    - [Fork]: src/libs/fork.c.  [Syscalls]: the calls on processes in src/libs/syscalls.c.
    - [Uart]: src/drivers/uart/uart.c with [syscall_input] and [syscall_write].
    - [System]: all steps of the kernel and its invariant; [Demo]: sample states.
    - [Mmio], [Irq]: src/arch/mmio.h, src/drivers/timer/timer.c, src/drivers/irq/controller.c
      and the entry and exit macros of src/drivers/irq/entry.S.
    - [Boot], [BootMap]: src/boot/start.S, and what the page tables it builds map.
    - [FatNames], [FatTable], [FatFile], [FatMount], [FatDir], [FatCalls]:
      src/libs/fat32/fat.c.  [FatCache], [FatChain], [FatData], [FatSlots], [FatSearch] and
      [FatMounted] give the store behind the buffer, chains, contents of files, directories
      as lists of entries, the outcome of a search, and a volume as it is mounted; [FatAdd]
      what adding and removing a name do to a directory; [FatPath] what a path leads to and
      what unlinking leaves; [FatTypes] the types of the state and that every call keeps
      them; [FatDemo] is a sample volume.
    - [Sd]: src/drivers/sd/sd.c; [SdSpec] the laws and the termination, [SdCard] the transfers.
    - [Filesystem]: src/libs/filesystem.c.  [FileCalls], [Exec], [Dispatch]: the calls on
      files, [syscall_exec] and [syscall_dispatcher] in src/libs/syscalls.c; [FileSpec] and
      [ExecMem] what they leave alone and what an executed program finds in memory.
    - [Svc]: the exceptions of user code in src/drivers/irq/entry.S and the stubs of
      src/common/user_syscalls.S.
    - [Board]: the kernel with all devices, and src/drivers/mbox/mbox.c.  [Framebuffer]:
      src/drivers/framebuffer/framebuffer.c.  [Kernel]: src/kernel/kernel.c and [uart_init].
    - [UserCalls]: src/common/user_syscalls.h as an interface.  [Shell], [ShellPath]:
      src/app/shell.c.  [UserLib]: src/common/testlib.c, src/common/process_api.c and
      src/user/user.c.  [Programs]: the other programs in src/app.

    ** What the theorems show

    - [PropState]: from boot on, under each of the algorithms, every step keeps the
      invariant of the kernel (queues, states and table agree), and every loop of the
      scheduler ends; the pointer code refines operations on lists.
    - [PropSched], [PropTick]: which process each algorithm dispatches; the demotions and the
      boost of MLFQ, preemption, signals, the context switch; an exit wakes who waits.
    - [PropCalls]: sending, receiving and their limits, fork, the page allocator and the line
      editor, each as a function of the state before.
    - [PropMem]: a page that is mapped is where the walk finds it; the child of a fork and an
      executed program find the bytes they should.
    - [PropFat], [PropFile], [PropDir]: the sector buffer is transparent; chains grow and are
      freed by exactly their clusters; what is written to a file is read back; a directory
      search finds the first entry of that name; a name that is added is found, one that is
      removed is not, and the others stay as they were.
    - [PropPath]: a path of any length is followed to the entry it means, or to an error each
      call on paths reports; unlinking frees the clusters and the entries of a file and
      changes nothing else; and whatever is on the device, any sequence of calls keeps every
      number in its width and every buffer in its size.
    - [PropDevice]: the driver returns whatever the card does, and with a card that follows
      the laws it is the device the FAT library is modelled on.
    - [PropWorld]: files through the system calls, from opening to running out of
      descriptors, and mounting at start-up.
    - [PropIrq], [PropSvc]: interrupts and system calls give a program its registers back,
      except for the result; an interrupt keeps the invariant and re-arms the timer.
    - [PropBoot]: from the reset the primary core enters the kernel in EL1, on page tables
      that map the physical memory; from there the kernel comes to its idle loop with a
      process ready, in a state the invariant goes on from.
    - [PropShell], [PropUser]: the paths and commands of the shell, the numbers of the user
      library and of the benchmark, the text on the screen.

    Theorems about files of the list above also state where the code does not do what it
    means to; the behaviour is modelled as it is.

    ** Bounds

    Recursion that is not on the data has fuel; the theorems about its results say that it is
    enough where the loop of the code ends.  [queue_fuel] is [N_PROCESSES + 1], more than a queue can hold; [epoch_fuel] is 2: one
    recharge makes a candidate.  [chain_fuel] and [dir_fuel] are the number of clusters and
    of entries of the volume, [list_fuel] the number of volumes.  The console loop has
    [UART_BUFFER_SIZE + 1], [DIGITS] is 20 for a number of 64 bits, a block map has at most
    [PTRS_PER_TABLE] entries, the path of the shell as many rounds as characters; [exec]
    copies 16 pages ([CODE_PAGES]).  The SD driver has the counters of the code; [polls]
    bounds the readings of the timer in one wait ([enough_polls] says from which number on
    it is enough).  Loops that have no bound in the code (the SCR register, the mailbox,
    [uart_getc], burning time) get their fuel as an argument, and a hypothesis says that
    the device answers.  [ls] and [tree] of the shell get the number of entries and levels
    they may visit.

    ** Not modelled

    [irq_vector_init] is an instruction on a register no model here has.
    [print_circular_buffer] only prints for debugging, and so does the banner of the shell.
    What a process does after a fork is followed in one of the two processes.  Endless loops ([kernel_main] at its end, the shell,
    [err_hang]) are given by their rounds or by the state they are entered in.  A write
    through a pointer of a program to memory of another structure, and two cores, are
    outside the model: the code runs on one and parks the others. *)

From Stdlib Require Export ZArith Lia.
From stdpp Require Export base tactics numbers list gmap sets.

#[global] Set Default Goal Selector "!".

(** ** Outcomes of a C computation

    A C function is modelled by a function from the state it reads to an
    outcome: it is [Done] with a value and a new state, its behaviour is
    [Undefined] (a NULL or dangling dereference, an access outside an array),
    or the bound the model puts on one of its loops was too small ([Fuel]).
    A theorem that a result is [Done] excludes both. *)
Inductive outcome (St A : Type) : Type :=
  | Done (a : A) (s : St)
  | Undefined
  | Fuel.
Arguments Done {St A} a s.
Arguments Undefined {St A}.
Arguments Fuel {St A}.

Definition M (St : Type) (A : Type) : Type := St → outcome St A.

#[export] Instance M_ret {St} : MRet (M St) := λ A a s, Done a s.
#[export] Instance M_bind {St} : MBind (M St) := λ A B f m s,
  match m s with
  | Done a s' => f a s'
  | Undefined => Undefined
  | Fuel => Fuel
  end.

(** Primitive computations. *)
Definition undefined {St A} : M St A := λ _, Undefined.
Definition out_of_fuel {St A} : M St A := λ _, Fuel.
Definition gets {St A} (f : St → A) : M St A := λ s, Done (f s) s.
Definition modify {St} (f : St → St) : M St unit := λ s, Done tt (f s).
(** [o] is the result of a partial access: [None] is undefined behaviour. *)
Definition defined {St A} (o : option A) : M St A :=
  match o with Some a => mret a | None => undefined end.
(** [if (b) c;] *)
Definition when {St} (b : bool) (c : M St unit) : M St unit := if b then c else mret tt.

(** [for (x in l) f(x);] *)
Fixpoint for_each {St A} (l : list A) (f : A → M St unit) : M St unit :=
  match l with
  | [] => mret tt
  | x :: l' => f x;; for_each l' f
  end.

(** ** Weakest preconditions (total: the computation is [Done]) *)
Definition wp {St A} (m : M St A) (Q : A → St → Prop) (s : St) : Prop :=
  match m s with Done a s' => Q a s' | _ => False end.

Section wp.
Context {St A B : Type}.
Implicit Types (m : M St A) (s : St).

Lemma wp_ret a Q s : wp (mret a : M St A) Q s ↔ Q a s.
Proof. done. Qed.
Lemma wp_bind m (k : A → M St B) Q s :
  wp (m ≫= k) Q s ↔ wp m (λ a s', wp (k a) Q s') s.
Proof. unfold wp, mbind, M_bind. by destruct (m s). Qed.
Lemma wp_gets (f : St → A) Q s : wp (gets f) Q s ↔ Q (f s) s.
Proof. done. Qed.
Lemma wp_modify f Q s : wp (modify (St:=St) f) Q s ↔ Q tt (f s).
Proof. done. Qed.
Lemma wp_defined (o : option A) Q s :
  wp (defined o) Q s ↔ ∃ a, o = Some a ∧ Q a s.
Proof. destruct o as [a|]; cbn; naive_solver. Qed.
Lemma wp_mono m (P Q : A → St → Prop) s :
  wp m P s → (∀ a s', P a s' → Q a s') → wp m Q s.
Proof. unfold wp. destruct (m s); auto. Qed.
Lemma wp_done m Q s : wp m Q s ↔ ∃ a s', m s = Done a s' ∧ Q a s'.
Proof. unfold wp. destruct (m s); naive_solver. Qed.
Lemma wp_when b (c : M St unit) Q s :
  wp (when b c) Q s ↔ if b then wp c Q s else Q tt s.
Proof. by destruct b. Qed.
End wp.

(** Partial correctness: what holds if the computation is [Done]. *)
Definition wlp {St A} (m : M St A) (Q : A → St → Prop) (s : St) : Prop :=
  match m s with Done a s' => Q a s' | _ => True end.
Lemma wlp_bind {St A B} (m : M St A) (k : A → M St B) Q s :
  wlp (m ≫= k) Q s ↔ wlp m (λ a s', wlp (k a) Q s') s.
Proof. unfold wlp, mbind, M_bind. by destruct (m s). Qed.
Lemma wp_wlp {St A} (m : M St A) Q s : wp m Q s → wlp m Q s.
Proof. unfold wp, wlp. by destruct (m s). Qed.
Lemma wlp_mono {St A} (m : M St A) (P Q : A → St → Prop) s :
  wlp m P s → (∀ a s', P a s' → Q a s') → wlp m Q s.
Proof. unfold wlp. destruct (m s); auto. Qed.
Lemma wlp_defined {St A} (o : option A) (Q : A → St → Prop) s :
  (∀ a, o = Some a → Q a s) → wlp (defined o) Q s.
Proof. destruct o; [intros H; by apply H|done]. Qed.

(** Both at once: total correctness where [total] holds. *)
Definition tlp {St A} (total : bool) (m : M St A) (Q : A → St → Prop) (s : St) : Prop :=
  if total then wp m Q s else wlp m Q s.
Lemma tlp_bind {St A B} total (m : M St A) (k : A → M St B) Q s :
  tlp total (m ≫= k) Q s ↔ tlp total m (λ a s', tlp total (k a) Q s') s.
Proof. destruct total; [apply wp_bind|apply wlp_bind]. Qed.
Lemma wp_tlp {St A} total (m : M St A) Q s : wp m Q s → tlp total m Q s.
Proof. destruct total; [done|apply wp_wlp]. Qed.
Lemma tlp_wlp {St A} total (m : M St A) Q s : tlp total m Q s → wlp m Q s.
Proof. destruct total; [apply wp_wlp|done]. Qed.
Lemma tlp_mono {St A} total (m : M St A) (P Q : A → St → Prop) s :
  tlp total m P s → (∀ a s', P a s' → Q a s') → tlp total m Q s.
Proof. destruct total; [apply wp_mono|apply wlp_mono]. Qed.
Lemma wlp_total {St A} total (m : M St A) Q s :
  wlp m Q s → (total = true → wp m (λ _ _, True) s) → tlp total m Q s.
Proof. destruct total; [|done]. unfold tlp, wlp, wp. destruct (m s); auto. Qed.

(** [for_each] follows the list with an invariant on the elements visited. *)
Lemma wp_for_each {St A} (I : list A → St → Prop) (f : A → M St unit) l s :
  I [] s →
  (∀ seen x rest s, l = seen ++ x :: rest → I seen s →
     wp (f x) (λ _ s', I (seen ++ [x]) s') s) →
  wp (for_each l f) (λ _ s', I l s') s.
Proof.
  intros H0 Hstep.
  enough (∀ rest seen s, l = seen ++ rest → I seen s →
            wp (for_each rest f) (λ _ s', I l s') s) as H by by eapply (H l []).
  induction rest as [|x rest IH]; intros seen s' Hl HI.
  - cbn. by rewrite app_nil_r in Hl; subst.
  - cbn. apply wp_bind. eapply wp_mono; [by eapply Hstep|].
    intros [] s'' HI'. apply (IH (seen ++ [x])); [|done].
    by rewrite <- app_assoc.
Qed.

(** [for (i = 0; i < n; i++) f(i);] with an invariant on the index. *)
Lemma wp_for_range {St} (I : nat → St → Prop) (f : Z → M St unit) n s :
  I 0 s →
  (∀ i s, i < n → I i s → wp (f (Z.of_nat i)) (λ _ s', I (S i) s') s) →
  wp (for_each (seqZ 0 (Z.of_nat n)) f) (λ _ s', I n s') s.
Proof.
  intros H0 Hstep.
  enough (∀ k i s, i + k = n → I i s →
    wp (for_each (seqZ (Z.of_nat i) (Z.of_nat k)) f) (λ _ s', I n s') s) as H
    by by apply (H n 0).
  induction k as [|k IH]; intros i s' Hik HI.
  - by replace n with i by lia.
  - rewrite seqZ_cons by lia. cbn [for_each]. apply wp_bind.
    eapply wp_mono; [apply Hstep; [lia|done]|]. intros [] s'' HI'.
    replace (Z.succ (Z.of_nat i)) with (Z.of_nat (S i)) by lia.
    replace (Z.pred (Z.of_nat (S k))) with (Z.of_nat k) by lia.
    apply IH; [lia|done].
Qed.

(** The occupied slots of a table in which nothing occurs twice. *)
Lemma NoDup_omap_id {A} (l : list (option A)) :
  (∀ i j x, l !! i = Some (Some x) → l !! j = Some (Some x) → i = j) → NoDup (omap id l).
Proof.
  induction l as [|[x|] l IH]; intros Hinj; cbn.
  - constructor.
  - constructor.
    + intros (o & [j Hj]%list_elem_of_lookup & Ho)%list_elem_of_omap. cbn in Ho. subst o.
      by specialize (Hinj 0 (S j) x eq_refl Hj).
    + apply IH. intros i j y Hi Hj. by specialize (Hinj (S i) (S j) y Hi Hj) as [= ->].
  - apply IH. intros i j y Hi Hj. by specialize (Hinj (S i) (S j) y Hi Hj) as [= ->].
Qed.

Lemma filter_ext_in {A} (P Q : A → Prop) `{!∀ x, Decision (P x), !∀ x, Decision (Q x)}
    (l : list A) :
  (∀ x, x ∈ l → P x ↔ Q x) → filter P l = filter Q l.
Proof.
  induction l as [|x l IH]; intros Heq; [done|]. rewrite !filter_cons.
  rewrite (decide_ext (P x) (Q x)) by (apply Heq; left).
  rewrite IH by (intros; apply Heq; by right). done.
Qed.

Lemma filter_all {A} (P : A → Prop) `{!∀ x, Decision (P x)} (l : list A) :
  (∀ x, x ∈ l → P x) → filter P l = l.
Proof.
  induction l as [|x l IH]; intros HP; [done|]. rewrite filter_cons.
  rewrite decide_True by (apply HP; left). rewrite IH by (intros; apply HP; by right). done.
Qed.

Lemma filter_none {A} (P : A → Prop) `{!∀ x, Decision (P x)} (l : list A) :
  (∀ x, x ∈ l → ¬ P x) → filter P l = [].
Proof.
  induction l as [|x l IH]; intros HP; [done|]. rewrite filter_cons.
  rewrite decide_False by (apply HP; left). apply IH. intros. apply HP. by right.
Qed.

Lemma length_filter_fmap {A B} (f : A → B) (P : B → Prop) `{!∀ x, Decision (P x)}
    (l : list A) :
  length (filter P (f <$> l)) = length (filter (λ x, P (f x)) l).
Proof.
  induction l as [|x l IH]; [done|]. rewrite fmap_cons, !filter_cons.
  destruct (decide (P (f x))); cbn; by rewrite IH.
Qed.

(** The symbolic execution step: unfold binds and the primitives. *)
Ltac wp_step :=
  repeat first
    [ progress (rewrite ?wp_bind, ?wp_ret, ?wp_gets, ?wp_modify, ?wp_when)
    | progress cbn beta iota ].

(** ** Arrays: C arrays of fixed length, indexed by machine integers *)
Definition arr_get {A} (l : list A) (i : Z) : option A :=
  if decide (0 ≤ i)%Z then l !! Z.to_nat i else None.
Definition arr_set {A} (l : list A) (i : Z) (x : A) : option (list A) :=
  if decide (0 ≤ i < Z.of_nat (length l))%Z then Some (<[Z.to_nat i := x]> l) else None.

Section arrays.
Context {A : Type}.
Implicit Types (l : list A) (i j : Z) (x : A).
Local Open Scope Z_scope.

Lemma arr_get_is_Some l i : is_Some (arr_get l i) ↔ 0 ≤ i < Z.of_nat (length l).
Proof.
  unfold arr_get. case_decide as Hi; [rewrite lookup_lt_is_Some; lia|].
  split; [by intros []|lia].
Qed.
Lemma arr_get_Some_bound l i x : arr_get l i = Some x → 0 ≤ i < Z.of_nat (length l).
Proof. intros H. apply arr_get_is_Some. eauto. Qed.
Lemma arr_get_lookup l i : 0 ≤ i → arr_get l i = l !! Z.to_nat i.
Proof. intros. unfold arr_get. by rewrite decide_True. Qed.
Lemma arr_set_Some l i x l' :
  arr_set l i x = Some l' ↔ 0 ≤ i < Z.of_nat (length l) ∧ l' = <[Z.to_nat i := x]> l.
Proof. unfold arr_set. case_decide; naive_solver. Qed.
Lemma arr_set_in l i x :
  0 ≤ i < Z.of_nat (length l) → arr_set l i x = Some (<[Z.to_nat i := x]> l).
Proof. intros. by apply arr_set_Some. Qed.
Lemma arr_set_out l i x : ¬ 0 ≤ i < Z.of_nat (length l) → arr_set l i x = None.
Proof. intros. unfold arr_set. by rewrite decide_False. Qed.
Lemma arr_get_insert l i j x :
  0 ≤ i < Z.of_nat (length l) →
  arr_get (<[Z.to_nat i := x]> l) j = if decide (i = j) then Some x else arr_get l j.
Proof.
  intros. unfold arr_get. case_decide; case_decide; subst; try lia; [| |done].
  - apply list_lookup_insert_eq. lia.
  - apply list_lookup_insert_ne. lia.
Qed.
Lemma arr_set_length l i x l' : arr_set l i x = Some l' → length l' = length l.
Proof. intros [_ ->]%arr_set_Some. apply length_insert. Qed.
End arrays.

(** ** Machine integers *)
Section machine_integers.
Local Open Scope Z_scope.
Definition u8 (z : Z) : Z := z mod 2 ^ 8.
Definition u16 (z : Z) : Z := z mod 2 ^ 16.
Definition u32 (z : Z) : Z := z mod 2 ^ 32.
Definition u64 (z : Z) : Z := z mod 2 ^ 64.
(** The two's complement value of the low 32 bits: a conversion to [int]. *)
Definition to_int (z : Z) : Z :=
  let w := z mod 2 ^ 32 in if w <? 2 ^ 31 then w else w - 2 ^ 32.
(** Bytes of a byte string. *)
Definition byte_range (z : Z) : Prop := 0 ≤ z < 256.

Lemma u64_small z : 0 ≤ z < 2 ^ 64 → u64 z = z.
Proof. apply Z.mod_small. Qed.
Lemma u32_small z : 0 ≤ z < 2 ^ 32 → u32 z = z.
Proof. apply Z.mod_small. Qed.
Lemma u8_range z : 0 ≤ u8 z < 2 ^ 8.
Proof. by apply Z.mod_pos_bound. Qed.
Lemma u16_range z : 0 ≤ u16 z < 2 ^ 16.
Proof. by apply Z.mod_pos_bound. Qed.
Lemma u32_range z : 0 ≤ u32 z < 2 ^ 32.
Proof. by apply Z.mod_pos_bound. Qed.
Lemma u64_range z : 0 ≤ u64 z < 2 ^ 64.
Proof. by apply Z.mod_pos_bound. Qed.
Lemma to_int_small z : - 2 ^ 31 ≤ z < 2 ^ 31 → to_int z = z.
Proof.
  intros H. unfold to_int.
  destruct (decide (0 ≤ z)).
  - rewrite Z.mod_small by lia. destruct (Z.ltb_spec z (2 ^ 31)); lia.
  - replace (z mod 2 ^ 32) with (z + 2 ^ 32).
    + destruct (Z.ltb_spec (z + 2 ^ 32) (2 ^ 31)); lia.
    + apply Z.mod_unique with (-1); lia.
Qed.
End machine_integers.
