(* ===== verification/Process.v ===== *)
(** * Process control blocks and the kernel state

    The data of src/libs/scheduler.h and the global variables of
    src/libs/scheduler.c, with the primitive accesses the kernel code is written
    with.  A PCB is reached through a pointer ([pcb_ptr]): the static
    [init_process] or the kernel page [copy_process] allocated for it.  The PCBs
    live in a store ([heap]), so that the intrusive ready lists, which are
    threaded through the [next_ready] field of the PCBs, are modelled with the
    aliasing the code has. *)
From S2P Require Import Prelude.
From stdpp Require Import strings.
From Stdlib Require Import Ascii String.
Local Open Scope Z_scope.

(** ** Constants of scheduler.h and common/ipc_types.h *)
Definition N_PROCESSES : Z := 64.
Definition MAX_FILES_PER_PROCESS : Z := 16.
Definition MAX_PROCESS_PAGES : Z := 16.
Definition MAX_MESSAGES_PER_PROCESS : Z := 4.
Definition MAX_MESSAGES_BODY_SIZE : Z := 256.
Definition ML_MAX_LEVELS : Z := 5.
Definition MLFQ_BOOST_PERIOD : Z := 300.
Definition QUEUE_PRIORITY_HIGHEST : Z := 0.
Definition UART_BUFFER_SIZE : Z := 64.

Definition PROCESS_RUNNING : Z := 1.
Definition PROCESS_ZOMBIE : Z := 2.
Definition PROCESS_WAITING_UART_INPUT : Z := 3.
Definition PROCESS_WAITING_TO_RECEIVE_MESSAGE : Z := 4.
Definition PROCESS_WAITING_TO_SEND_MESSAGE : Z := 5.
Definition PROCESS_WAITING_ANOTHER_PROCESS : Z := 6.
Definition PROCESS_STOPPED : Z := 7.
Definition PROCESS_READY : Z := 8.

Definition SIGNAL_KILL : Z := 1.
Definition SIGNAL_STOP : Z := 2.
Definition SIGNAL_RESUME : Z := 3.

Definition SCHED_PARAM_PRIORITY : Z := 0.
Definition SCHED_PARAM_TICKETS : Z := 1.
Definition SCHED_PARAM_QUEUE_PRIORITY : Z := 2.

(** ** Pointers to PCBs; a nullable pointer is an [option pcb_ptr] *)
Inductive pcb_ptr : Type :=
  | InitProcess
  | KernelPage (address : Z).

#[export] Instance pcb_ptr_eq_dec : EqDecision pcb_ptr.
Proof. solve_decision. Defined.
#[export] Program Instance pcb_ptr_countable : Countable pcb_ptr :=
  inj_countable' (λ p, match p with InitProcess => None | KernelPage a => Some a end)
                 (λ o, match o with None => InitProcess | Some a => KernelPage a end) _.
Next Obligation. by intros []. Qed.

(** ** The PCB *)
Record cpu_context_t := {
  x19 : Z; x20 : Z; x21 : Z; x22 : Z; x23 : Z; x24 : Z; x25 : Z; x26 : Z;
  x27 : Z; x28 : Z; fp : Z; sp : Z; pc : Z
}.
Definition zero_context : cpu_context_t :=
  {| x19 := 0; x20 := 0; x21 := 0; x22 := 0; x23 := 0; x24 := 0; x25 := 0; x26 := 0;
     x27 := 0; x28 := 0; fp := 0; sp := 0; pc := 0 |}.

Record user_page := { physical_address : Z; virtual_address : Z }.
Record mm_struct := {
  pgd : Z;
  n_user_pages : Z;
  user_pages : list user_page;
  n_kernel_pages : Z;
  kernel_pages : list Z
}.

Record Message := {
  source_process : option pcb_ptr;
  destination_process : option pcb_ptr;
  body : list Z
}.
Record MessagesCircularBuffer := { mb_head : Z; mb_tail : Z; mb_buffer : list Message }.

Record PCB := {
  cpu_context : cpu_context_t;
  state : Z;
  counter : Z;
  priority : Z;
  est_burst : Z;
  burst_ticks : Z;
  queue_priority : Z;
  tickets : Z;
  preempt_disabled : Z;
  pid : Z;
  flags : Z;
  files : list (option Z);
  mm : mm_struct;
  messages_buffer : MessagesCircularBuffer;
  pending_signals : Z;
  pid_to_wait : Z;
  next_ready : option pcb_ptr
}.

Definition zero_message : Message :=
  {| source_process := None; destination_process := None;
     body := replicate (Z.to_nat MAX_MESSAGES_BODY_SIZE) 0 |}.
Definition zero_messages_buffer : MessagesCircularBuffer :=
  {| mb_head := 0; mb_tail := 0;
     mb_buffer := replicate (Z.to_nat MAX_MESSAGES_PER_PROCESS) zero_message |}.
Definition zero_mm : mm_struct :=
  {| pgd := 0; n_user_pages := 0;
     user_pages := replicate (Z.to_nat MAX_PROCESS_PAGES)
                     {| physical_address := 0; virtual_address := 0 |};
     n_kernel_pages := 0;
     kernel_pages := replicate (Z.to_nat MAX_PROCESS_PAGES) 0 |}.

(** The PCB a freshly zeroed kernel page holds. *)
Definition zero_PCB : PCB :=
  {| cpu_context := zero_context; state := 0; counter := 0; priority := 0;
     est_burst := 0; burst_ticks := 0; queue_priority := 0; tickets := 0;
     preempt_disabled := 0; pid := 0; flags := 0;
     files := replicate (Z.to_nat MAX_FILES_PER_PROCESS) None;
     mm := zero_mm; messages_buffer := zero_messages_buffer;
     pending_signals := 0; pid_to_wait := 0; next_ready := None |}.

(** The initializer of the idle task. *)
Definition INIT_PROCESS : PCB :=
  {| cpu_context := zero_context; state := 0; counter := 1; priority := 1;
     est_burst := 0; burst_ticks := 0; queue_priority := QUEUE_PRIORITY_HIGHEST;
     tickets := 10; preempt_disabled := 0; pid := 0; flags := 0;
     files := replicate (Z.to_nat MAX_FILES_PER_PROCESS) None;
     mm := zero_mm; messages_buffer := zero_messages_buffer;
     pending_signals := 0; pid_to_wait := -1; next_ready := None |}.

(** Field assignments [p->f = v]. *)
Definition set_cpu_context v pcb : PCB := {| pcb with cpu_context := v |}.
Definition set_state v pcb : PCB := {| pcb with state := v |}.
Definition set_counter v pcb : PCB := {| pcb with counter := v |}.
Definition set_priority v pcb : PCB := {| pcb with priority := v |}.
Definition set_est_burst v pcb : PCB := {| pcb with est_burst := v |}.
Definition set_burst_ticks v pcb : PCB := {| pcb with burst_ticks := v |}.
Definition set_queue_priority v pcb : PCB := {| pcb with queue_priority := v |}.
Definition set_tickets v pcb : PCB := {| pcb with tickets := v |}.
Definition set_preempt_disabled v pcb : PCB := {| pcb with preempt_disabled := v |}.
Definition set_mm v pcb : PCB := {| pcb with mm := v |}.
Definition set_messages_buffer v pcb : PCB := {| pcb with messages_buffer := v |}.
Definition set_pending_signals v pcb : PCB := {| pcb with pending_signals := v |}.
Definition set_pid_to_wait v pcb : PCB := {| pcb with pid_to_wait := v |}.
Definition set_next_ready v pcb : PCB := {| pcb with next_ready := v |}.

(** ** Ready queues *)
Record ProcessQueue := { q_head : option pcb_ptr; q_tail : option pcb_ptr }.
Definition QUEUE_INIT : ProcessQueue := {| q_head := None; q_tail := None |}.

(** A [ProcessQueue*]: the address of [ready_queue] or of an element of
    [ml_queues]. *)
Inductive queue_ref := ReadyQueue | MlQueue (level : Z).

(** ** Physical memory as mm.c sees it

    [memory_pages] is the set of the indices of the array whose entry is 1, and
    [words] the 64-bit words of the memory the kernel addresses, by kernel
    virtual address (a word that was never written reads as zero). *)
Record memory := { memory_pages : gset Z; words : gmap Z Z }.

(** ** The kernel state *)
Record kernel := {
  heap : gmap pcb_ptr PCB;
  current_process : pcb_ptr;
  processes : list (option pcb_ptr);
  n_processes : Z;
  ready_queue : ProcessQueue;
  ml_queues : list ProcessQueue;
  queue_level : list Z;
  ml_ticks_since_boost : Z;
  lottery_rng_state : Z;
  mem : memory;
  cpu : cpu_context_t;          (* callee-saved registers, sp and return address *)
  ttbr0_el1 : Z;                (* page table base of the user half *)
  irq_enabled : bool;
  uart_owner : option pcb_ptr;
  uart_buffer : list Z;
  uart_head : Z;
  uart_tail : Z;
  uart_out : list Z;            (* bytes sent to UART0_DR, oldest first *)
  timer_clo : nat → Z           (* what the next reads of the system timer return *)
}.

Definition set_heap v s : kernel := {| s with heap := v |}.
Definition set_current_process v s : kernel := {| s with current_process := v |}.
Definition set_processes v s : kernel := {| s with processes := v |}.
Definition set_n_processes v s : kernel := {| s with n_processes := v |}.
Definition set_ready_queue v s : kernel := {| s with ready_queue := v |}.
Definition set_ml_queues v s : kernel := {| s with ml_queues := v |}.
Definition set_queue_level v s : kernel := {| s with queue_level := v |}.
Definition set_ml_ticks_since_boost v s : kernel := {| s with ml_ticks_since_boost := v |}.
Definition set_lottery_rng_state v s : kernel := {| s with lottery_rng_state := v |}.
Definition set_mem v s : kernel := {| s with mem := v |}.
Definition set_cpu v s : kernel := {| s with cpu := v |}.
Definition set_ttbr0_el1 v s : kernel := {| s with ttbr0_el1 := v |}.
Definition set_irq_enabled v s : kernel := {| s with irq_enabled := v |}.
Definition set_uart_owner v s : kernel := {| s with uart_owner := v |}.
Definition set_uart_buffer v s : kernel := {| s with uart_buffer := v |}.
Definition set_uart_head v s : kernel := {| s with uart_head := v |}.
Definition set_uart_tail v s : kernel := {| s with uart_tail := v |}.
Definition set_uart_out v s : kernel := {| s with uart_out := v |}.
Definition set_timer_clo v s : kernel := {| s with timer_clo := v |}.

(** The state the boot code jumps to [kernel_main] with: the initializers of the
    global variables, with a free-running timer that returns [clo]. *)
Definition boot_kernel (clo : nat → Z) : kernel :=
  {| heap := {[ InitProcess := INIT_PROCESS ]};
     current_process := InitProcess;
     processes := Some InitProcess :: replicate (Z.to_nat (N_PROCESSES - 1)) None;
     n_processes := 1;
     ready_queue := QUEUE_INIT;
     ml_queues := replicate (Z.to_nat ML_MAX_LEVELS) QUEUE_INIT;
     queue_level := replicate (Z.to_nat N_PROCESSES) 0;
     ml_ticks_since_boost := 0;
     lottery_rng_state := 88172645463325252;
     mem := {| memory_pages := ∅; words := ∅ |};
     cpu := zero_context;
     ttbr0_el1 := 0;
     irq_enabled := false;
     uart_owner := None;
     uart_buffer := replicate (Z.to_nat UART_BUFFER_SIZE) 0;
     uart_head := 0;
     uart_tail := 0;
     uart_out := [];
     timer_clo := clo |}.

(** ** Accesses *)
Abbreviation K := (M kernel).

(** [p->...] for a pointer that is not NULL. *)
Definition load (p : pcb_ptr) : K PCB := λ s,
  match heap s !! p with Some pcb => Done pcb s | None => Undefined end.
(** [p->field = ...]. *)
Definition update (p : pcb_ptr) (f : PCB → PCB) : K unit := λ s,
  match heap s !! p with
  | Some pcb => Done tt (set_heap (<[p := f pcb]> (heap s)) s)
  | None => Undefined
  end.
(** The PCB behind a nullable pointer. *)
Definition deref (o : option pcb_ptr) : K pcb_ptr := defined o.

Definition load_current : K PCB := gets current_process ≫= load.
Definition update_current (f : PCB → PCB) : K unit :=
  p ← gets current_process; update p f.

Definition get_queue (q : queue_ref) : K ProcessQueue :=
  match q with
  | ReadyQueue => gets ready_queue
  | MlQueue i => qs ← gets ml_queues; defined (arr_get qs i)
  end.
Definition set_queue (q : queue_ref) (v : ProcessQueue) : K unit :=
  match q with
  | ReadyQueue => modify (set_ready_queue v)
  | MlQueue i =>
      qs ← gets ml_queues; qs' ← defined (arr_set qs i v); modify (set_ml_queues qs')
  end.

Definition get_queue_level (i : Z) : K Z := l ← gets queue_level; defined (arr_get l i).
Definition set_queue_level_at (i v : Z) : K unit :=
  l ← gets queue_level; l' ← defined (arr_set l i v); modify (set_queue_level l').
(** [processes[i]]. *)
Definition get_process (i : Z) : K (option pcb_ptr) :=
  l ← gets processes; defined (arr_get l i).
Definition set_process (i : Z) (p : pcb_ptr) : K unit :=
  l ← gets processes; l' ← defined (arr_set l i (Some p)); modify (set_processes l').

(** The indices [0 .. N_PROCESSES - 1] the scans of the table go through. *)
Definition process_slots : list Z := seqZ 0 N_PROCESSES.

(** ** UART output (drivers/uart/uart.c, transmit side): the busy wait on the
    flag register is not modelled, the byte reaches the data register. *)
Definition uart_putc (c : Z) : K unit := modify (λ s, set_uart_out (uart_out s ++ [u8 c]) s).
Definition bytes_of_string (str : string) : list Z :=
  (λ a, Z.of_nat (nat_of_ascii a)) <$> list_ascii_of_string str.
Fixpoint uart_put_bytes (l : list Z) : K unit :=
  match l with [] => mret tt | c :: l' => uart_putc c;; uart_put_bytes l' end.
(** [uart_hex]: [0x] and the sixteen hexadecimal digits, most significant first. *)
Definition hex_digit (nibble : Z) : Z := if nibble <? 10 then 48 + nibble else 55 + nibble.
Definition uart_hex (num : Z) : K unit :=
  uart_put_bytes [48; 120];;
  for_each ((λ k, 60 - 4 * k) <$> seqZ 0 16)
    (λ i, uart_putc (hex_digit (Z.land (Z.shiftr (u64 num) i) 15))).
Definition uart_puts (str : string) : K unit := uart_put_bytes (bytes_of_string str).

(** [mmio_read(0x00003004)]: the low word of the free-running system timer. *)
Definition read_timer_clo : K Z :=
  t ← gets timer_clo; modify (set_timer_clo (λ n, t (S n)));; mret (u32 (t O)).
