(* ===== verification/ReadyQueue.v ===== *)
(** * The intrusive ready queues

    The queue operations of src/libs/scheduler.c (lines 99-209) over the PCB
    store, the representation predicate that relates a [ProcessQueue] to the list
    of the processes linked from it, and the refinement of every operation to its
    list counterpart. *)
From S2P Require Import Prelude.
From S2P Require Import Process.
From Stdlib Require Import Sorted.
Local Open Scope Z_scope.

(** ** The code *)

(** Every loop over a ready queue visits each registered process at most once;
    the table has [N_PROCESSES] slots. *)
Definition queue_fuel : nat := S (Z.to_nat N_PROCESSES).
#[global] Arguments queue_fuel : simpl never.

Definition enqueue_process_to (queue : queue_ref) (process : option pcb_ptr) : K unit :=
  match process with
  | None | Some InitProcess => mret tt
  | Some p =>
      update p (set_next_ready None);;
      update p (set_state PROCESS_READY);;
      q ← get_queue queue;
      match q_tail q with
      | None => set_queue queue {| q_head := Some p; q_tail := Some p |}
      | Some t =>
          update t (set_next_ready (Some p));;
          q ← get_queue queue;
          set_queue queue {| q with q_tail := Some p |}
      end
  end.

Definition dequeue_process_from (queue : queue_ref) : K (option pcb_ptr) :=
  q ← get_queue queue;
  match q_head q with
  | None => mret None
  | Some p =>
      pcb ← load p;
      set_queue queue {| q with q_head := next_ready pcb |};;
      when (bool_decide (next_ready pcb = None))
        (set_queue queue {| q_head := next_ready pcb; q_tail := None |});;
      update p (set_next_ready None);;
      mret (Some p)
  end.

Definition remove_process_from (queue : queue_ref) (previous process : option pcb_ptr) : K unit :=
  p ← deref process;
  pcb ← load p;
  match previous with
  | None => q ← get_queue queue; set_queue queue {| q with q_head := next_ready pcb |}
  | Some prev => update prev (set_next_ready (next_ready pcb))
  end;;
  q ← get_queue queue;
  when (bool_decide (q_tail q = Some p)) (set_queue queue {| q with q_tail := previous |});;
  update p (set_next_ready None).

(** The [while] of [enqueue_sorted_to]: the node after which [process] goes. *)
Fixpoint sorted_insertion_point (fuel : nat) (process current : pcb_ptr) : K pcb_ptr :=
  match fuel with
  | O => out_of_fuel
  | S fuel' =>
      c ← load current;
      match next_ready c with
      | None => mret current
      | Some next =>
          p ← load process;
          n ← load next;
          if est_burst p <? est_burst n then mret current
          else sorted_insertion_point fuel' process next
      end
  end.

Definition enqueue_sorted_to (queue : queue_ref) (process : option pcb_ptr) : K unit :=
  match process with
  | None | Some InitProcess => mret tt
  | Some p =>
      update p (set_next_ready None);;
      update p (set_state PROCESS_READY);;
      q ← get_queue queue;
      match q_head q with
      | None => set_queue queue {| q_head := Some p; q_tail := Some p |}
      | Some h =>
          pcb ← load p;
          first ← load h;
          if est_burst pcb <? est_burst first then
            update p (set_next_ready (Some h));;
            q ← get_queue queue;
            set_queue queue {| q with q_head := Some p |}
          else
            current ← sorted_insertion_point queue_fuel p h;
            c ← load current;
            update p (set_next_ready (next_ready c));;
            update current (set_next_ready (Some p));;
            pcb ← load p;
            when (bool_decide (next_ready pcb = None))
              (q ← get_queue queue; set_queue queue {| q with q_tail := Some p |})
      end
  end.

(** ** Linked segments *)

(** [linked h o l e]: following [next_ready] from [o] visits the nodes [l] and
    then reaches [e]. *)
Fixpoint linked (h : gmap pcb_ptr PCB) (o : option pcb_ptr) (l : list pcb_ptr)
    (e : option pcb_ptr) : Prop :=
  match l with
  | [] => o = e
  | p :: l' => o = Some p ∧ ∃ pcb, h !! p = Some pcb ∧ linked h (next_ready pcb) l' e
  end.

Section linked.
Implicit Types (h : gmap pcb_ptr PCB) (l : list pcb_ptr) (o e : option pcb_ptr).

Lemma linked_app h o l1 l2 e :
  linked h o (l1 ++ l2) e ↔ ∃ m, linked h o l1 m ∧ linked h m l2 e.
Proof.
  revert o. induction l1 as [|p l1 IH]; intros o; cbn; [naive_solver|].
  setoid_rewrite IH. naive_solver.
Qed.
Lemma linked_snoc h o l p e :
  linked h o (l ++ [p]) e ↔
  linked h o l (Some p) ∧ ∃ pcb, h !! p = Some pcb ∧ next_ready pcb = e.
Proof. rewrite linked_app. cbn. naive_solver. Qed.

(** Only the [next_ready] fields of the visited nodes matter. *)
Lemma linked_ext h h' o l e :
  (∀ p, p ∈ l → next_ready <$> h' !! p = next_ready <$> h !! p) →
  linked h o l e → linked h' o l e.
Proof.
  revert o. induction l as [|p l IH]; intros o Hext; cbn; [done|].
  intros [-> (pcb & Hp & Hl)]. split; [done|].
  specialize (Hext p ltac:(left)) as Hp'. rewrite Hp in Hp'.
  destruct (h' !! p) as [pcb'|]; cbn in Hp'; [|done].
  exists pcb'. split; [done|]. injection Hp' as ->.
  apply IH; [|done]. intros. apply Hext. by right.
Qed.
Lemma linked_insert_notin h o l e p pcb :
  p ∉ l → linked h o l e → linked (<[p := pcb]> h) o l e.
Proof.
  intros Hp. apply linked_ext. intros p' Hp'.
  by rewrite lookup_insert_ne by set_solver.
Qed.
Lemma linked_insert_same h o l e p pcb pcb' :
  h !! p = Some pcb → next_ready pcb' = next_ready pcb →
  linked h o l e → linked (<[p := pcb']> h) o l e.
Proof.
  intros Hp Heq. apply linked_ext. intros p' _.
  destruct (decide (p = p')) as [<-|].
  - by rewrite lookup_insert_eq, Hp; cbn; rewrite Heq.
  - by rewrite lookup_insert_ne.
Qed.
Lemma linked_elem h o l e p : linked h o l e → p ∈ l → is_Some (h !! p).
Proof.
  revert o. induction l as [|q l IH]; intros o; cbn; [set_solver|].
  intros [_ (pcb & Hq & Hl)] [->|Hin]%elem_of_cons; eauto.
Qed.
Lemma linked_det h o l1 l2 :
  linked h o l1 None → linked h o l2 None → l1 = l2.
Proof.
  revert o l2. induction l1 as [|p l1 IH]; intros o [|q l2]; cbn.
  - done.
  - naive_solver.
  - naive_solver.
  - intros [-> (pcb & Hp & H1)] [[= <-] (pcb' & Hq & H2)].
    simplify_eq. f_equal. eauto.
Qed.
End linked.

(** A queue and the list it links, oldest first. *)
Definition queue_rep (h : gmap pcb_ptr PCB) (q : ProcessQueue) (l : list pcb_ptr) : Prop :=
  linked h (q_head q) l None ∧ q_tail q = last l.

Lemma queue_rep_ext h h' q l :
  (∀ p, p ∈ l → next_ready <$> h' !! p = next_ready <$> h !! p) →
  queue_rep h q l → queue_rep h' q l.
Proof. intros Hext [H1 H2]. split; [by eapply linked_ext|done]. Qed.

(** ** Sorted insertion, on lists *)
Section sorted.
Variable key : pcb_ptr → Z.

(** Insert [p] after every element whose key is at most [key p]. *)
Fixpoint insert_by (p : pcb_ptr) (l : list pcb_ptr) : list pcb_ptr :=
  match l with
  | [] => [p]
  | q :: l' => if key p <? key q then p :: l else q :: insert_by p l'
  end.
Definition ascending (l : list pcb_ptr) : Prop :=
  StronglySorted (λ p q, key p ≤ key q) l.

Lemma insert_by_perm p l : insert_by p l ≡ₚ p :: l.
Proof.
  induction l as [|q l IH]; cbn; [done|]. case_match; [done|].
  rewrite IH. constructor.
Qed.
Lemma insert_by_ascending p l : ascending l → ascending (insert_by p l).
Proof.
  unfold ascending. induction 1 as [|q l Hl IH Hq]; cbn.
  - repeat constructor.
  - destruct (Z.ltb_spec (key p) (key q)) as [Hlt|Hge].
    + constructor; [by constructor|]. constructor; [lia|].
      eapply Forall_impl; [exact Hq|]. cbn. lia.
    + constructor; [done|]. rewrite insert_by_perm. constructor; [lia|done].
Qed.
(** Equal keys keep their arrival order. *)
Lemma insert_by_split p l :
  ascending l →
  ∃ l1 l2, l = l1 ++ l2 ∧ insert_by p l = l1 ++ p :: l2 ∧
    Forall (λ q, key q ≤ key p) l1 ∧ Forall (λ q, key p < key q) l2.
Proof.
  induction 1 as [|q l Hl IH Hq]; cbn.
  - exists [], []. repeat constructor.
  - destruct (Z.ltb_spec (key p) (key q)) as [Hlt|Hge].
    + exists [], (q :: l). repeat split; constructor; [lia|].
      eapply Forall_impl; [exact Hq|]. cbn. lia.
    + destruct IH as (l1 & l2 & -> & -> & H1 & H2).
      exists (q :: l1), l2. repeat split; [|done]. by constructor.
Qed.
End sorted.

(** ** The abstract ready structure

    The abstract state keeps the kernel state with the link fields and the queue
    headers erased, and the contents of every queue as a list. *)
Definition unlink (pcb : PCB) : PCB := set_next_ready None pcb.
Definition erase (s : kernel) : kernel :=
  {| s with heap := unlink <$> heap s; ready_queue := QUEUE_INIT;
            ml_queues := replicate (Z.to_nat ML_MAX_LEVELS) QUEUE_INIT |}.

#[export] Instance queue_ref_eq_dec : EqDecision queue_ref.
Proof. solve_decision. Defined.

Definition valid_queue (q : queue_ref) : Prop :=
  match q with ReadyQueue => True | MlQueue i => 0 ≤ i < ML_MAX_LEVELS end.
Definition queue_at (s : kernel) (q : queue_ref) : option ProcessQueue :=
  match q with ReadyQueue => Some (ready_queue s) | MlQueue i => arr_get (ml_queues s) i end.
Definition put_queue (q : queue_ref) (v : ProcessQueue) (s : kernel) : kernel :=
  match q with
  | ReadyQueue => set_ready_queue v s
  | MlQueue i => set_ml_queues (<[Z.to_nat i := v]> (ml_queues s)) s
  end.

Record astate := { core : kernel; queues : queue_ref → list pcb_ptr }.

(** The process sits in no ready queue. *)
Definition unqueued (a : astate) (p : pcb_ptr) : Prop :=
  ∀ q, valid_queue q → p ∉ queues a q.
Definition allocated (a : astate) (p : pcb_ptr) : Prop := is_Some (heap (core a) !! p).

Definition upd_queue (q : queue_ref) (l : list pcb_ptr) (f : queue_ref → list pcb_ptr) :=
  λ q', if decide (q' = q) then l else f q'.

Definition a_core (g : kernel → kernel) (a : astate) : astate :=
  {| core := g (core a); queues := queues a |}.
Definition a_update (p : pcb_ptr) (f : PCB → PCB) : astate → astate :=
  a_core (λ k, set_heap (alter f p (heap k)) k).
Definition a_set_queue (q : queue_ref) (l : list pcb_ptr) (a : astate) : astate :=
  {| core := core a; queues := upd_queue q l (queues a) |}.
Definition a_enqueue (q : queue_ref) (p : pcb_ptr) (a : astate) : astate :=
  a_update p (set_state PROCESS_READY) (a_set_queue q (queues a q ++ [p]) a).

Record rep (s : kernel) (a : astate) : Prop := {
  rep_core : erase s = core a;
  rep_ml : length (ml_queues s) = Z.to_nat ML_MAX_LEVELS;
  rep_queue : ∀ q, valid_queue q →
    ∃ pq, queue_at s q = Some pq ∧ queue_rep (heap s) pq (queues a q);
  rep_nodup : ∀ q, valid_queue q → NoDup (queues a q);
  rep_disjoint : ∀ q1 q2 p, valid_queue q1 → valid_queue q2 →
    p ∈ queues a q1 → p ∈ queues a q2 → q1 = q2
}.

Section rep.
Implicit Types (s : kernel) (a : astate) (q : queue_ref) (p : pcb_ptr).

Lemma rep_field {A} (g : kernel → A) s a :
  (∀ s, g (erase s) = g s) → rep s a → g s = g (core a).
Proof. intros Hg Hr. by rewrite <- (rep_core _ _ Hr), Hg. Qed.
Lemma rep_heap s a : rep s a → heap (core a) = unlink <$> heap s.
Proof. intros Hr. by rewrite <- (rep_core _ _ Hr). Qed.
Lemma rep_lookup s a p pcb :
  rep s a → heap (core a) !! p = Some pcb →
  ∃ v, heap s !! p = Some (set_next_ready v pcb) ∧ next_ready pcb = None.
Proof.
  intros Hr. rewrite (rep_heap _ _ Hr), lookup_fmap.
  intros (pcb0 & -> & ->)%fmap_Some. exists (next_ready pcb0).
  by destruct pcb0.
Qed.
Lemma rep_lookup_inv s a p pcb :
  rep s a → heap s !! p = Some pcb → heap (core a) !! p = Some (unlink pcb).
Proof. intros Hr Hp. by rewrite (rep_heap _ _ Hr), lookup_fmap, Hp. Qed.
Lemma rep_allocated s a q p :
  rep s a → valid_queue q → p ∈ queues a q → allocated a p.
Proof.
  intros Hr Hq Hp. destruct (rep_queue _ _ Hr q Hq) as (pq & _ & Hl & _).
  destruct (linked_elem _ _ _ _ _ Hl Hp) as [pcb Hpcb].
  unfold allocated. rewrite (rep_lookup_inv _ _ _ _ Hr Hpcb). eauto.
Qed.

Lemma queue_at_put q v s :
  valid_queue q → length (ml_queues s) = Z.to_nat ML_MAX_LEVELS →
  queue_at (put_queue q v s) q = Some v.
Proof.
  intros Hq Hml. destruct q as [|i]; [done|]. cbn in *. unfold ML_MAX_LEVELS in *.
  rewrite arr_get_insert by lia. by rewrite decide_True.
Qed.
Lemma queue_at_put_ne q q' v s :
  q ≠ q' → valid_queue q → valid_queue q' →
  length (ml_queues s) = Z.to_nat ML_MAX_LEVELS →
  queue_at (put_queue q v s) q' = queue_at s q'.
Proof.
  intros Hne Hq Hq' Hml. destruct q as [|i], q' as [|j]; try done.
  cbn in *. unfold ML_MAX_LEVELS in *. rewrite arr_get_insert by lia.
  by rewrite decide_False by congruence.
Qed.
Lemma heap_put q v s : heap (put_queue q v s) = heap s.
Proof. by destruct q. Qed.
Lemma erase_put q v s : erase (put_queue q v s) = erase s.
Proof. by destruct q. Qed.
Lemma ml_put q v s : length (ml_queues (put_queue q v s)) = length (ml_queues s).
Proof. destruct q; cbn; [done|]. apply length_insert. Qed.

(** Changing one queue, and the links of its nodes only. *)
Lemma rep_change_queue s a s' q pq l c :
  rep s a → valid_queue q →
  erase s' = c →
  queue_at s' q = Some pq → queue_rep (heap s') pq l → NoDup l →
  length (ml_queues s') = length (ml_queues s) →
  (∀ q', valid_queue q' → q' ≠ q → queue_at s' q' = queue_at s q') →
  (∀ q' p, valid_queue q' → q' ≠ q → p ∈ queues a q' →
     next_ready <$> heap s' !! p = next_ready <$> heap s !! p) →
  (∀ q' p, valid_queue q' → q' ≠ q → p ∈ l → p ∉ queues a q') →
  rep s' {| core := c; queues := upd_queue q l (queues a) |}.
Proof.
  intros Hr Hq Hc Hpq Hl Hnd Hml Hat Hnext Hdis. split; cbn.
  - done.
  - by rewrite Hml, (rep_ml _ _ Hr).
  - intros q' Hq'. unfold upd_queue. case_decide as Heq; [subst; eauto|].
    destruct (rep_queue _ _ Hr q' Hq') as (pq' & Hpq' & Hl').
    exists pq'. rewrite Hat by done. split; [done|].
    eapply queue_rep_ext; [|done]. intros p Hp. by eapply Hnext.
  - intros q' Hq'. unfold upd_queue. case_decide; [done|]. by apply (rep_nodup _ _ Hr).
  - intros q1 q2 p H1 H2. unfold upd_queue. repeat case_decide; subst; try done.
    + intros Hp1 Hp2. by destruct (Hdis q2 p).
    + intros Hp1 Hp2. by destruct (Hdis q1 p).
    + by apply (rep_disjoint _ _ Hr).
Qed.

(** Changes that leave the links and the queue headers alone. *)
Lemma rep_keep_queues s a s' c :
  rep s a → erase s' = c →
  ready_queue s' = ready_queue s → ml_queues s' = ml_queues s →
  (∀ q p, valid_queue q → p ∈ queues a q →
     next_ready <$> heap s' !! p = next_ready <$> heap s !! p) →
  rep s' {| core := c; queues := queues a |}.
Proof.
  intros Hr Hc Hrq Hml Hnext. split; cbn; try done.
  - rewrite Hml. apply Hr.
  - intros q Hq. destruct (rep_queue _ _ Hr q Hq) as (pq & Hpq & Hl).
    exists pq. split.
    + destruct q; cbn in *; by rewrite ?Hrq, ?Hml.
    + eapply queue_rep_ext; [|done]. intros. by eapply Hnext.
  - apply Hr.
  - apply Hr.
Qed.
End rep.

(** ** Weakest preconditions of the accesses *)
Section access.
Implicit Types (s : kernel) (a : astate) (p : pcb_ptr).

Lemma wp_load_at p x (Q : PCB → kernel → Prop) s :
  heap s !! p = Some x → Q x s → wp (load p) Q s.
Proof. intros Hp HQ. unfold wp, load. by rewrite Hp. Qed.
Lemma wp_update_at p f x (Q : unit → kernel → Prop) s :
  heap s !! p = Some x → Q tt (set_heap (<[p := f x]> (heap s)) s) → wp (update p f) Q s.
Proof. intros Hp HQ. unfold wp, update. by rewrite Hp. Qed.
Lemma wp_get_queue q v (Q : ProcessQueue → kernel → Prop) s :
  queue_at s q = Some v → Q v s → wp (get_queue q) Q s.
Proof.
  intros Hq HQ. destruct q; cbn in *; [by injection Hq as ->|].
  apply wp_bind, wp_gets. unfold wp. by rewrite Hq.
Qed.
Lemma wp_set_queue q v (Q : unit → kernel → Prop) s :
  valid_queue q → length (ml_queues s) = Z.to_nat ML_MAX_LEVELS →
  Q tt (put_queue q v s) → wp (set_queue q v) Q s.
Proof.
  intros Hv Hml HQ. destruct q as [|i]; cbn in *; [done|].
  rewrite wp_bind. apply wp_gets. unfold ML_MAX_LEVELS in *.
  rewrite arr_set_in by lia. done.
Qed.

(** Field assignments other than [next_ready]. *)
Definition link_free (f : PCB → PCB) : Prop :=
  ∀ pcb v, f (set_next_ready v pcb) = set_next_ready v (f pcb).
Lemma link_free_next f pcb : link_free f → next_ready (f pcb) = next_ready pcb.
Proof.
  intros Hf. replace (f pcb) with (f (set_next_ready (next_ready pcb) pcb)).
  - by rewrite Hf.
  - by destruct pcb.
Qed.

Lemma erase_insert s p f x :
  link_free f → heap s !! p = Some x →
  erase (set_heap (<[p := f x]> (heap s)) s) =
  set_heap (alter f p (heap (erase s))) (erase s).
Proof.
  intros Hf Hp. unfold erase, set_heap; cbn. f_equal.
  rewrite fmap_insert. apply map_eq. intros p'.
  destruct (decide (p = p')) as [<-|].
  - rewrite lookup_insert_eq, lookup_alter_eq, lookup_fmap, Hp. cbn.
    f_equal. symmetry. apply Hf.
  - by rewrite lookup_insert_ne, lookup_alter_ne.
Qed.

Lemma wp_load p pcb (Q : PCB → kernel → Prop) s a :
  rep s a → heap (core a) !! p = Some pcb →
  (∀ v, Q (set_next_ready v pcb) s) → wp (load p) Q s.
Proof.
  intros Hr Hp HQ. destruct (rep_lookup _ _ _ _ Hr Hp) as (v & Hv & _).
  by eapply wp_load_at.
Qed.
Lemma wp_update p f pcb (Q : unit → kernel → Prop) s a :
  rep s a → link_free f → heap (core a) !! p = Some pcb →
  (∀ s', rep s' (a_update p f a) → Q tt s') → wp (update p f) Q s.
Proof.
  intros Hr Hf Hp HQ. destruct (rep_lookup _ _ _ _ Hr Hp) as (v & Hv & _).
  eapply wp_update_at; [done|]. apply HQ. eapply rep_keep_queues; try done.
  - by rewrite erase_insert, (rep_core _ _ Hr).
  - intros q p' _ _. cbn. destruct (decide (p = p')) as [<-|].
    + rewrite lookup_insert_eq, Hv. cbn. by rewrite link_free_next.
    + by rewrite lookup_insert_ne.
Qed.
(** State changes outside the PCBs and the queues. *)
Lemma wp_modify_core g (Q : unit → kernel → Prop) s a :
  rep s a → erase (g s) = g (erase s) → heap (g s) = heap s →
  ready_queue (g s) = ready_queue s → ml_queues (g s) = ml_queues s →
  (∀ s', rep s' (a_core g a) → Q tt s') → wp (modify g) Q s.
Proof.
  intros Hr He Hh Hrq Hml HQ. apply wp_modify, HQ. eapply rep_keep_queues; try done.
  - by rewrite He, (rep_core _ _ Hr).
  - intros q p _ _. by rewrite Hh.
Qed.
End access.

Create HintDb kernel.
#[export] Hint Extern 1 (link_free _) => (intros ? ?; reflexivity) : kernel.

(** ** Refinement of the queue operations *)
Section refinement.
Implicit Types (s : kernel) (a : astate) (q : queue_ref) (p : pcb_ptr)
  (h : gmap pcb_ptr PCB).

Lemma set_heap_set_heap h h' s : set_heap h (set_heap h' s) = set_heap h s.
Proof. done. Qed.
Lemma queue_at_set_heap q h s : queue_at (set_heap h s) q = queue_at s q.
Proof. by destruct q. Qed.
Lemma put_queue_put q v v' s : put_queue q v (put_queue q v' s) = put_queue q v s.
Proof. destruct q; [done|]. cbn. unfold set_ml_queues. cbn. by rewrite list_insert_insert_eq. Qed.
Lemma set_heap_put q v h s : set_heap h (put_queue q v s) = put_queue q v (set_heap h s).
Proof. by destruct q. Qed.

(** One queue gets a new header over a new heap. *)
Lemma rep_put s a q pq l h hc :
  rep s a → valid_queue q → queue_rep h pq l → NoDup l →
  unlink <$> h = hc →
  (∀ p, p ∉ l → p ∉ queues a q → next_ready <$> h !! p = next_ready <$> heap s !! p) →
  (∀ q' p, valid_queue q' → q' ≠ q → p ∈ l → p ∉ queues a q') →
  rep (put_queue q pq (set_heap h s))
    {| core := set_heap hc (core a); queues := upd_queue q l (queues a) |}.
Proof.
  intros Hr Hq Hrep Hnd Hh Hnext Hdis. eapply rep_change_queue; try done.
  - by rewrite erase_put, <- (rep_core _ _ Hr), <- Hh.
  - apply queue_at_put; [done|]. apply (rep_ml _ _ Hr).
  - by rewrite heap_put.
  - by rewrite ml_put.
  - intros q' Hq' Hne. rewrite queue_at_put_ne; try done. apply (rep_ml _ _ Hr).
  - intros q' p Hq' Hne Hp. rewrite heap_put. apply Hnext.
    + intros Hl. by eapply Hdis.
    + intros Hp'. apply Hne. by eapply (rep_disjoint _ _ Hr).
Qed.

(** A singleton queue. *)
Lemma queue_rep_singleton h p x :
  h !! p = Some x → next_ready x = None →
  queue_rep h {| q_head := Some p; q_tail := Some p |} [p].
Proof. intros Hp Hx. split; [|done]. cbn. eauto. Qed.

(** Linking a fresh node after the last one. *)
Lemma queue_rep_snoc h pq l t p x :
  queue_rep h pq (l ++ [t]) → NoDup (l ++ [t]) → p ∉ l ++ [t] →
  h !! p = Some x → next_ready x = None →
  ∃ y, h !! t = Some y ∧
  queue_rep (<[t := set_next_ready (Some p) y]> h)
    {| q_head := q_head pq; q_tail := Some p |} ((l ++ [t]) ++ [p]).
Proof.
  intros [Hl _] Hnd Hp Hx Hn.
  apply linked_snoc in Hl as [Hl (y & Hy & _)]. exists y. split; [done|].
  assert (t ∉ l) by (apply NoDup_app in Hnd; set_solver).
  split; [|by rewrite last_snoc]. cbn. apply linked_snoc. split.
  - apply linked_snoc. split; [by apply linked_insert_notin|].
    exists (set_next_ready (Some p) y). by rewrite lookup_insert_eq.
  - exists x. rewrite lookup_insert_ne by set_solver. done.
Qed.

(** Overwriting a node without changing what the erasure keeps. *)
Lemma unlink_insert h p x x' :
  h !! p = Some x → unlink x' = unlink x → unlink <$> <[p := x']> h = unlink <$> h.
Proof.
  intros Hp Hx. rewrite fmap_insert, Hx. apply insert_id. by rewrite lookup_fmap, Hp.
Qed.
Lemma unlink_insert_alter h p x x' f :
  h !! p = Some x → unlink x' = f (unlink x) →
  unlink <$> <[p := x']> h = alter f p (unlink <$> h).
Proof.
  intros Hp Hx. rewrite fmap_insert, Hx. apply map_eq. intros p'.
  destruct (decide (p = p')) as [<-|].
  - by rewrite lookup_insert_eq, lookup_alter_eq, lookup_fmap, Hp.
  - by rewrite lookup_insert_ne, lookup_alter_ne.
Qed.

(** A node detached and marked READY by an insertion. *)
Definition fresh_node (x : PCB) : PCB := set_state PROCESS_READY (set_next_ready None x).

(** The first two writes of both insertions. *)
Lemma detach_ready s a p pcb (Q : unit → kernel → Prop) (k : K unit) :
  rep s a → heap (core a) !! p = Some pcb →
  (∀ x, heap s !! p = Some x → unlink x = pcb →
     wp k Q (set_heap (<[p := fresh_node x]> (heap s)) s)) →
  wp (update p (set_next_ready None);; update p (set_state PROCESS_READY);; k) Q s.
Proof.
  intros Hr Hp Hk. destruct (rep_lookup _ _ _ _ Hr Hp) as (v & Hv & Hnone).
  apply wp_bind. eapply wp_update_at; [done|]. apply wp_bind.
  eapply wp_update_at; [cbn; apply lookup_insert_eq|]. cbn.
  rewrite set_heap_set_heap, insert_insert_eq. apply (Hk _ Hv). by destruct pcb; cbn in *; subst.
Qed.

Lemma wp_enqueue_process_to q p pcb (Q : unit → kernel → Prop) s a :
  rep s a → valid_queue q → unqueued a p → p ≠ InitProcess →
  heap (core a) !! p = Some pcb →
  (∀ s', rep s' (a_enqueue q p a) → Q tt s') →
  wp (enqueue_process_to q (Some p)) Q s.
Proof.
  intros Hr Hq Hun Hinit Hp HQ. destruct p as [|addr]; [done|].
  set (p := KernelPage addr) in *.
  destruct (rep_queue _ _ Hr q Hq) as (pq & Hpq & Hrep).
  pose proof (rep_nodup _ _ Hr q Hq) as Hnd.
  eapply detach_ready; [done..|]. intros x Hx Hxp.
  set (h := <[p := fresh_node x]> (heap s)).
  assert (Hrep' : queue_rep h pq (queues a q)).
  { eapply queue_rep_ext; [|done]. intros p' Hp'. unfold h.
    rewrite lookup_insert_ne; [done|]. intros ->. by apply (Hun q). }
  assert (Hh : unlink <$> h = alter (set_state PROCESS_READY) p (heap (core a))).
  { unfold h. by erewrite unlink_insert_alter, (rep_heap _ _ Hr). }
  apply wp_bind. eapply wp_get_queue; [by rewrite queue_at_set_heap|].
  destruct (q_tail pq) as [t|] eqn:Ht.
  - destruct Hrep' as [Hl' Hlast]. rewrite Ht in Hlast. symmetry in Hlast.
    apply last_Some in Hlast as [l Hl].
    destruct (queue_rep_snoc h pq l t p (fresh_node x)) as (y & Hy & Hsn); try done.
    { split; [by rewrite <- Hl|]. by rewrite last_snoc. }
    { by rewrite <- Hl. }
    { rewrite <- Hl. by apply Hun. }
    { apply lookup_insert_eq. }
    apply wp_bind. eapply wp_update_at; [done|]. apply wp_bind.
    rewrite set_heap_set_heap. cbn [heap set_heap].
    eapply wp_get_queue; [by rewrite queue_at_set_heap|].
    eapply wp_set_queue; [done|apply (rep_ml _ _ Hr)|]. apply HQ.
    rewrite <- Hl in Hsn. eapply (rep_put s a); try done.
    + apply NoDup_app. split; [done|]. split; [|apply NoDup_singleton].
      intros p' Hp' ->%list_elem_of_singleton. by apply (Hun q).
    + rewrite (unlink_insert _ _ y); [exact Hh|done|by destruct y].
    + intros p' Hnl Hno. unfold h. rewrite !lookup_insert_ne; [done| |].
      * intros ->. set_solver.
      * intros ->. apply Hno. rewrite Hl. set_solver.
    + intros q' p' Hq' Hne [Hin| ->%list_elem_of_singleton]%elem_of_app; [|by apply Hun].
      intros Hin'. apply Hne. by eapply (rep_disjoint _ _ Hr).
  - destruct Hrep' as [Hl' Hlast]. rewrite Ht in Hlast.
    symmetry in Hlast. apply last_None in Hlast as Hl.
    eapply wp_set_queue; [done|apply (rep_ml _ _ Hr)|]. apply HQ.
    eapply (rep_put s a); try done.
    + rewrite Hl. eapply queue_rep_singleton; [apply lookup_insert_eq|done].
    + rewrite Hl. apply NoDup_singleton.
    + intros p' Hnl _. unfold h. rewrite lookup_insert_ne; [done|]. set_solver.
    + rewrite Hl. intros q' p' Hq' _ ->%list_elem_of_singleton. by apply Hun.
Qed.

(** One queue gets a new header, only links change. *)
Lemma rep_put_links s a q pq l h :
  rep s a → valid_queue q → queue_rep h pq l → NoDup l →
  unlink <$> h = unlink <$> heap s →
  (∀ p, p ∉ l → p ∉ queues a q → next_ready <$> h !! p = next_ready <$> heap s !! p) →
  (∀ q' p, valid_queue q' → q' ≠ q → p ∈ l → p ∉ queues a q') →
  rep (put_queue q pq (set_heap h s)) (a_set_queue q l a).
Proof.
  intros Hr Hq Hrep Hnd Hh Hnext Hdis.
  unfold a_set_queue. replace (core a) with (set_heap (unlink <$> h) (core a)).
  - by eapply rep_put.
  - rewrite Hh, <- (rep_heap _ _ Hr). by destruct (core a).
Qed.
Lemma rep_other s a q q' p :
  rep s a → valid_queue q → valid_queue q' → q' ≠ q →
  p ∈ queues a q → p ∉ queues a q'.
Proof. intros Hr Hq Hq' Hne Hp Hp'. apply Hne. by eapply (rep_disjoint _ _ Hr). Qed.

Lemma wp_dequeue_process_from q (Q : option pcb_ptr → kernel → Prop) s a :
  rep s a → valid_queue q →
  match queues a q with
  | [] => Q None s
  | p :: l => ∀ s', rep s' (a_set_queue q l a) → Q (Some p) s'
  end →
  wp (dequeue_process_from q) Q s.
Proof.
  intros Hr Hq HQ. destruct (rep_queue _ _ Hr q Hq) as (pq & Hpq & Hrep).
  pose proof (rep_nodup _ _ Hr q Hq) as Hnd.
  unfold dequeue_process_from. apply wp_bind. eapply wp_get_queue; [done|].
  destruct (queues a q) as [|p l] eqn:Hl.
  { destruct Hrep as [-> _]. by apply wp_ret. }
  destruct Hrep as [[-> (x & Hx & Hlinked)] Htail].
  apply wp_bind. eapply wp_load_at; [done|]. apply wp_bind.
  eapply wp_set_queue; [done|apply (rep_ml _ _ Hr)|]. apply wp_bind.
  assert (Hfin : ∀ t, (l = [] → t = None) → (l ≠ [] → t = q_tail pq) →
    wp (update p (set_next_ready None);; mret (Some p)) Q
      (put_queue q {| q_head := next_ready x; q_tail := t |} s)).
  { intros t Ht1 Ht2. apply wp_bind.
    eapply wp_update_at; [by rewrite heap_put|]. apply wp_ret, HQ.
    rewrite set_heap_put, heap_put. apply NoDup_cons in Hnd as [Hpl Hnd].
    eapply rep_put_links; try done.
    - split; [by apply linked_insert_notin|]. cbn.
      destruct l; [by rewrite Ht1|]. by rewrite Ht2, Htail.
    - by apply (unlink_insert _ _ x).
    - intros p' Hp1 Hp2. rewrite lookup_insert_ne; [done|].
      intros ->. apply Hp2. rewrite Hl. left.
    - intros q' p' Hq' Hne Hin. eapply rep_other; [done|exact Hq|done|done|].
      rewrite Hl. by right. }
  apply wp_when. case_bool_decide as Hnx.
  - eapply wp_set_queue; [done|rewrite ml_put; apply (rep_ml _ _ Hr)|].
    rewrite put_queue_put. apply Hfin; [done|]. intros Hne. destruct l; [done|].
    destruct Hlinked as [? _]. congruence.
  - apply Hfin; [|done]. intros ->. by destruct Hnx.
Qed.

(** Unlinking a node from anywhere in a queue. *)
Lemma linked_remove h o l1 t p l2 x y :
  linked h o (l1 ++ t :: p :: l2) None → NoDup (l1 ++ t :: p :: l2) →
  h !! t = Some y → h !! p = Some x →
  linked (<[p := set_next_ready None x]> (<[t := set_next_ready (next_ready x) y]> h))
    o (l1 ++ t :: l2) None.
Proof.
  intros Hl Hnd Hy Hx. apply linked_app in Hl as (m & H1 & -> & y' & Hy' & Hl).
  destruct Hl as (Hn & x' & Hx' & H2).
  assert (y' = y) as -> by congruence. assert (x' = x) as -> by congruence.
  apply NoDup_app in Hnd as (_ & Hd & Hnd).
  apply NoDup_cons in Hnd as [Ht Hnd]. apply NoDup_cons in Hnd as [Hp _].
  apply linked_app. exists (Some t). split.
  - apply linked_insert_notin; [intros ?; eapply Hd; [done|]; set_solver|].
    apply linked_insert_notin; [intros ?; eapply Hd; [done|]; set_solver|done].
  - split; [done|]. exists (set_next_ready (next_ready x) y).
    rewrite lookup_insert_ne by set_solver. rewrite lookup_insert_eq.
    split; [done|]. cbn. apply linked_insert_notin; [done|].
    apply linked_insert_notin; [set_solver|done].
Qed.

Lemma wp_remove_process_from q p l1 l2 (Q : unit → kernel → Prop) s a :
  rep s a → valid_queue q → queues a q = l1 ++ p :: l2 →
  (∀ s', rep s' (a_set_queue q (l1 ++ l2) a) → Q tt s') →
  wp (remove_process_from q (last l1) (Some p)) Q s.
Proof.
  intros Hr Hq Hl HQ. destruct (rep_queue _ _ Hr q Hq) as (pq & Hpq & Hlk & Htl).
  pose proof (rep_nodup _ _ Hr q Hq) as Hnd. rewrite Hl in Hlk, Htl, Hnd.
  assert (Hml := rep_ml _ _ Hr).
  assert (Hdis : ∀ q' p', valid_queue q' → q' ≠ q → p' ∈ l1 ++ l2 → p' ∉ queues a q').
  { intros q' p' Hq' Hne Hin. eapply rep_other; [done|exact Hq|done|done|].
    rewrite Hl. set_solver. }
  assert (Hnd' : NoDup (l1 ++ l2)).
  { eapply sublist_NoDup; [exact Hnd|]. apply sublist_app; [done|by constructor]. }
  assert (Hlast : last (l1 ++ p :: l2) = Some p → l2 = []).
  { intros Hla. destruct l2 as [|z l2] using rev_ind; [done|].
    rewrite app_comm_cons, app_assoc, last_snoc in Hla. injection Hla as ->.
    apply NoDup_app in Hnd as (_ & _ & Hnd). apply NoDup_cons in Hnd as [Hnd _].
    set_solver. }
  apply linked_app in Hlk as Hlk'. destruct Hlk' as (m & H1 & -> & x & Hx & H2).
  unfold remove_process_from. apply wp_bind, wp_ret, wp_bind.
  eapply wp_load_at; [done|]. apply wp_bind.
  destruct l1 as [|t l1 _] using rev_ind; cbn [last].
  - cbn in H1. apply wp_bind. eapply wp_get_queue; [done|].
    eapply wp_set_queue; [done..|]. apply wp_bind.
    eapply wp_get_queue; [by apply queue_at_put|]. apply wp_bind, wp_when. cbn.
    assert (Hfin : ∀ tl, tl = last l2 → wp (update p (set_next_ready None)) Q
      (put_queue q {| q_head := next_ready x; q_tail := tl |} s)).
    { intros tl ->. eapply wp_update_at; [by rewrite heap_put|]. apply HQ.
      rewrite set_heap_put, heap_put. cbn in Hnd. apply NoDup_cons in Hnd as [Hp Hnd].
      eapply rep_put_links; try done.
      - split; [|done]. cbn. by apply linked_insert_notin.
      - by apply (unlink_insert _ _ x).
      - intros p' Hn1 Hn2. rewrite lookup_insert_ne; [done|]. intros ->.
        apply Hn2. rewrite Hl. left. }
    case_bool_decide as Ht.
    + eapply wp_set_queue; [done|by rewrite ml_put|]. rewrite put_queue_put.
      apply Hfin. rewrite Hlast; [done|]. by rewrite <- Htl.
    + apply Hfin. rewrite Htl. destruct l2; [|done]. by rewrite Htl in Ht.
  - rewrite last_snoc. rewrite <- (app_assoc l1) in Hlk, Hnd. cbn in Hlk, Hnd.
    apply linked_app in Hlk as Hlk'. destruct Hlk' as (m' & H1' & -> & y & Hy & _).
    assert (Htp : t ≠ p).
    { intros ->. apply NoDup_app in Hnd as (_ & _ & Hnd).
      apply NoDup_cons in Hnd as [Hnd _]. set_solver. }
    eapply wp_update_at; [done|]. apply wp_bind.
    eapply wp_get_queue; [by rewrite queue_at_set_heap|]. apply wp_bind, wp_when.
    pose proof (linked_remove _ _ _ _ _ _ _ _ Hlk Hnd Hy Hx) as Hlk'.
    assert (Hfin : ∀ tl, tl = last ((l1 ++ [t]) ++ l2) →
      wp (update p (set_next_ready None)) Q
      (put_queue q {| q_head := q_head pq; q_tail := tl |}
         (set_heap (<[t:=set_next_ready (next_ready x) y]> (heap s)) s))).
    { intros tl ->. eapply wp_update_at.
      { rewrite heap_put. cbn. by rewrite lookup_insert_ne. }
      apply HQ. rewrite set_heap_put, heap_put, set_heap_set_heap.
      eapply rep_put_links; try done.
      - split; [|done]. by rewrite <- (app_assoc l1).
      - cbn. rewrite (unlink_insert _ _ x);
          [by apply (unlink_insert _ _ y)|by rewrite lookup_insert_ne|done].
      - intros p' Hn1 Hn2. cbn. rewrite !lookup_insert_ne; [done|set_solver|].
        intros ->. apply Hn2. rewrite Hl. set_solver. }
    case_bool_decide as Ht.
    + eapply wp_set_queue; [done|done|]. apply Hfin.
      rewrite Hlast, app_nil_r; [by rewrite last_snoc|]. by rewrite <- Htl.
    + replace (set_heap (<[t:=set_next_ready (next_ready x) y]> (heap s)) s) with
        (put_queue q pq (set_heap (<[t:=set_next_ready (next_ready x) y]> (heap s)) s)).
      * destruct pq as [hd tl]. apply Hfin. cbn in *. rewrite Htl.
        destruct l2 as [|z l2 _] using rev_ind; [by rewrite last_snoc in Htl|].
        by rewrite app_comm_cons, !app_assoc, !last_snoc.
      * destruct q as [|i]; cbn in *; [by injection Hpq as <-; destruct s|].
        unfold arr_get in Hpq. case_decide; [|done].
        unfold set_ml_queues. cbn. rewrite list_insert_id by done. by destruct s.
Qed.

(** The sorting key the SJF insertion compares. *)
Definition burst_of (k : kernel) (p : pcb_ptr) : Z :=
  from_option est_burst 0 (heap k !! p).
Definition a_enqueue_sorted (q : queue_ref) (p : pcb_ptr) (a : astate) : astate :=
  a_update p (set_state PROCESS_READY)
    (a_set_queue q (insert_by (burst_of (core a)) p (queues a q)) a).

(** The walk stops before the first node with a larger key. *)
Lemma sorted_insertion_point_spec fuel p x c l s :
  (length l < fuel)%nat → heap s !! p = Some x → linked (heap s) (Some c) (c :: l) None →
  wp (sorted_insertion_point fuel p c) (λ r s', s' = s ∧ ∃ l1 l2,
    l = l1 ++ l2 ∧ insert_by (burst_of s) p l = l1 ++ p :: l2 ∧
    last (c :: l1) = Some r) s.
Proof.
  intros Hfuel Hx. revert c l Hfuel.
  induction fuel as [|fuel IH]; intros c l Hfuel Hl; [lia|].
  destruct Hl as (_ & y & Hy & Hl). cbn [sorted_insertion_point].
  apply wp_bind. eapply wp_load_at; [done|]. destruct l as [|n l].
  { cbn in Hl. rewrite Hl. apply wp_ret. split; [done|]. by exists [], []. }
  destruct Hl as [Hn Hl]. rewrite Hn.
  apply wp_bind. eapply wp_load_at; [done|]. apply wp_bind.
  destruct Hl as (z & Hz & Hl). eapply wp_load_at; [done|].
  cbn [insert_by]. unfold burst_of at 1 2. rewrite Hx, Hz. cbn [from_option].
  destruct (est_burst x <? est_burst z).
  { apply wp_ret. split; [done|]. by exists [], (n :: l). }
  eapply wp_mono; [eapply (IH n l)|].
  - cbn in Hfuel. lia.
  - split; [done|]. eauto.
  - intros r s' (-> & l1 & l2 & -> & Hins & Hlast). split; [done|].
    exists (n :: l1), l2. cbn [app]. by rewrite Hins.
Qed.

(** Linking a fresh node after [t]. *)
Lemma linked_link h o l1 t l2 p x y :
  linked h o (l1 ++ t :: l2) None → NoDup (l1 ++ t :: l2) → p ∉ l1 ++ t :: l2 →
  h !! t = Some y → h !! p = Some x →
  linked (<[t := set_next_ready (Some p) y]> (<[p := set_next_ready (next_ready y) x]> h))
    o (l1 ++ t :: p :: l2) None.
Proof.
  intros Hl Hnd Hp Hy Hx. apply linked_app in Hl as (m & H1 & -> & y' & Hy' & Hl).
  assert (y' = y) as -> by congruence.
  apply NoDup_app in Hnd as (_ & Hd & Hnd). apply NoDup_cons in Hnd as [Ht Hnd].
  apply linked_app. exists (Some t). split.
  - apply linked_insert_notin; [intros ?; eapply Hd; [done|]; set_solver|].
    apply linked_insert_notin; [set_solver|done].
  - split; [done|]. exists (set_next_ready (Some p) y).
    rewrite lookup_insert_eq. split; [done|]. split; [done|].
    exists (set_next_ready (next_ready y) x).
    rewrite lookup_insert_ne by set_solver. rewrite lookup_insert_eq.
    split; [done|]. cbn. apply linked_insert_notin; [done|].
    apply linked_insert_notin; [set_solver|done].
Qed.

Lemma insert_by_ext f g p l :
  f p = g p → (∀ p', p' ∈ l → f p' = g p') → insert_by f p l = insert_by g p l.
Proof.
  intros Hp. induction l as [|p' l IH]; intros Hl; [done|]. cbn.
  rewrite Hp, (Hl p') by left. rewrite IH; [done|]. intros. apply Hl. by right.
Qed.

Lemma wp_enqueue_sorted_to q p pcb (Q : unit → kernel → Prop) s a :
  rep s a → valid_queue q → unqueued a p → p ≠ InitProcess →
  heap (core a) !! p = Some pcb → (length (queues a q) ≤ queue_fuel)%nat →
  (∀ s', rep s' (a_enqueue_sorted q p a) → Q tt s') →
  wp (enqueue_sorted_to q (Some p)) Q s.
Proof.
  intros Hr Hq Hun Hinit Hp Hfuel HQ. destruct p as [|addr]; [done|].
  set (p := KernelPage addr) in *.
  destruct (rep_queue _ _ Hr q Hq) as (pq & Hpq & Hlk & Htl).
  pose proof (rep_nodup _ _ Hr q Hq) as Hnd. assert (Hml := rep_ml _ _ Hr).
  eapply detach_ready; [done..|]. intros x Hx Hxp.
  set (h := <[p := fresh_node x]> (heap s)).
  assert (Hpl : p ∉ queues a q) by by apply Hun.
  assert (Hlk' : linked h (q_head pq) (queues a q) None)
    by by apply linked_insert_notin.
  assert (Hh : unlink <$> h = alter (set_state PROCESS_READY) p (heap (core a))).
  { unfold h. by erewrite unlink_insert_alter, (rep_heap _ _ Hr). }
  assert (Hhp : h !! p = Some (fresh_node x)) by apply lookup_insert_eq.
  (* the keys the code compares are those of the abstract state *)
  assert (Hkey : ∀ p', burst_of (set_heap h s) p' = burst_of (core a) p').
  { intros p'. unfold burst_of. cbn. rewrite (rep_heap _ _ Hr), lookup_fmap. unfold h.
    destruct (decide (p = p')) as [<-|].
    - by rewrite lookup_insert_eq, Hx.
    - rewrite lookup_insert_ne by done. by destruct (heap s !! p'). }
  (* every outcome relinks [h] and gives the queue a new header *)
  assert (Hfin : ∀ h' pq' l1 l2, queues a q = l1 ++ l2 →
    insert_by (burst_of (core a)) p (queues a q) = l1 ++ p :: l2 →
    queue_rep h' pq' (l1 ++ p :: l2) → unlink <$> h' = unlink <$> h →
    (∀ p', p' ∉ p :: queues a q → next_ready <$> h' !! p' = next_ready <$> h !! p') →
    Q tt (put_queue q pq' (set_heap h' s))).
  { intros h' pq' l1 l2 Hl Hins Hrep Hun' Hnext. apply HQ. unfold a_enqueue_sorted.
    rewrite Hins. eapply (rep_put s a); try done.
    - rewrite <- Permutation_middle, <- Hl. by constructor.
    - by rewrite Hun', Hh.
    - intros p' Hn1 Hn2. rewrite Hnext by (rewrite Hl; set_solver). unfold h.
      rewrite lookup_insert_ne; [done|set_solver].
    - intros q' p' Hq' Hne. rewrite <- Permutation_middle, <- Hl.
      intros [->|Hin]%elem_of_cons; [by apply Hun|]. eapply rep_other; [done|exact Hq|done..]. }
  apply wp_bind. eapply wp_get_queue; [by rewrite queue_at_set_heap|].
  destruct (queues a q) as [|f l] eqn:Hql; cbn [linked] in Hlk'.
  { rewrite Hlk'. eapply wp_set_queue; [done..|].
    apply (Hfin h _ [] []); try done. by eapply queue_rep_singleton. }
  destruct Hlk' as (Hhd & y & Hy & Hl). rewrite Hhd.
  apply wp_bind. eapply wp_load_at; [done|]. apply wp_bind.
  eapply wp_load_at; [done|].
  assert (Hcmp : (est_burst (fresh_node x) <? est_burst y) =
    (burst_of (core a) p <? burst_of (core a) f)).
  { rewrite <- !Hkey. unfold burst_of. cbn [heap set_heap]. by rewrite Hhp, Hy. }
  rewrite Hcmp. destruct (burst_of (core a) p <? burst_of (core a) f) eqn:Hc.
  - (* new head *)
    apply wp_bind. eapply wp_update_at; [done|]. apply wp_bind.
    eapply wp_get_queue; [by rewrite queue_at_set_heap|].
    eapply wp_set_queue; [done..|]. cbn [heap set_heap]. rewrite set_heap_set_heap.
    apply (Hfin _ _ [] (f :: l)); try done.
    + cbn [insert_by]. by rewrite Hc.
    + split; cbn; [|by rewrite Htl]. split; [done|]. eexists.
      rewrite lookup_insert_eq. split; [done|]. cbn. split; [done|].
      exists y. rewrite lookup_insert_ne by set_solver. split; [done|].
      apply linked_insert_notin; [set_solver|done].
    + by apply (unlink_insert _ _ (fresh_node x)).
    + intros p' Hp'. rewrite lookup_insert_ne; [done|set_solver].
  - (* after the insertion point *)
    apply wp_bind. eapply wp_mono.
    { eapply (sorted_insertion_point_spec _ p (fresh_node x) f l); [|done|].
      - cbn in Hfuel. lia.
      - split; [done|]. eauto. }
    intros t s' (-> & l1 & l2 & -> & Hins & Hlast).
    rewrite (insert_by_ext _ (burst_of (core a))) in Hins by auto.
    apply last_Some in Hlast as [l0 Hl0].
    assert (Hsplit : f :: l1 ++ l2 = l0 ++ t :: l2).
    { rewrite app_comm_cons, Hl0. by rewrite <- app_assoc. }
    assert (Hlk' : linked h (q_head pq) (l0 ++ t :: l2) None).
    { rewrite <- Hsplit. cbn. eauto. }
    apply linked_app in Hlk' as Hm. destruct Hm as (m & _ & -> & z & Hz & Hz2).
    rewrite Hsplit in Hnd, Hpl.
    pose proof (linked_link _ _ _ _ _ _ _ _ Hlk' Hnd Hpl Hz Hhp) as Hnew.
    assert (Htp : t ≠ p) by set_solver.
    apply wp_bind. eapply wp_load_at; [done|]. apply wp_bind.
    eapply wp_update_at; [done|]. apply wp_bind.
    eapply wp_update_at; [cbn; by rewrite lookup_insert_ne|]. apply wp_bind.
    cbn [heap set_heap].
    eapply wp_load_at; [cbn; rewrite lookup_insert_ne by done; apply lookup_insert_eq|].
    rewrite !set_heap_set_heap.
    assert (Hins' : insert_by (burst_of (core a)) p (f :: l1 ++ l2) = (f :: l1) ++ p :: l2).
    { cbn [insert_by]. by rewrite Hc, Hins. }
    assert (Hlist : l0 ++ t :: p :: l2 = (f :: l1) ++ p :: l2).
    { rewrite Hl0. by rewrite <- app_assoc. }
    set (h' := <[t := set_next_ready (Some p) z]> _).
    assert (Hfin' : ∀ tl, tl = last ((f :: l1) ++ p :: l2) →
      Q tt (put_queue q {| q_head := q_head pq; q_tail := tl |} (set_heap h' s))).
    { intros tl ->. apply (Hfin _ _ (f :: l1) l2); try done.
      - split; [|done]. by rewrite <- Hlist.
      - unfold h'. rewrite (unlink_insert _ _ z); [|by rewrite lookup_insert_ne|done].
        by apply (unlink_insert _ _ (fresh_node x)).
      - intros p' Hp'. unfold h'. rewrite !lookup_insert_ne; [done|set_solver|].
        intros ->. apply Hp'. rewrite Hsplit. set_solver. }
    apply wp_when. cbn [next_ready set_next_ready]. case_bool_decide as Hnx.
    + apply wp_bind. eapply wp_get_queue; [by rewrite queue_at_set_heap|].
      eapply wp_set_queue; [done..|]. apply Hfin'.
      destruct l2 as [|w l2]; [by rewrite last_snoc|]. destruct Hz2; congruence.
    + replace (set_heap h' s) with (put_queue q pq (set_heap h' s)).
      * destruct pq as [hd tl]. apply Hfin'. cbn in Htl |- *. rewrite Htl.
        destruct l2 as [|w l2 _] using rev_ind; [by destruct Hnx|].
        by rewrite !app_comm_cons, !app_assoc, !last_snoc.
      * destruct q as [|i]; cbn in *; [by injection Hpq as <-; destruct s|].
        unfold arr_get in Hpq. case_decide; [|done].
        unfold set_ml_queues. cbn. rewrite list_insert_id by done. by destruct s.
Qed.

(** Reading the links of a queue. *)
Lemma wp_load_linked q l1 p l2 pcb (Q : PCB → kernel → Prop) s a :
  rep s a → valid_queue q → queues a q = l1 ++ p :: l2 →
  heap (core a) !! p = Some pcb → Q (set_next_ready (head l2) pcb) s →
  wp (load p) Q s.
Proof.
  intros Hr Hq Hl Hp HQ. destruct (rep_queue _ _ Hr q Hq) as (pq & _ & Hlk & _).
  rewrite Hl in Hlk. apply linked_app in Hlk as (m & _ & -> & x & Hx & H2).
  eapply wp_load_at; [done|]. destruct (rep_lookup _ _ _ _ Hr Hp) as (v & Hv & _).
  simplify_eq. cbn in H2. destruct l2 as [|p' l2]; cbn in *; [by subst|].
  by destruct H2 as [-> _].
Qed.
Lemma rep_ready_head s a :
  rep s a → q_head (ready_queue s) = head (queues a ReadyQueue).
Proof.
  intros Hr. destruct (rep_queue _ _ Hr ReadyQueue I) as (pq & [= <-] & Hlk & _).
  destruct (queues a ReadyQueue); cbn in *; [done|]. by destruct Hlk.
Qed.
End refinement.
