(* ===== verification/Scheduler.v ===== *)
(** * The scheduler

    src/libs/scheduler.c: the insertion policies, the scheduling algorithms, the
    descriptors, signals, context switch, timer tick and process exit.  A function
    pointer of a [SchedAlgorithm] descriptor is the name of one of the callbacks of
    the file ([enqueue_callback], [pick_next_callback], [on_tick_callback]); the
    static pointer [active_algorithm], which no code changes, is the argument of
    every function that reads it. *)
From S2P Require Import Prelude.
From S2P Require Import Process.
From S2P Require Import ReadyQueue.
From Stdlib Require Import String.
Local Open Scope Z_scope.

(** ** Descriptors (scheduler.h) *)
Record MultilevelPolicy := {
  n_levels : Z;
  quantum : list Z;
  demote_on_expiry : bool;
  boost_period : Z
}.
Inductive enqueue_callback := EnqueueFifo | EnqueueSjf | EnqueueMultilevel.
Inductive pick_next_callback :=
  ScheduleRoundRobin | ScheduleQueueHead | ScheduleLottery | SchedulePriorityAging
| ScheduleMultilevel.
Inductive on_tick_callback := MultilevelOnTick.
Record SchedAlgorithm := {
  enqueue : enqueue_callback;
  pick_next : pick_next_callback;
  on_tick : option on_tick_callback;
  is_preemptive : bool;
  ml_policy : option MultilevelPolicy
}.

Definition ml_policy_mlq : MultilevelPolicy :=
  {| n_levels := 5; quantum := [10; 12; 14; 16; 20]; demote_on_expiry := false;
     boost_period := 0 |}.
Definition ml_policy_mlfq : MultilevelPolicy :=
  {| n_levels := 5; quantum := [5; 8; 10; 15; 20]; demote_on_expiry := true;
     boost_period := MLFQ_BOOST_PERIOD |}.

Definition sched_round_robin : SchedAlgorithm :=
  {| enqueue := EnqueueFifo; pick_next := ScheduleRoundRobin; on_tick := None;
     is_preemptive := true; ml_policy := None |}.
Definition sched_fcfs : SchedAlgorithm :=
  {| enqueue := EnqueueFifo; pick_next := ScheduleQueueHead; on_tick := None;
     is_preemptive := false; ml_policy := None |}.
Definition sched_sjf : SchedAlgorithm :=
  {| enqueue := EnqueueSjf; pick_next := ScheduleQueueHead; on_tick := None;
     is_preemptive := false; ml_policy := None |}.
Definition sched_lottery : SchedAlgorithm :=
  {| enqueue := EnqueueFifo; pick_next := ScheduleLottery; on_tick := None;
     is_preemptive := true; ml_policy := None |}.
Definition sched_priority_aging : SchedAlgorithm :=
  {| enqueue := EnqueueFifo; pick_next := SchedulePriorityAging; on_tick := None;
     is_preemptive := true; ml_policy := None |}.
Definition sched_mlq : SchedAlgorithm :=
  {| enqueue := EnqueueMultilevel; pick_next := ScheduleMultilevel;
     on_tick := Some MultilevelOnTick; is_preemptive := true;
     ml_policy := Some ml_policy_mlq |}.
Definition sched_mlfq : SchedAlgorithm :=
  {| enqueue := EnqueueMultilevel; pick_next := ScheduleMultilevel;
     on_tick := Some MultilevelOnTick; is_preemptive := true;
     ml_policy := Some ml_policy_mlfq |}.

Definition all_algorithms : list SchedAlgorithm :=
  [sched_round_robin; sched_fcfs; sched_sjf; sched_lottery; sched_priority_aging;
   sched_mlq; sched_mlfq].

(** ** Traces *)
Definition ml_trace_num (number : Z) : K unit :=
  when (bool_decide (10 ≤ number)) (uart_putc (48 + Z.rem (Z.quot number 10) 10));;
  uart_putc (48 + Z.rem number 10).

Definition ml_trace (before : string) (p : Z) (between : string) (level : Z) : K unit :=
  uart_puts before;; ml_trace_num p;; uart_puts between;; ml_trace_num level;;
  uart_put_bytes [10].

Definition level_text : string := "[MLFQ/MLQ] pid ".
Definition start_text : string := " parte al livello ".
Definition moved_text : string := " spostato al livello ".
Definition pid_text : string := "[MLFQ] pid ".
Definition demotion_text : string := " demotion al livello ".
Definition boost_text : string := "[MLFQ] BOOST: tutti al livello 0".

(** ** Insertion policies *)
Definition enqueue_fifo (process : option pcb_ptr) : K unit :=
  enqueue_process_to ReadyQueue process.
Definition enqueue_sjf (process : option pcb_ptr) : K unit :=
  enqueue_sorted_to ReadyQueue process.
Definition enqueue_multilevel (process : option pcb_ptr) : K unit :=
  p ← deref process;
  pcb ← load p;
  level ← get_queue_level (pid pcb);
  enqueue_process_to (MlQueue level) process.

Definition run_enqueue (callback : enqueue_callback) (process : option pcb_ptr) : K unit :=
  match callback with
  | EnqueueFifo => enqueue_fifo process
  | EnqueueSjf => enqueue_sjf process
  | EnqueueMultilevel => enqueue_multilevel process
  end.

(** ** Preemption guard *)
Definition preempt_enable : K unit :=
  update_current (λ pcb, set_preempt_disabled (preempt_disabled pcb - 1) pcb).
Definition preempt_disable : K unit :=
  update_current (λ pcb, set_preempt_disabled (preempt_disabled pcb + 1) pcb).
Definition schedule_tail : K unit := preempt_enable.

(** ** Context switch *)

(** fork_asm.S: the translation table base of the user half. *)
Definition set_pgd (table : Z) : K unit := modify (set_ttbr0_el1 table).
(** fork_asm.S: the callee-saved registers, the stack pointer and the return
    address go to the context of [prev] and come from the context of [next]. *)
Definition cpu_switch_to_process (prev next : pcb_ptr) : K unit :=
  regs ← gets cpu;
  update prev (set_cpu_context regs);;
  pcb ← load next;
  modify (set_cpu (cpu_context pcb)).

Definition switch_to_process (next_process : pcb_ptr) : K unit :=
  update next_process (set_state PROCESS_RUNNING);;
  current ← gets current_process;
  if decide (current = next_process) then mret tt else
  previous ← load current;
  when (bool_decide (state previous = PROCESS_RUNNING))
    (update current (set_state PROCESS_READY));;
  modify (set_current_process next_process);;
  next ← load next_process;
  set_pgd (pgd (mm next));;
  cpu_switch_to_process current next_process.

(** The value of a signal's bit in [pending_signals]. *)
Definition signal_bit (signal : Z) : Z := Z.shiftl 1 signal.
Definition has_signal (signals signal : Z) : bool :=
  negb (Z.land signals (signal_bit signal) =? 0).
Definition clear_signal (signal : Z) (pcb : PCB) : PCB :=
  set_pending_signals (Z.land (pending_signals pcb) (Z.lnot (signal_bit signal))) pcb.

(** The random numbers of the lottery: one xorshift64 round per draw. *)
Definition LOTTERY_SEED : Z := 88172645463325252.
Definition xorshift64 (x : Z) : Z :=
  let x := Z.lxor x (u64 (Z.shiftl x 13)) in
  let x := Z.lxor x (Z.shiftr x 7) in
  Z.lxor x (u64 (Z.shiftl x 17)).
Definition lottery_random : K Z :=
  clo ← read_timer_clo;
  x ← gets lottery_rng_state;
  let x := Z.lxor x clo in
  let x := if x =? 0 then LOTTERY_SEED else x in
  modify (set_lottery_rng_state (xorshift64 x));;
  mret (xorshift64 x).

Section scheduler.
Variable active_algorithm : SchedAlgorithm.

(** ** Insertion router *)
Definition enqueue_process (process : option pcb_ptr) : K unit :=
  match process with
  | None | Some InitProcess => mret tt
  | Some _ => run_enqueue (enqueue active_algorithm) process
  end.

(** ** System management *)
Definition clamp_start_level (start_level : Z) : Z :=
  let start_level := if start_level <? 0 then 0 else start_level in
  let start_level := if ML_MAX_LEVELS <=? start_level then ML_MAX_LEVELS - 1 else start_level in
  match ml_policy active_algorithm with
  | Some policy => if n_levels policy <=? start_level then n_levels policy - 1 else start_level
  | None => start_level
  end.

Definition trace_if_multilevel (trace : K unit) : K unit :=
  match ml_policy active_algorithm with Some _ => trace | None => mret tt end.

Definition add_process_to_scheduler (process : pcb_ptr) : K Z :=
  n ← gets n_processes;
  pcb ← load process;
  if (N_PROCESSES <=? n) || (N_PROCESSES <=? pid pcb) then mret (-1) else
  set_process (pid pcb) process;;
  let start_level := clamp_start_level (queue_priority pcb) in
  set_queue_level_at (pid pcb) start_level;;
  trace_if_multilevel (ml_trace level_text (pid pcb) start_text start_level);;
  when (bool_decide (state pcb = PROCESS_READY)) (enqueue_process (Some process));;
  modify (λ s, set_n_processes (n_processes s + 1) s);;
  mret 0.

Definition sched_set_param (process : option pcb_ptr) (param value : Z) : K Z :=
  match process with
  | None | Some InitProcess => mret (-1)
  | Some p =>
      if param =? SCHED_PARAM_PRIORITY then
        if value <? 1 then mret (-1) else update p (set_priority value);; mret 0
      else if param =? SCHED_PARAM_TICKETS then
        if value <? 1 then mret (-1) else update p (set_tickets value);; mret 0
      else if param =? SCHED_PARAM_QUEUE_PRIORITY then
        if (value <? 0) || (ML_MAX_LEVELS <=? value) then mret (-1) else
        let value :=
          match ml_policy active_algorithm with
          | Some policy => if n_levels policy <=? value then n_levels policy - 1 else value
          | None => value
          end in
        preempt_disable;;
        update p (set_queue_priority value);;
        pcb ← load p;
        set_queue_level_at (pid pcb) value;;
        preempt_enable;;
        trace_if_multilevel (ml_trace level_text (pid pcb) moved_text value);;
        mret 0
      else mret (-1)
  end.

(** ** Signals *)
Definition handle_process_signals (process : pcb_ptr) : K unit :=
  pcb ← load process;
  if pending_signals pcb =? 0 then mret tt
  else if has_signal (pending_signals pcb) SIGNAL_KILL then
    update process (set_state PROCESS_ZOMBIE);;
    update process (clear_signal SIGNAL_KILL)
  else if has_signal (pending_signals pcb) SIGNAL_STOP then
    update process (set_state PROCESS_STOPPED);;
    update process (clear_signal SIGNAL_STOP)
  else if has_signal (pending_signals pcb) SIGNAL_RESUME then
    update process (clear_signal SIGNAL_RESUME);;
    pcb ← load process;
    when (bool_decide (state pcb = PROCESS_STOPPED))
      (update process (set_state PROCESS_READY);;
       enqueue_process (Some process))
  else mret tt.

(** ** Selection *)

(** [current_process != &init_process && current_process->state == PROCESS_RUNNING]:
    the outgoing process goes back to a ready queue through [put]. *)
Definition requeue_current (put : option pcb_ptr → K unit) : K unit :=
  current ← gets current_process;
  pcb ← load current;
  when (bool_decide (current ≠ InitProcess) && bool_decide (state pcb = PROCESS_RUNNING))
    (put (Some current)).

(** The loop that dequeues until a process is READY after its signals. *)
Fixpoint dequeue_ready (fuel : nat) (queue : queue_ref) : K (option pcb_ptr) :=
  match fuel with
  | O => out_of_fuel
  | S fuel' =>
      next_process ← dequeue_process_from queue;
      match next_process with
      | None => mret None
      | Some p =>
          handle_process_signals p;;
          pcb ← load p;
          if decide (state pcb = PROCESS_READY) then mret (Some p)
          else dequeue_ready fuel' queue
      end
  end.

(** [next_process == NULL ? &init_process : next_process, recharged]. *)
Definition recharge_or_init (next_process : option pcb_ptr) (slice : Z) : K pcb_ptr :=
  match next_process with
  | None => mret InitProcess
  | Some p => update p (set_counter slice);; mret p
  end.

Definition schedule_round_robin : K unit :=
  preempt_disable;;
  requeue_current (enqueue_process_to ReadyQueue);;
  next_process ← dequeue_ready queue_fuel ReadyQueue;
  next_process ← recharge_or_init next_process 10;
  switch_to_process next_process;;
  preempt_enable.

Definition schedule_queue_head : K unit :=
  preempt_disable;;
  requeue_current (run_enqueue (enqueue active_algorithm));;
  next_process ← dequeue_ready queue_fuel ReadyQueue;
  switch_to_process (default InitProcess next_process);;
  preempt_enable.

(** *** Priority with aging *)
Fixpoint aging_walk (fuel : nat) (previous node best best_previous : option pcb_ptr)
    (max_counter : Z) : K (option pcb_ptr * option pcb_ptr) :=
  match node with
  | None => mret (best, best_previous)
  | Some n =>
      match fuel with
      | O => out_of_fuel
      | S fuel' =>
          pcb ← load n;
          let next_node := next_ready pcb in
          handle_process_signals n;;
          pcb ← load n;
          if decide (state pcb = PROCESS_READY) then
            if max_counter <? counter pcb
            then aging_walk fuel' node next_node node previous (counter pcb)
            else aging_walk fuel' node next_node best best_previous max_counter
          else
            remove_process_from ReadyQueue previous node;;
            aging_walk fuel' previous next_node best best_previous max_counter
      end
  end.

Definition recharge (pcb : PCB) : PCB :=
  set_counter (Z.shiftr (counter pcb) 1 + priority pcb) pcb.
Definition new_epoch : K unit :=
  for_each process_slots (λ i,
    p ← get_process i;
    match p with Some p => update p recharge | None => mret tt end).

Fixpoint aging_select (fuel : nat) : K (option pcb_ptr) :=
  match fuel with
  | O => out_of_fuel
  | S fuel' =>
      queue ← gets ready_queue;
      '(best, best_previous) ← aging_walk queue_fuel None (q_head queue) None None 0;
      match best with
      | Some _ => remove_process_from ReadyQueue best_previous best;; mret best
      | None =>
          queue ← gets ready_queue;
          match q_head queue with
          | None => mret None
          | Some _ => new_epoch;; aging_select fuel'
          end
      end
  end.

(** Two passes are enough (see [AgingSpec]). *)
Definition epoch_fuel : nat := 2.

Definition schedule_priority_aging : K unit :=
  preempt_disable;;
  requeue_current (enqueue_process_to ReadyQueue);;
  next_process ← aging_select epoch_fuel;
  switch_to_process (default InitProcess next_process);;
  preempt_enable.

(** *** Lottery *)
Definition ticket_count (pcb : PCB) : Z := if 0 <? tickets pcb then tickets pcb else 1.

Fixpoint lottery_total (fuel : nat) (p : option pcb_ptr) (total_tickets : Z) : K Z :=
  match p with
  | None => mret total_tickets
  | Some q =>
      match fuel with
      | O => out_of_fuel
      | S fuel' =>
          pcb ← load q;
          lottery_total fuel' (next_ready pcb) (total_tickets + ticket_count pcb)
      end
  end.

Fixpoint lottery_winner (fuel : nat) (winner ticket_counter : Z)
    (previous candidate : option pcb_ptr) : K (option pcb_ptr * option pcb_ptr) :=
  match candidate with
  | None => mret (previous, candidate)
  | Some c =>
      match fuel with
      | O => out_of_fuel
      | S fuel' =>
          pcb ← load c;
          let ticket_counter := ticket_counter + ticket_count pcb in
          if winner <? ticket_counter then mret (previous, candidate)
          else lottery_winner fuel' winner ticket_counter candidate (next_ready pcb)
      end
  end.

Fixpoint lottery_draw (fuel : nat) : K (option pcb_ptr) :=
  match fuel with
  | O => out_of_fuel
  | S fuel' =>
      queue ← gets ready_queue;
      total_tickets ← lottery_total queue_fuel (q_head queue) 0;
      if total_tickets =? 0 then mret None else
      r ← lottery_random;
      let winner := r mod total_tickets in
      '(previous, candidate) ← lottery_winner queue_fuel winner 0 None (q_head queue);
      remove_process_from ReadyQueue previous candidate;;
      c ← deref candidate;
      handle_process_signals c;;
      pcb ← load c;
      if decide (state pcb = PROCESS_READY) then mret (Some c) else lottery_draw fuel'
  end.

Definition schedule_lottery : K unit :=
  preempt_disable;;
  requeue_current (enqueue_process_to ReadyQueue);;
  next_process ← lottery_draw queue_fuel;
  next_process ← recharge_or_init next_process 10;
  switch_to_process next_process;;
  preempt_enable.

(** *** Multilevel queues *)
Fixpoint cascade (levels : list Z) : K (option (pcb_ptr * Z)) :=
  match levels with
  | [] => mret None
  | q :: levels' =>
      next_process ← dequeue_ready queue_fuel (MlQueue q);
      match next_process with
      | Some p => mret (Some (p, q))
      | None => cascade levels'
      end
  end.

Definition schedule_multilevel : K unit :=
  preempt_disable;;
  policy ← defined (ml_policy active_algorithm);
  requeue_current enqueue_multilevel;;
  found ← cascade (seqZ 0 (n_levels policy));
  next_process ←
    match found with
    | None => mret InitProcess
    | Some (p, target_level) =>
        slice ← defined (arr_get (quantum policy) target_level);
        update p (set_counter slice);; mret p
    end;
  switch_to_process next_process;;
  preempt_enable.

Fixpoint drain_to_top (fuel : nat) (q : Z) : K unit :=
  match fuel with
  | O => out_of_fuel
  | S fuel' =>
      p ← dequeue_process_from (MlQueue q);
      match p with
      | None => mret tt
      | Some p' =>
          pcb ← load p';
          set_queue_level_at (pid pcb) 0;;
          enqueue_process_to (MlQueue 0) p;;
          drain_to_top fuel' q
      end
  end.

Definition multilevel_boost (policy : MultilevelPolicy) : K unit :=
  modify (λ s, set_ml_ticks_since_boost (ml_ticks_since_boost s + 1) s);;
  ticks ← gets ml_ticks_since_boost;
  when (bool_decide (boost_period policy ≤ ticks))
    (for_each (seqZ 1 (n_levels policy - 1)) (drain_to_top queue_fuel);;
     for_each process_slots (λ i, set_queue_level_at i 0);;
     modify (set_ml_ticks_since_boost 0);;
     uart_puts boost_text;; uart_put_bytes [10]).

Definition multilevel_demotion (policy : MultilevelPolicy) : K unit :=
  current ← gets current_process;
  pcb ← load current;
  if demote_on_expiry policy && bool_decide (current ≠ InitProcess)
     && (counter pcb <=? 0) && (preempt_disabled pcb =? 0)
  then
    level ← get_queue_level (pid pcb);
    when (level <? n_levels policy - 1)
      (set_queue_level_at (pid pcb) (level + 1);;
       ml_trace pid_text (pid pcb) demotion_text (level + 1))
  else mret tt.

Definition multilevel_on_tick : K unit :=
  policy ← defined (ml_policy active_algorithm);
  when (bool_decide (0 < boost_period policy)) (multilevel_boost policy);;
  multilevel_demotion policy.

(** ** Central dispatcher *)
Definition _schedule : K unit :=
  match pick_next active_algorithm with
  | ScheduleRoundRobin => schedule_round_robin
  | ScheduleQueueHead => schedule_queue_head
  | ScheduleLottery => schedule_lottery
  | SchedulePriorityAging => schedule_priority_aging
  | ScheduleMultilevel => schedule_multilevel
  end.

Definition end_of_burst (pcb : PCB) : PCB :=
  set_burst_ticks 0 (set_est_burst (Z.quot (burst_ticks pcb + est_burst pcb) 2) pcb).

Definition schedule : K unit :=
  current ← gets current_process;
  pcb ← load current;
  when (bool_decide (current ≠ InitProcess) && negb (state pcb =? PROCESS_RUNNING)
        && negb (state pcb =? PROCESS_READY))
    (update current end_of_burst);;
  update current (set_counter 0);;
  _schedule.

(** ** Timer tick *)
Definition run_on_tick : K unit :=
  match on_tick active_algorithm with
  | Some MultilevelOnTick => multilevel_on_tick
  | None => mret tt
  end.

Definition handle_timer_tick : K unit :=
  update_current (λ pcb, set_counter (counter pcb - 1) pcb);;
  update_current (λ pcb, set_burst_ticks (burst_ticks pcb + 1) pcb);;
  run_on_tick;;
  pcb ← load_current;
  if (0 <? counter pcb) || (0 <? preempt_disabled pcb) then mret tt else
  update_current (set_counter 0);;
  current ← gets current_process;
  if negb (is_preemptive active_algorithm) && bool_decide (current ≠ InitProcess)
  then mret tt else
  modify (set_irq_enabled true);;
  _schedule;;
  modify (set_irq_enabled false).

(** ** Exit *)
Definition wake_waiter (exiting : Z) (i : Z) : K unit :=
  slot ← get_process i;
  match slot with
  | None => mret tt
  | Some p =>
      pcb ← load p;
      when (bool_decide (state pcb = PROCESS_WAITING_ANOTHER_PROCESS)
            && bool_decide (pid_to_wait pcb = exiting))
        (update p (set_state PROCESS_READY);;
         update p (set_pid_to_wait (-1));;
         enqueue_process slot)
  end.

Definition exit_process : K unit :=
  preempt_disable;;
  update_current (set_state PROCESS_ZOMBIE);;
  pcb ← load_current;
  for_each process_slots (wake_waiter (pid pcb));;
  preempt_enable;;
  schedule.
End scheduler.
