(* ===== verification/SchedSpec.v ===== *)
(** * Abstract specification of the scheduler

    Every scheduling decision as a function on the abstract state (queues are
    lists), and the proofs that the pointer code of [Scheduler] refines it. *)
From S2P Require Import Prelude.
From S2P Require Import Process.
From S2P Require Import ReadyQueue.
From S2P Require Import Scheduler.
Local Open Scope Z_scope.

(** ** Reading and changing the abstract state *)
Definition current (a : astate) : pcb_ptr := current_process (core a).
Definition pcb_at (a : astate) (p : pcb_ptr) : option PCB := heap (core a) !! p.
Definition state_of (a : astate) (p : pcb_ptr) : Z := from_option state 0 (pcb_at a p).
Definition counter_of (a : astate) (p : pcb_ptr) : Z := from_option counter 0 (pcb_at a p).

Section astate.
Implicit Types (a : astate) (p : pcb_ptr) (f g : PCB → PCB) (q : queue_ref).

Lemma pcb_at_update a p f p' :
  pcb_at (a_update p f a) p' = if decide (p = p') then f <$> pcb_at a p' else pcb_at a p'.
Proof.
  unfold pcb_at, a_update, a_core; cbn. case_decide as Heq; subst.
  - apply lookup_alter_eq.
  - by apply lookup_alter_ne.
Qed.
Lemma pcb_at_update_eq a p f pcb :
  pcb_at a p = Some pcb → pcb_at (a_update p f a) p = Some (f pcb).
Proof. intros Hp. by rewrite pcb_at_update, decide_True, Hp. Qed.
Lemma pcb_at_update_ne a p f p' :
  p ≠ p' → pcb_at (a_update p f a) p' = pcb_at a p'.
Proof. intros. by rewrite pcb_at_update, decide_False. Qed.
Lemma pcb_at_set_queue a q l p : pcb_at (a_set_queue q l a) p = pcb_at a p.
Proof. done. Qed.
Lemma a_update_compose a p f g :
  a_update p g (a_update p f a) = a_update p (λ x, g (f x)) a.
Proof.
  unfold a_update, a_core; cbn. f_equal. unfold set_heap; cbn.
  f_equal. apply map_eq. intros p'. destruct (decide (p = p')) as [<-|].
  - rewrite !lookup_alter_eq. by destruct (_ !! p).
  - by rewrite !lookup_alter_ne.
Qed.
Lemma a_update_id a p f pcb : pcb_at a p = Some pcb → f pcb = pcb → a_update p f a = a.
Proof.
  unfold pcb_at. intros Hp Hf. destruct a as [k Q]. unfold a_update, a_core; cbn in *.
  assert (alter f p (heap k) = heap k) as ->; [|by destruct k].
  apply map_eq. intros p'. destruct (decide (p = p')) as [<-|].
  - rewrite lookup_alter_eq, Hp. cbn. by rewrite Hf.
  - by rewrite lookup_alter_ne.
Qed.
Lemma queues_set_queue a q l : queues (a_set_queue q l a) q = l.
Proof. cbn. unfold upd_queue. by rewrite decide_True. Qed.
Lemma queues_set_queue_ne a q q' l : q' ≠ q → queues (a_set_queue q l a) q' = queues a q'.
Proof. intros. cbn. unfold upd_queue. by rewrite decide_False. Qed.

Lemma rep_current s a : rep s a → current_process s = current a.
Proof. by apply rep_field. Qed.
End astate.

(** ** Signals *)

(** What handling the signals does to a READY process. *)
Definition signal_effect (pcb : PCB) : PCB :=
  if has_signal (pending_signals pcb) SIGNAL_KILL then
    clear_signal SIGNAL_KILL (set_state PROCESS_ZOMBIE pcb)
  else if has_signal (pending_signals pcb) SIGNAL_STOP then
    clear_signal SIGNAL_STOP (set_state PROCESS_STOPPED pcb)
  else if has_signal (pending_signals pcb) SIGNAL_RESUME then
    clear_signal SIGNAL_RESUME pcb
  else pcb.
Definition a_signals (p : pcb_ptr) : astate → astate := a_update p signal_effect.

(** The process keeps the CPU's attention after its signals: no KILL, no STOP. *)
Definition dispatchable (pcb : PCB) : bool :=
  negb (has_signal (pending_signals pcb) SIGNAL_KILL)
  && negb (has_signal (pending_signals pcb) SIGNAL_STOP).

Lemma signal_effect_state pcb :
  state pcb = PROCESS_READY →
  state (signal_effect pcb) = PROCESS_READY ↔ dispatchable pcb = true.
Proof.
  intros Hs. unfold signal_effect, dispatchable.
  destruct (has_signal _ SIGNAL_KILL), (has_signal _ SIGNAL_STOP); cbn; try done.
  by destruct (has_signal _ SIGNAL_RESUME).
Qed.

Section signals.
Variable alg : SchedAlgorithm.

Lemma wp_handle_process_signals p pcb (Q : unit → kernel → Prop) s a :
  rep s a → pcb_at a p = Some pcb → state pcb = PROCESS_READY →
  (∀ s', rep s' (a_signals p a) → Q tt s') →
  wp (handle_process_signals alg p) Q s.
Proof.
  intros Hr Hp Hst HQ. unfold a_signals in HQ.
  assert (Hskip : signal_effect pcb = pcb → Q tt s).
  { intros Hid. apply HQ. by erewrite a_update_id. }
  unfold handle_process_signals. apply wp_bind. eapply wp_load; [done..|]. intros v.
  change (pending_signals (set_next_ready v pcb)) with (pending_signals pcb).
  assert (Hzero : pending_signals pcb = 0 → signal_effect pcb = pcb).
  { intros Hz. unfold signal_effect, has_signal. by rewrite Hz. }
  destruct (Z.eqb_spec (pending_signals pcb) 0) as [Hz|_]; [apply wp_ret; auto|].
  unfold signal_effect in *.
  assert (Hgo : ∀ f g, link_free f → link_free g →
    (∀ s', rep s' (a_update p (λ x, g (f x)) a) → Q tt s') →
    wp (update p f;; update p g) Q s).
  { intros f g Hf Hg HQ'. apply wp_bind. eapply wp_update; [done..|]. intros s1 Hr1.
    eapply wp_update; [done|done| |].
    - by apply pcb_at_update_eq.
    - intros s2 Hr2. apply HQ'. by rewrite <- a_update_compose. }
  assert (Hsame : ∀ f s', rep s' (a_update p f a) → f pcb = signal_effect pcb →
    rep s' (a_update p signal_effect a)).
  { intros f s' Hrf Hfp. replace (a_update p signal_effect a) with (a_update p f a); [done|].
    unfold a_update, a_core. f_equal. f_equal. apply map_eq. intros p'.
    destruct (decide (p = p')) as [<-|].
    - rewrite !lookup_alter_eq. unfold pcb_at in Hp. rewrite Hp. cbn. by rewrite Hfp.
    - by rewrite !lookup_alter_ne. }
  destruct (has_signal (pending_signals pcb) SIGNAL_KILL) eqn:Hk.
  { apply Hgo; [auto with kernel..|]. intros s' Hr'. apply HQ.
    eapply Hsame; [exact Hr'|]. unfold signal_effect. by rewrite Hk. }
  destruct (has_signal (pending_signals pcb) SIGNAL_STOP) eqn:Ht.
  { apply Hgo; [auto with kernel..|]. intros s' Hr'. apply HQ.
    eapply Hsame; [exact Hr'|]. unfold signal_effect. by rewrite Hk, Ht. }
  destruct (has_signal (pending_signals pcb) SIGNAL_RESUME) eqn:Hre; [|apply wp_ret; auto].
  apply wp_bind. eapply wp_update; [done|auto with kernel|done|]. intros s1 Hr1.
  apply wp_bind. eapply wp_load; [done|by apply pcb_at_update_eq|]. intros v'. apply wp_when.
  rewrite bool_decide_false by (cbn; by rewrite Hst). apply HQ.
  eapply Hsame; [exact Hr1|]. unfold signal_effect. by rewrite Hk, Ht, Hre.
Qed.
End signals.

(** ** Selecting the first dispatchable process of a queue *)
Fixpoint a_take_ready (q : queue_ref) (l : list pcb_ptr) (a : astate) : option pcb_ptr * astate :=
  match l with
  | [] => (None, a)
  | p :: l' =>
      let a' := a_signals p (a_set_queue q l' a) in
      if decide (state_of a' p = PROCESS_READY) then (Some p, a') else a_take_ready q l' a'
  end.

(** All queued processes exist and are READY. *)
Definition queue_ready (a : astate) (l : list pcb_ptr) : Prop :=
  ∀ p, p ∈ l → state_of a p = PROCESS_READY ∧ allocated a p.

Lemma queue_ready_pcb a l p :
  queue_ready a l → p ∈ l → ∃ pcb, pcb_at a p = Some pcb ∧ state pcb = PROCESS_READY.
Proof.
  intros H Hp. destruct (H p Hp) as [Hs [pcb Hpcb]]. exists pcb.
  unfold state_of, pcb_at in Hs. rewrite Hpcb in Hs. done.
Qed.
Lemma queue_ready_update a l p f :
  p ∉ l → queue_ready a l → queue_ready (a_update p f a) l.
Proof.
  intros Hp H p' Hp'. unfold state_of, allocated. fold (pcb_at (a_update p f a) p').
  rewrite pcb_at_update_ne by set_solver. by apply H.
Qed.

Section take_ready.
Variable alg : SchedAlgorithm.

Lemma wp_dequeue_ready fuel q (Q : option pcb_ptr → kernel → Prop) s a :
  rep s a → valid_queue q → queue_ready a (queues a q) →
  (length (queues a q) < fuel)%nat →
  (∀ s', let r := a_take_ready q (queues a q) a in rep s' r.2 → Q r.1 s') →
  wp (dequeue_ready alg fuel q) Q s.
Proof.
  revert s a. induction fuel as [|fuel IH]; intros s a Hr Hq Hready Hfuel HQ; [lia|].
  cbn [dequeue_ready]. apply wp_bind. eapply wp_dequeue_process_from; [done..|].
  pose proof (rep_nodup _ _ Hr q Hq) as Hnd.
  destruct (queues a q) as [|p l] eqn:Hl; [by apply wp_ret, HQ|].
  apply NoDup_cons in Hnd as [Hpl Hnd]. intros s1 Hr1.
  destruct (queue_ready_pcb _ _ p Hready ltac:(left)) as (pcb & Hp & Hst).
  apply wp_bind. eapply wp_handle_process_signals; [exact Hr1|exact Hp|done|].
  intros s2 Hr2. cbn in HQ.
  set (a2 := a_signals p (a_set_queue q l a)) in *.
  assert (Hp2 : pcb_at a2 p = Some (signal_effect pcb)) by by apply pcb_at_update_eq.
  apply wp_bind. eapply wp_load; [done..|]. intros v.
  assert (Hso : state_of a2 p = state (signal_effect pcb))
    by (unfold state_of; by rewrite Hp2).
  change (state (set_next_ready v (signal_effect pcb))) with (state (signal_effect pcb)).
  rewrite <- Hso. destruct (decide (state_of a2 p = PROCESS_READY)); [by apply wp_ret, HQ|].
  assert (Hq2 : queues a2 q = l) by apply queues_set_queue.
  apply (IH s2 a2); rewrite ?Hq2; [done|done| |cbn in Hfuel; lia|done].
  apply queue_ready_update; [done|]. intros p' Hp'.
  apply Hready. by right.
Qed.
End take_ready.

(** ** Dispatching *)
Definition a_preempt (d : Z) (a : astate) : astate :=
  a_update (current a) (λ pcb, set_preempt_disabled (preempt_disabled pcb + d) pcb) a.

Definition a_requeue (put : pcb_ptr → astate → astate) (a : astate) : astate :=
  if bool_decide (current a ≠ InitProcess) &&
     bool_decide (state_of a (current a) = PROCESS_RUNNING)
  then put (current a) a else a.

(** What the switch to [next] does to one PCB. *)
Definition switched (next : pcb_ptr) (a : astate) (p : pcb_ptr) (pcb : PCB) : PCB :=
  if decide (p = next) then set_state PROCESS_RUNNING pcb
  else if decide (p = current a) then
    set_cpu_context (cpu (core a))
      (if bool_decide (state pcb = PROCESS_RUNNING) then set_state PROCESS_READY pcb else pcb)
  else pcb.
(** The registers and the translation table move with the switch. *)
Definition a_switch (next : pcb_ptr) (a : astate) : astate :=
  let a1 := a_core (λ k, set_heap (map_imap (λ p pcb, Some (switched next a p pcb)) (heap k)) k) a in
  if decide (current a = next) then a1 else
  a_core (λ k,
    set_cpu (from_option cpu_context zero_context (pcb_at a next))
      (set_ttbr0_el1 (from_option (λ pcb, pgd (mm pcb)) 0 (pcb_at a next))
        (set_current_process next k))) a1.

Lemma switch_pcb next a p : pcb_at (a_switch next a) p = switched next a p <$> pcb_at a p.
Proof.
  assert (H : map_imap (λ p pcb, Some (switched next a p pcb)) (heap (core a)) !! p
              = switched next a p <$> pcb_at a p).
  { rewrite map_lookup_imap. unfold pcb_at. by destruct (heap (core a) !! p). }
  unfold a_switch. case_decide; exact H.
Qed.

(** The writes of [switch_to_process] add up to [a_switch]. *)
Lemma switch_same next a :
  current a = next → a_update next (set_state PROCESS_RUNNING) a = a_switch next a.
Proof.
  intros Hc. unfold a_switch. rewrite decide_True by done. unfold a_update, a_core. f_equal.
  f_equal. apply map_eq. intros p. rewrite map_lookup_imap.
  destruct (decide (next = p)) as [->|Hn].
  - rewrite lookup_alter_eq. destruct (heap (core a) !! p); [|done]. cbn. unfold switched.
    by rewrite decide_True by done.
  - rewrite lookup_alter_ne by done. destruct (heap (core a) !! p); [|done]. cbn.
    unfold switched. by rewrite !decide_False by congruence.
Qed.
Lemma switch_other next a pcb pcb' :
  current a ≠ next → pcb_at a next = Some pcb → pcb_at a (current a) = Some pcb' →
  let a1 := a_update next (set_state PROCESS_RUNNING) a in
  let a2 := if bool_decide (state pcb' = PROCESS_RUNNING)
            then a_update (current a) (set_state PROCESS_READY) a1 else a1 in
  a_core (set_cpu (cpu_context pcb))
    (a_update (current a) (set_cpu_context (cpu (core a)))
      (a_core (set_ttbr0_el1 (pgd (mm pcb))) (a_core (set_current_process next) a2)))
  = a_switch next a.
Proof.
  intros Hne Hn Hc a1 a2. unfold a_switch. rewrite decide_False, Hn by done. cbn.
  assert (Hh : heap (core a2) = if bool_decide (state pcb' = PROCESS_RUNNING)
    then alter (set_state PROCESS_READY) (current a) (alter (set_state PROCESS_RUNNING) next (heap (core a)))
    else alter (set_state PROCESS_RUNNING) next (heap (core a)))
    by (unfold a2; by case_match).
  replace a2 with {| core := set_heap (heap (core a2)) (core a); queues := queues a |}
    by (unfold a2; by case_match).
  unfold a_update, a_core; cbn. f_equal. unfold set_cpu, set_heap, set_ttbr0_el1,
    set_current_process; cbn. f_equal. rewrite Hh. unfold pcb_at in *.
  apply map_eq. intros p. rewrite map_lookup_imap.
  replace (heap (core a) !! p ≫= λ pcb0, Some (switched next a p pcb0))
    with (switched next a p <$> heap (core a) !! p) by by destruct (heap (core a) !! p).
  unfold switched. destruct (decide (p = next)) as [->|Hpn].
  - rewrite lookup_alter_ne, Hn by done. cbn.
    case_bool_decide; rewrite ?(lookup_alter_ne _ _ (current a)) by done;
      by rewrite lookup_alter_eq, Hn.
  - destruct (decide (p = current a)) as [->|Hpc].
    + rewrite lookup_alter_eq, Hc. cbn. case_bool_decide.
      * by rewrite lookup_alter_eq, lookup_alter_ne, Hc.
      * by rewrite lookup_alter_ne, Hc.
    + rewrite lookup_alter_ne by done.
      case_bool_decide; rewrite ?(lookup_alter_ne _ _ (current a)) by done;
        rewrite lookup_alter_ne by done; by destruct (heap (core a) !! p).
Qed.

Section dispatch.
Variable alg : SchedAlgorithm.

Lemma wp_update_current f pcb (Q : unit → kernel → Prop) s a :
  rep s a → link_free f → pcb_at a (current a) = Some pcb →
  (∀ s', rep s' (a_update (current a) f a) → Q tt s') →
  wp (update_current f) Q s.
Proof.
  intros Hr Hf Hp HQ. unfold update_current. apply wp_bind, wp_gets.
  rewrite (rep_current _ _ Hr). by eapply wp_update.
Qed.
Lemma wp_preempt_disable pcb (Q : unit → kernel → Prop) s a :
  rep s a → pcb_at a (current a) = Some pcb →
  (∀ s', rep s' (a_preempt 1 a) → Q tt s') → wp preempt_disable Q s.
Proof. intros. eapply wp_update_current; eauto with kernel. Qed.
Lemma wp_preempt_enable pcb (Q : unit → kernel → Prop) s a :
  rep s a → pcb_at a (current a) = Some pcb →
  (∀ s', rep s' (a_preempt (-1) a) → Q tt s') → wp preempt_enable Q s.
Proof. intros. eapply wp_update_current; eauto with kernel. Qed.

Lemma wp_requeue_current (put : option pcb_ptr → K unit) (aput : pcb_ptr → astate → astate)
    pcb (Q : unit → kernel → Prop) s a :
  rep s a → pcb_at a (current a) = Some pcb →
  (current a ≠ InitProcess → state pcb = PROCESS_RUNNING →
    ∀ Q', (∀ s', rep s' (aput (current a) a) → Q' tt s') → wp (put (Some (current a))) Q' s) →
  (∀ s', rep s' (a_requeue aput a) → Q tt s') →
  wp (requeue_current put) Q s.
Proof.
  intros Hr Hp Hput HQ. unfold requeue_current. apply wp_bind, wp_gets.
  rewrite (rep_current _ _ Hr). apply wp_bind. eapply wp_load; [done..|]. intros v.
  apply wp_when. cbn [state set_next_ready].
  unfold a_requeue, state_of in HQ. rewrite Hp in HQ. cbn in HQ.
  case_bool_decide; [|by apply HQ]. case_bool_decide; [|by apply HQ]. by apply Hput.
Qed.

Lemma wp_switch_to_process next pcb pcb' (Q : unit → kernel → Prop) s a :
  rep s a → pcb_at a next = Some pcb → pcb_at a (current a) = Some pcb' →
  (∀ s', rep s' (a_switch next a) → Q tt s') →
  wp (switch_to_process next) Q s.
Proof.
  intros Hr Hn Hc HQ. unfold switch_to_process. apply wp_bind.
  eapply wp_update; [done|auto with kernel|done|]. intros s1 Hr1.
  apply wp_bind, wp_gets. rewrite (rep_current _ _ Hr1).
  change (current (a_update next (set_state PROCESS_RUNNING) a)) with (current a).
  case_decide as Heq; [apply wp_ret, HQ; by rewrite <- switch_same|].
  rewrite <- (switch_other next a pcb pcb') in HQ by done. cbn zeta in HQ.
  set (a1 := a_update next (set_state PROCESS_RUNNING) a) in *.
  assert (Hc1 : pcb_at a1 (current a) = Some pcb')
    by (unfold a1; rewrite pcb_at_update_ne; [done|congruence]).
  apply wp_bind. eapply wp_load; [done..|]. intros v. apply wp_bind, wp_when.
  cbn [state set_next_ready].
  set (a2 := if bool_decide _ then _ else _) in HQ.
  assert (Hn2 : pcb_at a2 next = Some (set_state PROCESS_RUNNING pcb)).
  { unfold a2. case_bool_decide; rewrite ?(pcb_at_update_ne _ (current a)) by done;
      by apply pcb_at_update_eq. }
  assert (is_Some (pcb_at a2 (current a))) as [y Hy].
  { unfold a2. case_bool_decide; [|eauto]. erewrite pcb_at_update_eq by done. eauto. }
  assert (Hcpu : cpu (core a2) = cpu (core a)) by (unfold a2; by case_match).
  assert (Hgo : ∀ s2, rep s2 a2 →
    wp (modify (set_current_process next);; n ← load next; set_pgd (pgd (mm n));;
        cpu_switch_to_process (current a) next) Q s2).
  { intros s2 Hr2. apply wp_bind. eapply wp_modify_core; [done..|]. intros s3 Hr3.
    apply wp_bind. eapply wp_load; [done|exact Hn2|]. intros v3. apply wp_bind.
    eapply wp_modify_core; [done..|]. intros s4 Hr4. unfold cpu_switch_to_process.
    apply wp_bind, wp_gets. rewrite (rep_field cpu s4 _ ltac:(done) Hr4).
    cbn [cpu core a_core set_ttbr0_el1 set_current_process]. rewrite Hcpu. apply wp_bind.
    eapply wp_update; [exact Hr4|auto with kernel|exact Hy|]. intros s5 Hr5. apply wp_bind.
    eapply wp_load; [exact Hr5|etrans; [by apply (pcb_at_update_ne _ (current a))|exact Hn2]|]. intros v5.
    eapply wp_modify_core; [done..|]. exact HQ. }
  unfold a2 in Hgo. case_bool_decide; [|by apply Hgo].
  eapply wp_update; [done|auto with kernel|done|exact Hgo].
Qed.
End dispatch.
