(* ===== verification/SchedInv.v ===== *)
(** * The invariant of the scheduler

    What the process table, the ready queues and the process states promise each
    other, and its preservation by the steps a scheduling decision is made of. *)
From S2P Require Import Prelude.
From S2P Require Import Process.
From S2P Require Import ReadyQueue.
From S2P Require Import Scheduler.
From S2P Require Import SchedSpec.
Local Open Scope Z_scope.

Definition registered (a : astate) (p : pcb_ptr) : Prop := Some p ∈ processes (core a).

(** The queues the active algorithm uses: a process in another one is lost. *)
Definition scanned (alg : SchedAlgorithm) (q : queue_ref) : Prop :=
  match enqueue alg with EnqueueMultilevel => q ≠ ReadyQueue | _ => q = ReadyQueue end.

Definition level_in_range (l : Z) : Prop := 0 ≤ l < ML_MAX_LEVELS.

(** [hole] is a READY process that is momentarily in no queue: the one a pick
    function has just taken out. *)
Record kinv (alg : SchedAlgorithm) (hole : option pcb_ptr) (a : astate) : Prop := {
  inv_slots : length (processes (core a)) = Z.to_nat N_PROCESSES;
  inv_levels_length : length (queue_level (core a)) = Z.to_nat N_PROCESSES;
  inv_levels : Forall level_in_range (queue_level (core a));
  inv_init : registered a InitProcess;
  inv_current : registered a (current a);
  inv_table : ∀ i p, processes (core a) !! i = Some (Some p) →
    ∃ pcb, pcb_at a p = Some pcb ∧ pid pcb = Z.of_nat i ∧ 1 ≤ priority pcb;
  inv_counter : ∀ p, registered a p → p ≠ current a → 0 ≤ counter_of a p;
  inv_queued : ∀ q p, valid_queue q → p ∈ queues a q →
    scanned alg q ∧ p ≠ InitProcess ∧ registered a p ∧ state_of a p = PROCESS_READY;
  inv_ready : ∀ p, registered a p → p ≠ InitProcess → state_of a p = PROCESS_READY →
    hole = Some p ∨ ∃ q, valid_queue q ∧ p ∈ queues a q;
  inv_running : ∀ p, registered a p → state_of a p = PROCESS_RUNNING → p = current a;
  inv_nodup : ∀ q, valid_queue q → NoDup (queues a q);
  inv_disjoint : ∀ q1 q2 p, valid_queue q1 → valid_queue q2 →
    p ∈ queues a q1 → p ∈ queues a q2 → q1 = q2
}.

(** The clauses a change leaves alone up to computation. *)
Ltac kinv_split H :=
  split;
  [ try exact (inv_slots _ _ _ H) | try exact (inv_levels_length _ _ _ H)
  | try exact (inv_levels _ _ _ H) | try exact (inv_init _ _ _ H)
  | try exact (inv_current _ _ _ H) | try exact (inv_table _ _ _ H)
  | try exact (inv_counter _ _ _ H) | try exact (inv_queued _ _ _ H)
  | try exact (inv_ready _ _ _ H) | try exact (inv_running _ _ _ H)
  | try exact (inv_nodup _ _ _ H) | try exact (inv_disjoint _ _ _ H) ].

Section kinv.
Context {alg : SchedAlgorithm}.
Implicit Types (a : astate) (p : pcb_ptr) (q : queue_ref) (hole : option pcb_ptr).

Lemma registered_pcb hole a p :
  kinv alg hole a → registered a p →
  ∃ pcb, pcb_at a p = Some pcb ∧ 0 ≤ pid pcb < N_PROCESSES ∧ 1 ≤ priority pcb
    ∧ processes (core a) !! Z.to_nat (pid pcb) = Some (Some p).
Proof.
  intros Hi [i Hp]%list_elem_of_lookup.
  destruct (inv_table _ _ _ Hi _ _ Hp) as (pcb & Hpcb & Hpid & Hprio).
  exists pcb. pose proof (inv_slots _ _ _ Hi) as Hlen. apply lookup_lt_Some in Hp as Hlt.
  unfold N_PROCESSES in *. rewrite Hpid, Nat2Z.id. repeat split; try done; lia.
Qed.

(** Distinct registered processes have distinct pids. *)
Lemma registered_pid_inj hole a p p' pcb pcb' :
  kinv alg hole a → registered a p → registered a p' →
  pcb_at a p = Some pcb → pcb_at a p' = Some pcb' → pid pcb = pid pcb' → p = p'.
Proof.
  intros Hi Hr Hr' Hp Hp' Heq.
  destruct (registered_pcb _ _ _ Hi Hr) as (x & Hx & _ & _ & Ht).
  destruct (registered_pcb _ _ _ Hi Hr') as (x' & Hx' & _ & _ & Ht').
  simplify_eq. rewrite Heq in Ht. congruence.
Qed.

Lemma queue_length hole a q :
  kinv alg hole a → valid_queue q →
  (length (queues a q) ≤ Z.to_nat N_PROCESSES)%nat.
Proof.
  intros Hi Hq. rewrite <- (inv_slots _ _ _ Hi), <- (length_fmap Some).
  apply submseteq_length, NoDup_submseteq.
  - apply (NoDup_fmap_2 _), (inv_nodup _ _ _ Hi q Hq).
  - intros o (p & -> & Hp)%list_elem_of_fmap. by apply (inv_queued _ _ _ Hi q p).
Qed.
Lemma queue_length_fuel hole a q :
  kinv alg hole a → valid_queue q → (length (queues a q) < queue_fuel)%nat.
Proof. intros. unfold queue_fuel. apply Nat.lt_succ_r. by eapply queue_length. Qed.

Lemma queued_ready hole a q :
  kinv alg hole a → valid_queue q → queue_ready a (queues a q).
Proof.
  intros Hi Hq p Hp. destruct (inv_queued _ _ _ Hi q p Hq Hp) as (_ & _ & Hreg & Hst).
  split; [done|]. destruct (registered_pcb _ _ _ Hi Hreg) as (pcb & Hpcb & _).
  unfold allocated. fold (pcb_at a p). rewrite Hpcb. eauto.
Qed.

(** A process that is not READY is in no queue. *)
Lemma not_ready_unqueued hole a p :
  kinv alg hole a → state_of a p ≠ PROCESS_READY → unqueued a p.
Proof. intros Hi Hst q Hq Hp. by destruct (inv_queued _ _ _ Hi q p Hq Hp) as (_&_&_&?). Qed.

(** A change of the state outside the PCBs, the table and the queues. *)
Lemma kinv_core hole g a :
  kinv alg hole a →
  heap (g (core a)) = heap (core a) → processes (g (core a)) = processes (core a) →
  current_process (g (core a)) = current_process (core a) →
  length (queue_level (g (core a))) = Z.to_nat N_PROCESSES →
  Forall level_in_range (queue_level (g (core a))) →
  kinv alg hole (a_core g a).
Proof.
  intros Hi Hh Ht Hc Hl1 Hl2.
  assert (Hpcb : ∀ p, pcb_at (a_core g a) p = pcb_at a p)
    by (intros; unfold pcb_at; cbn; by rewrite Hh).
  assert (Hst : ∀ p, state_of (a_core g a) p = state_of a p)
    by (intros; unfold state_of; by rewrite Hpcb).
  assert (Hct : ∀ p, counter_of (a_core g a) p = counter_of a p)
    by (intros; unfold counter_of; by rewrite Hpcb).
  destruct Hi as [H1 H2 H3 H4 H5 H6 H7 H8 H9 H10 H11 H12].
  unfold registered, current in *. split; unfold registered, current; cbn;
    rewrite ?Ht, ?Hc; try done; setoid_rewrite Hst || setoid_rewrite Hpcb || setoid_rewrite Hct; done.
Qed.

(** The facts about one process an assignment has to keep. *)
Definition keeps_identity (f : PCB → PCB) : Prop :=
  ∀ pcb, pid (f pcb) = pid pcb ∧ (1 ≤ priority pcb → 1 ≤ priority (f pcb)).
Definition keeps_counter (f : PCB → PCB) : Prop :=
  ∀ pcb, 1 ≤ priority pcb → 0 ≤ counter pcb → 0 ≤ counter (f pcb).

Lemma state_of_update a p f p' :
  state_of (a_update p f a) p' =
  if decide (p = p') then from_option (λ x, state (f x)) 0 (pcb_at a p') else state_of a p'.
Proof.
  unfold state_of. rewrite pcb_at_update. case_decide; [|done]. by destruct (pcb_at a p').
Qed.
Lemma state_of_update_ne a p f p' : p ≠ p' → state_of (a_update p f a) p' = state_of a p'.
Proof. intros. by rewrite state_of_update, decide_False. Qed.
Lemma counter_of_update a p f p' :
  counter_of (a_update p f a) p' =
  if decide (p = p') then from_option (λ x, counter (f x)) 0 (pcb_at a p') else counter_of a p'.
Proof.
  unfold counter_of. rewrite pcb_at_update. case_decide; [|done]. by destruct (pcb_at a p').
Qed.

(** Clauses an assignment to one PCB keeps whatever it does to the state. *)
Lemma table_update hole a p f :
  kinv alg hole a → keeps_identity f →
  ∀ i p', processes (core (a_update p f a)) !! i = Some (Some p') →
  ∃ pcb, pcb_at (a_update p f a) p' = Some pcb ∧ pid pcb = Z.of_nat i ∧ 1 ≤ priority pcb.
Proof.
  intros Hi Hf i p' Hp'. cbn in Hp'.
  destruct (inv_table _ _ _ Hi _ _ Hp') as (pcb & Hpcb & Hpid & Hprio).
  rewrite pcb_at_update, Hpcb. case_decide; cbn; [|eauto].
  exists (f pcb). destruct (Hf pcb) as [-> Hpr]. auto.
Qed.
Lemma counter_update hole a p f :
  kinv alg hole a → p = current a ∨ keeps_counter f →
  ∀ p', registered a p' → p' ≠ current a → 0 ≤ counter_of (a_update p f a) p'.
Proof.
  intros Hi Hf p' Hr Hne. rewrite counter_of_update. pose proof (inv_counter _ _ _ Hi p' Hr Hne) as Hc.
  case_decide as Heq; [|done]. subst p'. destruct Hf as [->|Hf]; [done|].
  unfold counter_of in Hc. destruct (registered_pcb _ _ _ Hi Hr) as (pcb & Hpcb & _ & Hprio & _).
  rewrite Hpcb in *. cbn in *. auto.
Qed.

(** Assignments that keep the state of the process. *)
Lemma kinv_update hole a p f :
  kinv alg hole a → keeps_identity f → p = current a ∨ keeps_counter f →
  (∀ pcb, pcb_at a p = Some pcb → state (f pcb) = state pcb) →
  kinv alg hole (a_update p f a).
Proof.
  intros Hi Hid Hct Hst.
  assert (Hso : ∀ p', state_of (a_update p f a) p' = state_of a p').
  { intros p'. rewrite state_of_update. case_decide as Heq; [|done]. subst p'. unfold state_of.
    destruct (pcb_at a p) eqn:Hp; cbn; [by apply Hst|done]. }
  kinv_split Hi.
  - by apply (table_update hole a p f).
  - by apply (counter_update hole a p f).
  - intros. rewrite Hso. by apply (inv_queued _ _ _ Hi).
  - intros p'. rewrite Hso. by apply (inv_ready _ _ _ Hi).
  - intros p'. rewrite Hso. by apply (inv_running _ _ _ Hi).
Qed.

(** Assignments that give an unqueued process the state [v]. *)
Lemma kinv_update_state hole hole' a p f v :
  kinv alg hole a → unqueued a p → keeps_identity f → p = current a ∨ keeps_counter f →
  (∀ pcb, pcb_at a p = Some pcb → state (f pcb) = v) →
  (v = PROCESS_RUNNING → p = current a) →
  (v = PROCESS_READY → p ≠ InitProcess → hole' = Some p) →
  (∀ x, hole = Some x → x = p ∨ hole' = Some x) →
  kinv alg hole' (a_update p f a).
Proof.
  intros Hi Hun Hid Hct Hst Hrun Hready Hhole.
  assert (Hso : ∀ p', registered a p' → state_of (a_update p f a) p' = if decide (p = p') then v else state_of a p').
  { intros p' Hr. rewrite state_of_update. case_decide as Heq; [|done]. subst p'.
    destruct (registered_pcb _ _ _ Hi Hr) as (pcb & Hpcb & _). rewrite Hpcb. cbn.
    by apply Hst. }
  kinv_split Hi.
  - by apply (table_update hole a p f).
  - by apply (counter_update hole a p f).
  - intros q p' Hq Hp'. destruct (inv_queued _ _ _ Hi q p' Hq Hp') as (? & ? & ? & ?).
    rewrite state_of_update_ne; [done|]. intros ->. by apply (Hun q).
  - intros p' Hr Hne. rewrite Hso by done. case_decide as Heq.
    + subst p'. intros. left. by apply Hready.
    + intros Hs. destruct (inv_ready _ _ _ Hi p' Hr Hne Hs) as [Hh|?]; [|by right].
      left. by destruct (Hhole _ Hh).
  - intros p' Hr. rewrite Hso by done. case_decide as Heq.
    + subst p'. apply Hrun.
    + by apply (inv_running _ _ _ Hi).
Qed.

Lemma kinv_other hole a q q' p :
  kinv alg hole a → valid_queue q → valid_queue q' → q' ≠ q →
  p ∈ queues a q → p ∉ queues a q'.
Proof. intros Hi Hq Hq' Hne Hp Hp'. apply Hne. by eapply (inv_disjoint _ _ _ Hi). Qed.

(** Taking a process out of a queue makes it the hole. *)
Lemma kinv_take a q p l :
  kinv alg None a → valid_queue q → queues a q ≡ₚ p :: l →
  kinv alg (Some p) (a_set_queue q l a).
Proof.
  intros Hi Hq Hperm.
  assert (Hin : ∀ q' p', p' ∈ queues (a_set_queue q l a) q' → p' ∈ queues a q').
  { intros q' p'. cbn. unfold upd_queue. case_decide; [|done]. subst q'.
    rewrite Hperm. by right. }
  kinv_split Hi.
  - intros q' p' Hq' Hp'. apply (inv_queued _ _ _ Hi q' p' Hq'). by apply Hin.
  - intros p' Hr Hne Hs. destruct (inv_ready _ _ _ Hi p' Hr Hne Hs) as [?|(q' & Hq' & Hp')]; [done|].
    destruct (decide (p' = p)) as [->|Hpp]; [by left|]. right. exists q'. split; [done|].
    cbn. unfold upd_queue. case_decide; [|done]. subst q'. rewrite Hperm in Hp'. set_solver.
  - intros q' Hq'. cbn. unfold upd_queue. case_decide; [|by apply (inv_nodup _ _ _ Hi)].
    pose proof (inv_nodup _ _ _ Hi q Hq) as Hnd. rewrite Hperm in Hnd.
    by apply NoDup_cons in Hnd as [_ Hnd].
  - intros q1 q2 p' H1 H2 Hp1%Hin Hp2%Hin. by eapply (inv_disjoint _ _ _ Hi).
Qed.
Lemma taken_unqueued a q p l :
  kinv alg None a → valid_queue q → queues a q ≡ₚ p :: l →
  unqueued (a_set_queue q l a) p.
Proof.
  intros Hi Hq Hperm q' Hq'. cbn. unfold upd_queue. case_decide as Heq.
  - pose proof (inv_nodup _ _ _ Hi q Hq) as Hnd. rewrite Hperm in Hnd.
    by apply NoDup_cons in Hnd as [? _].
  - eapply (kinv_other _ _ q); [done..|]. rewrite Hperm. left.
Qed.

(** Entering a queue fills the hole. *)
Lemma kinv_enqueue_gen hole hole' a q l p :
  kinv alg hole a → valid_queue q → scanned alg q → registered a p → p ≠ InitProcess →
  unqueued a p → l ≡ₚ p :: queues a q →
  (∀ x, hole = Some x → x = p ∨ hole' = Some x) →
  kinv alg hole' (a_update p (set_state PROCESS_READY) (a_set_queue q l a)).
Proof.
  intros Hi Hq Hsc Hreg Hne Hun Hperm Hhole.
  assert (Hso : ∀ p', registered a p' →
    state_of (a_update p (set_state PROCESS_READY) (a_set_queue q l a)) p' =
    if decide (p = p') then PROCESS_READY else state_of a p').
  { intros p' Hr. rewrite state_of_update. case_decide as Heq; [|done]. subst p'.
    destruct (registered_pcb _ _ _ Hi Hr) as (pcb & Hpcb & _).
    rewrite pcb_at_set_queue, Hpcb. done. }
  kinv_split Hi.
  - by eapply (table_update hole a p (set_state PROCESS_READY)).
  - by eapply (counter_update hole a p (set_state PROCESS_READY)); [done|right; by intros ?|..].
  - intros q' p' Hq' Hp'.
    assert (p' = p ∧ q' = q ∨ p' ≠ p ∧ p' ∈ queues a q') as [[-> ->]|[Hpp Hin]].
    { cbn in Hp'. unfold upd_queue in Hp'. destruct (decide (p' = p)) as [->|].
      - case_decide; [by left|]. exfalso. by eapply Hun.
      - right. split; [done|]. case_decide; [|done]. subst q'. rewrite Hperm in Hp'. set_solver. }
    + repeat split; try done. by rewrite Hso, decide_True.
    + destruct (inv_queued _ _ _ Hi q' p' Hq' Hin) as (? & ? & ? & ?).
      repeat split; try done. rewrite Hso by done. by rewrite decide_False.
  - intros p' Hr Hne'. rewrite Hso by done.
    case_decide as Heq.
    + subst p'. intros _. right. exists q. split; [done|]. cbn. unfold upd_queue.
      rewrite decide_True, Hperm by done. left.
    + intros Hs. destruct (inv_ready _ _ _ Hi p' Hr Hne' Hs) as [Hh|(q' & Hq' & Hp')].
      { left. by destruct (Hhole _ Hh). }
      right. exists q'. split; [done|]. cbn. unfold upd_queue. case_decide; [|done].
      subst q'. rewrite Hperm. by right.
  - intros p' Hr. rewrite Hso by done. case_decide; [done|]. by apply (inv_running _ _ _ Hi).
  - intros q' Hq'. cbn. unfold upd_queue. case_decide; [|by apply (inv_nodup _ _ _ Hi)].
    rewrite Hperm. constructor; [by apply Hun|by apply (inv_nodup _ _ _ Hi)].
  - intros q1 q2 p' H1 H2. cbn. unfold upd_queue.
    repeat case_decide; subst; try done; rewrite ?Hperm.
    + intros [->|Hp1]%elem_of_cons Hp2; [by destruct (Hun q2)|].
      by eapply (inv_disjoint _ _ _ Hi).
    + intros Hp1 [->|Hp2]%elem_of_cons; [by destruct (Hun q1)|].
      by eapply (inv_disjoint _ _ _ Hi).
    + by apply (inv_disjoint _ _ _ Hi).
Qed.
Lemma kinv_enqueue hole hole' a q p :
  kinv alg hole a → valid_queue q → scanned alg q → registered a p → p ≠ InitProcess →
  unqueued a p → (∀ x, hole = Some x → x = p ∨ hole' = Some x) →
  kinv alg hole' (a_enqueue q p a).
Proof.
  intros. eapply kinv_enqueue_gen; try done. by rewrite Permutation_app_comm.
Qed.
Lemma kinv_enqueue_sorted hole hole' a q p :
  kinv alg hole a → valid_queue q → scanned alg q → registered a p → p ≠ InitProcess →
  unqueued a p → (∀ x, hole = Some x → x = p ∨ hole' = Some x) →
  kinv alg hole' (a_enqueue_sorted q p a).
Proof. intros. eapply kinv_enqueue_gen; try done. apply insert_by_perm. Qed.
End kinv.

#[export] Hint Extern 1 (keeps_identity _) => (intros ?; split; [reflexivity|done]) : kernel.
#[export] Hint Extern 1 (keeps_counter _) => (intros ???; cbn; lia) : kernel.
