(* ===== verification/SchedDispatch.v ===== *)
(** * Entering and leaving a scheduling decision

    The parts every [_schedule_*] function of src/libs/scheduler.c shares: the
    guard, the re-insertion of the outgoing process, the dispatch of the selected
    one.  Each is refined to a function on the abstract state and shown to keep the
    scheduler's invariant. *)
From S2P Require Import Prelude.
From S2P Require Import Process.
From S2P Require Import ReadyQueue.
From S2P Require Import Scheduler.
From S2P Require Import SchedSpec.
From S2P Require Import SchedInv.
Local Open Scope Z_scope.

(** ** Insertion callbacks *)
Definition level_of (a : astate) (p : pcb_ptr) : Z :=
  default 0 (pcb ← pcb_at a p; arr_get (queue_level (core a)) (pid pcb)).
Definition a_put (callback : enqueue_callback) (p : pcb_ptr) (a : astate) : astate :=
  match callback with
  | EnqueueFifo => a_enqueue ReadyQueue p a
  | EnqueueSjf => a_enqueue_sorted ReadyQueue p a
  | EnqueueMultilevel => a_enqueue (MlQueue (level_of a p)) p a
  end.

(** The process is registered, is not the idle task and sits in no queue. *)
Definition insertable (a : astate) (p : pcb_ptr) : Prop :=
  registered a p ∧ p ≠ InitProcess ∧ unqueued a p.

Section insertion.
Context {alg : SchedAlgorithm}.
Implicit Types (a : astate) (p : pcb_ptr) (hole : option pcb_ptr).

Lemma level_of_valid hole a p :
  kinv alg hole a → registered a p →
  ∃ pcb, pcb_at a p = Some pcb ∧
    arr_get (queue_level (core a)) (pid pcb) = Some (level_of a p) ∧
    valid_queue (MlQueue (level_of a p)).
Proof.
  intros Hi Hr. destruct (registered_pcb _ _ _ Hi Hr) as (pcb & Hp & Hpid & _).
  exists pcb. split; [done|]. unfold level_of. rewrite Hp. cbn.
  pose proof (inv_levels_length _ _ _ Hi) as Hlen. unfold N_PROCESSES in *.
  destruct (proj2 (arr_get_is_Some (queue_level (core a)) (pid pcb))) as [l Hl]; [lia|].
  rewrite Hl. split; [done|]. cbn. unfold arr_get in Hl. case_decide; [|done].
  by eapply (Forall_lookup_1 _ _ _ _ (inv_levels _ _ _ Hi)).
Qed.

Lemma wp_run_enqueue hole callback p (Q : unit → kernel → Prop) s a :
  rep s a → kinv alg hole a → insertable a p →
  (∀ s', rep s' (a_put callback p a) → Q tt s') →
  wp (run_enqueue callback (Some p)) Q s.
Proof.
  intros Hr Hi (Hreg & Hne & Hun) HQ.
  destruct (registered_pcb _ _ _ Hi Hreg) as (pcb & Hp & _). destruct callback; cbn in *.
  - by eapply (wp_enqueue_process_to ReadyQueue).
  - eapply (wp_enqueue_sorted_to ReadyQueue); try done.
    apply Nat.lt_le_incl. by eapply queue_length_fuel.
  - destruct (level_of_valid _ _ _ Hi Hreg) as (pcb' & Hp' & Hl & Hq).
    unfold enqueue_multilevel. apply wp_bind, wp_ret, wp_bind.
    eapply wp_load; [done..|]. intros v. apply wp_bind.
    unfold get_queue_level. apply wp_bind, wp_gets, wp_defined.
    exists (level_of a p). rewrite (rep_field queue_level s a) by done. split; [exact Hl|].
    by eapply (wp_enqueue_process_to (MlQueue _)).
Qed.

Lemma kinv_put hole hole' a p :
  kinv alg hole a → insertable a p →
  (∀ x, hole = Some x → x = p ∨ hole' = Some x) →
  kinv alg hole' (a_put (enqueue alg) p a).
Proof.
  intros Hi (Hreg & Hne & Hun) Hh. destruct (enqueue alg) eqn:He; cbn.
  - eapply kinv_enqueue; try done. unfold scanned. by rewrite He.
  - eapply kinv_enqueue_sorted; try done. unfold scanned. by rewrite He.
  - destruct (level_of_valid _ _ _ Hi Hreg) as (_ & _ & _ & Hq).
    eapply kinv_enqueue; try done. unfold scanned. by rewrite He.
Qed.

Lemma put_core callback p a :
  core (a_put callback p a) = core (a_update p (set_state PROCESS_READY) a).
Proof. by destruct callback. Qed.
Lemma put_current callback p a : current (a_put callback p a) = current a.
Proof. unfold current. by rewrite put_core. Qed.
Lemma put_state callback p a p' :
  state_of (a_put callback p a) p' = state_of (a_update p (set_state PROCESS_READY) a) p'.
Proof. unfold state_of, pcb_at. by rewrite put_core. Qed.
Lemma put_counter callback p a p' : counter_of (a_put callback p a) p' = counter_of a p'.
Proof.
  unfold counter_of at 1, pcb_at. rewrite put_core.
  change (counter_of (a_update p (set_state PROCESS_READY) a) p' = counter_of a p').
  rewrite counter_of_update. case_decide; [|done]. unfold counter_of.
  by destruct (pcb_at a p').
Qed.
End insertion.

(** ** Entering *)
Definition settled (a : astate) : Prop := 0 ≤ counter_of a (current a).
Definition a_enter (alg : SchedAlgorithm) (a : astate) : astate :=
  a_requeue (a_put (enqueue alg)) (a_preempt 1 a).

(** What holds when a decision is requested: the invariant, with the outgoing
    process in no queue and its slice not negative. *)
Record decidable_state (alg : SchedAlgorithm) (a : astate) : Prop := {
  ds_inv : kinv alg None a;
  ds_unqueued : unqueued a (current a);
  ds_settled : settled a
}.

(** What holds while a decision picks: nobody is RUNNING but the idle task;
    [hole] has just been taken out of its queue. *)
Record picking (alg : SchedAlgorithm) (hole : option pcb_ptr) (a : astate) : Prop := {
  pk_inv : kinv alg hole a;
  pk_settled : settled a;
  pk_idle : ∀ p, registered a p → p ≠ InitProcess → state_of a p ≠ PROCESS_RUNNING
}.

Section enter.
Context {alg : SchedAlgorithm}.
Implicit Types (a : astate) (p : pcb_ptr).

Lemma preempt_state d a p : state_of (a_preempt d a) p = state_of a p.
Proof.
  unfold a_preempt. rewrite state_of_update. case_decide; [|done].
  unfold state_of. by destruct (pcb_at a p).
Qed.
Lemma preempt_counter d a p : counter_of (a_preempt d a) p = counter_of a p.
Proof.
  unfold a_preempt. rewrite counter_of_update. case_decide; [|done].
  unfold counter_of. by destruct (pcb_at a p).
Qed.
Lemma kinv_preempt hole d a : kinv alg hole a → kinv alg hole (a_preempt d a).
Proof. intros Hi. apply kinv_update; [done|auto with kernel|by left|done]. Qed.

(** The guards of [requeue_current] hold exactly for an insertable process. *)
Lemma requeue_cases a (P : astate → Prop) :
  kinv alg None a → unqueued a (current a) →
  (insertable a (current a) → state_of a (current a) = PROCESS_RUNNING →
    P (a_put (enqueue alg) (current a) a)) →
  (current a = InitProcess ∨ state_of a (current a) ≠ PROCESS_RUNNING → P a) →
  P (a_requeue (a_put (enqueue alg)) a).
Proof.
  intros Hi Hun Hput Hskip. unfold a_requeue.
  destruct (bool_decide_reflect (current a ≠ InitProcess)) as [Hne|Hne]; cbn.
  - destruct (bool_decide_reflect (state_of a (current a) = PROCESS_RUNNING)); [|auto].
    apply Hput; [|done]. split; [apply (inv_current _ _ _ Hi)|done].
  - apply Hskip. left. by destruct (decide (current a = InitProcess)).
Qed.

Lemma enter_picking a : decidable_state alg a → picking alg None (a_enter alg a).
Proof.
  intros [Hi Hun Hset]. unfold a_enter.
  pose proof (kinv_preempt None 1 a Hi) as Hi1.
  apply requeue_cases; [done|done|..]; cbn.
  - intros Hins Hst. split.
    + by eapply kinv_put.
    + unfold settled. by rewrite put_current, put_counter, preempt_counter.
    + intros p Hr Hne. rewrite put_state, state_of_update. unfold registered in Hr.
      rewrite put_core in Hr. cbn in Hr. case_decide as Heq.
      * subst p. destruct (registered_pcb _ _ _ Hi1 Hr) as (pcb & Hp & _).
        by rewrite Hp.
      * intros Hs. by apply Heq, symmetry, (inv_running _ _ _ Hi1).
  - intros Hno. split; [done| |].
    + unfold settled. by rewrite preempt_counter.
    + intros p Hr Hne Hs. apply (inv_running _ _ _ Hi1 p Hr) in Hs as Hc. subst p.
      by destruct Hno.
Qed.

Lemma enter_frame a :
  current (a_enter alg a) = current a ∧
  processes (core (a_enter alg a)) = processes (core a).
Proof.
  unfold a_enter, a_requeue. case_match; [|done]. unfold current.
  by rewrite put_core.
Qed.

Lemma wp_enter_guard (Q : unit → kernel → Prop) s a :
  rep s a → decidable_state alg a →
  (∀ s', rep s' (a_preempt 1 a) → Q tt s') → wp preempt_disable Q s.
Proof.
  intros Hr [Hi _ _] HQ.
  destruct (registered_pcb _ _ _ Hi (inv_current _ _ _ Hi)) as (pcb & Hp & _).
  by eapply wp_preempt_disable.
Qed.
Lemma wp_enter_requeue (Q : unit → kernel → Prop) s a :
  rep s (a_preempt 1 a) → decidable_state alg a →
  (∀ s', rep s' (a_enter alg a) → Q tt s') →
  wp (requeue_current (run_enqueue (enqueue alg))) Q s.
Proof.
  intros Hr [Hi Hun _] HQ.
  destruct (registered_pcb _ _ _ Hi (inv_current _ _ _ Hi)) as (pcb & Hp & _).
  pose proof (kinv_preempt None 1 a Hi) as Hi1.
  eapply (wp_requeue_current _ (a_put (enqueue alg))); [exact Hr| | |exact HQ].
  - cbn. by apply pcb_at_update_eq.
  - intros Hne _ Q' HQ'. eapply wp_run_enqueue; [done|done| |done].
    split; [apply (inv_current _ _ _ Hi1)|]. split; [done|]. exact Hun.
Qed.
Lemma wp_enter {B} (k : K B) (Q : B → kernel → Prop) s a :
  rep s a → decidable_state alg a →
  (∀ s', rep s' (a_enter alg a) → wp k Q s') →
  wp (preempt_disable;; requeue_current (run_enqueue (enqueue alg));; k) Q s.
Proof.
  intros Hr Hds HQ. apply wp_bind. eapply wp_enter_guard; [done..|]. intros s1 Hr1.
  apply wp_bind. by eapply wp_enter_requeue.
Qed.
End enter.

(** ** Leaving *)

(** ** Leaving *)
Definition a_leave (r : option pcb_ptr) (a : astate) : astate :=
  a_preempt (-1) (a_switch (default InitProcess r) a).

(** What a pick function promises: [r] has left the queues, is READY, and the
    invariant holds but for it. *)
Record chosen (alg : SchedAlgorithm) (r : option pcb_ptr) (a : astate) : Prop := {
  ch_picking : picking alg r a;
  ch_pick : ∀ p, r = Some p → insertable a p ∧ state_of a p = PROCESS_READY
}.

Section leave.
Context {alg : SchedAlgorithm}.
Implicit Types (a : astate) (p next : pcb_ptr) (r : option pcb_ptr).

Lemma switch_state next a p :
  is_Some (pcb_at a p) →
  state_of (a_switch next a) p =
  if decide (p = next) then PROCESS_RUNNING
  else if bool_decide (p = current a ∧ state_of a p = PROCESS_RUNNING) then PROCESS_READY
  else state_of a p.
Proof.
  intros [pcb Hp]. unfold state_of. rewrite switch_pcb, Hp. cbn. unfold switched.
  case_decide; [done|]. case_decide; cbn.
  - case_bool_decide; cbn; [by rewrite bool_decide_true|]. rewrite bool_decide_false; naive_solver.
  - rewrite bool_decide_false; naive_solver.
Qed.
Lemma switch_counter next a p : counter_of (a_switch next a) p = counter_of a p.
Proof.
  unfold counter_of. rewrite switch_pcb. destruct (pcb_at a p); [|done]. cbn.
  unfold switched. by repeat case_match.
Qed.
Lemma switch_current next a : current (a_switch next a) = next.
Proof. unfold a_switch. by case_decide. Qed.
Lemma switch_frame next a :
  processes (core (a_switch next a)) = processes (core a) ∧
  queue_level (core (a_switch next a)) = queue_level (core a) ∧
  queues (a_switch next a) = queues a.
Proof. unfold a_switch. by case_decide. Qed.
Lemma switched_identity next a p : keeps_identity (switched next a p).
Proof. intros pcb. unfold switched. by repeat case_match. Qed.

Lemma chosen_next r a :
  chosen alg r a → registered a (default InitProcess r) ∧ unqueued a (default InitProcess r).
Proof.
  intros H. destruct r as [p|]; cbn.
  - destruct (ch_pick _ _ _ H p) as [(? & ? & ?) _]; done.
  - split; [apply (inv_init _ _ _ (pk_inv _ _ _ (ch_picking _ _ _ H)))|]. intros q Hq Hp.
    by destruct (inv_queued _ _ _ (pk_inv _ _ _ (ch_picking _ _ _ H)) q _ Hq Hp) as (_ & ? & _).
Qed.

Lemma switch_kinv r a :
  chosen alg r a → kinv alg None (a_switch (default InitProcess r) a).
Proof.
  intros H. destruct (chosen_next _ _ H) as [Hreg Hun].
  destruct H as [[Hi Hset Hidle] Hpick]. set (n := default InitProcess r) in *.
  destruct (switch_frame n a) as (Ht & Hl & Hqs).
  assert (Hr : ∀ p, registered (a_switch n a) p ↔ registered a p)
    by (intros; unfold registered; by rewrite Ht).
  assert (Hso : ∀ p, registered a p → p ≠ n → p ≠ InitProcess →
    state_of (a_switch n a) p = state_of a p).
  { intros p Hp Hpn Hpi. destruct (registered_pcb _ _ _ Hi Hp) as (pcb & Hpcb & _).
    rewrite switch_state by eauto. rewrite decide_False, bool_decide_false by naive_solver.
    done. }
  split; rewrite ?Ht, ?Hl, ?Hqs, ?switch_current.
  - apply (inv_slots _ _ _ Hi).
  - apply (inv_levels_length _ _ _ Hi).
  - apply (inv_levels _ _ _ Hi).
  - apply Hr, (inv_init _ _ _ Hi).
  - by apply Hr.
  - intros i p Hp. destruct (inv_table _ _ _ Hi i p Hp) as (pcb & Hpcb & Hpid & Hprio).
    exists (switched n a p pcb). rewrite switch_pcb, Hpcb.
    destruct (switched_identity n a p pcb) as [-> ?]. auto.
  - intros p Hp%Hr Hne. rewrite switch_counter.
    destruct (decide (p = current a)) as [->|]; [done|]. by apply (inv_counter _ _ _ Hi).
  - intros q p Hq Hp. destruct (inv_queued _ _ _ Hi q p Hq Hp) as (? & ? & ? & ?).
    split_and!; [done|done|by apply Hr|]. rewrite Hso; try done. intros ->. by eapply Hun.
  - intros p Hp%Hr Hpi. destruct (decide (p = n)) as [->|Hpn].
    + destruct (registered_pcb _ _ _ Hi Hp) as (pcb & Hpcb & _).
      rewrite switch_state by eauto. by rewrite decide_True.
    + rewrite Hso by done. intros Hs.
      destruct (inv_ready _ _ _ Hi p Hp Hpi Hs) as [->|?]; [done|by right].
  - intros p Hp%Hr Hs. destruct (decide (p = n)) as [|Hpn]; [done|]. exfalso.
    destruct (decide (p = InitProcess)) as [->|Hpi].
    + destruct (registered_pcb _ _ _ Hi Hp) as (pcb & Hpcb & _).
      rewrite switch_state in Hs by eauto. rewrite decide_False in Hs by done.
      case_bool_decide as Hc; [done|]. apply Hc. split; [|done].
      by apply (inv_running _ _ _ Hi).
    + rewrite Hso in Hs by done. by eapply Hidle.
  - apply (inv_nodup _ _ _ Hi).
  - apply (inv_disjoint _ _ _ Hi).
Qed.

Lemma leave_decidable r a :
  chosen alg r a →
  decidable_state alg (a_leave r a) ∧ current (a_leave r a) = default InitProcess r ∧
  state_of (a_leave r a) (default InitProcess r) = PROCESS_RUNNING.
Proof.
  intros H. destruct (chosen_next _ _ H) as [Hreg Hun]. pose proof (switch_kinv _ _ H) as Hi.
  unfold a_leave. set (n := default InitProcess r) in *. split_and!.
  - split.
    + by apply kinv_preempt.
    + change (current (a_preempt (-1) (a_switch n a))) with (current (a_switch n a)).
      rewrite switch_current. intros q. unfold a_preempt. cbn.
      destruct (switch_frame n a) as (_ & _ & ->). apply Hun.
    + unfold settled.
      change (current (a_preempt (-1) (a_switch n a))) with (current (a_switch n a)).
      rewrite preempt_counter, switch_counter, switch_current.
      destruct (decide (n = current a)) as [->|]; [apply (pk_settled _ _ _ (ch_picking _ _ _ H))|].
      by apply (inv_counter _ _ _ (pk_inv _ _ _ (ch_picking _ _ _ H))).
  - apply switch_current.
  - rewrite preempt_state.
    destruct (registered_pcb _ _ _ (pk_inv _ _ _ (ch_picking _ _ _ H)) Hreg) as (pcb & Hp & _).
    rewrite switch_state by eauto. by rewrite decide_True.
Qed.

Lemma wp_leave r (Q : unit → kernel → Prop) s a :
  rep s a → chosen alg r a →
  (∀ s', rep s' (a_leave r a) → Q tt s') →
  wp (switch_to_process (default InitProcess r);; preempt_enable) Q s.
Proof.
  intros Hr H HQ. destruct (chosen_next _ _ H) as [Hreg _].
  pose proof (pk_inv _ _ _ (ch_picking _ _ _ H)) as Hi.
  destruct (registered_pcb _ _ _ Hi Hreg) as (pcb & Hp & _).
  destruct (registered_pcb _ _ _ Hi (inv_current _ _ _ Hi)) as (pcb' & Hc & _).
  apply wp_bind. eapply wp_switch_to_process; [done..|]. intros s1 Hr1.
  eapply wp_preempt_enable; [done| |done].
  rewrite switch_pcb, switch_current, Hp. done.
Qed.
End leave.
