(* ===== verification/SchedPick.v ===== *)
(** * The pick functions

    The abstract counterparts of the selection loops of src/libs/scheduler.c, the
    refinement of the pointer code to them and what they select. *)
From S2P Require Import Prelude.
From S2P Require Import Process.
From S2P Require Import ReadyQueue.
From S2P Require Import Scheduler.
From S2P Require Import SchedSpec.
From S2P Require Import SchedInv.
From S2P Require Import SchedDispatch.
Local Open Scope Z_scope.

(** ** One candidate *)
Section candidate.
Context {alg : SchedAlgorithm}.
Implicit Types (a : astate) (p : pcb_ptr) (q : queue_ref) (l : list pcb_ptr).

(** Updates of one PCB that keep its state and do not make its slice negative. *)
Lemma picking_update hole a p f :
  picking alg hole a → keeps_identity f → keeps_counter f →
  (∀ pcb, pcb_at a p = Some pcb → state (f pcb) = state pcb) →
  picking alg hole (a_update p f a).
Proof.
  intros [Hi Hset Hidle] Hid Hct Hst. split.
  - apply kinv_update; auto.
  - unfold settled. change (current (a_update p f a)) with (current a).
    rewrite counter_of_update. case_decide as Heq; [|done]. subst p.
    destruct (registered_pcb _ _ _ Hi (inv_current _ _ _ Hi)) as (pcb & Hp & _ & Hprio & _).
    unfold settled, counter_of in Hset. rewrite Hp in Hset |- *. by apply Hct.
  - intros p' Hr Hne. rewrite state_of_update. case_decide as Heq; [|by apply Hidle].
    subst p'. destruct (registered_pcb _ _ _ Hi Hr) as (pcb & Hp & _).
    specialize (Hidle p Hr Hne). unfold state_of in Hidle. rewrite Hp in Hidle |- *. cbn in *.
    by rewrite Hst.
Qed.

Lemma picking_take a q p l :
  picking alg None a → valid_queue q → queues a q ≡ₚ p :: l →
  let a' := a_set_queue q l a in
  picking alg (Some p) a' ∧ insertable a' p ∧ state_of a' p = PROCESS_READY.
Proof.
  intros [Hi Hset Hidle] Hq Hl. cbn zeta.
  assert (Hp : p ∈ queues a q) by (rewrite Hl; left).
  destruct (inv_queued _ _ _ Hi q p Hq Hp) as (_ & Hne & Hr & Hs).
  split; [|split; [|done]].
  - split; [by apply (kinv_take a q p l)|done|done].
  - split; [done|]. split; [done|]. by apply (taken_unqueued (alg:=alg)).
Qed.

Lemma signal_effect_identity : keeps_identity signal_effect.
Proof. intros pcb. unfold signal_effect. by repeat case_match. Qed.
Lemma signal_effect_counter pcb : counter (signal_effect pcb) = counter pcb.
Proof. unfold signal_effect. by repeat case_match. Qed.
Lemma signal_effect_running pcb :
  state pcb ≠ PROCESS_RUNNING → state (signal_effect pcb) ≠ PROCESS_RUNNING.
Proof. unfold signal_effect. intros. by repeat case_match. Qed.

Lemma signals_counter p a p' : counter_of (a_signals p a) p' = counter_of a p'.
Proof.
  unfold a_signals. rewrite counter_of_update. case_decide; [|done]. unfold counter_of.
  destruct (pcb_at a p'); [|done]. cbn. apply signal_effect_counter.
Qed.
Lemma signals_state_ne p a p' : p ≠ p' → state_of (a_signals p a) p' = state_of a p'.
Proof. apply state_of_update_ne. Qed.

(** After its signals the candidate is chosen, or has become blocked. *)
Lemma picking_signals hole' a p :
  picking alg (Some p) a → insertable a p → state_of a p = PROCESS_READY →
  let a' := a_signals p a in
  (state_of a' p = PROCESS_READY → hole' = Some p) →
  (hole' = Some p ∨ hole' = None) →
  picking alg hole' a' ∧ (state_of a' p = PROCESS_READY → chosen alg (Some p) a').
Proof.
  intros [Hi Hset Hidle] Hins Hs. cbn zeta. intros Hh Hh'. pose proof Hins as (Hr & Hne & Hun).
  destruct (registered_pcb _ _ _ Hi Hr) as (pcb & Hp & _).
  assert (Hst : state pcb = PROCESS_READY) by (unfold state_of in Hs; by rewrite Hp in Hs).
  assert (Hs' : state_of (a_signals p a) p = state (signal_effect pcb)).
  { unfold a_signals. rewrite state_of_update, decide_True, Hp; done. }
  assert (Hnr : state (signal_effect pcb) ≠ PROCESS_RUNNING)
    by (apply signal_effect_running; by rewrite Hst).
  assert (Hpick : ∀ h, (state_of (a_signals p a) p = PROCESS_READY → h = Some p) →
    (h = Some p ∨ h = None) → picking alg h (a_signals p a)).
  { intros h Hh1 Hh2. split.
    - apply (kinv_update_state (Some p) _ _ _ _ (state (signal_effect pcb))); try done.
      + apply signal_effect_identity.
      + right. intros ???. by rewrite signal_effect_counter.
      + intros pcb' ?. by simplify_eq.
      + intros HR _. apply Hh1. by rewrite Hs'.
      + intros x [= <-]. by left.
    - unfold settled. rewrite signals_counter. done.
    - intros p' Hr' Hne'. destruct (decide (p = p')) as [<-|].
      + by rewrite Hs'.
      + rewrite signals_state_ne by done. by apply Hidle. }
  split; [by apply Hpick|]. intros HR. split; [apply Hpick; auto|].
  intros p' [= <-]. done.
Qed.

Lemma chosen_recharge a p v :
  0 ≤ v → chosen alg (Some p) a → chosen alg (Some p) (a_update p (set_counter v) a).
Proof.
  intros Hv [Hpk Hch]. split.
  - apply picking_update; [done|auto with kernel|by intros ?|done].
  - intros p' [= <-]. destruct (Hch p eq_refl) as [Hins Hs]. split; [done|].
    rewrite state_of_update, decide_True by done. unfold state_of in Hs.
    by destruct (pcb_at a p).
Qed.
End candidate.

(** ** The first dispatchable process of a queue *)
Section take_ready.
Context {alg : SchedAlgorithm}.
Implicit Types (a : astate) (p : pcb_ptr) (q : queue_ref) (l : list pcb_ptr).

Lemma take_ready_chosen q l a :
  picking alg None a → valid_queue q → queues a q = l →
  chosen alg (a_take_ready q l a).1 (a_take_ready q l a).2.
Proof.
  revert a. induction l as [|p l IH]; intros a Hpk Hq Hl; cbn; [by split|].
  destruct (picking_take a q p l Hpk Hq) as (Hpk1 & Hins & Hs); [by rewrite Hl|].
  case_decide as HR.
  - by apply (picking_signals (Some p) _ p Hpk1 Hins Hs); [|left|].
  - apply IH; [|done|apply queues_set_queue].
    apply (picking_signals None _ p Hpk1 Hins Hs); [by intros ?|by right].
Qed.

(** Processes with no dispatchable process before them: what the search returns
    is the first dispatchable one, and what it leaves is what follows. *)
Definition dispatchable_at (a : astate) (p : pcb_ptr) : bool :=
  from_option dispatchable false (pcb_at a p).
Lemma dispatchable_other a p p' q l :
  p ≠ p' → dispatchable_at (a_signals p (a_set_queue q l a)) p' = dispatchable_at a p'.
Proof. intros. unfold dispatchable_at. unfold a_signals. by rewrite pcb_at_update_ne. Qed.

Lemma dispatchable_state a p :
  state_of a p = PROCESS_READY → allocated a p →
  state_of (a_signals p a) p = PROCESS_READY ↔ dispatchable_at a p = true.
Proof.
  intros Hs [pcb Hp]. fold (pcb_at a p) in Hp.
  unfold a_signals. rewrite state_of_update, decide_True by done.
  unfold dispatchable_at, state_of in *. rewrite Hp in *. cbn in *.
  by apply signal_effect_state.
Qed.

Lemma take_ready_first q l a :
  queue_ready a l → NoDup l → queues a q = l →
  let r := a_take_ready q l a in
  match r.1 with
  | None => Forall (λ p, dispatchable_at a p = false) l ∧ queues r.2 q = []
  | Some p => ∃ l1 l2, l = l1 ++ p :: l2 ∧ dispatchable_at a p = true ∧
                Forall (λ p, dispatchable_at a p = false) l1 ∧ queues r.2 q = l2
  end.
Proof.
  revert a. induction l as [|p l IH]; intros a Hrd Hnd Hl; cbn.
  { split; [constructor|done]. }
  destruct (Hrd p ltac:(left)) as [Hs Hal].
  apply NoDup_cons in Hnd as [Hpl Hnd].
  pose proof (dispatchable_state (a_set_queue q l a) p Hs Hal) as Hd.
  change (dispatchable_at (a_set_queue q l a) p) with (dispatchable_at a p) in Hd.
  case_decide as HR; cbn.
  - exists [], l. split_and!; [done|by apply Hd|constructor|apply queues_set_queue].
  - set (a1 := a_signals p (a_set_queue q l a)) in *.
    assert (Hp : dispatchable_at a p = false).
    { destruct (dispatchable_at a p); [|done]. by destruct HR; apply Hd. }
    specialize (IH a1). cbn in IH.
    assert (Hext : ∀ l', l' ⊆ l → Forall (λ p', dispatchable_at a1 p' = false) l' →
              Forall (λ p', dispatchable_at a p' = false) l').
    { intros l' Hsub. rewrite !Forall_forall. intros HF p' Hp'.
      unfold a1 in HF. rewrite <- (HF p' Hp'). symmetry. apply dispatchable_other.
      intros ->. by apply Hpl, Hsub. }
    destruct (a_take_ready q l a1) as [[p'|] a2] eqn:Ht; cbn in *.
    + destruct IH as (l1 & l2 & -> & Hdp & HF & Hq2).
      * apply queue_ready_update; [done|]. intros p'' ?. apply Hrd. by right.
      * done.
      * apply queues_set_queue.
      * exists (p :: l1), l2. split_and!; [done| | |done].
        -- rewrite <- Hdp. symmetry. apply dispatchable_other. set_solver.
        -- constructor; [done|]. apply Hext; [set_solver|done].
    + destruct IH as [HF Hq2]; [|done|apply queues_set_queue|].
      * apply queue_ready_update; [done|]. intros p'' ?. apply Hrd. by right.
      * split; [|done]. constructor; [done|]. by apply Hext.
Qed.

Lemma wp_take_ready q (Q : option pcb_ptr → kernel → Prop) s a :
  rep s a → picking alg None a → valid_queue q →
  (∀ s', let r := a_take_ready q (queues a q) a in
     rep s' r.2 → chosen alg r.1 r.2 → Q r.1 s') →
  wp (dequeue_ready alg queue_fuel q) Q s.
Proof.
  intros Hr Hpk Hq HQ. pose proof (pk_inv _ _ _ Hpk) as Hi.
  eapply wp_dequeue_ready; [done|done| | |].
  - by eapply queued_ready.
  - by eapply queue_length_fuel.
  - intros s' r Hr'. apply HQ; [done|]. by apply take_ready_chosen.
Qed.

(** *** Round robin and queue head *)
Definition a_recharge (r : option pcb_ptr) (slice : Z) (a : astate) : astate :=
  match r with Some p => a_update p (set_counter slice) a | None => a end.
Definition a_round_robin (a : astate) : astate :=
  let a1 := a_enter alg a in
  let r := a_take_ready ReadyQueue (queues a1 ReadyQueue) a1 in
  a_leave r.1 (a_recharge r.1 10 r.2).
Definition a_queue_head (a : astate) : astate :=
  let a1 := a_enter alg a in
  let r := a_take_ready ReadyQueue (queues a1 ReadyQueue) a1 in
  a_leave r.1 r.2.

Lemma recharge_chosen r v a :
  0 ≤ v → chosen alg r a → chosen alg r (a_recharge r v a).
Proof. destruct r; cbn; [by apply chosen_recharge|done]. Qed.

Lemma wp_recharge_or_init r v (Q : pcb_ptr → kernel → Prop) s a :
  rep s a → 0 ≤ v → chosen alg r a →
  (∀ s', rep s' (a_recharge r v a) → chosen alg r (a_recharge r v a) →
     Q (default InitProcess r) s') →
  wp (recharge_or_init r v) Q s.
Proof.
  intros Hr Hv Hch HQ. pose proof (recharge_chosen r v a Hv Hch) as Hch'.
  destruct r as [p|]; cbn in *; [|by apply wp_ret, HQ].
  pose proof (pk_inv _ _ _ (ch_picking _ _ _ Hch)) as Hi.
  destruct (ch_pick _ _ _ Hch p eq_refl) as [(Hreg & _) _].
  destruct (registered_pcb _ _ _ Hi Hreg) as (pcb & Hp & _).
  apply wp_bind. eapply wp_update; [done|auto with kernel|done|]. intros s' Hr'.
  by apply wp_ret, HQ.
Qed.

(** A refinement theorem's conclusion: the decision is [f], the invariant holds
    again and the current process is RUNNING. *)
Definition decides (f : astate → astate) (a : astate) (s' : kernel) : Prop :=
  rep s' (f a) ∧ decidable_state alg (f a) ∧
  state_of (f a) (current (f a)) = PROCESS_RUNNING.

Lemma wp_leave_decides f r s a a1 :
  f a = a_leave r a1 → rep s a1 → chosen alg r a1 →
  wp (switch_to_process (default InitProcess r);; preempt_enable) (λ _, decides f a) s.
Proof.
  intros Hf Hr Hch. eapply wp_leave; [done..|]. intros s' Hr'. unfold decides.
  rewrite Hf. destruct (leave_decidable _ _ Hch) as (? & -> & ?). done.
Qed.

Lemma wp_schedule_round_robin s a :
  enqueue alg = EnqueueFifo → rep s a → decidable_state alg a →
  wp (schedule_round_robin alg) (λ _, decides a_round_robin a) s.
Proof.
  intros He Hr Hds. unfold schedule_round_robin.
  change (enqueue_process_to ReadyQueue) with (run_enqueue EnqueueFifo). rewrite <- He.
  eapply wp_enter; [done..|]. intros s1 Hr1. pose proof (enter_picking _ Hds) as Hpk.
  apply wp_bind. eapply (wp_take_ready ReadyQueue); [done..|]. intros s2 r Hr2 Hch2.
  apply wp_bind. eapply wp_recharge_or_init; [done|lia|done|]. intros s3 Hr3 Hch3.
  by eapply wp_leave_decides.
Qed.

Lemma wp_schedule_queue_head s a :
  rep s a → decidable_state alg a →
  wp (schedule_queue_head alg) (λ _, decides a_queue_head a) s.
Proof.
  intros Hr Hds. unfold schedule_queue_head.
  eapply wp_enter; [done..|]. intros s1 Hr1. pose proof (enter_picking _ Hds) as Hpk.
  apply wp_bind. eapply (wp_take_ready ReadyQueue); [done..|]. intros s2 r Hr2 Hch2.
  by eapply wp_leave_decides.
Qed.
End take_ready.

(** ** Multilevel queues *)
Fixpoint a_cascade (levels : list Z) (a : astate) : option (pcb_ptr * Z) * astate :=
  match levels with
  | [] => (None, a)
  | q :: levels' =>
      let r := a_take_ready (MlQueue q) (queues a (MlQueue q)) a in
      match r.1 with
      | Some p => (Some (p, q), r.2)
      | None => a_cascade levels' r.2
      end
  end.
(** The quantum of level [q]. *)
Definition slice_of (policy : MultilevelPolicy) (q : Z) : Z :=
  default 0 (arr_get (quantum policy) q).
Definition a_multilevel (alg : SchedAlgorithm) (policy : MultilevelPolicy) (a : astate) : astate :=
  let r := a_cascade (seqZ 0 (n_levels policy)) (a_enter alg a) in
  match r.1 with
  | Some (p, q) => a_leave (Some p) (a_update p (set_counter (slice_of policy q)) r.2)
  | None => a_leave None r.2
  end.
(** A policy that fits the queues the code has. *)
Definition policy_ok (policy : MultilevelPolicy) : Prop :=
  0 ≤ n_levels policy ≤ ML_MAX_LEVELS ∧ length (quantum policy) = Z.to_nat (n_levels policy) ∧
  Forall (λ v, 0 ≤ v) (quantum policy).

Section multilevel.
Context {alg : SchedAlgorithm}.

Lemma wp_cascade levels (Q : option (pcb_ptr * Z) → kernel → Prop) s a :
  rep s a → picking alg None a → Forall (λ q, valid_queue (MlQueue q)) levels →
  (∀ s', let r := a_cascade levels a in
     rep s' r.2 → chosen alg (fst <$> r.1) r.2 →
     (∀ p q, r.1 = Some (p, q) → q ∈ levels) → Q r.1 s') →
  wp (cascade alg levels) Q s.
Proof.
  revert s a. induction levels as [|q levels IH]; intros s a Hr Hpk Hv HQ.
  { apply wp_ret, HQ; [done|by split|done]. }
  apply Forall_cons in Hv as [Hq Hv]. cbn. apply wp_bind.
  eapply (wp_take_ready (MlQueue q)); [done..|]. intros s1 r Hr1 Hch. cbn in HQ. fold r in HQ.
  destruct r as [[p|] a1]; cbn in *.
  - apply HQ; [done|done|]. intros p' q' Heq. simplify_eq. left.
  - eapply IH; [done|apply Hch|done|]. intros s' Hr' Hch' Hin. apply HQ; [done..|].
    intros p q' Hpq. right. by eapply Hin.
Qed.

Lemma wp_schedule_multilevel policy s a :
  enqueue alg = EnqueueMultilevel → ml_policy alg = Some policy → policy_ok policy →
  rep s a → decidable_state alg a →
  wp (schedule_multilevel alg) (λ _, decides (alg:=alg) (a_multilevel alg policy) a) s.
Proof.
  intros He Hp (Hn & Hlen & Hpos) Hr Hds. unfold schedule_multilevel.
  apply wp_bind. eapply (wp_enter_guard (alg:=alg)); [done..|]. intros s0 Hr0.
  apply wp_bind. rewrite Hp. apply wp_ret.
  change enqueue_multilevel with (run_enqueue EnqueueMultilevel). rewrite <- He.
  apply wp_bind. eapply (wp_enter_requeue (alg:=alg)); [done..|]. intros s1 Hr1. pose proof (enter_picking _ Hds) as Hpk.
  apply wp_bind. eapply wp_cascade; [done|done| |].
  { apply Forall_forall. intros q Hq%elem_of_seqZ. cbn. lia. }
  intros s2 r Hr2 Hch Hin. unfold a_multilevel.
  destruct r as [[[p q]|] a2] eqn:Hra; cbn in *.
  - specialize (Hin p q eq_refl). apply elem_of_seqZ in Hin.
    destruct (proj2 (arr_get_is_Some (quantum policy) q)) as [v Hv]; [lia|].
    assert (0 ≤ v).
    { unfold arr_get in Hv. case_decide; [|done]. by eapply (Forall_lookup_1 _ _ _ _ Hpos). }
    apply wp_bind, wp_bind. rewrite Hv. cbn [defined]. apply wp_ret.
    apply wp_bind.
    pose proof (chosen_recharge _ _ v ltac:(done) Hch) as Hch'.
    pose proof (pk_inv _ _ _ (ch_picking _ _ _ Hch)) as Hi.
    destruct (ch_pick _ _ _ Hch p eq_refl) as [(Hreg & _) _].
    destruct (registered_pcb _ _ _ Hi Hreg) as (pcb & Hpp & _).
    eapply wp_update; [done|auto with kernel|done|]. intros s3 Hr3. apply wp_ret.
    change p with (default InitProcess (Some p)) at 1.
    eapply wp_leave_decides; [|exact Hr3|exact Hch'].
    unfold r in Hra. rewrite Hra. cbn. unfold slice_of. by rewrite Hv.
  - apply wp_bind, wp_ret. change InitProcess with (default InitProcess None).
    eapply wp_leave_decides; [|exact Hr2|exact Hch]. unfold r in Hra. by rewrite Hra.
Qed.
End multilevel.
