(* ===== verification/SchedAging.v ===== *)
(** * Priority scheduling with aging

    The refinement of [_schedule_priority_aging] (src/libs/scheduler.c): the queue
    walk selects the first process with the largest residual slice, an epoch
    recharges every registered process, and two passes always suffice. *)
From S2P Require Import Prelude.
From S2P Require Import Process.
From S2P Require Import ReadyQueue.
From S2P Require Import Scheduler.
From S2P Require Import SchedSpec.
From S2P Require Import SchedInv.
From S2P Require Import SchedDispatch.
From S2P Require Import SchedPick.
Local Open Scope Z_scope.

(** ** The first maximum of a list *)
Section first_max.
Context {A : Type}.
Implicit Types (key : A → Z) (l : list A).

Fixpoint first_max key l : option A :=
  match l with
  | [] => None
  | p :: l' =>
      match first_max key l' with
      | Some q => if key p <? key q then Some q else Some p
      | None => Some p
      end
  end.

Lemma first_max_bound key l q v :
  Forall (λ p, key p ≤ v) l → first_max key l = Some q → key q ≤ v.
Proof.
  revert q. induction l as [|p l IH]; intros q; cbn; [done|].
  intros [Hp Hl]%Forall_cons. destruct (first_max key l) as [q'|].
  - destruct (key p <? key q'); intros [= <-]; auto.
  - by intros [= <-].
Qed.
Lemma first_max_split key l1 b l2 :
  Forall (λ p, key p < key b) l1 → Forall (λ p, key p ≤ key b) l2 →
  first_max key (l1 ++ b :: l2) = Some b.
Proof.
  intros H1 H2. induction H1 as [|p l1 Hp _ IH]; cbn.
  - destruct (first_max key l2) as [q|] eqn:Hq; [|done].
    pose proof (first_max_bound _ _ _ _ H2 Hq). by destruct (Z.ltb_spec (key b) (key q)); [lia|].
  - rewrite IH. by destruct (Z.ltb_spec (key p) (key b)); [|lia].
Qed.
Lemma first_max_ext key key' l :
  (∀ p, p ∈ l → key p = key' p) → first_max key l = first_max key' l.
Proof.
  induction l as [|p l IH]; intros Hk; cbn; [done|].
  rewrite IH by (intros; apply Hk; by right). destruct (first_max key' l) as [q|] eqn:Hq; [|done].
  rewrite (Hk p) by left. rewrite Hk; [done|].
  right. clear -Hq. revert q Hq. induction l as [|x l IH]; intros q; cbn; [done|].
  destruct (first_max key' l) as [y|].
  - destruct (key' x <? key' y); intros [= <-]; [right; auto|left].
  - intros [= <-]. left.
Qed.
End first_max.

(** ** One pass over the queue *)
Fixpoint a_aging_walk (kept rest : list pcb_ptr) (best : option pcb_ptr) (max_counter : Z)
    (a : astate) : option pcb_ptr * astate :=
  match rest with
  | [] => (best, a)
  | p :: rest' =>
      let a1 := a_signals p a in
      if decide (state_of a1 p = PROCESS_READY) then
        if max_counter <? counter_of a1 p
        then a_aging_walk (kept ++ [p]) rest' (Some p) (counter_of a1 p) a1
        else a_aging_walk (kept ++ [p]) rest' best max_counter a1
      else a_aging_walk kept rest' best max_counter (a_set_queue ReadyQueue (kept ++ rest') a1)
  end.

(** The candidate is the first of the nodes seen with the largest positive slice,
    and [previous] its predecessor. *)
Definition best_of (a : astate) (l : list pcb_ptr) (best previous : option pcb_ptr)
    (max_counter : Z) : Prop :=
  match best with
  | None => previous = None ∧ max_counter = 0 ∧ Forall (λ p, counter_of a p ≤ 0) l
  | Some b =>
      counter_of a b = max_counter ∧ 0 < max_counter ∧
      ∃ l1 l2, l = l1 ++ b :: l2 ∧ previous = last l1 ∧
        Forall (λ p, counter_of a p < max_counter) l1 ∧
        Forall (λ p, counter_of a p ≤ max_counter) l2
  end.

Section walk.
Context {alg : SchedAlgorithm}.
Implicit Types (a : astate) (p : pcb_ptr) (l : list pcb_ptr).

Lemma best_of_ext a a' l best previous m :
  (∀ p, counter_of a' p = counter_of a p) →
  best_of a l best previous m → best_of a' l best previous m.
Proof.
  intros Hc. assert (Hk : ∀ (P : Z → Prop) k, Forall (λ p, P (counter_of a p)) k →
    Forall (λ p, P (counter_of a' p)) k)
    by (intros P k Hk; eapply Forall_impl; [exact Hk|]; intros p; by rewrite Hc).
  destruct best as [b|]; cbn.
  - intros (<- & Hm & l1 & l2 & -> & -> & H1 & H2). rewrite !Hc.
    split_and!; [done|done|]. exists l1, l2. split_and!; [done..| |].
    + by apply (Hk (λ z, z < counter_of a b)).
    + by apply (Hk (λ z, z ≤ counter_of a b)).
  - intros (-> & -> & HF). split_and!; [done..|]. by apply (Hk (λ z, z ≤ 0)).
Qed.
Lemma best_of_new a l best previous m p :
  best_of a l best previous m → m < counter_of a p →
  best_of a (l ++ [p]) (Some p) (last l) (counter_of a p).
Proof.
  intros Hb Hm. assert (0 ≤ m ∧ Forall (λ p', counter_of a p' ≤ m) l) as [Hm0 HF].
  { destruct best as [b|]; cbn in Hb.
    - destruct Hb as (<- & ? & l1 & l2 & -> & _ & H1 & H2). split; [lia|].
      apply Forall_app. split; [|constructor; [done|done]].
      eapply Forall_impl; [exact H1|]. cbn. lia.
    - destruct Hb as (_ & -> & ?). split; [lia|done]. }
  cbn. split_and!; [done|lia|]. exists l, []. split_and!; [done..| |constructor].
  eapply Forall_impl; [exact HF|]. cbn. lia.
Qed.
Lemma best_of_old a l best previous m p :
  best_of a l best previous m → counter_of a p ≤ m →
  best_of a (l ++ [p]) best previous m.
Proof.
  intros Hb Hm. destruct best as [b|]; cbn in *.
  - destruct Hb as (<- & ? & l1 & l2 & -> & -> & H1 & H2). split_and!; [done..|].
    exists l1, (l2 ++ [p]). rewrite <- app_assoc. split_and!; [done..|].
    apply Forall_app. split; [done|]. by constructor.
  - destruct Hb as (-> & -> & ?). split_and!; [done..|]. apply Forall_app.
    split; [done|]. by constructor.
Qed.

(** One step of the walk on the invariant. *)
Lemma walk_keep a p q :
  picking alg None a → valid_queue q → p ∈ queues a q →
  state_of (a_signals p a) p = PROCESS_READY → picking alg None (a_signals p a).
Proof.
  intros Hpk Hq Hp HR. pose proof (pk_inv _ _ _ Hpk) as Hi.
  destruct (inv_queued _ _ _ Hi q p Hq Hp) as (_ & _ & Hr & Hs).
  apply picking_update; [done|apply signal_effect_identity| |].
  - intros pcb _. by rewrite signal_effect_counter.
  - intros pcb Hpcb. unfold a_signals in HR. rewrite state_of_update, decide_True, Hpcb in HR by done.
    unfold state_of in Hs. rewrite Hpcb in Hs. cbn in *. by rewrite HR.
Qed.
Lemma walk_drop a p q l :
  picking alg None a → valid_queue q → queues a q ≡ₚ p :: l →
  state_of (a_signals p a) p ≠ PROCESS_READY →
  picking alg None (a_set_queue q l (a_signals p a)).
Proof.
  intros Hpk Hq Hl HR.
  destruct (picking_take a q p l Hpk Hq Hl) as (Hpk1 & Hins & Hs).
  change (a_set_queue q l (a_signals p a)) with (a_signals p (a_set_queue q l a)).
  apply (picking_signals None _ p Hpk1 Hins Hs); [|by right].
  intros HR'. by destruct HR.
Qed.

Lemma wp_aging_walk fuel rest kept lastk best previous m
    (Q : option pcb_ptr * option pcb_ptr → kernel → Prop) s a :
  rep s a → picking alg None a → queues a ReadyQueue = kept ++ rest →
  lastk = last kept → (length rest < fuel)%nat → best_of a kept best previous m →
  (∀ s' previous' m', let r := a_aging_walk kept rest best m a in
     rep s' r.2 → picking alg None r.2 →
     best_of r.2 (queues r.2 ReadyQueue) r.1 previous' m' → Q (r.1, previous') s') →
  wp (aging_walk alg fuel lastk (head rest) best previous m) Q s.
Proof.
  revert rest kept lastk best previous m s a.
  induction fuel as [|fuel IH];
    intros rest kept lastk best previous m s a Hr Hpk Hl -> Hf Hb HQ; [lia|].
  destruct rest as [|p rest]; cbn [aging_walk head].
  { apply wp_ret. rewrite app_nil_r in Hl. eapply (HQ s previous m); cbn; [done|done|by rewrite Hl]. }
  pose proof (pk_inv _ _ _ Hpk) as Hi.
  assert (Hpin : p ∈ queues a ReadyQueue) by (rewrite Hl; set_solver).
  destruct (inv_queued _ _ _ Hi ReadyQueue p I Hpin) as (_ & Hne & Hreg & Hs).
  destruct (registered_pcb _ _ _ Hi Hreg) as (pcb & Hp & _).
  assert (Hst : state pcb = PROCESS_READY) by (unfold state_of in Hs; by rewrite Hp in Hs).
  apply wp_bind. eapply (wp_load_linked ReadyQueue); [done|done|exact Hl|exact Hp|].
  cbn [next_ready set_next_ready]. apply wp_bind.
  eapply wp_handle_process_signals; [done|exact Hp|done|]. intros s1 Hr1.
  set (a1 := a_signals p a) in *.
  assert (Hp1 : pcb_at a1 p = Some (signal_effect pcb)) by by apply pcb_at_update_eq.
  apply wp_bind. eapply wp_load; [done|exact Hp1|]. intros v. cbn [set_next_ready state counter].
  assert (Hs1 : state_of a1 p = state (signal_effect pcb)) by (unfold state_of; by rewrite Hp1).
  assert (Hc1 : counter_of a1 p = counter (signal_effect pcb))
    by (unfold counter_of; by rewrite Hp1).
  assert (Hb1 : best_of a1 kept best previous m)
    by (eapply best_of_ext; [|done]; intros; apply signals_counter).
  assert (Hl1 : queues a1 ReadyQueue = (kept ++ [p]) ++ rest) by by rewrite <- app_assoc.
  cbn [length] in Hf. cbn [a_aging_walk] in HQ. fold a1 in HQ.
  rewrite <- Hs1, <- Hc1. destruct (decide (state_of a1 p = PROCESS_READY)) as [HR|HR].
  - assert (Hpk1 : picking alg None a1) by by eapply (walk_keep _ _ ReadyQueue).
    destruct (Z.ltb_spec m (counter_of a1 p)).
    + eapply (IH rest (kept ++ [p])); [done..|by rewrite last_snoc|lia| |done].
      by eapply best_of_new.
    + eapply (IH rest (kept ++ [p])); [done..|by rewrite last_snoc|lia| |done].
      by apply best_of_old.
  - apply wp_bind. eapply (wp_remove_process_from ReadyQueue p kept rest); [done|done|exact Hl|].
    intros s2 Hr2. eapply (IH rest kept); [exact Hr2| |apply queues_set_queue|done|lia| |exact HQ].
    + eapply walk_drop; [done|done| |done]. by rewrite Hl, Permutation_middle.
    + by eapply best_of_ext; [|exact Hb1].
Qed.
End walk.

(** ** What the pass leaves *)
Definition priority_of (a : astate) (p : pcb_ptr) : Z := from_option priority 0 (pcb_at a p).
Definition candidates (a : astate) : list pcb_ptr :=
  filter (λ p, dispatchable_at a p = true) (queues a ReadyQueue).

Lemma has_signal_clear s k signal :
  has_signal s signal = false → has_signal (Z.land s k) signal = false.
Proof.
  unfold has_signal. rewrite !negb_false_iff, !Z.eqb_eq. intros H.
  by rewrite <- Z.land_assoc, (Z.land_comm k), Z.land_assoc, H.
Qed.
Lemma signal_effect_dispatchable pcb :
  dispatchable pcb = true → dispatchable (signal_effect pcb) = true.
Proof.
  unfold dispatchable, signal_effect. intros [Hk Ht]%andb_true_iff.
  apply negb_true_iff in Hk, Ht. rewrite Hk, Ht. destruct (has_signal _ SIGNAL_RESUME); cbn.
  - by rewrite !has_signal_clear.
  - by rewrite Hk, Ht.
Qed.

Section pass.
Context {alg : SchedAlgorithm}.
Implicit Types (a : astate) (p : pcb_ptr) (l : list pcb_ptr).

Lemma signals_priority p a p' : priority_of (a_signals p a) p' = priority_of a p'.
Proof.
  unfold priority_of, a_signals. rewrite pcb_at_update. case_decide; [|done].
  destruct (pcb_at a p'); [|done]. cbn. unfold signal_effect. by repeat case_match.
Qed.
Lemma signals_dispatchable p a p' :
  dispatchable_at a p' = true → dispatchable_at (a_signals p a) p' = true.
Proof.
  unfold dispatchable_at, a_signals. rewrite pcb_at_update. case_decide; [|done].
  destruct (pcb_at a p'); [|done]. cbn. apply signal_effect_dispatchable.
Qed.

(** The pass reads slices and priorities, and keeps exactly the dispatchable
    processes. *)
Lemma walk_keys kept rest best m a p :
  let r := a_aging_walk kept rest best m a in
  counter_of r.2 p = counter_of a p ∧ priority_of r.2 p = priority_of a p ∧
  processes (core r.2) = processes (core a) ∧
  (dispatchable_at a p = true → dispatchable_at r.2 p = true).
Proof.
  revert kept best m a. induction rest as [|p' rest IH]; intros kept best m a; cbn; [done|].
  assert (Hstep : ∀ a1, counter_of a1 p = counter_of (a_signals p' a) p →
    priority_of a1 p = priority_of (a_signals p' a) p →
    processes (core a1) = processes (core a) →
    dispatchable_at a1 p = dispatchable_at (a_signals p' a) p → ∀ kept best m,
    let r := a_aging_walk kept rest best m a1 in
    counter_of r.2 p = counter_of a p ∧ priority_of r.2 p = priority_of a p ∧
    processes (core r.2) = processes (core a) ∧
    (dispatchable_at a p = true → dispatchable_at r.2 p = true)).
  { intros a1 Hc Hp Ht Hd kept' best' m'. cbn zeta. destruct (IH kept' best' m' a1) as (-> & -> & -> & H).
    rewrite Hc, Hp, signals_counter, signals_priority. split_and!; [done..|].
    intros Hda. apply H. rewrite Hd. by apply signals_dispatchable. }
  case_decide; [case_match|]; by apply Hstep.
Qed.
Lemma walk_queue kept rest best m a :
  queues a ReadyQueue = kept ++ rest → NoDup rest → queue_ready a rest →
  queues (a_aging_walk kept rest best m a).2 ReadyQueue =
    kept ++ filter (λ p, dispatchable_at a p = true) rest.
Proof.
  revert kept best m a. induction rest as [|p rest IH]; intros kept best m a Hl Hnd Hrd; cbn.
  { done. }
  apply NoDup_cons in Hnd as [Hp Hnd]. destruct (Hrd p ltac:(left)) as [Hs Hal].
  pose proof (dispatchable_state a p Hs Hal) as Hd.
  assert (Hrd' : queue_ready (a_signals p a) rest).
  { apply queue_ready_update; [done|]. intros p' Hp'. apply Hrd. by right. }
  assert (Hext : filter (λ p', dispatchable_at (a_signals p a) p' = true) rest =
                 filter (λ p', dispatchable_at a p' = true) rest).
  { apply filter_ext_in. intros p' Hp'.
    assert (dispatchable_at (a_signals p a) p' = dispatchable_at a p') as ->; [|done].
    unfold dispatchable_at, a_signals. rewrite pcb_at_update_ne; [done|]. by intros ->. }
  case_decide as HR.
  - assert (dispatchable_at a p = true) as Hdp by by apply Hd.
    rewrite (decide_True (P:=dispatchable_at a p = true)) by done.
    assert (∀ best m, queues (a_aging_walk (kept ++ [p]) rest best m (a_signals p a)).2 ReadyQueue
      = kept ++ p :: filter (λ p', dispatchable_at a p' = true) rest) as H.
    { intros best' m'. rewrite IH, Hext; [by rewrite <- app_assoc| |done|done].
      cbn. by rewrite Hl, <- app_assoc. }
    case_match; apply H.
  - rewrite (decide_False (P:=dispatchable_at a p = true)).
    + rewrite IH; [|apply queues_set_queue|done|done].
      f_equal. exact Hext.
    + by rewrite <- Hd.
Qed.
End pass.

(** ** Epochs *)
Definition registered_list (a : astate) : list pcb_ptr := omap id (processes (core a)).
Definition a_epoch (a : astate) : astate :=
  foldl (λ a p, a_update p recharge a) a (registered_list a).

Section epoch.
Context {alg : SchedAlgorithm}.
Implicit Types (a : astate) (p : pcb_ptr) (l : list pcb_ptr).

Lemma registered_list_elem a p : p ∈ registered_list a ↔ registered a p.
Proof.
  unfold registered_list, registered. rewrite list_elem_of_omap. split.
  - intros (o & Ho & Hid). cbn in Hid. by subst o.
  - intros H. by exists (Some p).
Qed.
Lemma registered_list_nodup hole a : kinv alg hole a → NoDup (registered_list a).
Proof.
  intros Hi. apply NoDup_omap_id. intros i j p Hp1 Hp2.
  destruct (inv_table _ _ _ Hi i p Hp1) as (x & Hx & Hpx & _).
  destruct (inv_table _ _ _ Hi j p Hp2) as (y & Hy & Hpy & _). simplify_eq. lia.
Qed.
Lemma pcb_at_updates l f a p :
  NoDup l →
  pcb_at (foldl (λ a p, a_update p f a) a l) p =
  if decide (p ∈ l) then f <$> pcb_at a p else pcb_at a p.
Proof.
  intros Hnd. revert a. induction Hnd as [|p' l Hp' Hnd IH]; intros a; cbn.
  { by rewrite decide_False by set_solver. }
  rewrite IH, pcb_at_update. destruct (decide (p' = p)) as [->|Hne].
  - rewrite decide_False by done. by rewrite decide_True by left.
  - apply decide_ext. set_solver.
Qed.
Lemma updates_frame l f a :
  let a' := foldl (λ a p, a_update p f a) a l in
  processes (core a') = processes (core a) ∧ queues a' = queues a.
Proof. revert a. induction l as [|p l IH]; intros a; cbn; [done|]. apply (IH (a_update p f a)). Qed.

Lemma updates_allocated l f a p pcb :
  pcb_at a p = Some pcb → is_Some (pcb_at (foldl (λ a p, a_update p f a) a l) p).
Proof.
  revert a pcb. induction l as [|p' l IH]; intros a pcb Hp; cbn; [eauto|].
  destruct (decide (p' = p)) as [->|].
  - by eapply IH, pcb_at_update_eq.
  - eapply IH. by rewrite pcb_at_update_ne.
Qed.

Lemma recharge_identity : keeps_identity recharge.
Proof. by intros pcb. Qed.
Lemma recharge_counter : keeps_counter recharge.
Proof.
  intros pcb Hp Hc. unfold recharge. cbn. pose proof (Z.shiftr_nonneg (counter pcb) 1). lia.
Qed.

Lemma epoch_picking hole a : picking alg hole a → picking alg hole (a_epoch a).
Proof.
  unfold a_epoch. generalize (registered_list a). intros l. revert a.
  induction l as [|p l IH]; intros a Hpk; cbn; [done|]. apply IH.
  apply picking_update; [done|apply recharge_identity|apply recharge_counter|done].
Qed.
Lemma epoch_counter a p :
  picking alg None a → registered a p →
  counter_of (a_epoch a) p = Z.shiftr (counter_of a p) 1 + priority_of a p.
Proof.
  intros Hpk Hr. pose proof (pk_inv _ _ _ Hpk) as Hi. unfold a_epoch, counter_of, priority_of.
  rewrite pcb_at_updates by by eapply registered_list_nodup.
  rewrite decide_True by by apply registered_list_elem.
  destruct (registered_pcb _ _ _ Hi Hr) as (pcb & -> & _). done.
Qed.
Lemma epoch_dispatchable a p :
  picking alg None a → dispatchable_at (a_epoch a) p = dispatchable_at a p.
Proof.
  intros Hpk. unfold a_epoch, dispatchable_at.
  rewrite pcb_at_updates by (eapply registered_list_nodup, Hpk).
  case_decide; [|done]. by destruct (pcb_at a p).
Qed.

Lemma wp_new_epoch (Q : unit → kernel → Prop) s a :
  rep s a → picking alg None a →
  (∀ s', rep s' (a_epoch a) → Q tt s') → wp new_epoch Q s.
Proof.
  intros Hr Hpk HQ. pose proof (pk_inv _ _ _ Hpk) as Hi.
  pose proof (inv_slots _ _ _ Hi) as Hlen. unfold new_epoch, process_slots.
  set (tbl := processes (core a)) in *.
  set (I := λ n s, rep s (foldl (λ a p, a_update p recharge a) a (omap id (take n tbl)))).
  replace N_PROCESSES with (Z.of_nat (length tbl)) by (rewrite Hlen; unfold N_PROCESSES; lia).
  eapply wp_mono; [apply (wp_for_range I)|].
  - unfold I. rewrite take_0. done.
  - intros i s1 Hi1 HI. unfold I in HI.
    set (a1 := foldl _ a _) in HI.
    destruct (updates_frame (omap id (take i tbl)) recharge a) as [Ht _]. fold a1 in Ht.
    destruct (lookup_lt_is_Some_2 tbl i Hi1) as [o Ho].
    unfold get_process. apply wp_bind, wp_bind, wp_gets, wp_defined. exists o.
    rewrite (rep_field processes s1 a1) by done. rewrite Ht. fold tbl.
    split; [by rewrite arr_get_lookup, Nat2Z.id by lia|].
    assert (Hsnoc : foldl (λ a p, a_update p recharge a) a (omap id (take (S i) tbl)) =
      foldl (λ a p, a_update p recharge a) a1 (omap id [o])).
    { rewrite (take_S_r _ _ _ Ho), omap_app, foldl_app. done. }
    unfold I. rewrite Hsnoc. destruct o as [p|]; cbn; [|done].
    destruct (inv_table _ _ _ Hi i p Ho) as (pcb & Hp & _).
    assert (is_Some (pcb_at a1 p)) as [pcb1 Hp1].
    { unfold a1. by eapply updates_allocated. }
    eapply wp_update; [done|auto with kernel|done|done].
  - intros [] s1 HI. apply HQ. unfold I in HI. by rewrite firstn_all in HI.
Qed.
End epoch.

(** ** The selection *)
Definition a_extract (best : option pcb_ptr) (a : astate) : astate :=
  match best with
  | Some b => a_set_queue ReadyQueue (filter (λ p, p ≠ b) (queues a ReadyQueue)) a
  | None => a
  end.
Definition a_pass (a : astate) : option pcb_ptr * astate :=
  a_aging_walk [] (queues a ReadyQueue) None 0 a.
Definition a_aging_select (a : astate) : option pcb_ptr * astate :=
  let r := a_pass a in
  match r.1, queues r.2 ReadyQueue with
  | None, _ :: _ => let r' := a_pass (a_epoch r.2) in (r'.1, a_extract r'.1 r'.2)
  | _, _ => (r.1, a_extract r.1 r.2)
  end.
Definition a_priority_aging (alg : SchedAlgorithm) (a : astate) : astate :=
  let r := a_aging_select (a_enter alg a) in a_leave r.1 r.2.

(** The reference: the first candidate with the largest slice; if none has a slice
    left, the first with the largest recharged slice, its priority. *)
Definition aging_key (a : astate) (l : list pcb_ptr) (p : pcb_ptr) : Z :=
  if forallb (λ p, counter_of a p =? 0) l then priority_of a p else counter_of a p.
Definition aging_choice (a : astate) : option pcb_ptr :=
  first_max (aging_key a (candidates a)) (candidates a).

Section select.
Context {alg : SchedAlgorithm}.
Implicit Types (a : astate) (p : pcb_ptr) (l : list pcb_ptr).

Lemma filter_ne_split l1 b l2 :
  NoDup (l1 ++ b :: l2) → filter (λ p, p ≠ b) (l1 ++ b :: l2) = l1 ++ l2.
Proof.
  intros Hnd. rewrite filter_app, filter_cons, decide_False by by intros [].
  apply NoDup_app in Hnd as (_ & Hd & Hnd). apply NoDup_cons in Hnd as [Hb _].
  assert (Hall : ∀ l : list pcb_ptr, b ∉ l → filter (λ p, p ≠ b) l = l).
  { clear. induction l as [|x l IH]; intros Hb; [done|].
    rewrite filter_cons, decide_True by set_solver. f_equal. apply IH. set_solver. }
  rewrite !Hall; [done|done|]. intros Hin. apply (Hd b Hin). left.
Qed.
Lemma extract_chosen a best previous m :
  picking alg None a → best_of a (queues a ReadyQueue) best previous m →
  chosen alg best (a_extract best a).
Proof.
  intros Hpk Hb. destruct best as [b|]; cbn; [|by split].
  destruct Hb as (_ & _ & l1 & l2 & Hl & _).
  pose proof (inv_nodup _ _ _ (pk_inv _ _ _ Hpk) ReadyQueue I) as Hnd. rewrite Hl in *.
  rewrite filter_ne_split by done.
  destruct (picking_take a ReadyQueue b (l1 ++ l2) Hpk I) as (Hpk' & Hins & Hs).
  { by rewrite Hl, Permutation_middle. }
  split; [done|]. intros p [= <-]. done.
Qed.

(** The pass, as a whole. *)
Lemma pass_candidates a : picking alg None a → queues (a_pass a).2 ReadyQueue = candidates a.
Proof.
  intros Hpk. pose proof (pk_inv _ _ _ Hpk) as Hi. unfold a_pass. rewrite walk_queue; try done.
  - by apply (inv_nodup _ _ _ Hi).
  - by eapply queued_ready.
Qed.
Lemma pass_keys a p :
  counter_of (a_pass a).2 p = counter_of a p ∧ priority_of (a_pass a).2 p = priority_of a p.
Proof. destruct (walk_keys [] (queues a ReadyQueue) None 0 a p) as (? & ? & _). done. Qed.

Lemma wp_aging_pass (Q : option pcb_ptr * option pcb_ptr → kernel → Prop) s a :
  rep s a → picking alg None a →
  (∀ s' previous m, let r := a_pass a in
     rep s' r.2 → picking alg None r.2 →
     best_of r.2 (queues r.2 ReadyQueue) r.1 previous m → Q (r.1, previous) s') →
  wp (aging_walk alg queue_fuel None (q_head (ready_queue s)) None None 0) Q s.
Proof.
  intros Hr Hpk HQ. pose proof (pk_inv _ _ _ Hpk) as Hi.
  rewrite (rep_ready_head _ _ Hr).
  eapply (wp_aging_walk _ _ []); [done|done|done|done| | |exact HQ].
  - by eapply queue_length_fuel.
  - cbn. split_and!; [done..|constructor].
Qed.

(** Registered processes of the queue have a slice after an epoch. *)
Lemma epoch_slice a p q :
  picking alg None a → valid_queue q → p ∈ queues a q → 0 < counter_of (a_epoch a) p.
Proof.
  intros Hpk Hq Hp. pose proof (pk_inv _ _ _ Hpk) as Hi.
  destruct (inv_queued _ _ _ Hi q p Hq Hp) as (_ & _ & Hr & _).
  rewrite (epoch_counter (alg:=alg)) by done.
  destruct (registered_pcb _ _ _ Hi Hr) as (pcb & Hpcb & _ & Hprio & _).
  assert (0 ≤ counter_of a p).
  { destruct (decide (p = current a)) as [->|]; [apply (pk_settled _ _ _ Hpk)|].
    by apply (inv_counter _ _ _ Hi). }
  pose proof (Z.shiftr_nonneg (counter_of a p) 1).
  unfold priority_of. rewrite Hpcb. cbn. lia.
Qed.
Lemma epoch_queues a : queues (a_epoch a) = queues a.
Proof. apply updates_frame. Qed.

Lemma second_pass_candidates a :
  picking alg None a → picking alg None (a_pass a).2 →
  candidates (a_epoch (a_pass a).2) = candidates a.
Proof.
  intros Hpk Hpk2. unfold candidates at 1. rewrite epoch_queues, pass_candidates by done.
  apply filter_all. intros p Hp. rewrite (epoch_dispatchable (alg:=alg)) by done.
  apply list_elem_of_filter in Hp as [Hd _].
  by apply (walk_keys [] (queues a ReadyQueue) None 0 a p).
Qed.

Lemma wp_extract best previous m (Q : unit → kernel → Prop) s a :
  rep s a → picking alg None a → best_of a (queues a ReadyQueue) (Some best) previous m →
  (∀ s', rep s' (a_extract (Some best) a) → Q tt s') →
  wp (remove_process_from ReadyQueue previous (Some best)) Q s.
Proof.
  intros Hr Hpk (_ & _ & l1 & l2 & Hl & -> & _) HQ. cbn in HQ.
  pose proof (inv_nodup _ _ _ (pk_inv _ _ _ Hpk) ReadyQueue I) as Hnd. rewrite Hl in Hnd, HQ.
  rewrite filter_ne_split in HQ by done. by eapply (wp_remove_process_from ReadyQueue).
Qed.

(** The pass and the reference choice. *)
Lemma best_of_first_max a l b previous m :
  best_of a l (Some b) previous m → first_max (counter_of a) l = Some b.
Proof. intros (<- & _ & l1 & l2 & -> & _ & H1 & H2). by apply first_max_split. Qed.
Lemma candidate_registered a p :
  picking alg None a → p ∈ candidates a → p ∈ queues a ReadyQueue ∧ registered a p.
Proof.
  intros Hpk [_ Hp]%list_elem_of_filter. split; [done|].
  by destruct (inv_queued _ _ _ (pk_inv _ _ _ Hpk) ReadyQueue p I Hp) as (_ & _ & ? & _).
Qed.
Lemma registered_counter hole a p :
  picking alg hole a → registered a p → 0 ≤ counter_of a p.
Proof.
  intros Hpk Hr. destruct (decide (p = current a)) as [->|]; [apply (pk_settled _ _ _ Hpk)|].
  by apply (inv_counter _ _ _ (pk_inv _ _ _ Hpk)).
Qed.

Lemma choice_first_pass a b previous m :
  picking alg None a →
  best_of (a_pass a).2 (queues (a_pass a).2 ReadyQueue) (Some b) previous m →
  aging_choice a = Some b.
Proof.
  intros Hpk Hb. rewrite pass_candidates in Hb by done.
  assert (Hc : ∀ p, counter_of (a_pass a).2 p = counter_of a p) by apply pass_keys.
  unfold aging_choice. rewrite <- (best_of_first_max _ _ _ _ _ Hb).
  apply first_max_ext. intros p _. unfold aging_key. rewrite Hc.
  destruct Hb as (Hm & Hpos & l1 & l2 & Hl & _). rewrite Hl, forallb_app. cbn.
  rewrite Hc in Hm. rewrite (proj2 (Z.eqb_neq (counter_of a b) 0)) by lia.
  by rewrite andb_false_r.
Qed.
Lemma choice_second_pass a b previous m :
  picking alg None a → picking alg None (a_pass a).2 →
  Forall (λ p, counter_of (a_pass a).2 p ≤ 0) (candidates a) →
  let a2 := a_epoch (a_pass a).2 in
  best_of (a_pass a2).2 (queues (a_pass a2).2 ReadyQueue) (Some b) previous m →
  aging_choice a = Some b.
Proof.
  intros Hpk Hpk1 HF a2 Hb. assert (Hpk2 : picking alg None a2) by by apply epoch_picking.
  rewrite pass_candidates in Hb by done. unfold a2 in Hb at 2.
  rewrite second_pass_candidates in Hb by done.
  unfold aging_choice. rewrite <- (best_of_first_max _ _ _ _ _ Hb).
  assert (Hz : ∀ p, p ∈ candidates a → counter_of a p = 0).
  { intros p Hp. destruct (candidate_registered _ _ Hpk Hp) as [_ Hr].
    pose proof (registered_counter _ _ _ Hpk Hr).
    rewrite Forall_forall in HF. specialize (HF p Hp).
    destruct (pass_keys a p) as [Hc _]. rewrite Hc in HF. lia. }
  apply first_max_ext. intros p Hp. unfold aging_key.
  replace (forallb _ _) with true.
  - destruct (candidate_registered _ _ Hpk Hp) as [_ Hr].
    destruct (pass_keys a2 p) as [-> _]. unfold a2.
    assert (Hr1 : registered (a_pass a).2 p).
    { destruct (walk_keys [] (queues a ReadyQueue) None 0 a p) as (_ & _ & Ht & _).
      unfold registered, a_pass. by rewrite Ht. }
    rewrite (epoch_counter (alg:=alg)) by done.
    destruct (pass_keys a p) as [-> ->]. by rewrite Hz.
  - symmetry. apply forallb_forall. intros x Hx%list_elem_of_In. by rewrite Hz.
Qed.

Lemma wp_aging_select (Q : option pcb_ptr → kernel → Prop) s a :
  rep s a → picking alg None a →
  (∀ s', let r := a_aging_select a in
     rep s' r.2 → chosen alg r.1 r.2 → r.1 = aging_choice a → Q r.1 s') →
  wp (aging_select alg epoch_fuel) Q s.
Proof.
  intros Hr Hpk HQ. unfold epoch_fuel. cbn [aging_select].
  apply wp_bind, wp_gets, wp_bind. eapply wp_aging_pass; [done..|].
  intros s1 prev m r Hr1 Hpk1 Hb. unfold a_aging_select in HQ. fold r in HQ.
  assert (Hr2 : r = a_pass a) by done. clearbody r.
  assert (Ha1 : r.2 = (a_pass a).2) by by rewrite <- Hr2.
  destruct r as [[b|] a1]; cbn [fst snd] in *.
  { apply wp_bind. eapply wp_extract; [done..|]. intros s2 Hs2.
    apply wp_ret, HQ; [done|by eapply extract_chosen|].
    symmetry. eapply choice_first_pass; [done|]. by rewrite <- Ha1. }
  pose proof (pass_candidates a Hpk) as Hcand. rewrite <- Ha1 in Hcand.
  apply wp_bind, wp_gets. rewrite (rep_ready_head _ _ Hr1).
  destruct (queues a1 ReadyQueue) as [|p l] eqn:Hq; cbn [head].
  { apply wp_ret, HQ; [done|by split|]. unfold aging_choice. by rewrite <- Hcand. }
  apply wp_bind. eapply wp_new_epoch; [done..|]. intros s2 Hs2.
  pose proof (epoch_picking None _ Hpk1) as Hpk2.
  apply wp_bind, wp_gets, wp_bind. eapply wp_aging_pass; [done..|].
  intros s3 prev' m' r' Hr3 Hpk3 Hb'. cbn zeta in HQ. fold r' in HQ.
  assert (Hr2' : r' = a_pass (a_epoch a1)) by done. clearbody r'.
  assert (Ha3 : r'.2 = (a_pass (a_epoch a1)).2) by by rewrite <- Hr2'.
  destruct Hb as (_ & _ & HF).
  destruct r' as [[b|] a3]; cbn [fst snd] in *.
  { apply wp_bind. eapply wp_extract; [done..|]. intros s4 Hs4.
    apply wp_ret, HQ; [done|by eapply extract_chosen|].
    symmetry. rewrite Ha3, Ha1 in Hb'. rewrite Hcand, Ha1 in HF.
    eapply choice_second_pass; [done|by rewrite <- Ha1|done|done]. }
  exfalso. destruct Hb' as (_ & _ & HF').
  rewrite Ha3, pass_candidates, Ha1, second_pass_candidates, <- Hcand in HF'
    by (rewrite <- ?Ha1; done).
  apply Forall_cons in HF' as [HF' _].
  destruct (pass_keys (a_epoch a1) p) as [Hc _]. rewrite <- Ha1, Hc in HF'.
  pose proof (epoch_slice a1 p ReadyQueue Hpk1 I) as Hpos. rewrite Hq in Hpos.
  specialize (Hpos ltac:(left)). lia.
Qed.

Lemma wp_schedule_priority_aging s a :
  enqueue alg = EnqueueFifo → rep s a → decidable_state alg a →
  wp (schedule_priority_aging alg) (λ _ s', decides (alg:=alg) (a_priority_aging alg) a s' ∧
    current_process s' = default InitProcess (aging_choice (a_enter alg a))) s.
Proof.
  intros He Hr Hds. unfold schedule_priority_aging.
  change (enqueue_process_to ReadyQueue) with (run_enqueue EnqueueFifo). rewrite <- He.
  eapply (wp_enter (alg:=alg)); [done..|]. intros s1 Hr1. pose proof (enter_picking _ Hds) as Hpk.
  apply wp_bind. eapply wp_aging_select; [done..|]. intros s2 r Hr2 Hch2 Hchoice.
  eapply wp_mono; [by eapply (wp_leave_decides (a_priority_aging alg))|].
  intros [] s3 Hd. split; [done|]. destruct Hd as (Hr3 & _).
  rewrite (rep_current _ _ Hr3). rewrite <- Hchoice. unfold a_priority_aging. fold r.
  by apply (leave_decidable (alg:=alg)).
Qed.
End select.
