(* ===== verification/SchedLottery.v ===== *)
(** * Lottery scheduling

    The refinement of [_schedule_lottery] (src/libs/scheduler.c): the draw by list
    walk finds the holder of the winning ticket, every process holds exactly as many
    winning tickets as it owns, and the generator's state never becomes zero. *)
From S2P Require Import Prelude.
From S2P Require Import Process.
From S2P Require Import ReadyQueue.
From S2P Require Import Scheduler.
From S2P Require Import SchedSpec.
From S2P Require Import SchedInv.
From S2P Require Import SchedDispatch.
From S2P Require Import SchedPick.
From S2P Require Import SchedAging.
Local Open Scope Z_scope.

(** ** The generator *)
Section xorshift.
Local Open Scope Z_scope.

Lemma lxor_range x y : 0 ≤ x < 2 ^ 64 → 0 ≤ y < 2 ^ 64 → 0 ≤ Z.lxor x y < 2 ^ 64.
Proof.
  intros Hx Hy. assert (0 ≤ Z.lxor x y) by (apply Z.lxor_nonneg; lia). split; [done|].
  destruct (decide (Z.lxor x y = 0)) as [->|]; [done|].
  apply Z.log2_lt_pow2; [lia|]. pose proof (Z.log2_lxor x y ltac:(lia) ltac:(lia)).
  assert (∀ z, 0 ≤ z < 2 ^ 64 → Z.log2 z < 64) as Hlog.
  { intros z Hz. destruct (decide (z = 0)) as [->|]; [done|]. apply Z.log2_lt_pow2; lia. }
  pose proof (Hlog x Hx). pose proof (Hlog y Hy). lia.
Qed.
Lemma shift_left_nonzero x k :
  0 < k → Z.gcd (2 ^ 64) (2 ^ k - 1) = 1 → 0 < x < 2 ^ 64 → Z.lxor x (u64 (Z.shiftl x k)) ≠ 0.
Proof.
  intros Hk Hgcd Hx Heq. apply Z.lxor_eq in Heq. unfold u64 in Heq.
  rewrite Z.shiftl_mul_pow2 in Heq by lia.
  assert (Hdiv : (2 ^ 64 | (2 ^ k - 1) * x)).
  { exists (x * 2 ^ k / 2 ^ 64). pose proof (Z.div_mod (x * 2 ^ k) (2 ^ 64) ltac:(lia)). lia. }
  apply Z.gauss in Hdiv; [|done]. apply Z.divide_pos_le in Hdiv; lia.
Qed.
Lemma shift_right_nonzero x k :
  0 < k → 0 < x → Z.lxor x (Z.shiftr x k) ≠ 0.
Proof.
  intros Hk Hx Heq. apply Z.lxor_eq in Heq. rewrite Z.shiftr_div_pow2 in Heq by lia.
  assert (x / 2 ^ k < x); [|lia]. apply Z.div_lt; [lia|].
  apply Z.pow_gt_1; lia.
Qed.
Lemma shiftr_range x k : 0 ≤ k → 0 ≤ x < 2 ^ 64 → 0 ≤ Z.shiftr x k < 2 ^ 64.
Proof.
  intros Hk Hx. rewrite Z.shiftr_div_pow2 by done.
  assert (0 < 2 ^ k) by (apply Z.pow_pos_nonneg; lia).
  split; [apply Z.div_pos; lia|]. apply Z.div_lt_upper_bound; nia.
Qed.

Lemma xorshift64_range x : 0 < x < 2 ^ 64 → 0 < xorshift64 x < 2 ^ 64.
Proof.
  intros Hx. unfold xorshift64.
  assert (Hstep : ∀ y z, 0 ≤ y < 2 ^ 64 → 0 ≤ z < 2 ^ 64 → Z.lxor y z ≠ 0 →
    0 < Z.lxor y z < 2 ^ 64).
  { intros y z Hy Hz Hne. pose proof (lxor_range y z Hy Hz). lia. }
  assert (H1 : 0 < Z.lxor x (u64 (Z.shiftl x 13)) < 2 ^ 64).
  { apply Hstep; [lia|apply u64_range|by apply shift_left_nonzero]. }
  set (y := Z.lxor x _) in *.
  assert (H2 : 0 < Z.lxor y (Z.shiftr y 7) < 2 ^ 64).
  { apply Hstep; [lia|apply shiftr_range; lia|apply shift_right_nonzero; lia]. }
  set (z := Z.lxor y _) in *.
  apply Hstep; [lia|apply u64_range|by apply shift_left_nonzero].
Qed.
End xorshift.

(** ** Tickets *)
Section tickets.
Variable tickets_of : pcb_ptr → Z.
Implicit Types (l : list pcb_ptr) (p : pcb_ptr) (w : Z).

Definition total l : Z := foldr (λ p n, tickets_of p + n) 0 l.
(** The holder of ticket [w] when the tickets are numbered along the list. *)
Fixpoint holder w l : option pcb_ptr :=
  match l with
  | [] => None
  | p :: l' => if w <? tickets_of p then Some p else holder (w - tickets_of p) l'
  end.

Hypothesis tickets_pos : ∀ p, 0 < tickets_of p.

Lemma total_cons p l : total (p :: l) = tickets_of p + total l.
Proof. done. Qed.
Lemma total_nonneg l : 0 ≤ total l.
Proof.
  induction l as [|p l IH]; [done|]. rewrite total_cons. pose proof (tickets_pos p). lia.
Qed.
Lemma total_zero l : total l = 0 → l = [].
Proof.
  destruct l as [|p l]; [done|]. rewrite total_cons. pose proof (tickets_pos p). pose proof (total_nonneg l). lia.
Qed.
Lemma holder_split w l p :
  0 ≤ w → holder w l = Some p →
  ∃ l1 l2, l = l1 ++ p :: l2 ∧ total l1 ≤ w < total l1 + tickets_of p.
Proof.
  revert w. induction l as [|p' l IH]; intros w Hw; cbn; [done|].
  destruct (Z.ltb_spec w (tickets_of p')).
  - intros [= <-]. exists [], l. split; [done|]. cbn. lia.
  - intros Hh. destruct (IH (w - tickets_of p')) as (l1 & l2 & -> & Hl); [lia|done|].
    exists (p' :: l1), l2. split; [done|]. rewrite total_cons. lia.
Qed.
Lemma holder_total w l : 0 ≤ w < total l → is_Some (holder w l).
Proof.
  revert w. induction l as [|p l IH]; intros w; [cbn; lia|].
  rewrite total_cons. cbn. destruct (Z.ltb_spec w (tickets_of p)); [eauto|]. intros. apply IH. lia.
Qed.
Lemma holder_elem w l p : holder w l = Some p → p ∈ l.
Proof.
  revert w. induction l as [|p' l IH]; intros w; cbn; [done|].
  destruct (w <? tickets_of p'); [intros [= <-]; left|]. intros. right. eauto.
Qed.

(** Every process holds as many winning tickets as it owns. *)
Lemma holder_share l p :
  NoDup l → p ∈ l →
  Z.of_nat (length (filter (λ w, holder w l = Some p) (seqZ 0 (total l)))) = tickets_of p.
Proof.
  assert (Hshift : ∀ l k n, 0 ≤ k → 0 ≤ n → length (filter (λ w, holder (w - k) l = Some p) (seqZ k n))
    = length (filter (λ w, holder w l = Some p) (seqZ 0 n))).
  { intros l' k n Hk Hn. assert (seqZ k n = Z.add k <$> seqZ 0 n) as -> by (rewrite fmap_add_seqZ; f_equal; lia).
    rewrite length_filter_fmap.
    f_equal. apply list_filter_iff. intros w. by replace (k + w - k) with w by lia. }
  intros Hnd. revert p Hshift. induction Hnd as [|p' l Hp' Hnd IH]; intros p Hshift Hp; [set_solver|].
  pose proof (tickets_pos p'). pose proof (total_nonneg l). rewrite total_cons.
  rewrite (seqZ_app 0 (tickets_of p') (total l)), filter_app, length_app by lia.
  assert (Hlow : filter (λ w, holder w (p' :: l) = Some p) (seqZ 0 (tickets_of p')) =
    if decide (p' = p) then seqZ 0 (tickets_of p') else []).
  { assert (Hh : ∀ w, w ∈ seqZ 0 (tickets_of p') → holder w (p' :: l) = Some p').
    { intros w Hw%elem_of_seqZ. cbn. by rewrite (proj2 (Z.ltb_lt w _)) by lia. }
    case_decide as Heq.
    - subst. by apply filter_all.
    - apply filter_none. intros w Hw. rewrite Hh by done. congruence. }
  assert (Hhigh : length (filter (λ w, holder w (p' :: l) = Some p) (seqZ (tickets_of p') (total l))) =
    length (filter (λ w, holder w l = Some p) (seqZ 0 (total l)))).
  { rewrite <- (Hshift l (tickets_of p')) by lia. f_equal. apply filter_ext_in.
    intros w Hw%elem_of_seqZ. cbn. by destruct (Z.ltb_spec w (tickets_of p')); [lia|]. }
  replace (0 + tickets_of p') with (tickets_of p') by lia. rewrite Hlow, Hhigh.
  case_decide as Heq.
  - subst p'. rewrite length_seqZ.
    replace (length (filter _ (seqZ 0 (total l)))) with 0%nat; [lia|].
    symmetry. apply length_zero_iff_nil, filter_none. intros w _ Hh.
    by apply Hp', (holder_elem w).
  - cbn [length Nat.add]. apply IH; [done|]. set_solver.
Qed.
End tickets.

(** ** The draw *)
Definition tickets_at (a : astate) (p : pcb_ptr) : Z := from_option ticket_count 1 (pcb_at a p).
(** The state the generator is stepped from, mixed with the timer. *)
Definition lottery_mix (k : kernel) : Z :=
  let x := Z.lxor (lottery_rng_state k) (u32 (timer_clo k O)) in
  if x =? 0 then LOTTERY_SEED else x.
Definition a_random (a : astate) : Z * astate :=
  let v := xorshift64 (lottery_mix (core a)) in
  (v, a_core (λ k, set_lottery_rng_state v (set_timer_clo (λ n, timer_clo k (S n)) k)) a).

Fixpoint a_draw (fuel : nat) (a : astate) : option pcb_ptr * astate :=
  match fuel with
  | O => (None, a)
  | S fuel' =>
      let r := a_random a in
      let winner := r.1 mod total (tickets_at a) (queues a ReadyQueue) in
      match queues a ReadyQueue, holder (tickets_at a) winner (queues a ReadyQueue) with
      | _ :: _, Some c =>
          let a1 := a_signals c (a_extract (Some c) r.2) in
          if decide (state_of a1 c = PROCESS_READY) then (Some c, a1) else a_draw fuel' a1
      | _, _ => (None, a)
      end
  end.
Definition a_lottery (alg : SchedAlgorithm) (a : astate) : astate :=
  let r := a_draw queue_fuel (a_enter alg a) in a_leave r.1 (a_recharge r.1 10 r.2).

Section draw.
Context {alg : SchedAlgorithm}.
Implicit Types (a : astate) (p : pcb_ptr) (l : list pcb_ptr).

Lemma tickets_at_pos a p : 0 < tickets_at a p.
Proof.
  unfold tickets_at. destruct (pcb_at a p); cbn; [|done]. unfold ticket_count.
  by case_match; [apply Z.ltb_lt|].
Qed.

Lemma wp_lottery_total fuel l1 l2 n (Q : Z → kernel → Prop) s a :
  rep s a → queue_ready a l2 → queues a ReadyQueue = l1 ++ l2 → (length l2 < fuel)%nat →
  Q (n + total (tickets_at a) l2) s → wp (lottery_total fuel (head l2) n) Q s.
Proof.
  revert l1 l2 n. induction fuel as [|fuel IH]; intros l1 l2 n Hr Hrd Hl Hf HQ; [lia|].
  destruct l2 as [|p l2]; cbn [lottery_total head].
  { apply wp_ret. by rewrite Z.add_0_r in HQ. }
  destruct (queue_ready_pcb _ _ p Hrd ltac:(left)) as (pcb & Hp & _).
  apply wp_bind. eapply (wp_load_linked ReadyQueue); [done|done|exact Hl|exact Hp|].
  cbn [next_ready set_next_ready].
  eapply (IH (l1 ++ [p])); [done| | |cbn in Hf; lia|].
  - intros p' Hp'. apply Hrd. by right.
  - by rewrite <- app_assoc.
  - rewrite total_cons in HQ. unfold tickets_at at 1 in HQ. rewrite Hp in HQ. cbn in HQ.
    change (ticket_count (set_next_ready (head l2) pcb)) with (ticket_count pcb).
    by rewrite <- Z.add_assoc.
Qed.

Lemma wp_lottery_winner fuel l1 l2 w n
    (Q : option pcb_ptr * option pcb_ptr → kernel → Prop) s a :
  rep s a → queue_ready a l2 → queues a ReadyQueue = l1 ++ l2 → (length l2 < fuel)%nat →
  n ≤ w →
  (∀ c l1' l2', holder (tickets_at a) (w - n) l2 = Some c →
     queues a ReadyQueue = l1' ++ c :: l2' → Q (last l1', Some c) s) →
  is_Some (holder (tickets_at a) (w - n) l2) →
  wp (lottery_winner fuel w n (last l1) (head l2)) Q s.
Proof.
  revert l1 l2 n. induction fuel as [|fuel IH]; intros l1 l2 n Hr Hrd Hl Hf Hw HQ Hh; [lia|].
  destruct l2 as [|p l2]; cbn [lottery_winner head]; [by destruct Hh|].
  destruct (queue_ready_pcb _ _ p Hrd ltac:(left)) as (pcb & Hp & _).
  apply wp_bind. eapply (wp_load_linked ReadyQueue); [done|done|exact Hl|exact Hp|].
  cbn [next_ready set_next_ready].
  change (ticket_count (set_next_ready (head l2) pcb)) with (ticket_count pcb).
  assert (Ht : tickets_at a p = ticket_count pcb) by (unfold tickets_at; by rewrite Hp).
  cbn [holder] in HQ, Hh. rewrite Ht in HQ, Hh.
  replace (w <? n + ticket_count pcb) with (w - n <? ticket_count pcb)
    by (destruct (Z.ltb_spec (w - n) (ticket_count pcb)), (Z.ltb_spec w (n + ticket_count pcb)); lia).
  destruct (Z.ltb_spec (w - n) (ticket_count pcb)).
  - apply wp_ret. by eapply HQ.
  - replace (w - n - ticket_count pcb) with (w - (n + ticket_count pcb)) in HQ, Hh by lia.
    change (Some p) with (head (p :: l2)).
    replace (head (p :: l2)) with (last (l1 ++ [p])) by by rewrite last_snoc.
    eapply (IH (l1 ++ [p])); [done| | |cbn in Hf; lia|lia|done|done].
    + intros p' Hp'. apply Hrd. by right.
    + by rewrite <- app_assoc.
Qed.

Lemma wp_lottery_random (Q : Z → kernel → Prop) s a :
  rep s a → (∀ s', rep s' (a_random a).2 → Q (a_random a).1 s') → wp lottery_random Q s.
Proof.
  intros Hr HQ. unfold lottery_random, read_timer_clo.
  apply wp_bind, wp_bind, wp_gets, wp_bind.
  eapply wp_modify_core; [done..|]. intros s1 Hr1.
  apply wp_ret, wp_bind, wp_gets.
  pose proof (rep_field timer_clo s a ltac:(done) Hr) as Ht.
  pose proof (rep_field lottery_rng_state s1 _ ltac:(done) Hr1) as Hx.
  cbn in Hx. rewrite Ht, Hx in *. apply wp_bind. eapply wp_modify_core; [done..|].
  intros s2 Hr2. apply wp_ret. apply HQ. exact Hr2.
Qed.

Lemma random_picking hole a : picking alg hole a → picking alg hole (a_random a).2.
Proof.
  intros [Hi Hs Hidle]. split; [|done|done]. unfold a_random. cbn.
  apply kinv_core; try done; apply Hi.
Qed.

Lemma wp_lottery_draw fuel (Q : option pcb_ptr → kernel → Prop) s a :
  rep s a → picking alg None a → (length (queues a ReadyQueue) < fuel)%nat →
  (∀ s', let r := a_draw fuel a in rep s' r.2 → chosen alg r.1 r.2 → Q r.1 s') →
  wp (lottery_draw alg fuel) Q s.
Proof.
  revert s a. induction fuel as [|fuel IH]; intros s a Hr Hpk Hf HQ; [lia|].
  cbn [lottery_draw]. pose proof (pk_inv _ _ _ Hpk) as Hi.
  pose proof (queued_ready _ _ ReadyQueue Hi I) as Hrd.
  pose proof (queue_length_fuel _ _ ReadyQueue Hi I) as Hqf.
  apply wp_bind, wp_gets, wp_bind. rewrite (rep_ready_head _ _ Hr).
  eapply (wp_lottery_total _ []); [done..|]. cbn zeta in HQ. cbn [a_draw] in HQ.
  rewrite Z.add_0_l. set (tot := total (tickets_at a) (queues a ReadyQueue)) in *.
  destruct (Z.eqb_spec tot 0) as [Hz|Hnz].
  { apply total_zero in Hz; [|apply tickets_at_pos]. rewrite Hz in HQ.
    apply wp_ret, HQ; [done|by split]. }
  assert (Hpos : 0 < tot)
    by (pose proof (total_nonneg _ (tickets_at_pos a) (queues a ReadyQueue)); lia).
  apply wp_bind. eapply wp_lottery_random; [done|]. intros s1 Hr1.
  set (w := (a_random a).1 mod tot) in *.
  assert (Hw : 0 ≤ w < tot) by (apply Z.mod_pos_bound; lia).
  destruct (holder_total (tickets_at a) w (queues a ReadyQueue) Hw) as [c Hc].
  change (queues a ReadyQueue) with (queues (a_random a).2 ReadyQueue) at 1.
  apply wp_bind. eapply (wp_lottery_winner _ []); [exact Hr1|exact Hrd|done|done|lia| |].
  2:{ rewrite Z.sub_0_r. by exists c. }
  rewrite Z.sub_0_r. intros c' l1 l2 Hc' Hl.
  assert (Hc2 : holder (tickets_at a) w (queues a ReadyQueue) = Some c') by exact Hc'.
  assert (c' = c) as -> by congruence.
  rewrite Hc in HQ. change (queues (a_random a).2 ReadyQueue) with (queues a ReadyQueue) in Hl.
  pose proof (inv_nodup _ _ _ Hi ReadyQueue I) as Hnd.
  pose proof (random_picking _ _ Hpk) as Hpk1.
  unfold a_extract in HQ. change (queues (a_random a).2 ReadyQueue) with (queues a ReadyQueue) in HQ.
  rewrite Hl in HQ, Hnd. rewrite filter_ne_split in HQ by done.
  assert (HQ' : ∀ s', let a1 := a_signals c (a_set_queue ReadyQueue (l1 ++ l2) (a_random a).2) in
    let r := if decide (state_of a1 c = PROCESS_READY) then (Some c, a1) else a_draw fuel a1 in
    rep s' r.2 → chosen alg r.1 r.2 → Q r.1 s') by by destruct l1.
  clear HQ. cbn zeta in HQ'.
  apply wp_bind. eapply (wp_remove_process_from ReadyQueue); [exact Hr1|done|exact Hl|].
  intros s2 Hr2. apply wp_bind, wp_ret.
  destruct (picking_take (a_random a).2 ReadyQueue c (l1 ++ l2) Hpk1 I) as (Hpk2 & Hins & Hst).
  { change (queues (a_random a).2 ReadyQueue) with (queues a ReadyQueue).
    by rewrite Hl, Permutation_middle. }
  destruct (registered_pcb _ _ _ (pk_inv _ _ _ Hpk2) (proj1 Hins)) as (pcb & Hp & _).
  apply wp_bind. eapply wp_handle_process_signals; [exact Hr2|exact Hp| |].
  { unfold state_of in Hst. by rewrite Hp in Hst. }
  intros s3 Hr3. set (a3 := a_signals c _) in *.
  assert (Hp3 : pcb_at a3 c = Some (signal_effect pcb)) by by apply pcb_at_update_eq.
  apply wp_bind. eapply wp_load; [exact Hr3|exact Hp3|]. intros v.
  assert (Hs3 : state_of a3 c = state (signal_effect pcb)) by (unfold state_of; by rewrite Hp3).
  change (state (set_next_ready v (signal_effect pcb))) with (state (signal_effect pcb)).
  rewrite <- Hs3. case_decide as HR.
  - apply wp_ret, HQ'; [done|].
    by apply (picking_signals (Some c) _ c Hpk2 Hins Hst); [|left|].
  - eapply IH; [exact Hr3| | |exact HQ'].
    + apply (picking_signals None _ c Hpk2 Hins Hst); [by intros ?|by right].
    + unfold a3. change (queues (a_signals c ?a) ReadyQueue) with (queues a ReadyQueue).
      rewrite queues_set_queue. rewrite Hl, length_app in Hf. cbn in Hf.
      rewrite length_app. lia.
Qed.

Lemma wp_schedule_lottery s a :
  enqueue alg = EnqueueFifo → rep s a → decidable_state alg a →
  wp (schedule_lottery alg) (λ _, decides (alg:=alg) (a_lottery alg) a) s.
Proof.
  intros He Hr Hds. unfold schedule_lottery.
  change (enqueue_process_to ReadyQueue) with (run_enqueue EnqueueFifo). rewrite <- He.
  eapply (wp_enter (alg:=alg)); [done..|]. intros s1 Hr1. pose proof (enter_picking _ Hds) as Hpk.
  apply wp_bind. eapply wp_lottery_draw; [done|done| |].
  { eapply queue_length_fuel; [apply Hpk|done]. }
  intros s2 r Hr2 Hch2.
  apply wp_bind. eapply (wp_recharge_or_init (alg:=alg)); [done|lia|done|]. intros s3 Hr3 Hch3.
  by eapply wp_leave_decides.
Qed.
End draw.
