(* ===== verification/SchedTick.v ===== *)
(** * Dispatcher and timer tick

    The central dispatcher, the per-tick bookkeeping of the multilevel algorithms
    (boost and demotion) and the timer tick of src/libs/scheduler.c, on the abstract
    state, for every descriptor of the file. *)
From S2P Require Import Prelude.
From S2P Require Import Process.
From S2P Require Import ReadyQueue.
From S2P Require Import Scheduler.
From S2P Require Import SchedSpec.
From S2P Require Import SchedInv.
From S2P Require Import SchedDispatch.
From S2P Require Import SchedPick.
From S2P Require Import SchedAging.
From S2P Require Import SchedLottery.
From Stdlib Require String.
Local Open Scope Z_scope.

(** ** Descriptors *)

(** A descriptor whose callbacks agree with each other and with the queues. *)
Definition alg_ok (alg : SchedAlgorithm) : Prop :=
  match pick_next alg with
  | ScheduleRoundRobin | ScheduleLottery | SchedulePriorityAging => enqueue alg = EnqueueFifo
  | ScheduleQueueHead => enqueue alg ≠ EnqueueMultilevel
  | ScheduleMultilevel => enqueue alg = EnqueueMultilevel ∧ is_Some (ml_policy alg)
  end ∧
  (is_Some (on_tick alg) → enqueue alg = EnqueueMultilevel ∧ is_Some (ml_policy alg)) ∧
  (∀ policy, ml_policy alg = Some policy → policy_ok policy ∧ 0 < n_levels policy).

Lemma all_algorithms_ok : Forall alg_ok all_algorithms.
Proof.
  assert (Hp : ∀ p, p = ml_policy_mlq ∨ p = ml_policy_mlfq → policy_ok p ∧ 0 < n_levels p).
  { intros p [-> | ->]; unfold policy_ok; split_and!; try done;
      repeat (constructor; [lia|]); constructor. }
  unfold all_algorithms. repeat apply Forall_cons_2; try apply Forall_nil_2;
    unfold alg_ok; cbn; split_and!; try done; try (by eexists);
    try (by intros [? ?]); intros p [= <-]; apply Hp; auto.
Qed.

(** The decision of the active algorithm. *)
Definition a_decide (alg : SchedAlgorithm) (a : astate) : astate :=
  match pick_next alg with
  | ScheduleRoundRobin => a_round_robin (alg:=alg) a
  | ScheduleQueueHead => a_queue_head (alg:=alg) a
  | ScheduleLottery => a_lottery alg a
  | SchedulePriorityAging => a_priority_aging alg a
  | ScheduleMultilevel =>
      match ml_policy alg with Some policy => a_multilevel alg policy a | None => a end
  end.

Lemma wp__schedule alg s a :
  alg_ok alg → rep s a → decidable_state alg a →
  wp (_schedule alg) (λ _, decides (alg:=alg) (a_decide alg) a) s.
Proof.
  intros (Hpick & _ & Hpol) Hr Hds. unfold _schedule, a_decide, decides.
  destruct (pick_next alg) eqn:Hp.
  - by apply (wp_schedule_round_robin (alg:=alg)).
  - by apply (wp_schedule_queue_head (alg:=alg)).
  - by apply (wp_schedule_lottery (alg:=alg)).
  - eapply wp_mono; [by apply (wp_schedule_priority_aging (alg:=alg))|]. by intros ?? [? _].
  - destruct Hpick as [He [policy Hpo]]. rewrite Hpo.
    destruct (Hpol _ Hpo) as [? _]. by apply (wp_schedule_multilevel (alg:=alg)).
Qed.

(** ** The state between kernel operations *)
Record kernel_ok (alg : SchedAlgorithm) (a : astate) : Prop := {
  ko_inv : kinv alg None a;
  ko_unqueued : unqueued a (current a)
}.

Lemma decidable_kernel_ok alg a : decidable_state alg a → kernel_ok alg a.
Proof. by intros [? ? _]. Qed.
Lemma kernel_ok_decidable alg a : kernel_ok alg a → settled a → decidable_state alg a.
Proof. by intros [? ?] ?. Qed.

(** ** Changes outside the PCBs *)

(** [rep] only reads the queues pointwise. *)
Lemma rep_ext s a a' :
  core a' = core a → (∀ q, queues a' q = queues a q) → rep s a → rep s a'.
Proof.
  intros Hc Hq [H1 H2 H3 H4 H5]. split.
  - by rewrite Hc.
  - done.
  - intros q. rewrite Hq. apply H3.
  - intros q. rewrite Hq. apply H4.
  - intros q1 q2 p. rewrite !Hq. apply H5.
Qed.

Section moves.
Context {alg : SchedAlgorithm}.
Implicit Types (a : astate) (p : pcb_ptr) (q : queue_ref) (l : list pcb_ptr).

(** Processes move between the queues the algorithm scans. *)
Lemma kinv_moves s a a' :
  kinv alg None a → rep s a' →
  heap (core a') = heap (core a) → processes (core a') = processes (core a) →
  current_process (core a') = current_process (core a) →
  length (queue_level (core a')) = Z.to_nat N_PROCESSES →
  Forall level_in_range (queue_level (core a')) →
  (∀ q p, valid_queue q → p ∈ queues a' q →
     scanned alg q ∧ ∃ q', valid_queue q' ∧ p ∈ queues a q') →
  (∀ q p, valid_queue q → p ∈ queues a q → ∃ q', valid_queue q' ∧ p ∈ queues a' q') →
  kinv alg None a'.
Proof.
  intros Hi Hr Hh Ht Hc Hl1 Hl2 Hin Hout.
  assert (Hi' : kinv alg None {| core := core a'; queues := queues a |}).
  { change {| core := core a'; queues := queues a |} with (a_core (λ _, core a') a).
    by apply kinv_core. }
  split;
  [ exact (inv_slots _ _ _ Hi') | exact (inv_levels_length _ _ _ Hi')
  | exact (inv_levels _ _ _ Hi') | exact (inv_init _ _ _ Hi')
  | exact (inv_current _ _ _ Hi') | exact (inv_table _ _ _ Hi')
  | exact (inv_counter _ _ _ Hi') | | | exact (inv_running _ _ _ Hi')
  | apply (rep_nodup _ _ Hr) | apply (rep_disjoint _ _ Hr) ].
  - intros q p Hq Hp. destruct (Hin q p Hq Hp) as (Hsc & q' & Hq' & Hp').
    split; [done|]. by apply (inv_queued _ _ _ Hi' q' p).
  - intros p Hp Hne Hs. destruct (inv_ready _ _ _ Hi' p Hp Hne Hs) as [?|(q & Hq & Hpq)]; [done|].
    right. by eapply Hout.
Qed.

Lemma wp_set_queue_level_at i v (Q : unit → kernel → Prop) s a :
  rep s a → 0 ≤ i < Z.of_nat (length (queue_level (core a))) →
  (∀ s', rep s' (a_core (λ k, set_queue_level (<[Z.to_nat i := v]> (queue_level k)) k) a) → Q tt s') →
  wp (set_queue_level_at i v) Q s.
Proof.
  intros Hr Hb HQ. unfold set_queue_level_at. apply wp_bind, wp_gets, wp_bind, wp_defined.
  pose proof (rep_field queue_level s a ltac:(done) Hr) as Hl. rewrite Hl.
  exists (<[Z.to_nat i := v]> (queue_level (core a))). split; [by apply arr_set_in|].
  eapply wp_modify_core; [done..|]. exact HQ.
Qed.

Definition a_output (bytes : list Z) : astate → astate :=
  a_core (λ k, set_uart_out (uart_out k ++ bytes) k).
Lemma wp_uart_put_bytes (l : list Z) (Q : unit → kernel → Prop) s a :
  rep s a → (∀ s', rep s' (a_output (u8 <$> l) a) → Q tt s') → wp (uart_put_bytes l) Q s.
Proof.
  revert s a. induction l as [|b l IH]; intros s a Hr HQ; cbn [uart_put_bytes].
  - apply wp_ret, HQ. unfold a_output, a_core, set_uart_out. cbn. rewrite app_nil_r.
    by destruct a as [[] ?].
  - apply wp_bind. eapply wp_modify_core; [done..|]. intros s1 Hr1.
    eapply IH; [exact Hr1|]. intros s2 Hr2. apply HQ.
    unfold a_output, a_core, set_uart_out in *. cbn in *. by rewrite <- app_assoc in Hr2.
Qed.

(** The bytes of a trace line. *)
Definition trace_num (n : Z) : list Z :=
  (if decide (10 ≤ n) then [u8 (48 + Z.rem (Z.quot n 10) 10)] else []) ++ [u8 (48 + Z.rem n 10)].
Definition trace_line (before : String.string) (p : Z) (between : String.string) (level : Z) : list Z :=
  (u8 <$> bytes_of_string before) ++ trace_num p ++ (u8 <$> bytes_of_string between)
    ++ trace_num level ++ [10].

Lemma wp_ml_trace_num n (Q : unit → kernel → Prop) s a :
  rep s a → (∀ s', rep s' (a_output (trace_num n) a) → Q tt s') → wp (ml_trace_num n) Q s.
Proof.
  intros Hr HQ. unfold ml_trace_num. apply wp_bind, wp_when. unfold trace_num in HQ.
  destruct (bool_decide_reflect (10 ≤ n)).
  - eapply wp_modify_core; [done..|]. intros s1 Hr1. eapply wp_modify_core; [done..|].
    intros s2 Hr2. apply HQ. rewrite decide_True by done.
    unfold a_output, a_core, set_uart_out in *. cbn in *. by rewrite <- app_assoc in Hr2.
  - eapply wp_modify_core; [done..|]. intros s2 Hr2. apply HQ. by rewrite decide_False.
Qed.
Lemma output_output b1 b2 a : a_output b2 (a_output b1 a) = a_output (b1 ++ b2) a.
Proof. unfold a_output, a_core, set_uart_out. cbn. by rewrite app_assoc. Qed.
Lemma wp_ml_trace before n between level (Q : unit → kernel → Prop) s a :
  rep s a → (∀ s', rep s' (a_output (trace_line before n between level) a) → Q tt s') →
  wp (ml_trace before n between level) Q s.
Proof.
  intros Hr HQ. unfold ml_trace, uart_puts. unfold trace_line in HQ.
  apply wp_bind. eapply wp_uart_put_bytes; [done|]. intros s1 Hr1.
  apply wp_bind. eapply wp_ml_trace_num; [done|]. intros s2 Hr2.
  apply wp_bind. eapply wp_uart_put_bytes; [done|]. intros s3 Hr3.
  apply wp_bind. eapply wp_ml_trace_num; [done|]. intros s4 Hr4.
  eapply wp_uart_put_bytes; [done|]. intros s5 Hr5. apply HQ.
  by rewrite !output_output in Hr5.
Qed.
Lemma kinv_output hole b a : kinv alg hole a → kinv alg hole (a_output b a).
Proof. intros Hi. apply kinv_core; try done; apply Hi. Qed.
End moves.

(** ** The periodic boost *)

(** Everything queued at level [q] goes behind level 0; [levels] are the new
    tracked levels. *)
Definition a_drained (q : Z) (levels : list Z) (a : astate) : astate :=
  {| core := set_queue_level levels (core a);
     queues := upd_queue (MlQueue 0) (queues a (MlQueue 0) ++ queues a (MlQueue q))
                 (upd_queue (MlQueue q) [] (queues a)) |}.
Definition levels_ok (levels : list Z) : Prop :=
  length levels = Z.to_nat N_PROCESSES ∧ Forall level_in_range levels.

Section boost.
Context {alg : SchedAlgorithm}.
Hypothesis Halg : enqueue alg = EnqueueMultilevel.
Implicit Types (a : astate) (p : pcb_ptr).

Lemma levels_ok_insert levels i :
  levels_ok levels → levels_ok (<[i := 0]> levels).
Proof.
  intros [Hl HF]. split; [by rewrite length_insert|].
  apply Forall_insert; [done|]. unfold level_in_range, ML_MAX_LEVELS. lia.
Qed.
Lemma kinv_levels hole levels a :
  kinv alg hole a → levels_ok levels → kinv alg hole (a_core (set_queue_level levels) a).
Proof. intros Hi [? ?]. by apply kinv_core. Qed.

Lemma ready_enqueue (q : queue_ref) a p pcb :
  pcb_at a p = Some pcb → state pcb = PROCESS_READY →
  a_enqueue q p a = a_set_queue q (queues a q ++ [p]) a.
Proof.
  intros Hp Hs. unfold a_enqueue. eapply (a_update_id _ _ _ pcb); [exact Hp|].
  destruct pcb; cbn in *; by subst.
Qed.

Lemma wp_drain_step (q : Z) p l (k : K unit) (Q : unit → kernel → Prop) s a :
  rep s a → kinv alg None a → 0 < q < ML_MAX_LEVELS → queues a (MlQueue q) = p :: l →
  (∀ s' levels,
     let a' := a_core (set_queue_level levels)
                (a_set_queue (MlQueue 0) (queues a (MlQueue 0) ++ [p])
                  (a_set_queue (MlQueue q) l a)) in
     rep s' a' → kinv alg None a' → levels_ok levels → wp k Q s') →
  ∀ s1, rep s1 (a_set_queue (MlQueue q) l a) →
  wp (pcb ← load p; set_queue_level_at (pid pcb) 0;; enqueue_process_to (MlQueue 0) (Some p);; k) Q s1.
Proof.
  intros Hr Hi Hq Hl HQ s1 Hr1.
  assert (Hv : valid_queue (MlQueue q)) by (cbn; lia).
  assert (Hv0 : valid_queue (MlQueue 0)) by (cbn; unfold ML_MAX_LEVELS; lia).
  assert (Hin : p ∈ queues a (MlQueue q)) by (rewrite Hl; left).
  destruct (inv_queued _ _ _ Hi _ p Hv Hin) as (_ & Hne & Hreg & Hs).
  assert (Hperm : queues a (MlQueue q) ≡ₚ p :: l) by by rewrite Hl.
  pose proof (kinv_take _ _ _ _ Hi Hv Hperm) as Hi1.
  pose proof (taken_unqueued (alg:=alg) _ _ _ _ Hi Hv Hperm) as Hun.
  destruct (registered_pcb _ _ _ Hi Hreg) as (pcb & Hp & Hpid & _).
  assert (Hst : state pcb = PROCESS_READY) by (unfold state_of in Hs; by rewrite Hp in Hs).
  apply wp_bind. eapply wp_load; [exact Hr1|exact Hp|]. intros v.
  change (pid (set_next_ready v pcb)) with (pid pcb). apply wp_bind.
  pose proof (inv_levels_length _ _ _ Hi) as Hlen.
  eapply wp_set_queue_level_at; [exact Hr1|cbn; rewrite Hlen; unfold N_PROCESSES in *; lia|].
  intros s2 Hr2. set (levels := <[Z.to_nat (pid pcb) := 0]> (queue_level (core a))).
  assert (Hlv : levels_ok levels)
    by (apply levels_ok_insert; split; [done|apply (inv_levels _ _ _ Hi)]).
  set (a2 := a_core (set_queue_level levels) (a_set_queue (MlQueue q) l a)).
  assert (Hr2' : rep s2 a2) by exact Hr2.
  assert (Hi2 : kinv alg (Some p) a2) by by apply kinv_levels.
  assert (Hp2 : pcb_at a2 p = Some pcb) by done.
  assert (Hq2 : queues a2 (MlQueue 0) = queues a (MlQueue 0)).
  { unfold a2. cbn. unfold upd_queue. rewrite decide_False; [done|]. intros [= ?]. lia. }
  apply wp_bind. eapply (wp_enqueue_process_to (MlQueue 0)); [exact Hr2'|done|exact Hun|done|exact Hp2|].
  assert (Hi3 : kinv alg None (a_enqueue (MlQueue 0) p a2)).
  { eapply (kinv_enqueue (Some p)); try done; [unfold scanned; by rewrite Halg|].
    intros x [= <-]. by left. }
  erewrite (ready_enqueue _ a2 _ _ Hp2 Hst), Hq2 in Hi3 |- *. intros s3 Hr3.
  apply (HQ s3 levels); done.
Qed.

Lemma wp_drain fuel (q : Z) (Q : unit → kernel → Prop) s a :
  rep s a → kinv alg None a → 0 < q < ML_MAX_LEVELS →
  (length (queues a (MlQueue q)) < fuel)%nat →
  (∀ s' levels, rep s' (a_drained q levels a) → kinv alg None (a_drained q levels a) →
     levels_ok levels → Q tt s') →
  wp (drain_to_top fuel q) Q s.
Proof.
  revert s a. induction fuel as [|fuel IH]; intros s a Hr Hi Hq Hf HQ; [lia|].
  assert (Hv : valid_queue (MlQueue q)) by (cbn; lia).
  cbn [drain_to_top]. apply wp_bind. eapply wp_dequeue_process_from; [done..|].
  destruct (queues a (MlQueue q)) as [|p l] eqn:Hl.
  - apply wp_ret.
    assert (Hcore : core (a_drained q (queue_level (core a)) a) = core a)
      by (destruct a as [[] ?]; done).
    assert (Hqs : ∀ q', queues (a_drained q (queue_level (core a)) a) q' = queues a q').
    { intros q'. cbn. unfold upd_queue. rewrite Hl, app_nil_r.
      case_decide; [by subst|]. case_decide; [by subst|done]. }
    assert (Hr' : rep s (a_drained q (queue_level (core a)) a)) by by eapply rep_ext.
    eapply HQ; [exact Hr'| |split; [apply Hi|apply Hi]].
    eapply kinv_moves; [exact Hi|exact Hr'|done|done|done|apply Hi|apply Hi| |].
    + intros q' p. rewrite Hqs. intros Hq' Hp.
      destruct (inv_queued _ _ _ Hi q' p Hq' Hp) as (? & _). eauto.
    + intros q' p Hq' Hp. exists q'. by rewrite Hqs.
  - intros s1 Hr1. eapply (wp_drain_step q p l); [exact Hr|exact Hi|done|exact Hl| |exact Hr1].
    intros s2 levels a2 Hr2 Hi2 Hlv.
    assert (Hq2 : queues a2 (MlQueue q) = l).
    { unfold a2. cbn. unfold upd_queue. rewrite decide_False by (intros [= ?]; lia).
      by rewrite decide_True. }
    eapply IH; [exact Hr2|exact Hi2|done|rewrite Hq2; cbn in Hf; lia|].
    intros s3 levels' Hr3 Hi3 Hlv'.
    assert (Hqs : ∀ q', queues (a_drained q levels' a) q' = queues (a_drained q levels' a2) q').
    { intros q'. cbn. unfold upd_queue. rewrite Hl.
      destruct (decide (MlQueue q = MlQueue 0)) as [[= ?]|_]; [lia|].
      destruct (decide (MlQueue 0 = MlQueue 0)) as [_|?]; [|done].
      destruct (decide (MlQueue q = MlQueue q)) as [_|?]; [|done].
      rewrite <- app_assoc. by repeat case_decide. }
    assert (Hr' : rep s3 (a_drained q levels' a)) by by eapply rep_ext; [| |exact Hr3].
    eapply HQ; [exact Hr'| |done].
    eapply kinv_moves; [exact Hi3|exact Hr'|done|done|done|apply Hlv'|apply Hlv'| |].
    + intros q' p'. rewrite Hqs. intros Hq' Hp.
      destruct (inv_queued _ _ _ Hi3 q' p' Hq' Hp) as (? & _). eauto.
    + intros q' p' Hq' Hp. exists q'. by rewrite Hqs.
Qed.
End boost.

(** The queues after the levels [seen] have been emptied into level 0. *)
Definition boosted_queues (seen : list Z) (f : queue_ref → list pcb_ptr) (q : queue_ref) :
    list pcb_ptr :=
  match q with
  | ReadyQueue => f q
  | MlQueue i =>
      if decide (i = 0) then f (MlQueue 0) ++ concat ((λ j, f (MlQueue j)) <$> seen)
      else if decide (i ∈ seen) then [] else f q
  end.
Definition boost_message : list Z :=
  u8 <$> bytes_of_string boost_text ++ [10].
Definition a_boost (policy : MultilevelPolicy) (a : astate) : astate :=
  a_output boost_message
    (a_core (set_ml_ticks_since_boost 0)
      {| core := set_queue_level (replicate (Z.to_nat N_PROCESSES) 0) (core a);
         queues := boosted_queues (seqZ 1 (n_levels policy - 1)) (queues a) |}).
Definition a_boost_tick (policy : MultilevelPolicy) (a : astate) : astate :=
  let a1 := a_core (λ k, set_ml_ticks_since_boost (ml_ticks_since_boost k + 1) k) a in
  if decide (boost_period policy ≤ ml_ticks_since_boost (core a1)) then a_boost policy a1 else a1.

Section boost_tick.
Context {alg : SchedAlgorithm}.
Hypothesis Halg : enqueue alg = EnqueueMultilevel.
Implicit Types (a : astate) (p : pcb_ptr).

Lemma boosted_snoc seen q f q' :
  q ≠ 0 → q ∉ seen → 0 ∉ seen →
  boosted_queues (seen ++ [q]) f q' =
  upd_queue (MlQueue 0) (boosted_queues seen f (MlQueue 0) ++ boosted_queues seen f (MlQueue q))
    (upd_queue (MlQueue q) [] (boosted_queues seen f)) q'.
Proof.
  intros Hq Hseen H0. unfold upd_queue. destruct q' as [|i]; [done|]. cbn.
  destruct (decide (0 = 0)) as [_|]; [|done].
  rewrite (decide_False (P:=q = 0)), (decide_False (P:=q ∈ seen)) by done.
  destruct (decide (i = 0)) as [->|Hi].
  - rewrite decide_True, fmap_app, concat_app by done. cbn.
    by rewrite app_nil_r, app_assoc.
  - rewrite (decide_False (P:=MlQueue i = MlQueue 0)) by congruence.
    destruct (decide (i = q)) as [->|Hiq].
    + rewrite decide_True by set_solver. by rewrite decide_True.
    + rewrite (decide_False (P:=MlQueue i = MlQueue q)) by congruence.
      apply decide_ext. set_solver.
Qed.
Lemma boosted_nil f q : boosted_queues [] f q = f q.
Proof. destruct q as [|i]; [done|]. cbn. case_decide; [|done]. subst. by rewrite app_nil_r. Qed.

Definition boost_state (seen levels : list Z) (a : astate) : astate :=
  {| core := set_queue_level levels (core a); queues := boosted_queues seen (queues a) |}.

Lemma wp_drain_levels levels (Q : unit → kernel → Prop) s a :
  rep s a → kinv alg None a → Forall (λ q, 0 < q < ML_MAX_LEVELS) levels → NoDup levels →
  (∀ s' lv, rep s' (boost_state levels lv a) → kinv alg None (boost_state levels lv a) →
     levels_ok lv → Q tt s') →
  wp (for_each levels (drain_to_top queue_fuel)) Q s.
Proof.
  intros Hr Hi Hlv Hnd HQ.
  set (I := λ seen s, ∃ lv, rep s (boost_state seen lv a) ∧
    kinv alg None (boost_state seen lv a) ∧ levels_ok lv).
  eapply wp_mono; [apply (wp_for_each I)|].
  - exists (queue_level (core a)).
    assert (Hr' : rep s (boost_state [] (queue_level (core a)) a)).
    { eapply rep_ext; [| |exact Hr]; [by destruct a as [[] ?]|apply boosted_nil]. }
    split; [done|]. split; [|split; apply Hi].
    eapply kinv_moves; [exact Hi|exact Hr'|done|done|done|apply Hi|apply Hi| |].
    + intros q p. cbn. rewrite boosted_nil. intros Hq Hp.
      destruct (inv_queued _ _ _ Hi q p Hq Hp) as (? & _). eauto.
    + intros q p Hq Hp. exists q. cbn. by rewrite boosted_nil.
  - intros seen q rest s1 -> (lv & Hr1 & Hi1 & _).
    apply Forall_app in Hlv as [Hlv1 Hlv2]. apply Forall_cons in Hlv2 as [Hq _].
    apply NoDup_app in Hnd as (_ & Hd & _).
    assert (Hqs : q ∉ seen) by (intros Hin; apply (Hd q Hin); left).
    assert (H0 : 0 ∉ seen).
    { intros Hin. rewrite Forall_forall in Hlv1. specialize (Hlv1 0 Hin). lia. }
    eapply (wp_drain Halg); [exact Hr1|exact Hi1|done| |].
    + eapply queue_length_fuel; [exact Hi1|cbn; lia].
    + intros s2 lv' Hr2 Hi2 Hok. exists lv'.
      assert (Hext : ∀ q', queues (boost_state (seen ++ [q]) lv' a) q' =
        queues (a_drained q lv' (boost_state seen lv a)) q')
        by (intros q'; apply boosted_snoc; [lia|done|done]).
      assert (Hr' : rep s2 (boost_state (seen ++ [q]) lv' a))
        by by eapply rep_ext; [| |exact Hr2].
      split; [done|]. split; [|done].
      eapply kinv_moves; [exact Hi2|exact Hr'|done|done|done|apply Hok|apply Hok| |].
      * intros q' p. rewrite Hext. intros Hq' Hp.
        destruct (inv_queued _ _ _ Hi2 q' p Hq' Hp) as (? & _). eauto.
      * intros q' p Hq' Hp. exists q'. by rewrite Hext.
  - intros [] s1 (lv & ? & ? & ?). by eapply HQ.
Qed.

Lemma wp_reset_levels (Q : unit → kernel → Prop) s a :
  rep s a → kinv alg None a →
  (∀ s', rep s' (a_core (set_queue_level (replicate (Z.to_nat N_PROCESSES) 0)) a) → Q tt s') →
  wp (for_each process_slots (λ i, set_queue_level_at i 0)) Q s.
Proof.
  intros Hr Hi HQ. set (n := Z.to_nat N_PROCESSES) in *. set (lv := queue_level (core a)) in *.
  assert (Hlen : length lv = n) by apply (inv_levels_length _ _ _ Hi).
  unfold process_slots. replace N_PROCESSES with (Z.of_nat n) by (unfold n, N_PROCESSES; lia).
  eapply wp_mono; [apply (wp_for_range (λ i s, rep s
    (a_core (set_queue_level (replicate i 0 ++ drop i lv)) a)))|].
  - cbn. by destruct a as [[] ?].
  - intros i s1 Hin HI.
    eapply wp_set_queue_level_at; [exact HI| |].
    { cbn. rewrite length_app, length_replicate, length_drop. lia. }
    intros s2 Hr2. unfold a_core, set_queue_level in *. cbn in *.
    replace (<[Z.to_nat (Z.of_nat i):=0]> (replicate i 0 ++ drop i lv))
      with (0 :: replicate i 0 ++ drop (S i) lv) in Hr2; [done|].
    rewrite Nat2Z.id. destruct (lookup_lt_is_Some_2 lv i ltac:(lia)) as [x Hx].
    rewrite (drop_S _ _ _ Hx), insert_app_r_alt, length_replicate, Nat.sub_diag
      by (rewrite length_replicate; lia).
    cbn. change (0 :: replicate i 0 ++ drop (S i) lv) with (replicate (S i) 0 ++ drop (S i) lv).
    by rewrite replicate_S_end, <- app_assoc.
  - intros [] s1 HI. apply HQ. rewrite drop_ge, app_nil_r in HI by lia. done.
Qed.

Lemma wp_multilevel_boost policy (Q : unit → kernel → Prop) s a :
  rep s a → kinv alg None a → n_levels policy ≤ ML_MAX_LEVELS →
  (∀ s', rep s' (a_boost_tick policy a) → kinv alg None (a_boost_tick policy a) → Q tt s') →
  wp (multilevel_boost policy) Q s.
Proof.
  intros Hr Hi Hn HQ. unfold multilevel_boost. apply wp_bind.
  eapply wp_modify_core; [done..|]. intros s1 Hr1. apply wp_bind, wp_gets, wp_when.
  rewrite (rep_field ml_ticks_since_boost s1 _ ltac:(done) Hr1).
  unfold a_boost_tick in HQ. cbn zeta in HQ. set (a1 := a_core _ a) in *.
  assert (Hi1 : kinv alg None a1) by (apply kinv_core; try done; apply Hi).
  case_bool_decide as Hb; [|by rewrite decide_False in HQ by done; apply HQ].
  rewrite decide_True in HQ by done. apply wp_bind.
  eapply wp_drain_levels; [exact Hr1|exact Hi1| |apply NoDup_seqZ|].
  { apply Forall_forall. intros q Hq%elem_of_seqZ. lia. }
  intros s2 lv Hr2 Hi2 Hlv. apply wp_bind.
  eapply wp_reset_levels; [exact Hr2|exact Hi2|]. intros s3 Hr3. apply wp_bind.
  eapply wp_modify_core; [exact Hr3|done..|]. intros s4 Hr4.
  unfold uart_puts. apply wp_bind. eapply wp_uart_put_bytes; [exact Hr4|]. intros s5 Hr5.
  eapply wp_uart_put_bytes; [exact Hr5|]. intros s6 Hr6. rewrite output_output in Hr6.
  apply HQ; [exact Hr6|]. apply kinv_output, kinv_core; [|done|done|done|done|].
  - change {| core := set_queue_level (replicate (Z.to_nat N_PROCESSES) 0) (core a1);
      queues := boosted_queues (seqZ 1 (n_levels policy - 1)) (queues a1) |}
    with (a_core (set_queue_level (replicate (Z.to_nat N_PROCESSES) 0))
      (boost_state (seqZ 1 (n_levels policy - 1)) lv a1)).
    apply kinv_levels; [done|]. split; [done|].
    apply Forall_replicate. unfold level_in_range, ML_MAX_LEVELS. lia.
  - cbn. apply (Forall_replicate _ 64). unfold level_in_range, ML_MAX_LEVELS. lia.
Qed.
End boost_tick.

(** ** Demotion and the timer tick *)
Definition preempt_of (a : astate) (p : pcb_ptr) : Z := from_option preempt_disabled 0 (pcb_at a p).
Definition a_set_level (i : Z) (v : Z) : astate → astate :=
  a_core (λ k, set_queue_level (<[Z.to_nat i := v]> (queue_level k)) k).
(** The current process has used up its slice and may be preempted. *)
Definition expired (a : astate) : bool :=
  bool_decide (current a ≠ InitProcess) && (counter_of a (current a) <=? 0)
  && (preempt_of a (current a) =? 0).
Definition a_demote (policy : MultilevelPolicy) (a : astate) : astate :=
  let level := level_of a (current a) in
  let i := from_option pid 0 (pcb_at a (current a)) in
  if demote_on_expiry policy && expired a && (level <? n_levels policy - 1)
  then a_output (trace_line pid_text i demotion_text (level + 1)) (a_set_level i (level + 1) a)
  else a.
Definition a_on_tick (alg : SchedAlgorithm) (a : astate) : astate :=
  match on_tick alg, ml_policy alg with
  | Some MultilevelOnTick, Some policy =>
      a_demote policy (if decide (0 < boost_period policy) then a_boost_tick policy a else a)
  | _, _ => a
  end.
Definition a_account (a : astate) : astate :=
  a_update (current a) (λ pcb, set_burst_ticks (burst_ticks pcb + 1) pcb)
    (a_update (current a) (λ pcb, set_counter (counter pcb - 1) pcb) a).
Definition a_tick (alg : SchedAlgorithm) (a : astate) : astate :=
  let a1 := a_on_tick alg (a_account a) in
  if (0 <? counter_of a1 (current a1)) || (0 <? preempt_of a1 (current a1)) then a1 else
  let a2 := a_update (current a1) (set_counter 0) a1 in
  if negb (is_preemptive alg) && bool_decide (current a2 ≠ InitProcess) then a2 else
  a_core (set_irq_enabled false) (a_decide alg (a_core (set_irq_enabled true) a2)).

(** Between two steps of the kernel the current process is RUNNING; before the first
    decision it is the idle task in the state it was initialised with. *)
Definition dispatched (a : astate) : Prop :=
  state_of a (current a) = PROCESS_RUNNING ∨
  current a = InitProcess ∧ state_of a InitProcess = 0.

Section tick.
Context {alg : SchedAlgorithm}.
Implicit Types (a : astate) (p : pcb_ptr).

Lemma current_pcb a : kernel_ok alg a → ∃ pcb, pcb_at a (current a) = Some pcb ∧
  0 ≤ pid pcb < N_PROCESSES.
Proof.
  intros [Hi _]. destruct (registered_pcb _ _ _ Hi (inv_current _ _ _ Hi)) as (pcb & ? & ? & _).
  eauto.
Qed.
(** Assignments to the current process that keep its identity and state. *)
Lemma kernel_ok_update f a :
  kernel_ok alg a → keeps_identity f → (∀ pcb, state (f pcb) = state pcb) →
  kernel_ok alg (a_update (current a) f a).
Proof.
  intros [Hi Hun] Hid Hst. split; [|exact Hun]. apply kinv_update; auto.
Qed.
Lemma wp_current_update f (Q : unit → kernel → Prop) s a :
  rep s a → kernel_ok alg a → link_free f → keeps_identity f →
  (∀ pcb, state (f pcb) = state pcb) →
  (∀ s', let a' := a_update (current a) f a in rep s' a' → kernel_ok alg a' → Q tt s') →
  wp (update_current f) Q s.
Proof.
  intros Hr Hok Hf Hid Hst HQ. destruct (current_pcb _ Hok) as (pcb & Hp & _).
  eapply wp_update_current; [done..|]. intros s' Hr'. apply HQ; [done|].
  by apply kernel_ok_update.
Qed.

Lemma boosted_in n f q p :
  n ≤ ML_MAX_LEVELS → valid_queue q → p ∈ boosted_queues (seqZ 1 (n - 1)) f q →
  ∃ q', valid_queue q' ∧ p ∈ f q'.
Proof.
  intros Hn Hq. destruct q as [|i]; cbn; [by exists ReadyQueue|].
  case_decide as Hi; [|case_decide; [set_solver|eauto]].
  intros [Hp|Hp]%elem_of_app; [exists (MlQueue 0); by subst|].
  apply list_elem_of_In, in_concat in Hp as (l & Hl & Hp).
  apply list_elem_of_In, list_elem_of_fmap in Hl as (j & -> & Hj%elem_of_seqZ).
  exists (MlQueue j). split; [cbn; lia|by apply list_elem_of_In].
Qed.
Lemma boost_tick_unqueued policy a p :
  n_levels policy ≤ ML_MAX_LEVELS → unqueued a p → unqueued (a_boost_tick policy a) p.
Proof.
  intros Hn Hun q Hq. unfold a_boost_tick. case_decide; [|by apply Hun]. cbn.
  intros Hp. destruct (boosted_in _ _ _ _ Hn Hq Hp) as (q' & Hq' & Hp'). by eapply Hun.
Qed.
Lemma boost_tick_frame policy a :
  current (a_boost_tick policy a) = current a ∧
  (∀ p, pcb_at (a_boost_tick policy a) p = pcb_at a p) ∧
  processes (core (a_boost_tick policy a)) = processes (core a).
Proof. unfold a_boost_tick. by case_decide. Qed.

Lemma kinv_set_level hole a i v :
  kinv alg hole a → level_in_range v → kinv alg hole (a_set_level i v a).
Proof.
  intros Hi Hv. apply kinv_core; try done.
  - cbn. rewrite length_insert. apply Hi.
  - apply Forall_insert; [apply Hi|done].
Qed.

Lemma wp_multilevel_demotion policy (Q : unit → kernel → Prop) s a :
  rep s a → kernel_ok alg a → policy_ok policy →
  (∀ s', rep s' (a_demote policy a) → kernel_ok alg (a_demote policy a) → Q tt s') →
  wp (multilevel_demotion policy) Q s.
Proof.
  intros Hr Hok (Hn & _) HQ. pose proof Hok as [Hi Hun].
  destruct (current_pcb _ Hok) as (pcb & Hp & Hpid).
  destruct (level_of_valid _ _ _ Hi (inv_current _ _ _ Hi)) as (pcb' & Hp' & Hl & Hv).
  assert (pcb' = pcb) as -> by congruence.
  unfold multilevel_demotion. apply wp_bind, wp_gets. rewrite (rep_current _ _ Hr).
  apply wp_bind. eapply wp_load; [exact Hr|exact Hp|]. intros v.
  change (counter (set_next_ready v pcb)) with (counter pcb).
  change (preempt_disabled (set_next_ready v pcb)) with (preempt_disabled pcb).
  change (pid (set_next_ready v pcb)) with (pid pcb).
  unfold a_demote, expired, counter_of, preempt_of in HQ. rewrite Hp in HQ. cbn [from_option] in HQ.
  rewrite !andb_assoc in HQ.
  destruct (demote_on_expiry policy && _ && _ && _); cbn [andb] in HQ; [|by apply wp_ret, HQ].
  apply wp_bind. unfold get_queue_level. apply wp_bind, wp_gets, wp_defined.
  exists (level_of a (current a)). rewrite (rep_field queue_level s a) by done.
  split; [exact Hl|]. apply wp_when.
  destruct (Z.ltb_spec (level_of a (current a)) (n_levels policy - 1)) as [Hlt|]; [|by apply HQ].
  apply wp_bind. eapply wp_set_queue_level_at; [exact Hr| |].
  { rewrite (inv_levels_length _ _ _ Hi). unfold N_PROCESSES in *. lia. }
  intros s1 Hr1. eapply wp_ml_trace; [exact Hr1|]. intros s2 Hr2. apply HQ; [exact Hr2|].
  split; [|exact Hun]. apply kinv_output, kinv_set_level; [done|].
  unfold level_in_range. cbn in Hv. lia.
Qed.

Lemma wp_run_on_tick (Q : unit → kernel → Prop) s a :
  alg_ok alg → rep s a → kernel_ok alg a →
  (∀ s', rep s' (a_on_tick alg a) → kernel_ok alg (a_on_tick alg a) → Q tt s') →
  wp (run_on_tick alg) Q s.
Proof.
  intros (_ & Hon & Hpol) Hr Hok HQ. unfold run_on_tick, a_on_tick in *.
  destruct (on_tick alg) as [[]|]; [|by apply wp_ret, HQ].
  destruct Hon as [He [policy Hpo]]; [done|]. rewrite Hpo in HQ.
  destruct (Hpol _ Hpo) as [Hpolicy _]. pose proof Hpolicy as (Hn & _).
  unfold multilevel_on_tick. rewrite Hpo. apply wp_bind, wp_ret, wp_bind, wp_when.
  case_bool_decide as Hb; [|rewrite decide_False in HQ by done; by eapply wp_multilevel_demotion].
  rewrite decide_True in HQ by done. pose proof Hok as [Hi Hun].
  eapply (wp_multilevel_boost He); [done|done|lia|]. intros s1 Hr1 Hi1.
  eapply wp_multilevel_demotion; [exact Hr1| |done|exact HQ].
  split; [done|]. destruct (boost_tick_frame policy a) as [-> _].
  apply boost_tick_unqueued; [lia|done].
Qed.

Lemma dispatched_frame a a' :
  current a' = current a → state_of a' (current a) = state_of a (current a) →
  dispatched a → dispatched a'.
Proof.
  intros Hc Hs Hd. unfold dispatched. rewrite Hc. destruct Hd as [Hd|[Hi Hd]].
  - left. congruence.
  - right. rewrite Hi in Hs. by split; [|congruence].
Qed.
Lemma dispatched_update f a :
  (∀ pcb, state (f pcb) = state pcb) → dispatched a → dispatched (a_update (current a) f a).
Proof.
  intros Hf. apply dispatched_frame; [done|]. rewrite state_of_update, decide_True by done.
  unfold state_of. destruct (pcb_at a (current a)); [apply Hf|done].
Qed.
Lemma dispatched_account a : dispatched a → dispatched (a_account a).
Proof.
  intros Hd. unfold a_account.
  apply (dispatched_update _ (a_update (current a) _ a)); [done|].
  by apply dispatched_update.
Qed.
Lemma dispatched_on_tick a : dispatched a → dispatched (a_on_tick alg a).
Proof.
  intros Hd. unfold a_on_tick. repeat case_match; try done; unfold a_demote, a_boost_tick;
    repeat case_match; done.
Qed.

Lemma wp_handle_timer_tick (Q : unit → kernel → Prop) s a :
  alg_ok alg → rep s a → kernel_ok alg a →
  (∀ s', rep s' (a_tick alg a) → kernel_ok alg (a_tick alg a) →
     (dispatched a → dispatched (a_tick alg a)) → Q tt s') →
  wp (handle_timer_tick alg) Q s.
Proof.
  intros Hao Hr Hok HQ.
  assert (Hd3 : dispatched a → dispatched (a_on_tick alg (a_account a)))
    by (intros Hd; by apply dispatched_on_tick, dispatched_account).
  unfold handle_timer_tick, a_tick in *. cbn zeta in HQ.
  apply wp_bind. eapply wp_current_update; [done|done|auto with kernel..|done|].
  intros s1 a1 Hr1 Hok1. apply wp_bind.
  eapply wp_current_update; [done|done|auto with kernel..|done|]. intros s2 a2 Hr2 Hok2.
  change a2 with (a_account a) in *. clear a2.
  apply wp_bind. eapply wp_run_on_tick; [done..|]. intros s3 Hr3 Hok3.
  set (a3 := a_on_tick alg (a_account a)) in *.
  destruct (current_pcb _ Hok3) as (pcb & Hp & _).
  unfold load_current. apply wp_bind, wp_bind, wp_gets.
  rewrite (rep_current _ _ Hr3). eapply wp_load; [exact Hr3|exact Hp|]. intros v.
  change (counter (set_next_ready v pcb)) with (counter pcb).
  change (preempt_disabled (set_next_ready v pcb)) with (preempt_disabled pcb).
  assert (Hc : counter_of a3 (current a3) = counter pcb) by (unfold counter_of; by rewrite Hp).
  assert (Hpd : preempt_of a3 (current a3) = preempt_disabled pcb)
    by (unfold preempt_of; by rewrite Hp).
  rewrite Hc, Hpd in HQ.
  destruct ((0 <? counter pcb) || (0 <? preempt_disabled pcb)); [by apply wp_ret, HQ|].
  apply wp_bind. eapply wp_current_update; [done|done|auto with kernel..|done|].
  intros s4 a4 Hr4 Hok4. fold a4 in HQ. apply wp_bind, wp_gets.
  rewrite (rep_current _ _ Hr4).
  destruct (negb (is_preemptive alg) && _).
  { apply wp_ret, HQ; [done|done|]. intros Hd. apply dispatched_update; [done|auto]. }
  apply wp_bind. eapply wp_modify_core; [done..|]. intros s5 Hr5.
  assert (Hok5 : kernel_ok alg (a_core (set_irq_enabled true) a4)).
  { destruct Hok4. split; [|done]. apply kinv_core; try done; by apply ko_inv0. }
  apply wp_bind. eapply wp_mono; [apply wp__schedule; [done|exact Hr5|]|].
  - apply kernel_ok_decidable; [done|]. unfold settled.
    change (0 ≤ counter_of a4 (current a3)). unfold a4. rewrite counter_of_update, decide_True, Hp by done.
    cbn. lia.
  - intros [] s6 (Hr6 & Hds6 & Hrun6). eapply wp_modify_core; [exact Hr6|done..|].
    intros s7 Hr7. apply HQ; [done| |intros _; by left].
    destruct Hds6 as [Hi6 Hun6 _]. split; [|done].
    apply kinv_core; try done; apply Hi6.
Qed.
End tick.
