(* ===== verification/SchedChoice.v ===== *)
(** * Which process a scheduling decision dispatches

    The choice of each algorithm in terms of the state before the decision: the
    processes on offer, in the order of the queues, and those of them that no pending
    signal keeps from running. *)
From S2P Require Import Prelude.
From S2P Require Import Process.
From S2P Require Import ReadyQueue.
From S2P Require Import Scheduler.
From S2P Require Import SchedSpec.
From S2P Require Import SchedInv.
From S2P Require Import SchedDispatch.
From S2P Require Import SchedPick.
From S2P Require Import SchedAging.
From S2P Require Import SchedLottery.
From S2P Require Import SchedTick.
Local Open Scope Z_scope.

(** The first of the selected elements of a sorted list is the least of them. *)
Lemma sorted_filter_head {A} (R : relation A) (P : A → Prop) `{!∀ x, Decision (P x)} l p :
  (∀ x, R x x) → Sorted.StronglySorted R l → p ∈ filter P l →
  ∃ q, head (filter P l) = Some q ∧ q ∈ filter P l ∧ R q p.
Proof.
  intros Hrefl. induction 1 as [|q l Hs IH Hq]; intros Hp; [by apply elem_of_nil in Hp|].
  rewrite filter_cons in Hp |- *. case_decide as HP; [|by apply IH].
  exists q. split; [done|]. split; [left|]. apply elem_of_cons in Hp as [->|Hp]; [done|].
  apply list_elem_of_filter in Hp as [_ Hp]. rewrite Forall_forall in Hq. by apply Hq.
Qed.

(** The outgoing process competes again when it is still RUNNING. *)
Definition still_running (a : astate) : bool :=
  bool_decide (current a ≠ InitProcess) && bool_decide (state_of a (current a) = PROCESS_RUNNING).
(** The ready list of the FIFO algorithms and of SJF with the outgoing process in it. *)
Definition offered (alg : SchedAlgorithm) (a : astate) : list pcb_ptr :=
  let l := queues a ReadyQueue in
  if still_running a then
    match enqueue alg with
    | EnqueueSjf => insert_by (burst_of (core a)) (current a) l
    | _ => l ++ [current a]
    end
  else l.
(** The queue of level [q], likewise. *)
Definition offered_at (a : astate) (q : Z) : list pcb_ptr :=
  queues a (MlQueue q) ++ (if still_running a && (level_of a (current a) =? q) then [current a] else []).
(** Those a decision may dispatch, in order. *)
Definition runnable (a : astate) (l : list pcb_ptr) : list pcb_ptr :=
  filter (λ p, dispatchable_at a p = true) l.

Section choice.
Context {alg : SchedAlgorithm}.
Implicit Types (a : astate) (p : pcb_ptr) (l : list pcb_ptr).

Lemma enter_cases a :
  a_enter alg a = if still_running a then a_put (enqueue alg) (current a) (a_preempt 1 a) else a_preempt 1 a.
Proof.
  unfold a_enter, a_requeue, still_running. rewrite preempt_state. done.
Qed.
Lemma preempt_pcb d a p :
  pcb_at (a_preempt d a) p =
  if decide (current a = p) then (λ pcb, set_preempt_disabled (preempt_disabled pcb + d) pcb) <$> pcb_at a p
  else pcb_at a p.
Proof. apply pcb_at_update. Qed.

(** Entering a decision changes no field the choice looks at. *)
Lemma enter_field {B} (g : PCB → B) a p :
  (∀ pcb v, g (set_preempt_disabled v pcb) = g pcb) → (∀ pcb v, g (set_state v pcb) = g pcb) →
  g <$> pcb_at (a_enter alg a) p = g <$> pcb_at a p.
Proof.
  intros H1 H2. assert (Hp : g <$> pcb_at (a_preempt 1 a) p = g <$> pcb_at a p).
  { rewrite preempt_pcb. case_decide; [|done]. destruct (pcb_at a p); cbn; [by rewrite H1|done]. }
  rewrite enter_cases. destruct (still_running a); [|done]. rewrite <- Hp.
  unfold pcb_at. rewrite put_core. change (heap (core (a_update (current a) (set_state PROCESS_READY) (a_preempt 1 a))) !! p)
    with (pcb_at (a_update (current a) (set_state PROCESS_READY) (a_preempt 1 a)) p).
  rewrite pcb_at_update. change (heap (core (a_preempt 1 a)) !! p) with (pcb_at (a_preempt 1 a) p).
  case_decide; [|done]. destruct (pcb_at (a_preempt 1 a) p); cbn; [by rewrite H2|done].
Qed.
Lemma from_option_fmap {A B} (g : A → B) (d : B) (o o' : option A) :
  g <$> o = g <$> o' → from_option g d o = from_option g d o'.
Proof. destruct o, o'; cbn; congruence. Qed.

Lemma enter_dispatchable a p : dispatchable_at (a_enter alg a) p = dispatchable_at a p.
Proof. apply from_option_fmap, enter_field; done. Qed.
Lemma enter_counter a p : counter_of (a_enter alg a) p = counter_of a p.
Proof. apply from_option_fmap, enter_field; done. Qed.
Lemma enter_priority a p : priority_of (a_enter alg a) p = priority_of a p.
Proof. apply from_option_fmap, enter_field; done. Qed.
Lemma enter_tickets a p : tickets_at (a_enter alg a) p = tickets_at a p.
Proof. apply from_option_fmap, enter_field; done. Qed.
Lemma preempt_burst d a p : burst_of (core (a_preempt d a)) p = burst_of (core a) p.
Proof.
  unfold burst_of. apply from_option_fmap. change (est_burst <$> pcb_at (a_preempt d a) p = est_burst <$> pcb_at a p).
  rewrite preempt_pcb. case_decide; [|done]. by destruct (pcb_at a p).
Qed.

Lemma enter_ready a :
  enqueue alg ≠ EnqueueMultilevel → queues (a_enter alg a) ReadyQueue = offered alg a.
Proof.
  intros He. rewrite enter_cases. unfold offered. destruct (still_running a); [|done].
  destruct (enqueue alg); [done| |done].
  unfold a_put, a_enqueue_sorted. change (queues (a_update ?p ?f ?x)) with (queues x).
  rewrite queues_set_queue. change (queues (a_preempt 1 a)) with (queues a).
  apply insert_by_ext; intros; apply preempt_burst.
Qed.
Lemma preempt_level d a p : level_of (a_preempt d a) p = level_of a p.
Proof.
  unfold level_of. rewrite preempt_pcb. change (queue_level (core (a_preempt d a))) with (queue_level (core a)).
  case_decide; [|done]. by destruct (pcb_at a p).
Qed.
Lemma enter_level a q :
  enqueue alg = EnqueueMultilevel → queues (a_enter alg a) (MlQueue q) = offered_at a q.
Proof.
  intros He. rewrite enter_cases. unfold offered_at. destruct (still_running a); [|by rewrite app_nil_r].
  rewrite He. unfold a_put, a_enqueue. change (queues (a_update ?p ?f ?x)) with (queues x).
  rewrite preempt_level. change (current (a_preempt 1 a)) with (current a).
  cbn [andb]. destruct (Z.eqb_spec (level_of a (current a)) q) as [->|Hne].
  - by rewrite queues_set_queue.
  - rewrite queues_set_queue_ne by congruence. by rewrite app_nil_r.
Qed.

(** [a_take_ready] finds the first runnable process. *)
Lemma take_ready_choice q l a :
  queue_ready a l → NoDup l → queues a q = l → (a_take_ready q l a).1 = head (runnable a l).
Proof.
  intros Hr Hn Hq. pose proof (take_ready_first q l a Hr Hn Hq) as H. cbn zeta in H. unfold runnable.
  destruct ((a_take_ready q l a).1) as [p|].
  - destruct H as (l1 & l2 & -> & Hd & H1 & _). rewrite filter_app, filter_none, filter_cons, decide_True; [done|done|].
    intros x Hx. rewrite Forall_forall in H1. by rewrite H1.
  - destruct H as [H _]. rewrite filter_none; [done|]. intros x Hx. rewrite Forall_forall in H. by rewrite H.
Qed.
Lemma runnable_ext a a' l : (∀ p, dispatchable_at a' p = dispatchable_at a p) → runnable a' l = runnable a l.
Proof. intros H. apply filter_ext_in. intros p _. by rewrite H. Qed.
End choice.

Section leave_frame.
Context {alg : SchedAlgorithm}.
Implicit Types (a : astate) (p : pcb_ptr) (l : list pcb_ptr).

Lemma leave_current r a : current (a_leave r a) = default InitProcess r.
Proof. unfold a_leave. change (current (a_preempt (-1) ?x)) with (current x). apply switch_current. Qed.
Lemma leave_counter r a p : counter_of (a_leave r a) p = counter_of a p.
Proof. unfold a_leave. by rewrite preempt_counter, switch_counter. Qed.
Lemma set_counter_counter p v a pcb :
  pcb_at a p = Some pcb → counter_of (a_update p (set_counter v) a) p = v.
Proof. intros Hp. unfold counter_of. by rewrite (pcb_at_update_eq _ _ _ _ Hp). Qed.

(** Taking from a queue touches the processes of that queue only. *)
Lemma take_ready_frame q l a p :
  p ∉ l → pcb_at (a_take_ready q l a).2 p = pcb_at a p.
Proof.
  revert a. induction l as [|p' l IH]; intros a Hp; [done|]. cbn zeta. cbn [a_take_ready].
  apply not_elem_of_cons in Hp as [Hne Hp].
  assert (H : pcb_at (a_signals p' (a_set_queue q l a)) p = pcb_at a p).
  { unfold a_signals. rewrite pcb_at_update_ne by done. apply pcb_at_set_queue. }
  case_decide; [exact H|]. by rewrite IH.
Qed.
Lemma take_ready_queues q q' l a : q' ≠ q → queues (a_take_ready q l a).2 q' = queues a q'.
Proof.
  intros Hq. revert a. induction l as [|p l IH]; intros a; [done|]. cbn [a_take_ready]. cbn zeta.
  assert (H : queues (a_signals p (a_set_queue q l a)) q' = queues a q') by by apply queues_set_queue_ne.
  case_decide; [exact H|]. by rewrite IH.
Qed.

(** The first runnable process of the first level that has one. *)
Definition by_level (a : astate) (levels : list Z) (f : Z → list pcb_ptr) : list (pcb_ptr * Z) :=
  levels ≫= λ q, (λ p, (p, q)) <$> runnable a (f q).
Lemma by_level_ext a a' levels f :
  (∀ q p, q ∈ levels → p ∈ f q → dispatchable_at a' p = dispatchable_at a p) →
  by_level a' levels f = by_level a levels f.
Proof.
  intros H. unfold by_level. induction levels as [|q levels IH]; [done|]. cbn. f_equal.
  - f_equal. apply filter_ext_in. intros p Hp. rewrite (H q p); [done|left|done].
  - apply IH. intros q' p Hq. apply H. by right.
Qed.
Lemma by_level_queues a levels f g :
  (∀ q, q ∈ levels → f q = g q) → by_level a levels f = by_level a levels g.
Proof.
  intros H. unfold by_level. induction levels as [|q levels IH]; [done|]. cbn.
  rewrite H by left. f_equal. apply IH. intros q' Hq. apply H. by right.
Qed.
Lemma cascade_choice levels a :
  NoDup levels →
  (∀ q, q ∈ levels → queue_ready a (queues a (MlQueue q)) ∧ NoDup (queues a (MlQueue q))) →
  (∀ q1 q2 p, q1 ∈ levels → q2 ∈ levels → p ∈ queues a (MlQueue q1) → p ∈ queues a (MlQueue q2) → q1 = q2) →
  (a_cascade levels a).1 = head (by_level a levels (λ q, queues a (MlQueue q))).
Proof.
  revert a. induction levels as [|q levels IH]; intros a Hnd Hq Hdis; [done|].
  apply NoDup_cons in Hnd as [Hnin Hnd]. destruct (Hq q ltac:(left)) as [Hr Hn].
  pose proof (take_ready_choice (MlQueue q) _ a Hr Hn eq_refl) as Hc.
  cbn [a_cascade]. cbn zeta. unfold by_level. cbn [mbind list_bind]. fold (by_level a levels (λ q, queues a (MlQueue q))).
  destruct (runnable a (queues a (MlQueue q))) as [|p l]; cbn in Hc; rewrite Hc; [|done].
  cbn. set (a1 := (a_take_ready _ _ _).2).
  assert (Hqs : ∀ q', q' ∈ levels → queues a1 (MlQueue q') = queues a (MlQueue q')).
  { intros q' Hin. apply take_ready_queues. intros [= ->]. done. }
  assert (Hpcb : ∀ q' p, q' ∈ levels → p ∈ queues a (MlQueue q') → pcb_at a1 p = pcb_at a p).
  { intros q' p Hin Hp. apply take_ready_frame. intros Hp'. apply Hnin.
    rewrite (Hdis q q' p); [done|left|by right|done|done]. }
  rewrite IH; [|done| |].
  - f_equal. transitivity (by_level a levels (λ q, queues a1 (MlQueue q))).
    + apply by_level_ext. intros q' p Hin Hp. rewrite Hqs in Hp by done. unfold dispatchable_at. by rewrite (Hpcb q').
    + by apply by_level_queues.
  - intros q' Hin. rewrite Hqs by done. destruct (Hq q' ltac:(by right)) as [Hr' Hn']. split; [|done].
    intros p Hp. unfold state_of, allocated. pose proof (Hpcb q' p Hin Hp) as E. unfold pcb_at in *. rewrite E.
    by apply Hr'.
  - intros q1 q2 p H1 H2. rewrite !Hqs by done. apply Hdis; by right.
Qed.
End leave_frame.

Section decisions.
Context {alg : SchedAlgorithm}.
Implicit Types (a : astate) (p : pcb_ptr).

Lemma offered_facts q a :
  decidable_state alg a → valid_queue q →
  queue_ready (a_enter alg a) (queues (a_enter alg a) q) ∧ NoDup (queues (a_enter alg a) q).
Proof.
  intros Hds Hq. pose proof (pk_inv _ _ _ (enter_picking _ Hds)) as Hi.
  split; [by eapply queued_ready|by apply (inv_nodup _ _ _ Hi)].
Qed.
(** The pick of round robin, FCFS and SJF. *)
Lemma ready_choice a :
  enqueue alg ≠ EnqueueMultilevel → decidable_state alg a →
  let a1 := a_enter alg a in
  (a_take_ready ReadyQueue (queues a1 ReadyQueue) a1).1 = head (runnable a (offered alg a)).
Proof.
  intros He Hds. destruct (offered_facts ReadyQueue a Hds I) as [Hr Hn]. cbn zeta.
  rewrite take_ready_choice, enter_ready by done. f_equal. apply runnable_ext. apply enter_dispatchable.
Qed.
Lemma level_choice levels a :
  enqueue alg = EnqueueMultilevel → decidable_state alg a → NoDup levels →
  Forall (λ q, valid_queue (MlQueue q)) levels →
  (a_cascade levels (a_enter alg a)).1 = head (by_level a levels (offered_at a)).
Proof.
  intros He Hds Hnd Hv. rewrite Forall_forall in Hv.
  pose proof (pk_inv _ _ _ (enter_picking _ Hds)) as Hi. rewrite cascade_choice; [|done| |].
  - f_equal. rewrite (by_level_queues _ _ _ (offered_at a)) by (intros; by apply enter_level).
    apply by_level_ext. intros. apply enter_dispatchable.
  - intros q Hq. apply offered_facts; [done|by apply Hv].
  - intros q1 q2 p H1 H2 Hp1 Hp2.
    assert (MlQueue q1 = MlQueue q2) by (eapply (inv_disjoint _ _ _ Hi); [by apply Hv|by apply Hv|done|done]).
    congruence.
Qed.

Lemma leave_pcb r a p : is_Some (pcb_at (a_leave r a) p) → is_Some (pcb_at a p).
Proof.
  unfold a_leave. rewrite preempt_pcb, switch_pcb. destruct (pcb_at a p) as [x|]; [by exists x|].
  case_decide; by intros [].
Qed.
(** A recharged process has its slice when it gets the CPU. *)
Lemma recharged_counter (f : astate → astate) a a1 s' p v :
  decides (alg:=alg) f a s' → f a = a_leave (Some p) (a_update p (set_counter v) a1) →
  counter_of (f a) p = v.
Proof.
  intros (_ & Hds & _) E. pose proof (inv_current _ _ _ (ds_inv _ _ Hds)) as Hreg.
  destruct (registered_pcb _ _ _ (ds_inv _ _ Hds) Hreg) as (pcb & Hp & _).
  rewrite E, leave_current in Hp. change (default InitProcess (Some p)) with p in Hp. destruct (leave_pcb _ _ _ (mk_is_Some _ _ Hp)) as [x Hx].
  rewrite pcb_at_update in Hx. rewrite decide_True in Hx by done.
  destruct (pcb_at a1 p) as [y|] eqn:Hy; [|done]. rewrite E, leave_counter.
  by eapply set_counter_counter.
Qed.

(** The current process of the state a decision ends in. *)
Lemma decides_current f a s' : decides (alg:=alg) f a s' → current_process s' = current (f a).
Proof. intros (Hr & _). by apply rep_current. Qed.
End decisions.

(** The slice of a process in the kernel. *)
Definition slice_now (s : kernel) (p : pcb_ptr) : option Z := counter <$> heap s !! p.
Lemma rep_slice s a p pcb : rep s a → pcb_at a p = Some pcb → slice_now s p = Some (counter_of a p).
Proof.
  intros Hr Hp. destruct (rep_lookup _ _ _ _ Hr Hp) as (v & Hv & _). unfold slice_now, counter_of.
  by rewrite Hv, Hp.
Qed.
(** [next] gets the CPU, RUNNING, with the slice [v] if one is given. *)
Record gets_cpu (next : option pcb_ptr) (v : option Z) (s' : kernel) : Prop := {
  gc_current : current_process s' = default InitProcess next;
  gc_state : state <$> heap s' !! current_process s' = Some PROCESS_RUNNING;
  gc_slice : ∀ p z, next = Some p → v = Some z → slice_now s' p = Some z
}.

Lemma decides_gets_cpu alg (f : astate → astate) a s' next v :
  decides (alg:=alg) f a s' → current (f a) = default InitProcess next →
  (∀ p z, next = Some p → v = Some z → counter_of (f a) p = z) → gets_cpu next v s'.
Proof.
  intros (Hr & Hds & Hrun) Hc Hv. pose proof (rep_current _ _ Hr) as Hcur.
  destruct (registered_pcb _ _ _ (ds_inv _ _ Hds) (inv_current _ _ _ (ds_inv _ _ Hds))) as (pcb & Hp & _).
  split.
  - by rewrite Hcur.
  - rewrite Hcur. destruct (rep_lookup _ _ _ _ Hr Hp) as (x & Hx & _). rewrite Hx. cbn. f_equal.
    unfold state_of in Hrun. by rewrite Hp in Hrun.
  - intros p z Hn Hz. rewrite Hn in Hc. cbn in Hc. rewrite Hc in Hp.
    rewrite (rep_slice _ _ _ _ Hr Hp). f_equal. by apply Hv.
Qed.

(** ** The drawn ticket *)
Lemma holder_ext f g : (∀ p, f p = g p) → ∀ l w, holder f w l = holder g w l.
Proof. intros H l. induction l as [|p l IH]; intros w; [done|]. cbn. by rewrite H, IH. Qed.
Lemma total_ext f g : (∀ p, f p = g p) → ∀ l, total f l = total g l.
Proof. intros H l. unfold total. induction l as [|p l IH]; [done|]. cbn. by rewrite H, IH. Qed.
Lemma winner_ready a c :
  queue_ready a (queues a ReadyQueue) → c ∈ queues a ReadyQueue → dispatchable_at a c = true →
  state_of (a_signals c (a_extract (Some c) (a_random a).2)) c = PROCESS_READY.
Proof.
  intros Hr Hc Hd. destruct (Hr c Hc) as [Hs Ha]. by apply (dispatchable_state (a_extract (Some c) (a_random a).2)).
Qed.
