(* ===== verification/SchedOps.v ===== *)
(** * Kernel operations on the scheduler

    [schedule], process registration, wake-up, exit and [sched_set_param] of
    src/libs/scheduler.c on the abstract state: each is refined to an abstract
    operation that keeps [kernel_ok]. *)
From S2P Require Import Prelude.
From S2P Require Import Process.
From S2P Require Import ReadyQueue.
From S2P Require Import Scheduler.
From S2P Require Import SchedSpec.
From S2P Require Import SchedInv.
From S2P Require Import SchedDispatch.
From S2P Require Import SchedPick.
From S2P Require Import SchedAging.
From S2P Require Import SchedLottery.
From S2P Require Import SchedTick.
Local Open Scope Z_scope.

(** ** Waking a process up *)
Definition a_insert (alg : SchedAlgorithm) (p : pcb_ptr) (a : astate) : astate :=
  match p with InitProcess => a | _ => a_put (enqueue alg) p a end.

Section wake.
Context {alg : SchedAlgorithm}.
Implicit Types (a : astate) (p : pcb_ptr).

Lemma kinv_init_hole a : kinv alg (Some InitProcess) a → kinv alg None a.
Proof.
  intros Hi. kinv_split Hi. intros p Hr Hne Hs.
  destruct (inv_ready _ _ _ Hi p Hr Hne Hs) as [Hx|?]; [congruence|by right].
Qed.

(** [enqueue_process] on a READY process that is in no queue. *)
Lemma wp_enqueue_process p (Q : unit → kernel → Prop) s a :
  rep s a → kinv alg (Some p) a → registered a p → unqueued a p →
  (∀ s', rep s' (a_insert alg p a) → kinv alg None (a_insert alg p a) → Q tt s') →
  wp (enqueue_process alg (Some p)) Q s.
Proof.
  intros Hr Hi Hreg Hun HQ. destruct p as [|addr]; cbn [enqueue_process a_insert] in *.
  - apply wp_ret, HQ; [done|]. by apply kinv_init_hole.
  - assert (Hins : insertable a (KernelPage addr)) by done.
    eapply wp_run_enqueue; [done|done|done|]. intros s' Hr'. apply HQ; [done|].
    eapply kinv_put; [done|done|]. intros x [= <-]. by left.
Qed.

Lemma insert_frame p a p' :
  current (a_insert alg p a) = current a ∧
  processes (core (a_insert alg p a)) = processes (core a) ∧
  n_processes (core (a_insert alg p a)) = n_processes (core a) ∧
  (unqueued a p' → p' ≠ p → unqueued (a_insert alg p a) p') ∧
  (p' ≠ p → pcb_at (a_insert alg p a) p' = pcb_at a p').
Proof.
  destruct p as [|addr]; cbn [a_insert]; [done|].
  set (p := KernelPage addr). rewrite put_current.
  assert (Hc := put_core (enqueue alg) p a).
  split_and!; [done|by rewrite Hc|by rewrite Hc| |].
  - intros Hun Hne q Hq. specialize (Hun q Hq).
    destruct (enqueue alg); cbn; unfold upd_queue; case_decide as Heq; try done; subst q;
      rewrite ?(insert_by_perm _ p); set_solver.
  - intros Hne. unfold pcb_at at 1. rewrite Hc. by apply (pcb_at_update_ne a p).
Qed.

(** A blocked process is made READY by [f] and queued. *)
Definition a_wake (f : PCB → PCB) (p : pcb_ptr) (a : astate) : astate :=
  a_insert alg p (a_update p f a).
Definition wakes (f : PCB → PCB) : Prop :=
  link_free f ∧ keeps_identity f ∧ keeps_counter f ∧ ∀ pcb, state (f pcb) = PROCESS_READY.

Lemma wake_hole f p a :
  kinv alg None a → wakes f → registered a p → unqueued a p →
  kinv alg (Some p) (a_update p f a).
Proof.
  intros Hi (_ & Hid & Hct & Hst) Hreg Hun.
  apply (kinv_update_state None _ _ _ _ PROCESS_READY); auto; by intros.
Qed.
End wake.

(** ** [schedule] *)
Definition blocked (a : astate) : bool :=
  bool_decide (current a ≠ InitProcess) && negb (state_of a (current a) =? PROCESS_RUNNING)
  && negb (state_of a (current a) =? PROCESS_READY).
Definition a_schedule (alg : SchedAlgorithm) (a : astate) : astate :=
  let a1 := if blocked a then a_update (current a) end_of_burst a else a in
  a_decide alg (a_update (current a) (set_counter 0) a1).

(** ** Waiters of an exiting process *)
Definition wake_waiting (pcb : PCB) : PCB := set_pid_to_wait (-1) (set_state PROCESS_READY pcb).
Definition waits_for (exiting : Z) (a : astate) (p : pcb_ptr) : bool :=
  bool_decide (state_of a p = PROCESS_WAITING_ANOTHER_PROCESS)
  && bool_decide (from_option pid_to_wait 0 (pcb_at a p) = exiting).
Definition a_wake_waiter (alg : SchedAlgorithm) (exiting : Z) (a : astate) (p : pcb_ptr) : astate :=
  if waits_for exiting a p then a_wake (alg:=alg) wake_waiting p a else a.
Definition a_wake_waiters (alg : SchedAlgorithm) (exiting : Z) (a : astate) : astate :=
  foldl (a_wake_waiter alg exiting) a (registered_list a).
Definition a_exit (alg : SchedAlgorithm) (a : astate) : astate :=
  let a1 := a_update (current a) (set_state PROCESS_ZOMBIE) (a_preempt 1 a) in
  let a2 := a_wake_waiters alg (from_option pid 0 (pcb_at a1 (current a1))) a1 in
  a_schedule alg (a_preempt (-1) a2).

Section operations.
Context {alg : SchedAlgorithm}.
Implicit Types (a : astate) (p : pcb_ptr).

Lemma end_of_burst_ok : link_free end_of_burst ∧ keeps_identity end_of_burst ∧
  ∀ pcb, state (end_of_burst pcb) = state pcb.
Proof. by split_and!; [intros ??|intros ?|]. Qed.

Lemma wp_schedule s a :
  alg_ok alg → rep s a → kernel_ok alg a →
  wp (schedule alg) (λ _, decides (alg:=alg) (a_schedule alg) a) s.
Proof.
  intros Hao Hr Hok. unfold schedule. destruct (current_pcb _ Hok) as (pcb & Hp & _).
  apply wp_bind, wp_gets. rewrite (rep_current _ _ Hr).
  apply wp_bind. eapply wp_load; [exact Hr|exact Hp|]. intros v.
  change (state (set_next_ready v pcb)) with (state pcb). apply wp_bind, wp_when.
  assert (Hs : state_of a (current a) = state pcb)
    by (unfold state_of; by rewrite Hp).
  destruct end_of_burst_ok as (Hl & Hid & Hst).
  assert (Hend : ∀ s1 a1 x, rep s1 a1 → kernel_ok alg a1 → current a1 = current a →
    pcb_at a1 (current a) = Some x →
    a_schedule alg a = a_decide alg (a_update (current a) (set_counter 0) a1) →
    wp (update (current a) (set_counter 0);; _schedule alg)
      (λ _, decides (alg:=alg) (a_schedule alg) a) s1).
  { intros s1 a1 x Hr1 Hok1 Hc1 Hx Heq. apply wp_bind.
    eapply wp_update; [exact Hr1|auto with kernel|exact Hx|]. intros s2 Hr2.
    unfold decides. rewrite Heq.
    apply wp__schedule; [done|exact Hr2|]. rewrite <- Hc1 in *.
    apply kernel_ok_decidable; [apply kernel_ok_update; [done|auto with kernel|done]|].
    unfold settled. change (current (a_update (current a1) (set_counter 0) a1)) with (current a1).
    rewrite counter_of_update, decide_True, Hx by done. cbn. lia. }
  assert (Hsch : a_schedule alg a = a_decide alg (a_update (current a) (set_counter 0)
    (if blocked a then a_update (current a) end_of_burst a else a))) by done.
  unfold blocked in Hsch. rewrite Hs in Hsch.
  destruct (bool_decide _ && _ && _).
  - eapply wp_update; [exact Hr|done|exact Hp|]. intros s1 Hr1.
    eapply Hend; [exact Hr1|by apply kernel_ok_update|done|by apply pcb_at_update_eq|exact Hsch].
  - by eapply Hend.
Qed.

(** Waking one waiter. *)
Lemma wp_wake_waiter exiting (i : nat) p (Q : unit → kernel → Prop) s a :
  rep s a → kernel_ok alg a → state_of a (current a) ≠ PROCESS_WAITING_ANOTHER_PROCESS →
  processes (core a) !! i = Some (Some p) →
  (∀ s', let a' := a_wake_waiter alg exiting a p in
     rep s' a' → kernel_ok alg a' → current a' = current a →
     state_of a' (current a) = state_of a (current a) →
     processes (core a') = processes (core a) → Q tt s') →
  wp (wake_waiter alg exiting (Z.of_nat i)) Q s.
Proof.
  intros Hr [Hi Hun] Hcur Hp HQ. destruct (inv_table _ _ _ Hi i p Hp) as (pcb & Hpcb & _).
  assert (Hreg : registered a p) by by eapply list_elem_of_lookup_2.
  unfold wake_waiter, get_process. apply wp_bind, wp_bind, wp_gets, wp_defined.
  exists (Some p). rewrite (rep_field processes s a) by done.
  split; [by rewrite arr_get_lookup, Nat2Z.id by lia|].
  apply wp_bind. eapply wp_load; [exact Hr|exact Hpcb|]. intros v. apply wp_when.
  change (state (set_next_ready v pcb)) with (state pcb).
  change (pid_to_wait (set_next_ready v pcb)) with (pid_to_wait pcb).
  assert (Hw : waits_for exiting a p =
    bool_decide (state pcb = PROCESS_WAITING_ANOTHER_PROCESS)
    && bool_decide (pid_to_wait pcb = exiting))
    by (unfold waits_for, state_of; by rewrite Hpcb).
  unfold a_wake_waiter in HQ. rewrite Hw in HQ. cbn zeta in HQ.
  destruct (bool_decide_reflect (state pcb = PROCESS_WAITING_ANOTHER_PROCESS)) as [Hst|Hst];
    cbn [andb] in *; [|by apply HQ].
  destruct (bool_decide_reflect (pid_to_wait pcb = exiting)); cbn [andb] in *; [|by apply HQ].
  assert (Hpc : p ≠ current a).
  { intros ->. apply Hcur. unfold state_of. by rewrite Hpcb. }
  assert (Hunp : unqueued a p).
  { eapply not_ready_unqueued; [exact Hi|]. unfold state_of. rewrite Hpcb. cbn. by rewrite Hst. }
  apply wp_bind. eapply wp_update; [exact Hr|auto with kernel|exact Hpcb|]. intros s1 Hr1.
  apply wp_bind. eapply wp_update; [exact Hr1|auto with kernel|by apply pcb_at_update_eq|].
  intros s2 Hr2. rewrite a_update_compose in Hr2.
  change (λ x, set_pid_to_wait (-1) (set_state PROCESS_READY x)) with wake_waiting in Hr2.
  assert (Hi2 : kinv alg (Some p) (a_update p wake_waiting a)).
  { apply wake_hole; try done. split_and!; auto with kernel. }
  eapply wp_enqueue_process; [exact Hr2|exact Hi2|done|done|]. intros s3 Hr3 Hi3.
  destruct (insert_frame (alg:=alg) p (a_update p wake_waiting a) (current a))
    as (Hc & Ht & _ & Hunc & Hpcbc).
  apply HQ; [exact Hr3|split; [exact Hi3|]|exact Hc| |exact Ht].
  - unfold a_wake. rewrite Hc. apply Hunc; [exact Hun|congruence].
  - unfold a_wake, state_of at 1. rewrite Hpcbc by congruence.
    rewrite pcb_at_update_ne by done. done.
Qed.
End operations.

Section exit.
Context {alg : SchedAlgorithm}.
Implicit Types (a : astate) (p : pcb_ptr).

(** The current process changes to a state it can be in off the queues. *)
Lemma kernel_ok_block f v a :
  kernel_ok alg a → keeps_identity f → (∀ pcb, state (f pcb) = v) → v ≠ PROCESS_READY →
  kernel_ok alg (a_update (current a) f a).
Proof.
  intros [Hi Hun] Hid Hst Hv. split; [|exact Hun].
  apply (kinv_update_state None _ _ _ _ v); auto; by intros.
Qed.
Lemma kernel_ok_preempt d a : kernel_ok alg a → kernel_ok alg (a_preempt d a).
Proof. intros Hok. apply kernel_ok_update; [done|auto with kernel|done]. Qed.

Lemma wp_wake_waiters exiting (Q : unit → kernel → Prop) s a :
  rep s a → kernel_ok alg a → state_of a (current a) ≠ PROCESS_WAITING_ANOTHER_PROCESS →
  (∀ s', let a' := a_wake_waiters alg exiting a in
     rep s' a' → kernel_ok alg a' → current a' = current a →
     state_of a' (current a) = state_of a (current a) → Q tt s') →
  wp (for_each process_slots (wake_waiter alg exiting)) Q s.
Proof.
  intros Hr Hok Hst HQ. pose proof Hok as [Hi _].
  pose proof (inv_slots _ _ _ Hi) as Hlen. unfold process_slots.
  set (tbl := processes (core a)) in *.
  set (A := λ n, foldl (a_wake_waiter alg exiting) a (omap id (take n tbl))).
  replace N_PROCESSES with (Z.of_nat (length tbl)) by (rewrite Hlen; unfold N_PROCESSES; lia).
  eapply wp_mono; [apply (wp_for_range (λ n s, rep s (A n) ∧ kernel_ok alg (A n) ∧
    current (A n) = current a ∧ state_of (A n) (current a) = state_of a (current a) ∧
    processes (core (A n)) = tbl))|].
  - unfold A. rewrite take_0. done.
  - intros i s1 Hi1 (Hr1 & Hok1 & Hc1 & Hs1 & Ht1).
    destruct (lookup_lt_is_Some_2 tbl i Hi1) as [o Ho].
    assert (Hsnoc : A (S i) = foldl (a_wake_waiter alg exiting) (A i) (omap id [o])).
    { unfold A. by rewrite (take_S_r _ _ _ Ho), omap_app, foldl_app. }
    rewrite Hsnoc. destruct o as [p|]; cbn [omap list_omap foldl id].
    + eapply (wp_wake_waiter (alg:=alg)); [exact Hr1|exact Hok1|by rewrite Hc1, Hs1|by rewrite Ht1|].
      intros s2 a2 Hr2 Hok2 Hc2 Hs2 Ht2. rewrite Hc1 in Hs2, Hc2. rewrite <- Hs1, <- Ht1. done.
    + unfold wake_waiter, get_process. apply wp_bind, wp_bind, wp_gets, wp_defined.
      exists None. rewrite (rep_field processes s1 (A i)) by done. rewrite Ht1.
      split; [by rewrite arr_get_lookup, Nat2Z.id by lia|]. done.
  - intros [] s1 (Hr1 & Hok1 & Hc1 & Hs1 & _). unfold A in *. rewrite firstn_all in *.
    by apply HQ.
Qed.

Lemma wp_exit_process s a :
  alg_ok alg → rep s a → kernel_ok alg a →
  wp (exit_process alg) (λ _, decides (alg:=alg) (a_exit alg) a) s.
Proof.
  intros Hao Hr Hok. unfold exit_process.
  destruct (current_pcb _ Hok) as (pcb & Hp & _). apply wp_bind.
  eapply wp_preempt_disable; [exact Hr|exact Hp|]. intros s1 Hr1.
  pose proof (kernel_ok_preempt 1 _ Hok) as Hok1. set (a1 := a_preempt 1 a) in *.
  assert (Hp1 : pcb_at a1 (current a1) = Some (set_preempt_disabled (preempt_disabled pcb + 1) pcb))
    by exact (pcb_at_update_eq a (current a) (λ x, set_preempt_disabled (preempt_disabled x + 1) x) pcb Hp).
  apply wp_bind. eapply wp_update_current; [exact Hr1|auto with kernel|exact Hp1|]. intros s2 Hr2.
  set (a2 := a_update (current a1) (set_state PROCESS_ZOMBIE) a1) in *.
  assert (Hok2 : kernel_ok alg a2)
    by by apply (kernel_ok_block _ PROCESS_ZOMBIE); [|auto with kernel|..].
  destruct (current_pcb _ Hok2) as (x & Hx & _).
  unfold load_current. apply wp_bind, wp_bind, wp_gets. rewrite (rep_current _ _ Hr2).
  eapply wp_load; [exact Hr2|exact Hx|]. intros v.
  change (pid (set_next_ready v x)) with (pid x). apply wp_bind.
  eapply wp_wake_waiters; [exact Hr2|exact Hok2| |].
  { change (current a2) with (current a1). unfold a2, state_of.
    rewrite pcb_at_update, decide_True, Hp1 by done. done. }
  intros s3 a3 Hr3 Hok3 Hc3 _. apply wp_bind.
  destruct (current_pcb _ Hok3) as (y & Hy & _).
  eapply wp_preempt_enable; [exact Hr3|exact Hy|]. intros s4 Hr4.
  assert (Hex : a_exit alg a = a_schedule alg (a_preempt (-1) a3)).
  { assert (Hpidx : from_option pid 0 (pcb_at a2 (current a2)) = pid x) by by rewrite Hx.
    unfold a3. by rewrite <- Hpidx. }
  unfold decides. rewrite Hex. apply wp_schedule; [done|exact Hr4|by apply kernel_ok_preempt].
Qed.
End exit.

(** ** Registration *)
Definition a_trace (alg : SchedAlgorithm) (line : list Z) (a : astate) : astate :=
  match ml_policy alg with Some _ => a_output line a | None => a end.

Lemma wp_trace_if_multilevel alg before n between level (Q : unit → kernel → Prop) s a :
  rep s a →
  (∀ s', rep s' (a_trace alg (trace_line before n between level) a) → Q tt s') →
  wp (trace_if_multilevel alg (ml_trace before n between level)) Q s.
Proof.
  unfold trace_if_multilevel, a_trace. intros Hr HQ.
  destruct (ml_policy alg); [by eapply wp_ml_trace|by apply wp_ret, HQ].
Qed.
Lemma kinv_trace alg hole line a : kinv alg hole a → kinv alg hole (a_trace alg line a).
Proof. unfold a_trace. destruct (ml_policy alg); [apply kinv_output|done]. Qed.
Lemma trace_frame alg line a :
  current (a_trace alg line a) = current a ∧ queues (a_trace alg line a) = queues a ∧
  heap (core (a_trace alg line a)) = heap (core a) ∧
  processes (core (a_trace alg line a)) = processes (core a) ∧
  n_processes (core (a_trace alg line a)) = n_processes (core a).
Proof. unfold a_trace. by destruct (ml_policy alg). Qed.

Definition a_register (alg : SchedAlgorithm) (p : pcb_ptr) (a : astate) : astate :=
  let pcb := default zero_PCB (pcb_at a p) in
  let level := clamp_start_level alg (queue_priority pcb) in
  let a1 := a_core (λ k, set_processes (<[Z.to_nat (pid pcb) := Some p]> (processes k)) k) a in
  let a2 := a_set_level (pid pcb) level a1 in
  let a3 := a_trace alg (trace_line level_text (pid pcb) start_text level) a2 in
  let a4 := if decide (state pcb = PROCESS_READY) then a_insert alg p a3 else a3 in
  a_core (λ k, set_n_processes (n_processes k + 1) k) a4.

(** A new process that may be registered. *)
Record registrable (a : astate) (p : pcb_ptr) (pcb : PCB) : Prop := {
  rg_pcb : pcb_at a p = Some pcb;
  rg_init : p ≠ InitProcess;
  rg_new : ¬ registered a p;
  rg_unqueued : unqueued a p;
  rg_pid : 0 ≤ pid pcb < N_PROCESSES;
  rg_slot : processes (core a) !! Z.to_nat (pid pcb) = Some None;
  rg_priority : 1 ≤ priority pcb;
  rg_counter : 0 ≤ counter pcb;
  rg_state : state pcb ≠ PROCESS_RUNNING
}.

Section register.
Context {alg : SchedAlgorithm}.
Implicit Types (a : astate) (p : pcb_ptr).

Lemma clamp_start_level_range l :
  alg_ok alg → level_in_range (clamp_start_level alg l).
Proof.
  intros (_ & _ & Hpol). unfold clamp_start_level, level_in_range, ML_MAX_LEVELS.
  destruct (ml_policy alg) as [policy|].
  - destruct (Hpol policy eq_refl) as [(Hn & _) Hpos]. unfold ML_MAX_LEVELS in *.
    repeat case_match; lia.
  - repeat case_match; lia.
Qed.

(** The table entry is written: the process is READY in no queue yet. *)
Lemma kinv_register a p pcb :
  kinv alg None a → registrable a p pcb →
  kinv alg (Some p) (a_core (λ k, set_processes (<[Z.to_nat (pid pcb) := Some p]> (processes k)) k) a).
Proof.
  intros Hi [Hp Hne Hnew Hun Hpid Hslot Hprio Hct Hst].
  set (i := Z.to_nat (pid pcb)) in *. set (a' := a_core _ a).
  pose proof (lookup_lt_Some _ _ _ Hslot) as Hlt.
  assert (Hreg : ∀ p', registered a' p' ↔ p' = p ∨ registered a p').
  { intros p'. unfold registered. cbn. split.
    - intros [j Hj]%list_elem_of_lookup. destruct (decide (j = i)) as [->|Hji].
      + rewrite list_lookup_insert_eq in Hj by done. left. congruence.
      + rewrite list_lookup_insert_ne in Hj by done. right. by eapply list_elem_of_lookup_2.
    - intros [->|[j Hj]%list_elem_of_lookup].
      + eapply (list_elem_of_lookup_2 _ i). by apply list_lookup_insert_eq.
      + eapply (list_elem_of_lookup_2 _ j). rewrite list_lookup_insert_ne; [done|].
        intros <-. congruence. }
  split.
  - unfold a'; cbn. rewrite length_insert. apply Hi.
  - apply Hi.
  - apply Hi.
  - apply Hreg. right. apply Hi.
  - apply Hreg. right. apply Hi.
  - intros j p' Hj. unfold a' in Hj; cbn in Hj. destruct (decide (j = i)) as [->|Hji].
    + rewrite list_lookup_insert_eq in Hj by done. injection Hj as <-.
      exists pcb. split; [done|]. split; [|done]. unfold i. lia.
    + rewrite list_lookup_insert_ne in Hj by done. by apply (inv_table _ _ _ Hi).
  - intros p' [->|Hr]%Hreg Hc.
    + change (0 ≤ counter_of a p). unfold counter_of. by rewrite Hp.
    + by apply (inv_counter _ _ _ Hi).
  - intros q p' Hq Hp'. destruct (inv_queued _ _ _ Hi q p' Hq Hp') as (? & ? & ? & ?).
    split_and!; [done|done| |done]. apply Hreg. by right.
  - intros p' [->|Hr]%Hreg Hn Hs; [by left|].
    destruct (inv_ready _ _ _ Hi p' Hr Hn Hs) as [?|?]; [done|by right].
  - intros p' [->|Hr]%Hreg Hs; [|by apply (inv_running _ _ _ Hi)].
    exfalso. apply Hst. change (state_of a p = PROCESS_RUNNING) in Hs.
    unfold state_of in Hs. by rewrite Hp in Hs.
  - apply Hi.
  - apply Hi.
Qed.

(** A process that is not READY leaves no hole. *)
Lemma kinv_fill p a :
  kinv alg (Some p) a → state_of a p ≠ PROCESS_READY → kinv alg None a.
Proof.
  intros Hi Hst. kinv_split Hi. intros p' Hr Hne Hs.
  destruct (inv_ready _ _ _ Hi p' Hr Hne Hs) as [Hx|?]; [congruence|by right].
Qed.

Lemma wp_add_process_to_scheduler p pcb (Q : Z → kernel → Prop) s a :
  alg_ok alg → rep s a → kernel_ok alg a → registrable a p pcb →
  n_processes (core a) < N_PROCESSES →
  (∀ s', rep s' (a_register alg p a) → kernel_ok alg (a_register alg p a) → Q 0 s') →
  wp (add_process_to_scheduler alg p) Q s.
Proof.
  intros Hao Hr [Hi Hun] Hrg Hn HQ. pose proof Hrg as [Hp Hne Hnew Hunp Hpid Hslot _ _ _].
  unfold add_process_to_scheduler. apply wp_bind, wp_gets.
  rewrite (rep_field n_processes s a) by done. apply wp_bind.
  eapply wp_load; [exact Hr|exact Hp|]. intros v.
  change (pid (set_next_ready v pcb)) with (pid pcb).
  change (queue_priority (set_next_ready v pcb)) with (queue_priority pcb).
  change (state (set_next_ready v pcb)) with (state pcb).
  destruct (Z.leb_spec N_PROCESSES (n_processes (core a))); [lia|].
  destruct (Z.leb_spec N_PROCESSES (pid pcb)); [lia|]. cbn [orb].
  pose proof (kinv_register _ _ _ Hi Hrg) as Hi1.
  unfold a_register in HQ. rewrite Hp in HQ. cbn [default] in HQ. cbn zeta in HQ.
  set (a1 := a_core _ a) in *. set (level := clamp_start_level alg (queue_priority pcb)) in *.
  apply wp_bind. unfold set_process. apply wp_bind, wp_gets, wp_bind, wp_defined.
  rewrite (rep_field processes s a) by done.
  exists (<[Z.to_nat (pid pcb) := Some p]> (processes (core a))). split.
  { apply arr_set_in. rewrite (inv_slots _ _ _ Hi). unfold N_PROCESSES in *. lia. }
  eapply wp_modify_core; [done..|]. intros s1 Hr1. apply wp_bind.
  eapply wp_set_queue_level_at; [exact Hr1| |].
  { cbn. rewrite (inv_levels_length _ _ _ Hi). unfold N_PROCESSES in *. lia. }
  intros s2 Hr2'. set (a2 := a_set_level (pid pcb) level a1) in *.
  assert (Hr2 : rep s2 a2) by exact Hr2'. clear Hr2'.
  assert (Hi2 : kinv alg (Some p) a2)
    by by apply kinv_set_level, clamp_start_level_range.
  apply wp_bind. eapply wp_trace_if_multilevel; [exact Hr2|]. intros s3 Hr3.
  set (a3 := a_trace alg _ a2) in *. assert (Hi3 : kinv alg (Some p) a3) by by apply kinv_trace.
  destruct (trace_frame alg (trace_line level_text (pid pcb) start_text level) a2)
    as (Hcur3 & Hq3 & Hh3 & Ht3 & _). fold a3 in Hcur3, Hq3, Hh3, Ht3.
  change (current a2) with (current a) in Hcur3.
  assert (Hpcb3 : pcb_at a3 p = Some pcb) by (unfold pcb_at; by rewrite Hh3).
  assert (Hun3 : ∀ p', unqueued a p' → unqueued a3 p')
    by (intros p' Hu q Hq; rewrite Hq3; by apply (Hu q)).
  assert (Hpc : current a ≠ p).
  { intros <-. apply Hnew, (inv_current _ _ _ Hi). }
  assert (Hend : ∀ s4 a4, rep s4 a4 → kinv alg None a4 → unqueued a4 (current a4) →
    (∀ s', let a5 := a_core (λ k, set_n_processes (n_processes k + 1) k) a4 in
       rep s' a5 → kernel_ok alg a5 → Q 0 s') →
    wp (modify (λ s, set_n_processes (n_processes s + 1) s);; mret 0) Q s4).
  { intros s4 a4 Hr4 Hi4 Hun4 HQ4. apply wp_bind. eapply wp_modify_core; [done..|].
    intros s5 Hr5. apply wp_ret, HQ4; [exact Hr5|]. split; [|done].
    apply kinv_core; try done; apply Hi4. }
  apply wp_bind, wp_when. case_bool_decide as Hst.
  - rewrite decide_True in HQ by done.
    assert (Hreg3 : registered a3 p).
    { unfold registered. rewrite Ht3.
      eapply (list_elem_of_lookup_2 _ (Z.to_nat (pid pcb))). apply list_lookup_insert_eq.
      by eapply lookup_lt_Some. }
    eapply wp_enqueue_process; [exact Hr3|exact Hi3|done|by apply Hun3|].
    intros s4 Hr4 Hi4. eapply Hend; [exact Hr4|exact Hi4| |exact HQ].
    destruct (insert_frame (alg:=alg) p a3 (current a3)) as (-> & _ & _ & H4 & _).
    apply H4; [rewrite Hcur3; by apply Hun3|by rewrite Hcur3].
  - rewrite decide_False in HQ by done. eapply Hend; [exact Hr3| | |exact HQ].
    + eapply kinv_fill; [exact Hi3|]. unfold state_of. by rewrite Hpcb3.
    + rewrite Hcur3. by apply Hun3.
Qed.
End register.

(** ** Waking a blocked process *)
Section wake_ready.
Context {alg : SchedAlgorithm}.
Implicit Types (a : astate) (p : pcb_ptr).

Definition a_wake_ready : pcb_ptr → astate → astate :=
  a_wake (alg:=alg) (set_state PROCESS_READY).

Lemma wake_ready_wakes : wakes (set_state PROCESS_READY).
Proof. split_and!; auto with kernel. Qed.
Lemma wake_ready_frame p a p' :
  current (a_wake_ready p a) = current a ∧
  processes (core (a_wake_ready p a)) = processes (core a) ∧
  n_processes (core (a_wake_ready p a)) = n_processes (core a) ∧
  (p' ≠ p → pcb_at (a_wake_ready p a) p' = pcb_at a p').
Proof.
  destruct (insert_frame (alg:=alg) p (a_update p (set_state PROCESS_READY) a) p')
    as (Hc & Ht & Hn & _ & Hp).
  split_and!; [exact Hc|exact Ht|exact Hn|]. intros Hne. unfold a_wake_ready, a_wake.
  rewrite Hp by done. by apply pcb_at_update_ne.
Qed.
Lemma wake_ready_pcb p a pcb :
  pcb_at a p = Some pcb → pcb_at (a_wake_ready p a) p = Some (set_state PROCESS_READY pcb).
Proof.
  intros Hp. unfold a_wake_ready, a_wake. destruct p as [|addr]; cbn [a_insert].
  - by apply pcb_at_update_eq.
  - unfold pcb_at. rewrite put_core.
    change (pcb_at (a_update (KernelPage addr) (set_state PROCESS_READY)
      (a_update (KernelPage addr) (set_state PROCESS_READY) a)) (KernelPage addr)
      = Some (set_state PROCESS_READY pcb)).
    erewrite pcb_at_update_eq by by apply pcb_at_update_eq. done.
Qed.

Lemma wp_wake_ready p (Q : unit → kernel → Prop) s a :
  rep s a → kernel_ok alg a → registered a p → p ≠ current a →
  state_of a p ≠ PROCESS_READY →
  (∀ s', rep s' (a_wake_ready p a) → kernel_ok alg (a_wake_ready p a) → Q tt s') →
  wp (update p (set_state PROCESS_READY);; enqueue_process alg (Some p)) Q s.
Proof.
  intros Hr [Hi Hun] Hreg Hpc Hst HQ.
  destruct (registered_pcb _ _ _ Hi Hreg) as (pcb & Hp & _).
  assert (Hunp : unqueued a p) by by eapply not_ready_unqueued.
  apply wp_bind. eapply wp_update; [exact Hr|auto with kernel|exact Hp|]. intros s1 Hr1.
  pose proof (wake_hole _ _ _ Hi wake_ready_wakes Hreg Hunp) as Hi1.
  eapply wp_enqueue_process; [exact Hr1|exact Hi1|done|done|]. intros s2 Hr2 Hi2.
  apply HQ; [exact Hr2|]. split; [exact Hi2|].
  destruct (insert_frame (alg:=alg) p (a_update p (set_state PROCESS_READY) a) (current a))
    as (Hc & _ & _ & Hunc & _).
  unfold a_wake_ready, a_wake. rewrite Hc. apply Hunc; [exact Hun|congruence].
Qed.
End wake_ready.

(** ** The process table *)

(** The first [n] slots of the table are filled. *)
Definition filled (a : astate) (n : nat) : Prop :=
  ∀ i, (i < n)%nat → ∃ p, processes (core a) !! i = Some (Some p).
(** The table is filled from the bottom. *)
Definition dense (a : astate) (n : nat) : Prop :=
  ∀ i, (i < Z.to_nat N_PROCESSES)%nat →
    if decide (i < n)%nat then ∃ p, processes (core a) !! i = Some (Some p)
    else processes (core a) !! i = Some None.

(** ** Waking everyone blocked for one reason *)

(** [if (processes[i]->state == v) { processes[i]->state = PROCESS_READY;
    enqueue_process(processes[i]); }], as the wake-up loops of the kernel do it. *)
Definition wake_slot (alg : SchedAlgorithm) (v i : Z) : K unit :=
  slot ← get_process i;
  p ← deref slot;
  pcb ← load p;
  when (bool_decide (state pcb = v))
    (update p (set_state PROCESS_READY);;
     enqueue_process alg slot).

Section wake_blocked.
Context {alg : SchedAlgorithm}.
Implicit Types (a : astate) (p : pcb_ptr).

Definition a_wake_slot (v : Z) (a : astate) (p : pcb_ptr) : astate :=
  if decide (state_of a p = v) then a_wake_ready (alg:=alg) p a else a.
Definition a_wake_blocked (v : Z) (n : nat) (a : astate) : astate :=
  foldl (a_wake_slot v) a (omap id (take n (processes (core a)))).

Lemma wake_ready_state p p' a :
  state_of (a_wake_ready (alg:=alg) p a) p' =
  if decide (p' = p) then from_option (λ _, PROCESS_READY) 0 (pcb_at a p) else state_of a p'.
Proof.
  case_decide as Hp.
  - subst p'. unfold state_of. destruct (pcb_at a p) as [x|] eqn:Hx; cbn.
    + by rewrite (wake_ready_pcb _ _ _ Hx).
    + unfold a_wake_ready, a_wake. destruct p as [|addr]; cbn [a_insert].
      * by rewrite pcb_at_update, decide_True, Hx.
      * unfold pcb_at. rewrite put_core.
        change (from_option state 0 (pcb_at (a_update (KernelPage addr) (set_state PROCESS_READY)
          (a_update (KernelPage addr) (set_state PROCESS_READY) a)) (KernelPage addr)) = 0).
        rewrite pcb_at_update, decide_True, pcb_at_update, decide_True, Hx by done. done.
  - unfold state_of. destruct (wake_ready_frame (alg:=alg) p a p') as (_ & _ & _ & H).
    by rewrite H.
Qed.

Lemma wp_wake_slot v (i : nat) p (Q : unit → kernel → Prop) s a :
  rep s a → kernel_ok alg a → v ≠ PROCESS_READY → state_of a (current a) ≠ v →
  processes (core a) !! i = Some (Some p) →
  (∀ s', let a' := a_wake_slot v a p in
     rep s' a' → kernel_ok alg a' → current a' = current a →
     processes (core a') = processes (core a) →
     state_of a' (current a) = state_of a (current a) → Q tt s') →
  wp (wake_slot alg v (Z.of_nat i)) Q s.
Proof.
  intros Hr Hok Hv Hcur Hp HQ. pose proof Hok as [Hi Hun].
  destruct (inv_table _ _ _ Hi i p Hp) as (pcb & Hpcb & _).
  unfold wake_slot, get_process. apply wp_bind, wp_bind, wp_gets, wp_defined.
  exists (Some p). rewrite (rep_field processes s a) by done.
  split; [by rewrite arr_get_lookup, Nat2Z.id by lia|].
  apply wp_bind, wp_ret, wp_bind. eapply wp_load; [exact Hr|exact Hpcb|]. intros w.
  change (state (set_next_ready w pcb)) with (state pcb). apply wp_when.
  assert (Hs : state_of a p = state pcb) by (unfold state_of; by rewrite Hpcb).
  unfold a_wake_slot in HQ. rewrite Hs in HQ. cbn zeta in HQ.
  case_bool_decide as Hw; [|rewrite decide_False in HQ by done; by apply HQ].
  rewrite decide_True in HQ by done.
  assert (Hpc : p ≠ current a) by (intros ->; congruence).
  eapply wp_wake_ready; [exact Hr|exact Hok| |done|congruence|].
  { by eapply list_elem_of_lookup_2. }
  intros s1 Hr1 Hok1. destruct (wake_ready_frame (alg:=alg) p a p) as (Hc & Ht & _ & _).
  apply HQ; [done|done|exact Hc|exact Ht|]. rewrite wake_ready_state, decide_False; [done|congruence].
Qed.

Lemma wp_wake_blocked v n (Q : unit → kernel → Prop) s a :
  rep s a → kernel_ok alg a → v ≠ PROCESS_READY → state_of a (current a) ≠ v → filled a n →
  (∀ s', let a' := a_wake_blocked v n a in
     rep s' a' → kernel_ok alg a' → current a' = current a →
     processes (core a') = processes (core a) →
     state_of a' (current a) = state_of a (current a) → Q tt s') →
  wp (for_each (seqZ 0 (Z.of_nat n)) (wake_slot alg v)) Q s.
Proof.
  intros Hr Hok Hv Hst Hf HQ. set (tbl := processes (core a)) in *.
  set (A := λ n, foldl (a_wake_slot v) a (omap id (take n tbl))).
  eapply wp_mono; [apply (wp_for_range (λ n s, rep s (A n) ∧ kernel_ok alg (A n) ∧
    current (A n) = current a ∧ processes (core (A n)) = tbl ∧
    state_of (A n) (current a) = state_of a (current a)))|].
  - unfold A. rewrite take_0. done.
  - intros i s1 Hi1 (Hr1 & Hok1 & Hc1 & Ht1 & Hs1). destruct (Hf i Hi1) as [p Hp].
    assert (Hsnoc : A (S i) = a_wake_slot v (A i) p).
    { unfold A. fold tbl in Hp. by rewrite (take_S_r _ _ _ Hp), omap_app, foldl_app. }
    rewrite Hsnoc. eapply (wp_wake_slot v i p); [exact Hr1|exact Hok1|done|by rewrite Hc1, Hs1| |].
    { rewrite Ht1. exact Hp. }
    cbn zeta. intros s2 Hr2 Hok2 Hc2 Ht2 Hs2. rewrite Hc1 in *. split_and!; congruence.
  - intros [] s1 (Hr1 & Hok1 & Hc1 & Ht1 & Hs1). by apply HQ.
Qed.

(** Everyone who was blocked for that reason is READY, nobody else changed. *)
Lemma wake_blocked_state v n a p :
  v ≠ PROCESS_READY → v ≠ 0 →
  state_of (a_wake_blocked v n a) p =
  if decide (p ∈ omap id (take n (processes (core a))) ∧ state_of a p = v)
  then PROCESS_READY else state_of a p.
Proof.
  intros Hv Hv0. unfold a_wake_blocked. generalize (omap id (take n (processes (core a)))).
  intros l. revert a. induction l as [|x l IH]; intros a; cbn.
  - rewrite decide_False; [done|]. set_solver.
  - rewrite IH. unfold a_wake_slot. destruct (decide (state_of a x = v)) as [Hx|Hx].
    + rewrite wake_ready_state. destruct (decide (p = x)) as [->|Hpx].
      * assert (is_Some (pcb_at a x)) as [y Hy].
        { unfold state_of in Hx. destruct (pcb_at a x); [eauto|]. by subst v. }
        rewrite Hy. cbn. rewrite decide_False by naive_solver.
        rewrite decide_True; [done|]. split; [left|done].
      * apply decide_ext. set_solver.
    + apply decide_ext. split; [|naive_solver set_solver].
      intros [Hp Hs]. split; [by right|done].
Qed.
End wake_blocked.
