(* ===== verification/SchedParam.v ===== *)
(** * Scheduling parameters

    [sched_set_param] of src/libs/scheduler.c on the abstract state: which values are
    accepted, what each accepted one changes, and that the invariant survives. *)
From S2P Require Import Prelude.
From S2P Require Import Process.
From S2P Require Import ReadyQueue.
From S2P Require Import Scheduler.
From S2P Require Import SchedSpec.
From S2P Require Import SchedInv.
From S2P Require Import SchedDispatch.
From S2P Require Import SchedPick.
From S2P Require Import SchedAging.
From S2P Require Import SchedLottery.
From S2P Require Import SchedTick.
From S2P Require Import SchedOps.
Local Open Scope Z_scope.

(** The clamping of a requested queue level to the levels of the active policy. *)
Definition clamp_level (alg : SchedAlgorithm) (value : Z) : Z :=
  match ml_policy alg with
  | Some policy => if n_levels policy <=? value then n_levels policy - 1 else value
  | None => value
  end.

(** The requests that are honoured. *)
Definition param_accepted (param value : Z) : bool :=
  if (param =? SCHED_PARAM_PRIORITY) || (param =? SCHED_PARAM_TICKETS) then 1 <=? value
  else if param =? SCHED_PARAM_QUEUE_PRIORITY then (0 <=? value) && (value <? ML_MAX_LEVELS)
  else false.

Definition a_set_param (alg : SchedAlgorithm) (p : pcb_ptr) (param value : Z) (a : astate) : astate :=
  if param =? SCHED_PARAM_PRIORITY then a_update p (set_priority value) a
  else if param =? SCHED_PARAM_TICKETS then a_update p (set_tickets value) a
  else
    let level := clamp_level alg value in
    let i := from_option pid 0 (pcb_at a p) in
    let a1 := a_update p (set_queue_priority level) (a_preempt 1 a) in
    let a2 := a_preempt (-1) (a_set_level i level a1) in
    a_trace alg (trace_line level_text i moved_text level) a2.

Section set_param.
Context {alg : SchedAlgorithm}.
Implicit Types (a : astate) (p : pcb_ptr).

Lemma kernel_ok_set_field f p a :
  kernel_ok alg a → keeps_identity f → keeps_counter f → (∀ pcb, state (f pcb) = state pcb) →
  kernel_ok alg (a_update p f a).
Proof.
  intros [Hi Hun] Hid Hct Hst. split; [|exact Hun]. apply kinv_update; auto.
Qed.
Lemma set_priority_identity v : 1 ≤ v → keeps_identity (set_priority v).
Proof. by intros Hv pcb. Qed.

Lemma clamp_level_range value :
  alg_ok alg → 0 ≤ value < ML_MAX_LEVELS → level_in_range (clamp_level alg value).
Proof.
  intros (_ & _ & Hpol) Hv. unfold clamp_level, level_in_range, ML_MAX_LEVELS in *.
  destruct (ml_policy alg) as [policy|]; [|done].
  destruct (Hpol policy eq_refl) as [(Hn & _) Hpos]. case_match; lia.
Qed.

(** A refused request changes nothing at all. *)
Lemma set_param_refused (p : option pcb_ptr) param value s :
  p = None ∨ p = Some InitProcess ∨ param_accepted param value = false →
  sched_set_param alg p param value s = Done (-1) s.
Proof.
  intros H. unfold sched_set_param. destruct p as [[|addr]|]; [done| |done].
  destruct H as [Hx|[Hx|H]]; [done..|]. unfold param_accepted in H.
  destruct (param =? SCHED_PARAM_PRIORITY); cbn [orb] in H.
  { replace (value <? 1) with true by lia. done. }
  destruct (param =? SCHED_PARAM_TICKETS).
  { replace (value <? 1) with true by lia. done. }
  destruct (param =? SCHED_PARAM_QUEUE_PRIORITY); [|done].
  replace ((value <? 0) || (ML_MAX_LEVELS <=? value)) with true by lia. done.
Qed.

Lemma wp_sched_set_param p param value (Q : Z → kernel → Prop) s a :
  alg_ok alg → rep s a → kernel_ok alg a → registered a p → p ≠ InitProcess →
  param_accepted param value = true →
  (∀ s', let a' := a_set_param alg p param value a in
     rep s' a' → kernel_ok alg a' → current a' = current a → Q 0 s') →
  wp (sched_set_param alg (Some p) param value) Q s.
Proof.
  intros Hao Hr Hok Hreg Hne Hacc HQ. pose proof Hok as [Hi Hun].
  destruct (registered_pcb _ _ _ Hi Hreg) as (pcb & Hp & Hpid & _).
  unfold sched_set_param. destruct p as [|addr]; [done|]. set (p := KernelPage addr) in *.
  unfold a_set_param, param_accepted in *.
  destruct (param =? SCHED_PARAM_PRIORITY); cbn [orb] in *.
  { destruct (Z.ltb_spec value 1); [lia|]. apply wp_bind.
    eapply wp_update; [exact Hr|auto with kernel|exact Hp|]. intros s1 Hr1. apply wp_ret, HQ; [done| |done].
    apply kernel_ok_set_field; [done|apply set_priority_identity; lia|by intros ?|done]. }
  destruct (param =? SCHED_PARAM_TICKETS).
  { destruct (Z.ltb_spec value 1); [lia|]. apply wp_bind.
    eapply wp_update; [exact Hr|auto with kernel|exact Hp|]. intros s1 Hr1. apply wp_ret, HQ; [done| |done].
    apply kernel_ok_set_field; [done|auto with kernel|by intros ?|done]. }
  destruct (param =? SCHED_PARAM_QUEUE_PRIORITY); [|done].
  apply andb_true_iff in Hacc as [Hv1%Z.leb_le Hv2%Z.ltb_lt].
  destruct (Z.ltb_spec value 0); [lia|]. destruct (Z.leb_spec ML_MAX_LEVELS value); [lia|].
  cbn [orb]. change (match ml_policy alg with
    | Some policy => if n_levels policy <=? value then n_levels policy - 1 else value
    | None => value end) with (clamp_level alg value).
  pose proof (clamp_level_range value Hao ltac:(lia)) as Hlv.
  set (level := clamp_level alg value) in *. rewrite Hp in HQ. cbn [from_option] in HQ.
  destruct (current_pcb _ Hok) as (x & Hx & _). cbn zeta.
  apply wp_bind. eapply wp_preempt_disable; [exact Hr|exact Hx|]. intros s1 Hr1.
  pose proof (kernel_ok_preempt 1 a Hok) as Hok1. set (a1 := a_preempt 1 a) in *.
  assert (∃ y, pcb_at a1 p = Some y ∧ pid y = pid pcb) as (y & Hy & Hpy).
  { unfold a1, a_preempt. rewrite pcb_at_update. case_decide; rewrite Hp; cbn; eauto. }
  apply wp_bind. eapply wp_update; [exact Hr1|auto with kernel|exact Hy|]. intros s2 Hr2.
  set (a2 := a_update p (set_queue_priority level) a1) in *.
  assert (Hok2 : kernel_ok alg a2)
    by (apply kernel_ok_set_field; [done|auto with kernel|by intros ?|done]).
  apply wp_bind. eapply wp_load; [exact Hr2|by apply pcb_at_update_eq|]. intros v.
  change (pid (set_next_ready v (set_queue_priority level y))) with (pid y). rewrite Hpy.
  apply wp_bind. eapply wp_set_queue_level_at; [exact Hr2| |].
  { rewrite (inv_levels_length _ _ _ (ko_inv _ _ Hok2)). unfold N_PROCESSES in *. lia. }
  intros s3 Hr3'. set (a3 := a_set_level (pid pcb) level a2).
  assert (Hr3 : rep s3 a3) by exact Hr3'. clear Hr3'.
  assert (Hok3 : kernel_ok alg a3)
    by (destruct Hok2; split; [by apply kinv_set_level|done]).
  destruct (current_pcb _ Hok3) as (z & Hz & _).
  apply wp_bind. eapply wp_preempt_enable; [exact Hr3|exact Hz|]. intros s4 Hr4.
  pose proof (kernel_ok_preempt (-1) a3 Hok3) as Hok4.
  apply wp_bind. eapply wp_trace_if_multilevel; [exact Hr4|]. intros s5 Hr5. apply wp_ret.
  destruct (trace_frame alg (trace_line level_text (pid pcb) moved_text level) (a_preempt (-1) a3))
    as (Hc & Hq & _).
  assert (Hok5 : kernel_ok alg (a_trace alg (trace_line level_text (pid pcb) moved_text level)
    (a_preempt (-1) a3))).
  { destruct Hok4 as [Hi4 Hun4]. split; [by apply kinv_trace|]. rewrite Hc.
    intros q Hqv. rewrite Hq. by apply Hun4. }
  by apply HQ.
Qed.
End set_param.
