(* ===== verification/CString.v ===== *)
(** * C strings

    src/common/string.c.  A buffer is the list of its bytes from the pointer to the
    end of the object; reading or writing past its end is undefined ([None]).  Source
    and destination are distinct objects. *)
From S2P Require Import Prelude.
Local Open Scope Z_scope.

Definition NUL : Z := 0.

(** [while (str[len] != '\0') len++;] *)
Fixpoint strlen (str : list Z) : option Z :=
  match str with
  | [] => None
  | c :: str' => if c =? NUL then Some 0 else Z.succ <$> strlen str'
  end.

(** The bytes of [src] up to and with the terminator. *)
Fixpoint strcpy (dest src : list Z) : option (list Z) :=
  match src, dest with
  | [], _ | _, [] => None
  | c :: src', _ :: dest' =>
      if c =? NUL then Some (NUL :: dest') else cons c <$> strcpy dest' src'
  end.

Fixpoint strcat (dest src : list Z) : option (list Z) :=
  match dest with
  | [] => None
  | d :: dest' => if d =? NUL then strcpy dest src else cons d <$> strcat dest' src
  end.

(** [for (i = 0; i < size; i++) if (src1[i] != src2[i]) return 1; return 0;] *)
Fixpoint strcmp_loop (fuel : nat) (src1 src2 : list Z) : option Z :=
  match fuel with
  | O => Some 0
  | S fuel' =>
      match src1, src2 with
      | c1 :: src1', c2 :: src2' => if c1 =? c2 then strcmp_loop fuel' src1' src2' else Some 1
      | _, _ => None
      end
  end.
Definition strcmp (src1 src2 : list Z) (size : Z) : option Z :=
  strcmp_loop (Z.to_nat size) src1 src2.

(** The terminators of [strsplit]'s loops. *)
Definition line_end (c : Z) : bool := (c =? NUL) || (c =? 13) || (c =? 10).

(** The inner loop: the rest of the line goes to [dest2], which is not terminated. *)
Fixpoint copy_line (src dest2 : list Z) : option (list Z) :=
  match src with
  | [] => None
  | c :: src' =>
      if line_end c then Some dest2 else
      match dest2 with
      | [] => None
      | _ :: dest2' => cons c <$> copy_line src' dest2'
      end
  end.
Fixpoint strsplit (src : list Z) (delimiter : Z) (dest1 dest2 : list Z) :
    option (list Z * list Z) :=
  match src with
  | [] => None
  | c :: src' =>
      if line_end c then Some (dest1, dest2) else
      match dest1 with
      | [] => None
      | _ :: dest1' =>
          if c =? delimiter then
            dest2 ← copy_line src' dest2; Some (NUL :: dest1', dest2)
          else '(dest1', dest2) ← strsplit src' delimiter dest1' dest2; Some (c :: dest1', dest2)
      end
  end.

(** ** Correctness *)
Definition no_nul (s : list Z) : Prop := NUL ∉ s.
#[export] Instance no_nul_dec s : Decision (no_nul s).
Proof. unfold no_nul. apply _. Defined.
Definition one_line (s : list Z) : Prop := Forall (λ c, line_end c = false) s.

Lemma no_nul_cons c s : no_nul (c :: s) → (c =? NUL) = false ∧ no_nul s.
Proof. unfold no_nul. intros H. split; [apply Z.eqb_neq|]; set_solver. Qed.

Lemma strlen_terminated s rest :
  no_nul s → strlen (s ++ NUL :: rest) = Some (Z.of_nat (length s)).
Proof.
  induction s as [|c s IH]; intros Hs; [done|].
  apply no_nul_cons in Hs as [Hc Hs]. cbn [strlen app]. rewrite Hc, IH by done. cbn. f_equal. lia.
Qed.
Lemma strcpy_terminated dest s rest :
  no_nul s → (length s < length dest)%nat →
  strcpy dest (s ++ NUL :: rest) = Some (s ++ NUL :: drop (S (length s)) dest).
Proof.
  revert dest. induction s as [|c s IH]; intros [|d dest] Hs Hlen; cbn in *; try lia; [done|].
  apply no_nul_cons in Hs as [Hc Hs]. rewrite Hc, IH by (done || lia). done.
Qed.
Lemma strcpy_overflow dest s rest :
  no_nul s → (length dest ≤ length s)%nat → strcpy dest (s ++ NUL :: rest) = None.
Proof.
  revert dest. induction s as [|c s IH]; intros [|d dest] Hs Hlen; cbn in *; try lia; try done.
  apply no_nul_cons in Hs as [Hc Hs]. rewrite Hc, IH by (done || lia). done.
Qed.
Lemma strcat_terminated a old s rest :
  no_nul a → no_nul s → (length s ≤ length old)%nat →
  strcat (a ++ NUL :: old) (s ++ NUL :: rest) = Some (a ++ s ++ NUL :: drop (length s) old).
Proof.
  induction a as [|c a IH]; intros Ha Hs Hlen.
  - cbn [strcat app]. rewrite Z.eqb_refl. rewrite strcpy_terminated by (cbn; done || lia). done.
  - apply no_nul_cons in Ha as [Hc Ha]. cbn [strcat app]. rewrite Hc, IH by done. done.
Qed.
Lemma strcmp_spec s1 s2 n :
  (Z.to_nat n ≤ length s1)%nat → (Z.to_nat n ≤ length s2)%nat →
  strcmp s1 s2 n =
    Some (if decide (take (Z.to_nat n) s1 = take (Z.to_nat n) s2) then 0 else 1).
Proof.
  unfold strcmp. generalize (Z.to_nat n). clear n. intros n. revert s1 s2.
  induction n as [|n IH]; intros [|c1 s1] [|c2 s2] H1 H2; cbn [length] in *; try lia; try done.
  cbn [strcmp_loop take]. destruct (Z.eqb_spec c1 c2) as [->|Hne].
  - rewrite IH by lia. f_equal. apply decide_ext. split; [by intros ->|by intros [=]].
  - rewrite decide_False; [done|]. congruence.
Qed.

Lemma copy_line_spec b c rest dest2 :
  one_line b → line_end c = true → (length b ≤ length dest2)%nat →
  copy_line (b ++ c :: rest) dest2 = Some (b ++ drop (length b) dest2).
Proof.
  intros Hb Hc. revert dest2. induction Hb as [|x b Hx Hb IH]; intros dest2 Hlen; cbn.
  - by rewrite Hc.
  - rewrite Hx. destruct dest2 as [|d dest2]; cbn in *; [lia|]. by rewrite IH by lia.
Qed.
Lemma strsplit_spec a delimiter b c rest dest1 dest2 :
  one_line a → delimiter ∉ a → line_end delimiter = false → one_line b → line_end c = true →
  (length a < length dest1)%nat → (length b ≤ length dest2)%nat →
  strsplit (a ++ delimiter :: b ++ c :: rest) delimiter dest1 dest2 =
    Some (a ++ NUL :: drop (S (length a)) dest1, b ++ drop (length b) dest2).
Proof.
  intros Ha Hd Hde Hb Hc. revert dest1.
  induction Ha as [|x a Hx Ha IH]; intros [|d dest1] H1 H2; cbn [length] in *; try lia.
  - cbn [strsplit app]. rewrite Hde, Z.eqb_refl, (copy_line_spec b c) by done. done.
  - cbn [strsplit app]. rewrite Hx. rewrite (proj2 (Z.eqb_neq x delimiter)) by set_solver.
    rewrite IH by (set_solver || lia). done.
Qed.
(** Without a delimiter the line is copied and neither buffer is terminated. *)
Lemma strsplit_none a delimiter c rest dest1 dest2 :
  one_line a → delimiter ∉ a → line_end c = true → (length a ≤ length dest1)%nat →
  strsplit (a ++ c :: rest) delimiter dest1 dest2 = Some (a ++ drop (length a) dest1, dest2).
Proof.
  intros Ha Hd Hc. revert dest1.
  induction Ha as [|x a Hx Ha IH]; intros dest1 H1; cbn [strsplit app].
  - by rewrite Hc.
  - rewrite Hx. destruct dest1 as [|d dest1]; cbn in *; [lia|].
    rewrite (proj2 (Z.eqb_neq x delimiter)) by set_solver.
    rewrite IH by (set_solver || lia). done.
Qed.
