(* ===== verification/Ipc.v ===== *)
(** * Inter-process communication

    src/libs/ipc.c: the per-process message buffer, [send_message],
    [receive_message] and [send_signal].  A call that blocks sets the state of the
    caller, calls [schedule] and, when the caller is dispatched again, goes round its
    loop: one round is one step here ([Returned] or [Blocked]). *)
From S2P Require Import Prelude.
From S2P Require Import Process.
From S2P Require Import ReadyQueue.
From S2P Require Import Scheduler.
From S2P Require Import SchedSpec.
From S2P Require Import SchedInv.
From S2P Require Import SchedDispatch.
From S2P Require Import SchedPick.
From S2P Require Import SchedAging.
From S2P Require Import SchedTick.
From S2P Require Import SchedOps.
From S2P Require Import CString.
Local Open Scope Z_scope.

Inductive round (A : Type) := Returned (a : A) | Blocked.
Arguments Returned {A} a.
Arguments Blocked {A}.

Section ipc.
Variable alg : SchedAlgorithm.

(** [buffer] is [&p->messages_buffer]. *)
Definition push_message (p : pcb_ptr) (message : Message) : K Z :=
  pcb ← load p;
  let buffer := messages_buffer pcb in
  let next_head := mb_head buffer + 1 in
  let next_head := if MAX_MESSAGES_PER_PROCESS <? next_head then 0 else next_head in
  if next_head =? mb_tail buffer then mret (-1) else
  slots ← defined (arr_set (mb_buffer buffer) (mb_head buffer) message);
  update p (set_messages_buffer {| buffer with mb_head := next_head; mb_buffer := slots |});;
  destination ← deref (destination_process message);
  d ← load destination;
  when (bool_decide (state d = PROCESS_WAITING_TO_RECEIVE_MESSAGE))
    (update destination (set_state PROCESS_READY);;
     enqueue_process alg (Some destination));;
  mret 0.

(** The popped message is copied into [message]; its body by [strcpy]. *)
Definition pop_message (p : pcb_ptr) (message : Message) : K (Z * Message) :=
  pcb ← load p;
  let buffer := messages_buffer pcb in
  if mb_head buffer =? mb_tail buffer then mret (-1, message) else
  let next_tail := mb_tail buffer + 1 in
  let next_tail := if MAX_MESSAGES_PER_PROCESS <? next_tail then 0 else next_tail in
  m ← defined (arr_get (mb_buffer buffer) (mb_tail buffer));
  text ← defined (strcpy (body message) (body m));
  update p (set_messages_buffer {| buffer with mb_tail := next_tail |});;
  mret (0, {| source_process := source_process m; destination_process := destination_process m;
              body := text |}).

(** The bytes of the local [struct Message] before the first write. *)
Variable uninitialised : list Z.

Definition send_message (source_process destination_process : pcb_ptr) (text : list Z) : K (round Z) :=
  current ← gets current_process;
  copied ← defined (strcpy uninitialised text);
  let message := {| Process.source_process := Some current;
                    Process.destination_process := Some destination_process; body := copied |} in
  push_ok ← push_message destination_process message;
  if push_ok =? -1 then
    update source_process (set_state PROCESS_WAITING_TO_SEND_MESSAGE);;
    schedule alg;; mret Blocked
  else mret (Returned 0).

Definition wake_sender : Z → K unit := wake_slot alg PROCESS_WAITING_TO_SEND_MESSAGE.

(** [destination] is the caller's buffer the text is copied to. *)
Definition receive_message (destination_process : pcb_ptr) (destination : list Z) :
    K (round (list Z)) :=
  '(pop_ok, received) ← pop_message destination_process
    {| source_process := None; Process.destination_process := None; body := uninitialised |};
  if pop_ok =? 0 then
    text ← defined (strcpy destination (body received));
    for_each process_slots wake_sender;;
    mret (Returned text)
  else
    update_current (set_state PROCESS_WAITING_TO_RECEIVE_MESSAGE);;
    schedule alg;; mret Blocked.
End ipc.

Definition send_signal (destination_process : pcb_ptr) (signal_flag : Z) : K Z :=
  update destination_process
    (λ pcb, set_pending_signals (Z.lor (pending_signals pcb) (signal_bit signal_flag)) pcb);;
  mret 0.

(** ** The message buffer as a queue *)

(** The positions the indices go through: one more than the buffer has slots. *)
Definition ring : Z := MAX_MESSAGES_PER_PROCESS + 1.
Definition buffer_ok (b : MessagesCircularBuffer) : Prop :=
  length (mb_buffer b) = Z.to_nat MAX_MESSAGES_PER_PROCESS ∧
  0 ≤ mb_tail b ≤ mb_head b ∧ mb_head b ≤ MAX_MESSAGES_PER_PROCESS.
(** The messages waiting in the buffer, oldest first. *)
Definition contents (b : MessagesCircularBuffer) : list Message :=
  take (Z.to_nat (mb_head b - mb_tail b)) (drop (Z.to_nat (mb_tail b)) (mb_buffer b)).

Lemma contents_length b :
  buffer_ok b → Z.of_nat (length (contents b)) = mb_head b - mb_tail b.
Proof.
  intros (Hl & Ht & Hh). unfold contents. rewrite length_take, length_drop, Hl.
  unfold MAX_MESSAGES_PER_PROCESS in *. lia.
Qed.

Definition pushed (m : Message) (b : MessagesCircularBuffer) : MessagesCircularBuffer :=
  {| b with mb_head := mb_head b + 1;
            mb_buffer := <[Z.to_nat (mb_head b) := m]> (mb_buffer b) |}.
Definition popped (b : MessagesCircularBuffer) : MessagesCircularBuffer :=
  {| b with mb_tail := mb_tail b + 1 |}.

Lemma pushed_contents m b :
  buffer_ok b → mb_head b < MAX_MESSAGES_PER_PROCESS →
  buffer_ok (pushed m b) ∧ contents (pushed m b) = contents b ++ [m].
Proof.
  intros (Hl & Ht & Hh) Hlt. unfold buffer_ok, MAX_MESSAGES_PER_PROCESS in *. split.
  - split_and!; cbn; rewrite ?length_insert; try done; lia.
  - unfold contents. cbn.
    remember (Z.to_nat (mb_tail b)) as t eqn:Et.
    remember (Z.to_nat (mb_head b - mb_tail b)) as n eqn:En.
    replace (Z.to_nat (mb_head b + 1 - mb_tail b)) with (S n) by lia.
    replace (Z.to_nat (mb_head b)) with (t + n)%nat by lia.
    rewrite drop_insert_ge by lia. replace (t + n - t)%nat with n by lia.
    erewrite take_S_r.
    + by rewrite take_insert_ge.
    + apply list_lookup_insert_eq. rewrite length_drop. lia.
Qed.
Lemma popped_contents b m :
  buffer_ok b → mb_buffer b !! Z.to_nat (mb_tail b) = Some m → mb_tail b < mb_head b →
  buffer_ok (popped b) ∧ contents b = m :: contents (popped b).
Proof.
  intros (Hl & Ht & Hh) Hm Hlt. split; [split_and!; cbn; try done; lia|].
  unfold contents. cbn. rewrite (drop_S _ _ _ Hm).
  replace (Z.to_nat (mb_head b - mb_tail b)) with (S (Z.to_nat (mb_head b - (mb_tail b + 1)))) by lia.
  cbn. do 2 f_equal. f_equal. lia.
Qed.

(** ** The operations on the abstract state *)
Definition buffer_of (a : astate) (p : pcb_ptr) : MessagesCircularBuffer :=
  from_option messages_buffer zero_messages_buffer (pcb_at a p).
Definition awaits_message (a : astate) (p : pcb_ptr) : Prop :=
  state_of a p = PROCESS_WAITING_TO_RECEIVE_MESSAGE.
#[export] Instance awaits_message_dec a p : Decision (awaits_message a p).
Proof. unfold awaits_message. apply _. Defined.

Section refinement.
Context {alg : SchedAlgorithm}.
Implicit Types (a : astate) (p : pcb_ptr).

Definition a_push (m : Message) (p : pcb_ptr) (a : astate) : astate :=
  let a1 := a_update p (set_messages_buffer (pushed m (buffer_of a p))) a in
  if decide (awaits_message a p) then a_wake_ready (alg:=alg) p a1 else a1.
Definition a_pop (p : pcb_ptr) (a : astate) : astate :=
  a_update p (set_messages_buffer (popped (buffer_of a p))) a.

Lemma kernel_ok_buffer b p a :
  kernel_ok alg a → kernel_ok alg (a_update p (set_messages_buffer b) a).
Proof.
  intros [Hi Hun]. split; [|exact Hun]. apply kinv_update; [done|auto with kernel| |done].
  right. by intros ?.
Qed.

Lemma wp_push_message m p (Q : Z → kernel → Prop) s a :
  rep s a → kernel_ok alg a → registered a p → destination_process m = Some p →
  (p = current a → ¬ awaits_message a p) →
  buffer_ok (buffer_of a p) → mb_head (buffer_of a p) < MAX_MESSAGES_PER_PROCESS →
  (∀ s', rep s' (a_push m p a) → kernel_ok alg (a_push m p a) → Q 0 s') →
  wp (push_message alg p m) Q s.
Proof.
  intros Hr Hok Hreg Hd Hcur (Hl & Ht & _) Hh HQ. pose proof Hok as [Hi _].
  destruct (registered_pcb _ _ _ Hi Hreg) as (pcb & Hp & _).
  assert (Hb : buffer_of a p = messages_buffer pcb) by (unfold buffer_of; by rewrite Hp).
  assert (Hs : state_of a p = state pcb) by (unfold state_of; by rewrite Hp).
  unfold a_push in HQ. rewrite Hb in *. unfold push_message.
  apply wp_bind. eapply wp_load; [exact Hr|exact Hp|]. intros v.
  change (messages_buffer (set_next_ready v pcb)) with (messages_buffer pcb).
  set (b := messages_buffer pcb) in *. cbn zeta.
  destruct (Z.ltb_spec MAX_MESSAGES_PER_PROCESS (mb_head b + 1)); [lia|].
  destruct (Z.eqb_spec (mb_head b + 1) (mb_tail b)); [lia|].
  apply wp_bind, wp_defined. exists (<[Z.to_nat (mb_head b) := m]> (mb_buffer b)).
  split; [apply arr_set_in; unfold MAX_MESSAGES_PER_PROCESS in *; lia|].
  change {| b with mb_head := mb_head b + 1; mb_buffer := <[Z.to_nat (mb_head b) := m]> (mb_buffer b) |}
    with (pushed m b).
  apply wp_bind. eapply wp_update; [exact Hr|auto with kernel|exact Hp|]. intros s1 Hr1.
  pose proof (kernel_ok_buffer (pushed m b) p a Hok) as Hok1.
  set (a1 := a_update p _ a) in *.
  rewrite Hd. apply wp_bind, wp_ret, wp_bind.
  eapply wp_load; [exact Hr1|by apply pcb_at_update_eq|]. intros v1.
  change (state (set_next_ready v1 (set_messages_buffer (pushed m b) pcb))) with (state pcb).
  apply wp_bind, wp_when. case_bool_decide as Hw; rewrite <- Hs in Hw.
  - rewrite decide_True in HQ by done.
    eapply wp_wake_ready; [exact Hr1|exact Hok1|done| | |].
    + intros E. by apply Hcur.
    + assert (state_of a1 p = state_of a p) as ->; [|by rewrite Hw].
      unfold a1. rewrite state_of_update, decide_True, Hp by done. done.
    + intros s2 Hr2 Hok2. apply wp_ret. by apply HQ.
  - rewrite decide_False in HQ by done. by apply wp_ret, HQ.
Qed.

(** Four messages since the buffer was last full: it is full. *)
Lemma push_message_when_full m p s pcb :
  heap s !! p = Some pcb → mb_head (messages_buffer pcb) = MAX_MESSAGES_PER_PROCESS →
  mb_tail (messages_buffer pcb) = 0 →
  push_message alg p m s = Done (-1) s.
Proof.
  intros Hp Hh Ht. unfold push_message, mbind, M_bind, load. rewrite Hp. cbn zeta.
  rewrite Hh, Ht. done.
Qed.
(** The head is past the last slot and the buffer is not full: out of bounds. *)
Lemma push_message_overrun m p s pcb :
  heap s !! p = Some pcb → buffer_ok (messages_buffer pcb) →
  mb_head (messages_buffer pcb) = MAX_MESSAGES_PER_PROCESS →
  0 < mb_tail (messages_buffer pcb) →
  push_message alg p m s = Undefined.
Proof.
  intros Hp (Hl & _) Hh Ht. unfold push_message, mbind, M_bind, load. rewrite Hp. cbn zeta.
  rewrite Hh.
  change (if MAX_MESSAGES_PER_PROCESS <? MAX_MESSAGES_PER_PROCESS + 1 then 0
          else MAX_MESSAGES_PER_PROCESS + 1) with 0.
  rewrite (proj2 (Z.eqb_neq 0 (mb_tail (messages_buffer pcb)))) by lia.
  rewrite arr_set_out; [done|]. rewrite Hl. unfold MAX_MESSAGES_PER_PROCESS. lia.
Qed.

Lemma wp_pop_message p m0 (Q : Z * Message → kernel → Prop) s a :
  rep s a → kernel_ok alg a → registered a p → buffer_ok (buffer_of a p) →
  match contents (buffer_of a p) with
  | [] => Q (-1, m0) s
  | m :: _ => ∃ text, strcpy (body m0) (body m) = Some text ∧
      ∀ s', rep s' (a_pop p a) → kernel_ok alg (a_pop p a) →
        Q (0, {| source_process := source_process m;
                 destination_process := destination_process m; body := text |}) s'
  end →
  wp (pop_message p m0) Q s.
Proof.
  intros Hr Hok Hreg Hbo HQ. pose proof Hok as [Hi _].
  destruct (registered_pcb _ _ _ Hi Hreg) as (pcb & Hp & _).
  assert (Hb : buffer_of a p = messages_buffer pcb) by (unfold buffer_of; by rewrite Hp).
  pose proof (contents_length _ Hbo) as Hlen. unfold a_pop in HQ. rewrite Hb in *.
  unfold pop_message.
  apply wp_bind. eapply wp_load; [exact Hr|exact Hp|]. intros v.
  change (messages_buffer (set_next_ready v pcb)) with (messages_buffer pcb).
  set (b := messages_buffer pcb) in *. cbn zeta. pose proof Hbo as (Hl & Ht & Hh).
  destruct (Z.eqb_spec (mb_head b) (mb_tail b)) as [E|E].
  { destruct (contents b); [|cbn in Hlen; lia]. by apply wp_ret. }
  unfold MAX_MESSAGES_PER_PROCESS in *.
  destruct (Z.ltb_spec 4 (mb_tail b + 1)); [lia|].
  destruct (lookup_lt_is_Some_2 (mb_buffer b) (Z.to_nat (mb_tail b))) as [m Hm]; [lia|].
  destruct (popped_contents b m Hbo Hm) as [_ Hc]; [lia|]. rewrite Hc in HQ.
  destruct HQ as (text & Htext & HQ).
  apply wp_bind, wp_defined. exists m. split; [by rewrite arr_get_lookup by lia|].
  apply wp_bind, wp_defined. exists text. split; [done|].
  change {| b with mb_tail := mb_tail b + 1 |} with (popped b).
  apply wp_bind. eapply wp_update; [exact Hr|auto with kernel|exact Hp|]. intros s1 Hr1.
  apply wp_ret, HQ; [done|]. by apply kernel_ok_buffer.
Qed.

Lemma wp_send_signal p signal (Q : Z → kernel → Prop) s a :
  rep s a → kernel_ok alg a → registered a p →
  (∀ s', let a' := a_update p (λ pcb,
       set_pending_signals (Z.lor (pending_signals pcb) (signal_bit signal)) pcb) a in
     rep s' a' → kernel_ok alg a' → Q 0 s') →
  wp (send_signal p signal) Q s.
Proof.
  intros Hr [Hi Hun] Hreg HQ. destruct (registered_pcb _ _ _ Hi Hreg) as (pcb & Hp & _).
  unfold send_signal. apply wp_bind.
  eapply wp_update; [exact Hr|by intros ??|exact Hp|]. intros s1 Hr1. apply wp_ret, HQ; [done|].
  split; [|exact Hun]. apply kinv_update; [done|by intros ?| |done]. right. by intros ?.
Qed.
End refinement.

(** ** Sending and receiving *)

(** The caller of a system call: a running user process. *)
Record caller (alg : SchedAlgorithm) (a : astate) : Prop := {
  cl_ok : kernel_ok alg a;
  cl_init : current a ≠ InitProcess;
  cl_running : state_of a (current a) = PROCESS_RUNNING
}.

Section calls.
Context {alg : SchedAlgorithm} {uninitialised : list Z}.
Hypothesis body_size : length uninitialised = Z.to_nat MAX_MESSAGES_BODY_SIZE.
Implicit Types (a : astate) (p : pcb_ptr).

Definition copied (s : list Z) : list Z := s ++ NUL :: drop (S (length s)) uninitialised.
Definition new_message (c p : pcb_ptr) (s : list Z) : Message :=
  {| source_process := Some c; destination_process := Some p; body := copied s |}.

Lemma copied_body s rest :
  no_nul s → Z.of_nat (length s) < MAX_MESSAGES_BODY_SIZE →
  strcpy uninitialised (s ++ NUL :: rest) = Some (copied s).
Proof.
  intros Hs Hl. apply strcpy_terminated; [done|]. rewrite body_size.
  unfold MAX_MESSAGES_BODY_SIZE in *. lia.
Qed.

(** The message goes out if the head has not reached the end of the buffer. *)
Lemma wp_send_message p text rest (Q : round Z → kernel → Prop) s a :
  rep s a → caller alg a → registered a p →
  no_nul text → Z.of_nat (length text) < MAX_MESSAGES_BODY_SIZE →
  buffer_ok (buffer_of a p) → mb_head (buffer_of a p) < MAX_MESSAGES_PER_PROCESS →
  (∀ s', let a' := a_push (alg:=alg) (new_message (current a) p text) p a in
     rep s' a' → kernel_ok alg a' → Q (Returned 0) s') →
  wp (send_message alg uninitialised (current a) p (text ++ NUL :: rest)) Q s.
Proof.
  intros Hr [Hok Hne Hrun] Hreg Hs Hl Hb Hh HQ. unfold send_message.
  apply wp_bind, wp_gets. rewrite (rep_current _ _ Hr).
  apply wp_bind, wp_defined. exists (copied text). split; [by apply copied_body|].
  apply wp_bind. eapply (wp_push_message (alg:=alg)); [exact Hr|done|done|done| |done|done|].
  - intros -> Hw. unfold awaits_message in Hw. by rewrite Hrun in Hw.
  - intros s1 Hr1 Hok1. by apply wp_ret, HQ.
Qed.

(** Otherwise, with nothing received yet, the sender blocks. *)
Definition a_block_send (a : astate) : astate :=
  a_update (current a) (set_state PROCESS_WAITING_TO_SEND_MESSAGE) a.
Lemma wp_send_message_full p text rest s a :
  alg_ok alg → rep s a → caller alg a → registered a p →
  no_nul text → Z.of_nat (length text) < MAX_MESSAGES_BODY_SIZE →
  mb_head (buffer_of a p) = MAX_MESSAGES_PER_PROCESS → mb_tail (buffer_of a p) = 0 →
  wp (send_message alg uninitialised (current a) p (text ++ NUL :: rest))
    (λ r s', r = Blocked ∧ decides (alg:=alg) (a_schedule alg) (a_block_send a) s') s.
Proof.
  intros Hao Hr [Hok Hne Hrun] Hreg Hs Hl Hh Ht. pose proof Hok as [Hi Hun].
  destruct (registered_pcb _ _ _ Hi Hreg) as (pcb & Hp & _).
  destruct (rep_lookup _ _ _ _ Hr Hp) as (v & Hv & _).
  assert (Hb : buffer_of a p = messages_buffer pcb) by (unfold buffer_of; by rewrite Hp).
  rewrite Hb in *. unfold send_message.
  apply wp_bind, wp_gets. rewrite (rep_current _ _ Hr).
  apply wp_bind, wp_defined. exists (copied text). split; [by apply copied_body|].
  apply wp_bind. unfold wp at 1. erewrite push_message_when_full by (exact Hv || done).
  destruct (current_pcb _ Hok) as (x & Hx & _).
  apply wp_bind. eapply wp_update; [exact Hr|auto with kernel|exact Hx|]. intros s1 Hr1.
  apply wp_bind. eapply wp_mono; [apply wp_schedule; [done|exact Hr1|]|].
  - by apply (kernel_ok_block _ PROCESS_WAITING_TO_SEND_MESSAGE); [|auto with kernel|..].
  - intros [] s2 Hd. apply wp_ret. by split.
Qed.

Lemma caller_not_waiting a v : caller alg a → v ≠ PROCESS_RUNNING → state_of a (current a) ≠ v.
Proof. intros [_ _ ->]. done. Qed.

(** Waking the senders goes through the whole table: fine when it is full. *)
Definition a_wake_senders : nat → astate → astate :=
  a_wake_blocked (alg:=alg) PROCESS_WAITING_TO_SEND_MESSAGE.
Lemma wp_wake_senders n (Q : unit → kernel → Prop) s a :
  rep s a → caller alg a → filled a n →
  (∀ s', rep s' (a_wake_senders n a) → caller alg (a_wake_senders n a) →
     processes (core (a_wake_senders n a)) = processes (core a) → Q tt s') →
  wp (for_each (seqZ 0 (Z.of_nat n)) (wake_sender alg)) Q s.
Proof using alg.
  clear body_size uninitialised. intros Hr Hcl Hf HQ. pose proof Hcl as [Hok Hne Hrun].
  eapply wp_wake_blocked; [exact Hr|done|done|by rewrite Hrun|done|].
  intros s' a' Hr' Hok' Hc Ht Hs. apply HQ; [done| |done].
  assert (Heq : a_wake_senders n a = a') by done. rewrite Heq. split; [done|by rewrite Hc|].
  by rewrite Hc, Hs.
Qed.

Lemma for_each_app {St A} (l1 l2 : list A) (f : A → M St unit) s :
  for_each (l1 ++ l2) f s = (for_each l1 f;; for_each l2 f) s.
Proof.
  revert s. induction l1 as [|x l1 IH]; intros s; [done|]. cbn.
  unfold mbind, M_bind in *. destruct (f x s); [apply IH|done|done].
Qed.

(** The first empty slot of the table is dereferenced all the same. *)
Lemma wake_senders_undefined n s a :
  rep s a → caller alg a → (n < Z.to_nat N_PROCESSES)%nat → filled a n →
  processes (core a) !! n = Some None →
  for_each process_slots (wake_sender alg) s = Undefined.
Proof using alg.
  clear body_size uninitialised. intros Hr Hcl Hn Hf Hnull. unfold process_slots.
  replace N_PROCESSES with (Z.of_nat n + (1 + (N_PROCESSES - Z.of_nat n - 1))) by lia.
  rewrite seqZ_app by (unfold N_PROCESSES in *; lia). rewrite for_each_app.
  assert (H : wp (for_each (seqZ 0 (Z.of_nat n)) (wake_sender alg))
    (λ _ s', processes s' !! n = Some None) s).
  { eapply wp_wake_senders; [done..|]. intros s' Hr' _ Ht.
    by rewrite (rep_field processes s' _ (λ _, eq_refl) Hr'), Ht. }
  unfold mbind, M_bind. apply wp_done in H as (u & s' & -> & Hs').
  rewrite seqZ_cons by (unfold N_PROCESSES in *; lia). cbn [for_each].
  unfold wake_sender, wake_slot, get_process, mbind, M_bind, gets. cbn [Z.add].
  unfold arr_get. rewrite decide_True, Z.add_0_l, Nat2Z.id, Hs' by lia. done.
Qed.

Lemma pop_caller p a : caller alg a → caller alg (a_pop p a).
Proof using alg.
  clear body_size uninitialised. intros [Hok Hne Hrun]. split; [by apply kernel_ok_buffer|done|].
  change (state_of (a_pop p a) (current a) = PROCESS_RUNNING).
  unfold a_pop. rewrite state_of_update. case_decide as E; [|done].
  unfold state_of in Hrun. destruct (pcb_at a (current a)); done.
Qed.

(** What popping gives the receiver: the text of the oldest message. *)
Lemma wp_receive_pop m ms text old (Q : round (list Z) → kernel → Prop) s a destination :
  rep s a → caller alg a → buffer_ok (buffer_of a (current a)) →
  contents (buffer_of a (current a)) = m :: ms → body m = text ++ NUL :: old →
  no_nul text → Z.of_nat (length text) < MAX_MESSAGES_BODY_SIZE →
  (length text < length destination)%nat →
  (∀ s1, rep s1 (a_pop (current a) a) →
     wp (for_each process_slots (wake_sender alg);;
         mret (Returned (text ++ NUL :: drop (S (length text)) destination))) Q s1) →
  wp (receive_message alg uninitialised (current a) destination) Q s.
Proof.
  intros Hr Hcl Hb Hc Hbody Hs Hl Hd HQ. pose proof Hcl as [Hok Hne Hrun]. pose proof Hok as [Hi _].
  unfold receive_message. apply wp_bind.
  eapply wp_pop_message; [exact Hr|exact Hok|apply (inv_current _ _ _ Hi)|done|].
  rewrite Hc. exists (copied text). cbn [body]. split; [by rewrite Hbody; apply copied_body|].
  intros s1 Hr1 _. cbn [Z.eqb]. apply wp_bind, wp_defined. eexists.
  split; [by apply strcpy_terminated|by apply HQ].
Qed.

(** With no message the receiver blocks. *)
Definition a_block_receive (a : astate) : astate :=
  a_update (current a) (set_state PROCESS_WAITING_TO_RECEIVE_MESSAGE) a.
Lemma wp_receive_empty s a destination :
  alg_ok alg → rep s a → caller alg a → buffer_ok (buffer_of a (current a)) →
  contents (buffer_of a (current a)) = [] →
  wp (receive_message alg uninitialised (current a) destination)
    (λ r s', r = Blocked ∧ decides (alg:=alg) (a_schedule alg) (a_block_receive a) s') s.
Proof.
  intros Hao Hr [Hok Hne Hrun] Hb Hc. pose proof Hok as [Hi Hun].
  unfold receive_message. apply wp_bind.
  eapply wp_pop_message; [exact Hr|exact Hok|apply (inv_current _ _ _ Hi)|done|].
  rewrite Hc. cbn [Z.eqb]. destruct (current_pcb _ Hok) as (x & Hx & _).
  apply wp_bind. eapply wp_update_current; [exact Hr|auto with kernel|exact Hx|]. intros s1 Hr1.
  apply wp_bind. eapply wp_mono; [apply wp_schedule; [done|exact Hr1|]|].
  - by apply (kernel_ok_block _ PROCESS_WAITING_TO_RECEIVE_MESSAGE); [|auto with kernel|..].
  - intros [] s2 Hd. apply wp_ret. by split.
Qed.

(** A message is there but the table is not full: the wake-up loop runs into NULL. *)
Lemma receive_undefined n m ms text old s a destination :
  rep s a → caller alg a → buffer_ok (buffer_of a (current a)) →
  contents (buffer_of a (current a)) = m :: ms → body m = text ++ NUL :: old →
  no_nul text → Z.of_nat (length text) < MAX_MESSAGES_BODY_SIZE →
  (length text < length destination)%nat →
  (n < Z.to_nat N_PROCESSES)%nat → filled a n → processes (core a) !! n = Some None →
  receive_message alg uninitialised (current a) destination s = Undefined.
Proof.
  intros Hr Hcl Hb Hc Hbody Hs Hl Hd Hn Hf Hnull. pose proof Hcl as [Hok _ _]. pose proof Hok as [Hi _].
  assert (H : wp (pop_message (current a)
      {| source_process := None; destination_process := None; body := uninitialised |})
    (λ r s', r.1 = 0 ∧ body r.2 = copied text ∧ rep s' (a_pop (current a) a)) s).
  { eapply wp_pop_message; [exact Hr|exact Hok|apply (inv_current _ _ _ Hi)|done|].
    rewrite Hc. exists (copied text). split; [by rewrite Hbody; apply copied_body|]. done. }
  apply wp_done in H as ([r m'] & s1 & Hpop & Hr0 & Hm' & Hr1). cbn in Hr0, Hm'. subst r.
  unfold receive_message, mbind, M_bind. rewrite Hpop, Hm'.
  cbn [Z.eqb]. unfold copied. rewrite (strcpy_terminated _ _ _ Hs) by done. cbn [defined].
  pose proof (wake_senders_undefined n s1 _ Hr1 (pop_caller _ _ Hcl) Hn Hf Hnull) as Hu.
  unfold mret, M_ret. by rewrite Hu.
Qed.
End calls.
