(* ===== verification/Mm.v ===== *)
(** * Memory management

    src/libs/mm.c with the routines of src/common/memory.S it is written with.  The
    memory is made of 64-bit words addressed by kernel virtual address; [memcpy]
    reads and writes single bytes of them. *)
From S2P Require Import Prelude.
From S2P Require Import Process.
From S2P Require Import ReadyQueue.
Local Open Scope Z_scope.

(** ** mm.h and mmu.h *)
Definition VA_START : Z := 0xffff000000000000.
Definition PAGE_MASK : Z := 0xfffffffffffff000.
Definition PAGE_SHIFT : Z := 12.
Definition TABLE_SHIFT : Z := 9.
Definition SECTION_SHIFT : Z := PAGE_SHIFT + TABLE_SHIFT.
Definition PAGE_SIZE : Z := Z.shiftl 1 PAGE_SHIFT.
Definition SECTION_SIZE : Z := Z.shiftl 1 SECTION_SHIFT.
Definition PGD_SHIFT : Z := PAGE_SHIFT + 3 * TABLE_SHIFT.
Definition PUD_SHIFT : Z := PAGE_SHIFT + 2 * TABLE_SHIFT.
Definition PMD_SHIFT : Z := PAGE_SHIFT + TABLE_SHIFT.
Definition LOW_MEMORY : Z := 2 * SECTION_SIZE.
Definition HIGH_MEMORY : Z := 0x3F000000.
Definition PTRS_PER_TABLE : Z := Z.shiftl 1 TABLE_SHIFT.
Definition N_PAGES : Z := (HIGH_MEMORY - LOW_MEMORY) / PAGE_SIZE.
Definition MM_TYPE_PAGE_TABLE : Z := 3.
(** [MM_TYPE_PAGE | (MT_NORMAL_NC << 2) | MM_ACCESS | MM_ACCESS_PERMISSION] *)
Definition MMU_PTE_FLAGS : Z :=
  Z.lor (Z.lor (Z.lor 3 (Z.shiftl 1 2)) (Z.shiftl 1 10)) (Z.shiftl 1 6).

(** ** Words and bytes *)
Definition word_at (w : gmap Z Z) (address : Z) : Z := default 0 (w !! address).
Definition read_word (address : Z) : K Z := m ← gets mem; mret (word_at (words m) address).
Definition change_words (f : gmap Z Z → gmap Z Z) : K unit :=
  modify (λ s, set_mem {| (mem s) with words := f (words (mem s)) |} s).
Definition write_word (address v : Z) : K unit := change_words (insert address (u64 v)).

(** Byte [k] of a word, and the word with that byte replaced (little endian). *)
Definition byte_of (w k : Z) : Z := (w / 256 ^ k) mod 256.
Definition with_byte (w k v : Z) : Z := w + (v - byte_of w k) * 256 ^ k.
Definition byte_at (w : gmap Z Z) (address : Z) : Z :=
  byte_of (word_at w (address - address mod 8)) (address mod 8).
Definition set_byte (address v : Z) (w : gmap Z Z) : gmap Z Z :=
  <[address - address mod 8 :=
      with_byte (word_at w (address - address mod 8)) (address mod 8) (u8 v)]> w.

(** *** memory.S: both loops run at least once *)
Fixpoint zero_words (n : nat) (address : Z) (w : gmap Z Z) : gmap Z Z :=
  match n with
  | O => w
  | S n' => zero_words n' (address + 8) (<[address := 0]> w)
  end.
Definition memzero (address size : Z) : K unit :=
  change_words (zero_words (Nat.max 1 (Z.to_nat ((size + 7) / 8))) address).

Fixpoint copy_bytes (n : nat) (destination source : Z) (w : gmap Z Z) : gmap Z Z :=
  match n with
  | O => w
  | S n' =>
      copy_bytes n' (destination + 1) (source + 1) (set_byte destination (byte_at w source) w)
  end.
Definition memcpy (destination source size : Z) : K unit :=
  change_words (copy_bytes (Nat.max 1 (Z.to_nat size)) destination source).

(** ** Page allocation *)

(** [for (i = 0; i < N_PAGES; i++) if (memory_pages[i] == 0) ...]: [n] indices left. *)
Fixpoint find_free (n : nat) (i : Z) (used : gset Z) : option Z :=
  match n with
  | O => None
  | S n' => if decide (i ∈ used) then find_free n' (i + 1) used else Some i
  end.
Definition page_address (i : Z) : Z := LOW_MEMORY + i * PAGE_SIZE.

Definition get_free_page : K Z :=
  m ← gets mem;
  match find_free (Z.to_nat N_PAGES) 0 (memory_pages m) with
  | Some i =>
      modify (λ s, set_mem {| (mem s) with memory_pages := memory_pages (mem s) ∪ {[i]} |} s);;
      memzero (page_address i + VA_START) PAGE_SIZE;;
      mret (page_address i)
  | None => mret 0
  end.

Definition allocate_kernel_page : K Z :=
  page ← get_free_page;
  mret (if page =? 0 then 0 else page + VA_START).

Definition free_page (page_kernel_address : Z) : K Z :=
  if negb (page_kernel_address mod PAGE_SIZE =? 0) then mret (-1) else
  memzero page_kernel_address PAGE_SIZE;;
  let i := u64 (page_kernel_address - VA_START - LOW_MEMORY) / PAGE_SIZE in
  if decide (i < N_PAGES) then
    modify (λ s, set_mem {| (mem s) with memory_pages := memory_pages (mem s) ∖ {[i]} |} s);;
    mret 0
  else undefined.

(** ** Page tables *)
Definition table_index (virtual_address shift : Z) : Z :=
  Z.land (Z.shiftr virtual_address shift) (PTRS_PER_TABLE - 1).

(** The next table, and whether it was created. *)
Definition map_table (table index_shift virtual_address : Z) : K (Z * bool) :=
  let i := table_index virtual_address index_shift in
  entry ← read_word (table + 8 * i);
  if entry =? 0 then
    next_level_table ← get_free_page;
    memzero (next_level_table + VA_START) PAGE_SIZE;;
    write_word (table + 8 * i) (Z.lor next_level_table MM_TYPE_PAGE_TABLE);;
    mret (next_level_table, true)
  else mret (Z.land entry PAGE_MASK, false).

Definition map_table_entry (pte virtual_address page_physical_address : Z) : K unit :=
  write_word (pte + 8 * table_index virtual_address PAGE_SHIFT)
    (Z.lor page_physical_address MMU_PTE_FLAGS).

(** [process->mm.kernel_pages[process->mm.n_kernel_pages++] = page;] *)
Definition track_kernel_page (process : pcb_ptr) (page : Z) : K unit :=
  pcb ← load process;
  let m := mm pcb in
  pages ← defined (arr_set (kernel_pages m) (n_kernel_pages m) page);
  update process (set_mm {| m with kernel_pages := pages;
                                   n_kernel_pages := n_kernel_pages m + 1 |}).
Definition track_user_page (process : pcb_ptr) (page : user_page) : K unit :=
  pcb ← load process;
  let m := mm pcb in
  pages ← defined (arr_set (user_pages m) (n_user_pages m) page);
  update process (set_mm {| m with user_pages := pages; n_user_pages := n_user_pages m + 1 |}).

Definition map_level (process : pcb_ptr) (table shift virtual_address : Z) : K Z :=
  '(next, created) ← map_table (table + VA_START) shift virtual_address;
  when created (track_kernel_page process next);;
  mret next.

Definition map_page (process : pcb_ptr) (virtual_address page_physical_address : Z) : K unit :=
  pcb ← load process;
  when (pgd (mm pcb) =? 0)
    (page ← get_free_page;
     update process (λ pcb, set_mm {| (mm pcb) with pgd := page |} pcb);;
     memzero (page + VA_START) PAGE_SIZE;;
     track_kernel_page process page);;
  pcb ← load process;
  pud ← map_level process (pgd (mm pcb)) PGD_SHIFT virtual_address;
  pmd ← map_level process pud PUD_SHIFT virtual_address;
  pte ← map_level process pmd PMD_SHIFT virtual_address;
  map_table_entry (pte + VA_START) virtual_address page_physical_address;;
  track_user_page process
    {| physical_address := page_physical_address; Process.virtual_address := virtual_address |}.

Definition allocate_user_page (process : pcb_ptr) (virtual_address : Z) : K Z :=
  page ← get_free_page;
  if page =? 0 then mret 0 else
  map_page process virtual_address page;;
  mret (page + VA_START).

Fixpoint write_sections (n : nat) (pmd pmd_index descriptor : Z) : K unit :=
  match n with
  | O => mret tt
  | S n' =>
      write_word (pmd + 8 * pmd_index) descriptor;;
      write_sections n' pmd (pmd_index + 1) (descriptor + SECTION_SIZE)
  end.
Definition map_sector (process : pcb_ptr)
    (start_virtual_address end_virtual_address page_physical_address flags : Z) : K Z :=
  let first_index := table_index start_virtual_address SECTION_SHIFT in
  let last_index := table_index end_virtual_address SECTION_SHIFT in
  let descriptor := Z.lor (Z.shiftl (Z.shiftr page_physical_address SECTION_SHIFT) SECTION_SHIFT) flags in
  pcb ← load process;
  pud_phys ← read_word (pgd (mm pcb) + VA_START + 8 * table_index start_virtual_address PGD_SHIFT);
  if negb (Z.testbit pud_phys 0) then mret (-1) else
  let pud := Z.land pud_phys PAGE_MASK + VA_START in
  pmd_phys ← read_word (pud + 8 * table_index start_virtual_address PUD_SHIFT);
  if negb (Z.testbit pmd_phys 0) then mret (-1) else
  let pmd := Z.land pmd_phys PAGE_MASK + VA_START in
  write_sections (Z.to_nat (last_index - first_index + 1)) pmd first_index descriptor;;
  mret 0.

(** The static [index] of [do_mem_abort] is passed in and out. *)
Definition do_mem_abort (index address esr : Z) : K (Z * Z) :=
  let dfs := Z.land esr 0x3f in
  if dfs / 0x3c =? 4 then
    page ← get_free_page;
    if page =? 0 then mret (-1, index) else
    current ← gets current_process;
    map_page current (Z.land address PAGE_MASK) page;;
    let index := index + 1 in
    mret ((if 2 <? index then -1 else 0), index)
  else mret (-1, index).

(** [for (i = 0; i < source_process->mm.n_user_pages; i++)]: [n] pages left. *)
Fixpoint copy_pages (n : nat) (i : Z) (source_process destination_process : pcb_ptr) : K Z :=
  match n with
  | O => mret 0
  | S n' =>
      source ← load source_process;
      page ← defined (arr_get (user_pages (mm source)) i);
      kernel_virtual_address ← allocate_user_page destination_process (virtual_address page);
      if kernel_virtual_address =? 0 then mret (-1) else
      memzero kernel_virtual_address PAGE_SIZE;;
      memcpy kernel_virtual_address (physical_address page + VA_START) PAGE_SIZE;;
      copy_pages n' (i + 1) source_process destination_process
  end.
Definition copy_virtual_memory (destination_process : pcb_ptr) : K Z :=
  source_process ← gets current_process;
  source ← load source_process;
  copy_pages (Z.to_nat (n_user_pages (mm source))) 0 source_process destination_process.

(** ** The allocator *)
Section allocator.
Implicit Types (used : gset Z) (w : gmap Z Z).

Lemma find_free_Some n i used j :
  find_free n i used = Some j →
  i ≤ j < i + Z.of_nat n ∧ j ∉ used ∧ (∀ k, i ≤ k < j → k ∈ used).
Proof.
  revert i. induction n as [|n IH]; intros i; cbn; [done|]. case_decide as Hi.
  - intros H. destruct (IH (i + 1) H) as (? & ? & Hk). split_and!; [lia|lia|done|].
    intros k Hlt. destruct (decide (k = i)) as [->|]; [done|]. apply Hk. lia.
  - intros [= <-]. split_and!; [lia|lia|done|lia].
Qed.
Lemma find_free_None n i used :
  find_free n i used = None → ∀ k, i ≤ k < i + Z.of_nat n → k ∈ used.
Proof.
  revert i. induction n as [|n IH]; intros i; cbn; [lia|]. case_decide as Hi; [|done].
  intros H k Hlt. destruct (decide (k = i)) as [->|]; [done|]. apply (IH (i + 1)); [done|lia].
Qed.

(** The words a page is made of. *)
Definition in_range (address size x : Z) : Prop := ∃ k, 0 ≤ k ∧ 8 * k < size ∧ x = address + 8 * k.
Lemma zero_words_spec n address w x :
  word_at (zero_words n address w) x =
  if decide ((x - address) mod 8 = 0 ∧ 0 ≤ x - address < 8 * Z.of_nat n) then 0 else word_at w x.
Proof.
  revert address w. induction n as [|n IH]; intros address w; cbn [zero_words].
  - by rewrite decide_False by lia.
  - rewrite IH. unfold word_at. destruct (decide (x = address)) as [->|Hne].
    + rewrite lookup_insert_eq. rewrite (decide_True (P:=(address - address) mod 8 = 0 ∧ _)).
      * by case_decide.
      * rewrite Z.sub_diag. split; [done|lia].
    + rewrite lookup_insert_ne by done. apply decide_ext.
      replace (x - (address + 8)) with (x - address + (-1) * 8) by lia.
      rewrite Z_mod_plus_full. split; intros [H1 H2]; (split; [done|]).
      * lia.
      * assert (x - address ≠ 0) by lia.
        assert (8 ≤ x - address); [|lia]. pose proof (Z.div_mod (x - address) 8). lia.
Qed.

Lemma wp_change_words f (Q : unit → kernel → Prop) s :
  Q tt (set_mem {| (mem s) with words := f (words (mem s)) |} s) → wp (change_words f) Q s.
Proof. done. Qed.

(** The memory after the allocation of page [i]. *)
Definition page_words : nat := 512.
Definition with_page (i : Z) (m : memory) : memory :=
  {| memory_pages := memory_pages m ∪ {[i]};
     words := zero_words page_words (page_address i + VA_START) (words m) |}.
Definition free_index (m : memory) : option Z := find_free (Z.to_nat N_PAGES) 0 (memory_pages m).

Lemma wp_get_free_page (Q : Z → kernel → Prop) s :
  match free_index (mem s) with
  | Some i => Q (page_address i) (set_mem (with_page i (mem s)) s)
  | None => Q 0 s
  end →
  wp get_free_page Q s.
Proof.
  intros HQ. unfold get_free_page. apply wp_bind, wp_gets. fold (free_index (mem s)).
  destruct (free_index (mem s)) as [i|]; [|by apply wp_ret].
  apply wp_bind, wp_modify, wp_bind. unfold memzero. apply wp_change_words, wp_ret.
  exact HQ.
Qed.

Lemma page_address_inj i j : page_address i = page_address j → i = j.
Proof. unfold page_address. change PAGE_SIZE with 4096. lia. Qed.
Lemma page_address_pos i : 0 ≤ i → 0 < page_address i.
Proof. unfold page_address. change PAGE_SIZE with 4096. change LOW_MEMORY with 4194304. lia. Qed.
Lemma free_index_range m i : free_index m = Some i → 0 ≤ i < N_PAGES ∧ i ∉ memory_pages m.
Proof.
  intros (Hi & Hn & _)%find_free_Some. split; [|done].
  rewrite Z2Nat.id in Hi; [lia|]. by vm_compute.
Qed.

Lemma page_index i :
  0 ≤ i < N_PAGES → (page_address i + VA_START) mod PAGE_SIZE = 0 ∧
  u64 (page_address i + VA_START - VA_START - LOW_MEMORY) / PAGE_SIZE = i.
Proof.
  intros Hi. unfold page_address, u64. change N_PAGES with 257024 in Hi. change PAGE_SIZE with 4096.
  change LOW_MEMORY with 4194304. change VA_START with 0xffff000000000000.
  replace (4194304 + i * 4096 + 0xffff000000000000 - 0xffff000000000000 - 4194304) with (i * 4096) by lia.
  rewrite (Z.mod_small (i * 4096)) by lia. split; [|by apply Z.div_mul].
  replace (4194304 + i * 4096 + 0xffff000000000000) with ((1024 + i + 0xffff000000000) * 4096) by lia.
  by apply Z.mod_mul.
Qed.

(** The memory after page [i] is given back. *)
Definition without_page (i : Z) (m : memory) : memory :=
  {| memory_pages := memory_pages m ∖ {[i]};
     words := zero_words page_words (page_address i + VA_START) (words m) |}.
Lemma wp_free_page i (Q : Z → kernel → Prop) s :
  0 ≤ i < N_PAGES → Q 0 (set_mem (without_page i (mem s)) s) → wp (free_page (page_address i + VA_START)) Q s.
Proof.
  intros Hi HQ. destruct (page_index i Hi) as [Ha Hj].
  unfold free_page. rewrite Ha. cbn [Z.eqb negb]. apply wp_bind. unfold memzero. apply wp_change_words.
  rewrite Hj, decide_True by lia. apply wp_bind, wp_modify, wp_ret. exact HQ.
Qed.
End allocator.
