(* ===== verification/Mmio.v ===== *)
(** * Memory-mapped devices

    A device is a state with the effects of reading and writing its registers ([Mmio]);
    the drivers are written against this interface and their theorems against the laws a
    device has.  The registers have 32 bits.  src/arch/mmio.h and src/arch/gpio.h. *)
From S2P Require Import Prelude.
From S2P Require Import Mm.
Local Open Scope Z_scope.

(** The value read and the state after it, from the address of a register. *)
Class Mmio (hw : Type) := {
  read_register : Z → hw → Z * hw;
  write_register : Z → Z → hw → hw
}.

(** src/arch/mmio.h *)
Definition MMIO_BASE : Z := VA_START + 0x3F000000.
(** src/arch/gpio.h, where the registers have their physical addresses *)
Definition GPIO_MMIO_BASE : Z := 0x3F000000.
Definition GPFSEL4 : Z := GPIO_MMIO_BASE + 0x00200010.
Definition GPFSEL5 : Z := GPIO_MMIO_BASE + 0x00200014.
Definition GPHEN1 : Z := GPIO_MMIO_BASE + 0x00200068.
Definition GPPUD : Z := GPIO_MMIO_BASE + 0x00200094.
Definition GPPUDCLK1 : Z := GPIO_MMIO_BASE + 0x0020009C.
