(* ===== verification/Uart.v ===== *)
(** * The console

    The receive side of src/drivers/uart/uart.c, the line editor [syscall_input] of
    src/libs/syscalls.c that empties its ring buffer, and [syscall_write].  The
    device is what the model reads from it: the interrupt status and the values the
    data register delivers while the receive FIFO is not empty.  Writes to the control
    registers of the device have no effect on the kernel state. *)
From S2P Require Import Prelude.
From S2P Require Import Process.
From S2P Require Import ReadyQueue.
From S2P Require Import Scheduler.
From S2P Require Import SchedSpec.
From S2P Require Import SchedInv.
From S2P Require Import SchedDispatch.
From S2P Require Import SchedPick.
From S2P Require Import SchedTick.
From S2P Require Import SchedOps.
From S2P Require Import CString.
From S2P Require Import Ipc.
Local Open Scope Z_scope.

(** ** Output *)

(** [for (i = 0; str[i] != '\0'; ++i) uart_putc(str[i]);] on the bytes at [str]. *)
Fixpoint uart_put_cstring (str : list Z) : K unit :=
  match str with
  | [] => undefined
  | c :: str' => if c =? NUL then mret tt else uart_putc c;; uart_put_cstring str'
  end.
Definition syscall_write (buffer : list Z) : K unit := uart_put_cstring buffer.
Definition syscall_write_hex (number : Z) : K unit := uart_hex (to_int number).

(** ** The receive interrupt *)
Definition CR : Z := 13.
Definition LF : Z := 10.
Definition DEL : Z := 127.
Definition newline : list Z := [CR; LF].
(** ["UART RX error "] and [": timeout\r\n"] *)
Definition rx_error_text : list Z := [85; 65; 82; 84; 32; 82; 88; 32; 101; 114; 114; 111; 114; 32].
Definition timeout_text : list Z := [58; 32; 116; 105; 109; 101; 111; 117; 116] ++ newline.

(** A byte enters the ring buffer unless that would make it look empty. *)
Definition uart_store (c : Z) : K unit :=
  head ← gets uart_head;
  tail ← gets uart_tail;
  let next_head := Z.rem (head + 1) UART_BUFFER_SIZE in
  when (negb (next_head =? tail))
    (buffer ← gets uart_buffer;
     buffer' ← defined (arr_set buffer head c);
     modify (set_uart_buffer buffer');;
     modify (set_uart_head next_head)).

Section irq.
Variable alg : SchedAlgorithm.

(** One turn of the loop on the receive FIFO. *)
Definition receive_data (dr : Z) : K unit :=
  let err := Z.land (Z.shiftr dr 8) 15 in
  if negb (err =? 0) then
    uart_put_bytes rx_error_text;; uart_hex err;; uart_put_bytes newline
  else
    uart_store (Z.land dr 255);;
    n ← gets n_processes;
    for_each (seqZ 0 n) (wake_slot alg PROCESS_WAITING_UART_INPUT).
Definition echo_data (dr : Z) : K unit := uart_putc (Z.land dr 255);; uart_put_bytes [LF].

(** [mis]: the masked interrupt status; [received]: what the data register delivers
    to the receive loop, [late]: to the loop of the receive timeout. *)
Definition handle_uart_irq (mis : Z) (received late : list Z) : K unit :=
  when (Z.testbit mis 4) (for_each received receive_data);;
  when (Z.testbit mis 6) (uart_put_bytes timeout_text;; for_each late echo_data).

(** ** Line input *)

(** [buffer] is the caller's buffer and [current_len] the length of the line in it. *)
Record input_line := { line_buffer : list Z; current_len : Z }.

(** [while (uart_tail != uart_head)]: whether a line was completed. *)
Fixpoint read_line (fuel : nat) (max_len : Z) (l : input_line) : K (bool * input_line) :=
  match fuel with
  | O => out_of_fuel
  | S fuel' =>
      tail ← gets uart_tail;
      head ← gets uart_head;
      if tail =? head then mret (false, l) else
      buffer ← gets uart_buffer;
      c ← defined (arr_get buffer tail);
      modify (set_uart_tail (Z.rem (tail + 1) UART_BUFFER_SIZE));;
      uart_putc c;;
      if (c =? CR) || (c =? LF) then
        modify (set_uart_owner None);;
        text ← defined (arr_set (line_buffer l) (current_len l) NUL);
        mret (true, {| line_buffer := text; current_len := current_len l |})
      else if c =? DEL then
        if 0 <? current_len l then
          uart_put_bytes [8; 32; 8];;
          text ← defined (arr_set (line_buffer l) (current_len l - 1) NUL);
          read_line fuel' max_len {| line_buffer := text; current_len := current_len l - 1 |}
        else read_line fuel' max_len l
      else if current_len l <? max_len then
        text ← defined (arr_set (line_buffer l) (current_len l) c);
        text' ← defined (arr_set text (current_len l + 1) NUL);
        read_line fuel' max_len {| line_buffer := text'; current_len := current_len l + 1 |}
      else read_line fuel' max_len l
  end.

(** Where the call resumes when its caller is dispatched again. *)
Inductive input_round :=
  | InputDone (l : input_line)
  | InputWaitsOwner
  | InputWaitsData (l : input_line).

(** [while (1) { if (uart_head == uart_tail) ...; while (...) ... }]: with an empty
    buffer, or once it has been emptied, the caller sleeps. *)
Definition input_loop (len : Z) (l : input_line) : K input_round :=
  let max_len := if 0 <? len then len - 1 else 0 in
  '(finished, l) ← read_line (S (Z.to_nat UART_BUFFER_SIZE)) max_len l;
  if finished : bool then mret (InputDone l) else
  update_current (set_state PROCESS_WAITING_UART_INPUT);;
  schedule alg;;
  mret (InputWaitsData l).
Definition syscall_input (buffer : list Z) (len : Z) : K input_round :=
  owner ← gets uart_owner;
  current ← gets current_process;
  if bool_decide (owner ≠ None ∧ owner ≠ Some current) then
    schedule alg;; mret InputWaitsOwner
  else
    modify (set_uart_owner (Some current));;
    input_loop len {| line_buffer := buffer; current_len := 0 |}.
End irq.

(** ** The ring buffer as a queue *)
Record uart_ok (k : kernel) : Prop := {
  uo_length : length (uart_buffer k) = Z.to_nat UART_BUFFER_SIZE;
  uo_head : 0 ≤ uart_head k < UART_BUFFER_SIZE;
  uo_tail : 0 ≤ uart_tail k < UART_BUFFER_SIZE
}.
(** The received bytes no call has read yet, oldest first. *)
Definition uart_count (k : kernel) : Z := (uart_head k - uart_tail k) mod UART_BUFFER_SIZE.
Definition uart_nth (k : kernel) (j : Z) : Z :=
  default 0 (arr_get (uart_buffer k) ((uart_tail k + j) mod UART_BUFFER_SIZE)).
Definition uart_pending (k : kernel) : list Z := uart_nth k <$> seqZ 0 (uart_count k).

Definition stored (c : Z) (k : kernel) : kernel :=
  let next_head := (uart_head k + 1) mod UART_BUFFER_SIZE in
  if next_head =? uart_tail k then k else
  set_uart_head next_head (set_uart_buffer (<[Z.to_nat (uart_head k) := c]> (uart_buffer k)) k).
Definition advanced (n : Z) (k : kernel) : kernel :=
  set_uart_tail ((uart_tail k + n) mod UART_BUFFER_SIZE) k.

Section ring.
Implicit Types (k : kernel).

Lemma uart_count_range k : 0 ≤ uart_count k < UART_BUFFER_SIZE.
Proof. by apply Z.mod_pos_bound. Qed.
Lemma uart_pending_length k : Z.of_nat (length (uart_pending k)) = uart_count k.
Proof.
  unfold uart_pending. rewrite length_fmap, length_seqZ. pose proof (uart_count_range k). lia.
Qed.

Lemma mod_next x n : 0 < n → 0 ≤ x < n → (x + 1) mod n = if x + 1 =? n then 0 else x + 1.
Proof.
  intros Hn Hx. destruct (Z.eqb_spec (x + 1) n) as [->|]; [by rewrite Z_mod_same_full|].
  apply Z.mod_small. lia.
Qed.

(** A stored byte comes last; a full buffer drops it. *)
Lemma stored_pending c k :
  uart_ok k → uart_ok (stored c k) ∧
  uart_pending (stored c k) =
    if uart_count k <? UART_BUFFER_SIZE - 1 then uart_pending k ++ [c] else uart_pending k.
Proof.
  intros [Hl Hh Ht]. unfold stored. rewrite mod_next by (done || lia).
  assert (Hc : uart_count k = if uart_tail k <=? uart_head k then uart_head k - uart_tail k
                              else uart_head k - uart_tail k + UART_BUFFER_SIZE).
  { unfold uart_count. destruct (Z.leb_spec (uart_tail k) (uart_head k)).
    - apply Z.mod_small. lia.
    - symmetry. apply Z.mod_unique with (-1); lia. }
  set (next := if uart_head k + 1 =? UART_BUFFER_SIZE then 0 else uart_head k + 1).
  assert (Hnext : 0 ≤ next < UART_BUFFER_SIZE ∧ (next = uart_tail k ↔ uart_count k = UART_BUFFER_SIZE - 1)).
  { unfold next. unfold UART_BUFFER_SIZE in *.
    destruct (Z.eqb_spec (uart_head k + 1) 64); destruct (Z.leb_spec (uart_tail k) (uart_head k)); lia. }
  destruct Hnext as [Hnr Hfull]. pose proof (uart_count_range k) as Hcr.
  destruct (Z.eqb_spec next (uart_tail k)) as [E|E].
  { split; [by split|]. destruct (Z.ltb_spec (uart_count k) (UART_BUFFER_SIZE - 1)); [|done]. lia. }
  split; [split; cbn; [by rewrite length_insert|done|done]|].
  destruct (Z.ltb_spec (uart_count k) (UART_BUFFER_SIZE - 1)); [|lia].
  assert (Hcount : uart_count (set_uart_head next
    (set_uart_buffer (<[Z.to_nat (uart_head k):=c]> (uart_buffer k)) k)) = uart_count k + 1).
  { unfold uart_count in Hc |- *. rewrite Hc. cbn. symmetry. unfold next, UART_BUFFER_SIZE in *.
    destruct (Z.eqb_spec (uart_head k + 1) 64); destruct (Z.leb_spec (uart_tail k) (uart_head k));
      [apply Z.mod_unique with (-1)|apply Z.mod_unique with (-1)|apply Z.mod_unique with 0
      |apply Z.mod_unique with (-1)]; lia. }
  assert (Hat : ∀ j, 0 ≤ j ≤ uart_count k →
    (uart_tail k + j) mod UART_BUFFER_SIZE = uart_head k ↔ j = uart_count k).
  { intros j Hj. rewrite Hc in Hj |- *. unfold UART_BUFFER_SIZE in *.
    destruct (Z.leb_spec (uart_tail k) (uart_head k)); destruct (decide (uart_tail k + j < 64));
      rewrite ?(Z.mod_small (uart_tail k + j)) by lia; [lia|lia|lia|].
    rewrite <- (Z.mod_unique (uart_tail k + j) 64 1 (uart_tail k + j - 64)) by lia. lia. }
  assert (Hn : ∀ j, 0 ≤ j ≤ uart_count k →
    uart_nth (set_uart_head next (set_uart_buffer (<[Z.to_nat (uart_head k):=c]> (uart_buffer k)) k)) j =
    if decide (j = uart_count k) then c else uart_nth k j).
  { intros j Hj. unfold uart_nth. cbn. rewrite arr_get_insert by (unfold UART_BUFFER_SIZE in *; lia).
    specialize (Hat j Hj). case_decide; case_decide; try done; exfalso; naive_solver. }
  unfold uart_pending. rewrite Hcount, seqZ_app, fmap_app by lia. f_equal.
  - apply list_fmap_ext. intros i j Hj%list_elem_of_lookup_2%elem_of_seqZ.
    rewrite Hn by lia. by rewrite decide_False by lia.
  - rewrite Z.add_0_l, seqZ_cons, seqZ_nil by lia. rewrite fmap_cons, fmap_nil, Hn by lia.
    by rewrite decide_True.
Qed.

(** Reading takes the oldest byte. *)
Lemma advanced_pending k :
  uart_ok k → uart_head k ≠ uart_tail k →
  uart_ok (advanced 1 k) ∧
  ∃ c, arr_get (uart_buffer k) (uart_tail k) = Some c ∧
    uart_pending k = c :: uart_pending (advanced 1 k).
Proof.
  intros [Hl Hh Ht] Hne. split; [split; [done|done|by apply Z.mod_pos_bound]|].
  destruct (proj2 (arr_get_is_Some (uart_buffer k) (uart_tail k))) as [c Hc];
    [unfold UART_BUFFER_SIZE in *; lia|].
  exists c. split; [done|].
  assert (Hcount : uart_count k = uart_count (advanced 1 k) + 1).
  { pose proof (uart_count_range k). unfold uart_count, advanced. cbn.
    assert (uart_count k ≠ 0).
    { unfold uart_count. intros E. apply Hne.
      pose proof (Z.div_mod (uart_head k - uart_tail k) UART_BUFFER_SIZE).
      unfold UART_BUFFER_SIZE in *. lia. }
    unfold uart_count in *. rewrite Zminus_mod_idemp_r.
    replace (uart_head k - (uart_tail k + 1)) with (uart_head k - uart_tail k - 1) by lia.
    rewrite <- (Zminus_mod_idemp_l (uart_head k - uart_tail k) 1).
    rewrite (Z.mod_small (_ mod _ - 1)) by lia. lia. }
  unfold uart_pending. pose proof (uart_count_range (advanced 1 k)).
  rewrite Hcount, seqZ_cons by lia.
  replace (Z.pred (uart_count (advanced 1 k) + 1)) with (uart_count (advanced 1 k)) by lia.
  cbn [fmap list_fmap]. f_equal.
  - unfold uart_nth. rewrite Z.add_0_r, Z.mod_small by done. by rewrite Hc.
  - change (Z.succ 0) with (1 + 0). rewrite <- fmap_add_seqZ, <- list_fmap_compose.
    apply list_fmap_ext. intros i j _. unfold uart_nth, advanced. cbn.
    rewrite Zplus_mod_idemp_l. by rewrite Z.add_assoc.
Qed.
Lemma no_pending k : uart_head k = uart_tail k → uart_pending k = [].
Proof. intros E. unfold uart_pending, uart_count. by rewrite E, Z.sub_diag. Qed.
End ring.

(** ** The line editor on lists *)

(** What one character that does not end the line does to it, and what it echoes
    besides itself. *)
Definition edit_char (max_len : Z) (line : list Z) (c : Z) : list Z * list Z :=
  if c =? DEL then
    if decide (line = []) then ([], []) else (take (length line - 1) line, [8; 32; 8])
  else if Z.of_nat (length line) <? max_len then (line ++ [c], []) else (line, []).
(** The line, the echo, and what is left unread when a line was completed. *)
Fixpoint edit (max_len : Z) (line input : list Z) : list Z * list Z * option (list Z) :=
  match input with
  | [] => (line, [], None)
  | c :: input' =>
      if (c =? CR) || (c =? LF) then (line, [u8 c], Some input') else
      let '(line', extra) := edit_char max_len line c in
      let '(line'', echo, rest) := edit max_len line' input' in
      (line'', u8 c :: extra ++ echo, rest)
  end.

(** [line] is what the buffer holds so far. *)
Definition holds (text line : list Z) : Prop := take (length line) text = line.

Lemma holds_append text line c :
  holds text line → (S (length line) < length text)%nat →
  holds (<[S (length line) := NUL]> (<[length line := c]> text)) (line ++ [c]).
Proof.
  unfold holds. intros Hh Hl. rewrite length_app. cbn [length].
  rewrite Nat.add_1_r, take_insert_ge by lia.
  erewrite take_S_r by (apply list_lookup_insert_eq; lia).
  by rewrite take_insert_ge, Hh by lia.
Qed.
Lemma holds_terminated text line :
  holds text line → (length line < length text)%nat →
  take (S (length line)) (<[length line := NUL]> text) = line ++ [NUL].
Proof.
  unfold holds. intros Hh Hl. erewrite take_S_r by (apply list_lookup_insert_eq; lia).
  by rewrite take_insert_ge, Hh by lia.
Qed.
Lemma holds_shorten text line i c :
  holds text line → (i ≤ length line)%nat → holds (<[i := c]> text) (take i line).
Proof.
  unfold holds. intros Hh Hi. rewrite length_take, (Nat.min_l _ _ Hi), take_insert_ge by lia.
  transitivity (take i (take (length line) text)); [by rewrite take_take, Nat.min_l by lia|by rewrite Hh].
Qed.

(** Reading [n] bytes and echoing [echo]; a completed line frees the console. *)
Definition read_effect (n : Z) (echo : list Z) (closed : bool) (k : kernel) : kernel :=
  set_uart_owner (if closed then None else uart_owner k)
    (set_uart_out (uart_out k ++ echo) (advanced n k)).

Lemma read_effect_nothing k : uart_ok k → read_effect 0 [] false k = k.
Proof.
  intros [_ _ Ht]. unfold read_effect, advanced. rewrite app_nil_r, Z.add_0_r, Z.mod_small by done.
  by destruct k.
Qed.
Lemma read_effect_trans n1 e1 n2 e2 closed k :
  read_effect n2 e2 closed (read_effect n1 e1 false k) = read_effect (n1 + n2) (e1 ++ e2) closed k.
Proof.
  unfold read_effect, advanced. cbn. rewrite <- app_assoc, Zplus_mod_idemp_l, Z.add_assoc. done.
Qed.

Section read_line.
Implicit Types (a : astate).

(** What a call to [read_line] leaves behind. *)
Definition read_result (max_len : Z) (line input : list Z) (a : astate) : astate :=
  let '(_, echo, rest) := edit max_len line input in
  a_core (read_effect (Z.of_nat (length input - length (default [] rest))) echo
            (bool_decide (is_Some rest))) a.

Lemma edit_rest_length max_len line input l e rest :
  edit max_len line input = (l, e, Some rest) → (length rest < length input)%nat.
Proof.
  revert line l e. induction input as [|c input IH]; intros line l e; cbn; [done|].
  case_match; [intros [= _ _ ->]; lia|]. destruct (edit_char max_len line c) as [l1 x].
  destruct (edit max_len l1 input) as [[l2 e2] r2] eqn:He. intros [= -> _ ->].
  apply IH in He. lia.
Qed.

(** One ordinary character. *)
Lemma read_result_cons max_len line c input a :
  (c =? CR) || (c =? LF) = false →
  read_result max_len line (c :: input) a =
  read_result max_len (edit_char max_len line c).1 input
    (a_core (read_effect 1 (u8 c :: (edit_char max_len line c).2) false) a).
Proof.
  intros Hc. unfold read_result. cbn [edit]. rewrite Hc.
  destruct (edit_char max_len line c) as [l1 x]. cbn [fst snd].
  destruct (edit max_len l1 input) as [[l2 e2] rest] eqn:He.
  change (a_core ?f (a_core ?g a)) with (a_core (λ k, f (g k)) a).
  unfold a_core. f_equal. rewrite read_effect_trans. f_equal.
  destruct rest as [rest|]; cbn; [apply edit_rest_length in He|]; lia.
Qed.

Lemma edit_char_length max_len line c :
  Z.of_nat (length line) ≤ max_len → Z.of_nat (length (edit_char max_len line c).1) ≤ max_len.
Proof.
  intros Hl. unfold edit_char. case_match; [case_decide; cbn; [lia|rewrite length_take; lia]|].
  destruct (Z.ltb_spec (Z.of_nat (length line)) max_len); cbn; [|done]. rewrite length_app. cbn. lia.
Qed.

(** What the loop promises about the caller's buffer. *)
Definition line_ok (max_len : Z) (size : nat) (r : list Z * list Z * option (list Z))
    (l : input_line) : Prop :=
  current_len l = Z.of_nat (length r.1.1) ∧ Z.of_nat (length r.1.1) ≤ max_len ∧
  length (line_buffer l) = size ∧ holds (line_buffer l) r.1.1 ∧
  (is_Some r.2 → take (S (length r.1.1)) (line_buffer l) = r.1.1 ++ [NUL]).

Lemma wp_read_line fuel max_len input (Q : bool * input_line → kernel → Prop) line l s a :
  rep s a → uart_ok (core a) → uart_pending (core a) = input → (length input < fuel)%nat →
  current_len l = Z.of_nat (length line) → holds (line_buffer l) line →
  Z.of_nat (length line) ≤ max_len → max_len < Z.of_nat (length (line_buffer l)) →
  (∀ s' l', let r := edit max_len line input in
     rep s' (read_result max_len line input a) → line_ok max_len (length (line_buffer l)) r l' →
     Q (bool_decide (is_Some r.2), l') s') →
  wp (read_line fuel max_len l) Q s.
Proof.
  revert fuel line l s a. induction input as [|c input IH];
    intros [|fuel] line [text n] s a Hr Hu Hp Hf Hn Hh Hle Hlt HQ; cbn [length current_len line_buffer] in *;
    try lia; subst n; cbn [read_line line_buffer current_len]; apply wp_bind, wp_gets, wp_bind, wp_gets;
    rewrite (rep_field uart_tail s a), (rep_field uart_head s a) by done.
  - assert (uart_tail (core a) = uart_head (core a)) as ->.
    { destruct (decide (uart_head (core a) = uart_tail (core a))) as [|Hne]; [done|].
      destruct (advanced_pending _ Hu Hne) as (_ & c & _ & Hc). by rewrite Hp in Hc. }
    rewrite Z.eqb_refl. apply wp_ret. apply HQ.
    + unfold read_result. cbn. unfold a_core. rewrite read_effect_nothing by done. by destruct a.
    + split_and!; try done. by intros [? [=]].
  - assert (Hne : uart_head (core a) ≠ uart_tail (core a)).
    { intros E. by rewrite (no_pending _ E) in Hp. }
    destruct (Z.eqb_spec (uart_tail (core a)) (uart_head (core a))); [congruence|].
    destruct (advanced_pending _ Hu Hne) as (Hu1 & c' & Hc' & Hpend). rewrite Hp in Hpend.
    injection Hpend as <- Hpend.
    apply wp_bind, wp_gets, wp_bind, wp_defined. rewrite (rep_field uart_buffer s a) by done.
    exists c. split; [done|]. pose proof (uo_tail _ Hu) as Htl. rewrite Z.rem_mod_nonneg by (done || lia).
    apply wp_bind. eapply wp_modify_core; [exact Hr|done..|]. intros s1 Hr1.
    apply wp_bind. eapply wp_modify_core; [exact Hr1|done..|]. intros s2 Hr2.
    destruct ((c =? CR) || (c =? LF)) eqn:Hcr.
    { apply wp_bind. eapply wp_modify_core; [exact Hr2|done..|]. intros s3 Hr3.
      apply wp_bind, wp_defined. exists (<[length line := NUL]> text).
      split; [rewrite arr_set_in, Nat2Z.id by lia; done|]. apply wp_ret.
      specialize (HQ s3 {| line_buffer := <[length line := NUL]> text; current_len := Z.of_nat (length line) |}).
      cbn [edit] in HQ. unfold read_result in HQ. cbn [edit] in HQ. rewrite Hcr in HQ. cbn in HQ.
      replace (Z.of_nat (S (length input) - length input)) with 1 in HQ by lia.
      apply HQ; [exact Hr3|]. split_and!; cbn; try done.
      - by rewrite length_insert.
      - unfold holds. rewrite take_insert_ge by lia. exact Hh.
      - intros _. apply holds_terminated; [done|lia]. }
    rewrite (read_result_cons max_len line c input a Hcr) in HQ. cbn [edit] in HQ. rewrite Hcr in HQ.
    pose proof (edit_char_length max_len line c Hle) as Hlen'.
    assert (Hnext : ∀ s' text', rep s' (a_core (read_effect 1 (u8 c :: (edit_char max_len line c).2) false) a) →
      length text' = length text → holds text' (edit_char max_len line c).1 →
      wp (read_line fuel max_len {| line_buffer := text';
            current_len := Z.of_nat (length (edit_char max_len line c).1) |}) Q s').
    { intros s' text' Hr' Hlt' Hh'. destruct (edit_char max_len line c) as [line' extra]; cbn [fst snd] in *.
      eapply (IH _ line' {| line_buffer := text'; current_len := _ |}); cbn [current_len line_buffer]; try done;
        [by destruct Hu1|lia|lia|]. intros s'' l' Hr'' Hok.
      destruct (edit max_len line' input) as [[l2 e2] r2]. cbn [fst snd] in *.
      apply HQ; [done|]. by rewrite Hlt' in Hok. }
    clear HQ IH. unfold edit_char in Hnext, Hlen'.
    destruct (c =? DEL).
    + destruct (decide (line = [])) as [->|Hline]; [by apply Hnext|].
      assert (Hpos : (0 < length line)%nat) by (destruct line; cbn; [done|lia]).
      destruct (Z.ltb_spec 0 (Z.of_nat (length line))); [|lia].
      apply wp_bind. eapply wp_uart_put_bytes; [exact Hr2|]. intros s3 Hr3.
      apply wp_bind, wp_defined. exists (<[(length line - 1)%nat := NUL]> text).
      split; [rewrite arr_set_in by lia; do 2 f_equal; lia|].
      cbn [fst snd] in Hnext. rewrite length_take in Hnext.
      replace (Z.of_nat (length line) - 1) with (Z.of_nat ((length line - 1) `min` length line)) by lia.
      apply Hnext; [|by rewrite length_insert|apply holds_shorten; [done|lia]].
      unfold a_output, a_core in Hr3 |- *. cbn in Hr3 |- *. rewrite <- app_assoc in Hr3. exact Hr3.
    + destruct (Z.ltb_spec (Z.of_nat (length line)) max_len); cbn [fst snd] in *; [|by apply Hnext].
      apply wp_bind, wp_defined. exists (<[length line := c]> text).
      split; [rewrite arr_set_in, Nat2Z.id by lia; done|].
      apply wp_bind, wp_defined. exists (<[S (length line) := NUL]> (<[length line := c]> text)).
      split; [rewrite arr_set_in by (rewrite length_insert; lia); do 2 f_equal; lia|].
      rewrite length_app in Hnext. cbn [length] in Hnext.
      replace (Z.of_nat (length line) + 1) with (Z.of_nat (length line + 1)) by lia.
      apply Hnext; [exact Hr2|by rewrite !length_insert|]. apply holds_append; [done|lia].
Qed.
End read_line.

(** ** The console on the abstract state *)

(** Changes of the console alone. *)
Definition console_only (g : kernel → kernel) : Prop :=
  ∀ k, heap (g k) = heap k ∧ processes (g k) = processes k ∧
    current_process (g k) = current_process k ∧ queue_level (g k) = queue_level k ∧
    n_processes (g k) = n_processes k ∧ mem (g k) = mem k.

Lemma read_effect_console n echo closed : console_only (read_effect n echo closed).
Proof. done. Qed.
Lemma stored_console c : console_only (stored c).
Proof. intros k. unfold stored. by case_match. Qed.
Lemma output_console l : console_only (λ k, set_uart_out (uart_out k ++ l) k).
Proof. done. Qed.
Lemma owner_console o : console_only (set_uart_owner o).
Proof. done. Qed.
#[export] Hint Resolve read_effect_console stored_console output_console owner_console : kernel.

Section console.
Context {alg : SchedAlgorithm}.
Implicit Types (a : astate) (p : pcb_ptr).

Lemma console_kernel_ok g a : kernel_ok alg a → console_only g → kernel_ok alg (a_core g a).
Proof.
  intros [Hi Hun] Hg. destruct (Hg (core a)) as (H1 & H2 & H3 & H4 & _). split.
  - apply kinv_core; try done; rewrite H4; apply Hi.
  - unfold current. cbn. by rewrite H3.
Qed.
Lemma console_state g a p : console_only g → state_of (a_core g a) p = state_of a p.
Proof.
  intros Hg. destruct (Hg (core a)) as (H1 & _). unfold state_of, pcb_at. cbn. by rewrite H1.
Qed.
Lemma console_current g a : console_only g → current (a_core g a) = current a.
Proof. intros Hg. by destruct (Hg (core a)) as (_ & _ & H3 & _). Qed.
Lemma console_processes g a : console_only g → processes (core (a_core g a)) = processes (core a).
Proof. intros Hg. by destruct (Hg (core a)) as (_ & H2 & _). Qed.

Definition hex_text (num : Z) : list Z :=
  (u8 <$> [48; 120]) ++
  ((λ i, u8 (hex_digit (Z.land (Z.shiftr (u64 num) i) 15))) <$> ((λ k, 60 - 4 * k) <$> seqZ 0 16)).
Lemma wp_put_each (f : Z → Z) l (Q : unit → kernel → Prop) s a :
  rep s a → (∀ s', rep s' (a_output ((λ i, u8 (f i)) <$> l) a) → Q tt s') →
  wp (for_each l (λ i, uart_putc (f i))) Q s.
Proof.
  revert s a. induction l as [|x l IH]; intros s a Hr HQ; cbn [for_each].
  - apply wp_ret, HQ. unfold a_output, a_core, set_uart_out. cbn. rewrite app_nil_r.
    by destruct a as [[] ?].
  - apply wp_bind. eapply wp_modify_core; [exact Hr|done..|]. intros s1 Hr1.
    eapply IH; [exact Hr1|]. intros s2 Hr2. apply HQ.
    unfold a_output, a_core, set_uart_out in *. cbn in *. by rewrite <- app_assoc in Hr2.
Qed.
Lemma wp_uart_hex num (Q : unit → kernel → Prop) s a :
  rep s a → (∀ s', rep s' (a_output (hex_text num) a) → Q tt s') → wp (uart_hex num) Q s.
Proof.
  intros Hr HQ. unfold uart_hex. apply wp_bind.
  eapply wp_uart_put_bytes; [exact Hr|]. intros s1 Hr1.
  eapply wp_put_each; [exact Hr1|]. intros s2 Hr2. apply HQ.
  unfold a_output, hex_text. unfold a_output in Hr2. unfold a_core, set_uart_out in *. cbn in Hr2 |- *.
  by rewrite <- !app_assoc in Hr2.
Qed.

Lemma wp_uart_store c (Q : unit → kernel → Prop) s a :
  rep s a → uart_ok (core a) →
  (∀ s', rep s' (a_core (stored c) a) → Q tt s') → wp (uart_store c) Q s.
Proof.
  intros Hr [Hl Hh Ht] HQ. unfold uart_store. apply wp_bind, wp_gets, wp_bind, wp_gets.
  rewrite (rep_field uart_tail s a), (rep_field uart_head s a) by done.
  rewrite Z.rem_mod_nonneg by (done || lia). cbn zeta. unfold stored in HQ. cbn zeta in HQ.
  apply wp_when. unfold a_core in HQ. destruct (_ =? uart_tail (core a)) eqn:E; cbn [negb].
  - apply HQ. destruct a. exact Hr.
  - apply wp_bind, wp_gets, wp_bind, wp_defined. rewrite (rep_field uart_buffer s a) by done.
    eexists. split; [apply arr_set_in; unfold UART_BUFFER_SIZE in *; lia|].
    apply wp_bind. eapply wp_modify_core; [exact Hr|done..|]. intros s1 Hr1.
    eapply wp_modify_core; [exact Hr1|done..|]. intros s2 Hr2. by apply HQ.
Qed.

(** One value of the data register: an error is reported, a byte is stored and
    everyone who waits for input wakes up. *)
Definition error_text (dr : Z) : list Z :=
  (u8 <$> rx_error_text) ++ hex_text (Z.land (Z.shiftr dr 8) 15) ++ (u8 <$> newline).
Definition a_receive_data (dr : Z) (a : astate) : astate :=
  if Z.land (Z.shiftr dr 8) 15 =? 0
  then a_wake_blocked (alg:=alg) PROCESS_WAITING_UART_INPUT (Z.to_nat (n_processes (core a)))
         (a_core (stored (Z.land dr 255)) a)
  else a_output (error_text dr) a.

(** What every step of the handler keeps. *)
Record irq_ok (a : astate) : Prop := {
  iq_ok : kernel_ok alg a;
  iq_uart : uart_ok (core a);
  iq_awake : state_of a (current a) ≠ PROCESS_WAITING_UART_INPUT;
  iq_count : 0 ≤ n_processes (core a);
  iq_filled : filled a (Z.to_nat (n_processes (core a)))
}.

Lemma console_irq_ok g a : irq_ok a → console_only g → uart_ok (g (core a)) → irq_ok (a_core g a).
Proof.
  intros [H1 H2 H3 H4 H5] Hg Hu. destruct (Hg (core a)) as (_ & Ht & _ & _ & Hn & _).
  split; [by apply console_kernel_ok|done|by rewrite console_current, console_state| |].
  - cbn. by rewrite Hn.
  - intros i Hi. cbn in *. rewrite Hn in Hi. rewrite Ht. by apply H5.
Qed.

Lemma wake_blocked_frame v n a :
  n_processes (core (a_wake_blocked (alg:=alg) v n a)) = n_processes (core a) ∧
  (uart_ok (core a) → uart_ok (core (a_wake_blocked (alg:=alg) v n a))) ∧
  uart_pending (core (a_wake_blocked (alg:=alg) v n a)) = uart_pending (core a) ∧
  uart_owner (core (a_wake_blocked (alg:=alg) v n a)) = uart_owner (core a).
Proof.
  unfold a_wake_blocked. generalize (omap id (take n (processes (core a)))). intros l. revert a.
  induction l as [|p l IH]; intros a; cbn; [done|].
  destruct (IH (a_wake_slot (alg:=alg) v a p)) as (-> & H2 & -> & ->).
  assert (H : ∃ h, core (a_wake_slot (alg:=alg) v a p) = set_heap h (core a)).
  { unfold a_wake_slot. case_decide; [|exists (heap (core a)); by destruct (core a)].
    unfold a_wake_ready, a_wake. destruct p; cbn [a_insert]; [by eexists|].
    rewrite put_core. by eexists. }
  destruct H as [h Hh]. rewrite Hh in *. split_and!; try done. intros [? ? ?]. by apply H2.
Qed.

Lemma wp_receive_data dr (Q : unit → kernel → Prop) s a :
  rep s a → irq_ok a →
  (∀ s', let a' := a_receive_data dr a in rep s' a' → irq_ok a' → current a' = current a →
     state_of a' (current a) = state_of a (current a) → Q tt s') →
  wp (receive_data alg dr) Q s.
Proof.
  intros Hr Hok HQ. unfold receive_data. cbn zeta. unfold a_receive_data in HQ. cbn zeta in HQ.
  destruct (Z.land (Z.shiftr dr 8) 15 =? 0); cbn [negb].
  - apply wp_bind. eapply wp_uart_store; [exact Hr|apply Hok|]. intros s1 Hr1.
    destruct (stored_pending (Z.land dr 255) (core a)) as [Hu1 _]; [apply Hok|].
    pose proof (stored_console (Z.land dr 255)) as Hg.
    pose proof (console_irq_ok _ _ Hok Hg Hu1) as Hok1. set (a1 := a_core _ a) in *.
    assert (Hn1 : n_processes (core a1) = n_processes (core a)) by by destruct (Hg (core a)) as (_&_&_&_&?&_).
    apply wp_bind, wp_gets. rewrite (rep_field n_processes s1 a1), Hn1 by done.
    rewrite <- (Z2Nat.id (n_processes (core a))) at 1 by apply Hok.
    destruct Hok1 as [Hk Hu Haw Hc Hf]. rewrite Hn1 in *.
    eapply wp_wake_blocked; [exact Hr1|exact Hk|done|done|done|].
    intros s2 a2 Hr2 Hok2 Hc2 Ht2 Hs2.
    destruct (wake_blocked_frame PROCESS_WAITING_UART_INPUT (Z.to_nat (n_processes (core a))) a1)
      as (Hn & Hu' & _). fold a2 in Hn, Hu', HQ.
    assert (Hcur : current a1 = current a) by by apply console_current.
    apply HQ; [done| |by rewrite Hc2|].
    + split; [done|auto|by rewrite Hc2, Hs2|by rewrite Hn, Hn1|].
      intros i Hi. rewrite Ht2. apply Hf. by rewrite Hn, Hn1 in Hi.
    + rewrite <- Hcur, Hs2. by apply console_state.
  - apply wp_bind. eapply wp_uart_put_bytes; [exact Hr|]. intros s1 Hr1.
    apply wp_bind. eapply wp_uart_hex; [exact Hr1|]. intros s2 Hr2.
    eapply wp_uart_put_bytes; [exact Hr2|]. intros s3 Hr3.
    rewrite !output_output in Hr3.
    apply HQ; [exact Hr3| |done|done].
    apply (console_irq_ok _ _ Hok); [apply output_console|by destruct (iq_uart _ Hok)].
Qed.

Lemma receive_data_owner dr a : uart_owner (core (a_receive_data dr a)) = uart_owner (core a).
Proof.
  unfold a_receive_data. case_match; [|done].
  destruct (wake_blocked_frame PROCESS_WAITING_UART_INPUT (Z.to_nat (n_processes (core a)))
    (a_core (stored (Z.land dr 255)) a)) as (_ & _ & _ & ->).
  cbn. unfold stored. by case_match.
Qed.

(** The handler: the receive loop, then the echo of the receive timeout. *)
Definition a_handle_uart_irq (mis : Z) (received late : list Z) (a : astate) : astate :=
  let a1 := if Z.testbit mis 4 then foldl (λ a dr, a_receive_data dr a) a received else a in
  if Z.testbit mis 6
  then a_output ((u8 <$> timeout_text) ++ concat ((λ dr, [u8 (Z.land dr 255); LF]) <$> late)) a1
  else a1.

Lemma wp_receive_all received (Q : unit → kernel → Prop) s a :
  rep s a → irq_ok a →
  (∀ s', let a' := foldl (λ a dr, a_receive_data dr a) a received in
     rep s' a' → irq_ok a' → current a' = current a →
     state_of a' (current a) = state_of a (current a) → Q tt s') →
  wp (for_each received (receive_data alg)) Q s.
Proof.
  revert s a. induction received as [|dr l IH]; intros s a Hr Hok HQ; cbn.
  - by apply wp_ret, HQ.
  - apply wp_bind. eapply wp_receive_data; [exact Hr|done|]. intros s1 a1 Hr1 Hok1 Hc1 Hs1.
    eapply IH; [exact Hr1|exact Hok1|]. intros s2 a2 Hr2 Hok2 Hc2 Hs2. rewrite Hc1, Hs1 in *.
    by apply HQ.
Qed.
Lemma wp_echo_all late (Q : unit → kernel → Prop) s a :
  rep s a →
  (∀ s', rep s' (a_output (concat ((λ dr, [u8 (Z.land dr 255); LF]) <$> late)) a) → Q tt s') →
  wp (for_each late echo_data) Q s.
Proof.
  revert s a. induction late as [|dr l IH]; intros s a Hr HQ; cbn [for_each].
  - apply wp_ret, HQ. unfold a_output, a_core, set_uart_out. cbn. rewrite app_nil_r.
    by destruct a as [[] ?].
  - unfold echo_data at 1. apply wp_bind, wp_bind. eapply wp_modify_core; [exact Hr|done..|].
    intros s1 Hr1. eapply wp_uart_put_bytes; [exact Hr1|]. intros s2 Hr2.
    eapply IH; [exact Hr2|]. intros s3 Hr3. apply HQ. rewrite output_output in Hr3.
    unfold a_output, a_core, set_uart_out in Hr3 |- *. cbn in Hr3 |- *.
    by rewrite <- !app_assoc in Hr3.
Qed.

Lemma wp_handle_uart_irq mis received late (Q : unit → kernel → Prop) s a :
  rep s a → irq_ok a →
  (∀ s', let a' := a_handle_uart_irq mis received late a in
     rep s' a' → irq_ok a' → current a' = current a →
     state_of a' (current a) = state_of a (current a) → Q tt s') →
  wp (handle_uart_irq alg mis received late) Q s.
Proof.
  intros Hr Hok HQ. unfold handle_uart_irq.
  assert (Hend : ∀ s1 a1, rep s1 a1 → irq_ok a1 → current a1 = current a →
    state_of a1 (current a) = state_of a (current a) →
    a_handle_uart_irq mis received late a =
      (if Z.testbit mis 6
       then a_output ((u8 <$> timeout_text) ++ concat ((λ dr, [u8 (Z.land dr 255); LF]) <$> late)) a1
       else a1) →
    wp (when (Z.testbit mis 6) (uart_put_bytes timeout_text;; for_each late echo_data)) Q s1).
  { intros s1 a1 Hr1 Hok1 Hc1 Hs1 Heq. cbn zeta in HQ. rewrite Heq in HQ. apply wp_when.
    destruct (Z.testbit mis 6); [|by apply HQ].
    apply wp_bind. eapply wp_uart_put_bytes; [exact Hr1|]. intros s2 Hr2.
    eapply wp_echo_all; [exact Hr2|]. intros s3 Hr3. rewrite output_output in Hr3.
    apply HQ; [exact Hr3| |done|done].
    apply (console_irq_ok _ _ Hok1); [apply output_console|by destruct (iq_uart _ Hok1)]. }
  unfold a_handle_uart_irq in Hend at 1. cbn zeta in Hend.
  apply wp_bind, wp_when. destruct (Z.testbit mis 4); [|by eapply Hend].
  eapply wp_receive_all; [exact Hr|exact Hok|]. intros s1 a1 Hr1 Hok1 Hc1 Hs1. by eapply Hend.
Qed.

(** *** Line input *)
Definition max_length (len : Z) : Z := if 0 <? len then len - 1 else 0.
Definition a_block_input (a : astate) : astate :=
  a_update (current a) (set_state PROCESS_WAITING_UART_INPUT) a.

(** A call by the owner of the console: it either returns a line or sleeps until
    more input arrives. *)
Definition input_post (len : Z) (line : list Z) (l : input_line) (a : astate)
    (r : input_round) (s' : kernel) : Prop :=
  let input := uart_pending (core a) in
  let e := edit (max_length len) line input in
  ∃ l', line_ok (max_length len) (length (line_buffer l)) e l' ∧
  let a' := read_result (max_length len) line input a in
  match e.2 with
  | Some _ => r = InputDone l' ∧ rep s' a' ∧ kernel_ok alg a' ∧ dispatched a'
  | None => r = InputWaitsData l' ∧ decides (alg:=alg) (a_schedule alg) (a_block_input a') s'
  end.

Lemma read_result_console max_len line input a :
  ∃ g, console_only g ∧ read_result max_len line input a = a_core g a.
Proof.
  unfold read_result. destruct (edit max_len line input) as [[? ?] ?].
  eexists. split; [apply read_effect_console|done].
Qed.

Lemma wp_input_loop len line l s a :
  alg_ok alg → rep s a → caller alg a → uart_ok (core a) →
  current_len l = Z.of_nat (length line) → holds (line_buffer l) line →
  Z.of_nat (length line) ≤ max_length len → max_length len < Z.of_nat (length (line_buffer l)) →
  wp (input_loop alg len l) (input_post len line l a) s.
Proof.
  intros Hao Hr [Hok Hne Hrun] Hu Hn Hh Hle Hlt. unfold input_loop. fold (max_length len).
  apply wp_bind. pose proof (uart_pending_length (core a)) as Hpl.
  pose proof (uart_count_range (core a)) as Hcr.
  eapply (wp_read_line _ _ (uart_pending (core a))); [exact Hr|done|done| |done..|].
  { unfold UART_BUFFER_SIZE in *. lia. }
  intros s1 l1. cbn zeta. intros Hr1 Hl1. unfold input_post. cbn zeta.
  destruct (read_result_console (max_length len) line (uart_pending (core a)) a) as (g & Hg & Heq).
  rewrite Heq in *. set (a1 := a_core g a) in *.
  assert (Hok1 : kernel_ok alg a1) by by apply console_kernel_ok.
  assert (Hc1 : current a1 = current a) by by apply console_current.
  assert (Hs1 : state_of a1 (current a) = PROCESS_RUNNING) by (rewrite <- Hrun; by apply console_state).
  destruct (edit _ _ _) as [[line' echo] [rest|]]; cbn [fst snd] in *.
  - rewrite bool_decide_true by eauto. apply wp_ret. exists l1. split_and!; try done.
    left. by rewrite Hc1.
  - rewrite bool_decide_false by (by intros [? [=]]).
    destruct (current_pcb _ Hok1) as (x & Hx & _).
    apply wp_bind. eapply wp_update_current; [exact Hr1|auto with kernel|exact Hx|]. intros s2 Hr2.
    apply wp_bind. eapply wp_mono; [apply wp_schedule; [done|exact Hr2|]|].
    + by apply (kernel_ok_block _ PROCESS_WAITING_UART_INPUT); [|auto with kernel|..].
    + intros [] s3 Hd. apply wp_ret. exists l1. by split.
Qed.

Lemma wp_syscall_input_wait buffer len s a :
  alg_ok alg → rep s a → caller alg a →
  uart_owner (core a) ≠ None → uart_owner (core a) ≠ Some (current a) →
  wp (syscall_input alg buffer len)
    (λ r s', r = InputWaitsOwner ∧ decides (alg:=alg) (a_schedule alg) a s') s.
Proof.
  intros Hao Hr [Hok _ _] H1 H2. unfold syscall_input. apply wp_bind, wp_gets, wp_bind, wp_gets.
  rewrite (rep_field uart_owner s a), (rep_current _ _ Hr) by done.
  rewrite bool_decide_true by done. apply wp_bind.
  eapply wp_mono; [by apply wp_schedule|]. intros [] s1 Hd. by apply wp_ret.
Qed.
Lemma wp_syscall_input buffer len s a :
  alg_ok alg → rep s a → caller alg a → uart_ok (core a) →
  uart_owner (core a) = None ∨ uart_owner (core a) = Some (current a) →
  max_length len < Z.of_nat (length buffer) →
  wp (syscall_input alg buffer len)
    (input_post len [] {| line_buffer := buffer; current_len := 0 |}
       (a_core (set_uart_owner (Some (current a))) a)) s.
Proof.
  intros Hao Hr [Hok Hne Hrun] Hu Hown Hlen. unfold syscall_input.
  apply wp_bind, wp_gets, wp_bind, wp_gets.
  rewrite (rep_field uart_owner s a), (rep_current _ _ Hr) by done.
  rewrite bool_decide_false by naive_solver. apply wp_bind.
  eapply wp_modify_core; [exact Hr|done..|]. intros s1 Hr1.
  eapply wp_input_loop; try done.
  - split; [|done|done]. apply console_kernel_ok; [done|apply owner_console].
  - by destruct Hu.
  - cbn. unfold max_length. case_match; lia.
Qed.
End console.
