(* ===== verification/Irq.v ===== *)
(** * Interrupts

    src/drivers/irq/controller.c, src/drivers/timer/timer.c and the entry and exit of the
    exception vectors in src/drivers/irq/entry.S.  The devices are an [Mmio]; what the UART
    delivers to its handler is a parameter, as in [Uart]. *)
From stdpp Require Import strings.
From S2P Require Import Prelude.
From S2P Require Import Process.
From S2P Require Import Scheduler.
From S2P Require Import Uart.
From S2P Require Import Mmio.
Local Open Scope Z_scope.

Definition TIMER_BASE : Z := 0x00003000.
Definition TIMER_CS : Z := TIMER_BASE + 0x00.
Definition TIMER_CLO : Z := TIMER_BASE + 0x04.
Definition TIMER_C1 : Z := TIMER_BASE + 0x10.
Definition TIMER_CS_M1 : Z := Z.shiftl 1 1.
Definition TIMER_PERIOD : Z := 10000.
Definition IRQ_PENDING_1 : Z := 0x0000B204.
Definition IRQ_PENDING_2 : Z := 0x0000B208.
Definition ENABLE_IRQS_1 : Z := 0x0000B210.
Definition ENABLE_IRQS_2 : Z := 0x0000B214.
Definition SYSTEM_TIMER_IRQ_1 : Z := Z.shiftl 1 1.
Definition UART0_IRQ_BIT : Z := Z.shiftl 1 25.

(** ** State *)

(** [cur_val]: the global [curVal] of timer.c. *)
Record machine (hw : Type) := { kern : kernel; devices : hw; cur_val : Z }.
Arguments kern {hw}.
Arguments devices {hw}.
Arguments cur_val {hw}.

Section interrupts.
Context {hw : Type} `{!Mmio hw}.
Variable alg : SchedAlgorithm.
(** The interrupt status of the UART and what its data register delivers. *)
Variable mis : Z.
Variables received late : list Z.
Abbreviation I := (M (machine hw)).

Definition set_kern k (m : machine hw) : machine hw := {| m with kern := k |}.
Definition set_devices h (m : machine hw) : machine hw := {| m with devices := h |}.
Definition set_cur_val v (m : machine hw) : machine hw := {| m with cur_val := v |}.
Definition in_kernel {A} (c : K A) : I A := λ m,
  match c (kern m) with
  | Done a k => Done a (set_kern k m)
  | Undefined => Undefined
  | Fuel => Fuel
  end.
Definition mmio_read (reg : Z) : I Z := λ m,
  let r := read_register (MMIO_BASE + reg) (devices m) in Done (u32 r.1) (set_devices r.2 m).
Definition mmio_write (reg data : Z) : I unit :=
  modify (λ m, set_devices (write_register (MMIO_BASE + reg) (u32 data) (devices m)) m).

(** ** The timer *)
Definition timer_init : I unit :=
  clo ← mmio_read TIMER_CLO;
  let curVal := u32 (clo + TIMER_PERIOD) in
  modify (set_cur_val curVal);;
  mmio_write TIMER_C1 curVal.
Definition handle_timer_irq : I unit :=
  mmio_write TIMER_CS TIMER_CS_M1;;
  clo ← mmio_read TIMER_CLO;
  let curVal := u32 (clo + TIMER_PERIOD) in
  modify (set_cur_val curVal);;
  mmio_write TIMER_C1 curVal;;
  in_kernel (handle_timer_tick alg).

(** ** The interrupt controller *)
Definition enable_interrupt_controller : I unit :=
  v1 ← mmio_read ENABLE_IRQS_1;
  mmio_write ENABLE_IRQS_1 (Z.lor v1 SYSTEM_TIMER_IRQ_1);;
  v2 ← mmio_read ENABLE_IRQS_2;
  mmio_write ENABLE_IRQS_2 (Z.lor v2 UART0_IRQ_BIT).
Definition unknown_irq (p1 p2 : Z) : K unit :=
  uart_puts "Unknown pending irq: ";;
  uart_hex (Z.lor (Z.shiftl p1 32) p2);;
  uart_put_bytes newline.
Definition handle_irq : I unit :=
  p1 ← mmio_read IRQ_PENDING_1;
  p2 ← mmio_read IRQ_PENDING_2;
  if negb (Z.land p1 SYSTEM_TIMER_IRQ_1 =? 0) then handle_timer_irq else
  if negb (Z.land p2 UART0_IRQ_BIT =? 0) then in_kernel (handle_uart_irq alg mis received late) else
  in_kernel (unknown_irq p1 p2).

(** *** Exceptions nobody expects *)
Definition entry_error_messages : list string :=
  ["SYNC_INVALID_EL1t"; "IRQ_INVALID_EL1t"; "FIQ_INVALID_EL1t"; "ERROR_INVALID_EL1T";
   "SYNC_INVALID_EL1h"; "IRQ_INVALID_EL1h"; "FIQ_INVALID_EL1h"; "ERROR_INVALID_EL1h";
   "SYNC_INVALID_EL0_64"; "IRQ_INVALID_EL0_64"; "FIQ_INVALID_EL0_64"; "ERROR_INVALID_EL0_64";
   "SYNC_INVALID_EL0_32"; "IRQ_INVALID_EL0_32"; "FIQ_INVALID_EL0_32"; "ERROR_INVALID_EL0_32"].
Definition DATA_ABORT_ERROR : Z := 15.
Definition SYNC_ERROR : Z := 16.
Definition SYSCALL_ERROR : Z := 17.
Definition show_invalid_entry_message (type esr address : Z) : K unit :=
  uart_puts "[KERNEL PANIC] ";;
  message ← defined (arr_get entry_error_messages type);
  uart_puts message;;
  uart_puts ", ESR: ";;
  uart_hex esr;;
  uart_puts ", address: ";;
  uart_hex address;;
  uart_puts ", process: ";;
  pcb ← load_current;
  uart_hex (pid pcb);;
  uart_put_bytes newline.
End interrupts.

(** ** Entry to and exit from an exception *)

(** The registers: [x0] to [x30], the stack pointers of the two levels, the return address
    and the saved state. *)
Record cpu_registers := { x : list Z; sp_el0 : Z; sp_el1 : Z; elr_el1 : Z; spsr_el1 : Z }.
Definition S_FRAME_SIZE : Z := 272.
Definition xn (n : nat) (c : cpu_registers) : Z := default 0 (x c !! n).

(** [kernel_entry el]: the frame at the new stack pointer, word by word, and the registers
    it leaves, where [x21], [x22] and [x23] have been used. *)
Definition kernel_entry (el : Z) (c : cpu_registers) : list Z * cpu_registers :=
  let sp := sp_el1 c - S_FRAME_SIZE in
  let x21 := if el =? 0 then sp_el0 c else sp + S_FRAME_SIZE in
  (take 30 (x c) ++ [xn 30 c; x21; elr_el1 c; spsr_el1 c],
   {| x := <[21%nat := x21]> (<[22%nat := elr_el1 c]> (<[23%nat := spsr_el1 c]> (x c)));
      sp_el0 := sp_el0 c; sp_el1 := sp; elr_el1 := elr_el1 c; spsr_el1 := spsr_el1 c |}).
(** [kernel_exit el] with the frame at the stack pointer. *)
Definition kernel_exit (el : Z) (frame : list Z) (c : cpu_registers) : cpu_registers :=
  let word n := default 0 (frame !! n) in
  {| x := take 30 frame ++ [word 30%nat];
     sp_el0 := if el =? 0 then word 31%nat else sp_el0 c;
     sp_el1 := sp_el1 c + S_FRAME_SIZE;
     elr_el1 := word 32%nat; spsr_el1 := word 33%nat |}.
