(* ===== verification/Paging.v ===== *)
(** * Virtual memory

    What the page tables that src/libs/mm.c builds mean: the address the MMU translates a
    user address to, walking four levels of tables from the base in TTBR0_EL1, and the
    bytes a process finds there. *)
From S2P Require Import Prelude.
From S2P Require Import Process.
From S2P Require Import Mm.
Local Open Scope Z_scope.

(** ** The walk *)

(** The next table, or the page, of a valid entry of the table at the physical address
    [table]. *)
Definition walk_step (w : gmap Z Z) (shift virtual_address table : Z) : option Z :=
  let entry := word_at w (table + VA_START + 8 * table_index virtual_address shift) in
  if Z.testbit entry 0 then Some (Z.land entry PAGE_MASK) else None.
Definition translate (w : gmap Z Z) (pgd virtual_address : Z) : option Z :=
  pud ← walk_step w PGD_SHIFT virtual_address pgd;
  pmd ← walk_step w PUD_SHIFT virtual_address pud;
  pte ← walk_step w PMD_SHIFT virtual_address pmd;
  page ← walk_step w PAGE_SHIFT virtual_address pte;
  Some (page + virtual_address mod PAGE_SIZE).

(** [*virtual_address = v;] by the process on the CPU: an address that is not mapped faults. *)
Definition user_store (virtual_address v : Z) : K unit :=
  base ← gets ttbr0_el1;
  m ← gets mem;
  physical ← defined (translate (words m) base virtual_address);
  change_words (set_byte (physical + VA_START) v).

(** ** Words of pages *)
Definition in_page (i address : Z) : Prop :=
  page_address i + VA_START ≤ address < page_address i + VA_START + PAGE_SIZE.
(** Entry [i] of a table. *)
Definition slot (table i : Z) : Z := table + VA_START + 8 * i.
Definition index_ok (i : Z) : Prop := 0 ≤ i < PTRS_PER_TABLE.

Lemma in_page_disjoint i j address : in_page i address → in_page j address → i = j.
Proof. unfold in_page, page_address. change PAGE_SIZE with 4096. lia. Qed.
Lemma slot_in_page i k : index_ok k → in_page i (slot (page_address i) k).
Proof. unfold index_ok, in_page, slot. change PTRS_PER_TABLE with 512. change PAGE_SIZE with 4096. lia. Qed.
Lemma table_index_ok virtual_address shift : index_ok (table_index virtual_address shift).
Proof.
  unfold table_index, index_ok. change (PTRS_PER_TABLE - 1) with (Z.ones 9). change PTRS_PER_TABLE with (2 ^ 9).
  rewrite Z.land_ones by lia. by apply Z.mod_pos_bound.
Qed.
Lemma table_index_div virtual_address shift :
  0 ≤ shift → table_index virtual_address shift = (virtual_address / 2 ^ shift) mod 512.
Proof.
  intros Hs. unfold table_index. change (PTRS_PER_TABLE - 1) with (Z.ones 9).
  by rewrite Z.land_ones, Z.shiftr_div_pow2 by lia.
Qed.

Lemma word_at_insert w address v x :
  word_at (<[address := v]> w) x = if decide (x = address) then v else word_at w x.
Proof.
  unfold word_at. case_decide as E; [subst; by rewrite lookup_insert_eq|by rewrite lookup_insert_ne].
Qed.
(** A page that is zeroed, at the words of tables. *)
Lemma zero_page_spec i w x :
  word_at (zero_words page_words (page_address i + VA_START) w) x =
  if decide (in_page i x ∧ (x - page_address i - VA_START) mod 8 = 0) then 0 else word_at w x.
Proof.
  rewrite zero_words_spec. apply decide_ext. unfold in_page, page_words. change PAGE_SIZE with 4096.
  replace (x - (page_address i + VA_START)) with (x - page_address i - VA_START) by lia. split; intros [? ?]; (split; [lia|done || lia]).
Qed.
Lemma slot_aligned i k : (slot (page_address i) k - page_address i - VA_START) mod 8 = 0.
Proof.
  unfold slot. replace (page_address i + VA_START + 8 * k - page_address i - VA_START) with (k * 8) by lia.
  apply Z.mod_mul. lia.
Qed.

(** Descriptors: a page and its attributes. *)
Lemma descriptor i flags :
  0 ≤ i < N_PAGES → 0 ≤ flags < PAGE_SIZE → Z.testbit flags 0 = true →
  Z.testbit (Z.lor (page_address i) flags) 0 = true ∧ Z.land (Z.lor (page_address i) flags) PAGE_MASK = page_address i ∧
  u64 (Z.lor (page_address i) flags) = Z.lor (page_address i) flags.
Proof.
  intros Hi Hf Hb. assert (E : page_address i = Z.shiftl (LOW_MEMORY / PAGE_SIZE + i) 12).
  { unfold page_address. rewrite Z.shiftl_mul_pow2 by lia. change LOW_MEMORY with 4194304. change PAGE_SIZE with 4096.
    change (4194304 / 4096) with 1024. lia. }
  set (q := LOW_MEMORY / PAGE_SIZE + i) in *.
  assert (Hq : 0 ≤ q < 2 ^ 52).
  { unfold q. change N_PAGES with 257024 in Hi. change (LOW_MEMORY / PAGE_SIZE) with 1024. lia. }
  assert (Hhigh : ∀ n, 12 ≤ n → Z.testbit flags n = false).
  { intros n Hn. change PAGE_SIZE with (2 ^ 12) in Hf. destruct (decide (flags = 0)) as [->|]; [by rewrite Z.bits_0|].
    apply Z.bits_above_log2; [lia|]. apply Z.log2_lt_pow2; [lia|].
    eapply Z.lt_le_trans; [apply Hf|]. apply Z.pow_le_mono_r; lia. }
  assert (Hqhigh : ∀ n, 52 ≤ n → Z.testbit q n = false).
  { intros n Hn. destruct (decide (q = 0)) as [->|]; [by rewrite Z.bits_0|].
    apply Z.bits_above_log2; [lia|]. apply Z.log2_lt_pow2; [lia|].
    eapply Z.lt_le_trans; [apply Hq|]. apply Z.pow_le_mono_r; lia. }
  rewrite E. split_and!.
  - by rewrite Z.lor_spec, Hb, orb_true_r.
  - change PAGE_MASK with (Z.shiftl (Z.ones 52) 12). apply Z.bits_inj'. intros n Hn.
    rewrite Z.land_spec, Z.lor_spec, !Z.shiftl_spec by done.
    destruct (decide (n < 12)); [rewrite !(Z.testbit_neg_r _ (n - 12)) by lia; apply andb_false_r|].
    rewrite Hhigh, orb_false_r by lia. destruct (decide (n - 12 < 52)).
    + by rewrite Z.ones_spec_low, andb_true_r by lia.
    + rewrite Hqhigh by lia. done.
  - unfold u64. rewrite <- Z.land_ones by lia. apply Z.bits_inj'. intros n Hn.
    rewrite Z.land_spec, Z.lor_spec, Z.shiftl_spec by done. destruct (decide (n < 64)).
    + by rewrite Z.ones_spec_low, andb_true_r by lia.
    + rewrite Hqhigh, Hhigh by lia. done.
Qed.

(** ** The tree of tables

    [t] gives the physical address of the table or page at a path of indices: the root
    at the empty path, tables at paths of up to three, user pages at paths of four. *)
Abbreviation tree := (gmap (list Z) Z).
Definition path_of (virtual_address : Z) : list Z :=
  [table_index virtual_address PGD_SHIFT; table_index virtual_address PUD_SHIFT;
   table_index virtual_address PMD_SHIFT; table_index virtual_address PAGE_SHIFT].
Definition table_entry (o : option Z) : Z := from_option (λ b, Z.lor b MM_TYPE_PAGE_TABLE) 0 o.

Record tables_ok (m : memory) (t : tree) : Prop := {
  ta_used : ∀ i, i ∈ memory_pages m → 0 ≤ i < N_PAGES;
  ta_page : ∀ x a, t !! x = Some a → ∃ i, a = page_address i ∧ i ∈ memory_pages m;
  ta_inj : ∀ x y a, t !! x = Some a → t !! y = Some a → x = y;
  ta_parent : ∀ x i a, t !! (x ++ [i]) = Some a → is_Some (t !! x) ∧ index_ok i ∧ (length x ≤ 3)%nat;
  ta_table : ∀ x a i, t !! x = Some a → (length x < 3)%nat → index_ok i →
    word_at (words m) (slot a i) = table_entry (t !! (x ++ [i]));
  ta_leaf : ∀ x a i b, t !! x = Some a → length x = 3%nat → t !! (x ++ [i]) = Some b →
    word_at (words m) (slot a i) = Z.lor b MMU_PTE_FLAGS
}.

Lemma tables_page m t x a : tables_ok m t → t !! x = Some a → ∃ i, a = page_address i ∧ 0 ≤ i < N_PAGES.
Proof. intros Hm Ha. destruct (ta_page _ _ Hm _ _ Ha) as (i & -> & Hi). exists i. split; [done|]. by apply (ta_used _ _ Hm). Qed.

Lemma walk_child m t x table shift virtual_address :
  tables_ok m t → t !! x = Some table → (length x < 3)%nat →
  walk_step (words m) shift virtual_address table = t !! (x ++ [table_index virtual_address shift]).
Proof.
  intros Hm Hx Hl. unfold walk_step. pose proof (ta_table _ _ Hm _ _ _ Hx Hl (table_index_ok virtual_address shift)) as E.
  unfold slot in E. rewrite E. destruct (t !! (x ++ _)) as [b|] eqn:Hb; [|done]. cbn [table_entry from_option].
  destruct (tables_page _ _ _ _ Hm Hb) as (i & -> & Hi).
  by destruct (descriptor i MM_TYPE_PAGE_TABLE Hi) as (-> & -> & _).
Qed.
(** What a walk finds: the tables lead to the last one, whose entry decides. *)
Lemma translate_tables m t pgd va :
  tables_ok m t → t !! [] = Some pgd →
  translate (words m) pgd va =
  match t !! [table_index va PGD_SHIFT; table_index va PUD_SHIFT; table_index va PMD_SHIFT] with
  | Some pte => page ← walk_step (words m) PAGE_SHIFT va pte; Some (page + va mod PAGE_SIZE)
  | None => None
  end.
Proof.
  intros Hm Hr. unfold translate. rewrite (walk_child m t []) by (done || (cbn; lia)). cbn [app].
  destruct (t !! [table_index va PGD_SHIFT]) as [pud|] eqn:H1; cbn [mbind option_bind].
  - rewrite (walk_child m t [table_index va PGD_SHIFT]) by (done || (cbn; lia)). cbn [app].
    destruct (t !! [table_index va PGD_SHIFT; table_index va PUD_SHIFT]) as [pmd|] eqn:H2; cbn [mbind option_bind].
    + rewrite (walk_child m t [table_index va PGD_SHIFT; table_index va PUD_SHIFT]) by (done || (cbn; lia)). cbn [app].
      by destruct (t !! [table_index va PGD_SHIFT; table_index va PUD_SHIFT; table_index va PMD_SHIFT]).
    + destruct (t !! [table_index va PGD_SHIFT; table_index va PUD_SHIFT; table_index va PMD_SHIFT]) as [a|] eqn:H3; [|done].
      destruct (ta_parent _ _ Hm [table_index va PGD_SHIFT; table_index va PUD_SHIFT] _ _ H3) as [[? E] _]. congruence.
  - destruct (t !! [table_index va PGD_SHIFT; table_index va PUD_SHIFT; table_index va PMD_SHIFT]) as [a|] eqn:H3; [|done].
    destruct (ta_parent _ _ Hm [table_index va PGD_SHIFT; table_index va PUD_SHIFT] _ _ H3) as [[? E] _].
    destruct (ta_parent _ _ Hm [table_index va PGD_SHIFT] _ _ E) as [[? E'] _]. congruence.
Qed.
Lemma translate_mapped m t pgd va b :
  tables_ok m t → t !! [] = Some pgd → t !! path_of va = Some b →
  translate (words m) pgd va = Some (b + va mod PAGE_SIZE).
Proof.
  intros Hm Hr Hb. rewrite (translate_tables m t) by done.
  destruct (ta_parent _ _ Hm [table_index va PGD_SHIFT; table_index va PUD_SHIFT; table_index va PMD_SHIFT] _ _ Hb) as [[pte Ht] _].
  rewrite Ht. unfold walk_step.
  pose proof (ta_leaf _ _ Hm _ _ (table_index va PAGE_SHIFT) b Ht eq_refl Hb) as E. unfold slot in E. rewrite E.
  destruct (tables_page _ _ _ _ Hm Hb) as (i & -> & Hi).
  by destruct (descriptor i MMU_PTE_FLAGS Hi) as (-> & -> & _).
Qed.

(** Addresses of the same page have the same path. *)
Lemma path_of_page va va' :
  0 ≤ va < 2 ^ 48 → 0 ≤ va' < 2 ^ 48 → path_of va = path_of va' ↔ va / PAGE_SIZE = va' / PAGE_SIZE.
Proof.
  intros H H'. unfold path_of. change PGD_SHIFT with 39. change PUD_SHIFT with 30. change PMD_SHIFT with 21.
  change PAGE_SHIFT with 12. change PAGE_SIZE with (2 ^ 12). rewrite !table_index_div by lia.
  assert (E : ∀ v k, 0 ≤ k → v / 2 ^ (12 + k) = v / 2 ^ 12 / 2 ^ k).
  { intros v k Hk. by rewrite Z.pow_add_r, Z.div_div by lia. }
  change 39 with (12 + 27). change 30 with (12 + 18). change 21 with (12 + 9). rewrite !E by lia.
  assert (R : ∀ v, 0 ≤ v < 2 ^ 48 → 0 ≤ v / 2 ^ 12 < 2 ^ 36).
  { intros v Hv. split; [apply Z.div_pos; lia|]. apply Z.div_lt_upper_bound; [lia|]. exact (proj2 Hv). }
  apply R in H, H'. revert H H'. generalize (va / 2 ^ 12) (va' / 2 ^ 12). clear. intros q q' H H'.
  change (2 ^ 36) with 68719476736 in *. change (2 ^ 27) with 134217728. change (2 ^ 18) with 262144. change (2 ^ 9) with 512.
  split; [|by intros ->]. intros [= E1 E2 E3 E4].
  assert (S : ∀ a b, a / 512 = b / 512 → a mod 512 = b mod 512 → a = b)
    by (intros a b; pose proof (Z.div_mod a 512); pose proof (Z.div_mod b 512); lia).
  change 134217728 with (512 * 512 * 512) in E1. change 262144 with (512 * 512) in E2.
  assert (D : ∀ v, v / (512 * 512 * 512) = v / 512 / 512 / 512) by (intros; by rewrite !Z.div_div by lia).
  rewrite !D in E1. rewrite <- !Z.div_div in E2 by lia.
  assert (R : ∀ v, 0 ≤ v < 68719476736 → 0 ≤ v / 512 / 512 / 512 < 512).
  { intros v Hv. rewrite !Z.div_div by lia. split; [apply Z.div_pos; lia|apply Z.div_lt_upper_bound; lia]. }
  rewrite (Z.mod_small _ _ (R q H)), (Z.mod_small _ _ (R q' H')) in E1. auto.
Qed.

(** ** Growing the tree *)

Lemma slot_inj i i' k k' :
  index_ok k → index_ok k' → slot (page_address i) k = slot (page_address i') k' → i = i' ∧ k = k'.
Proof.
  unfold index_ok, slot, page_address. change PTRS_PER_TABLE with 512. change PAGE_SIZE with 4096. intros. lia.
Qed.
(** The entries of different tables are different words. *)
Lemma tables_slot m t x y a b i k :
  tables_ok m t → t !! x = Some a → t !! y = Some b → index_ok i → index_ok k →
  slot a i = slot b k → x = y ∧ i = k.
Proof.
  intros Hm Ha Hb Hi Hk E. destruct (tables_page _ _ _ _ Hm Ha) as (ia & -> & _).
  destruct (tables_page _ _ _ _ Hm Hb) as (ib & -> & _).
  apply slot_inj in E as [-> ->]; [|done..]. split; [|done]. by eapply ta_inj.
Qed.
Lemma tables_free m t j x : tables_ok m t → free_index m = Some j → t !! x ≠ Some (page_address j).
Proof.
  intros Hm [_ Hj]%free_index_range Hx. destruct (ta_page _ _ Hm _ _ Hx) as (i & ->%page_address_inj & Hi). done.
Qed.
Lemma tables_slot_free m t j x a i :
  tables_ok m t → free_index m = Some j → t !! x = Some a → index_ok i → ¬ in_page j (slot a i).
Proof.
  intros Hm Hj Ha Hi Hin. destruct (ta_page _ _ Hm _ _ Ha) as (k & -> & Hk).
  pose proof (in_page_disjoint _ _ _ (slot_in_page k i Hi) Hin) as ->. by apply free_index_range in Hj as [_ ?].
Qed.

(** A memory in which the words of the tables are the same. *)
Lemma tables_frame m m' t :
  tables_ok m t → memory_pages m ⊆ memory_pages m' → (∀ i, i ∈ memory_pages m' → 0 ≤ i < N_PAGES) →
  (∀ x a i, t !! x = Some a → (length x ≤ 3)%nat → index_ok i →
     word_at (words m') (slot a i) = word_at (words m) (slot a i)) →
  tables_ok m' t.
Proof.
  intros [H1 H2 H3 H4 H5 H6] Hsub Hr Hw. split; try done.
  - intros x a Ha. destruct (H2 _ _ Ha) as (i & -> & Hi). exists i. set_solver.
  - intros x a i Ha Hl Hi. rewrite (Hw x) by (done || lia). auto.
  - intros x a i b Ha Hl Hb. rewrite (Hw x); [eauto|done|lia|]. by apply (H4 _ _ _ Hb).
Qed.

(** A new table [j] for the index [i] of the table [a]. *)
Lemma tables_grow m m' t x a i j :
  tables_ok m t → free_index m = Some j → t !! x = Some a → (length x < 3)%nat → index_ok i →
  t !! (x ++ [i]) = None → memory_pages m' = memory_pages m ∪ {[j]} →
  word_at (words m') (slot a i) = table_entry (Some (page_address j)) →
  (∀ k, index_ok k → word_at (words m') (slot (page_address j) k) = 0) →
  (∀ y, ¬ in_page j y → y ≠ slot a i → word_at (words m') y = word_at (words m) y) →
  tables_ok m' (<[x ++ [i] := page_address j]> t).
Proof.
  intros Hm Hj Hx Hl Hi Hnone Hused Hslot Hzero Hrest. pose proof (free_index_range _ _ Hj) as [Hjr _].
  assert (Hin : ∀ y b, <[x ++ [i] := page_address j]> t !! y = Some b →
    (y = x ++ [i] ∧ b = page_address j) ∨ (y ≠ x ++ [i] ∧ t !! y = Some b)).
  { intros y b Hy. apply lookup_insert_Some in Hy as [[<- <-]|[Hne Hy]]; [by left|right; by split]. }
  assert (Hkid : ∀ k, t !! ((x ++ [i]) ++ [k]) = None).
  { intros k. destruct (t !! ((x ++ [i]) ++ [k])) eqn:E; [|done].
    destruct (ta_parent _ _ Hm _ _ _ E) as [[? ?] _]. congruence. }
  assert (Hlen : ∀ y k, x ++ [i] ≠ (x ++ [i]) ++ y ++ [k]).
  { intros y k E%(f_equal length). rewrite !length_app in E. cbn in E. lia. }
  split.
  - intros k. rewrite Hused. intros [?| ->%elem_of_singleton]%elem_of_union; [by apply (ta_used _ _ Hm)|done].
  - intros y b [[-> ->]|[_ Hy]]%Hin; [exists j; set_solver|].
    destruct (ta_page _ _ Hm _ _ Hy) as (k & -> & Hk). exists k. set_solver.
  - intros y z b Hy Hz. apply Hin in Hy as [[-> ->]|[_ Hy]]; apply Hin in Hz as [[-> E]|[_ Hz]]; try done.
    + by destruct (tables_free m t j z Hm Hj).
    + subst b. by destruct (tables_free m t j y Hm Hj).
    + by eapply (ta_inj _ _ Hm).
  - intros y k b [[[-> ->]%app_inj_tail ->]|[_ Hy]]%Hin.
    + split_and!; [|done|lia]. apply lookup_insert_is_Some'. right. eauto.
    + destruct (ta_parent _ _ Hm _ _ _ Hy) as (? & ? & ?). split_and!; try done. apply lookup_insert_is_Some'. by right.
  - intros y b k [[-> ->]|[Hne Hy]]%Hin Hly Hk.
    + rewrite lookup_insert_ne by apply (Hlen []). rewrite Hkid. by apply Hzero.
    + destruct (decide (y = x ∧ k = i)) as [[-> ->]|Hd].
      * rewrite lookup_insert_eq. by replace b with a by congruence.
      * rewrite lookup_insert_ne; [|by intros [-> ->]%app_inj_tail; apply Hd].
        rewrite Hrest; [by apply (ta_table _ _ Hm)|by eapply tables_slot_free|].
        intros E. apply Hd. by eapply tables_slot.
  - intros y b k c [[-> ->]|[Hne Hy]]%Hin Hly.
    + intros [[E _]|[_ Hc]]%Hin; [by destruct (Hlen [] k)|by rewrite Hkid in Hc].
    + intros [[[-> _]%app_inj_tail _]|[_ Hc]]%Hin; [lia|]. pose proof (ta_parent _ _ Hm _ _ _ Hc) as (_ & Hk & _).
      rewrite Hrest; [exact (ta_leaf _ _ Hm _ _ _ _ Hy Hly Hc)|by eapply tables_slot_free|].
      intros E. destruct (tables_slot _ _ _ _ _ _ _ _ Hm Hy Hx Hk Hi E) as [-> _]. lia.
Qed.

(** The page [c] at the index [i] of the last table [a]. *)
Lemma tables_map m m' t x a i c :
  tables_ok m t → t !! x = Some a → length x = 3%nat → index_ok i →
  c ∈ memory_pages m → (∀ y, t !! y ≠ Some (page_address c)) →
  memory_pages m' = memory_pages m →
  word_at (words m') (slot a i) = Z.lor (page_address c) MMU_PTE_FLAGS →
  (∀ y, y ≠ slot a i → word_at (words m') y = word_at (words m) y) →
  tables_ok m' (<[x ++ [i] := page_address c]> t).
Proof.
  intros Hm Hx Hl Hi Hc Hnew Hused Hslot Hrest.
  assert (Hin : ∀ y b, <[x ++ [i] := page_address c]> t !! y = Some b →
    (y = x ++ [i] ∧ b = page_address c) ∨ (y ≠ x ++ [i] ∧ t !! y = Some b)).
  { intros y b Hy. apply lookup_insert_Some in Hy as [[<- <-]|[Hne Hy]]; [by left|right; by split]. }
  assert (Hlen : length (x ++ [i]) = 4%nat) by (rewrite length_app; cbn; lia).
  split.
  - rewrite Hused. apply (ta_used _ _ Hm).
  - rewrite Hused. intros y b [[-> ->]|[_ Hy]]%Hin; [by exists c|by apply (ta_page _ _ Hm) in Hy].
  - intros y z b Hy Hz. apply Hin in Hy as [[-> ->]|[_ Hy]]; apply Hin in Hz as [[-> E]|[_ Hz]]; try done.
    + by destruct (Hnew z).
    + subst b. by destruct (Hnew y).
    + by eapply (ta_inj _ _ Hm).
  - intros y k b [[[-> ->]%app_inj_tail ->]|[_ Hy]]%Hin.
    + split_and!; [|done|lia]. apply lookup_insert_is_Some'. right. eauto.
    + destruct (ta_parent _ _ Hm _ _ _ Hy) as (? & ? & ?). split_and!; try done. apply lookup_insert_is_Some'. by right.
  - intros y b k [[-> ->]|[Hne Hy]]%Hin Hly Hk; [lia|].
    rewrite lookup_insert_ne; [|intros [-> ->]%app_inj_tail; lia].
    rewrite Hrest; [by apply (ta_table _ _ Hm)|]. intros E. destruct (tables_slot _ _ _ _ _ _ _ _ Hm Hy Hx Hk Hi E) as [-> _]. lia.
  - intros y b k d [[-> ->]|[Hne Hy]]%Hin Hly; [lia|].
    intros [[[-> ->]%app_inj_tail ->]|[Hne' Hd]]%Hin; [by replace b with a by congruence|].
    pose proof (ta_parent _ _ Hm _ _ _ Hd) as (_ & Hk & _).
    rewrite Hrest; [exact (ta_leaf _ _ Hm _ _ _ _ Hy Hly Hd)|]. intros E. by destruct (tables_slot _ _ _ _ _ _ _ _ Hm Hy Hx Hk Hi E) as [-> ->].
Qed.

(** ** Address spaces *)

(** The kernel with the PCB [pcb] for [p] and the memory [m]. *)
Definition put (p : pcb_ptr) (pcb : PCB) (m : memory) (k : kernel) : kernel :=
  set_mem m (set_heap (<[p := pcb]> (heap k)) k).

Section put.
Implicit Types (p : pcb_ptr) (k : kernel) (m : memory).
Lemma put_put p pcb pcb' m m' k : put p pcb' m' (put p pcb m k) = put p pcb' m' k.
Proof. unfold put, set_mem, set_heap. cbn. f_equal. apply insert_insert_eq. Qed.
Lemma put_id p pcb k : heap k !! p = Some pcb → put p pcb (mem k) k = k.
Proof. intros H. unfold put, set_mem, set_heap. cbn. rewrite insert_id by done. by destruct k. Qed.
Lemma wp_load_put p pcb m k (Q : PCB → kernel → Prop) : Q pcb (put p pcb m k) → wp (load p) Q (put p pcb m k).
Proof. intros HQ. unfold wp, load. cbn. by rewrite lookup_insert_eq. Qed.
Lemma wp_update_put p f pcb m k (Q : unit → kernel → Prop) :
  Q tt (put p (f pcb) m k) → wp (update p f) Q (put p pcb m k).
Proof.
  intros HQ. unfold wp, update. cbn. rewrite lookup_insert_eq.
  unfold put, set_mem, set_heap in *. cbn in *. by rewrite insert_insert_eq.
Qed.
Lemma wp_words_put p f pcb m k (Q : unit → kernel → Prop) :
  Q tt (put p pcb {| memory_pages := memory_pages m; words := f (words m) |} k) →
  wp (change_words f) Q (put p pcb m k).
Proof. done. Qed.
Lemma wp_read_word_put p x pcb m k (Q : Z → kernel → Prop) :
  Q (word_at (words m) x) (put p pcb m k) → wp (read_word x) Q (put p pcb m k).
Proof. done. Qed.
Lemma wp_free_page_put p j pcb m k (Q : Z → kernel → Prop) :
  free_index m = Some j → Q (page_address j) (put p pcb (with_page j m) k) → wp get_free_page Q (put p pcb m k).
Proof. intros Hj HQ. apply wp_get_free_page. cbn. by rewrite Hj. Qed.
End put.

(** [n] more tables fit the memory and the list of the process. *)
Record room (m : memory) (pcb : PCB) (n : Z) : Prop := {
  rm_pages : Z.of_nat (size (memory_pages m)) + n ≤ N_PAGES;
  rm_kernel : n_kernel_pages (mm pcb) + n ≤ MAX_PROCESS_PAGES
}.
Record space_ok (m : memory) (pcb : PCB) (t : tree) : Prop := {
  so_tables : tables_ok m t;
  so_root : t !! [] = if pgd (mm pcb) =? 0 then None else Some (pgd (mm pcb));
  so_kernel : Z.of_nat (length (kernel_pages (mm pcb))) = MAX_PROCESS_PAGES ∧ 0 ≤ n_kernel_pages (mm pcb);
  so_user : Z.of_nat (length (user_pages (mm pcb))) = MAX_PROCESS_PAGES ∧ 0 ≤ n_user_pages (mm pcb)
}.

Lemma free_page_exists m :
  (∀ i, i ∈ memory_pages m → 0 ≤ i < N_PAGES) → Z.of_nat (size (memory_pages m)) < N_PAGES →
  is_Some (free_index m).
Proof.
  intros Hr Hsize. destruct (free_index m) as [j|] eqn:E; [eauto|]. exfalso.
  assert (Hsub : list_to_set (seqZ 0 N_PAGES) ⊆ memory_pages m).
  { intros i [Hi1 Hi2]%elem_of_list_to_set%elem_of_seqZ. apply (find_free_None _ _ _ E).
    rewrite Z2Nat.id by by vm_compute. lia. }
  apply subseteq_size in Hsub. rewrite size_list_to_set, length_seqZ in Hsub by apply NoDup_seqZ.
  pose proof (eq_refl : (0 <=? N_PAGES) = true). lia.
Qed.

(** *** What building tables leaves alone *)
Definition is_table (t : tree) (i : Z) : Prop := ∃ x, (length x ≤ 3)%nat ∧ t !! x = Some (page_address i).
(** A word that is neither in a free page nor in a table. *)
Definition stable (m : memory) (t : tree) (y : Z) : Prop :=
  ∀ i, 0 ≤ i < N_PAGES → in_page i y → i ∈ memory_pages m ∧ ¬ is_table t i.
Record grown (m : memory) (t : tree) (m' : memory) (t' : tree) : Prop := {
  gr_sub : t ⊆ t';
  gr_new : ∀ x i, t' !! x = Some (page_address i) → t !! x = None → (length x ≤ 3)%nat ∧ i ∉ memory_pages m;
  gr_pages : memory_pages m ⊆ memory_pages m';
  gr_size : (size (memory_pages m') + size t = size (memory_pages m) + size t')%nat;
  gr_leaf : ∀ x a i, t' !! x = Some a → length x = 3%nat → index_ok i →
    word_at (words m') (slot a i) = if decide (is_Some (t !! x)) then word_at (words m) (slot a i) else 0;
  gr_words : ∀ y, stable m t y → word_at (words m') y = word_at (words m) y
}.
Lemma grown_refl m t : grown m t m t.
Proof.
  split; try done.
  - intros x a Ha Hn. congruence.
  - intros x a i Ha _ _. by rewrite decide_True by eauto.
Qed.
Lemma grown_stable m t m' t' y : grown m t m' t' → stable m t y → stable m' t' y.
Proof.
  intros Hg Hy i Hr Hi. destruct (Hy i Hr Hi) as [Hu Hnt]. split; [by apply (gr_pages _ _ _ _ Hg)|].
  intros (x & Hl & Hx). destruct (t !! x) as [b|] eqn:E.
  - apply Hnt. exists x. split; [done|]. pose proof (lookup_weaken _ _ _ _ E (gr_sub _ _ _ _ Hg)). congruence.
  - by destruct (gr_new _ _ _ _ Hg _ _ Hx E).
Qed.
Lemma stable_free m t j y : free_index m = Some j → stable m t y → ¬ in_page j y.
Proof. intros [Hr Hn]%free_index_range Hy Hin. by destruct (Hy j Hr Hin). Qed.
Lemma stable_slot m t x a i y :
  tables_ok m t → t !! x = Some a → (length x ≤ 3)%nat → index_ok i → stable m t y → y ≠ slot a i.
Proof.
  intros Hm Hx Hl Hi Hy ->. destruct (tables_page _ _ _ _ Hm Hx) as (ia & -> & Hr).
  destruct (Hy ia Hr (slot_in_page ia i Hi)) as [_ []]. by exists x.
Qed.
Lemma grown_trans m1 t1 m2 t2 m3 t3 :
  tables_ok m2 t2 → grown m1 t1 m2 t2 → grown m2 t2 m3 t3 → grown m1 t1 m3 t3.
Proof.
  intros Hm [A1 A2 A3 A4 A5 A6] [B1 B2 B3 B4 B5 B6]. split.
  - by trans t2.
  - intros x i Ha Hn. destruct (t2 !! x) as [b|] eqn:E.
    + apply A2; [|done]. pose proof (lookup_weaken _ _ _ _ E B1). congruence.
    + destruct (B2 x i) as [? Hi]; [done..|]. split; [done|]. set_solver.
  - by trans (memory_pages m2).
  - lia.
  - intros x a i Ha Hl Hi. rewrite (B5 _ _ _ Ha Hl Hi). destruct (t2 !! x) as [b|] eqn:E.
    + rewrite decide_True by eauto. assert (b = a) as ->.
      { pose proof (lookup_weaken _ _ _ _ E B1). congruence. }
      by apply (A5 _ _ _ E).
    + destruct (decide (is_Some None)) as [[? ?]|_]; [done|].
      destruct (decide (is_Some (t1 !! x))) as [[c Hc]|]; [|done].
      pose proof (lookup_weaken _ _ _ _ Hc A1). congruence.
  - intros y Hy. rewrite B6, A6; [done|done|]. by apply (grown_stable m1 t1); [split|].
Qed.

(** Adding the table [j] below [a]. *)
Lemma grown_table m m' t x j :
  tables_ok m t → free_index m = Some j → t !! x = None → (length x ≤ 3)%nat →
  memory_pages m' = memory_pages m ∪ {[j]} →
  (∀ k, index_ok k → word_at (words m') (slot (page_address j) k) = 0) →
  (∀ y a k, t !! y = Some a → length y = 3%nat → index_ok k →
     word_at (words m') (slot a k) = word_at (words m) (slot a k)) →
  (∀ y, stable m t y → word_at (words m') y = word_at (words m) y) →
  grown m t m' (<[x := page_address j]> t).
Proof.
  intros Hm Hj Hx Hl Hused Hzero Hleaf Hw. pose proof (free_index_range _ _ Hj) as [_ Hjn]. split.
  - by apply insert_subseteq.
  - intros y i [[<- E%page_address_inj]|[_ Hy]]%lookup_insert_Some Hn; [by subst|congruence].
  - rewrite Hused. set_solver.
  - rewrite Hused, size_union, size_singleton, map_size_insert_None by (done || set_solver). lia.
  - intros y a i [[<- <-]|[Hne Hy]]%lookup_insert_Some Hly Hi.
    + rewrite Hx. destruct (decide (is_Some None)) as [[? ?]|_]; [done|]. by apply Hzero.
    + rewrite decide_True by eauto. by apply Hleaf with y.
  - exact Hw.
Qed.

(** *** One level *)
Definition need (t : tree) (x : list Z) : Z := if decide (is_Some (t !! x)) then 0 else 1.
(** Only the tables of the process are others, [n] more. *)
Definition pcb_grown (n : Z) (pcb pcb' : PCB) : Prop :=
  ∃ g ks, pcb' = set_mm {| (mm pcb) with pgd := g; kernel_pages := ks;
                                         n_kernel_pages := n_kernel_pages (mm pcb) + n |} pcb.
Lemma pcb_grown_refl pcb : pcb_grown 0 pcb pcb.
Proof.
  exists (pgd (mm pcb)), (kernel_pages (mm pcb)). rewrite Z.add_0_r. by destruct pcb as [? ? ? ? ? ? ? ? ? ? ? ? [] ? ? ? ?].
Qed.
Lemma pcb_grown_trans n n' pcb pcb' pcb'' : pcb_grown n pcb pcb' → pcb_grown n' pcb' pcb'' → pcb_grown (n + n') pcb pcb''.
Proof. intros (g & ks & ->) (g' & ks' & ->). exists g', ks'. cbn. by rewrite Z.add_assoc. Qed.

Definition new_table (j : Z) (m : memory) : memory :=
  {| memory_pages := memory_pages m ∪ {[j]};
     words := zero_words page_words (page_address j + VA_START) (zero_words page_words (page_address j + VA_START) (words m)) |}.
Definition linked_table (a i j : Z) (m : memory) : memory :=
  {| memory_pages := memory_pages (new_table j m);
     words := <[slot a i := Z.lor (page_address j) MM_TYPE_PAGE_TABLE]> (words (new_table j m)) |}.
Lemma new_table_zero j m k : index_ok k → word_at (words (new_table j m)) (slot (page_address j) k) = 0.
Proof.
  intros Hk. cbn [words new_table]. rewrite zero_page_spec, decide_True; [done|]. split; [by apply slot_in_page|apply slot_aligned].
Qed.
Lemma new_table_words j m y : ¬ in_page j y → word_at (words (new_table j m)) y = word_at (words m) y.
Proof. intros Hy. cbn [words new_table]. by rewrite !zero_page_spec, !decide_False by tauto. Qed.

Lemma linked_grown m t x a i j :
  tables_ok m t → free_index m = Some j → t !! x = Some a → (length x < 3)%nat → index_ok i → t !! (x ++ [i]) = None →
  tables_ok (linked_table a i j m) (<[x ++ [i] := page_address j]> t) ∧
  grown m t (linked_table a i j m) (<[x ++ [i] := page_address j]> t).
Proof.
  intros Hm Hj Hx Hl Hi Hn.
  assert (Hz : ∀ k, index_ok k → word_at (words (linked_table a i j m)) (slot (page_address j) k) = 0).
  { intros k Hk. cbn [words linked_table]. rewrite word_at_insert, decide_False; [by apply new_table_zero|].
    intros E. apply (tables_slot_free _ _ _ _ _ _ Hm Hj Hx Hi). rewrite <- E. by apply slot_in_page. }
  assert (Hw : ∀ y, ¬ in_page j y → y ≠ slot a i → word_at (words (linked_table a i j m)) y = word_at (words m) y).
  { intros y Hy Hne. cbn [words linked_table]. rewrite word_at_insert, decide_False by done. by apply new_table_words. }
  split.
  - eapply tables_grow; try done. cbn [words linked_table]. by rewrite word_at_insert, decide_True.
  - apply grown_table; try done.
    + rewrite length_app. cbn. lia.
    + intros y b k Hy Hly Hk. apply Hw; [by eapply tables_slot_free|].
      intros E. destruct (tables_slot _ _ _ _ _ _ _ _ Hm Hy Hx Hk Hi E) as [-> _]. lia.
    + intros y Hy. apply Hw; [by eapply stable_free|]. eapply (stable_slot _ _ x); try done. lia.
Qed.

Lemma wp_map_table a i shift va p pcb m k (Q : Z * bool → kernel → Prop) :
  i = table_index va shift →
  (if word_at (words m) (slot a i) =? 0 then
     ∃ j, free_index m = Some j ∧ 0 ≤ j < N_PAGES ∧ Q (page_address j, true) (put p pcb (linked_table a i j m) k)
   else Q (Z.land (word_at (words m) (slot a i)) PAGE_MASK, false) (put p pcb m k)) →
  wp (map_table (a + VA_START) shift va) Q (put p pcb m k).
Proof.
  intros -> HQ. unfold map_table. fold (slot a (table_index va shift)). apply wp_bind, wp_read_word_put.
  destruct (word_at _ _ =? 0).
  - destruct HQ as (j & Hj & Hr & HQ). apply wp_bind, (wp_free_page_put p j); [done|].
    apply wp_bind. unfold memzero. apply wp_words_put, wp_bind. unfold write_word. apply wp_words_put, wp_ret.
    destruct (descriptor j MM_TYPE_PAGE_TABLE Hr) as (_ & _ & ->); done.
  - by apply wp_ret.
Qed.
Lemma wp_track_kernel_page p page pcb m k (Q : unit → kernel → Prop) :
  Z.of_nat (length (kernel_pages (mm pcb))) = MAX_PROCESS_PAGES →
  0 ≤ n_kernel_pages (mm pcb) < MAX_PROCESS_PAGES →
  (∀ ks, length ks = length (kernel_pages (mm pcb)) →
   Q tt (put p (set_mm {| (mm pcb) with kernel_pages := ks; n_kernel_pages := n_kernel_pages (mm pcb) + 1 |} pcb) m k)) →
  wp (track_kernel_page p page) Q (put p pcb m k).
Proof.
  intros Hl Hn HQ. unfold track_kernel_page. apply wp_bind, wp_load_put, wp_bind, wp_defined.
  eexists. split; [apply arr_set_in; lia|]. apply wp_update_put, HQ. apply length_insert.
Qed.

Lemma wp_map_level p x table shift va m pcb t k (Q : Z → kernel → Prop) :
  space_ok m pcb t → t !! x = Some table → (length x < 3)%nat →
  room m pcb (need t (x ++ [table_index va shift])) →
  (∀ b m' pcb' t', t' !! (x ++ [table_index va shift]) = Some b → t' = <[x ++ [table_index va shift] := b]> t →
     grown m t m' t' → space_ok m' pcb' t' → pcb_grown (need t (x ++ [table_index va shift])) pcb pcb' →
     pgd (mm pcb') = pgd (mm pcb) → Q b (put p pcb' m' k)) →
  wp (map_level p table shift va) Q (put p pcb m k).
Proof.
  intros [Hm Hroot Hk Hu] Hx Hl [Hr1 Hr2] HQ. pose proof (table_index_ok va shift) as Hi.
  set (i := table_index va shift) in *. set (y := x ++ [i]) in *.
  unfold map_level. apply wp_bind, (wp_map_table table i); [done|].
  rewrite (ta_table _ _ Hm _ _ _ Hx Hl Hi). fold y. unfold need in *.
  destruct (t !! y) as [b|] eqn:Hy; cbn [table_entry from_option].
  - destruct (decide (is_Some (Some b))) as [_|[]]; [|eauto].
    destruct (tables_page _ _ _ _ Hm Hy) as (ib & -> & Hib).
    destruct (descriptor ib MM_TYPE_PAGE_TABLE Hib) as (Hbit & Hmask & _); [done..|].
    destruct (Z.eqb_spec (Z.lor (page_address ib) MM_TYPE_PAGE_TABLE) 0) as [E|_]; [by rewrite E in Hbit|].
    rewrite Hmask. apply wp_bind. cbn [when]. apply wp_ret, wp_ret. eapply HQ.
    + exact Hy.
    + by rewrite insert_id.
    + apply grown_refl.
    + by split.
    + apply pcb_grown_refl.
    + done.
  - destruct (decide (is_Some None)) as [[? ?]|_]; [done|]. cbn [Z.eqb].
    destruct (free_page_exists m) as [j Hj]; [apply Hm|lia|]. pose proof (free_index_range _ _ Hj) as [Hjr _].
    exists j. split; [done|]. split; [done|]. destruct (linked_grown _ _ _ _ _ _ Hm Hj Hx Hl Hi Hy) as [Hm' Hg].
    apply wp_bind. cbn [when]. apply wp_track_kernel_page; [lia|lia|]. intros ks Hks. apply wp_ret. eapply HQ.
    + apply lookup_insert_eq.
    + done.
    + exact Hg.
    + split; cbn; [exact Hm'| |rewrite Hks; lia|exact Hu].
      rewrite lookup_insert_ne; [exact Hroot|]. by destruct x.
    + exists (pgd (mm pcb)), ks. done.
    + done.
Qed.

(** *** The root *)
Lemma no_root m t x : tables_ok m t → t !! [] = None → t !! x = None.
Proof.
  intros Hm Hn. destruct (t !! x) as [a|] eqn:E; [|done]. exfalso. revert a E.
  induction x as [|i x IH] using rev_ind; intros a E; [congruence|].
  destruct (ta_parent _ _ Hm _ _ _ E) as [[b Hb] _]. by eapply IH.
Qed.
Lemma rooted_grown m t j :
  tables_ok m t → free_index m = Some j → t !! [] = None →
  tables_ok (new_table j m) (<[[] := page_address j]> t) ∧ grown m t (new_table j m) (<[[] := page_address j]> t).
Proof.
  intros Hm Hj Hn. pose proof (free_index_range _ _ Hj) as [Hjr _].
  assert (Hin : ∀ x b, <[[] := page_address j]> t !! x = Some b → x = [] ∧ b = page_address j).
  { intros x b [[<- <-]|[_ Hx]]%lookup_insert_Some; [done|]. by rewrite (no_root m) in Hx. }
  assert (Hkid : ∀ x k, (<[[] := page_address j]> t : tree) !! (x ++ [k]) = None).
  { intros x k. rewrite lookup_insert_ne; [by apply (no_root m)|]. by destruct x. }
  split; [split|apply grown_table; try done].
  - intros i. cbn. intros [?| ->%elem_of_singleton]%elem_of_union; [by apply (ta_used _ _ Hm)|done].
  - intros x b [-> ->]%Hin. exists j. cbn. set_solver.
  - by intros x y b [-> ->]%Hin [-> _]%Hin.
  - intros x k b Hx. by rewrite Hkid in Hx.
  - intros x b k [-> ->]%Hin _ Hk. rewrite Hkid. by apply new_table_zero.
  - intros x b k c _ _ Hx. by rewrite Hkid in Hx.
  - cbn. lia.
  - intros k Hk. by apply new_table_zero.
  - intros y b k Hy. by rewrite (no_root m) in Hy.
  - intros y Hy. apply new_table_words. by eapply stable_free.
Qed.
Lemma wp_map_root p m pcb t k (Q : unit → kernel → Prop) :
  space_ok m pcb t → room m pcb (need t []) →
  (∀ m' pcb' t', t' !! [] = Some (pgd (mm pcb')) → t' = <[[] := pgd (mm pcb')]> t → pgd (mm pcb') ≠ 0 →
     (pgd (mm pcb) ≠ 0 → pgd (mm pcb') = pgd (mm pcb)) →
     grown m t m' t' → space_ok m' pcb' t' → pcb_grown (need t []) pcb pcb' → Q tt (put p pcb' m' k)) →
  wp (when (pgd (mm pcb) =? 0)
    (page ← get_free_page;
     update p (λ pcb, set_mm {| (mm pcb) with pgd := page |} pcb);;
     memzero (page + VA_START) PAGE_SIZE;;
     track_kernel_page p page)) Q (put p pcb m k).
Proof.
  intros [Hm Hroot Hk Hu] [Hr1 Hr2] HQ. unfold need in *. destruct (Z.eqb_spec (pgd (mm pcb)) 0) as [E|E]; cbn [when].
  - rewrite Hroot in *. destruct (decide (is_Some None)) as [[? ?]|_]; [done|].
    destruct (free_page_exists m) as [j Hj]; [apply Hm|lia|]. pose proof (free_index_range _ _ Hj) as [Hjr _].
    destruct (rooted_grown _ _ _ Hm Hj Hroot) as [Hm' Hg]. pose proof (page_address_pos j ltac:(lia)) as Hpos.
    apply wp_bind, (wp_free_page_put p j); [done|]. apply wp_bind, wp_update_put, wp_bind.
    unfold memzero. apply wp_words_put, wp_track_kernel_page; [cbn; lia|cbn; lia|]. intros ks Hks. cbn in Hks.
    eapply (HQ _ _ (<[[] := page_address j]> t)); cbn.
    + by rewrite lookup_insert_eq.
    + done.
    + lia.
    + done.
    + exact Hg.
    + split; cbn; [exact Hm'| |lia|exact Hu].
      destruct (Z.eqb_spec (page_address j) 0); [lia|]. apply lookup_insert_eq.
    + by exists (page_address j), ks.
  - rewrite Hroot in *. destruct (decide (is_Some (Some _))) as [_|[]]; [|eauto]. apply wp_ret.
    apply (HQ m pcb t); try done.
    + by rewrite insert_id.
    + apply grown_refl.
    + split; try done. rewrite Hroot. by destruct (Z.eqb_spec (pgd (mm pcb)) 0).
    + apply pcb_grown_refl.
Qed.

(** ** Mapping a page *)
Definition missing (t : tree) (va : Z) : Z :=
  need t [] + need t (take 1 (path_of va)) + need t (take 2 (path_of va)) + need t (take 3 (path_of va)).
Definition space_translate (m : memory) (pcb : PCB) (va : Z) : option Z :=
  if pgd (mm pcb) =? 0 then None else translate (words m) (pgd (mm pcb)) va.

Record mapped (va c : Z) (m : memory) (pcb : PCB) (t : tree) (m' : memory) (pcb' : PCB) (t' : tree) : Prop := {
  mp_space : space_ok m' pcb' t';
  mp_at : t' !! path_of va = Some (page_address c);
  mp_other : ∀ x, length x = 4%nat → x ≠ path_of va → t' !! x = t !! x;
  mp_tables : ∀ x a, t !! x = Some a → (length x ≤ 3)%nat → t' !! x = Some a;
  mp_new : ∀ x i, t' !! x = Some (page_address i) → t !! x = None → x ≠ path_of va → i ∉ memory_pages m;
  mp_pages : memory_pages m ⊆ memory_pages m';
  mp_size : Z.of_nat (size (memory_pages m')) = Z.of_nat (size (memory_pages m)) + missing t va;
  mp_translate : ∀ va', path_of va' ≠ path_of va → space_translate m' pcb' va' = space_translate m pcb va';
  mp_words : ∀ y, stable m t y → word_at (words m') y = word_at (words m) y;
  mp_pcb : ∃ g ks, pcb' = set_mm {| pgd := g; n_user_pages := n_user_pages (mm pcb) + 1;
    user_pages := <[Z.to_nat (n_user_pages (mm pcb)) :=
      {| physical_address := page_address c; Process.virtual_address := va |}]> (user_pages (mm pcb));
    kernel_pages := ks; n_kernel_pages := n_kernel_pages (mm pcb) + missing t va |} pcb
}.

Lemma space_walk m pcb t va :
  space_ok m pcb t →
  space_translate m pcb va =
  match t !! take 3 (path_of va) with
  | Some pte => page ← walk_step (words m) PAGE_SHIFT va pte; Some (page + va mod PAGE_SIZE)
  | None => None
  end.
Proof.
  intros [Hm Hroot _ _]. unfold space_translate. destruct (pgd (mm pcb) =? 0).
  - by rewrite (no_root m t (take 3 _)).
  - by rewrite (translate_tables m t).
Qed.
(** Tables that are built translate nothing new. *)
Lemma grown_translate m pcb t m' pcb' t' va :
  space_ok m pcb t → space_ok m' pcb' t' → grown m t m' t' → space_translate m' pcb' va = space_translate m pcb va.
Proof.
  intros Hs Hs' Hg. rewrite (space_walk _ _ _ _ Hs), (space_walk _ _ _ _ Hs').
  destruct (t' !! take 3 (path_of va)) as [a|] eqn:E.
  - pose proof (gr_leaf _ _ _ _ Hg _ _ (table_index va PAGE_SHIFT) E eq_refl (table_index_ok _ _)) as Hw.
    unfold walk_step. unfold slot in Hw. rewrite Hw. destruct (t !! take 3 (path_of va)) as [b|] eqn:E'.
    + rewrite decide_True by eauto. pose proof (lookup_weaken _ _ _ _ E' (gr_sub _ _ _ _ Hg)).
      by assert (b = a) as -> by congruence.
    + by destruct (decide (is_Some None)) as [[? ?]|_].
  - destruct (t !! take 3 (path_of va)) as [b|] eqn:E'; [|done].
    pose proof (lookup_weaken _ _ _ _ E' (gr_sub _ _ _ _ Hg)). congruence.
Qed.

(** The entry of the page. *)
Definition entered (pte va c : Z) (m : memory) : memory :=
  {| memory_pages := memory_pages m;
     words := <[slot pte (table_index va PAGE_SHIFT) := Z.lor (page_address c) MMU_PTE_FLAGS]> (words m) |}.
Lemma entered_translate m pcb pcb' t t' pte va va' c :
  space_ok m pcb t → space_ok (entered pte va c m) pcb' t' → t !! take 3 (path_of va) = Some pte →
  (∀ x, length x = 3%nat → t' !! x = t !! x) → path_of va' ≠ path_of va →
  space_translate (entered pte va c m) pcb' va' = space_translate m pcb va'.
Proof.
  intros Hs Hs' Hpte Htab Hne. rewrite (space_walk _ _ _ _ Hs), (space_walk _ _ _ _ Hs'), Htab by done.
  destruct (t !! take 3 (path_of va')) as [a|] eqn:E; [|done]. unfold walk_step. fold (slot a (table_index va' PAGE_SHIFT)).
  cbn [words entered]. rewrite word_at_insert, decide_False; [done|]. intros Hsl.
  destruct (tables_slot _ _ _ _ _ _ _ _ (so_tables _ _ _ Hs) E Hpte (table_index_ok _ _) (table_index_ok _ _) Hsl) as [H1 H2].
  apply Hne. unfold path_of in *. cbn [take] in H1. injection H1 as -> -> ->. by rewrite H2.
Qed.
Lemma need_insert t x y b : x ≠ y → need (<[x := b]> t) y = need t y.
Proof. intros H. unfold need. by rewrite lookup_insert_ne. Qed.
Lemma room_grown m t m' t' pcb pcb' n n' :
  grown m t m' t' → pcb_grown n pcb pcb' → Z.of_nat (size t') = Z.of_nat (size t) + n →
  room m pcb (n + n') → room m' pcb' n'.
Proof.
  intros Hg (g & ks & ->) Hs [H1 H2]. pose proof (gr_size _ _ _ _ Hg). split; cbn; lia.
Qed.
Lemma size_insert_need (t : tree) x b : Z.of_nat (size (<[x := b]> t)) = Z.of_nat (size t) + need t x.
Proof.
  unfold need. destruct (t !! x) as [c|] eqn:E.
  - rewrite decide_True by eauto. rewrite map_size_insert_Some by eauto. lia.
  - destruct (decide (is_Some None)) as [[? ?]|_]; [done|]. rewrite map_size_insert_None by done. lia.
Qed.

(** The tables on the path of an address. *)
Definition map_tables (p : pcb_ptr) (pcb : PCB) (va : Z) : K Z :=
  when (pgd (mm pcb) =? 0)
    (page ← get_free_page;
     update p (λ pcb, set_mm {| (mm pcb) with pgd := page |} pcb);;
     memzero (page + VA_START) PAGE_SIZE;;
     track_kernel_page p page);;
  pcb ← load p;
  pud ← map_level p (pgd (mm pcb)) PGD_SHIFT va;
  pmd ← map_level p pud PUD_SHIFT va;
  map_level p pmd PMD_SHIFT va.
Lemma wp_map_tables p va m pcb t k (Q : Z → kernel → Prop) :
  space_ok m pcb t → room m pcb (missing t va) →
  (∀ pte m' pcb' t', t' !! take 3 (path_of va) = Some pte → grown m t m' t' → space_ok m' pcb' t' →
     pcb_grown (missing t va) pcb pcb' → Z.of_nat (size t') = Z.of_nat (size t) + missing t va →
     Q pte (put p pcb' m' k)) →
  wp (map_tables p pcb va) Q (put p pcb m k).
Proof.
  intros Hs0 Hr0 HQ. unfold missing, path_of in *. cbn [take] in *.
  set (i1 := table_index va PGD_SHIFT) in *. set (i2 := table_index va PUD_SHIFT) in *.
  set (i3 := table_index va PMD_SHIFT) in *. rewrite <- !Z.add_assoc in Hr0.
  assert (Hr0' : room m pcb (need t [])).
  { destruct Hr0. split; unfold need in *; repeat case_decide; lia. }
  unfold map_tables. apply wp_bind, (wp_map_root p m pcb t); [done|done|]. intros m1 pcb1 t1 Hroot Et1 _ _ Hg1 Hs1 Hp1.
  pose proof (size_insert_need t [] (pgd (mm pcb1))) as Hz1. rewrite <- Et1 in Hz1.
  apply (room_grown _ _ _ _ _ _ _ _ Hg1 Hp1 Hz1) in Hr0. clear Hr0'.
  apply wp_bind, wp_load_put, wp_bind, (wp_map_level p [] _ _ _ m1 pcb1 t1); [done|done|cbn; lia| |]; cbn [app]; fold i1.
  { rewrite Et1, need_insert by done. destruct Hr0. split; unfold need in *; repeat case_decide; lia. }
  intros pud m2 pcb2 t2 Hpud Et2 Hg2 Hs2 Hp2 _.
  pose proof (size_insert_need t1 [i1] pud) as Hz2. rewrite <- Et2 in Hz2.
  rewrite Et1, need_insert in Hz2, Hp2 by done. rewrite <- Et1 in Hz2.
  apply (room_grown _ _ _ _ _ _ _ _ Hg2 Hp2 Hz2) in Hr0.
  apply wp_bind, (wp_map_level p [i1] _ _ _ m2 pcb2 t2); [done|done|cbn; lia| |]; cbn [app]; fold i2.
  { rewrite Et2, need_insert, Et1, need_insert by done. destruct Hr0. split; unfold need in *; repeat case_decide; lia. }
  intros pmd m3 pcb3 t3 Hpmd Et3 Hg3 Hs3 Hp3 _.
  pose proof (size_insert_need t2 [i1; i2] pmd) as Hz3. rewrite <- Et3 in Hz3.
  rewrite Et2, need_insert, Et1, need_insert in Hz3, Hp3 by done. rewrite <- Et1, <- Et2 in Hz3.
  apply (room_grown _ _ _ _ _ _ _ _ Hg3 Hp3 Hz3) in Hr0.
  apply (wp_map_level p [i1; i2] _ _ _ m3 pcb3 t3); [done|done|cbn; lia| |]; cbn [app]; fold i3.
  { by rewrite Et3, need_insert, Et2, need_insert, Et1, need_insert by done. }
  intros pte m4 pcb4 t4 Hpte Et4 Hg4 Hs4 Hp4 _.
  pose proof (size_insert_need t3 [i1; i2; i3] pte) as Hz4. rewrite <- Et4 in Hz4.
  rewrite Et3, need_insert, Et2, need_insert, Et1, need_insert in Hz4, Hp4 by done. rewrite <- Et1, <- Et2, <- Et3 in Hz4.
  eapply HQ; [exact Hpte| |exact Hs4| |lia].
  - eapply grown_trans; [apply Hs3| |exact Hg4]. eapply grown_trans; [apply Hs2| |exact Hg3].
    eapply grown_trans; [apply Hs1|exact Hg1|exact Hg2].
  - eauto using pcb_grown_trans.
Qed.

Lemma wp_map_page_tables p va c (Q : unit → kernel → Prop) s :
  wp (load p) (λ pcb, wp (map_tables p pcb va) (λ pte,
    wp (map_table_entry (pte + VA_START) va c;;
        track_user_page p {| physical_address := c; Process.virtual_address := va |}) Q)) s →
  wp (map_page p va c) Q s.
Proof.
  intros H. unfold map_page. apply wp_bind. eapply wp_mono; [exact H|]. clear s H. intros pcb s H. unfold map_tables in H.
  do 4 (apply (proj1 (wp_bind _ _ _ _)) in H; apply wp_bind; eapply wp_mono; [exact H|]; clear s H; intros ? s H).
  apply wp_bind. exact H.
Qed.
Lemma wp_track_user_page p page pcb m k (Q : unit → kernel → Prop) :
  Z.of_nat (length (user_pages (mm pcb))) = MAX_PROCESS_PAGES → 0 ≤ n_user_pages (mm pcb) < MAX_PROCESS_PAGES →
  Q tt (put p (set_mm {| (mm pcb) with user_pages := <[Z.to_nat (n_user_pages (mm pcb)) := page]> (user_pages (mm pcb));
                                       n_user_pages := n_user_pages (mm pcb) + 1 |} pcb) m k) →
  wp (track_user_page p page) Q (put p pcb m k).
Proof.
  intros Hl Hn HQ. unfold track_user_page. apply wp_bind, wp_load_put, wp_bind, wp_defined.
  eexists. split; [apply arr_set_in; lia|]. by apply wp_update_put.
Qed.

Lemma wp_map_page p va c m pcb t k (Q : unit → kernel → Prop) :
  space_ok m pcb t → room m pcb (missing t va) → n_user_pages (mm pcb) < MAX_PROCESS_PAGES →
  c ∈ memory_pages m → (∀ x, t !! x ≠ Some (page_address c)) →
  (∀ m' pcb' t', mapped va c m pcb t m' pcb' t' → Q tt (put p pcb' m' k)) →
  wp (map_page p va (page_address c)) Q (put p pcb m k).
Proof.
  intros Hs Hr Hn Hc Hnew HQ. apply wp_map_page_tables, wp_load_put, (wp_map_tables p va m pcb t); [done|done|].
  intros pte m1 pcb1 t1 Hpte Hg Hs1 (g & ks & ->) Hsize. set (pcb1 := set_mm _ pcb) in *.
  pose proof (ta_used _ _ (so_tables _ _ _ Hs) _ Hc) as Hcr.
  destruct (descriptor c MMU_PTE_FLAGS Hcr) as (_ & _ & Hu); [done..|].
  assert (Hnew1 : ∀ x, t1 !! x ≠ Some (page_address c)).
  { intros x Hx. destruct (t !! x) as [a|] eqn:E.
    - apply (Hnew x). pose proof (lookup_weaken _ _ _ _ E (gr_sub _ _ _ _ Hg)). congruence.
    - by destruct (gr_new _ _ _ _ Hg _ _ Hx E). }
  assert (Hc1 : c ∈ memory_pages m1) by (pose proof (gr_pages _ _ _ _ Hg); set_solver).
  set (i := table_index va PAGE_SHIFT). set (m2 := entered pte va c m1).
  assert (Hpath : path_of va = take 3 (path_of va) ++ [i]) by done.
  set (t2 := <[path_of va := page_address c]> t1).
  assert (Hm2 : tables_ok m2 t2).
  { unfold t2. rewrite Hpath. apply (tables_map m1 m2 t1 _ pte i c); try done.
    - apply Hs1.
    - apply table_index_ok.
    - cbn [words m2 entered]. fold i. by rewrite word_at_insert, decide_True.
    - intros y Hy. cbn [words m2 entered]. fold i. by rewrite word_at_insert, decide_False. }
  assert (Hlow : ∀ x, length x ≠ 4%nat → t2 !! x = t1 !! x).
  { intros x Hx. apply lookup_insert_ne. by intros <-. }
  apply wp_bind. unfold map_table_entry, write_word. fold i. fold (slot pte i). apply wp_words_put. rewrite Hu.
  fold i. change (put p pcb1 _ k) with (put p pcb1 m2 k).
  destruct Hs1 as [Ht1 Hroot1 Hk1 Hu1].
  apply wp_track_user_page; [apply Hu1|cbn; pose proof (proj2 (so_user _ _ _ Hs)); lia|].
  set (pcb2 := set_mm _ pcb1).
  assert (Hs2 : space_ok m2 pcb2 t2).
  { split; [exact Hm2| |exact Hk1|cbn; rewrite length_insert; split; [apply Hu1|pose proof (proj2 (so_user _ _ _ Hs)); lia]].
    rewrite Hlow by done. exact Hroot1. }
  assert (Hs1 : space_ok m1 pcb1 t1) by done.
  apply (HQ m2 pcb2 t2). split.
  - exact Hs2.
  - apply lookup_insert_eq.
  - intros x Hx Hne. unfold t2. rewrite lookup_insert_ne by done. destruct (t !! x) as [a|] eqn:E.
    + by apply (lookup_weaken _ _ _ _ E (gr_sub _ _ _ _ Hg)).
    + destruct (t1 !! x) as [a|] eqn:E1; [|done]. destruct (tables_page _ _ _ _ Ht1 E1) as (j & -> & _).
      destruct (gr_new _ _ _ _ Hg _ _ E1 E). lia.
  - intros x a Ha Hx. rewrite Hlow by lia. by apply (lookup_weaken _ _ _ _ Ha (gr_sub _ _ _ _ Hg)).
  - intros x j Hj Hn' Hne. unfold t2 in Hj. rewrite lookup_insert_ne in Hj by done.
    by apply (gr_new _ _ _ _ Hg _ _ Hj Hn').
  - apply (gr_pages _ _ _ _ Hg).
  - pose proof (gr_size _ _ _ _ Hg). cbn. lia.
  - intros va' Hne. etrans; [apply (entered_translate m1 pcb1 pcb2 t1 t2 pte va va' c)|]; try done.
    + intros x Hx. apply Hlow. lia.
    + by eapply grown_translate.
  - intros y Hy. cbn [words m2 entered]. rewrite word_at_insert, decide_False; [by apply (gr_words _ _ _ _ Hg)|].
    eapply (stable_slot m1 t1 (take 3 (path_of va))); try done; [apply table_index_ok|]. by eapply grown_stable.
  - by exists g, ks.
Qed.
