(* ===== verification/Boot.v ===== *)
(** * Start-up of the processor

    src/boot/start.S, from the reset to [kernel_main]: the exception level, the page tables
    the kernel runs on, which map the whole physical memory with blocks of one section, and
    the registers that configure the MMU.  The MMU is off while they are built: addresses are
    physical, and the memory of the model is indexed by the address the kernel has for it,
    [VA_START] higher.  src/arch/mmu.h, src/arch/sysregs.h,
    src/arch/peripherals/base.h. *)
From S2P Require Import Prelude.
From S2P Require Import Process.
From S2P Require Import Mm.
Local Open Scope Z_scope.

Definition PHYS_MEMORY_SIZE : Z := 0x40000000.
Definition DEVICE_BASE : Z := 0x3F000000.
Definition PGD_SIZE : Z := 3 * PAGE_SIZE.
Definition MM_TYPE_BLOCK : Z := 0x1.
Definition MM_ACCESS : Z := Z.shiftl 0x1 10.
Definition MT_DEVICE_nGnRnE : Z := 0x0.
Definition MT_NORMAL_NC : Z := 0x1.
Definition MMU_FLAGS : Z := Z.lor (Z.lor MM_TYPE_BLOCK (Z.shiftl MT_NORMAL_NC 2)) MM_ACCESS.
Definition MMU_DEVICE_FLAGS : Z := Z.lor (Z.lor MM_TYPE_BLOCK (Z.shiftl MT_DEVICE_nGnRnE 2)) MM_ACCESS.

(** [str] with the MMU off. *)
Definition store (address v : Z) : K unit := write_word (address + VA_START) v.

(** The macros; the result is what they leave in the register [tbl]. *)
Definition create_table_entry (tbl virt shift : Z) : K Z :=
  let next := tbl + PAGE_SIZE in
  store (tbl + 8 * table_index virt shift) (Z.lor next MM_TYPE_PAGE_TABLE);;
  mret next.
Definition create_pgd_entry (tbl virt : Z) : K Z :=
  tbl ← create_table_entry tbl virt PGD_SHIFT;
  create_table_entry tbl virt PUD_SHIFT.
(** The loop [9999] of [create_block_map]. *)
Fixpoint block_loop (fuel : nat) (tbl start last phys : Z) : K unit :=
  match fuel with
  | O => out_of_fuel
  | S fuel' =>
      store (tbl + 8 * start) phys;;
      if start + 1 <=? last then block_loop fuel' tbl (start + 1) last (phys + SECTION_SIZE) else mret tt
  end.
(** Indices of a table are less than [PTRS_PER_TABLE]. *)
Definition create_block_map (tbl phys start last flags : Z) : K unit :=
  let start := table_index start SECTION_SHIFT in
  let last := table_index last SECTION_SHIFT in
  let phys := Z.lor flags (Z.shiftl (Z.shiftr phys SECTION_SHIFT) SECTION_SHIFT) in
  block_loop (Z.to_nat PTRS_PER_TABLE) tbl start last phys.

(** [pgd]: the physical address the linker gives the tables. *)
Definition __create_page_tables (pgd : Z) : K unit :=
  memzero (pgd + VA_START) PGD_SIZE;;
  pmd ← create_pgd_entry pgd VA_START;
  create_block_map pmd 0 VA_START (VA_START + DEVICE_BASE - SECTION_SIZE) MMU_FLAGS;;
  create_block_map pmd DEVICE_BASE (VA_START + DEVICE_BASE) (VA_START + PHYS_MEMORY_SIZE - SECTION_SIZE)
    MMU_DEVICE_FLAGS.
(** [el1_entry], up to the configuration of the MMU: both base registers get the same
    tables; the result is TTBR1_EL1. *)
Definition el1_entry (pgd : Z) : K Z :=
  __create_page_tables pgd;;
  modify (set_ttbr0_el1 pgd);;
  mret pgd.

(** ** From the reset to [kernel_main]

    The registers of the processor [start.S] sets (src/arch/sysregs.h, src/arch/mmu.h), and
    the state of the kernel.  [current_el]: CurrentEL; [daif]: the masks of the exceptions,
    D to F from bit 3 down. *)
Record processor := {
  current_el : Z; daif : Z; hcr_el2 : Z; spsr_el2 : Z; mpidr_el1 : Z; sctlr_el1 : Z; ttbr1_el1 : Z; tcr_el1 : Z;
  mair_el1 : Z; stack_pointer : Z; kernel_state : kernel
}.
Definition SCTLR_RESERVED : Z := Z.lor (Z.lor (Z.lor (Z.shiftl 3 28) (Z.shiftl 3 22)) (Z.shiftl 1 20)) (Z.shiftl 1 11).
Definition SCTLR_MMU_ENABLED : Z := Z.shiftl 1 0.
(** The other fields are 0. *)
Definition SCTLR_VALUE_MMU_DISABLED : Z := SCTLR_RESERVED.
Definition HCR_RW : Z := Z.shiftl 1 31.
Definition HCR_VALUE : Z := HCR_RW.
Definition SPSR_MASK_ALL : Z := Z.shiftl 7 6.
Definition SPSR_EL1h : Z := Z.shiftl 5 0.
Definition SPSR_VALUE : Z := Z.lor SPSR_MASK_ALL SPSR_EL1h.
Definition TCR_T0SZ : Z := 64 - 48.
Definition TCR_T1SZ : Z := Z.shiftl (64 - 48) 16.
Definition TCR_TG0_4K : Z := Z.shiftl 0 14.
Definition TCR_TG1_4K : Z := Z.shiftl 2 30.
Definition TCR_VALUE : Z := Z.lor (Z.lor (Z.lor TCR_T0SZ TCR_T1SZ) TCR_TG0_4K) TCR_TG1_4K.
Definition MT_DEVICE_nGnRnE_FLAGS : Z := 0x00.
Definition MT_NORMAL_NC_FLAGS : Z := 0x44.
Definition MAIR_VALUE : Z :=
  Z.lor (Z.shiftl MT_DEVICE_nGnRnE_FLAGS (8 * MT_DEVICE_nGnRnE)) (Z.shiftl MT_NORMAL_NC_FLAGS (8 * MT_NORMAL_NC)).

Abbreviation P := (M processor).
Definition msr_hcr_el2 v : P unit := modify (λ p, {| p with hcr_el2 := v |}).
Definition msr_spsr_el2 v : P unit := modify (λ p, {| p with spsr_el2 := v |}).
Definition msr_sctlr_el1 v : P unit := modify (λ p, {| p with sctlr_el1 := v |}).
Definition msr_ttbr1_el1 v : P unit := modify (λ p, {| p with ttbr1_el1 := v |}).
Definition msr_tcr_el1 v : P unit := modify (λ p, {| p with tcr_el1 := v |}).
Definition msr_mair_el1 v : P unit := modify (λ p, {| p with mair_el1 := v |}).
Definition mov_sp v : P unit := modify (λ p, {| p with stack_pointer := v |}).
(** [eret] from EL2: level and masks are those of SPSR_EL2; the address is that of the next
    instruction. *)
Definition eret : P unit :=
  modify (λ p, {| p with current_el := Z.shiftl (Z.land (Z.shiftr (spsr_el2 p) 2) 3) 2;
                         daif := Z.land (Z.shiftr (spsr_el2 p) 6) 0xf |}).
Definition on_kernel_state {A} (c : K A) : P A := λ p,
  match c (kernel_state p) with
  | Done a k => Done a {| p with kernel_state := k |}
  | Undefined => Undefined
  | Fuel => Fuel
  end.

Definition to_el1 : P unit :=
  x0 ← gets current_el;
  if Z.shiftr x0 2 =? 2 then msr_hcr_el2 HCR_VALUE;; msr_spsr_el2 SPSR_VALUE;; eret else mret tt.
(** Whether this is the primary core. *)
Definition already_el1 : P bool :=
  msr_sctlr_el1 SCTLR_VALUE_MMU_DISABLED;;
  x5 ← gets mpidr_el1;
  mret (Z.land x5 3 =? 0).
(** The symbols of the linker, as physical addresses. *)
Record layout := { bss_start : Z; bss_end : Z; pgd_address : Z; start_address : Z }.
Definition clear_bss (l : layout) : P unit :=
  on_kernel_state (memzero (bss_start l + VA_START) (bss_end l - bss_start l)).
(** Whether [kernel_main] is entered: a secondary core waits for events for ever. *)
Definition _start (l : layout) : P bool :=
  to_el1;;
  primary ← already_el1;
  if negb (primary : bool) then mret false else
  mov_sp (start_address l + VA_START);;
  clear_bss l;;
  pgd ← on_kernel_state (el1_entry (pgd_address l));
  mov_sp (VA_START + LOW_MEMORY);;
  msr_ttbr1_el1 pgd;;
  msr_tcr_el1 TCR_VALUE;;
  msr_mair_el1 MAIR_VALUE;;
  msr_sctlr_el1 SCTLR_MMU_ENABLED;;
  mret true.
