(* ===== verification/BootMap.v ===== *)
(** * The mapping of the kernel

    What the tables that [Boot] builds mean to the MMU: the walk from a base register to an
    entry that maps a block, and the contents of the three tables. *)
From S2P Require Import Prelude.
From S2P Require Import Process.
From S2P Require Import Mm.
From S2P Require Import Paging.
From S2P Require Import Boot.
Local Open Scope Z_scope.

(** ** The walk *)

(** What an address is mapped to: the physical address, the index of the memory attributes
    in MAIR_EL1 and whether user code may access it. *)
Record mapping := { m_address : Z; m_attribute : Z; m_user : bool }.
(** A valid entry of a middle table that maps a block; without the access flag it faults. *)
Definition block_at (entry virtual_address : Z) : option mapping :=
  if Z.testbit entry 0 && negb (Z.testbit entry 1) && Z.testbit entry 10
  then Some {| m_address := Z.land entry (Z.shiftl (Z.ones 27) SECTION_SHIFT) + virtual_address mod SECTION_SIZE;
               m_attribute := Z.land (Z.shiftr entry 2) 7; m_user := Z.testbit entry 6 |}
  else None.
Definition translate_block (w : gmap Z Z) (base virtual_address : Z) : option mapping :=
  pud ← walk_step w PGD_SHIFT virtual_address base;
  pmd ← walk_step w PUD_SHIFT virtual_address pud;
  block_at (word_at w (slot pmd (table_index virtual_address PMD_SHIFT))) virtual_address.
(** The physical memory, at offset [p]. *)
Definition physical (p : Z) : mapping :=
  {| m_address := p; m_attribute := if p <? DEVICE_BASE then MT_NORMAL_NC else MT_DEVICE_nGnRnE; m_user := false |}.

(** ** Computations that change words only *)
Definition runs (c : K unit) (f : gmap Z Z → gmap Z Z) : Prop :=
  ∀ k, c k = Done tt (set_mem {| (mem k) with words := f (words (mem k)) |} k).
Lemma runs_then c c' f f' : runs c f → runs c' f' → runs (c;; c') (λ w, f' (f w)).
Proof. intros H H' k. unfold mbind, M_bind. rewrite H, H'. done. Qed.
Lemma runs_store a v : runs (store a v) (insert (a + VA_START) (u64 v)).
Proof. intros k. reflexivity. Qed.

(** ** The loop over the blocks *)
Fixpoint blocks (n : nat) (tbl start phys : Z) (w : gmap Z Z) : gmap Z Z :=
  match n with
  | O => w
  | S n' => blocks n' tbl (start + 1) (phys + SECTION_SIZE) (<[slot tbl start := u64 phys]> w)
  end.
Lemma runs_block_loop fuel tbl start last phys :
  0 ≤ last - start < Z.of_nat fuel →
  runs (block_loop fuel tbl start last phys) (blocks (Z.to_nat (last - start + 1)) tbl start phys).
Proof.
  revert start phys. induction fuel as [|fuel IH]; intros start phys Hf; [lia|].
  assert (Es : ∀ w : gmap Z Z, <[tbl + 8 * start + VA_START := u64 phys]> w = <[slot tbl start := u64 phys]> w)
    by (intros w; f_equal; unfold slot; lia).
  cbn [block_loop]. destruct (Z.leb_spec (start + 1) last) as [Hl|Hl].
  - replace (Z.to_nat (last - start + 1)) with (S (Z.to_nat (last - (start + 1) + 1))) by lia. cbn [blocks].
    intros k. rewrite (runs_then _ _ _ _ (runs_store _ _) (IH (start + 1) (phys + SECTION_SIZE) ltac:(lia)) k).
    by rewrite Es.
  - replace (Z.to_nat (last - start + 1)) with 1%nat by lia. cbn [blocks]. intros k.
    unfold mbind, M_bind. rewrite runs_store. by rewrite Es.
Qed.
Lemma blocks_outside n tbl start phys w x :
  (∀ j, start ≤ j < start + Z.of_nat n → x ≠ slot tbl j) → word_at (blocks n tbl start phys w) x = word_at w x.
Proof.
  revert start phys w. induction n as [|n IH]; intros start phys w Hx; cbn [blocks]; [done|].
  rewrite IH by (intros j Hj; apply Hx; lia). rewrite word_at_insert. rewrite decide_False; [done|apply Hx; lia].
Qed.
Lemma blocks_slot n tbl start phys w j :
  start ≤ j < start + Z.of_nat n →
  word_at (blocks n tbl start phys w) (slot tbl j) = u64 (phys + (j - start) * SECTION_SIZE).
Proof.
  revert start phys w. induction n as [|n IH]; intros start phys w Hj; [lia|]. cbn [blocks].
  destruct (decide (j = start)) as [->|Hne].
  - rewrite blocks_outside by (intros i Hi; unfold slot; lia). rewrite word_at_insert, decide_True by done. f_equal. lia.
  - rewrite IH by lia. f_equal. lia.
Qed.

(** ** The entries *)

(** A number by its low bits, which are flags, and the rest. *)
Section bits.
Context (s m f q : Z).
Hypothesis Hs : 0 ≤ s.
Hypothesis Hf : 0 ≤ f < 2 ^ s.
Lemma bits_join : Z.lor f (q * 2 ^ s) = f + q * 2 ^ s.
Proof.
  assert (E : Z.land f (q * 2 ^ s) = 0); [|by rewrite <- Z.lxor_lor, <- Z.add_nocarry_lxor].
  apply Z.bits_inj'. intros n Hn. rewrite Z.land_spec, Z.bits_0.
  destruct (decide (n < s)); [rewrite Z.mul_pow2_bits_low by lia; apply andb_false_r|].
  rewrite <- (Z.mod_small f (2 ^ s)) by done. by rewrite Z.mod_pow2_bits_high by lia.
Qed.
Lemma bits_low n : n < s → Z.testbit (f + q * 2 ^ s) n = Z.testbit f n.
Proof.
  intros Hn. rewrite <- (Z.mod_pow2_bits_low _ s) by lia. rewrite Z_mod_plus_full. by rewrite Z.mod_small.
Qed.
Lemma bits_high : 0 ≤ m → 0 ≤ q < 2 ^ m → Z.land (f + q * 2 ^ s) (Z.shiftl (Z.ones m) s) = q * 2 ^ s.
Proof.
  intros Hm Hq. assert (E : Z.shiftr (f + q * 2 ^ s) s = q).
  { rewrite Z.shiftr_div_pow2, Z.div_add, Z.div_small by lia. lia. }
  transitivity (Z.shiftl (Z.land (Z.shiftr (f + q * 2 ^ s) s) (Z.ones m)) s).
  - apply Z.bits_inj'. intros n Hn. rewrite Z.land_spec, !Z.shiftl_spec by done.
    destruct (decide (n < s)); [by rewrite !(Z.testbit_neg_r _ (n - s)), andb_false_r by lia|].
    rewrite Z.land_spec, Z.shiftr_spec by lia. by replace (n - s + s) with n by lia.
  - by rewrite E, Z.land_ones, Z.mod_small, Z.shiftl_mul_pow2 by lia.
Qed.
End bits.

(** A block entry, by its flags and the number of the section. *)
Definition entry_of (flags q : Z) : Z := flags + q * 2 ^ 21.
Lemma entry_first flags q :
  0 ≤ flags < 2 ^ 21 → Z.lor flags (Z.shiftl (Z.shiftr (q * 2 ^ 21) SECTION_SHIFT) SECTION_SHIFT) = entry_of flags q.
Proof.
  intros Hf. change SECTION_SHIFT with 21. rewrite Z.shiftr_div_pow2, Z.div_mul, Z.shiftl_mul_pow2 by lia.
  by rewrite bits_join.
Qed.
Lemma entry_attribute flags q :
  0 ≤ flags < 2 ^ 21 → Z.land (Z.shiftr (entry_of flags q) 2) 7 = Z.land (Z.shiftr flags 2) 7.
Proof.
  intros Hf. change 7 with (Z.ones 3). apply Z.bits_inj'. intros n Hn. rewrite !Z.land_spec.
  destruct (decide (n < 3)); [|by rewrite !Z.ones_spec_high, !andb_false_r by lia].
  unfold entry_of. rewrite !Z.shiftr_spec, bits_low by lia. done.
Qed.
Lemma entry_maps flags q va :
  flags = MMU_FLAGS ∨ flags = MMU_DEVICE_FLAGS → 0 ≤ q < 2 ^ 27 →
  block_at (entry_of flags q) va =
    Some {| m_address := q * 2 ^ 21 + va mod SECTION_SIZE;
            m_attribute := if decide (flags = MMU_FLAGS) then MT_NORMAL_NC else MT_DEVICE_nGnRnE; m_user := false |}.
Proof.
  intros Hf Hq. assert (Hr : 0 ≤ flags < 2 ^ 21) by (destruct Hf as [-> | ->]; vm_compute; split; done).
  unfold block_at. rewrite entry_attribute by done. unfold entry_of. change SECTION_SHIFT with 21.
  rewrite !bits_low, bits_high by lia. by destruct Hf as [-> | ->].
Qed.

(** An entry that leads to a table. *)
Definition table_link (a : Z) : Z := u64 (Z.lor a MM_TYPE_PAGE_TABLE).
Lemma table_link_walk w table shift va a :
  a mod PAGE_SIZE = 0 → 0 ≤ a < 2 ^ 48 → word_at w (slot table (table_index va shift)) = table_link a →
  walk_step w shift va table = Some a.
Proof.
  intros Ha Hr Hw. unfold walk_step. unfold slot in Hw. rewrite Hw. unfold table_link.
  change PAGE_SIZE with (2 ^ 12) in Ha. change MM_TYPE_PAGE_TABLE with 3.
  assert (E : a = a / 2 ^ 12 * 2 ^ 12) by (pose proof (Z.div_mod a (2 ^ 12)); lia).
  rewrite Z.lor_comm. rewrite E. rewrite bits_join by lia. unfold u64. rewrite Z.mod_small by lia.
  rewrite bits_low by lia. change PAGE_MASK with (Z.shiftl (Z.ones 52) 12). rewrite bits_high; [done|lia|lia|lia|].
  split; [apply Z.div_pos; lia|]. apply Z.div_lt_upper_bound; lia.
Qed.
Lemma walk_empty w table shift va :
  word_at w (slot table (table_index va shift)) = 0 → walk_step w shift va table = None.
Proof. intros Hw. unfold walk_step, slot in *. by rewrite Hw. Qed.

(** ** The tables *)
Definition boot_words (pgd : Z) (w : gmap Z Z) : gmap Z Z :=
  blocks 8 (pgd + PAGE_SIZE + PAGE_SIZE) 504 (entry_of MMU_DEVICE_FLAGS 504)
    (blocks 504 (pgd + PAGE_SIZE + PAGE_SIZE) 0 (entry_of MMU_FLAGS 0)
      (<[slot (pgd + PAGE_SIZE) 0 := table_link (pgd + PAGE_SIZE + PAGE_SIZE)]>
        (<[slot pgd 0 := table_link (pgd + PAGE_SIZE)]> (zero_words 1536 (pgd + VA_START) w)))).
Lemma runs_entry tbl virt shift k :
  table_index virt shift = 0 →
  create_table_entry tbl virt shift k =
    Done (tbl + PAGE_SIZE)
      (set_mem {| (mem k) with words := <[slot tbl 0 := table_link (tbl + PAGE_SIZE)]> (words (mem k)) |} k).
Proof.
  intros E. unfold create_table_entry, mbind, M_bind. rewrite E, runs_store.
  replace (tbl + 8 * 0 + VA_START) with (slot tbl 0) by (unfold slot; lia). done.
Qed.
Lemma runs_block_map tbl first last flags n phys start final :
  phys = first * 2 ^ 21 → 0 ≤ flags < 2 ^ 21 →
  table_index start SECTION_SHIFT = first → table_index final SECTION_SHIFT = last →
  0 ≤ last - first < 512 → n = Z.to_nat (last - first + 1) →
  runs (create_block_map tbl phys start final flags) (blocks n tbl first (entry_of flags first)).
Proof.
  intros -> Hf E1 E2 Hl ->. unfold create_block_map. rewrite E1, E2, entry_first by done.
  apply runs_block_loop. by change (Z.of_nat (Z.to_nat PTRS_PER_TABLE)) with 512.
Qed.
Lemma runs_tables pgd : runs (__create_page_tables pgd) (boot_words pgd).
Proof.
  intros k. unfold __create_page_tables, create_pgd_entry.
  assert (H0 : runs (memzero (pgd + VA_START) PGD_SIZE) (zero_words 1536 (pgd + VA_START))).
  { intros k'. unfold memzero, change_words, modify. replace (Nat.max 1 _) with 1536%nat by (vm_compute; reflexivity). done. }
  unfold mbind, M_bind at 1 2 3 4. rewrite H0.
  rewrite runs_entry by (vm_compute; reflexivity). rewrite runs_entry by (vm_compute; reflexivity).
  rewrite (runs_block_map _ 0 503 MMU_FLAGS 504); [|vm_compute; (reflexivity || (split; [discriminate|reflexivity]))..].
  rewrite (runs_block_map _ 504 511 MMU_DEVICE_FLAGS 8); [|vm_compute; (reflexivity || (split; [discriminate|reflexivity]))..].
  done.
Qed.

Section contents.
Context (pgd : Z) (w : gmap Z Z).
Let pud := pgd + PAGE_SIZE.
Let pmd := pgd + PAGE_SIZE + PAGE_SIZE.
Lemma boot_outside x : ¬ (pgd + VA_START ≤ x < pgd + VA_START + PGD_SIZE) → word_at (boot_words pgd w) x = word_at w x.
Proof.
  intros Hx. change PGD_SIZE with 12288 in Hx. unfold boot_words.
  rewrite !blocks_outside by (intros j Hj; unfold slot; change PAGE_SIZE with 4096; lia).
  rewrite !word_at_insert. unfold slot. change PAGE_SIZE with 4096. rewrite !decide_False by lia.
  rewrite zero_words_spec. rewrite decide_False; [done|lia].
Qed.
Lemma boot_root k : 0 ≤ k < 512 → word_at (boot_words pgd w) (slot pgd k) = if decide (k = 0) then table_link pud else 0.
Proof.
  intros Hk. unfold boot_words. rewrite !blocks_outside by (intros j Hj; unfold slot; change PAGE_SIZE with 4096; lia).
  rewrite !word_at_insert. rewrite decide_False by (unfold slot; change PAGE_SIZE with 4096; lia).
  destruct (decide (k = 0)) as [->|]; [by rewrite decide_True|]. rewrite decide_False by (unfold slot; lia).
  rewrite zero_words_spec. rewrite decide_True; [done|]. unfold slot.
  replace (pgd + VA_START + 8 * k - (pgd + VA_START)) with (k * 8) by lia. rewrite Z.mod_mul by lia. lia.
Qed.
Lemma boot_middle k : 0 ≤ k < 512 → word_at (boot_words pgd w) (slot pud k) = if decide (k = 0) then table_link pmd else 0.
Proof.
  intros Hk. unfold boot_words. subst pud pmd.
  rewrite !blocks_outside by (intros j Hj; unfold slot; change PAGE_SIZE with 4096; lia).
  rewrite !word_at_insert. destruct (decide (k = 0)) as [->|]; [by rewrite decide_True|].
  rewrite !decide_False by (unfold slot; change PAGE_SIZE with 4096; lia).
  rewrite zero_words_spec. rewrite decide_True; [done|]. unfold slot. change PAGE_SIZE with 4096.
  replace (pgd + 4096 + VA_START + 8 * k - (pgd + VA_START)) with ((512 + k) * 8) by lia. rewrite Z.mod_mul by lia. lia.
Qed.
Lemma boot_blocks k : 0 ≤ k < 512 →
  word_at (boot_words pgd w) (slot pmd k) = entry_of (if k <? 504 then MMU_FLAGS else MMU_DEVICE_FLAGS) k.
Proof.
  intros Hk. unfold boot_words.
  assert (E : ∀ flags q, flags = MMU_FLAGS ∨ flags = MMU_DEVICE_FLAGS → 0 ≤ q → q ≤ k →
    u64 (entry_of flags q + (k - q) * SECTION_SIZE) = entry_of flags k).
  { intros flags q Hf Hq Hqk. change SECTION_SIZE with (2 ^ 21). unfold entry_of.
    replace (flags + q * 2 ^ 21 + (k - q) * 2 ^ 21) with (flags + k * 2 ^ 21) by lia.
    unfold u64. apply Z.mod_small. assert (0 ≤ flags < 2 ^ 21) by (destruct Hf as [-> | ->]; vm_compute; split; done).
    lia. }
  destruct (Z.ltb_spec k 504).
  - rewrite blocks_outside by (intros j Hj; unfold pmd, slot; lia). unfold pmd. rewrite blocks_slot by lia. apply E; [by left|lia|lia].
  - unfold pmd. rewrite blocks_slot by lia. apply E; [by right|lia|lia].
Qed.
End contents.

(** ** What is mapped *)
Definition walk_shift (shift : Z) : Prop := shift = 39 ∨ shift = 30 ∨ shift = 21.
Lemma high_index p shift : walk_shift shift → table_index (VA_START + p) shift = table_index p shift.
Proof.
  intros Hs. change VA_START with (65535 * 2 ^ 48). unfold walk_shift in Hs.
  rewrite !table_index_div by lia.
  assert (E : ∃ d, 0 ≤ d ∧ 2 ^ 48 = d * 512 * 2 ^ shift)
    by (destruct Hs as [-> | [-> | ->]]; [exists 1|exists 512|exists (512 * 512)]; by vm_compute).
  destruct E as (d & _ & ->). rewrite Z.add_comm. replace (65535 * (d * 512 * 2 ^ shift)) with (65535 * d * 512 * 2 ^ shift) by lia.
  rewrite Z.div_add by (destruct Hs as [-> | [-> | ->]]; done).
  by rewrite Z_mod_plus_full.
Qed.
Lemma high_offset p : (VA_START + p) mod SECTION_SIZE = p mod SECTION_SIZE.
Proof. change VA_START with (65535 * 2 ^ 27 * 2 ^ 21). change SECTION_SIZE with (2 ^ 21). by rewrite Z.add_comm, Z_mod_plus_full. Qed.
(** An address of either half, by its offset in it. *)
Definition offset_of (va p : Z) : Prop := 0 ≤ p < 2 ^ 48 ∧ (va = p ∨ va = VA_START + p).
Lemma offset_index va p shift : offset_of va p → walk_shift shift → table_index va shift = table_index p shift.
Proof. intros [_ [-> | ->]] Hs; [done|by apply high_index]. Qed.

Lemma boot_translate pgd w va p :
  pgd mod PAGE_SIZE = 0 → 0 ≤ pgd < PHYS_MEMORY_SIZE → offset_of va p →
  translate_block (boot_words pgd w) pgd va = if p <? PHYS_MEMORY_SIZE then Some (physical p) else None.
Proof.
  intros Hp Hr Ho. unfold translate_block.
  assert (A : (pgd + PAGE_SIZE) mod PAGE_SIZE = 0 ∧ (pgd + PAGE_SIZE + PAGE_SIZE) mod PAGE_SIZE = 0)
    by (clear -Hp; change PAGE_SIZE with 4096 in *; Z.to_euclidean_division_equations; lia). change PHYS_MEMORY_SIZE with (2 ^ 30) in *.
  assert (Hi : ∀ shift, walk_shift shift → table_index va shift = (p / 2 ^ shift) mod 512).
  { intros shift Hs. rewrite (offset_index _ p) by done. apply table_index_div. unfold walk_shift in Hs. lia. }
  pose proof (Hi 39 ltac:(by left)) as I0. pose proof (Hi 30 ltac:(by right; left)) as I1.
  pose proof (Hi 21 ltac:(by right; right)) as I2.
  change PGD_SHIFT with 39 in *. change PUD_SHIFT with 30 in *. change PMD_SHIFT with 21 in *.
  destruct Ho as [Hb Hva].
  assert (R : ∀ shift, 0 ≤ (p / 2 ^ shift) mod 512 < 512) by (intros; by apply Z.mod_pos_bound).
  pose proof (boot_root pgd w _ (R 39)) as E0. rewrite <- I0 in E0.
  pose proof (boot_middle pgd w _ (R 30)) as E1. rewrite <- I1 in E1.
  destruct (decide (table_index va 39 = 0)) as [Z0|N0].
  2: { rewrite (walk_empty _ _ _ _ E0). destruct (Z.ltb_spec p (2 ^ 30)); [|done]. exfalso. apply N0. rewrite I0.
       by rewrite Z.div_small by lia. }
  rewrite (table_link_walk _ _ _ _ (pgd + PAGE_SIZE)); [| |change PAGE_SIZE with 4096; lia|exact E0].
  2: { apply A. }
  cbn [mbind option_bind].
  destruct (decide (table_index va 30 = 0)) as [Z1|N1].
  2: { rewrite (walk_empty _ _ _ _ E1). destruct (Z.ltb_spec p (2 ^ 30)); [|done]. exfalso. apply N1. rewrite I1.
       by rewrite Z.div_small by lia. }
  rewrite (table_link_walk _ _ _ _ (pgd + PAGE_SIZE + PAGE_SIZE)); [| |change PAGE_SIZE with 4096; lia|exact E1].
  2: { apply A. }
  cbn [mbind option_bind].
  assert (Hp30 : p < 2 ^ 30) by (clear - Z0 Z1 I0 I1 Hb; rewrite I0 in Z0; rewrite I1 in Z1; Z.to_euclidean_division_equations; lia).
  rewrite (proj2 (Z.ltb_lt _ _) Hp30).
  assert (Hq : 0 ≤ p / 2 ^ 21 < 512) by (clear - Hb Hp30; Z.to_euclidean_division_equations; lia).
  rewrite I2, boot_blocks by apply R. rewrite Z.mod_small by done.
  rewrite entry_maps; [| |lia].
  2: { destruct (_ <? 504); auto. }
  assert (Em : va mod SECTION_SIZE = p mod 2 ^ 21) by (destruct Hva as [-> | ->]; [done|apply high_offset]).
  rewrite Em. unfold physical. f_equal. f_equal.
  - pose proof (Z.div_mod p (2 ^ 21)). lia.
  - assert (Ed : (p / 2 ^ 21 <? 504) = (p <? DEVICE_BASE)); [|rewrite <- Ed; by destruct (_ <? 504)].
    clear. change DEVICE_BASE with (2 ^ 21 * 504). destruct (Z.ltb_spec p (2 ^ 21 * 504)) as [Hlt|Hge].
    + apply Z.ltb_lt. by apply Z.div_lt_upper_bound.
    + apply Z.ltb_ge. by apply Z.div_le_lower_bound.
Qed.
