(* ===== verification/Fork.v ===== *)
(** * Process creation

    [copy_process] of src/libs/fork.c, with the saved user registers ([pt_regs]) at
    the top of the kernel page of a process.  The address of the static
    [init_process] and of the assembly label [ret_from_fork] are parameters. *)
From S2P Require Import Prelude.
From S2P Require Import Process.
From S2P Require Import ReadyQueue.
From S2P Require Import Scheduler.
From S2P Require Import SchedSpec.
From S2P Require Import SchedInv.
From S2P Require Import SchedDispatch.
From S2P Require Import SchedPick.
From S2P Require Import SchedAging.
From S2P Require Import SchedTick.
From S2P Require Import SchedOps.
From S2P Require Import Ipc.
From S2P Require Import Mm.
From S2P Require Import Uart.
Local Open Scope Z_scope.

Definition THREAD_SIZE : Z := 4096.
Definition PF_KTHREAD : Z := 2.
(** 31 general registers, [sp], [pc] and [pstate]: 34 words. *)
Definition PT_REGS_WORDS : nat := 34.
Definition PT_REGS_SIZE : Z := 8 * Z.of_nat PT_REGS_WORDS.

Section fork.
Variable alg : SchedAlgorithm.
Variables init_process_address ret_from_fork : Z.

Definition pcb_address (p : pcb_ptr) : Z :=
  match p with InitProcess => init_process_address | KernelPage address => address end.
Definition task_pt_regs (process : pcb_ptr) : Z :=
  pcb_address process + THREAD_SIZE - PT_REGS_SIZE.
(** The offsets of [sp], [pc] and [pstate]. *)
Definition PT_REGS_SP : Z := 8 * 31.
Definition PT_REGS_PC : Z := 8 * 32.
Definition PT_REGS_PSTATE : Z := 8 * 33.
Definition PSR_MODE_EL0t : Z := 0.

(** [*child_registers = *current_registers;]: a word at a time. *)
Fixpoint copy_words (n : nat) (destination source : Z) (w : gmap Z Z) : gmap Z Z :=
  match n with
  | O => w
  | S n' => copy_words n' (destination + 8) (source + 8) (<[destination := word_at w source]> w)
  end.

(** The zeroed page becomes a PCB. *)
Definition new_pcb (address : Z) : K unit :=
  modify (λ s, set_heap (<[KernelPage address := zero_PCB]> (heap s)) s).

(** The fields [copy_process] fills in. *)
Definition child_of (parent : PCB) (clone_flags process_id registers : Z) (child : PCB) : PCB :=
  {| child with
     flags := clone_flags;
     priority := priority parent;
     state := PROCESS_READY;
     counter := 10;
     est_burst := est_burst parent;
     burst_ticks := 0;
     queue_priority := queue_priority parent;
     tickets := tickets parent;
     preempt_disabled := 1;
     pid := process_id;
     cpu_context := {| (cpu_context child) with pc := ret_from_fork; sp := registers |} |}.

Definition copy_process (clone_flags function argument : Z) : K Z :=
  preempt_disable;;
  page ← allocate_kernel_page;
  n ← gets n_processes;
  if (page =? 0) || (N_PROCESSES <=? n) then mret (-1) else
  let new_process := KernelPage page in
  new_pcb page;;
  let child_registers := task_pt_regs new_process in
  memzero child_registers PT_REGS_SIZE;;
  update new_process (set_cpu_context zero_context);;
  update new_process (λ pcb, {| pcb with files := replicate (Z.to_nat MAX_FILES_PER_PROCESS) None |});;
  (if negb (Z.land clone_flags PF_KTHREAD =? 0) then
     update new_process (λ pcb,
       set_cpu_context {| (cpu_context pcb) with x19 := function; x20 := argument |} pcb)
   else
     current ← gets current_process;
     change_words (copy_words PT_REGS_WORDS child_registers (task_pt_regs current));;
     write_word child_registers 0;;
     copy_virtual_memory new_process;;
     mret tt);;
  process_id ← gets n_processes;
  parent ← load_current;
  update new_process (child_of parent clone_flags process_id child_registers);;
  added ← add_process_to_scheduler alg new_process;
  if added <? 0 then mret (-1) else
  preempt_enable;;
  mret process_id.

(** One turn of the loop of [copy_code], with the new [copied_bytes].  Bytes for a page that
    was not allocated go to the NULL page. *)
Definition copy_code_page (i : Z) (process : pcb_ptr) (buffer size copied_bytes : Z) : K Z :=
  kernel_virtual_address ← allocate_user_page process (i * PAGE_SIZE);
  if copied_bytes <? size then
    let bytes_to_copy := if PAGE_SIZE <? size - copied_bytes then PAGE_SIZE else size - copied_bytes in
    if kernel_virtual_address =? 0 then undefined else
    memcpy kernel_virtual_address (buffer + copied_bytes) bytes_to_copy;;
    mret (copied_bytes + bytes_to_copy)
  else mret copied_bytes.
(** [for (i = 0; i < 16; i++)]: the pages from [i] on, [n] of them. *)
Definition CODE_PAGES : nat := 16.
Fixpoint copy_code_pages (n : nat) (i : Z) (process : pcb_ptr) (buffer size copied_bytes : Z) : K unit :=
  match n with
  | O => mret tt
  | S n' =>
      copied_bytes ← copy_code_page i process buffer size copied_bytes;
      copy_code_pages n' (i + 1) process buffer size copied_bytes
  end.
Definition copy_code (process : pcb_ptr) (buffer size : Z) : K unit :=
  copy_code_pages CODE_PAGES 0 process buffer size 0.

(** The program counter is stored in [regs->pc] as it is given. *)
Definition move_to_user_mode (start size pc : Z) : K Z :=
  current ← gets current_process;
  let regs := task_pt_regs current in
  memzero regs PT_REGS_SIZE;;
  write_word (regs + PT_REGS_PSTATE) PSR_MODE_EL0t;;
  write_word (regs + PT_REGS_PC) pc;;
  write_word (regs + PT_REGS_SP) (16 * PAGE_SIZE);;
  copy_code current start size;;
  pcb ← load_current;
  set_pgd (pgd (mm pcb));;
  mret 0.
End fork.

(** ** Preparing the child *)

(** The child has never been sent a message. *)
Definition fresh (a : astate) (p : pcb_ptr) : Prop :=
  messages_buffer <$> pcb_at a p = Some zero_messages_buffer.
Definition keeps_messages (f : PCB → PCB) : Prop :=
  ∀ pcb, messages_buffer (f pcb) = messages_buffer pcb.

(** Changes to the memory and to the PCB of the unregistered process [p]. *)
Record prepares (p : pcb_ptr) (a a' : astate) : Prop := {
  pr_queues : queues a' = queues a;
  pr_core : ∃ m h, core a' = set_mem m (set_heap h (core a)) ∧
    (∀ p', p' ≠ p → h !! p' = heap (core a) !! p') ∧
    memory_pages (mem (core a)) ⊆ memory_pages m;
  pr_child : fresh a' p
}.

Section prepares.
Context {alg : SchedAlgorithm}.
Implicit Types (a : astate) (p : pcb_ptr).

Lemma prepares_trans p a1 a2 a3 : prepares p a1 a2 → prepares p a2 a3 → prepares p a1 a3.
Proof.
  intros [Hq1 (m1 & h1 & Hc1 & Hh1 & Hm1) _] [Hq2 (m2 & h2 & Hc2 & Hh2 & Hm2) Hp].
  split; [by rewrite Hq2| |done]. exists m2, h2. rewrite Hc2, Hc1. split; [done|]. split.
  - intros p' Hne. rewrite Hh2 by done. rewrite Hc1. cbn. by apply Hh1.
  - rewrite Hc1 in Hm2. cbn in Hm2. set_solver.
Qed.
Lemma fresh_pcb p a : fresh a p → ∃ pcb, pcb_at a p = Some pcb ∧ messages_buffer pcb = zero_messages_buffer.
Proof. unfold fresh. destruct (pcb_at a p) as [pcb|]; [|done]. intros [= H]. eauto. Qed.
Lemma prepares_update p f a : fresh a p → keeps_messages f → prepares p a (a_update p f a).
Proof.
  intros (pcb & Hp & Hm)%fresh_pcb Hf. split; [done| |].
  - exists (mem (core a)), (alter f p (heap (core a))). split; [|split; [|done]].
    + unfold a_update, a_core. cbn. by destruct (core a).
    + intros p' Hne. by apply lookup_alter_ne.
  - unfold fresh. rewrite pcb_at_update, decide_True, Hp by done. cbn. by rewrite Hf, Hm.
Qed.
Lemma prepares_mem p m a :
  fresh a p → memory_pages (mem (core a)) ⊆ memory_pages m →
  prepares p a (a_core (set_mem m) a).
Proof.
  intros Hp Hm. split; [done| |exact Hp]. exists m, (heap (core a)).
  split; [cbn; by destruct (core a)|done].
Qed.

Lemma prepares_pcb p a a' p' : prepares p a a' → p' ≠ p → pcb_at a' p' = pcb_at a p'.
Proof.
  intros [_ (m & h & Hc & Hh & _) _] Hne. unfold pcb_at. rewrite Hc. by apply Hh.
Qed.
Lemma prepares_frame p a a' :
  prepares p a a' → current a' = current a ∧ processes (core a') = processes (core a) ∧
  n_processes (core a') = n_processes (core a) ∧ queue_level (core a') = queue_level (core a).
Proof. intros [_ (m & h & Hc & _) _]. unfold current. by rewrite Hc. Qed.

Lemma prepares_kernel_ok p a a' :
  kernel_ok alg a → ¬ registered a p → prepares p a a' → kernel_ok alg a'.
Proof.
  intros [Hi Hun] Hnr Hpr. destruct (prepares_frame _ _ _ Hpr) as (Hc & Ht & _ & Hl).
  pose proof (pr_queues _ _ _ Hpr) as Hq.
  assert (Hreg : ∀ p', registered a' p' ↔ registered a p') by (intros; unfold registered; by rewrite Ht).
  assert (Hpcb : ∀ p', registered a p' → pcb_at a' p' = pcb_at a p').
  { intros p' Hr. apply (prepares_pcb _ _ _ _ Hpr). by intros ->. }
  assert (Hst : ∀ p', registered a p' → state_of a' p' = state_of a p')
    by (intros; unfold state_of; by rewrite Hpcb).
  assert (Hct : ∀ p', registered a p' → counter_of a' p' = counter_of a p')
    by (intros; unfold counter_of; by rewrite Hpcb).
  split; [|intros q Hqv; rewrite Hc, Hq; by apply Hun].
  split; rewrite ?Hc, ?Ht, ?Hl, ?Hq.
  - apply Hi.
  - apply Hi.
  - apply Hi.
  - apply Hreg, Hi.
  - apply Hreg, Hi.
  - intros i p' Hp'. rewrite Hpcb by by eapply list_elem_of_lookup_2.
    by apply (inv_table _ _ _ Hi).
  - intros p' Hr%Hreg Hne. rewrite Hct by done. by apply (inv_counter _ _ _ Hi).
  - intros q p' Hqv Hp'. destruct (inv_queued _ _ _ Hi q p' Hqv Hp') as (? & ? & ? & ?).
    split_and!; [done|done|by apply Hreg|by rewrite Hst].
  - intros p' Hr%Hreg Hne. rewrite Hst by done. by apply (inv_ready _ _ _ Hi).
  - intros p' Hr%Hreg. rewrite Hst by done. by apply (inv_running _ _ _ Hi).
  - apply Hi.
  - apply Hi.
Qed.

Lemma rep_mem m s a : rep s a → rep (set_mem m s) (a_core (set_mem m) a).
Proof.
  intros Hr. assert (H : wp (modify (set_mem m)) (λ _ s', rep s' (a_core (set_mem m) a)) s)
    by by eapply wp_modify_core. exact H.
Qed.

(** What the steps of [copy_process] promise about an unregistered process. *)
Definition builds {A} (p : pcb_ptr) (m : K A) : Prop :=
  ∀ s a, rep s a → fresh a p → wlp m (λ _ s', ∃ a', rep s' a' ∧ prepares p a a') s.

Lemma builds_bind {A B} p (m : K A) (k : A → K B) :
  builds p m → (∀ x, builds p (k x)) → builds p (m ≫= k).
Proof.
  intros Hm Hk s a Hr Hp. apply wlp_bind. eapply wlp_mono; [by eapply Hm|].
  intros x s1 (a1 & Hr1 & Hp1). eapply wlp_mono; [eapply Hk; [exact Hr1|apply Hp1]|].
  intros y s2 (a2 & Hr2 & Hp2). exists a2. split; [done|]. by eapply prepares_trans.
Qed.
Lemma prepares_refl p a : fresh a p → prepares p a a.
Proof.
  intros Hp. split; [done| |done]. exists (mem (core a)), (heap (core a)).
  split; [cbn; by destruct (core a)|done].
Qed.
Lemma builds_pure {A} p (m : K A) : (∀ s, match m s with Done _ s' => s' = s | _ => True end) →
  builds p m.
Proof.
  intros Hm s a Hr Hp. specialize (Hm s). unfold wlp. destruct (m s); [subst|done..].
  exists a. split; [done|]. by apply prepares_refl.
Qed.
Lemma builds_ret {A} p (x : A) : builds p (mret x).
Proof. by apply builds_pure. Qed.
Lemma builds_gets {A} p (f : kernel → A) : builds p (gets f).
Proof. by apply builds_pure. Qed.
Lemma builds_defined {A} p (o : option A) : builds p (defined o).
Proof. by apply builds_pure; destruct o. Qed.
Lemma builds_load p p' : builds p (load p').
Proof. apply builds_pure. intros s. unfold load. by destruct (heap s !! p'). Qed.
Lemma builds_read_word p x : builds p (read_word x).
Proof. by apply builds_pure. Qed.
Lemma builds_when p b (c : K unit) : builds p c → builds p (when b c).
Proof. destruct b; [done|]. intros _. apply builds_ret. Qed.
Lemma builds_update p f : link_free f → keeps_messages f → builds p (update p f).
Proof.
  intros Hf Hk s a Hr Hfr. destruct (fresh_pcb _ _ Hfr) as (pcb & Hp & _). apply wp_wlp.
  eapply wp_update; [done|done|exact Hp|].
  intros s1 Hr1. eexists. split; [exact Hr1|]. by apply prepares_update.
Qed.
Lemma builds_words p f : builds p (change_words f).
Proof.
  intros s a Hr Hp. unfold change_words, wlp. cbn.
  exists (a_core (set_mem {| (mem s) with words := f (words (mem s)) |}) a).
  split; [by apply (rep_mem _ s a)|].
  apply prepares_mem; [done|]. cbn. rewrite <- (rep_core _ _ Hr). done.
Qed.
Lemma builds_get_free_page p : builds p get_free_page.
Proof.
  intros s a Hr Hp. apply wp_wlp, wp_get_free_page.
  destruct (free_index (mem s)) as [i|].
  - eexists. split; [by apply (rep_mem _ s a)|]. apply prepares_mem; [done|].
    rewrite <- (rep_core _ _ Hr). cbn. set_solver.
  - exists a. split; [done|]. by apply prepares_refl.
Qed.

(** One more step of preparing [p]. *)
Lemma tlp_build_step {B} total p a0 (m : K unit) (k : K B) (Q : B → kernel → Prop) s a :
  builds p m → (total = true → is_Some (heap s !! p) → wp m (λ _ _, True) s) →
  rep s a → prepares p a0 a →
  (∀ s' a', rep s' a' → prepares p a0 a' → tlp total k Q s') → tlp total (m;; k) Q s.
Proof.
  intros Hb Ht Hr Hpr HQ. apply tlp_bind.
  eapply tlp_mono; [apply wlp_total; [eapply Hb; [exact Hr|apply Hpr]|]|].
  - intros E. apply Ht; [done|]. destruct (fresh_pcb _ _ (pr_child _ _ _ Hpr)) as (pcb & Hp & _).
    destruct (rep_lookup _ _ _ _ Hr Hp) as (v & Hv & _). eauto.
  - intros _ s' (a' & Hr' & Hpr'). eapply HQ; [exact Hr'|]. by eapply prepares_trans.
Qed.
Lemma update_total p f s : is_Some (heap s !! p) → wp (update p f) (λ _ _, True) s.
Proof. intros [pcb Hp]. unfold wp, update. by rewrite Hp. Qed.
End prepares.

Ltac builds_step :=
  lazymatch goal with
  | |- builds _ (mbind _ _) => apply builds_bind; [|intros ?]
  | |- builds _ (when _ _) => apply builds_when
  | |- builds _ (mret _) => apply builds_ret
  | |- builds _ (gets _) => apply builds_gets
  | |- builds _ (defined _) => apply builds_defined
  | |- builds _ (load _) => apply builds_load
  | |- builds _ (read_word _) => apply builds_read_word
  | |- builds _ (change_words _) => apply builds_words
  | |- builds _ (memzero _ _) => apply builds_words
  | |- builds _ (memcpy _ _ _) => apply builds_words
  | |- builds _ (write_word _ _) => apply builds_words
  | |- builds _ get_free_page => apply builds_get_free_page
  | |- builds _ (update _ _) => apply builds_update; [intros ??; reflexivity|intros ?; reflexivity]
  | |- builds _ (if _ then _ else _) => case_match
  | |- builds _ (let '(_, _) := ?x in _) => destruct x
  end.
Ltac builds := repeat builds_step.

Lemma builds_map_page p va pa : builds p (map_page p va pa).
Proof.
  assert (Hk : ∀ page, builds p (track_kernel_page p page)) by (intros; unfold track_kernel_page; builds).
  assert (Hl : ∀ table shift, builds p (map_level p table shift va)).
  { intros. unfold map_level, map_table.
    apply builds_bind; [builds|]. intros [next []]; builds; apply Hk. }
  unfold map_page, track_user_page, map_table_entry.
  apply builds_bind; [builds|intros pcb]. apply builds_bind.
  { apply builds_when. builds. apply Hk. }
  intros _. apply builds_bind; [builds|intros pcb'].
  do 3 (apply builds_bind; [apply Hl|intros ?]). builds.
Qed.
Lemma builds_copy_virtual_memory p : builds p (copy_virtual_memory p).
Proof.
  unfold copy_virtual_memory. apply builds_bind; [builds|intros source].
  apply builds_bind; [builds|intros pcb]. generalize (Z.to_nat (n_user_pages (mm pcb))) 0.
  intros n. induction n as [|n IH]; intros i; cbn [copy_pages]; [builds|].
  unfold allocate_user_page.
  apply builds_bind; [builds|intros src]. apply builds_bind; [builds|intros page].
  apply builds_bind.
  { apply builds_bind; [builds|intros x]. case_match; [builds|].
    apply builds_bind; [apply builds_map_page|intros _]. builds. }
  intros kva. case_match; builds. apply IH.
Qed.

(** ** The invariant of the whole kernel *)
Definition heap_ok (a : astate) : Prop :=
  ∀ address, is_Some (pcb_at a (KernelPage address)) →
    ∃ i, i ∈ memory_pages (mem (core a)) ∧ address = page_address i + VA_START.
Record machine_ok (alg : SchedAlgorithm) (a : astate) : Prop := {
  mo_ok : kernel_ok alg a;
  mo_count : 0 ≤ n_processes (core a) ≤ N_PROCESSES;
  mo_dense : dense a (Z.to_nat (n_processes (core a)));
  mo_heap : heap_ok a;
  mo_uart : uart_ok (core a);
  mo_buffers : ∀ p, registered a p → buffer_ok (buffer_of a p)
}.

(** What a successful fork leaves: the child is registered under the next pid, READY
    in a queue, with a full slice and its parent's parameters. *)
Record forked (a a' : astate) (process_id : Z) : Prop := {
  fk_pid : process_id = n_processes (core a);
  fk_count : n_processes (core a') = n_processes (core a) + 1;
  fk_child : ∃ p child parent,
    processes (core a') !! Z.to_nat process_id = Some (Some p) ∧
    pcb_at a (current a) = Some parent ∧ pcb_at a' p = Some child ∧
    (∃ q, valid_queue q ∧ p ∈ queues a' q) ∧
    pid child = process_id ∧ state child = PROCESS_READY ∧ counter child = 10 ∧
    burst_ticks child = 0 ∧ preempt_disabled child = 1 ∧
    priority child = priority parent ∧ tickets child = tickets parent ∧
    queue_priority child = queue_priority parent ∧ est_burst child = est_burst parent
}.

Section copy_process.
Context {alg : SchedAlgorithm} {init_process_address ret_from_fork : Z}.
Implicit Types (a : astate) (p : pcb_ptr).

Lemma rep_new_pcb address s a :
  rep s a → pcb_at a (KernelPage address) = None →
  rep (set_heap (<[KernelPage address := zero_PCB]> (heap s)) s)
      (a_core (λ k, set_heap (<[KernelPage address := zero_PCB]> (heap k)) k) a).
Proof.
  intros Hr Hp. set (p := KernelPage address) in *. eapply rep_keep_queues; try done.
  - rewrite <- (rep_core _ _ Hr). unfold erase, set_heap; cbn. by rewrite fmap_insert.
  - intros q p' Hq Hp'. cbn. rewrite lookup_insert_ne; [done|]. intros <-.
    destruct (rep_allocated _ _ _ _ Hr Hq Hp') as [x Hx]. unfold pcb_at in Hp. congruence.
Qed.

(** A new PCB is like any other change to an unregistered process. *)
Lemma prepares_new_pcb address a :
  prepares (KernelPage address) a
    (a_core (λ k, set_heap (<[KernelPage address := zero_PCB]> (heap k)) k) a).
Proof.
  split; [done| |].
  - exists (mem (core a)), (<[KernelPage address := zero_PCB]> (heap (core a))).
    split; [cbn; by destruct (core a)|]. split; [|done].
    intros p' Hne. by apply lookup_insert_ne.
  - unfold fresh, pcb_at. cbn. by rewrite lookup_insert_eq.
Qed.

(** What registration does to the child. *)
Lemma register_child p a pcb :
  pcb_at a p = Some pcb → p ≠ InitProcess → state pcb = PROCESS_READY →
  0 ≤ pid pcb → (Z.to_nat (pid pcb) < length (processes (core a)))%nat →
  let a' := a_register alg p a in
  pcb_at a' p = Some pcb ∧ n_processes (core a') = n_processes (core a) + 1 ∧
  processes (core a') = <[Z.to_nat (pid pcb) := Some p]> (processes (core a)) ∧
  current a' = current a ∧ mem (core a') = mem (core a) ∧
  (uart_ok (core a) → uart_ok (core a')) ∧
  (∀ p', p' ≠ p → pcb_at a' p' = pcb_at a p').
Proof.
  intros Hp Hne Hst Hpid Hlt. cbn zeta. unfold a_register. rewrite Hp.
  change (default zero_PCB (Some pcb)) with pcb. cbn zeta. rewrite decide_True by done.
  set (a1 := a_core _ a). set (a3 := a_trace alg _ _).
  destruct (trace_frame alg (trace_line level_text (pid pcb) start_text
    (clamp_start_level alg (queue_priority pcb)))
    (a_set_level (pid pcb) (clamp_start_level alg (queue_priority pcb)) a1))
    as (Hc & Hq & Hh & Ht & Hn). fold a3 in Hc, Hq, Hh, Ht, Hn.
  assert (Hm : mem (core a3) = mem (core a)) by (unfold a3, a_trace; by destruct (ml_policy alg)).
  destruct p as [|addr]; [done|]. set (p := KernelPage addr) in *. cbn [a_insert].
  assert (Hcore := put_core (enqueue alg) p a3).
  assert (Hp3 : ∀ p', pcb_at a3 p' = pcb_at a p') by (intros; unfold pcb_at; by rewrite Hh).
  assert (Hpcb : ∀ p', pcb_at (a_core (λ k, set_n_processes (n_processes k + 1) k)
    (a_insert alg p a3)) p' = pcb_at (a_update p (set_state PROCESS_READY) a3) p')
    by (intros; unfold pcb_at; cbn; by rewrite Hcore).
  cbn [a_insert p] in Hpcb. fold p in Hpcb.
  split_and!.
  - rewrite Hpcb. erewrite pcb_at_update_eq by by rewrite Hp3.
    f_equal. destruct pcb; cbn in *; by subst.
  - cbn. rewrite Hcore. cbn. by rewrite Hn.
  - cbn. rewrite Hcore. cbn. by rewrite Ht.
  - unfold current. cbn. rewrite Hcore. exact Hc.
  - cbn. rewrite Hcore. exact Hm.
  - intros [? ? ?]. split; cbn; rewrite Hcore; unfold a3, a_trace; by destruct (ml_policy alg).
  - intros p' Hp'. by rewrite Hpcb, pcb_at_update_ne, Hp3.
Qed.

(** Writing the fields of the child that decide how it is scheduled. *)
Lemma registrable_child parent flags n regs p a x :
  kernel_ok alg a → dense a (Z.to_nat n) → 0 ≤ n < N_PROCESSES → 1 ≤ priority parent →
  p ≠ InitProcess → ¬ registered a p → unqueued a p → pcb_at a p = Some x →
  let child := child_of ret_from_fork parent flags n regs x in
  registrable (a_update p (child_of ret_from_fork parent flags n regs) a) p child.
Proof.
  intros [Hi _] Hd Hn Hprio Hne Hnr Hun Hx. split; try done.
  - by apply pcb_at_update_eq.
  - specialize (Hd (Z.to_nat n)). rewrite decide_False in Hd by lia. apply Hd.
    unfold N_PROCESSES in *. lia.
Qed.

Lemma dense_insert a a' (n : Z) p :
  0 ≤ n → dense a (Z.to_nat n) → length (processes (core a)) = Z.to_nat N_PROCESSES →
  n < N_PROCESSES →
  processes (core a') = <[Z.to_nat n := Some p]> (processes (core a)) →
  dense a' (Z.to_nat (n + 1)).
Proof.
  intros Hn Hd Hlen Hlt Ht i Hi. rewrite Ht. specialize (Hd i Hi).
  destruct (decide (i = Z.to_nat n)) as [->|Hne].
  - rewrite decide_True by lia. exists p. apply list_lookup_insert_eq.
    unfold N_PROCESSES in *. lia.
  - rewrite list_lookup_insert_ne by done.
    destruct (decide (i < Z.to_nat n)%nat).
    + by rewrite decide_True by lia.
    + by rewrite decide_False by lia.
Qed.

(** A change of the memory that only takes more pages. *)
Lemma machine_ok_mem m a :
  machine_ok alg a → memory_pages (mem (core a)) ⊆ memory_pages m →
  machine_ok alg (a_core (set_mem m) a).
Proof.
  intros [[Hi Hun] Hn Hd Hh [] Hb] Hm. split; try done.
  - split; [|done]. apply kinv_core; try done; apply Hi.
  - intros address Hp. destruct (Hh address Hp) as (i & ? & ?). exists i. set_solver.
Qed.
Lemma machine_ok_preempt d a : machine_ok alg a → machine_ok alg (a_preempt d a).
Proof.
  intros [Hok Hn Hd Hh [] Hb]. split; [by apply kernel_ok_preempt|done|done| |done|].
  2:{ intros p Hp. unfold buffer_of, a_preempt. rewrite pcb_at_update. specialize (Hb p Hp).
      unfold buffer_of in Hb. case_decide; [|done]. by destruct (pcb_at a p). }
  intros address [x Hx]. apply Hh. unfold a_preempt in Hx. rewrite pcb_at_update in Hx.
  case_decide; [|eauto]. destruct (pcb_at a _); [eauto|done].
Qed.

(** Registering a fresh child keeps the invariant of the whole kernel. *)
Section registered_child.
Variables (p : pcb_ptr) (a0 a1 : astate) (child : PCB).
Hypothesis ok0 : machine_ok alg a0.
Hypothesis ready : prepares p a0 a1.
Hypothesis at_child : registrable a1 p child.
Hypothesis next_pid : pid child = n_processes (core a0).
Hypothesis is_ready : state child = PROCESS_READY.
Hypothesis no_messages : messages_buffer child = zero_messages_buffer.
Hypothesis room : n_processes (core a0) < N_PROCESSES.
Hypothesis has_page : ∀ address, p = KernelPage address →
  ∃ i, i ∈ memory_pages (mem (core a1)) ∧ address = page_address i + VA_START.
Let a2 := a_register alg p a1.

Lemma registered_child_table :
  pcb_at a2 p = Some child ∧ n_processes (core a2) = n_processes (core a0) + 1 ∧
  processes (core a2) = <[Z.to_nat (n_processes (core a0)) := Some p]> (processes (core a0)) ∧
  current a2 = current a0 ∧ mem (core a2) = mem (core a1) ∧
  (uart_ok (core a1) → uart_ok (core a2)) ∧
  (∀ p', p' ≠ p → pcb_at a2 p' = pcb_at a0 p').
Proof.
  destruct (prepares_frame _ _ _ ready) as (Hc & Ht & Hn & _).
  pose proof (inv_slots _ _ _ (ko_inv _ _ (mo_ok _ _ ok0))) as Hlen.
  destruct (mo_count _ _ ok0) as [Hn0 _].
  destruct (register_child p a1 child) as (H1 & H2 & H3 & H4 & H5 & H6 & H7);
    [apply at_child|apply at_child|done|lia|rewrite Ht, Hlen, next_pid; lia|].
  fold a2 in H1, H2, H3, H4, H5, H6, H7. split_and!; try done; try congruence.
  intros p' Hne. rewrite H7 by done. by apply (prepares_pcb _ _ _ _ ready).
Qed.
Lemma registered_child_only p' : registered a2 p' → p' = p ∨ registered a0 p'.
Proof.
  destruct registered_child_table as (_ & _ & Ht & _). unfold registered. rewrite Ht.
  intros [j Hj]%list_elem_of_lookup. apply list_lookup_insert_Some in Hj as [(_ & [= ->] & _)|[_ Hj]].
  - by left.
  - right. by eapply list_elem_of_lookup_2.
Qed.
Lemma registered_child_ok : kernel_ok alg a2 → machine_ok alg a2.
Proof.
  intros Hok. destruct registered_child_table as (Hp & Hn & Ht & _ & Hm & Hu & Ho).
  pose proof ok0 as [Hok0 Hcount Hdense Hheap Huart Hbuf].
  destruct (pr_core _ _ _ ready) as (m & h & Hcore & _ & Hpages).
  split; [done|rewrite Hn; lia| | | |].
  - rewrite Hn. eapply dense_insert; [lia|done|apply Hok0|done|exact Ht].
  - intros address Hx. destruct (decide (p = KernelPage address)) as [E|Hne].
    + rewrite Hm. by apply has_page.
    + rewrite Ho in Hx by congruence. destruct (Hheap address Hx) as (i & Hi & ->).
      exists i. split; [|done]. rewrite Hm, Hcore. cbn. set_solver.
  - apply Hu. rewrite Hcore. by destruct Huart.
  - intros p' Hr. unfold buffer_of. destruct (decide (p' = p)) as [->|Hne].
    + rewrite Hp. cbn. by rewrite no_messages.
    + rewrite Ho by done. destruct (registered_child_only _ Hr) as [|Hr0]; [done|].
      by apply (Hbuf p' Hr0).
Qed.

(** With the guard released this is what a fork leaves. *)
Variable parent : PCB.
Hypothesis at_parent : pcb_at a0 (current a0) = Some parent.
Hypothesis not_current : p ≠ current a0.
Lemma forked_child :
  kernel_ok alg a2 → counter child = 10 → burst_ticks child = 0 → preempt_disabled child = 1 →
  priority child = priority parent → tickets child = tickets parent →
  queue_priority child = queue_priority parent → est_burst child = est_burst parent →
  let a3 := a_preempt (-1) a2 in
  machine_ok alg a3 ∧ current a3 = current a0 ∧
  state_of a3 (current a3) = state_of a0 (current a0) ∧ forked a0 a3 (n_processes (core a0)).
Proof.
  intros Hok H1 H2 H3 H4 H5 H6 H7. cbn zeta.
  destruct registered_child_table as (Hp & Hn & Ht & Hc & _ & _ & Ho).
  pose proof (inv_slots _ _ _ (ko_inv _ _ (mo_ok _ _ ok0))) as Hlen.
  destruct (mo_count _ _ ok0) as [Hn0 _].
  pose proof (machine_ok_preempt (-1) _ (registered_child_ok Hok)) as Hmo3.
  set (a3 := a_preempt (-1) a2) in *.
  assert (Hc3 : current a3 = current a0) by exact Hc.
  assert (Hp3 : pcb_at a3 p = Some child).
  { unfold a3, a_preempt. rewrite pcb_at_update_ne; [done|]. rewrite Hc. congruence. }
  assert (Hslot : processes (core a3) !! Z.to_nat (n_processes (core a0)) = Some (Some p)).
  { change (processes (core a3)) with (processes (core a2)). rewrite Ht.
    apply list_lookup_insert_eq. rewrite Hlen. lia. }
  split_and!; [done|done| |split; [done|exact Hn|]].
  - rewrite Hc3. unfold a3. rewrite preempt_state. unfold state_of. by rewrite Ho by done.
  - exists p, child, parent. split_and!; try done.
    destruct (inv_ready _ _ _ (ko_inv _ _ (mo_ok _ _ Hmo3)) p) as [?|?]; try done.
    + by eapply list_elem_of_lookup_2.
    + apply at_child.
    + unfold state_of. by rewrite Hp3.
Qed.
End registered_child.

(** The last steps: fill in the PCB and register it. *)
Lemma wp_finish_fork clone_flags regs address a0 s a :
  alg_ok alg → rep s a → machine_ok alg a0 →
  n_processes (core a0) < N_PROCESSES →
  let p := KernelPage address in
  pcb_at a0 p = None → prepares p a0 a →
  (∃ i, i ∈ memory_pages (mem (core a)) ∧ address = page_address i + VA_START) →
  wp (process_id ← gets n_processes;
       parent ← load_current;
       update p (child_of ret_from_fork parent clone_flags process_id regs);;
       added ← add_process_to_scheduler alg p;
       if added <? 0 then mret (-1) else
       preempt_enable;;
       mret process_id)
    (λ r s', ∃ a', rep s' a' ∧ machine_ok alg a' ∧ current a' = current a0 ∧
       state_of a' (current a') = state_of a0 (current a0) ∧ forked a0 a' r) s.
Proof.
  intros Hao Hr Hmo Hlt p Hnone Hpr Hpage. pose proof Hmo as [Hok0 Hcount Hdense _ _ _].
  pose proof (ko_inv _ _ Hok0) as Hi0.
  assert (Hnr : ¬ registered a0 p).
  { intros Hreg. destruct (registered_pcb _ _ _ Hi0 Hreg) as (x & Hx & _). congruence. }
  destruct (prepares_frame _ _ _ Hpr) as (Hc & Ht & Hn & Hl).
  pose proof (prepares_kernel_ok _ _ _ Hok0 Hnr Hpr) as Hok.
  assert (Hpc : p ≠ current a0) by (intros E; apply Hnr; rewrite E; apply Hi0).
  destruct (registered_pcb _ _ _ Hi0 (inv_current _ _ _ Hi0)) as (parent & Hparent0 & _ & Hprio & _).
  assert (Hparent : pcb_at a (current a) = Some parent).
  { rewrite Hc, <- Hparent0. apply (prepares_pcb _ _ _ _ Hpr). congruence. }
  destruct (fresh_pcb _ _ (pr_child _ _ _ Hpr)) as (x & Hx & Hxm).
  apply wp_bind, wp_gets. rewrite (rep_field n_processes s a) by done. rewrite Hn.
  apply wp_bind. unfold load_current. apply wp_bind, wp_gets.
  rewrite (rep_current _ _ Hr). eapply wp_load; [exact Hr|exact Hparent|]. intros v.
  set (n := n_processes (core a0)) in *.
  change (child_of ret_from_fork (set_next_ready v parent) clone_flags n regs)
    with (child_of ret_from_fork parent clone_flags n regs).
  set (f := child_of ret_from_fork parent clone_flags n regs).
  apply wp_bind. eapply wp_update; [exact Hr|by intros ??|exact Hx|]. intros s1 Hr1.
  assert (Hun0 : unqueued a p).
  { intros q Hq Hin. destruct (inv_queued _ _ _ (ko_inv _ _ Hok) q p Hq Hin) as (_ & _ & Hreg & _).
    apply Hnr. unfold registered in *. by rewrite Ht in Hreg. }
  assert (Hpr1 : prepares p a0 (a_update p f a)).
  { eapply prepares_trans; [exact Hpr|]. by apply prepares_update; [apply Hpr|intros ?]. }
  assert (Hrg : registrable (a_update p f a) p (f x)).
  { apply registrable_child; try done; [intros i Hi; rewrite Ht; by apply Hdense|lia|].
    unfold registered. by rewrite Ht. }
  apply wp_bind. eapply (wp_add_process_to_scheduler (alg:=alg));
    [done|exact Hr1|by apply (prepares_kernel_ok p a0)|exact Hrg| |].
  { change (n_processes (core a) < N_PROCESSES). by rewrite Hn. }
  intros s2 Hr2 Hok2. cbn [Z.ltb Z.compare]. destruct (current_pcb _ Hok2) as (y & Hy & _).
  apply wp_bind. eapply wp_preempt_enable; [exact Hr2|exact Hy|]. intros s3 Hr3.
  apply wp_ret. eexists. split; [exact Hr3|].
  apply (forked_child p a0 _ (f x)) with (parent := parent); try done.
  by intros address' [= <-].
Qed.
End copy_process.

Section whole_fork.
Context {alg : SchedAlgorithm} {init_process_address ret_from_fork : Z}.
Implicit Types (a : astate) (p : pcb_ptr).

Lemma builds_context p clone_flags function argument :
  builds p (
    if negb (Z.land clone_flags PF_KTHREAD =? 0) then
      update p (λ pcb,
        set_cpu_context {| (cpu_context pcb) with x19 := function; x20 := argument |} pcb)
    else
      current ← gets current_process;
      change_words (copy_words PT_REGS_WORDS (task_pt_regs init_process_address p)
        (task_pt_regs init_process_address current));;
      write_word (task_pt_regs init_process_address p) 0;;
      copy_virtual_memory p;;
      mret tt).
Proof.
  case_match; [builds|]. apply builds_bind; [builds|intros c].
  apply builds_bind; [builds|intros _]. apply builds_bind; [builds|intros _].
  apply builds_bind; [apply builds_copy_virtual_memory|intros _]. builds.
Qed.

Lemma tlp_copy_process clone_flags function argument s a :
  alg_ok alg → rep s a → machine_ok alg a →
  tlp (negb (Z.land clone_flags PF_KTHREAD =? 0))
    (copy_process alg init_process_address ret_from_fork clone_flags function argument)
    (λ r s', ∃ a', rep s' a' ∧ machine_ok alg a' ∧ current a' = current a ∧
       state_of a' (current a') = state_of a (current a) ∧
       ((r = -1 ∧ (free_index (mem (core a)) = None ∨ N_PROCESSES ≤ n_processes (core a))) ∨
        forked (a_preempt 1 a) a' r)) s.
Proof.
  intros Hao Hr Hmo. set (total := negb _). unfold copy_process. fold total. apply tlp_bind, wp_tlp.
  destruct (current_pcb _ (mo_ok _ _ Hmo)) as (c & Hc & _).
  eapply wp_preempt_disable; [exact Hr|exact Hc|]. intros s1 Hr1.
  pose proof (machine_ok_preempt 1 _ Hmo) as Hmo1. set (a1 := a_preempt 1 a) in *.
  assert (Hst1 : state_of a1 (current a1) = state_of a (current a)) by apply preempt_state.
  apply tlp_bind, wp_tlp. unfold allocate_kernel_page. apply wp_bind, wp_get_free_page.
  assert (Hmem : mem s1 = mem (core a1)) by (apply (rep_field mem); done).
  rewrite Hmem. destruct (free_index (mem (core a1))) as [i|] eqn:Hfree.
  2:{ apply wp_ret, tlp_bind, wp_tlp, wp_gets. cbn [Z.eqb orb].
      apply wp_tlp, wp_ret. exists a1. split_and!; try done. left. by split; [|left]. }
  destruct (free_index_range _ _ Hfree) as [Hrange Hnew].
  pose proof (page_address_pos i ltac:(lia)) as Hpos.
  apply wp_ret. rewrite (proj2 (Z.eqb_neq (page_address i) 0)) by lia.
  pose proof (rep_mem (with_page i (mem (core a1))) _ _ Hr1) as Hr2.
  assert (Hmo2 : machine_ok alg (a_core (set_mem (with_page i (mem (core a1)))) a1)).
  { apply machine_ok_mem; [done|]. cbn. set_solver. }
  set (a2 := a_core (set_mem _) a1) in *. set (s2 := set_mem _ s1) in *.
  apply tlp_bind, wp_tlp, wp_gets. rewrite (rep_field n_processes s2 a2) by done.
  rewrite (proj2 (Z.eqb_neq (page_address i + VA_START) 0)) by (unfold VA_START; lia).
  cbn [orb]. destruct (Z.leb_spec N_PROCESSES (n_processes (core a2))) as [Hfull|Hlt].
  { apply wp_tlp, wp_ret. exists a2. split_and!; try done. left. by split; [|right]. }
  set (address := page_address i + VA_START) in *. set (p := KernelPage address) in *.
  assert (Hnone : pcb_at a2 p = None).
  { destruct (pcb_at a2 p) as [x|] eqn:Hx; [|done].
    destruct (mo_heap _ _ Hmo1 address) as (j & Hj & Heq); [by exists x|].
    assert (page_address i = page_address j) as ->%page_address_inj by (unfold address in Heq; lia).
    done. }
  apply tlp_bind, wp_tlp. unfold new_pcb. apply wp_modify.
  pose proof (rep_new_pcb address _ _ Hr2 Hnone) as Hr3.
  pose proof (prepares_new_pcb address a2) as Hpr3. fold p in Hr3, Hpr3.
  set (a3 := a_core (λ k, set_heap (<[p := zero_PCB]> (heap k)) k) a2) in *.
  set (s3 := set_heap _ s2) in *.
  eapply (tlp_build_step total p a2); [apply builds_words|done|exact Hr3|exact Hpr3|]. intros s4 a4 Hr4 Hpr4.
  eapply (tlp_build_step total p a2); [by apply builds_update; [intros ??|intros ?]|intros _; apply update_total|exact Hr4|exact Hpr4|]. intros s5 a5 Hr5 Hpr5.
  eapply (tlp_build_step total p a2); [by apply builds_update; [intros ??|intros ?]|intros _; apply update_total|exact Hr5|exact Hpr5|]. intros s6 a6 Hr6 Hpr6.
  eapply (tlp_build_step total p a2); [apply builds_context|intros E; rewrite E; apply update_total|exact Hr6|exact Hpr6|]. intros s7 a7 Hr7 Hpr7.
  eapply tlp_mono; [apply wp_tlp; eapply (wp_finish_fork clone_flags (task_pt_regs init_process_address p) address a2);
    [done|exact Hr7|done|done|exact Hnone|exact Hpr7|]|].
  - exists i. split; [|done]. destruct (pr_core _ _ _ Hpr7) as (m & h & Hcore & _ & Hm).
    rewrite Hcore. cbn. apply Hm. cbn. set_solver.
  - intros r s8 (a8 & Hr8 & Hmo8 & Hc8 & Hst8 & Hf8). exists a8.
    split_and!; [done|done|exact Hc8| |right].
    + rewrite Hst8. exact Hst1.
    + destruct Hf8 as [Hf1 Hf2 Hf3]. by split.
Qed.
Lemma wlp_copy_process clone_flags function argument s a :
  alg_ok alg → rep s a → machine_ok alg a →
  wlp (copy_process alg init_process_address ret_from_fork clone_flags function argument)
    (λ r s', ∃ a', rep s' a' ∧ machine_ok alg a' ∧ current a' = current a ∧
       state_of a' (current a') = state_of a (current a) ∧
       (r = -1 ∨ forked (a_preempt 1 a) a' r)) s.
Proof.
  intros Hao Hr Hmo. eapply wlp_mono; [by eapply tlp_wlp, tlp_copy_process|].
  intros r s' (a' & ? & ? & ? & ? & H). exists a'. split_and!; try done. naive_solver.
Qed.
End whole_fork.
