(* ===== verification/UserMem.v ===== *)
(** * The memory of a process

    What [allocate_user_page], [copy_code] and [copy_virtual_memory] do to the bytes a
    process sees at its addresses, on the page tables of [Paging]. *)
From S2P Require Import Prelude.
From S2P Require Import Process.
From S2P Require Import Mm.
From S2P Require Import Paging.
From S2P Require Import Fork.
Local Open Scope Z_scope.

(** ** Bytes of words *)
Lemma pow256 a b : 0 ≤ a ≤ b → 256 ^ b = 256 ^ a * 256 ^ (b - a).
Proof. intros H. rewrite <- Z.pow_add_r by lia. f_equal. lia. Qed.
Lemma byte_of_range w k : 0 ≤ byte_of w k < 256.
Proof. unfold byte_of. by apply Z.mod_pos_bound. Qed.
Lemma byte_of_with w k k' v :
  0 ≤ k → 0 ≤ k' → 0 ≤ v < 256 → byte_of (with_byte w k v) k' = if decide (k' = k) then v else byte_of w k'.
Proof.
  intros Hk Hk' Hv. unfold with_byte.
  assert (Hp : 0 < 256 ^ k) by (apply Z.pow_pos_nonneg; lia).
  set (d := v - byte_of w k). case_decide as E; [subst k'|].
  - unfold byte_of at 1. rewrite Z.div_add by lia. unfold d, byte_of.
    pose proof (Z.div_mod (w / 256 ^ k) 256 ltac:(lia)) as Hw. rewrite Hw at 1.
    replace (256 * (w / 256 ^ k / 256) + (w / 256 ^ k) mod 256 + (v - (w / 256 ^ k) mod 256))
      with (v + w / 256 ^ k / 256 * 256) by lia.
    rewrite Z_mod_plus_full. by apply Z.mod_small.
  - unfold byte_of. destruct (decide (k' < k)).
    + rewrite (pow256 k' k) by lia. replace (d * (256 ^ k' * 256 ^ (k - k'))) with (d * 256 ^ (k - k') * 256 ^ k') by ring.
      assert (0 < 256 ^ k') by (apply Z.pow_pos_nonneg; lia). rewrite Z.div_add by lia.
      replace (k - k') with (Z.succ (k - k' - 1)) by lia. rewrite Z.pow_succ_r by lia.
      replace (d * (256 * 256 ^ (k - k' - 1))) with (d * 256 ^ (k - k' - 1) * 256) by ring. apply Z_mod_plus_full.
    + assert (D : ∀ x, x / 256 ^ k' = x / 256 ^ k / 256 / 256 ^ (k' - (k + 1))).
      { intros x. assert (0 < 256 ^ (k' - (k + 1))) by (apply Z.pow_pos_nonneg; lia).
        rewrite !Z.div_div by lia. f_equal. rewrite (pow256 (k + 1) k') by lia. rewrite (Z.pow_add_r 256 k 1) by lia. change (256 ^ 1) with 256. ring. }
      rewrite !D. f_equal. f_equal. rewrite Z.div_add by lia.
      pose proof (Z.div_mod (w / 256 ^ k) 256 ltac:(lia)) as Hw. unfold d, byte_of.
      set (q := w / 256 ^ k / 256) in *. rewrite Hw at 1.
      replace (256 * q + (w / 256 ^ k) mod 256 + (v - (w / 256 ^ k) mod 256)) with (v + q * 256) by lia.
      rewrite Z.div_add by lia. rewrite (Z.div_small v) by lia. lia.
Qed.

(** The word a byte is in. *)
Definition word_of (x : Z) : Z := x - x mod 8.
Lemma word_of_idem x : word_of (word_of x) = word_of x.
Proof.
  unfold word_of. pose proof (Z.div_mod x 8 ltac:(lia)) as E. replace (x - x mod 8) with (x / 8 * 8) by lia.
  rewrite Z.mod_mul by lia. lia.
Qed.
Lemma byte_at_word w w' x : word_at w' (word_of x) = word_at w (word_of x) → byte_at w' x = byte_at w x.
Proof. unfold byte_at, word_of. by intros ->. Qed.
Lemma byte_at_range w x : 0 ≤ byte_at w x < 256.
Proof. apply byte_of_range. Qed.
Lemma byte_at_set address v w x :
  byte_at (set_byte address v w) x = if decide (x = address) then u8 v else byte_at w x.
Proof.
  unfold byte_at, set_byte. fold (word_of address) (word_of x). rewrite word_at_insert.
  assert (Hm : ∀ z, 0 ≤ z mod 8 < 8) by (intros; by apply Z.mod_pos_bound).
  pose proof (Hm x). pose proof (Hm address).
  destruct (decide (word_of x = word_of address)) as [E|E].
  - rewrite byte_of_with by (try apply u8_range; lia). unfold word_of in *. rewrite E. apply decide_ext.
    split; [lia|by intros ->].
  - rewrite decide_False; [done|]. by intros ->.
Qed.
Lemma word_at_set address v w y : y ≠ word_of address → word_at (set_byte address v w) y = word_at w y.
Proof. intros H. unfold set_byte. fold (word_of address). by rewrite word_at_insert, decide_False. Qed.

Lemma in_page_word i x : in_page i (word_of x) ↔ in_page i x.
Proof.
  unfold in_page, word_of, page_address.
  assert (E : (LOW_MEMORY + i * PAGE_SIZE + VA_START) mod 8 = 0).
  { change (LOW_MEMORY + i * PAGE_SIZE + VA_START) with (4194304 + i * 4096 + 0xffff000000000000).
    replace (4194304 + i * 4096 + 0xffff000000000000) with ((524288 + i * 512 + 0x1fffe00000000000) * 8) by lia.
    apply Z.mod_mul. lia. }
  set (b := LOW_MEMORY + i * PAGE_SIZE + VA_START) in *. change PAGE_SIZE with 4096.
  pose proof (Z.div_mod b 8). pose proof (Z.div_mod x 8). pose proof (Z.mod_pos_bound x 8 ltac:(lia)). lia.
Qed.

(** [memcpy] from bytes outside the page it writes. *)
Lemma copy_bytes_spec i n destination source w :
  (∀ k, 0 ≤ k < Z.of_nat n → in_page i (destination + k)) → (∀ k, 0 ≤ k < Z.of_nat n → ¬ in_page i (source + k)) →
  (∀ x, byte_at (copy_bytes n destination source w) x =
    if decide (destination ≤ x < destination + Z.of_nat n) then byte_at w (source + (x - destination)) else byte_at w x) ∧
  (∀ y, ¬ in_page i y → y = word_of y → word_at (copy_bytes n destination source w) y = word_at w y).
Proof.
  revert destination source w. induction n as [|n IH]; intros d s w Hd Hs; cbn [copy_bytes].
  - split; [|done]. intros x. by rewrite decide_False by lia.
  - destruct (IH (d + 1) (s + 1) (set_byte d (byte_at w s) w)) as [IH1 IH2].
    + intros k Hk. rewrite <- Z.add_assoc. apply Hd. lia.
    + intros k Hk. rewrite <- Z.add_assoc. apply Hs. lia.
    + assert (Hd0 : in_page i d) by (specialize (Hd 0); rewrite Z.add_0_r in Hd; apply Hd; lia). split.
      * intros x. rewrite IH1. pose proof (byte_at_range w s) as Hb.
        assert (Hu : u8 (byte_at w s) = byte_at w s) by (apply Z.mod_small; exact Hb).
        repeat case_decide; try lia.
        -- rewrite byte_at_set, decide_False; [f_equal; lia|]. intros E. apply (Hs (x - d)); [lia|].
           replace (s + (x - d)) with d by lia. done.
        -- rewrite byte_at_set. case_decide; [|lia]. rewrite Hu. f_equal. lia.
        -- rewrite byte_at_set, decide_False by lia. done.
      * intros y Hy Hw. rewrite IH2, word_at_set; [done| |done|done]. intros E. apply Hy. rewrite E. by apply in_page_word.
Qed.

(** ** Pages of a process *)
Definition page_holds (m : memory) (c : Z) (f : Z → Z) : Prop :=
  ∀ o, 0 ≤ o < PAGE_SIZE → byte_at (words m) (page_address c + VA_START + o) = f o.
(** The byte the process finds at an address, if one is mapped there. *)
Definition space_byte (m : memory) (pcb : PCB) (va : Z) : option Z :=
  physical ← space_translate m pcb va; Some (byte_at (words m) (physical + VA_START)).

Lemma in_page_offset c o : 0 ≤ o < PAGE_SIZE → in_page c (page_address c + VA_START + o).
Proof. unfold in_page. lia. Qed.
Lemma page_holds_ext m c f g : (∀ o, 0 ≤ o < PAGE_SIZE → f o = g o) → page_holds m c f → page_holds m c g.
Proof. intros H Hf o Ho. rewrite Hf by done. auto. Qed.
Lemma page_holds_same m m' c f :
  (∀ y, in_page c y → y = word_of y → word_at (words m') y = word_at (words m) y) →
  page_holds m c f → page_holds m' c f.
Proof.
  intros Hw Hf o Ho. rewrite <- (Hf o Ho). apply byte_at_word, Hw.
  - apply in_page_word. by apply in_page_offset.
  - by rewrite word_of_idem.
Qed.
Lemma space_byte_page m pcb t va c f :
  space_ok m pcb t → t !! path_of va = Some (page_address c) → page_holds m c f → 
  space_byte m pcb va = Some (f (va mod PAGE_SIZE)).
Proof.
  intros [Hm Hroot _ _] Hc Hf. unfold space_byte, space_translate.
  destruct (Z.eqb_spec (pgd (mm pcb)) 0) as [E|E]; [by rewrite (no_root m t) in Hc|].
  rewrite (translate_mapped m t _ _ _ Hm Hroot Hc). cbn [mbind option_bind]. rewrite <- (Hf (va mod PAGE_SIZE)).
  - do 2 f_equal. lia.
  - apply Z.mod_pos_bound. done.
Qed.
Lemma slot_word i k : word_of (slot (page_address i) k) = slot (page_address i) k.
Proof.
  unfold word_of. enough (E : slot (page_address i) k mod 8 = 0) by lia. unfold slot, page_address.
  change (LOW_MEMORY + i * PAGE_SIZE + VA_START + 8 * k) with (4194304 + i * 4096 + 0xffff000000000000 + 8 * k).
  replace (4194304 + i * 4096 + 0xffff000000000000 + 8 * k) with ((524288 + i * 512 + 0x1fffe00000000000 + k) * 8) by lia.
  apply Z.mod_mul. lia.
Qed.

(** A user page is neither free nor a table. *)
Lemma user_page_stable m t x c y :
  tables_ok m t → t !! x = Some (page_address c) → length x = 4%nat → in_page c y → stable m t y.
Proof.
  intros Hm Hx Hl Hy i Hr Hi. rewrite (in_page_disjoint _ _ _ Hi Hy). split.
  - by destruct (ta_page _ _ Hm _ _ Hx) as (j & ->%page_address_inj & ?).
  - intros (z & Hz & E). rewrite (ta_inj _ _ Hm _ _ _ E Hx) in Hz. lia.
Qed.
(** The bytes of a user page change. *)
Lemma written_space m m' pcb t x c :
  space_ok m pcb t → t !! x = Some (page_address c) → length x = 4%nat → memory_pages m' = memory_pages m →
  (∀ y, ¬ in_page c y → y = word_of y → word_at (words m') y = word_at (words m) y) → space_ok m' pcb t.
Proof.
  intros [Hm Hroot Hk Hu] Hx Hl Hp Hw. split; try done. apply (tables_frame m); [done|by rewrite Hp|rewrite Hp; apply Hm|].
  intros y a i Ha Hly Hi. destruct (tables_page _ _ _ _ Hm Ha) as (j & -> & _). apply Hw; [|by rewrite slot_word].
  intros Hin. pose proof (in_page_disjoint _ _ _ Hin (slot_in_page j i Hi)) as ->.
  rewrite (ta_inj _ _ Hm _ _ _ Ha Hx) in Hly. lia.
Qed.

(** ** Allocating a page *)
Record allocated (va c : Z) (m : memory) (pcb : PCB) (t : tree) (m' : memory) (pcb' : PCB) (t' : tree) : Prop := {
  al_free : free_index m = Some c;
  al_mapped : mapped va c (with_page c m) pcb t m' pcb' t'
}.
(** Room for [n] pages and the tables of [va]. *)
Record page_room (n : Z) (va : Z) (m : memory) (pcb : PCB) (t : tree) : Prop := {
  pr_pages : Z.of_nat (size (memory_pages m)) + n + missing t va ≤ N_PAGES;
  pr_kernel : n_kernel_pages (mm pcb) + missing t va ≤ MAX_PROCESS_PAGES;
  pr_user : n_user_pages (mm pcb) + n ≤ MAX_PROCESS_PAGES
}.
Lemma missing_nonneg t va : 0 ≤ missing t va.
Proof. unfold missing, need. repeat case_decide; lia. Qed.

Lemma with_page_words c m y : ¬ in_page c y → word_at (words (with_page c m)) y = word_at (words m) y.
Proof. intros Hy. cbn [words with_page]. by rewrite zero_page_spec, decide_False by tauto. Qed.
Lemma with_page_space c m pcb t : free_index m = Some c → space_ok m pcb t → space_ok (with_page c m) pcb t.
Proof.
  intros Hc [Hm Hroot Hk Hu]. pose proof (free_index_range _ _ Hc) as [Hr _]. split; try done.
  apply (tables_frame m); [done|cbn; set_solver| |].
  - intros i. cbn. intros [?| ->%elem_of_singleton]%elem_of_union; [by apply Hm|done].
  - intros x a i Ha _ Hi. apply with_page_words. by eapply tables_slot_free.
Qed.
Lemma with_page_stable c m t y : stable m t y → stable (with_page c m) t y.
Proof. intros Hy i Hr Hi. destruct (Hy i Hr Hi). split; [cbn; set_solver|done]. Qed.
Lemma new_page_stable c m t y : free_index m = Some c → tables_ok m t → in_page c y → stable (with_page c m) t y.
Proof.
  intros Hc Hm Hy i Hr Hi. rewrite (in_page_disjoint _ _ _ Hi Hy). split; [cbn; set_solver|].
  intros (x & _ & Hx). by eapply tables_free.
Qed.

Lemma wp_allocate_user_page p va m pcb t k (Q : Z → kernel → Prop) :
  space_ok m pcb t → page_room 1 va m pcb t →
  (∀ c m' pcb' t', allocated va c m pcb t m' pcb' t' → Q (page_address c + VA_START) (put p pcb' m' k)) →
  wp (allocate_user_page p va) Q (put p pcb m k).
Proof.
  intros Hs [H1 H2 H3] HQ. pose proof (missing_nonneg t va). pose proof (so_tables _ _ _ Hs) as Hm.
  destruct (free_page_exists m) as [c Hc]; [apply Hm|lia|]. pose proof (free_index_range _ _ Hc) as [Hr Hn].
  unfold allocate_user_page. apply wp_bind, (wp_free_page_put p c); [done|].
  pose proof (page_address_pos c ltac:(lia)). destruct (Z.eqb_spec (page_address c) 0); [lia|].
  apply wp_bind, (wp_map_page p va c (with_page c m) pcb t).
  - by apply with_page_space.
  - split; [|lia]. cbn [memory_pages with_page]. rewrite size_union, size_singleton by set_solver. lia.
  - lia.
  - cbn. set_solver.
  - intros x. by eapply tables_free.
  - intros m' pcb' t' Hmap. apply wp_ret, (HQ c m' pcb' t'). by split.
Qed.

Section allocated.
Context {va c : Z} {m : memory} {pcb : PCB} {t : tree} {m' : memory} {pcb' : PCB} {t' : tree}.
Hypothesis Hs : space_ok m pcb t.
Hypothesis Ha : allocated va c m pcb t m' pcb' t'.

Lemma allocated_words y : stable m t y → word_at (words m') y = word_at (words m) y.
Proof.
  intros Hy. rewrite (mp_words _ _ _ _ _ _ _ _ (al_mapped _ _ _ _ _ _ _ _ Ha)) by by apply with_page_stable.
  apply with_page_words. eapply stable_free; [apply Ha|exact Hy].
Qed.
Lemma allocated_zero : page_holds m' c (λ _, 0).
Proof.
  intros o Ho. unfold byte_at. fold (word_of (page_address c + VA_START + o)).
  pose proof (proj2 (in_page_word c _) (in_page_offset c o Ho)) as Hin.
  rewrite (mp_words _ _ _ _ _ _ _ _ (al_mapped _ _ _ _ _ _ _ _ Ha))
    by (apply new_page_stable; [apply Ha|apply Hs|done]).
  cbn [words with_page]. rewrite zero_page_spec, decide_True; [unfold byte_of; by rewrite Zdiv_0_l|].
  split; [done|]. unfold word_of, page_address.
  set (x := LOW_MEMORY + c * PAGE_SIZE + VA_START + o).
  replace (x - x mod 8 - (LOW_MEMORY + c * PAGE_SIZE) - VA_START) with (o - x mod 8) by (unfold x; lia).
  assert (E : x = (524288 + c * 512 + 0x1fffe00000000000) * 8 + o).
  { unfold x. change (LOW_MEMORY + c * PAGE_SIZE + VA_START + o) with (4194304 + c * 4096 + 0xffff000000000000 + o). lia. }
  rewrite E, Z.add_comm, Z_mod_plus_full. pose proof (Z.div_mod o 8). replace (o - o mod 8) with (o / 8 * 8) by lia.
  apply Z.mod_mul. lia.
Qed.
Lemma allocated_stable y : stable m t y → stable m' t' y.
Proof.
  intros Hy i Hr Hi. destruct (Hy i Hr Hi) as [Hu Hnt]. destruct Ha as [Hf [_ Hat _ _ Hnew Hp _ _ _ _]]. split.
  - apply Hp. cbn. set_solver.
  - intros (x & Hl & Hx). destruct (t !! x) as [b|] eqn:E.
    + apply Hnt. exists x. split; [done|].
      pose proof (mp_tables _ _ _ _ _ _ _ _ (al_mapped _ _ _ _ _ _ _ _ Ha) _ _ E Hl). congruence.
    + apply (Hnew _ _ Hx E); [|cbn; set_solver]. intros ->. by cbn in Hl; lia.
Qed.
Lemma allocated_missing : missing t' va = 0.
Proof.
  destruct Ha as [Hf Hmap]. pose proof (so_tables _ _ _ (mp_space _ _ _ _ _ _ _ _ Hmap)) as Hm'.
  pose proof (mp_at _ _ _ _ _ _ _ _ Hmap) as H4. unfold missing, need, path_of in *. cbn [take].
  destruct (ta_parent _ _ Hm' [_; _; _] _ _ H4) as [[? G3] _].
  destruct (ta_parent _ _ Hm' [_; _] _ _ G3) as [[? G2] _]. destruct (ta_parent _ _ Hm' [_] _ _ G2) as [[? G1] _].
  destruct (ta_parent _ _ Hm' [] _ _ G1) as [[? G0] _]. rewrite G0, G1, G2, G3. by rewrite !decide_True by eauto.
Qed.
Lemma allocated_room n :
  page_room (1 + n) va m pcb t → page_room n va m' pcb' t'.
Proof.
  intros [H1 H2 H3]. pose proof allocated_missing as E. destruct Ha as [Hf Hmap].
  pose proof (mp_size _ _ _ _ _ _ _ _ Hmap) as Hz.
  pose proof (free_index_range _ _ Hf) as [_ Hn]. cbn [memory_pages with_page] in Hz.
  rewrite size_union, size_singleton in Hz by set_solver.
  destruct (mp_pcb _ _ _ _ _ _ _ _ Hmap) as (g & ks & ->). split; rewrite ?E; cbn; lia.
Qed.
End allocated.

(** ** A new page and its bytes *)

(** The page [c] is mapped at [va] with the bytes [f]; what was stable stays. *)
Record paged (va c : Z) (f : Z → Z) (m : memory) (pcb : PCB) (t : tree) (m' : memory) (pcb' : PCB) (t' : tree) : Prop := {
  pg_space : space_ok m' pcb' t';
  pg_fresh : c ∉ memory_pages m;
  pg_at : t' !! path_of va = Some (page_address c);
  pg_holds : page_holds m' c f;
  pg_other : ∀ x, length x = 4%nat → x ≠ path_of va → t' !! x = t !! x;
  pg_stable : ∀ y, stable m t y → stable m' t' y;
  pg_words : ∀ y, stable m t y → y = word_of y → word_at (words m') y = word_at (words m) y;
  pg_room : ∀ n, page_room (1 + n) va m pcb t → page_room n va m' pcb' t';
  pg_pages : memory_pages m ⊆ memory_pages m';
  pg_root : pgd (mm pcb) ≠ 0 → pgd (mm pcb') = pgd (mm pcb);
  pg_pcb : ∃ g ks n, pcb' = set_mm {| pgd := g; n_user_pages := n_user_pages (mm pcb) + 1;
    user_pages := <[Z.to_nat (n_user_pages (mm pcb)) :=
      {| physical_address := page_address c; Process.virtual_address := va |}]> (user_pages (mm pcb));
    kernel_pages := ks; n_kernel_pages := n |} pcb
}.
Lemma allocated_paged va c m pcb t m' pcb' t' :
  space_ok m pcb t → allocated va c m pcb t m' pcb' t' → paged va c (λ _, 0) m pcb t m' pcb' t'.
Proof.
  intros Hs Ha. pose proof (allocated_zero Hs Ha) as Hz. pose proof (allocated_stable Hs Ha) as Hst.
  pose proof (allocated_words Ha) as Hw. pose proof (allocated_room Hs Ha) as Hroom.
  destruct Ha as [Hc [H1 H2 H3 H4 H5 H6 H7 H8 H9 (g & ks & E)]]. split; try done.
  - by apply free_index_range in Hc as [_ ?].
  - intros y Hy _. by apply Hw.
  - etrans; [|exact H6]. apply union_subseteq_l.
  - intros Hne. pose proof (so_root _ _ _ Hs) as R. pose proof (so_root _ _ _ H1) as R'.
    destruct (Z.eqb_spec (pgd (mm pcb)) 0) as [|_]; [done|].
    rewrite (H4 [] _ R) in R' by (cbn; lia). destruct (Z.eqb_spec (pgd (mm pcb')) 0); congruence.
  - by eexists g, ks, _.
Qed.
Lemma page_room_same n va m m' pcb t : memory_pages m' = memory_pages m → page_room n va m pcb t → page_room n va m' pcb t.
Proof. intros E [? ? ?]. split; by rewrite ?E. Qed.
Lemma stable_same m m' t y : memory_pages m' = memory_pages m → stable m t y → stable m' t y.
Proof. unfold stable. by intros ->. Qed.

Lemma wp_fill p va c n source m0 pcb0 t0 m pcb t k (Q : unit → kernel → Prop) :
  paged va c (λ _, 0) m0 pcb0 t0 m pcb t → 0 < n ≤ PAGE_SIZE →
  (∀ o, 0 ≤ o < n → stable m0 t0 (word_of (source + o))) →
  (∀ m', paged va c (λ o, if o <? n then byte_at (words m0) (source + o) else 0) m0 pcb0 t0 m' pcb t → Q tt (put p pcb m' k)) →
  wp (memcpy (page_address c + VA_START) source n) Q (put p pcb m k).
Proof.
  intros [H1 H2 H3 H4 H5 H6 H7 H8 H9 H10 H11] Hn Hsrc HQ.
  assert (Hcr : 0 ≤ c < N_PAGES).
  { destruct (ta_page _ _ (so_tables _ _ _ H1) _ _ H3) as (j & ->%page_address_inj & Hj). by apply (so_tables _ _ _ H1). }
  assert (Hout : ∀ y, stable m0 t0 y → ¬ in_page c y) by (intros y Hy Hin; by destruct (Hy c Hcr Hin)).
  unfold memcpy. apply wp_words_put.
  replace (Nat.max 1 (Z.to_nat n)) with (Z.to_nat n) by lia.
  destruct (copy_bytes_spec c (Z.to_nat n) (page_address c + VA_START) source (words m)) as [Hb Hw].
  { intros o Ho. apply in_page_offset. lia. }
  { intros o Ho Hin. eapply Hout; [apply Hsrc|apply in_page_word, Hin]. lia. }
  apply HQ. split; try done; cbn [words memory_pages].
  - eapply written_space; [exact H1|exact H3|done|done|exact Hw].
  - intros o Ho. rewrite Hb. destruct (Z.ltb_spec o n).
    + rewrite decide_True by lia. replace (page_address c + VA_START + o - (page_address c + VA_START)) with o by lia.
      apply byte_at_word, H7; [|by rewrite word_of_idem]. apply Hsrc. lia.
    + rewrite decide_False by lia. by apply H4.
  - intros y Hy Hyw. rewrite Hw by auto. by apply H7.
  - intros n' Hr. eapply page_room_same; [|by apply H8]. done.
Qed.

(** The page at the path [x] holds [f]. *)
Definition path_holds (m : memory) (t : tree) (x : list Z) (f : Z → Z) : Prop :=
  ∃ c, t !! x = Some (page_address c) ∧ page_holds m c f.
Lemma paged_keeps va c f m pcb t m' pcb' t' x g :
  tables_ok m t → paged va c f m pcb t m' pcb' t' → length x = 4%nat → x ≠ path_of va →
  path_holds m t x g → path_holds m' t' x g.
Proof.
  intros Hm Hp Hl Hne (d & Hx & Hd). exists d. split; [by rewrite (pg_other _ _ _ _ _ _ _ _ _ Hp)|].
  eapply page_holds_same; [|exact Hd]. intros y Hy. apply (pg_words _ _ _ _ _ _ _ _ _ Hp).
  by eapply user_page_stable.
Qed.

(** ** Loading code *)

(** The addresses of the first two megabytes share their tables. *)
Definition low (va : Z) : Prop := 0 ≤ va < SECTION_SIZE.
Lemma low_path va : low va → take 3 (path_of va) = [0; 0; 0].
Proof.
  unfold low. change SECTION_SIZE with (2 ^ 21). intros H. unfold path_of. cbn [take].
  change PGD_SHIFT with 39. change PUD_SHIFT with 30. change PMD_SHIFT with 21.
  rewrite !table_index_div by lia.
  rewrite !(Z.div_small va); [done|split; [lia|]; eapply Z.lt_le_trans; [apply H|]; apply Z.pow_le_mono_r; lia..].
Qed.
Lemma missing_low t va : low va → missing t va = missing t 0.
Proof.
  intros H. pose proof (low_path va H) as E. pose proof (low_path 0 ltac:(by vm_compute)) as E0.
  unfold missing. assert (E1 : take 1 (path_of va) = take 1 (take 3 (path_of va))) by done.
  assert (E2 : take 2 (path_of va) = take 2 (take 3 (path_of va))) by done. rewrite E1, E2, E. done.
Qed.
Lemma page_room_low n va va' m pcb t : low va → low va' → page_room n va m pcb t → page_room n va' m pcb t.
Proof.
  intros H H' [? ? ?]. split; rewrite ?(missing_low _ _ H') in *; rewrite ?(missing_low _ _ H) in *; done.
Qed.
Lemma page_room_weaken n n' va m pcb t : n' ≤ n → page_room n va m pcb t → page_room n' va m pcb t.
Proof. intros H [? ? ?]. split; lia. Qed.
Lemma low_page i : 0 ≤ i < 512 → low (i * PAGE_SIZE).
Proof. unfold low. change SECTION_SIZE with 2097152. change PAGE_SIZE with 4096. lia. Qed.
Lemma low_paths va va' : low va → low va' → va / PAGE_SIZE ≠ va' / PAGE_SIZE → path_of va ≠ path_of va'.
Proof.
  unfold low. change SECTION_SIZE with 2097152. intros H H' Hne E%path_of_page; [done|lia..].
Qed.

(** The bytes of the code in the 16 pages: zero after the end. *)
Definition image (src : Z → Z) (size x : Z) : Z := if x <? size then src x else 0.
Definition code_page (src : Z → Z) (size i o : Z) : Z := image src size (i * PAGE_SIZE + o).

(** The pages of the process from [m], [pcb], [t] on: [n] of them more. *)
Record pages_added (n : Z) (m : memory) (pcb : PCB) (t : tree) (m' : memory) (pcb' : PCB) (t' : tree) : Prop := {
  ad_space : space_ok m' pcb' t';
  ad_stable : ∀ y, stable m t y → stable m' t' y;
  ad_words : ∀ y, stable m t y → y = word_of y → word_at (words m') y = word_at (words m) y;
  ad_pages : memory_pages m ⊆ memory_pages m';
  ad_root : pgd (mm pcb) ≠ 0 → pgd (mm pcb') = pgd (mm pcb);
  ad_pcb : ∃ s, pcb' = set_mm s pcb ∧ n_user_pages s = n_user_pages (mm pcb) + n
}.
Lemma pages_added_refl m pcb t : space_ok m pcb t → pages_added 0 m pcb t m pcb t.
Proof. intros H. split; try done. exists (mm pcb). split; [by destruct pcb|lia]. Qed.
Lemma pages_added_step n va c f m0 pcb0 t0 m pcb t m' pcb' t' :
  pages_added n m0 pcb0 t0 m pcb t → paged va c f m pcb t m' pcb' t' → pages_added (n + 1) m0 pcb0 t0 m' pcb' t'.
Proof.
  intros [A1 A2 A3 A6 A5 (s & -> & A4)] [B1 B2 B3 B4 B5 B6 B7 B8 B10 B9 (g & ks & nk & ->)]. split; [done|auto| |by trans (memory_pages m)| |].
  - intros y Hy Hw. rewrite B7, A3; auto.
  - intros Hne. specialize (A5 Hne). rewrite B9; [done|congruence].
  - eexists. split; [reflexivity|]. cbn. lia.
Qed.

Section code.
Variables (p : pcb_ptr) (buffer size : Z).

Lemma wp_code_page i m pcb t k (Q : Z → kernel → Prop) src :
  0 ≤ i < 16 → space_ok m pcb t → page_room 1 (i * PAGE_SIZE) m pcb t →
  (∀ x, 0 ≤ x < size → stable m t (word_of (buffer + x)) ∧ byte_at (words m) (buffer + x) = src x) →
  (∀ c m' pcb' t', paged (i * PAGE_SIZE) c (code_page src size i) m pcb t m' pcb' t' →
     Q (Z.min size ((i + 1) * PAGE_SIZE)) (put p pcb' m' k)) →
  0 ≤ size →
  wp (copy_code_page i p buffer size (Z.min size (i * PAGE_SIZE))) Q (put p pcb m k).
Proof.
  intros Hi Hs Hr Hsrc HQ Hsize. unfold copy_code_page. apply wp_bind, (wp_allocate_user_page p _ m pcb t); [done|done|].
  intros c m1 pcb1 t1 Ha. pose proof (allocated_paged _ _ _ _ _ _ _ _ Hs Ha) as Hp. cbn zeta.
  assert (Hc : 0 ≤ c < N_PAGES) by apply (free_index_range _ _ (al_free _ _ _ _ _ _ _ _ Ha)).
  pose proof (page_address_pos c ltac:(lia)). change PAGE_SIZE with 4096 in *.
  destruct (Z.ltb_spec (Z.min size (i * 4096)) size) as [Hlt|Hge].
  - destruct (Z.eqb_spec (page_address c + VA_START) 0) as [|_]; [unfold VA_START in *; lia|].
    replace (Z.min size (i * 4096)) with (i * 4096) in * by lia.
    set (n := if 4096 <? size - i * 4096 then 4096 else size - i * 4096).
    assert (Hn : n = Z.min 4096 (size - i * 4096)) by (unfold n; destruct (Z.ltb_spec 4096 (size - i * 4096)); lia).
    apply wp_bind, (wp_fill p (i * 4096) c n (buffer + i * 4096) m pcb t m1 pcb1 t1); [done|change PAGE_SIZE with 4096; lia| |].
    { intros o Ho. rewrite <- Z.add_assoc. apply Hsrc. lia. }
    intros m2 Hp2. apply wp_ret. replace (i * 4096 + n) with (Z.min size ((i + 1) * 4096)) by lia. eapply HQ.
    destruct Hp2 as [P1 P2 P3 P4 P5 P6 P7 P8 P9 P10 P11]. split; try done.
    eapply page_holds_ext; [|exact P4]. change PAGE_SIZE with 4096. intros o Ho. cbn. unfold code_page, image.
    change PAGE_SIZE with 4096. destruct (Z.ltb_spec o n), (Z.ltb_spec (i * 4096 + o) size); try lia.
    rewrite <- Z.add_assoc. apply Hsrc. lia.
  - apply wp_ret. replace (Z.min size (i * 4096)) with (Z.min size ((i + 1) * 4096)) by lia. eapply HQ.
    destruct Hp as [P1 P2 P3 P4 P5 P6 P7 P8 P9 P10 P11]. split; try done.
    eapply page_holds_ext; [|exact P4]. change PAGE_SIZE with 4096. intros o Ho. cbn. unfold code_page, image.
    change PAGE_SIZE with 4096. destruct (Z.ltb_spec (i * 4096 + o) size); [lia|done].
Qed.

Lemma wp_copy_code_pages n i m0 pcb0 t0 m pcb t k (Q : unit → kernel → Prop) src :
  0 ≤ i → i + Z.of_nat n = 16 → 0 ≤ size → pages_added i m0 pcb0 t0 m pcb t → page_room (Z.of_nat n) 0 m pcb t →
  (∀ x, 0 ≤ x < size → stable m t (word_of (buffer + x)) ∧ byte_at (words m) (buffer + x) = src x) →
  (∀ j, 0 ≤ j < i → path_holds m t (path_of (j * PAGE_SIZE)) (code_page src size j)) →
  (∀ m' pcb' t', pages_added 16 m0 pcb0 t0 m' pcb' t' →
     (∀ j, 0 ≤ j < 16 → path_holds m' t' (path_of (j * PAGE_SIZE)) (code_page src size j)) →
     Q tt (put p pcb' m' k)) →
  wp (copy_code_pages n i p buffer size (Z.min size (i * PAGE_SIZE))) Q (put p pcb m k).
Proof.
  intros Hi Hn Hsize. revert i m pcb t Hi Hn.
  induction n as [|n IH]; intros i m pcb t Hi Hn Hadd Hr Hsrc Hdone HQ; cbn [copy_code_pages].
  { replace i with 16 in * by lia. by eapply wp_ret, HQ. }
  pose proof (ad_space _ _ _ _ _ _ _ Hadd) as Hs. pose proof (low_page i ltac:(lia)) as Hlow.
  pose proof (low_page 0 ltac:(lia)) as Hlow0. change (0 * PAGE_SIZE) with 0 in Hlow0.
  apply (page_room_low _ _ _ _ _ _ Hlow0 Hlow) in Hr.
  apply wp_bind, (wp_code_page i m pcb t k _ src); [lia|done| |done| |done].
  { eapply page_room_weaken; [|exact Hr]. lia. }
  intros c m' pcb' t' Hp. eapply (IH (i + 1) m' pcb' t'); try done.
  - lia.
  - lia.
  - by eapply pages_added_step.
  - apply (page_room_low _ _ _ _ _ _ Hlow Hlow0). eapply pg_room; [exact Hp|].
    by replace (1 + Z.of_nat n) with (Z.of_nat (S n)) by lia.
  - intros x Hx. destruct (Hsrc x Hx) as [H1 H2]. split; [by eapply pg_stable|].
    rewrite <- H2. apply byte_at_word, (pg_words _ _ _ _ _ _ _ _ _ Hp); [done|by rewrite word_of_idem].
  - intros j Hj. destruct (decide (j = i)) as [->|Hne].
    + exists c. split; apply Hp.
    + eapply paged_keeps; [apply Hs|exact Hp|done| |apply Hdone; lia].
      apply low_paths; [apply low_page; lia|done|]. rewrite !Z.div_mul by done. done.
Qed.

(** The 16 pages of a program. *)
Definition USER_SIZE : Z := 16 * PAGE_SIZE.
Definition user_mapped (t : tree) : Prop :=
  ∀ va, 0 ≤ va < USER_SIZE → ∃ c, t !! path_of va = Some (page_address c).

(** [copy_code] on a process without user pages: the code is at the addresses from 0 on. *)
Lemma wp_copy_code m pcb t k (Q : unit → kernel → Prop) src :
  0 ≤ size → space_ok m pcb t → page_room 16 0 m pcb t →
  (∀ x, 0 ≤ x < size → stable m t (word_of (buffer + x)) ∧ byte_at (words m) (buffer + x) = src x) →
  (∀ m' pcb' t', pages_added 16 m pcb t m' pcb' t' → user_mapped t' →
     (∀ va, 0 ≤ va < USER_SIZE → space_byte m' pcb' va = Some (image src size va)) → Q tt (put p pcb' m' k)) →
  wp (copy_code p buffer size) Q (put p pcb m k).
Proof.
  intros Hsize Hs Hr Hsrc HQ. unfold copy_code.
  replace 0 with (Z.min size (0 * PAGE_SIZE)) at 2 by lia.
  eapply (wp_copy_code_pages CODE_PAGES 0 m pcb t m pcb t); try done.
  - by apply pages_added_refl.
  - intros j Hj. lia.
  - intros m' pcb' t' Hadd Hpages.
    assert (H : ∀ va, 0 ≤ va < USER_SIZE → ∃ c, t' !! path_of va = Some (page_address c) ∧
      page_holds m' c (code_page src size (va / PAGE_SIZE))).
    { unfold USER_SIZE. change PAGE_SIZE with 4096. intros va Hva. pose proof (Z.div_mod va 4096). pose proof (Z.mod_pos_bound va 4096).
      destruct (Hpages (va / 4096)) as (c & Hc & Hh); [lia|]. exists c. split; [|exact Hh]. rewrite <- Hc. f_equal.
      apply path_of_page; change PAGE_SIZE with 4096; [lia|lia|]. rewrite Z.div_mul by lia. done. }
    apply (HQ m' pcb' t' Hadd); intros va Hva; destruct (H va Hva) as (c & Hc & Hh); [eauto|].
    rewrite (space_byte_page m' pcb' t' va c _ (ad_space _ _ _ _ _ _ _ Hadd) Hc Hh). unfold code_page.
    pose proof (Z.div_mod va PAGE_SIZE ltac:(done)). do 2 f_equal. lia.
Qed.
End code.
