(* ===== verification/ForkMem.v ===== *)
(** * The memory of a child

    [copy_virtual_memory] of src/libs/mm.c, which [copy_process] runs on a new process:
    the child finds at the addresses of its parent the same bytes, in pages of its own. *)
From S2P Require Import Prelude.
From S2P Require Import Process.
From S2P Require Import Mm.
From S2P Require Import Paging.
From S2P Require Import Fork.
From S2P Require Import UserMem.
Local Open Scope Z_scope.

(** ** The user pages of a process

    The list in the PCB names the pages that are mapped. *)
Definition listed (pcb : PCB) (t : tree) : Prop :=
  ∀ i, 0 ≤ i < n_user_pages (mm pcb) → ∃ c va,
    user_pages (mm pcb) !! Z.to_nat i = Some {| physical_address := page_address c; Process.virtual_address := va |} ∧
    low va ∧ va mod PAGE_SIZE = 0 ∧ t !! path_of va = Some (page_address c).
(** No two of them are at the same address. *)
Definition distinct_pages (pcb : PCB) : Prop :=
  NoDup (Process.virtual_address <$> take (Z.to_nat (n_user_pages (mm pcb))) (user_pages (mm pcb))).

(** The bytes of page [c], by offset. *)
Definition bytes_of_page (m : memory) (c o : Z) : Z := byte_at (words m) (page_address c + VA_START + o).
Lemma holds_bytes m c : page_holds m c (bytes_of_page m c).
Proof. by intros o Ho. Qed.

(** ** Copying *)
Section copy.
Variables (parent child : pcb_ptr) (pcb : PCB).
Hypothesis Hne : child ≠ parent.

(** The copies of the first [i] pages of the parent. *)
Definition copied_pages (i : Z) (m0 m : memory) (t : tree) : Prop :=
  ∀ j c va, 0 ≤ j < i →
    user_pages (mm pcb) !! Z.to_nat j = Some {| physical_address := page_address c; Process.virtual_address := va |} →
    path_holds m t (path_of va) (bytes_of_page m0 c) ∧
    ∀ d, t !! path_of va = Some (page_address d) → d ∉ memory_pages m0.

Lemma wp_load_parent m pcbc k (Q : PCB → kernel → Prop) :
  heap k !! parent = Some pcb → Q pcb (put child pcbc m k) → wp (load parent) Q (put child pcbc m k).
Proof. intros Hp HQ. unfold wp, load. cbn. by rewrite lookup_insert_ne, Hp. Qed.

Lemma wp_copy_page {A} c va m pcbc t k (failed rest : K A) (Q : A → kernel → Prop) :
  space_ok m pcbc t → page_room 1 va m pcbc t → 0 ≤ c → (∀ y, in_page c y → stable m t y) →
  (∀ d m' pcb' t', paged va d (bytes_of_page m c) m pcbc t m' pcb' t' → wp rest Q (put child pcb' m' k)) →
  wp (kernel_virtual_address ← allocate_user_page child va;
      if kernel_virtual_address =? 0 then failed else
      memzero kernel_virtual_address PAGE_SIZE;;
      memcpy kernel_virtual_address (page_address c + VA_START) PAGE_SIZE;;
      rest) Q (put child pcbc m k).
Proof.
  intros Hs Hr Hc Hst HQ. apply wp_bind, (wp_allocate_user_page child va m pcbc t); [done|done|].
  intros d m1 pcb1 t1 Ha. pose proof (allocated_paged _ _ _ _ _ _ _ _ Hs Ha) as Hp.
  destruct (free_index_range _ _ (al_free _ _ _ _ _ _ _ _ Ha)) as [Hd _].
  pose proof (page_address_pos d ltac:(lia)).
  destruct (Z.eqb_spec (page_address d + VA_START) 0) as [|_]; [unfold VA_START in *; lia|].
  apply wp_bind. unfold memzero. apply wp_words_put.
  set (m2 := {| memory_pages := _ |}).
  assert (Hw : ∀ y, word_at (words m2) y = if decide (in_page d y ∧ (y - page_address d - VA_START) mod 8 = 0) then 0
                                           else word_at (words m1) y) by (intros; apply zero_page_spec).
  assert (Hp2 : paged va d (λ _, 0) m pcbc t m2 pcb1 t1).
  { destruct Hp as [P1 P2 P3 P4 P5 P6 P7 P8 P9 P10 P11]. split; try done.
    - eapply written_space; [exact P1|exact P3|done|done|]. intros y Hy _. by rewrite Hw, decide_False by tauto.
    - intros o Ho. unfold byte_at. rewrite Hw. case_decide; [unfold byte_of; by rewrite Zdiv_0_l|]. by apply P4.
    - intros y Hy Hyw. rewrite Hw, decide_False by (intros [Hin _]; by destruct (Hy d Hd Hin)). by apply P7.
    - intros n Hn. eapply page_room_same; [|by apply P8]. done. }
  apply wp_bind, (wp_fill child va d PAGE_SIZE (page_address c + VA_START) m pcbc t m2 pcb1 t1 _ _ Hp2); [done| |].
  { intros o Ho. apply Hst, in_page_word. by apply in_page_offset. }
  intros m3 Hp3. apply (HQ d m3 pcb1 t1). destruct Hp3 as [P1 P2 P3 P4 P5 P6 P7 P8 P9 P10 P11]. split; try done.
  eapply page_holds_ext; [|exact P4]. intros o Ho. cbn. by destruct (Z.ltb_spec o PAGE_SIZE); [|lia].
Qed.

(** The pages of the parent: where they are, and what makes them readable. *)
Record parent_page (m : memory) (t : tree) (j c va : Z) : Prop := {
  pp_listed : user_pages (mm pcb) !! Z.to_nat j =
    Some {| physical_address := page_address c; Process.virtual_address := va |};
  pp_low : low va;
  pp_aligned : va mod PAGE_SIZE = 0;
  pp_index : 0 ≤ c;
  pp_stable : ∀ y, in_page c y → stable m t y
}.
Definition parent_ok (m : memory) (t : tree) : Prop :=
  ∀ j, 0 ≤ j < n_user_pages (mm pcb) → ∃ c va, parent_page m t j c va.
Hypothesis Hdistinct : distinct_pages pcb.

Lemma distinct_paths j j' c va c' va' m t :
  0 ≤ j < n_user_pages (mm pcb) → 0 ≤ j' < n_user_pages (mm pcb) → j ≠ j' →
  parent_page m t j c va → parent_page m t j' c' va' → path_of va ≠ path_of va'.
Proof.
  intros Hj Hj' Hnj [L1 W1 A1 _ _] [L2 W2 A2 _ _]. apply low_paths; [done..|]. intros E.
  assert (va = va') as <-.
  { rewrite (Z.div_mod va PAGE_SIZE), (Z.div_mod va' PAGE_SIZE), E, A1, A2 by done. done. }
  apply Hnj. enough (Z.to_nat j = Z.to_nat j') by lia.
  eapply (NoDup_lookup _ _ _ va Hdistinct).
  - rewrite list_lookup_fmap, lookup_take_lt, L1 by lia. done.
  - rewrite list_lookup_fmap, lookup_take_lt, L2 by lia. done.
Qed.
(** What a new page of the child does not disturb. *)
Lemma parent_page_keeps m t j c va x d f pcbc m' pcbc' t' :
  paged x d f m pcbc t m' pcbc' t' → parent_page m t j c va → parent_page m' t' j c va.
Proof. intros Hp [H1 H2 H3 H4 H5]. split; try done. intros y Hy. eapply pg_stable; [exact Hp|auto]. Qed.
Lemma bytes_keep m t c x d f pcbc m' pcbc' t' o :
  paged x d f m pcbc t m' pcbc' t' → (∀ y, in_page c y → stable m t y) → 0 ≤ o < PAGE_SIZE →
  bytes_of_page m' c o = bytes_of_page m c o.
Proof.
  intros Hp Hst Ho. apply byte_at_word, (pg_words _ _ _ _ _ _ _ _ _ Hp); [|by rewrite word_of_idem].
  apply Hst, in_page_word. by apply in_page_offset.
Qed.

Lemma wp_copy_pages n i m0 pcb0 t0 m pcbc t k (Q : Z → kernel → Prop) :
  heap k !! parent = Some pcb → 0 ≤ i → i + Z.of_nat n = n_user_pages (mm pcb) →
  pages_added i m0 pcb0 t0 m pcbc t → page_room (Z.of_nat n) 0 m pcbc t → parent_ok m t →
  (∀ j c va, 0 ≤ j < n_user_pages (mm pcb) → parent_page m t j c va → ∀ o, 0 ≤ o < PAGE_SIZE →
     bytes_of_page m c o = bytes_of_page m0 c o) →
  copied_pages i m0 m t →
  (∀ m' pcbc' t', pages_added (n_user_pages (mm pcb)) m0 pcb0 t0 m' pcbc' t' →
     copied_pages (n_user_pages (mm pcb)) m0 m' t' → Q 0 (put child pcbc' m' k)) →
  wp (copy_pages n i parent child) Q (put child pcbc m k).
Proof.
  intros Hpar. revert i m pcbc t.
  induction n as [|n IH]; intros i m pcbc t Hi Hn Hadd Hr Hok Hsame Hdone HQ; cbn [copy_pages].
  { apply wp_ret. replace (n_user_pages (mm pcb)) with i in * by lia. by eapply HQ. }
  pose proof (ad_space _ _ _ _ _ _ _ Hadd) as Hs. destruct (Hok i ltac:(lia)) as (c & va & Hpp).
  pose proof (pp_low _ _ _ _ _ Hpp) as Hlow. assert (Hlow0 : low 0) by by vm_compute.
  apply (page_room_low _ _ _ _ _ _ Hlow0 Hlow) in Hr.
  apply wp_bind, wp_load_parent; [done|]. apply wp_bind, wp_defined. eexists.
  split; [rewrite arr_get_lookup by lia; apply Hpp|]. cbn [physical_address Process.virtual_address].
  apply (wp_copy_page c va m pcbc t); [done| |apply Hpp|apply Hpp|].
  { eapply page_room_weaken; [|exact Hr]. lia. }
  intros d m' pcb' t' Hp. apply (IH (i + 1) m' pcb' t'); try done.
  - lia.
  - lia.
  - by eapply pages_added_step.
  - apply (page_room_low _ _ _ _ _ _ Hlow Hlow0). eapply pg_room; [exact Hp|].
    by replace (1 + Z.of_nat n) with (Z.of_nat (S n)) by lia.
  - intros j Hj. destruct (Hok j Hj) as (c' & va' & H). exists c', va'. by eapply parent_page_keeps.
  - intros j c' va' Hj Hpp' o Ho. destruct (Hok j Hj) as (c2 & va2 & H2).
    assert (c' = c2 ∧ va' = va2) as [-> ->].
    { pose proof (pp_listed _ _ _ _ _ Hpp') as L1. rewrite (pp_listed _ _ _ _ _ H2) in L1.
      injection L1 as E1 E2. split; [by apply page_address_inj|done]. }
    erewrite (bytes_keep m t c2 va d); [by eapply Hsame|exact Hp|apply H2|done].
  - intros j c' va' Hj L. destruct (decide (j = i)) as [->|Hji].
    + rewrite (pp_listed _ _ _ _ _ Hpp) in L. injection L as E1 <-. apply page_address_inj in E1 as <-.
      split.
      * exists d. split; [apply Hp|]. eapply page_holds_ext; [|apply Hp]. intros o Ho. eapply (Hsame i); [lia|exact Hpp|done].
      * intros d'. rewrite (pg_at _ _ _ _ _ _ _ _ _ Hp). intros [= <-%page_address_inj].
        pose proof (pg_fresh _ _ _ _ _ _ _ _ _ Hp). pose proof (ad_pages _ _ _ _ _ _ _ Hadd). set_solver.
    + destruct (Hok j ltac:(lia)) as (c2 & va2 & H2). assert (va' = va2) as ->.
      { rewrite (pp_listed _ _ _ _ _ H2) in L. by injection L. }
      assert (Hpa : path_of va2 ≠ path_of va) by by eapply (distinct_paths j i); [lia|lia| |exact H2|exact Hpp].
      destruct (Hdone j c' va2 ltac:(lia) L) as [D1 D2]. split.
      * by eapply paged_keeps; [apply Hs|exact Hp|..].
      * intros d'. rewrite (pg_other _ _ _ _ _ _ _ _ _ Hp) by done. apply D2.
Qed.
End copy.

(** ** What the child sees *)

(** The user pages of the parent are low pages at distinct aligned addresses. *)
Record forkable (m : memory) (pcb : PCB) (t : tree) : Prop := {
  fk_space : space_ok m pcb t;
  fk_listed : listed pcb t;
  fk_distinct : distinct_pages pcb
}.
Lemma used_stable m t y x a :
  tables_ok m t → t !! x = Some a → (∃ i, a = page_address i ∧ in_page i y) → stable m ∅ y.
Proof.
  intros Hm Hx (i & -> & Hy) j Hr Hj. rewrite (in_page_disjoint _ _ _ Hj Hy). split.
  - by destruct (ta_page _ _ Hm _ _ Hx) as (l & ->%page_address_inj & ?).
  - intros (z & _ & Hz). by rewrite lookup_empty in Hz.
Qed.
Lemma empty_space m pcb :
  (∀ i, i ∈ memory_pages m → 0 ≤ i < N_PAGES) → pgd (mm pcb) = 0 →
  Z.of_nat (length (kernel_pages (mm pcb))) = MAX_PROCESS_PAGES → 0 ≤ n_kernel_pages (mm pcb) →
  Z.of_nat (length (user_pages (mm pcb))) = MAX_PROCESS_PAGES → 0 ≤ n_user_pages (mm pcb) → space_ok m pcb ∅.
Proof.
  intros Hr H0 H1 H2 H3 H4. split; [|by rewrite H0|done|done].
  split; try done; intros x a; try (intros y Hx; by rewrite lookup_empty in Hx); by rewrite lookup_empty.
Qed.
Lemma forkable_pages m pcb t : forkable m pcb t → parent_ok pcb m ∅.
Proof.
  intros [Hs Hl Hd] j Hj. destruct (Hl j Hj) as (c & va & H1 & H2 & H3 & H4). exists c, va. split; try done.
  - destruct (tables_page _ _ _ _ (so_tables _ _ _ Hs) H4) as (i & ->%page_address_inj & ?). lia.
  - intros y Hy. eapply used_stable; [apply Hs|exact H4|eauto].
Qed.

Lemma wp_copy_virtual_memory parent child m pcb t pcbc k (Q : Z → kernel → Prop) :
  child ≠ parent → current_process k = parent → heap k !! parent = Some pcb → forkable m pcb t →
  space_ok m pcbc ∅ → n_user_pages (mm pcbc) = 0 → page_room (n_user_pages (mm pcb)) 0 m pcbc ∅ →
  (∀ m' pcbc' t', pages_added (n_user_pages (mm pcb)) m pcbc ∅ m' pcbc' t' →
     copied_pages pcb (n_user_pages (mm pcb)) m m' t' → Q 0 (put child pcbc' m' k)) →
  wp (copy_virtual_memory child) Q (put child pcbc m k).
Proof.
  intros Hne Hc Hp Hf Hs Hn Hr HQ. unfold copy_virtual_memory. apply wp_bind, wp_gets.
  change (current_process (put child pcbc m k)) with (current_process k). rewrite Hc.
  apply wp_bind, (wp_load_parent parent child pcb Hne); [done|].
  pose proof (so_user _ _ _ (fk_space _ _ _ Hf)) as [_ Hnu].
  eapply (wp_copy_pages parent child pcb Hne (fk_distinct _ _ _ Hf) _ 0 m pcbc ∅ m pcbc ∅); try done.
  - lia.
  - by apply pages_added_refl.
  - by rewrite Z2Nat.id.
  - by eapply forkable_pages.
  - intros j c va Hj. lia.
Qed.

Lemma space_translate_mapped m pcb t va b :
  space_ok m pcb t → t !! path_of va = Some b → space_translate m pcb va = Some (b + va mod PAGE_SIZE).
Proof.
  intros [Hm Hroot _ _] Hb. unfold space_translate. destruct (pgd (mm pcb) =? 0); [by rewrite (no_root m t) in Hb|].
  by apply translate_mapped with t.
Qed.
(** The same byte at an address of a page of the parent, before and after, in both. *)
Lemma copied_byte m pcb t m' pcbc pcbc' t' va :
  forkable m pcb t → 
  pages_added (n_user_pages (mm pcb)) m pcbc ∅ m' pcbc' t' →
  copied_pages pcb (n_user_pages (mm pcb)) m m' t' →
  (∃ j page, 0 ≤ j < n_user_pages (mm pcb) ∧ user_pages (mm pcb) !! Z.to_nat j = Some page ∧
     va / PAGE_SIZE = Process.virtual_address page / PAGE_SIZE) →
  is_Some (space_byte m pcb va) ∧ space_byte m' pcbc' va = space_byte m pcb va ∧
  space_byte m' pcb va = space_byte m pcb va ∧ space_translate m' pcbc' va ≠ space_translate m' pcb va.
Proof.
  intros [Hs Hl Hd] [A1 A2 A3 _] Hcp (j & page & Hj & L & E).
  destruct (Hl j Hj) as (c & va0 & L' & Hlow & Hal & Ht). rewrite L in L'. injection L' as ->. cbn in E.
  assert (Hpath : path_of va = path_of va0).
  { apply path_of_page; [|unfold low in Hlow; change SECTION_SIZE with 2097152 in Hlow; lia|done].
    unfold low in Hlow. change SECTION_SIZE with 2097152 in Hlow. change PAGE_SIZE with 4096 in *.
    pose proof (Z.div_mod va 4096). pose proof (Z.div_mod va0 4096). pose proof (Z.mod_pos_bound va 4096). lia. }
  pose proof (so_tables _ _ _ Hs) as Hm. rewrite <- Hpath in Ht.
  assert (B : space_byte m pcb va = Some (bytes_of_page m c (va mod PAGE_SIZE)))
    by (eapply space_byte_page; [exact Hs|exact Ht|apply holds_bytes]).
  rewrite B. split; [eauto|]. destruct (Hcp j c va0 Hj L) as [(d & Hd1 & Hd2) Hfresh]. rewrite <- Hpath in Hd1, Hfresh.
  split; [by eapply space_byte_page|].
  assert (Hw : ∀ i y, (∃ x, t !! x = Some (page_address i)) → in_page i y → y = word_of y →
      word_at (words m') y = word_at (words m) y).
    { intros i y (x & Hx) Hy Hyw. apply A3; [|done]. eapply used_stable; [exact Hm|exact Hx|eauto]. }
    assert (Hs' : space_ok m' pcb t).
    { destruct Hs as [_ R K U]. split; try done. destruct Hm as [T1 T2 T3 T4 T5 T6]. pose proof (so_tables _ _ _ A1) as Hm'.
      split; try done.
      - apply Hm'.
      - intros x a Ha. destruct (T2 _ _ Ha) as (i & -> & Hi). exists i. split; [done|].
        assert (Hst : stable m ∅ (slot (page_address i) 0)).
        { eapply used_stable; [by split|exact Ha|]. exists i. split; [done|]. by apply slot_in_page. }
        apply A2 in Hst. destruct (Hst i) as [? _]; [by apply T1|by apply slot_in_page|done].
      - intros x a i Ha Hl' Hi. destruct (T2 _ _ Ha) as (ia & -> & _). rewrite (Hw ia); [by apply T5|eauto|by apply slot_in_page|by rewrite slot_word].
      - intros x a i b Ha Hl' Hb. destruct (T2 _ _ Ha) as (ia & -> & _). pose proof (T4 _ _ _ Hb) as (_ & Hi & _).
        rewrite (Hw ia); [by eapply T6|eauto|by apply slot_in_page|by rewrite slot_word]. }
  split.
  - rewrite (space_byte_page m' pcb t va c (bytes_of_page m c) Hs' Ht); [done|].
    eapply page_holds_same; [|apply holds_bytes]. intros y Hy. apply (Hw c); eauto.
  - rewrite (space_translate_mapped m' pcbc' t' va _ A1 Hd1), (space_translate_mapped m' pcb t va _ Hs' Ht). intros [= Ed].
    assert (d = c) as -> by (apply page_address_inj; lia). apply (Hfresh c Hd1).
    by destruct (ta_page _ _ Hm _ _ Ht) as (i & ->%page_address_inj & ?).
Qed.
