(* ===== verification/Frame.v ===== *)
(** * What the scheduler never touches

    No decision, tick, wake-up or exit changes the process table, the number of
    processes, the memory or the set of PCBs: with this every abstract operation
    keeps the invariant of the whole kernel. *)
From S2P Require Import Prelude.
From S2P Require Import Process.
From S2P Require Import ReadyQueue.
From S2P Require Import Scheduler.
From S2P Require Import SchedSpec.
From S2P Require Import SchedInv.
From S2P Require Import SchedDispatch.
From S2P Require Import SchedPick.
From S2P Require Import SchedAging.
From S2P Require Import SchedLottery.
From S2P Require Import SchedTick.
From S2P Require Import SchedOps.
From S2P Require Import SchedParam.
From S2P Require Import Ipc.
From S2P Require Import Mm.
From S2P Require Import Uart.
From S2P Require Import Fork.
Local Open Scope Z_scope.

(** What no scheduling operation changes outside the PCBs. *)
Definition outside (k : kernel) :=
  (processes k, n_processes k, mem k, uart_buffer k, uart_head k, uart_tail k).
Record same_frame (a a' : astate) : Prop := {
  sf_outside : outside (core a') = outside (core a);
  sf_messages : ∀ p, messages_buffer <$> pcb_at a' p = messages_buffer <$> pcb_at a p
}.

#[export] Instance same_frame_refl : Reflexive same_frame.
Proof. by intros a. Qed.
#[export] Instance same_frame_trans : Transitive same_frame.
Proof. intros a b c [H1 H2] [G1 G2]. split; [congruence|]. intros p. by rewrite G2. Qed.

Lemma frame_processes a a' : same_frame a a' → processes (core a') = processes (core a).
Proof. by intros [[= -> _ _ _ _ _] _]. Qed.
Lemma frame_pcb a a' p : same_frame a a' → is_Some (pcb_at a' p) ↔ is_Some (pcb_at a p).
Proof.
  intros [_ H]. specialize (H p).
  destruct (pcb_at a' p), (pcb_at a p); cbn in H; split; eauto; try done; by intros [? [=]].
Qed.
Lemma frame_buffer a a' p : same_frame a a' → buffer_of a' p = buffer_of a p.
Proof.
  intros [_ H]. specialize (H p). unfold buffer_of.
  destruct (pcb_at a' p), (pcb_at a p); cbn in *; congruence.
Qed.

Lemma machine_ok_frame alg a a' :
  machine_ok alg a → kernel_ok alg a' → same_frame a a' → machine_ok alg a'.
Proof.
  intros [_ Hn Hd Hh [Hu1 Hu2 Hu3] Hb] Hok Hf. pose proof Hf as [[= Hp Hc Hm U1 U2 U3] _].
  split; [done|by rewrite Hc| | | |].
  - intros i Hi. rewrite Hp, Hc. by apply Hd.
  - intros address Hx. rewrite Hm. apply Hh. by apply (frame_pcb _ _ _ Hf).
  - split; congruence.
  - intros p Hr. rewrite (frame_buffer _ _ _ Hf). apply Hb. unfold registered in *. by rewrite <- Hp.
Qed.

Lemma signal_effect_messages : keeps_messages signal_effect.
Proof. intros pcb. unfold signal_effect. by repeat case_match. Qed.
Ltac keeps := first [exact signal_effect_messages | by intros ? | assumption].

Section frames.
Context {alg : SchedAlgorithm}.
Implicit Types (a : astate) (p : pcb_ptr) (q : queue_ref) (l : list pcb_ptr).

Lemma frame_update p f a : keeps_messages f → same_frame a (a_update p f a).
Proof.
  intros Hf. split; [done|]. intros p'. rewrite pcb_at_update. case_decide; [|done].
  destruct (pcb_at a p'); cbn; [by rewrite Hf|done].
Qed.
Lemma frame_core g a :
  outside (g (core a)) = outside (core a) → heap (g (core a)) = heap (core a) →
  same_frame a (a_core g a).
Proof. intros H1 H2. split; [done|]. intros p. unfold pcb_at. cbn. by rewrite H2. Qed.
Lemma frame_set_queue q l a : same_frame a (a_set_queue q l a).
Proof. done. Qed.
Lemma frame_preempt d a : same_frame a (a_preempt d a).
Proof. apply frame_update; keeps. Qed.
Lemma frame_signals p a : same_frame a (a_signals p a).
Proof. apply frame_update; keeps. Qed.
Lemma frame_taken p q l a : same_frame a (a_signals p (a_set_queue q l a)).
Proof. transitivity (a_set_queue q l a); [done|apply frame_signals]. Qed.
Lemma frame_put c p a : same_frame a (a_put c p a).
Proof.
  pose proof (frame_update p (set_state PROCESS_READY) a ltac:(keeps)) as [H1 H2].
  split; [by rewrite put_core|]. intros p'. unfold pcb_at. rewrite put_core. apply H2.
Qed.
Lemma frame_enter a : same_frame a (a_enter alg a).
Proof.
  unfold a_enter, a_requeue. case_match; [|apply frame_preempt].
  etrans; [apply frame_preempt|apply frame_put].
Qed.
Lemma frame_switch next a : same_frame a (a_switch next a).
Proof.
  destruct (switch_frame next a) as (Hp & _ & _). split.
  - unfold a_switch. by case_decide.
  - intros p. rewrite switch_pcb. destruct (pcb_at a p); cbn; [|done].
    unfold switched. by repeat case_match.
Qed.
Lemma frame_leave r a : same_frame a (a_leave r a).
Proof. etrans; [apply frame_switch|apply frame_preempt]. Qed.
Lemma frame_recharge r v a : same_frame a (a_recharge r v a).
Proof. destruct r; [apply frame_update; keeps|done]. Qed.
Lemma frame_take_ready q l a : same_frame a (a_take_ready q l a).2.
Proof.
  revert a. induction l as [|p l IH]; intros a; cbn; [done|]. case_decide; cbn.
  - apply (frame_taken p q l).
  - etrans; [apply (frame_taken p q l)|apply IH].
Qed.
Lemma frame_cascade levels a : same_frame a (a_cascade levels a).2.
Proof.
  revert a. induction levels as [|q levels IH]; intros a; cbn; [done|].
  pose proof (frame_take_ready (MlQueue q) (queues a (MlQueue q)) a) as H.
  destruct (a_take_ready _ _ _) as [[p|] a1]; cbn in *; [done|]. by etrans.
Qed.
Lemma frame_walk kept rest best m a : same_frame a (a_aging_walk kept rest best m a).2.
Proof.
  revert kept best m a. induction rest as [|p rest IH]; intros kept best m a; cbn; [done|].
  repeat case_match; (etrans; [|apply IH]);
    (transitivity (a_signals p a); [apply frame_signals|done]).
Qed.
Lemma frame_updates l f a : keeps_messages f → same_frame a (foldl (λ a p, a_update p f a) a l).
Proof.
  intros Hf. revert a. induction l as [|p l IH]; intros a; cbn; [done|].
  etrans; [by apply frame_update|apply IH].
Qed.
Lemma frame_aging_select a : same_frame a (a_aging_select a).2.
Proof.
  assert (Hp : ∀ a, same_frame a (a_pass a).2) by (intros; apply frame_walk).
  assert (He : ∀ b a, same_frame a (a_extract b a)) by (intros []; done).
  unfold a_aging_select. cbn zeta. repeat case_match; cbn [fst snd]; (etrans; [|apply He]).
  all: try apply Hp. etrans; [apply Hp|]. etrans; [|apply Hp]. apply frame_updates; keeps.
Qed.
Lemma frame_draw fuel a : same_frame a (a_draw fuel a).2.
Proof.
  revert a. induction fuel as [|fuel IH]; intros a; cbn [a_draw]; [done|].
  assert (Hx : ∀ c, same_frame a (a_signals c (a_extract (Some c) (a_random a).2))).
  { intros c. transitivity (a_random a).2; [by apply frame_core|].
    apply (frame_taken c ReadyQueue). }
  repeat case_match; try done; cbn [snd]; [apply Hx|]. etrans; [apply Hx|apply IH].
Qed.
Lemma frame_decide a : same_frame a (a_decide alg a).
Proof.
  unfold a_decide. case_match.
  - etrans; [apply frame_enter|]. etrans; [apply frame_take_ready|].
    etrans; [apply frame_recharge|apply frame_leave].
  - etrans; [apply frame_enter|]. etrans; [apply frame_take_ready|apply frame_leave].
  - etrans; [apply frame_enter|]. etrans; [apply (frame_draw queue_fuel)|].
    etrans; [apply frame_recharge|apply frame_leave].
  - etrans; [apply frame_enter|]. etrans; [apply frame_aging_select|apply frame_leave].
  - case_match; [|done]. etrans; [apply frame_enter|]. unfold a_multilevel.
    pose proof (frame_cascade (seqZ 0 (n_levels m)) (a_enter alg a)) as H'.
    destruct (a_cascade _ _) as [[[p q]|] a1]; cbn in *.
    + etrans; [exact H'|]. etrans; [|apply frame_leave]. apply frame_update; keeps.
    + etrans; [exact H'|apply frame_leave].
Qed.
Lemma frame_schedule a : same_frame a (a_schedule alg a).
Proof.
  unfold a_schedule. etrans; [|apply frame_decide].
  transitivity (if blocked a then a_update (current a) end_of_burst a else a);
    [case_match; [apply frame_update; keeps|done]|apply frame_update; keeps].
Qed.
Lemma frame_boost_tick policy a : same_frame a (a_boost_tick policy a).
Proof. unfold a_boost_tick. by case_decide. Qed.
Lemma frame_demote policy a : same_frame a (a_demote policy a).
Proof. unfold a_demote. by case_match. Qed.
Lemma frame_on_tick a : same_frame a (a_on_tick alg a).
Proof.
  unfold a_on_tick. repeat case_match; try done; [|apply frame_demote].
  etrans; [apply frame_boost_tick|apply frame_demote].
Qed.
Lemma frame_tick a : same_frame a (a_tick alg a).
Proof.
  unfold a_tick. assert (H : same_frame a (a_on_tick alg (a_account a))).
  { etrans; [|apply frame_on_tick]. unfold a_account.
    transitivity (a_update (current a) (λ pcb, set_counter (counter pcb - 1) pcb) a);
      apply frame_update; keeps. }
  case_match; [exact H|]. cbn zeta.
  case_match; [etrans; [exact H|]; apply frame_update; keeps|].
  etrans; [exact H|]. etrans; [|by apply (frame_core (set_irq_enabled false))].
  etrans; [|apply frame_decide]. etrans; [|by apply (frame_core (set_irq_enabled true))].
  apply frame_update; keeps.
Qed.
Lemma frame_insert p a : same_frame a (a_insert alg p a).
Proof. destruct p; [done|apply frame_put]. Qed.
Lemma frame_wake f p a : keeps_messages f → same_frame a (a_wake (alg:=alg) f p a).
Proof. intros Hf. etrans; [by apply frame_update|apply frame_insert]. Qed.
Lemma frame_wake_waiters e a : same_frame a (a_wake_waiters alg e a).
Proof.
  unfold a_wake_waiters. generalize (registered_list a). intros l.
  revert a. induction l as [|p l IH]; intros a; cbn; [done|].
  etrans; [|apply IH]. unfold a_wake_waiter. case_match; [apply frame_wake; keeps|done].
Qed.
Lemma frame_exit a : same_frame a (a_exit alg a).
Proof.
  unfold a_exit. etrans; [|apply frame_schedule]. etrans; [|apply frame_preempt].
  etrans; [|apply frame_wake_waiters]. etrans; [apply (frame_preempt 1)|].
  apply frame_update; keeps.
Qed.
Lemma frame_set_param p param value a : same_frame a (a_set_param alg p param value a).
Proof.
  unfold a_set_param. repeat case_match; try (apply frame_update; keeps). cbn zeta.
  assert (Ht : ∀ line a, same_frame a (a_trace alg line a)).
  { intros line a'. unfold a_trace. case_match; [by apply frame_core|done]. }
  etrans; [|apply Ht]. etrans; [|apply frame_preempt].
  etrans; [apply (frame_preempt 1)|]. etrans; [|by apply frame_core]. apply frame_update; keeps.
Qed.
End frames.
