(* ===== verification/Syscalls.v ===== *)
(** * System calls

    The handlers of src/libs/syscalls.c that work on processes: [search_process] and
    the calls built on it, [syscall_yield], [syscall_exit], [syscall_fork],
    [syscall_malloc], [syscall_wait] and the informative ones.  A handler that calls
    [schedule] ends there for its caller: what follows runs when the caller is
    dispatched again. *)
From S2P Require Import Prelude.
From S2P Require Import Process.
From S2P Require Import ReadyQueue.
From S2P Require Import Scheduler.
From S2P Require Import SchedSpec.
From S2P Require Import SchedInv.
From S2P Require Import SchedDispatch.
From S2P Require Import SchedPick.
From S2P Require Import SchedAging.
From S2P Require Import SchedTick.
From S2P Require Import SchedOps.
From S2P Require Import SchedParam.
From S2P Require Import CString.
From S2P Require Import Ipc.
From S2P Require Import Mm.
From S2P Require Import Fork.
From S2P Require Import Uart.
Local Open Scope Z_scope.

(** [for (i = 0; i < N_PROCESSES; i++)]: [slots] are the indices left. *)
Fixpoint search_slots (slots : list Z) (process_id : Z) : K (option pcb_ptr) :=
  match slots with
  | [] => mret None
  | i :: slots' =>
      slot ← get_process i;
      match slot with
      | Some p =>
          pcb ← load p;
          if pid pcb =? process_id then mret (Some p) else search_slots slots' process_id
      | None => search_slots slots' process_id
      end
  end.
Definition search_process (process_id : Z) : K (option pcb_ptr) :=
  search_slots process_slots process_id.

(** [for (i = 0; i < MAX_FILES_PER_PROCESS; i++) if (process->files[i] == NULL) return i;] *)
Fixpoint first_free (n : nat) (i : Z) (l : list (option Z)) : Z :=
  match n with
  | O => -1
  | S n' => match arr_get l i with
            | Some None => i
            | _ => first_free n' (i + 1) l
            end
  end.
Definition get_first_free_file_descriptor (process : pcb_ptr) : K Z :=
  pcb ← load process;
  mret (first_free (Z.to_nat MAX_FILES_PER_PROCESS) 0 (files pcb)).

Section calls.
Variable alg : SchedAlgorithm.
Variables init_process_address ret_from_fork : Z.
Variable uninitialised : list Z.

Definition syscall_clone : K Z := copy_process alg init_process_address ret_from_fork 0 0 0.
Definition syscall_fork : K Z := copy_process alg init_process_address ret_from_fork 0 0 0.
Definition syscall_malloc : K Z :=
  address ← allocate_kernel_page;
  mret (if address =? 0 then u64 (-1) else address).
Definition syscall_exit : K unit := exit_process alg.
Definition syscall_yield : K unit :=
  update_current (set_counter 0);; schedule alg.
Definition syscall_send_message (destination_pid : Z) (text : list Z) : K (round Z) :=
  destination ← search_process destination_pid;
  match destination with
  | None => mret (Returned (-1))
  | Some p => current ← gets current_process; send_message alg uninitialised current p text
  end.
Definition syscall_receive_message (destination : list Z) : K (round (list Z)) :=
  current ← gets current_process; receive_message alg uninitialised current destination.
Definition syscall_send_signal (destination_pid signal_flag : Z) : K Z :=
  destination ← search_process destination_pid;
  match destination with
  | None => mret (-1)
  | Some p => send_signal p signal_flag
  end.
Definition syscall_wait (process_id : Z) : K (round Z) :=
  destination ← search_process process_id;
  match destination with
  | None => mret (Returned (-1))
  | Some p =>
      pcb ← load p;
      if state pcb =? PROCESS_ZOMBIE then mret (Returned 0) else
      update_current (set_state PROCESS_WAITING_ANOTHER_PROCESS);;
      update_current (set_pid_to_wait process_id);;
      schedule alg;; mret Blocked
  end.
Definition syscall_set_sched_param (process_id param value : Z) : K Z :=
  destination ← search_process process_id;
  match destination with
  | None => mret (-1)
  | Some p => sched_set_param alg (Some p) param value
  end.
Definition syscall_get_pid : K Z := pcb ← load_current; mret (pid pcb).
Definition syscall_get_time : K Z := read_timer_clo.
End calls.

(** ** Looking a process up *)

(** The process a pid names. *)
Definition process_of (a : astate) (process_id : Z) : option pcb_ptr :=
  p ← arr_get (processes (core a)) process_id; p.

Section search.
Context {alg : SchedAlgorithm}.
Implicit Types (a : astate) (p : pcb_ptr).

Lemma process_of_registered hole a process_id p :
  kinv alg hole a → process_of a process_id = Some p ↔
  registered a p ∧ from_option pid (-1) (pcb_at a p) = process_id.
Proof.
  intros Hi. unfold process_of, arr_get. split.
  - case_decide as Hn; [|done]. intros Hp. apply bind_Some in Hp as (o & Ho & ->).
    split; [by eapply list_elem_of_lookup_2|].
    destruct (inv_table _ _ _ Hi _ _ Ho) as (pcb & -> & Hpid & _). cbn. lia.
  - intros [Hr Hpid]. destruct (registered_pcb _ _ _ Hi Hr) as (pcb & Hp & Hrange & _ & Ht).
    rewrite Hp in Hpid. cbn in Hpid. subst process_id.
    rewrite decide_True by lia. by rewrite Ht.
Qed.

Lemma wp_search_slots process_id n m (Q : option pcb_ptr → kernel → Prop) s a :
  rep s a → kernel_ok alg a → (n + m = Z.to_nat N_PROCESSES)%nat →
  (∀ i p, (i < n)%nat → processes (core a) !! i = Some (Some p) → Z.of_nat i ≠ process_id) →
  Q (process_of a process_id) s →
  wp (search_slots (seqZ (Z.of_nat n) (Z.of_nat m)) process_id) Q s.
Proof.
  intros Hr [Hi _]. revert n. pose proof (inv_slots _ _ _ Hi) as Hlen.
  induction m as [|m IH]; intros n Hnm Hno HQ.
  - assert (Hnone : process_of a process_id = None); [|rewrite Hnone in HQ; by apply wp_ret].
    unfold process_of, arr_get. case_decide as Hp; [|done].
    destruct (processes (core a) !! Z.to_nat process_id) as [[p|]|] eqn:E; [|done..].
    exfalso. apply (Hno (Z.to_nat process_id) p); [|exact E|lia]. apply lookup_lt_Some in E. lia.
  - rewrite seqZ_cons by lia. cbn [search_slots]. unfold get_process.
    destruct (lookup_lt_is_Some_2 (processes (core a)) n) as [o Ho]; [lia|].
    apply wp_bind, wp_bind, wp_gets, wp_defined. exists o.
    rewrite (rep_field processes s a) by done.
    split; [by rewrite arr_get_lookup, Nat2Z.id by lia|].
    assert (Hnext : (∀ p, o = Some p → Z.of_nat n ≠ process_id) →
      wp (search_slots (seqZ (Z.succ (Z.of_nat n)) (Z.pred (Z.of_nat (S m)))) process_id) Q s).
    { intros Hp. replace (Z.succ (Z.of_nat n)) with (Z.of_nat (S n)) by lia.
      replace (Z.pred (Z.of_nat (S m))) with (Z.of_nat m) by lia. apply IH; [lia| |done].
      intros i p Hin Hip. destruct (decide (i = n)) as [->|]; [|apply (Hno i p); [lia|done]].
      apply (Hp p). congruence. }
    destruct o as [p|]; [|apply Hnext; done].
    destruct (inv_table _ _ _ Hi n p Ho) as (pcb & Hpcb & Hpid & _).
    apply wp_bind. eapply wp_load; [exact Hr|exact Hpcb|]. intros v.
    change (pid (set_next_ready v pcb)) with (pid pcb). rewrite Hpid.
    destruct (Z.eqb_spec (Z.of_nat n) process_id) as [<-|]; [|by apply Hnext].
    apply wp_ret. unfold process_of in HQ. rewrite arr_get_lookup, Nat2Z.id, Ho in HQ by lia. exact HQ.
Qed.
Lemma wp_search_process process_id (Q : option pcb_ptr → kernel → Prop) s a :
  rep s a → kernel_ok alg a → Q (process_of a process_id) s → wp (search_process process_id) Q s.
Proof.
  intros Hr Hok HQ. unfold search_process, process_slots.
  change (seqZ 0 N_PROCESSES) with (seqZ (Z.of_nat 0) (Z.of_nat (Z.to_nat N_PROCESSES))).
  eapply wp_search_slots; [done..|lia|done].
Qed.

Lemma first_free_spec n i l :
  0 ≤ i → i + Z.of_nat n = Z.of_nat (length l) →
  (first_free n i l = -1 ∧ ∀ k, i ≤ k < Z.of_nat (length l) → ∃ x, arr_get l k = Some (Some x)) ∨
  (i ≤ first_free n i l ∧ arr_get l (first_free n i l) = Some None ∧
    ∀ k, i ≤ k < first_free n i l → ∃ x, arr_get l k = Some (Some x)).
Proof.
  revert i. induction n as [|n IH]; intros i Hi Hl; cbn [first_free].
  - left. split; [done|]. lia.
  - destruct (proj2 (arr_get_is_Some l i)) as [o Ho]; [lia|]. rewrite Ho. destruct o as [x|].
    + destruct (IH (i + 1)) as [[H1 H2]|(H1 & H2 & H3)]; [lia|lia|left|right].
      * split; [done|]. intros k Hk. destruct (decide (k = i)) as [->|]; [eauto|]. apply H2. lia.
      * split_and!; [lia|done|]. intros k Hk. destruct (decide (k = i)) as [->|]; [eauto|].
        apply H3. lia.
    + right. split_and!; [lia|done|lia].
Qed.
End search.

(** ** The calls on the abstract state *)
Section syscall_refinement.
Context {alg : SchedAlgorithm}.
Implicit Types (a : astate) (p : pcb_ptr).

Definition a_yield (a : astate) : astate := a_schedule alg (a_update (current a) (set_counter 0) a).
Lemma wp_syscall_yield s a :
  alg_ok alg → rep s a → kernel_ok alg a →
  wp (syscall_yield alg) (λ _, decides (alg:=alg) a_yield a) s.
Proof.
  intros Hao Hr Hok. unfold syscall_yield. apply wp_bind.
  eapply wp_current_update; [done|done|auto with kernel..|done|]. intros s1 a1 Hr1 Hok1.
  by eapply wp_mono; [apply wp_schedule|].
Qed.

(** Waiting for a process that has not exited blocks the caller on its pid. *)
Definition a_block_wait (process_id : Z) (a : astate) : astate :=
  a_update (current a) (λ pcb, set_pid_to_wait process_id
    (set_state PROCESS_WAITING_ANOTHER_PROCESS pcb)) a.
Definition wait_post (process_id : Z) (s : kernel) (a : astate) (r : round Z) (s' : kernel) : Prop :=
  match process_of a process_id with
  | None => r = Returned (-1) ∧ s' = s
  | Some p =>
      if decide (state_of a p = PROCESS_ZOMBIE) then r = Returned 0 ∧ s' = s
      else r = Blocked ∧ decides (alg:=alg) (a_schedule alg) (a_block_wait process_id a) s'
  end.
Lemma wp_syscall_wait process_id s a :
  alg_ok alg → rep s a → kernel_ok alg a →
  wp (syscall_wait alg process_id) (wait_post process_id s a) s.
Proof.
  intros Hao Hr Hok. unfold syscall_wait, wait_post. pose proof Hok as [Hi Hun].
  apply wp_bind. eapply wp_search_process; [done..|].
  destruct (process_of a process_id) as [p|] eqn:Hp; [|by apply wp_ret].
  apply (process_of_registered _ _ _ _ Hi) in Hp as [Hreg _].
  destruct (registered_pcb _ _ _ Hi Hreg) as (pcb & Hpcb & _).
  apply wp_bind. eapply wp_load; [exact Hr|exact Hpcb|]. intros v.
  change (state (set_next_ready v pcb)) with (state pcb).
  assert (Hs : state_of a p = state pcb) by (unfold state_of; by rewrite Hpcb). rewrite Hs.
  destruct (Z.eqb_spec (state pcb) PROCESS_ZOMBIE) as [E|E].
  { apply wp_ret. by rewrite decide_True. }
  destruct (current_pcb _ Hok) as (x & Hx & _).
  apply wp_bind. eapply wp_update_current; [exact Hr|auto with kernel|exact Hx|]. intros s1 Hr1.
  apply wp_bind. eapply wp_update_current; [exact Hr1|auto with kernel|by apply pcb_at_update_eq|].
  intros s2 Hr2. apply wp_bind. eapply wp_mono; [apply wp_schedule; [done| |]|].
  - change (current (a_update (current a) _ a)) with (current a) in Hr2.
    rewrite a_update_compose in Hr2. exact Hr2.
  - by apply (kernel_ok_block _ PROCESS_WAITING_ANOTHER_PROCESS).
  - intros [] s3 Hd. apply wp_ret. by rewrite decide_False.
Qed.

Definition a_signalled (signal : Z) (p : pcb_ptr) (a : astate) : astate :=
  a_update p (λ pcb, set_pending_signals (Z.lor (pending_signals pcb) (signal_bit signal)) pcb) a.
Lemma wp_syscall_send_signal process_id signal (Q : Z → kernel → Prop) s a :
  rep s a → kernel_ok alg a →
  match process_of a process_id with
  | None => Q (-1) s
  | Some p => ∀ s', rep s' (a_signalled signal p a) → kernel_ok alg (a_signalled signal p a) → Q 0 s'
  end →
  wp (syscall_send_signal process_id signal) Q s.
Proof.
  intros Hr Hok HQ. unfold syscall_send_signal. apply wp_bind.
  eapply (wp_search_process (alg:=alg)); [done..|].
  destruct (process_of a process_id) as [p|] eqn:Hp; [|by apply wp_ret].
  apply (process_of_registered _ _ _ _ (ko_inv _ _ Hok)) in Hp as [Hreg _].
  eapply (wp_send_signal (alg:=alg)); [exact Hr|exact Hok|done|]. exact HQ.
Qed.

(** A parameter is set on the process the pid names, unless it is the idle task. *)
Definition param_target (a : astate) (process_id param value : Z) : option pcb_ptr :=
  match process_of a process_id with
  | Some (KernelPage x) => if param_accepted param value then Some (KernelPage x) else None
  | _ => None
  end.
Lemma wp_syscall_set_sched_param process_id param value (Q : Z → kernel → Prop) s a :
  alg_ok alg → rep s a → kernel_ok alg a →
  match param_target a process_id param value with
  | None => Q (-1) s
  | Some p => ∀ s', let a' := a_set_param alg p param value a in
      rep s' a' → kernel_ok alg a' → current a' = current a → Q 0 s'
  end →
  wp (syscall_set_sched_param alg process_id param value) Q s.
Proof.
  intros Hao Hr Hok HQ. unfold syscall_set_sched_param. apply wp_bind.
  eapply wp_search_process; [done..|]. unfold param_target in HQ.
  destruct (process_of a process_id) as [p|] eqn:Hp; [|by apply wp_ret].
  apply (process_of_registered _ _ _ _ (ko_inv _ _ Hok)) in Hp as [Hreg _].
  assert (Hrefuse : p = InitProcess ∨ param_accepted param value = false → Q (-1) s →
    wp (sched_set_param alg (Some p) param value) Q s).
  { intros H HQ1. unfold wp. rewrite set_param_refused; [done|]. destruct H as [->|]; auto. }
  destruct p as [|addr]; [apply Hrefuse; auto|].
  destruct (param_accepted param value) eqn:Ha; [|apply Hrefuse; auto].
  eapply wp_sched_set_param; [done|exact Hr|done|done|done|done|exact HQ].
Qed.

Lemma wp_syscall_get_pid (Q : Z → kernel → Prop) s a :
  rep s a → kernel_ok alg a →
  (process_of a (from_option pid (-1) (pcb_at a (current a))) = Some (current a) →
   Q (from_option pid (-1) (pcb_at a (current a))) s) →
  wp syscall_get_pid Q s.
Proof.
  intros Hr Hok HQ. pose proof Hok as [Hi _]. destruct (current_pcb _ Hok) as (x & Hx & _).
  unfold syscall_get_pid, load_current. apply wp_bind, wp_bind, wp_gets.
  rewrite (rep_current _ _ Hr). eapply wp_load; [exact Hr|exact Hx|]. intros v. apply wp_ret.
  change (pid (set_next_ready v x)) with (pid x). rewrite Hx in HQ. apply HQ.
  apply (process_of_registered _ _ _ _ Hi). rewrite Hx. split; [apply Hi|done].
Qed.
End syscall_refinement.
