(* ===== verification/System.v ===== *)
(** * The whole kernel

    Everything that happens to the kernel state is a step: a timer tick, a console
    interrupt, the creation of a process or a system call of the process on the CPU.
    The invariant of the kernel holds at boot and every step that has a defined
    behaviour keeps it. *)
From S2P Require Import Prelude.
From S2P Require Import Process.
From S2P Require Import ReadyQueue.
From S2P Require Import Scheduler.
From S2P Require Import SchedSpec.
From S2P Require Import SchedInv.
From S2P Require Import SchedDispatch.
From S2P Require Import SchedPick.
From S2P Require Import SchedAging.
From S2P Require Import SchedLottery.
From S2P Require Import SchedTick.
From S2P Require Import SchedOps.
From S2P Require Import SchedParam.
From S2P Require Import CString.
From S2P Require Import Ipc.
From S2P Require Import Mm.
From S2P Require Import Uart.
From S2P Require Import Syscalls.
From S2P Require Import Fork.
From S2P Require Import Frame.
Local Open Scope Z_scope.

(** ** Steps *)
Section steps.
Variable alg : SchedAlgorithm.
Variables init_process_address ret_from_fork : Z.

(** A system call, up to the point where its caller gives up the CPU; the resumption
    of a call that blocked is a call of its own ([SendMessage], [ReceiveMessage] and
    [Input] start their loops again). *)
Inductive system_call : kernel → kernel → Prop :=
  | Yield s s' : syscall_yield alg s = Done tt s' → system_call s s'
  | Exit s s' : syscall_exit alg s = Done tt s' → system_call s s'
  | Wait process_id r s s' : syscall_wait alg process_id s = Done r s' → system_call s s'
  | SendMessage uninitialised process_id text r s s' :
      syscall_send_message alg uninitialised process_id text s = Done r s' → system_call s s'
  | ReceiveMessage uninitialised destination r s s' :
      syscall_receive_message alg uninitialised destination s = Done r s' → system_call s s'
  | SendSignal process_id signal r s s' :
      syscall_send_signal process_id signal s = Done r s' → system_call s s'
  | SetSchedParam process_id param value r s s' :
      syscall_set_sched_param alg process_id param value s = Done r s' → system_call s s'
  | Input buffer len r s s' : syscall_input alg buffer len s = Done r s' → system_call s s'
  | InputAgain len l r s s' : input_loop alg len l s = Done r s' → system_call s s'
  | ForkCall r s s' :
      syscall_fork alg init_process_address ret_from_fork s = Done r s' → system_call s s'
  | Malloc r s s' : syscall_malloc s = Done r s' → system_call s s'
  | Write buffer s s' : syscall_write buffer s = Done tt s' → system_call s s'
  | WriteHex number s s' : syscall_write_hex number s = Done tt s' → system_call s s'
  | GetPid r s s' : syscall_get_pid s = Done r s' → system_call s s'
  | GetTime r s s' : syscall_get_time s = Done r s' → system_call s s'
  | MemAbort index address esr r s s' :
      do_mem_abort index address esr s = Done r s' → system_call s s'.

Inductive step : kernel → kernel → Prop :=
  | TimerTick s s' : handle_timer_tick alg s = Done tt s' → step s s'
  | UartIrq mis received late s s' :
      handle_uart_irq alg mis received late s = Done tt s' → step s s'
  | KernelThread function argument r s s' :
      copy_process alg init_process_address ret_from_fork PF_KTHREAD function argument s = Done r s' →
      step s s'
  | SystemCall s s' : current_process s ≠ InitProcess → system_call s s' → step s s'.
End steps.

(** ** The invariant *)
Definition live (alg : SchedAlgorithm) (a : astate) : Prop := machine_ok alg a ∧ dispatched a.
Definition good (alg : SchedAlgorithm) (s : kernel) : Prop := ∃ a, rep s a ∧ live alg a.

Section steps_keep.
Context {alg : SchedAlgorithm}.
Implicit Types (a : astate) (p : pcb_ptr).

Lemma live_caller a : live alg a → current a ≠ InitProcess → caller alg a.
Proof. intros [Hm [Hd|[Hd _]]] Hne; [|done]. split; [apply Hm|done|done]. Qed.
Lemma live_awake a v : live alg a → v ≠ PROCESS_RUNNING → v ≠ 0 → state_of a (current a) ≠ v.
Proof. intros [_ [Hd|[Hc Hd]]] H1 H2; [by rewrite Hd|]. rewrite Hc, Hd. done. Qed.
Lemma live_filled a : machine_ok alg a → filled a (Z.to_nat (n_processes (core a))).
Proof.
  intros Hm i Hi. pose proof (mo_count _ _ Hm). pose proof (mo_dense _ _ Hm i) as Hd.
  rewrite decide_True in Hd by done. apply Hd. unfold N_PROCESSES in *. lia.
Qed.

Lemma good_decides (f : astate → astate) a s' :
  machine_ok alg a → same_frame a (f a) → decides (alg:=alg) f a s' → good alg s'.
Proof.
  intros Hm Hf (Hr & Hd & Hrun). exists (f a). split; [done|]. split; [|by left].
  eapply machine_ok_frame; [done| |done]. by apply decidable_kernel_ok.
Qed.
(** A step that keeps who is on the CPU. *)
Lemma good_quiet a a' s' :
  live alg a → rep s' a' → kernel_ok alg a' → same_frame a a' → current a' = current a →
  state_of a' (current a) = state_of a (current a) → good alg s'.
Proof.
  intros [Hm Hd] Hr Hok Hf Hc Hs. exists a'. split; [done|]. split.
  - by eapply machine_ok_frame.
  - by eapply dispatched_frame.
Qed.

(** *** Interrupts *)
Lemma wp_tick_good s a : alg_ok alg → rep s a → live alg a → wp (handle_timer_tick alg) (λ _, good alg) s.
Proof.
  intros Hao Hr [Hm Hd]. eapply wp_handle_timer_tick; [done|exact Hr|apply Hm|]. intros s1 Hr1 Hok1 Hd1.
  exists (a_tick alg a). split; [done|]. split; [|auto]. eapply machine_ok_frame; [done|done|apply frame_tick].
Qed.
Lemma tick_good s a s' :
  alg_ok alg → rep s a → live alg a → handle_timer_tick alg s = Done tt s' → good alg s'.
Proof.
  intros Hao Hr Hl Hs. pose proof (wp_tick_good s a Hao Hr Hl) as H. unfold wp in H. by rewrite Hs in H.
Qed.

(** The console keeps the invariant if it keeps its ring buffer. *)
Lemma machine_ok_console g a :
  machine_ok alg a → console_only g → uart_ok (g (core a)) → machine_ok alg (a_core g a).
Proof.
  intros [Hok Hn Hd Hh Hu Hb] Hg Hu'. destruct (Hg (core a)) as (H1 & H2 & H3 & H4 & H5 & H6).
  split; [by apply console_kernel_ok|cbn; by rewrite H5| | |done|].
  - intros i Hi. cbn. rewrite H2, H5. by apply Hd.
  - intros address Hx. cbn. rewrite H6. apply Hh. unfold pcb_at in *. cbn in Hx. by rewrite H1 in Hx.
  - intros p Hp. unfold registered in Hp. cbn in Hp. rewrite H2 in Hp. unfold buffer_of, pcb_at. cbn.
    rewrite H1. by apply Hb.
Qed.
Lemma frame_wake_blocked v n a : same_frame a (a_wake_blocked (alg:=alg) v n a).
Proof.
  unfold a_wake_blocked. generalize (omap id (take n (processes (core a)))). intros l. revert a.
  induction l as [|p l IH]; intros a; cbn; [done|]. etrans; [|apply IH].
  unfold a_wake_slot. case_decide; [apply frame_wake; keeps|done].
Qed.
Lemma machine_ok_receive dr a :
  machine_ok alg a → irq_ok (alg:=alg) (a_receive_data (alg:=alg) dr a) →
  machine_ok alg (a_receive_data (alg:=alg) dr a).
Proof.
  intros Hm Hok. unfold a_receive_data in *. case_match.
  - eapply machine_ok_frame; [|apply Hok|apply frame_wake_blocked].
    apply machine_ok_console; [done|apply stored_console|apply stored_pending, Hm].
  - apply machine_ok_console; [done|apply output_console|]. by destruct (mo_uart _ _ Hm).
Qed.
Lemma live_irq a : live alg a → irq_ok (alg:=alg) a.
Proof.
  intros Hl. pose proof Hl as [Hm _]. split; [apply Hm|apply Hm|by apply live_awake|apply Hm|].
  by apply live_filled.
Qed.
(** The invariant of the whole kernel along the receive loop. *)
Lemma wp_receive_all_machine received (Q : unit → kernel → Prop) s a :
  rep s a → irq_ok (alg:=alg) a → machine_ok alg a →
  (∀ s' a', rep s' a' → irq_ok (alg:=alg) a' → machine_ok alg a' → current a' = current a →
     state_of a' (current a) = state_of a (current a) → Q tt s') →
  wp (for_each received (receive_data alg)) Q s.
Proof.
  revert s a. induction received as [|dr l IH]; intros s a Hr Hok Hm HQ; cbn.
  - apply wp_ret. by eapply HQ.
  - apply wp_bind. eapply wp_receive_data; [exact Hr|done|]. intros s1 a1 Hr1 Hok1 Hc1 Hs1.
    eapply IH; [exact Hr1|exact Hok1|by apply machine_ok_receive|].
    intros s2 a2 Hr2 Hok2 Hm2 Hc2 Hs2. rewrite Hc1, Hs1 in *. by eapply HQ.
Qed.
Lemma wp_uart_good mis received late s a :
  rep s a → live alg a → wp (handle_uart_irq alg mis received late) (λ _, good alg) s.
Proof.
  intros Hr Hl. pose proof Hl as [Hm Hd].
  assert (Hend : ∀ s1 a1, rep s1 a1 → machine_ok alg a1 → dispatched a1 →
    wp (when (Z.testbit mis 6) (uart_put_bytes timeout_text;; for_each late echo_data)) (λ _, good alg) s1).
  { intros s1 a1 Hr1 Hm1 Hd1. apply wp_when. case_match; [|by exists a1].
    apply wp_bind. eapply wp_uart_put_bytes; [exact Hr1|]. intros s2 Hr2.
    eapply wp_echo_all; [exact Hr2|]. intros s3 Hr3. rewrite output_output in Hr3.
    eexists. split; [exact Hr3|]. split; [|exact Hd1].
    apply machine_ok_console; [done|apply output_console|]. by destruct (mo_uart _ _ Hm1). }
  unfold handle_uart_irq. apply wp_bind, wp_when. destruct (Z.testbit mis 4); [|by eapply Hend].
  eapply wp_receive_all_machine; [exact Hr|by apply live_irq|done|].
  intros s1 a1 Hr1 _ Hm1 Hc1 Hs1. eapply Hend; [exact Hr1|done|]. by eapply dispatched_frame.
Qed.
Lemma uart_good mis received late s a s' :
  rep s a → live alg a → handle_uart_irq alg mis received late s = Done tt s' → good alg s'.
Proof.
  intros Hr Hl Hs. pose proof (wp_uart_good mis received late s a Hr Hl) as H. unfold wp in H. by rewrite Hs in H.
Qed.

(** *** Process creation *)
Lemma fork_good ia rf clone_flags function argument r s a s' :
  alg_ok alg → rep s a → live alg a →
  copy_process alg ia rf clone_flags function argument s = Done r s' → good alg s'.
Proof.
  intros Hao Hr [Hm Hd] Hs.
  pose proof (wlp_copy_process (alg:=alg) (init_process_address:=ia) (ret_from_fork:=rf)
    clone_flags function argument s a Hao Hr Hm) as H.
  unfold wlp in H. rewrite Hs in H. destruct H as (a' & Hr' & Hm' & Hc & Hst & _).
  exists a'. split; [done|]. split; [done|]. rewrite Hc in Hst. by eapply dispatched_frame.
Qed.
End steps_keep.

Section calls_keep.
Context {alg : SchedAlgorithm}.
Implicit Types (a : astate) (p : pcb_ptr).

(** *** Messages *)

(** A message buffer is replaced by one that is well formed. *)
Lemma machine_ok_buffer b p a :
  machine_ok alg a → buffer_ok b → machine_ok alg (a_update p (set_messages_buffer b) a).
Proof.
  intros [Hok Hn Hd Hh Hu Hb] Hbo. split; [by apply kernel_ok_buffer|done|done| |by destruct Hu|].
  - intros address [x Hx]. apply Hh. rewrite pcb_at_update in Hx.
    case_decide; [|eauto]. destruct (pcb_at a _); [eauto|done].
  - intros p' Hp'. specialize (Hb p' Hp'). unfold buffer_of in *. rewrite pcb_at_update.
    case_decide; [|done]. by destruct (pcb_at a p').
Qed.
Lemma push_machine m p a :
  machine_ok alg a → registered a p → mb_head (buffer_of a p) < MAX_MESSAGES_PER_PROCESS →
  kernel_ok alg (a_push (alg:=alg) m p a) → machine_ok alg (a_push (alg:=alg) m p a).
Proof.
  intros Hm Hr Hh Hok. unfold a_push in *.
  assert (Hb : machine_ok alg (a_update p (set_messages_buffer (pushed m (buffer_of a p))) a)).
  { apply machine_ok_buffer; [done|]. apply pushed_contents; [by apply Hm|done]. }
  case_decide; [|done]. eapply machine_ok_frame; [exact Hb|done|apply frame_wake; keeps].
Qed.
Lemma push_frame m p a :
  p ≠ current a ∨ ¬ awaits_message a p →
  current (a_push (alg:=alg) m p a) = current a ∧
  state_of (a_push (alg:=alg) m p a) (current a) = state_of a (current a).
Proof.
  intros Hp. unfold a_push.
  assert (Hs : ∀ b, state_of (a_update p (set_messages_buffer b) a) (current a) = state_of a (current a)).
  { intros b. rewrite state_of_update. case_decide; [|done]. unfold state_of. subst.
    by destruct (pcb_at a (current a)). }
  case_decide as Hw; [|split; [done|apply Hs]].
  destruct (wake_ready_frame (alg:=alg) p
    (a_update p (set_messages_buffer (pushed m (buffer_of a p))) a) p) as (-> & _).
  split; [done|]. rewrite wake_ready_state, decide_False by naive_solver. apply Hs.
Qed.

(** Sending when the head of the buffer is at its end. *)
Lemma block_good v a s' :
  machine_ok alg a →
  decides (alg:=alg) (a_schedule alg) (a_update (current a) (set_state v) a) s' →
  kernel_ok alg (a_update (current a) (set_state v) a) → good alg s'.
Proof.
  intros Hm Hd Hok. eapply (good_decides (a_schedule alg)); [|apply frame_schedule|exact Hd].
  eapply machine_ok_frame; [exact Hm|exact Hok|]. apply frame_update; keeps.
Qed.

Lemma send_good uninitialised text r p s a s' :
  alg_ok alg → rep s a → machine_ok alg a → caller alg a → registered a p →
  send_message alg uninitialised (current a) p text s = Done r s' → good alg s'.
Proof.
  intros Hao Hr Hm Hcl Hreg Hs. pose proof Hcl as [Hok Hne Hrun].
  enough (H : wlp (send_message alg uninitialised (current a) p text) (λ _, good alg) s)
    by (unfold wlp in H; by rewrite Hs in H).
  clear Hs s' r. unfold send_message. apply wlp_bind, wp_wlp, wp_gets. rewrite (rep_current _ _ Hr).
  apply wlp_bind, wlp_defined. intros copied _. cbn zeta. set (m := Build_Message _ _ _).
  pose proof (mo_buffers _ _ Hm p Hreg) as Hb. pose proof Hb as (Hl & Ht & Hh).
  destruct (registered_pcb _ _ _ (ko_inv _ _ Hok) Hreg) as (pcb & Hp & _).
  destruct (rep_lookup _ _ _ _ Hr Hp) as (v & Hv & _).
  assert (Hbp : buffer_of a p = messages_buffer (set_next_ready v pcb)) by (unfold buffer_of; by rewrite Hp).
  destruct (decide (mb_head (buffer_of a p) = MAX_MESSAGES_PER_PROCESS)) as [Hfull|Hroom].
  - apply wlp_bind. destruct (decide (mb_tail (buffer_of a p) = 0)) as [H0|H0]; rewrite Hbp in *.
    + unfold wlp at 1. erewrite push_message_when_full by (exact Hv || done). cbn [Z.eqb].
      destruct (current_pcb _ Hok) as (x & Hx & _).
      apply wlp_bind, wp_wlp. eapply wp_update; [exact Hr|auto with kernel|exact Hx|]. intros s1 Hr1.
      assert (Hok1 : kernel_ok alg (a_update (current a) (set_state PROCESS_WAITING_TO_SEND_MESSAGE) a))
        by by apply (kernel_ok_block _ PROCESS_WAITING_TO_SEND_MESSAGE); [|auto with kernel|..].
      apply wp_wlp, wp_bind. eapply wp_mono; [by apply wp_schedule; [done|exact Hr1|]|].
      intros [] s2 Hd. apply wp_ret. by eapply block_good.
    + unfold wlp at 1. erewrite push_message_overrun; [done|exact Hv|done|done|lia].
  - apply wlp_bind, wp_wlp.
    assert (Haw : p = current a → ¬ awaits_message a p).
    { intros -> Hw. unfold awaits_message in Hw. by rewrite Hrun in Hw. }
    eapply (wp_push_message (alg:=alg)); [exact Hr|done|done|done|exact Haw|done|lia|].
    intros s1 Hr1 Hok1. apply wp_wlp, wp_ret.
    destruct (push_frame m p a) as [Hc Hst].
    { destruct (decide (p = current a)); [right; by apply Haw|by left]. }
    exists (a_push (alg:=alg) m p a). split; [exact Hr1|]. split.
    + apply push_machine; try done. lia.
    + left. by rewrite Hc, Hst.
Qed.

Lemma wlp_pop_message p m0 (Q : Z * Message → kernel → Prop) s a :
  rep s a → kernel_ok alg a → registered a p → buffer_ok (buffer_of a p) →
  (contents (buffer_of a p) = [] → Q (-1, m0) s) →
  (∀ s' m, contents (buffer_of a p) ≠ [] → rep s' (a_pop p a) → Q (0, m) s') →
  wlp (pop_message p m0) Q s.
Proof.
  intros Hr Hok Hreg Hb H0 H1.
  destruct (contents (buffer_of a p)) as [|m ms] eqn:Hc.
  { apply wp_wlp. eapply wp_pop_message; [done..|]. rewrite Hc. by apply H0. }
  destruct (strcpy (body m0) (body m)) as [text|] eqn:Ht.
  { apply wp_wlp. eapply wp_pop_message; [done..|]. rewrite Hc. exists text. split; [done|].
    intros s' Hr' _. by apply H1. }
  destruct (registered_pcb _ _ _ (ko_inv _ _ Hok) Hreg) as (pcb & Hp & _).
  destruct (rep_lookup _ _ _ _ Hr Hp) as (v & Hv & _).
  assert (Hbp : buffer_of a p = messages_buffer pcb) by (unfold buffer_of; by rewrite Hp).
  rewrite Hbp in *. pose proof (contents_length _ Hb) as Hlen. pose proof Hb as (Hl & Htl & Hh).
  rewrite Hc in Hlen. cbn [length] in Hlen. unfold MAX_MESSAGES_PER_PROCESS in *.
  destruct (lookup_lt_is_Some_2 (mb_buffer (messages_buffer pcb)) (Z.to_nat (mb_tail (messages_buffer pcb))))
    as [m' Hm']; [lia|].
  destruct (popped_contents _ _ Hb Hm') as [_ Hc']; [lia|]. rewrite Hc in Hc'. injection Hc' as <- _.
  unfold wlp, pop_message, mbind, M_bind, load. rewrite Hv. cbn zeta.
  change (messages_buffer (set_next_ready v pcb)) with (messages_buffer pcb).
  destruct (Z.eqb_spec (mb_head (messages_buffer pcb)) (mb_tail (messages_buffer pcb))); [lia|].
  rewrite arr_get_lookup, Hm' by lia. cbn [defined]. unfold mret, M_ret. by rewrite Ht.
Qed.

Lemma pop_machine p a :
  machine_ok alg a → registered a p → contents (buffer_of a p) ≠ [] → machine_ok alg (a_pop p a).
Proof.
  intros Hm Hr Hne. apply machine_ok_buffer; [done|]. pose proof (mo_buffers _ _ Hm p Hr) as Hb.
  pose proof (contents_length _ Hb) as Hlen. destruct (contents _) eqn:E; [done|]. cbn in Hlen.
  destruct Hb as (Hl & Ht & Hh). split_and!; [done|cbn; lia..].
Qed.

Lemma receive_good uninitialised destination r s a s' :
  alg_ok alg → rep s a → machine_ok alg a → caller alg a →
  receive_message alg uninitialised (current a) destination s = Done r s' → good alg s'.
Proof.
  intros Hao Hr Hm Hcl Hs. pose proof Hcl as [Hok Hne Hrun]. pose proof Hok as [Hi _].
  enough (H : wlp (receive_message alg uninitialised (current a) destination) (λ _, good alg) s)
    by (unfold wlp in H; by rewrite Hs in H).
  clear Hs s' r. unfold receive_message. apply wlp_bind.
  eapply wlp_pop_message; [exact Hr|done|apply Hi|apply Hm, Hi|..].
  - intros _. cbn [Z.eqb]. destruct (current_pcb _ Hok) as (x & Hx & _).
    apply wlp_bind, wp_wlp. eapply wp_update_current; [exact Hr|auto with kernel|exact Hx|]. intros s1 Hr1.
    assert (Hok1 : kernel_ok alg (a_update (current a) (set_state PROCESS_WAITING_TO_RECEIVE_MESSAGE) a))
      by by apply (kernel_ok_block _ PROCESS_WAITING_TO_RECEIVE_MESSAGE); [|auto with kernel|..].
    apply wp_wlp, wp_bind. eapply wp_mono; [by apply wp_schedule; [done|exact Hr1|]|].
    intros [] s2 Hd. apply wp_ret. by eapply block_good.
  - intros s1 m Hc Hr1. cbn [Z.eqb]. apply wlp_bind, wlp_defined. intros text _.
    apply wlp_bind.
    pose proof (pop_machine _ _ Hm (inv_current _ _ _ Hi) Hc) as Hm1.
    pose proof (pop_caller (alg:=alg) (current a) _ Hcl) as Hcl1. set (a1 := a_pop (current a) a) in *.
    set (n := Z.to_nat (n_processes (core a1))).
    pose proof (live_filled _ Hm1) as Hf. fold n in Hf.
    destruct (mo_count _ _ Hm1) as [Hn0 Hn1].
    assert (Hn : Z.of_nat n = n_processes (core a1)) by (unfold n; lia).
    destruct (decide (n = Z.to_nat N_PROCESSES)) as [Hfull|Hpart].
    + unfold process_slots. replace N_PROCESSES with (Z.of_nat n) by (rewrite Hfull; by vm_compute).
      apply wp_wlp. eapply (wp_wake_senders (alg:=alg)); [exact Hr1|done|done|].
      intros s2 Hr2 [Hok2 _ Hrun2] _. apply wp_wlp, wp_ret. eexists. split; [exact Hr2|].
      split; [|by left]. eapply machine_ok_frame; [exact Hm1|exact Hok2|apply frame_wake_blocked].
    + unfold wlp at 1. assert (n < Z.to_nat N_PROCESSES)%nat by (unfold N_PROCESSES in *; lia).
      erewrite wake_senders_undefined; [done|exact Hr1|done|done|done|].
      pose proof (mo_dense _ _ Hm1 n) as Hd. rewrite decide_False in Hd by lia. by apply Hd.
Qed.

(** *** The console *)
Lemma console_compose f g : console_only f → console_only g → console_only (λ k, f (g k)).
Proof.
  intros Hf Hg k. destruct (Hf (g k)) as (-> & -> & -> & -> & -> & ->). apply Hg.
Qed.
Lemma wlp_read_line fuel max_len l s a :
  rep s a → uart_ok (core a) →
  wlp (read_line fuel max_len l)
    (λ _ s', ∃ g, console_only g ∧ uart_ok (g (core a)) ∧ rep s' (a_core g a)) s.
Proof.
  revert l s a. induction fuel as [|fuel IH]; intros l s a Hr Hu; [done|]. cbn [read_line].
  apply wlp_bind, wp_wlp, wp_gets, wlp_bind, wp_wlp, wp_gets.
  rewrite (rep_field uart_tail s a), (rep_field uart_head s a) by done.
  destruct (_ =? _).
  { exists (λ k, k). split_and!; [done|done|]. destruct a. exact Hr. }
  apply wlp_bind, wp_wlp, wp_gets, wlp_bind, wlp_defined. intros c _.
  pose proof (uo_tail _ Hu) as Ht. rewrite Z.rem_mod_nonneg by (done || lia).
  apply wlp_bind, wp_wlp. eapply wp_modify_core; [exact Hr|done..|]. intros s1 Hr1.
  apply wlp_bind, wp_wlp. eapply wp_modify_core; [exact Hr1|done..|]. intros s2 Hr2.
  set (a2 := a_core _ _) in Hr2.
  assert (Hu2 : uart_ok (core a2)) by (destruct Hu; split; [done|done|by apply Z.mod_pos_bound]).
  assert (Hnext : ∀ l s' g, rep s' (a_core g a2) → console_only g → uart_ok (g (core a2)) →
    wlp (read_line fuel max_len l)
      (λ _ s', ∃ g, console_only g ∧ uart_ok (g (core a)) ∧ rep s' (a_core g a)) s').
  { intros l' s' g Hr' Hg Hug. eapply wlp_mono; [by eapply (IH l' s' (a_core g a2))|].
    intros _ s'' (g' & Hg' & Hu' & Hr'').
    exists (λ k, g' (g (set_uart_out (uart_out k ++ [u8 c])
      (set_uart_tail ((uart_tail (core a) + 1) `mod` UART_BUFFER_SIZE) k)))).
    split_and!; [|exact Hu'|exact Hr'']. apply (console_compose g'); [done|]. by apply (console_compose g). }
  assert (Hid : rep s2 (a_core (λ k, k) a2)) by exact Hr2.
  destruct (_ || _).
  { apply wlp_bind, wp_wlp. eapply wp_modify_core; [exact Hr2|done..|]. intros s3 Hr3.
    apply wlp_bind, wlp_defined. intros text _.
    eexists (λ k, set_uart_owner None (set_uart_out _ (set_uart_tail _ k))).
    split_and!; [done| |exact Hr3]. by destruct Hu2. }
  destruct (c =? DEL).
  { destruct (0 <? _); [|by eapply (Hnext _ _ (λ k, k))].
    apply wlp_bind, wp_wlp. eapply wp_uart_put_bytes; [exact Hr2|]. intros s3 Hr3.
    apply wlp_bind, wlp_defined. intros text _.
    eapply Hnext; [exact Hr3|apply output_console|by destruct Hu2]. }
  destruct (_ <? _); [|by eapply (Hnext _ _ (λ k, k))].
  apply wlp_bind, wlp_defined. intros text _. apply wlp_bind, wlp_defined. intros text' _.
  by eapply (Hnext _ _ (λ k, k)).
Qed.

(** Reading what is pending, then returning or going to sleep. *)
Lemma input_loop_good len l r s a s' :
  alg_ok alg → rep s a → machine_ok alg a → caller alg a →
  input_loop alg len l s = Done r s' → good alg s'.
Proof.
  intros Hao Hr Hm Hcl Hs. pose proof Hcl as [Hok Hne Hrun].
  enough (H : wlp (input_loop alg len l) (λ _, good alg) s) by (unfold wlp in H; by rewrite Hs in H).
  clear Hs s' r. unfold input_loop. apply wlp_bind.
  eapply wlp_mono; [apply wlp_read_line; [exact Hr|apply Hm]|].
  intros [finished l1] s1 (g & Hg & Hug & Hr1).
  pose proof (machine_ok_console g a Hm Hg Hug) as Hm1.
  assert (Hc1 : current (a_core g a) = current a) by by apply console_current.
  assert (Hs1 : state_of (a_core g a) (current a) = PROCESS_RUNNING)
    by (rewrite <- Hrun; by apply console_state).
  set (a1 := a_core g a) in *. destruct finished.
  { apply wp_wlp, wp_ret. exists a1. split; [done|]. split; [done|]. left. by rewrite Hc1. }
  pose proof (mo_ok _ _ Hm1) as Hok1. destruct (current_pcb _ Hok1) as (x & Hx & _).
  apply wlp_bind, wp_wlp. eapply wp_update_current; [exact Hr1|auto with kernel|exact Hx|]. intros s2 Hr2.
  assert (Hok2 : kernel_ok alg (a_update (current a1) (set_state PROCESS_WAITING_UART_INPUT) a1))
    by by apply (kernel_ok_block _ PROCESS_WAITING_UART_INPUT); [|auto with kernel|..].
  apply wp_wlp, wp_bind. eapply wp_mono; [by apply wp_schedule; [done|exact Hr2|]|].
  intros [] s3 Hd. apply wp_ret. by eapply block_good.
Qed.
Lemma input_good buffer len r s a s' :
  alg_ok alg → rep s a → machine_ok alg a → caller alg a →
  syscall_input alg buffer len s = Done r s' → good alg s'.
Proof.
  intros Hao Hr Hm Hcl Hs. pose proof Hcl as [Hok Hne Hrun].
  unfold syscall_input, mbind, M_bind, gets in Hs.
  destruct (bool_decide _).
  - assert (H : wp (schedule alg) (λ _, good alg) s).
    { eapply wp_mono; [by apply wp_schedule|]. intros [] s1 Hd.
      eapply (good_decides (a_schedule alg)); [exact Hm|apply frame_schedule|exact Hd]. }
    unfold wp in H. destruct (schedule alg s); [|done..]. by injection Hs as _ <-.
  - unfold modify in Hs.
    assert (Hm1 : machine_ok alg (a_core (set_uart_owner (Some (current_process s))) a))
      by (apply machine_ok_console; [done|apply owner_console|by destruct (mo_uart _ _ Hm)]).
    eapply (input_loop_good _ _ _ _ (a_core (set_uart_owner (Some (current_process s))) a));
      [done| |exact Hm1| |exact Hs].
    + assert (H : wp (modify (set_uart_owner (Some (current_process s))))
        (λ _ s', rep s' (a_core (set_uart_owner (Some (current_process s))) a)) s)
        by by eapply wp_modify_core. exact H.
    + split; [apply Hm1|done|exact Hrun].
Qed.
Lemma wlp_put_cstring (Q : unit → kernel → Prop) str s a :
  rep s a → (∀ s' l, rep s' (a_output l a) → Q tt s') → wlp (uart_put_cstring str) Q s.
Proof.
  intros Hr HQ. enough (H : ∀ l s, rep s (a_output l a) → wlp (uart_put_cstring str) Q s).
  { apply (H []). unfold a_output, a_core, set_uart_out. cbn. rewrite app_nil_r.
    by destruct a as [[] ?]. }
  clear s Hr. induction str as [|c str IH]; intros l s Hr; cbn [uart_put_cstring]; [done|].
  case_match; [by eapply wp_wlp, wp_ret, HQ|]. apply wlp_bind, wp_wlp.
  eapply wp_modify_core; [exact Hr|done..|]. intros s1 Hr1. eapply (IH (l ++ [u8 c])).
  unfold a_output, a_core, set_uart_out in *. cbn in *. by rewrite app_assoc.
Qed.
Lemma output_good l a s' : live alg a → rep s' (a_output l a) → good alg s'.
Proof.
  intros [Hm Hd] Hr. eexists. split; [exact Hr|]. split; [|exact Hd].
  apply machine_ok_console; [done|apply output_console|]. by destruct (mo_uart _ _ Hm).
Qed.

(** [/] where a shift is meant: no fault is ever served. *)
Lemma do_mem_abort_fails index address esr s :
  do_mem_abort index address esr s = Done (-1, index) s.
Proof.
  unfold do_mem_abort. destruct (Z.eqb_spec (Z.land esr 0x3f / 0x3c) 4) as [E|]; [|done].
  exfalso. assert (0 ≤ Z.land esr 0x3f < 64).
  { change 0x3f with (Z.ones 6). rewrite Z.land_ones by lia. by apply Z.mod_pos_bound. }
  assert (Z.land esr 0x3f / 0x3c ≤ 63 / 0x3c) by (apply Z.div_le_mono; lia).
  assert (63 / 0x3c = 1) by done. lia.
Qed.
End calls_keep.

Section invariant.
Context {alg : SchedAlgorithm} {init_process_address ret_from_fork : Z}.
Hypothesis algorithm : alg_ok alg.

Lemma wlp_good {A} (m : K A) s r s' :
  wlp m (λ _, good alg) s → m s = Done r s' → good alg s'.
Proof. intros H Hs. unfold wlp in H. by rewrite Hs in H. Qed.

Lemma send_call_good u process_id text r s a s' :
  rep s a → machine_ok alg a → caller alg a →
  syscall_send_message alg u process_id text s = Done r s' → good alg s'.
Proof.
  intros Hr Hm Hcl. apply wlp_good. unfold syscall_send_message. pose proof (cl_ok _ _ Hcl) as Hok.
  apply wlp_bind, wp_wlp. eapply wp_search_process; [exact Hr|done|].
  destruct (process_of a process_id) as [p|] eqn:Hp.
  2:{ apply wp_wlp, wp_ret. exists a. split; [done|]. split; [done|]. left. apply Hcl. }
  apply (process_of_registered _ _ _ _ (ko_inv _ _ Hok)) in Hp as [Hreg _].
  apply wlp_bind, wp_wlp, wp_gets. rewrite (rep_current _ _ Hr). unfold wlp.
  destruct (send_message _ _ _ _ _ _) eqn:E; [|done..]. by eapply send_good.
Qed.
Lemma receive_call_good u destination r s a s' :
  rep s a → machine_ok alg a → caller alg a →
  syscall_receive_message alg u destination s = Done r s' → good alg s'.
Proof.
  intros Hr Hm Hcl. apply wlp_good. unfold syscall_receive_message.
  apply wlp_bind, wp_wlp, wp_gets. rewrite (rep_current _ _ Hr). unfold wlp.
  destruct (receive_message _ _ _ _ _) eqn:E; [|done..]. by eapply receive_good.
Qed.
Lemma wait_good process_id r s a s' :
  rep s a → machine_ok alg a → caller alg a →
  syscall_wait alg process_id s = Done r s' → good alg s'.
Proof.
  intros Hr Hm Hcl. pose proof (cl_ok _ _ Hcl) as Hok. apply wlp_good, wp_wlp.
  eapply wp_mono; [by apply wp_syscall_wait|]. clear s' r. intros r s' H.
  assert (Hgood : s' = s → good alg s').
  { intros ->. exists a. split; [done|]. split; [done|]. left. apply Hcl. }
  unfold wait_post in H. destruct (process_of a process_id); [|by apply Hgood, H].
  case_decide; [by apply Hgood, H|]. destruct H as [_ Hd].
  refine (good_decides (a_schedule alg) (a_block_wait process_id a) s' _ (frame_schedule _) Hd).
  assert (Hok1 : kernel_ok alg (a_block_wait process_id a))
    by by apply (kernel_ok_block _ PROCESS_WAITING_ANOTHER_PROCESS).
  refine (machine_ok_frame alg a _ Hm Hok1 (frame_update _ _ a _)). keeps.
Qed.
Lemma signal_good process_id signal r s a s' :
  rep s a → live alg a → syscall_send_signal process_id signal s = Done r s' → good alg s'.
Proof.
  intros Hr Hl. apply wlp_good, wp_wlp.
  eapply (wp_syscall_send_signal (alg:=alg)); [exact Hr|apply Hl|].
  destruct (process_of a process_id) as [p|]; [|by exists a]. intros s1 Hr1 Hok1.
  eapply (good_quiet a); [done|exact Hr1|done|apply frame_update; keeps|done|].
  unfold a_signalled. rewrite state_of_update. case_decide; [|done].
  unfold state_of. by destruct (pcb_at a (current a)).
Qed.
Lemma set_param_state p param value a p' :
  state_of (a_set_param alg p param value a) p' = state_of a p'.
Proof.
  assert (Hu : ∀ f a, (∀ pcb, state (f pcb) = state pcb) →
    state_of (a_update p f a) p' = state_of a p').
  { intros f a0 Hf. rewrite state_of_update. case_decide; [|done]. unfold state_of.
    destruct (pcb_at a0 p'); [apply Hf|done]. }
  unfold a_set_param. case_match; [by apply Hu|]. case_match; [by apply Hu|]. cbn zeta.
  set (line := trace_line _ _ _ _). set (a2 := a_preempt (-1) _).
  assert (Hh : heap (core (a_trace alg line a2)) = heap (core a2)) by apply trace_frame.
  unfold state_of at 1, pcb_at. rewrite Hh.
  change (state_of a2 p' = state_of a p'). unfold a2. rewrite preempt_state.
  change (state_of (a_update p (set_queue_priority (clamp_level alg value)) (a_preempt 1 a)) p'
    = state_of a p'). rewrite Hu by done. apply preempt_state.
Qed.
Lemma set_param_good process_id param value r s a s' :
  rep s a → live alg a → syscall_set_sched_param alg process_id param value s = Done r s' →
  good alg s'.
Proof.
  intros Hr Hl. apply wlp_good, wp_wlp.
  eapply wp_syscall_set_sched_param; [done|exact Hr|apply Hl|].
  destruct (param_target _ _ _ _) as [p|]; [|by exists a]. intros s1 a1 Hr1 Hok1 Hc1.
  eapply (good_quiet a); [done|exact Hr1|done|apply frame_set_param|done|apply set_param_state].
Qed.
Lemma malloc_good r s a s' :
  rep s a → live alg a → syscall_malloc s = Done r s' → good alg s'.
Proof.
  intros Hr [Hm Hd]. apply wlp_good, wp_wlp. unfold syscall_malloc, allocate_kernel_page.
  apply wp_bind, wp_bind, wp_get_free_page. rewrite (rep_field mem s a) by done.
  destruct (free_index (mem (core a))) as [i|].
  - apply wp_ret, wp_ret. eexists. split; [apply (rep_mem (with_page i (mem (core a))) _ _ Hr)|].
    split; [|exact Hd]. apply machine_ok_mem; [done|]. cbn. set_solver.
  - apply wp_ret, wp_ret. by exists a.
Qed.
Lemma yield_good s a s' :
  rep s a → live alg a → syscall_yield alg s = Done tt s' → good alg s'.
Proof.
  intros Hr [Hm Hd]. apply wlp_good, wp_wlp.
  eapply wp_mono; [apply wp_syscall_yield; [done|exact Hr|apply Hm]|]. intros [] s1 Hd1.
  eapply (good_decides a_yield); [exact Hm| |exact Hd1].
  etrans; [|apply frame_schedule]. apply frame_update; keeps.
Qed.
Lemma exit_good s a s' :
  rep s a → live alg a → syscall_exit alg s = Done tt s' → good alg s'.
Proof.
  intros Hr [Hm Hd]. apply wlp_good, wp_wlp.
  eapply wp_mono; [apply wp_exit_process; [done|exact Hr|apply Hm]|]. intros [] s1 Hd1.
  eapply (good_decides (a_exit alg)); [exact Hm|apply frame_exit|exact Hd1].
Qed.

Lemma system_call_good s s' :
  good alg s → current_process s ≠ InitProcess →
  system_call alg init_process_address ret_from_fork s s' → good alg s'.
Proof.
  intros (a & Hr & Hl) Hu Hcall. pose proof Hl as [Hm Hd].
  rewrite (rep_current _ _ Hr) in Hu. pose proof (live_caller _ Hl Hu) as Hcl.
  destruct Hcall.
  - by eapply yield_good.
  - by eapply exit_good.
  - by eapply wait_good.
  - by eapply send_call_good.
  - by eapply receive_call_good.
  - by eapply signal_good.
  - by eapply set_param_good.
  - by eapply input_good.
  - by eapply input_loop_good.
  - unfold syscall_fork in H. by eapply fork_good.
  - by eapply malloc_good.
  - eapply wlp_good; [|exact H]. eapply wlp_put_cstring; [exact Hr|]. intros. by eapply output_good.
  - eapply wlp_good; [|exact H]. apply wp_wlp. eapply wp_uart_hex; [exact Hr|].
    intros. by eapply output_good.
  - eapply wlp_good; [|exact H]. apply wp_wlp.
    eapply wp_syscall_get_pid; [exact Hr|apply Hcl|]. by exists a.
  - eapply wlp_good; [|exact H]. apply wp_wlp. unfold syscall_get_time, read_timer_clo.
    apply wp_bind, wp_gets, wp_bind. eapply wp_modify_core; [exact Hr|done..|].
    intros s1 Hr1. apply wp_ret. eexists. split; [exact Hr1|]. split; [|exact Hd].
    apply machine_ok_console; [done|done|by destruct (mo_uart _ _ Hm)].
  - rewrite do_mem_abort_fails in H. injection H as _ <-. by exists a.
Qed.

Lemma step_good s s' :
  good alg s → step alg init_process_address ret_from_fork s s' → good alg s'.
Proof.
  intros Hg Hs. destruct Hs as [? ? H|? ? ? ? ? H|? ? ? ? ? H|? ? Hu H]; [| | |eapply system_call_good; [exact Hg|exact Hu|exact H]];
    destruct Hg as (a & Hr & Hl).
  - by eapply tick_good.
  - by eapply uart_good.
  - by eapply fork_good.
Qed.
End invariant.

(** ** The boot state *)
Definition boot_state (clo : nat → Z) : astate :=
  {| core := boot_kernel clo; queues := λ _, [] |}.

Section boot.
Context {alg : SchedAlgorithm} {clo : nat → Z}.

Lemma boot_pcb p : pcb_at (boot_state clo) p = if decide (p = InitProcess) then Some INIT_PROCESS else None.
Proof.
  unfold pcb_at. cbn. case_decide as Hp; [by subst|]. by apply lookup_singleton_ne.
Qed.
Lemma boot_registered p : registered (boot_state clo) p ↔ p = InitProcess.
Proof.
  unfold registered. cbn [core boot_state boot_kernel processes]. rewrite elem_of_cons. split.
  - intros [[= ->]|[H _]%elem_of_replicate]; [done|done].
  - intros ->. by left.
Qed.
Lemma boot_rep : rep (boot_kernel clo) (boot_state clo).
Proof.
  split.
  - unfold erase. cbn. rewrite map_fmap_singleton. done.
  - done.
  - intros [|i] Hq.
    + exists QUEUE_INIT. done.
    + exists QUEUE_INIT. split; [|done]. cbn in Hq |- *. rewrite arr_get_lookup by lia.
      apply lookup_replicate. unfold ML_MAX_LEVELS in *. split; [done|lia].
  - intros q _. constructor.
  - intros q1 q2 p _ _ H. by apply elem_of_nil in H.
Qed.
Lemma boot_kernel_ok : kernel_ok alg (boot_state clo).
Proof.
  split; [|by intros q _ H%elem_of_nil]. split.
  - done.
  - done.
  - apply (Forall_replicate _ 64). done.
  - by apply boot_registered.
  - by apply boot_registered.
  - intros i p Hp. cbn [core boot_state boot_kernel processes] in Hp.
    destruct i as [|i]; cbn in Hp; [injection Hp as <-|].
    + exists INIT_PROCESS. by rewrite boot_pcb.
    + exfalso. assert (Hr : registered (boot_state clo) p).
      { unfold registered. by eapply (list_elem_of_lookup_2 _ (S i)). }
      apply boot_registered in Hr. subst p.
      by apply lookup_replicate in Hp as [? _].
  - intros p ->%boot_registered H. done.
  - intros q p _ H. by apply elem_of_nil in H.
  - intros p ->%boot_registered H. done.
  - intros p ->%boot_registered _. done.
  - intros q _. constructor.
  - intros q1 q2 p _ _ H. by apply elem_of_nil in H.
Qed.
Lemma boot_live : live alg (boot_state clo).
Proof.
  split; [|by right]. split.
  - apply boot_kernel_ok.
  - done.
  - intros i Hi. cbn [core boot_state boot_kernel processes n_processes].
    change (Z.to_nat 1) with 1%nat. case_decide as Hd.
    + assert (i = 0%nat) as -> by lia. by exists InitProcess.
    + destruct i as [|i]; [lia|]. cbn. change (replicate 63 None !! i = Some (@None pcb_ptr)).
      apply lookup_replicate. split; [done|]. unfold N_PROCESSES in Hi. lia.
  - intros address [x Hx]. by rewrite boot_pcb in Hx.
  - split; done.
  - intros p ->%boot_registered. unfold buffer_of. rewrite boot_pcb. done.
Qed.
Lemma boot_good : good alg (boot_kernel clo).
Proof. exists (boot_state clo). split; [apply boot_rep|apply boot_live]. Qed.
End boot.
