(* ===== verification/Demo.v ===== *)
(** * Sample kernels

    Concrete kernel states for the examples that accompany the theorems: the boot
    state, the same with READY processes in the queues of an algorithm, and with one of
    them on the CPU.  They are reached by the operations of the model. *)
From S2P Require Import Prelude.
From S2P Require Import Process.
From S2P Require Import ReadyQueue.
From S2P Require Import Scheduler.
From S2P Require Import SchedSpec.
From S2P Require Import SchedInv.
From S2P Require Import SchedDispatch.
From S2P Require Import SchedPick.
From S2P Require Import SchedAging.
From S2P Require Import SchedLottery.
From S2P Require Import SchedTick.
From S2P Require Import SchedOps.
From S2P Require Import SchedParam.
From S2P Require Import Ipc.
From S2P Require Import Mm.
From S2P Require Import Uart.
From S2P Require Import Fork.
From S2P Require Import Frame.
From S2P Require Import System.
Local Open Scope Z_scope.

(** The state a computation ends in. *)
Definition after {A} (m : K A) (s : kernel) : kernel :=
  match m s with Done _ s' => s' | _ => s end.
Lemma wp_after {A} (m : K A) (Q : kernel → Prop) s : wp m (λ _, Q) s → Q (after m s).
Proof. unfold wp, after. by destruct (m s). Qed.

Definition page_ptr (i : Z) : pcb_ptr := KernelPage (page_address i + VA_START).

(** A process with the PCB [f zero_PCB] in page [i]. *)
Definition take_page (i : Z) (k : kernel) : kernel :=
  set_mem {| memory_pages := memory_pages (mem k) ∪ {[i]}; words := words (mem k) |} k.
Definition spawn (alg : SchedAlgorithm) (i : Z) (f : PCB → PCB) : K Z :=
  modify (take_page i);;
  new_pcb (page_address i + VA_START);;
  update (page_ptr i) f;;
  add_process_to_scheduler alg (page_ptr i).
Definition a_prepared (i : Z) (f : PCB → PCB) (a : astate) : astate :=
  a_update (page_ptr i) f
    (a_core (λ k, set_heap (<[page_ptr i := zero_PCB]> (heap k)) k) (a_core (take_page i) a)).
Definition a_spawn (alg : SchedAlgorithm) (i : Z) (f : PCB → PCB) (a : astate) : astate :=
  a_register alg (page_ptr i) (a_prepared i f a).

Section spawn.
Context {alg : SchedAlgorithm}.
Implicit Types (a : astate).

(** The PCB a process is spawned with. *)
Record spawnable (a : astate) (i : Z) (f : PCB → PCB) : Prop := {
  sp_links : link_free f;
  sp_messages : keeps_messages f;
  sp_new : pcb_at a (page_ptr i) = None;
  sp_pid : pid (f zero_PCB) = n_processes (core a);
  sp_room : n_processes (core a) < N_PROCESSES;
  sp_state : state (f zero_PCB) = PROCESS_READY;
  sp_priority : 1 ≤ priority (f zero_PCB);
  sp_counter : 0 ≤ counter (f zero_PCB)
}.

Lemma prepared_facts i f a :
  spawnable a i f → machine_ok alg a →
  let a0 := a_core (take_page i) a in
  machine_ok alg a0 ∧ prepares (page_ptr i) a0 (a_prepared i f a) ∧ ¬ registered a0 (page_ptr i) ∧
  registrable (a_prepared i f a) (page_ptr i) (f zero_PCB).
Proof.
  intros [Hl Hm Hn Hp Hr Hs Hpr Hc] Hmo. cbn zeta. set (a0 := a_core (take_page i) a).
  assert (Hmo0 : machine_ok alg a0).
  { refine (machine_ok_mem {| memory_pages := _; words := words (mem (core a)) |} a Hmo _).
    cbn. set_solver. }
  pose proof (mo_ok _ _ Hmo0) as Hok0. pose proof (ko_inv _ _ Hok0) as Hi0.
  pose proof (prepares_new_pcb (page_address i + VA_START) a0) as Hpr1.
  set (a1 := a_core _ a0) in Hpr1.
  assert (Hpr2 : prepares (page_ptr i) a0 (a_update (page_ptr i) f a1)).
  { eapply prepares_trans; [exact Hpr1|]. apply prepares_update; [apply Hpr1|done]. }
  assert (Hnr : ¬ registered a0 (page_ptr i)).
  { intros Hreg. destruct (registered_pcb _ _ _ Hi0 Hreg) as (x & Hx & _).
    change (pcb_at a (page_ptr i) = Some x) in Hx. congruence. }
  destruct (mo_count _ _ Hmo) as [H0 _].
  split_and!; [done|exact Hpr2|done|]. split; try done.
  - apply pcb_at_update_eq. unfold a1, pcb_at, page_ptr. cbn. by rewrite lookup_insert_eq.
  - intros q Hq Hin. apply Hnr. by destruct (inv_queued _ _ _ Hi0 q (page_ptr i) Hq Hin) as (_ & _ & ? & _).
  - rewrite Hp. lia.
  - rewrite Hp. pose proof (mo_dense _ _ Hmo (Z.to_nat (n_processes (core a)))) as Hd.
    rewrite decide_False in Hd by lia. apply Hd. unfold N_PROCESSES in *. lia.
  - by rewrite Hs.
Qed.

Lemma wp_spawn i f (Q : Z → kernel → Prop) s a :
  alg_ok alg → rep s a → live alg a → spawnable a i f →
  (∀ s', rep s' (a_spawn alg i f a) → live alg (a_spawn alg i f a) → Q 0 s') →
  wp (spawn alg i f) Q s.
Proof.
  intros Hao Hr [Hmo Hd] Hsp HQ. pose proof (prepared_facts _ _ _ Hsp Hmo) as (Hmo0 & Hpr & Hnr & Hrg).
  unfold spawn. apply wp_bind. eapply wp_modify_core; [exact Hr|done..|]. intros s1 Hr1.
  set (a0 := a_core (take_page i) a) in *.
  apply wp_bind. unfold new_pcb. apply wp_modify.
  pose proof (rep_new_pcb (page_address i + VA_START) _ _ Hr1 (sp_new _ _ _ Hsp)) as Hr2.
  set (s2 := set_heap _ s1) in *. set (a1 := a_core _ a0) in Hr2.
  apply wp_bind. eapply wp_update; [exact Hr2|apply Hsp| |].
  { unfold a1, pcb_at, page_ptr. cbn. by rewrite lookup_insert_eq. }
  intros s3 Hr3. pose proof (prepares_kernel_ok _ _ _ (mo_ok _ _ Hmo0) Hnr Hpr) as Hok.
  eapply (wp_add_process_to_scheduler (alg:=alg)); [done|exact Hr3|exact Hok|exact Hrg| |].
  { destruct (prepares_frame _ _ _ Hpr) as (_ & _ & Hn & _).
    change (n_processes (core (a_prepared i f a)) < N_PROCESSES). rewrite Hn. apply Hsp. }
  intros s4 Hr4 Hok4. apply HQ; [exact Hr4|].
  assert (Hp : pid (f zero_PCB) = n_processes (core a0)) by apply Hsp.
  assert (Hz : messages_buffer (f zero_PCB) = zero_messages_buffer) by by rewrite (sp_messages _ _ _ Hsp).
  destruct (registered_child_table (alg:=alg) (page_ptr i) a0 (a_prepared i f a) (f zero_PCB)
    Hmo0 Hpr Hrg Hp (sp_state _ _ _ Hsp) (sp_room _ _ _ Hsp)) as (_ & _ & _ & Hc & _ & _ & Ho).
  split.
  - eapply (registered_child_ok (page_ptr i) a0 _ (f zero_PCB)); try done; [apply Hsp|apply Hsp|].
    intros address [= <-]. exists i. split; [|done]. cbn. set_solver.
  - eapply dispatched_frame; [exact Hc| |exact Hd]. unfold state_of, a_spawn. rewrite Ho; [done|].
    intros E. apply Hnr. rewrite <- E. apply (inv_current _ _ _ (ko_inv _ _ (mo_ok _ _ Hmo0))).
Qed.
End spawn.

(** ** Two READY processes

    Process 1 has the lower priority, more tickets and the lower queue level; process 2
    has the shorter burst. *)
Definition sample (id prio n level slice burst : Z) (pcb : PCB) : PCB :=
  {| pcb with state := PROCESS_READY; counter := slice; priority := prio; est_burst := burst;
              queue_priority := level; tickets := n; preempt_disabled := 1; pid := id |}.
Definition first_sample : PCB → PCB := sample 1 2 3 1 5 7.
Definition second_sample : PCB → PCB := sample 2 9 1 0 4 3.
Definition P1 : pcb_ptr := page_ptr 0.
Definition P2 : pcb_ptr := page_ptr 1.

Definition demo_boot : kernel := boot_kernel (λ _, 0).
Definition demo_ready (alg : SchedAlgorithm) : kernel :=
  after (spawn alg 1 second_sample) (after (spawn alg 0 first_sample) demo_boot).
Definition demo_ready_state (alg : SchedAlgorithm) : astate :=
  a_spawn alg 1 second_sample (a_spawn alg 0 first_sample (boot_state (λ _, 0))).
(** One of them on the CPU. *)
Definition demo_running (alg : SchedAlgorithm) : kernel := after (_schedule alg) (demo_ready alg).
Definition demo_running_state (alg : SchedAlgorithm) : astate := a_decide alg (demo_ready_state alg).

Lemma alg_ok_all alg : alg ∈ all_algorithms → alg_ok alg.
Proof. intros H. exact (proj1 (Forall_forall _ _) all_algorithms_ok alg H). Qed.

Ltac each_algorithm H :=
  unfold all_algorithms in H;
  repeat (apply elem_of_cons in H as [->|H]; [|]); [..|by apply elem_of_nil in H].

Lemma demo_ready_ok alg :
  alg ∈ all_algorithms →
  rep (demo_ready alg) (demo_ready_state alg) ∧ live alg (demo_ready_state alg).
Proof.
  intros Hin. pose proof (alg_ok_all _ Hin) as Hao.
  assert (H1 : rep (after (spawn alg 0 first_sample) demo_boot) (a_spawn alg 0 first_sample (boot_state (λ _, 0)))
    ∧ live alg (a_spawn alg 0 first_sample (boot_state (λ _, 0)))).
  { apply (wp_after (spawn alg 0 first_sample) (λ s, rep s _ ∧ live alg _)).
    eapply (wp_spawn (alg:=alg)); [done|apply boot_rep|apply boot_live| |done].
    by split. }
  destruct H1 as [Hr1 Hl1].
  apply (wp_after (spawn alg 1 second_sample) (λ s, rep s _ ∧ live alg _)).
  eapply (wp_spawn (alg:=alg)); [done|exact Hr1|exact Hl1| |done].
  split; try done; clear Hr1 Hl1 Hao; each_algorithm Hin; vm_compute; done.
Qed.

Lemma demo_running_ok alg :
  alg ∈ all_algorithms →
  rep (demo_running alg) (demo_running_state alg) ∧ live alg (demo_running_state alg).
Proof.
  intros Hin. destruct (demo_ready_ok alg Hin) as [Hr [Hm Hd]]. pose proof (alg_ok_all _ Hin) as Hao.
  apply (wp_after (_schedule alg) (λ s, rep s _ ∧ live alg _)).
  eapply wp_mono; [apply wp__schedule; [done|exact Hr|]|].
  - apply kernel_ok_decidable; [apply Hm|]. unfold settled. clear -Hin. each_algorithm Hin; vm_compute; done.
  - intros [] s' (Hr' & Hds & Hrun). split; [exact Hr'|]. split; [|by left].
    eapply machine_ok_frame; [exact Hm|by apply decidable_kernel_ok|apply frame_decide].
Qed.
