(* ===== verification/FatNames.v ===== *)
(** * FAT32: bytes, names, time stamps and the boot records

    The parts of src/libs/fat32/fat.c that compute on bytes: little-endian fields,
    paths, short (8.3) and long file names with their checksum, time stamps, and the
    checks made on the master boot record and the BIOS parameter block. *)
From S2P Require Import Prelude.
From S2P Require Import CString.
Local Open Scope Z_scope.

(** ** Little-endian fields of a byte buffer *)
Fixpoint le_value (l : list Z) : Z :=
  match l with [] => 0 | b :: l' => b + 256 * le_value l' end.
Fixpoint le_bytes (n : nat) (v : Z) : list Z :=
  match n with O => [] | S n' => v mod 256 :: le_bytes n' (v / 256) end.
(** The packed field of [n] bytes at offset [off]. *)
Definition get_le (n off : nat) (buf : list Z) : Z := le_value (take n (drop off buf)).
Definition set_bytes (off : nat) (bytes buf : list Z) : list Z :=
  take off buf ++ bytes ++ drop (off + length bytes) buf.
Definition set_le (n off : nat) (v : Z) (buf : list Z) : list Z := set_bytes off (le_bytes n v) buf.

(** ** Characters and paths *)
Definition SLASH : Z := 47.
Definition DOT : Z := 46.
Definition UNDERSCORE : Z := 95.

Definition to_upper (c : Z) : Z :=
  if (97 <=? c) && (c <=? 122) then Z.land c (Z.lnot 0x20) else c.

(** [for (i = 0; path[i] && path[i] != '/'; i++);]: [None] when the string has no end. *)
Fixpoint subpath_len (path : list Z) : option Z :=
  match path with
  | [] => None
  | c :: path' =>
      if (c =? NUL) || (c =? SLASH) then Some 0
      else n ← subpath_len path'; Some (n + 1)
  end.
(** [while ( *path == '/') path++;] *)
Fixpoint skip_slashes (path : list Z) : list Z :=
  match path with
  | c :: path' => if c =? SLASH then skip_slashes path' else path
  | [] => []
  end.
Definition last_subpath_len (path : list Z) : option Z :=
  len ← subpath_len path;
  if len =? 0 then Some 0 else
  match skip_slashes (drop (Z.to_nat len) path) with
  | [] => None
  | c :: _ => Some (if c =? NUL then len else 0)
  end.

(** ** Short names *)
Definition SFN_FREE : Z := 0xe5.
Definition SFN_LAST : Z := 0.
Definition SFN_PAD : Z := 0x20.

Definition get_crc (name : list Z) : Z :=
  foldl (λ sum c, u8 (Z.shiftl (Z.land sum 1) 7 + Z.shiftr sum 1 + c)) 0 (take 11 name).

(** ["!#$%&'()-@^_`{}~ "] *)
Definition special_chars : list Z :=
  [33; 35; 36; 37; 38; 39; 40; 41; 45; 64; 94; 95; 96; 123; 125; 126; 32].
Definition sfn_char (c : Z) : Z :=
  let c := to_upper c in
  if (65 <=? c) && (c <=? 90) then c
  else if bool_decide (c ∈ special_chars) then c else UNDERSCORE.

(** The longest prefix without [stop]. *)
Fixpoint until (stop : Z) (l : list Z) : list Z :=
  match l with
  | c :: l' => if c =? stop then [] else c :: until stop l'
  | [] => []
  end.
(** [while (i < len && name[i++] != '.');] *)
Fixpoint after_dot (l : list Z) : list Z :=
  match l with
  | c :: l' => if c =? DOT then l' else after_dot l'
  | [] => []
  end.
Definition padded (n : nat) (l : list Z) : list Z := l ++ replicate (n - length l) SFN_PAD.
(** [name] is the [len] bytes of the name. *)
Definition put_sfn_name (name : list Z) : list Z :=
  let base := until DOT (take 8 name) in
  let ext := take 3 (after_dot (drop (length base) name)) in
  padded 8 (sfn_char <$> base) ++ padded 3 (sfn_char <$> ext).
(** What ends up in [g_buf[0 .. g_len - 1]]. *)
Definition parse_sfn_name (sfn_name : list Z) : list Z :=
  let ext := take 3 (drop 8 sfn_name) in
  until SFN_PAD (take 8 sfn_name) ++
  (if default SFN_PAD (head ext) =? SFN_PAD then [] else [DOT]) ++ until SFN_PAD ext.

(** ** Long names *)
Definition LFN_HEAD_MSK : Z := 0x40.
Definition LFN_SEQ_MSK : Z := 0x1f.
Definition FAT_ATTR_LFN : Z := 0x0f.
Definition FAT_ERR_BROKEN : Z := -2.
Definition g_lfn_indices : list nat := [1; 3; 5; 7; 9; 14; 16; 18; 20; 22; 24; 28; 30]%nat.

(** The two bytes of the characters, in the places [indices] of the entry: the
    character and a zero byte, once a zero word, then all ones. *)
Fixpoint put_chars (indices : list nat) (chars : list Z) (terminated : bool) (raw : list Z) : list Z :=
  match indices with
  | [] => raw
  | i :: indices' =>
      match chars with
      | c :: chars' => put_chars indices' chars' terminated (<[S i := 0]> (<[i := c]> raw))
      | [] =>
          let v := if terminated then 0xff else 0 in
          put_chars indices' [] true (<[S i := v]> (<[i := v]> raw))
      end
  end.
Definition put_lfn_name_frag (raw name : list Z) : list Z := put_chars g_lfn_indices name false raw.

(** One entry of a long name as [dir_add] writes it. *)
Definition lfn_entry (mask i crc : Z) (frag raw : list Z) : list Z :=
  let raw := put_lfn_name_frag raw frag in
  let raw := <[11%nat := FAT_ATTR_LFN]> raw in
  let raw := <[0%nat := Z.lor mask i]> raw in
  let raw := <[13%nat := crc]> raw in
  let raw := <[12%nat := 0]> raw in
  set_le 2 26 0 raw.
(** One entry as [parse_lfn_name] reads it: the characters up to the first zero. *)
Fixpoint get_chars (indices : list nat) (raw : list Z) : option (list Z) :=
  match indices with
  | [] => Some []
  | i :: indices' =>
      let c := default 0 (raw !! i) in
      if c =? 0xff then None
      else if c =? 0 then Some []
      else l ← get_chars indices' raw; Some (c :: l)
  end.
Definition parse_lfn_entry (crc : Z) (raw : list Z) : option (list Z) :=
  if negb (default 0 (raw !! 11%nat) =? FAT_ATTR_LFN) || negb (default 0 (raw !! 13%nat) =? crc)
  then None else get_chars g_lfn_indices raw.

(** *** A whole long name

    [dir_add] writes the fragments last to first, the first of them with the head
    mask; [parse_lfn_name] puts the one it reads when [cnt] are left at [13 * cnt]. *)
Definition lfn_count (len : Z) : Z := (len + 12) / 13.
Fixpoint lfn_entries (n : nat) (mask crc : Z) (name : list Z) (raws : list (list Z)) :
    list (list Z) :=
  match n, raws with
  | S n', raw :: raws' =>
      lfn_entry mask (Z.of_nat n) crc (take 13 (drop (13 * n') name)) raw
        :: lfn_entries n' 0 crc name raws'
  | _, _ => []
  end.
(** [g_buf] and [g_len] after the entries; [entries] are read one after the other. *)
Fixpoint read_lfn (cnt : nat) (crc : Z) (entries : list (list Z)) (gbuf : list Z) (glen : Z) :
    option (list Z * Z) :=
  match cnt with
  | O => if glen <=? 255 then Some (gbuf, glen) else None
  | S cnt' =>
      match entries with
      | raw :: entries' =>
          frag ← parse_lfn_entry crc raw;
          read_lfn cnt' crc entries' (set_bytes (13 * cnt') frag gbuf)
            (glen + Z.of_nat (length frag))
      | [] => None
      end
  end.
Definition parse_lfn (entries : list (list Z)) (gbuf : list Z) : option (list Z * Z) :=
  raw ← head entries;
  let seq := default 0 (raw !! 0%nat) in
  if Z.land seq LFN_HEAD_MSK =? 0 then None else
  let cnt := Z.land seq LFN_SEQ_MSK in
  if 20 <? cnt then None else
  read_lfn (Z.to_nat cnt) (default 0 (raw !! 13%nat)) entries gbuf 0.

(** ** Time stamps *)
Record Timestamp := { hour : Z; min : Z; sec : Z; day : Z; month : Z; year : Z }.
Definition decode_timestamp (date time : Z) : Timestamp :=
  {| day := Z.land date 0x1f;
     month := Z.land (Z.shiftr date 5) 0xf;
     year := Z.land (Z.shiftr date 9) 0x3f + 1980;
     hour := Z.land (Z.shiftr time 11) 0x1f;
     min := Z.land (Z.shiftr time 5) 0x3f;
     sec := 2 * Z.land time 0x1f |}.
(** The default (weak) clock. *)
Definition fat_get_timestamp : Timestamp :=
  {| day := 1; month := 1; year := 1980; hour := 0; min := 0; sec := 0 |}.
(** [encode_timestamp] for the time [ts] the clock returns: the date and the time. *)
Definition encode_timestamp (ts : Timestamp) : Z * Z :=
  (u16 (Z.lor (Z.lor (Z.shiftl (Z.land (year ts - 1980) 0x3f) 9) (Z.shiftl (Z.land (month ts) 0xf) 5))
          (Z.land (day ts) 0x1f)),
   u16 (Z.lor (Z.lor (Z.land (Z.quot (sec ts) 2) 0x1f) (Z.shiftl (Z.land (min ts) 0x3f) 5))
          (Z.shiftl (Z.land (hour ts) 0x1f) 11))).

(** ** Boot records *)
Definition MBR_PART_OFF : nat := 446.
Definition EXT_FLAG_MIRROR : Z := Z.shiftl 1 7.
Definition EXT_FLAG_ACT : Z := 0x000f.
Definition EXT_FLAG_SECOND : Z := 0x0001.

(** The start of a FAT32 partition of an MBR. *)
Definition get_part_lba (buf : list Z) (partition : nat) : option Z :=
  let entry := (MBR_PART_OFF + 16 * partition)%nat in
  if negb (get_le 2 510 buf =? 0xaa55) then None
  else if negb (get_le 1 (entry + 4) buf =? 0x0c) then None
  else Some (get_le 4 (entry + 8) buf).

Record Bpb := {
  jump0 : Z; bytes_per_sect : Z; sect_per_clust : Z; res_sect_cnt : Z; fat_cnt : Z;
  root_ent_cnt : Z; sect_cnt_16 : Z; sect_per_fat_16 : Z; sect_cnt_32 : Z;
  sect_per_fat_32 : Z; ext_flags : Z; root_cluster : Z; bpb_info_sect : Z; fs_type : list Z
}.
Definition read_bpb (buf : list Z) : Bpb :=
  {| jump0 := get_le 1 0 buf; bytes_per_sect := get_le 2 11 buf; sect_per_clust := get_le 1 13 buf;
     res_sect_cnt := get_le 2 14 buf; fat_cnt := get_le 1 16 buf; root_ent_cnt := get_le 2 17 buf;
     sect_cnt_16 := get_le 2 19 buf; sect_per_fat_16 := get_le 2 22 buf;
     sect_cnt_32 := get_le 4 32 buf; sect_per_fat_32 := get_le 4 36 buf; ext_flags := get_le 2 40 buf;
     root_cluster := get_le 4 44 buf; bpb_info_sect := get_le 2 48 buf;
     fs_type := take 8 (drop 82 buf) |}.
(** ["FAT32   "] *)
Definition fat32_type : list Z := [70; 65; 84; 51; 50; 32; 32; 32].
(** The last division faults on this machine only for a zero divisor, which gives 0. *)
Definition check_fat (buf : list Z) : bool :=
  let bpb := read_bpb buf in
  if negb (jump0 bpb =? 0xeb) && negb (jump0 bpb =? 0xe9) then false
  else if negb (fat_cnt bpb =? 2) then false
  else if negb (root_ent_cnt bpb =? 0) || negb (sect_cnt_16 bpb =? 0) || negb (sect_per_fat_16 bpb =? 0)
  then false
  else if negb (bpb_info_sect bpb =? 1) then false
  else if negb (bool_decide (fs_type bpb = fat32_type)) then false
  else if negb (bytes_per_sect bpb =? 512) then false
  else if (Z.land (ext_flags bpb) EXT_FLAG_MIRROR =? 0) && (1 <? Z.land (ext_flags bpb) EXT_FLAG_ACT)
  then false
  else
    let sect_cnt := u32 (sect_cnt_32 bpb - (res_sect_cnt bpb + fat_cnt bpb * sect_per_fat_32 bpb)) in
    65525 <=? sect_cnt / sect_per_clust bpb.

(** ** Reading back what was written *)
Lemma le_bytes_length n v : length (le_bytes n v) = n.
Proof. revert v. induction n as [|n IH]; intros v; cbn; [done|by rewrite IH]. Qed.
Lemma le_bytes_range n v : Forall byte_range (le_bytes n v).
Proof.
  revert v. induction n as [|n IH]; intros v; cbn; constructor; [|done].
  by apply Z.mod_pos_bound.
Qed.
Lemma le_value_bytes n v : le_value (le_bytes n v) = v mod 256 ^ Z.of_nat n.
Proof.
  revert v. induction n as [|n IH]; intros v; cbn [le_bytes le_value]; [by rewrite Z.mod_1_r|].
  rewrite IH, Nat2Z.inj_succ, Z.pow_succ_r, Z.rem_mul_r by lia. done.
Qed.
Lemma set_bytes_length off bytes buf :
  (off + length bytes ≤ length buf)%nat → length (set_bytes off bytes buf) = length buf.
Proof. intros H. unfold set_bytes. rewrite !length_app, length_take, length_drop. lia. Qed.
Lemma set_bytes_inside off bytes buf :
  (off + length bytes ≤ length buf)%nat →
  take (length bytes) (drop off (set_bytes off bytes buf)) = bytes.
Proof.
  intros H. unfold set_bytes. rewrite drop_app_length' by (rewrite length_take; lia).
  by rewrite take_app_length.
Qed.
(** The bytes before and after the field stay. *)
Lemma set_bytes_lookup off bytes buf j :
  (off + length bytes ≤ length buf)%nat → (j < off ∨ off + length bytes ≤ j)%nat →
  set_bytes off bytes buf !! j = buf !! j.
Proof.
  intros Hl [Hj|Hj]; unfold set_bytes.
  - rewrite lookup_app_l by (rewrite length_take; lia). by apply lookup_take_lt.
  - rewrite lookup_app_r, length_take, Nat.min_l by (rewrite ?length_take; lia).
    rewrite lookup_app_r, lookup_drop by lia. f_equal. lia.
Qed.
Lemma get_set_le n off v buf :
  (off + n ≤ length buf)%nat → get_le n off (set_le n off v buf) = v mod 256 ^ Z.of_nat n.
Proof.
  intros H. unfold get_le, set_le. rewrite <- (le_bytes_length n v) at 1.
  rewrite set_bytes_inside by (rewrite le_bytes_length; lia). apply le_value_bytes.
Qed.
Lemma window_ext {A} (l l' : list A) n off :
  (∀ j, (off ≤ j < off + n)%nat → l !! j = l' !! j) → take n (drop off l) = take n (drop off l').
Proof.
  intros H. apply list_eq. intros i. destruct (decide (i < n)%nat).
  - rewrite !lookup_take_lt, !lookup_drop by done. apply H. lia.
  - by rewrite !lookup_take_ge by lia.
Qed.
Lemma get_set_le_other n off n' off' v buf :
  (off' + n' ≤ length buf)%nat → (off + n ≤ off' ∨ off' + n' ≤ off)%nat →
  get_le n off (set_le n' off' v buf) = get_le n off buf.
Proof.
  intros Hl H. unfold get_le, set_le. f_equal. apply window_ext. intros j Hj.
  apply set_bytes_lookup; rewrite le_bytes_length; lia.
Qed.

(** ** Long names round-trip *)

(** A character a long name can hold. *)
Definition lfn_char (c : Z) : Prop := c ≠ 0 ∧ c ≠ 0xff.
(** Every index and its successor come after the previous ones. *)
Fixpoint spaced (from : nat) (indices : list nat) : Prop :=
  match indices with [] => True | i :: l => (from ≤ i)%nat ∧ spaced (S (S i)) l end.

Lemma put_chars_before from indices chars t raw j :
  spaced from indices → (j < from)%nat → put_chars indices chars t raw !! j = raw !! j.
Proof.
  revert from chars t raw. induction indices as [|i l IH]; intros from chars t raw; cbn; [done|].
  intros [Hi Hl] Hj.
  destruct chars; rewrite (IH (S (S i))) by (done || lia);
    by rewrite !list_lookup_insert_ne by lia.
Qed.
Lemma put_chars_length indices chars t raw : length (put_chars indices chars t raw) = length raw.
Proof.
  revert chars t raw. induction indices as [|i l IH]; intros [|c chars] t raw; cbn;
    rewrite ?IH, ?length_insert; done.
Qed.
Lemma get_put_chars from indices chars raw :
  spaced from indices → Forall (λ i, (S i < length raw)%nat) indices →
  (length chars ≤ length indices)%nat → Forall lfn_char chars →
  get_chars indices (put_chars indices chars false raw) = Some chars.
Proof.
  revert from chars raw. induction indices as [|i l IH]; intros from chars raw; cbn.
  { intros _ _ H _. by destruct chars; [|cbn in H; lia]. }
  intros [Hi Hl] [Hb Hbs]%Forall_cons Hlen Hc. destruct chars as [|c chars].
  - rewrite (put_chars_before (S (S i))) by (done || lia).
    rewrite list_lookup_insert_ne, list_lookup_insert_eq by lia. done.
  - apply Forall_cons in Hc as [[Hc0 Hcff] Hc]. cbn in Hlen.
    rewrite (put_chars_before (S (S i))) by (done || lia).
    rewrite list_lookup_insert_ne, list_lookup_insert_eq by lia. cbn [from_option id].
    rewrite (proj2 (Z.eqb_neq c 0xff)), (proj2 (Z.eqb_neq c 0)) by done.
    erewrite (IH (S (S i))); [done|done| |lia|done].
    eapply Forall_impl; [exact Hbs|]. cbn. intros j. by rewrite !length_insert.
Qed.
Lemma get_chars_ext indices raw raw' :
  (∀ i, i ∈ indices → raw !! i = raw' !! i) → get_chars indices raw = get_chars indices raw'.
Proof.
  induction indices as [|i l IH]; intros H; cbn; [done|].
  rewrite H by left. rewrite IH; [done|]. intros j Hj. apply H. by right.
Qed.

Lemma lfn_entry_lookup mask i crc frag raw j :
  length raw = 32%nat →
  lfn_entry mask i crc frag raw !! j =
  if decide (j = 0%nat) then Some (Z.lor mask i)
  else if decide (j = 11%nat) then Some FAT_ATTR_LFN
  else if decide (j = 12%nat) then Some 0
  else if decide (j = 13%nat) then Some crc
  else if decide (j = 26%nat ∨ j = 27%nat) then Some 0
  else put_lfn_name_frag raw frag !! j.
Proof.
  intros Hl. unfold lfn_entry, set_le.
  assert (Hlen : length (put_lfn_name_frag raw frag) = 32%nat) by (unfold put_lfn_name_frag; by rewrite put_chars_length).
  set (r := put_lfn_name_frag raw frag) in *.
  set (r' := <[12%nat := 0]> _).
  assert (Hlen' : length r' = 32%nat) by (unfold r'; by rewrite !length_insert).
  destruct (decide (j = 26%nat ∨ j = 27%nat)) as [Hj|Hj].
  - repeat rewrite decide_False by lia. unfold set_bytes.
    rewrite lookup_app_r by (rewrite length_take; lia).
    rewrite length_take, Nat.min_l by lia. destruct Hj as [-> | ->]; done.
  - rewrite set_bytes_lookup by (rewrite le_bytes_length; lia). unfold r'.
    repeat case_decide; subst; rewrite ?list_lookup_insert_ne by lia;
      rewrite ?list_lookup_insert_eq; rewrite ?length_insert; try done; lia.
Qed.

Lemma lfn_indices_spaced : spaced 0 g_lfn_indices.
Proof. repeat split; lia. Qed.
(** An entry gives back its fragment. *)
Lemma parse_lfn_entry_spec mask i crc frag raw :
  length raw = 32%nat → (length frag ≤ 13)%nat → Forall lfn_char frag →
  parse_lfn_entry crc (lfn_entry mask i crc frag raw) = Some frag.
Proof.
  intros Hl Hf Hc. unfold parse_lfn_entry. rewrite !lfn_entry_lookup by done. cbn [from_option id].
  rewrite decide_False, decide_True by done. cbn [from_option id].
  rewrite !decide_False, decide_True by done. cbn [from_option id].
  rewrite !Z.eqb_refl. cbn [negb orb].
  rewrite <- (get_put_chars 0 g_lfn_indices frag raw lfn_indices_spaced); [|..|exact Hf|exact Hc].
  - apply get_chars_ext. intros j Hj. rewrite lfn_entry_lookup by done. unfold g_lfn_indices in Hj.
    rewrite !decide_False; [done|set_solver..].
  - rewrite Hl. unfold g_lfn_indices. repeat constructor; lia.
Qed.

Lemma read_lfn_entries n mask crc name raws gbuf glen :
  length raws = n → Forall (λ raw, length raw = 32%nat) raws → Forall lfn_char name →
  (0 < n → 13 * (n - 1) < length name)%nat → (13 * n ≤ length gbuf)%nat →
  glen + Z.of_nat (length (take (13 * n) name)) ≤ 255 →
  read_lfn n crc (lfn_entries n mask crc name raws) gbuf glen =
  Some (take (13 * n) name ++ drop (length (take (13 * n) name)) gbuf,
        glen + Z.of_nat (length (take (13 * n) name))).
Proof.
  revert mask raws gbuf glen. induction n as [|n IH]; intros mask raws gbuf glen Hr Hl Hc Hn Hg Hlen.
  - cbn [read_lfn]. rewrite Nat.mul_0_r, take_0 in *. cbn [length drop app] in *. rewrite Z.add_0_r in *.
    by destruct (Z.leb_spec glen 255); [|lia].
  - destruct raws as [|raw raws]; [done|]. injection Hr as Hr. apply Forall_cons in Hl as [Hraw Hl].
    specialize (Hn ltac:(lia)). replace (S n - 1)%nat with n in Hn by lia.
    cbn [lfn_entries read_lfn]. set (frag := take 13 (drop (13 * n) name)).
    assert (Hfl : (length frag ≤ 13)%nat) by (unfold frag; rewrite length_take; lia).
    rewrite parse_lfn_entry_spec; [|done|done|by apply Forall_take, Forall_drop].
    cbn [mbind option_bind].
    assert (Hcut : take (13 * S n) name = take (13 * n) name ++ frag).
    { unfold frag. rewrite take_take_drop. f_equal. lia. }
    assert (Hlow : length (take (13 * n) name) = (13 * n)%nat) by (rewrite length_take; lia).
    rewrite Hcut, length_app, Hlow in Hlen |- *. clear Hcut.
    rewrite IH; try done; try lia.
    { rewrite Hlow. f_equal. f_equal; [|lia]. rewrite <- app_assoc. f_equal.
      unfold set_bytes. rewrite drop_app_length' by (rewrite length_take; lia). done. }
    unfold set_bytes. rewrite !length_app, length_take, length_drop. lia.
Qed.

Lemma lfn_count_bounds (name : list Z) :
  (0 < length name ≤ 255)%nat →
  let n := Z.to_nat (lfn_count (Z.of_nat (length name))) in
  (0 < n ≤ 20 ∧ 13 * (n - 1) < length name ≤ 13 * n)%nat.
Proof.
  intros H n. unfold n, lfn_count. set (k := (Z.of_nat (length name) + 12) / 13).
  assert (13 * k ≤ Z.of_nat (length name) + 12 < 13 * k + 13) by (unfold k; Z.to_euclidean_division_equations; lia).
  lia.
Qed.

(** The entries [dir_add] writes for a name are read back as that name. *)
Lemma parse_lfn_roundtrip crc name raws gbuf :
  let n := Z.to_nat (lfn_count (Z.of_nat (length name))) in
  (0 < length name ≤ 255)%nat → Forall lfn_char name →
  length raws = n → Forall (λ raw, length raw = 32%nat) raws → (260 ≤ length gbuf)%nat →
  parse_lfn (lfn_entries n LFN_HEAD_MSK crc name raws) gbuf =
  Some (name ++ drop (length name) gbuf, Z.of_nat (length name)).
Proof.
  intros n Hlen Hc Hr Hl Hg. pose proof (lfn_count_bounds name Hlen) as [Hn Hb]. fold n in Hn, Hb.
  pose proof (read_lfn_entries n LFN_HEAD_MSK crc name raws gbuf 0 Hr Hl Hc ltac:(lia) ltac:(lia)) as Hread.
  rewrite take_ge in Hread by lia. rewrite Z.add_0_l in Hread. specialize (Hread ltac:(lia)).
  clearbody n. destruct n as [|n]; [lia|]. destruct raws as [|raw raws]; [done|].
  apply Forall_cons in Hl as [Hraw Hl]. unfold parse_lfn. cbn [lfn_entries head mbind option_bind] in *.
  rewrite !lfn_entry_lookup by done. rewrite decide_True by done. cbn [from_option id].
  rewrite !decide_False, decide_True by done. cbn [from_option id].
  assert (Hseq : ∀ m, (m < 20)%nat → (Z.land (Z.lor LFN_HEAD_MSK (Z.of_nat (S m))) LFN_HEAD_MSK =? 0) = false ∧
    Z.land (Z.lor LFN_HEAD_MSK (Z.of_nat (S m))) LFN_SEQ_MSK = Z.of_nat (S m)).
  { intros m Hm. do 20 (destruct m as [|m]; [done|]). lia. }
  destruct (Hseq n ltac:(lia)) as [-> ->]. destruct (Z.ltb_spec 20 (Z.of_nat (S n))); [lia|].
  by rewrite Nat2Z.id.
Qed.

(** ** Short names *)

(** A character a short name keeps: not converted, not the padding. *)
Definition sfn_kept (c : Z) : Prop := sfn_char c = c ∧ c ≠ SFN_PAD.
Lemma sfn_kept_not_dot c : sfn_kept c → c ≠ DOT.
Proof. intros [H _] ->. by vm_compute in H. Qed.
Lemma until_app stop l l' : Forall (λ c, c ≠ stop) l → until stop (l ++ stop :: l') = l.
Proof.
  induction 1 as [|c l Hc _ IH]; cbn; [by rewrite Z.eqb_refl|].
  by rewrite (proj2 (Z.eqb_neq c stop)), IH.
Qed.
Lemma until_all stop l : Forall (λ c, c ≠ stop) l → until stop l = l.
Proof. induction 1 as [|c l Hc _ IH]; cbn; [done|]. by rewrite (proj2 (Z.eqb_neq c stop)), IH. Qed.
Lemma until_padded n l :
  Forall (λ c, c ≠ SFN_PAD) l → until SFN_PAD (padded n l) = l.
Proof.
  intros H. unfold padded. destruct (n - length l)%nat; cbn; [by rewrite app_nil_r, until_all|].
  by apply until_app.
Qed.
Lemma padded_length n l : (length l ≤ n)%nat → length (padded n l) = n.
Proof. intros H. unfold padded. rewrite length_app, length_replicate. lia. Qed.
Lemma kept_map l : Forall sfn_kept l → sfn_char <$> l = l ∧ Forall (λ c, c ≠ DOT) l ∧ Forall (λ c, c ≠ SFN_PAD) l.
Proof.
  induction 1 as [|c l Hc _ (IH1 & IH2 & IH3)]; cbn; [done|]. pose proof (sfn_kept_not_dot _ Hc).
  destruct Hc as [-> ?]. rewrite IH1. by repeat constructor.
Qed.

(** [parse_sfn_name] on a padded base and extension. *)
Lemma parse_padded base ext :
  (length base ≤ 8)%nat → (length ext ≤ 3)%nat →
  Forall (λ c, c ≠ SFN_PAD) base → Forall (λ c, c ≠ SFN_PAD) ext →
  parse_sfn_name (padded 8 base ++ padded 3 ext) =
  base ++ match ext with [] => [] | _ => DOT :: ext end.
Proof.
  intros Hb He Pb Pe. unfold parse_sfn_name.
  rewrite take_app_length', drop_app_length' by by rewrite padded_length.
  rewrite until_padded by done. f_equal.
  rewrite take_ge by (rewrite padded_length by lia; lia). rewrite until_padded by done.
  destruct ext as [|c ext]; [done|]. apply Forall_cons in Pe as [Hc _].
  cbn. by rewrite (proj2 (Z.eqb_neq c SFN_PAD)).
Qed.

(** An 8.3 name survives being stored. *)
Lemma sfn_roundtrip base ext :
  (0 < length base ≤ 8)%nat → (0 < length ext ≤ 3)%nat →
  Forall sfn_kept base → Forall sfn_kept ext →
  parse_sfn_name (put_sfn_name (base ++ DOT :: ext)) = base ++ DOT :: ext.
Proof.
  intros Hb He (Mb & Db & Pb)%kept_map (Me & De & Pe)%kept_map.
  assert (Hu : until DOT (take 8 (base ++ DOT :: ext)) = base).
  { rewrite take_app_ge by lia. destruct (8 - length base)%nat; cbn [take].
    - by rewrite app_nil_r, until_all.
    - by apply until_app. }
  unfold put_sfn_name. rewrite Hu, drop_app_length. cbn [after_dot]. rewrite Z.eqb_refl.
  rewrite (take_ge ext) by lia. rewrite Mb, Me, parse_padded by (done || lia).
  by destruct ext; [cbn in He; lia|].
Qed.
Lemma after_dot_none l : Forall (λ c, c ≠ DOT) l → after_dot l = [].
Proof. induction 1 as [|c l Hc _ IH]; cbn; [done|]. by rewrite (proj2 (Z.eqb_neq c DOT)). Qed.
Lemma sfn_roundtrip_plain base :
  (0 < length base ≤ 8)%nat → Forall sfn_kept base → parse_sfn_name (put_sfn_name base) = base.
Proof.
  intros Hb (Mb & Db & Pb)%kept_map. unfold put_sfn_name.
  rewrite take_ge, until_all by (done || lia).
  rewrite drop_ge by lia. cbn [after_dot take fmap list_fmap].
  rewrite Mb, (parse_padded base []) by (done || cbn; lia). apply app_nil_r.
Qed.
Lemma put_sfn_name_length name : length (put_sfn_name name) = 11%nat.
Proof.
  unfold put_sfn_name. set (base := until DOT (take 8 name)).
  assert (Hu : ∀ l, (length (until DOT l) ≤ length l)%nat)
    by (intros l; induction l; cbn; [lia|]; case_match; cbn; lia).
  specialize (Hu (take 8 name)). rewrite length_take in Hu. fold base in Hu.
  rewrite length_app, !padded_length; [done| |]; rewrite length_fmap, ?length_take; lia.
Qed.

(** [lia] with division and remainder. *)
#[local] Ltac Zify.zify_post_hook ::= Z.to_euclidean_division_equations.

(** *** The checksum *)
Definition crc_step (sum c : Z) : Z := u8 (Z.shiftl (Z.land sum 1) 7 + Z.shiftr sum 1 + c).
Lemma crc_step_range sum c : byte_range (crc_step sum c).
Proof. apply u8_range. Qed.
(** A rotation of the sum, so the step loses nothing of the sum or of the byte. *)
Lemma crc_step_arith sum c : byte_range sum → crc_step sum c = (128 * (sum mod 2) + sum / 2 + c) mod 256.
Proof.
  intros H. unfold crc_step, u8. change 1 with (Z.ones 1) at 1.
  rewrite Z.land_ones, Z.shiftl_mul_pow2, Z.shiftr_div_pow2 by lia. f_equal. lia.
Qed.
Lemma crc_step_sum_inj a b c : byte_range a → byte_range b → crc_step a c = crc_step b c → a = b.
Proof. unfold byte_range. intros Ha Hb. rewrite !crc_step_arith by done. lia. Qed.
Lemma crc_step_byte_inj a c d :
  byte_range a → byte_range c → byte_range d → crc_step a c = crc_step a d → c = d.
Proof. unfold byte_range. intros Ha Hc Hd. rewrite !crc_step_arith by done. lia. Qed.
Lemma crc_fold_inj l a b :
  byte_range a → byte_range b → foldl crc_step a l = foldl crc_step b l → a = b.
Proof.
  revert a b. induction l as [|c l IH]; intros a b Ha Hb; cbn; [done|].
  intros H. apply IH in H; [|apply crc_step_range..]. by eapply crc_step_sum_inj.
Qed.
Lemma crc_fold_range l a : byte_range a → byte_range (foldl crc_step a l).
Proof. revert a. induction l as [|c l IH]; intros a Ha; cbn; [done|]. apply IH, crc_step_range. Qed.
(** Two names that differ in one byte have different checksums. *)
Lemma crc_detects l1 l2 c d :
  (length l1 + S (length l2) = 11)%nat → byte_range c → byte_range d → c ≠ d →
  get_crc (l1 ++ c :: l2) ≠ get_crc (l1 ++ d :: l2).
Proof.
  intros Hl Hc Hd Hne H. unfold get_crc in H. fold crc_step in H.
  rewrite !take_ge in H by (rewrite length_app; cbn; lia).
  change (foldl crc_step 0 (l1 ++ c :: l2) = foldl crc_step 0 (l1 ++ d :: l2)) in H.
  rewrite !foldl_app in H. cbn [foldl] in H.
  apply crc_fold_inj in H; [|apply crc_step_range..].
  apply Hne. eapply crc_step_byte_inj; [|exact Hc|exact Hd|exact H]. by apply crc_fold_range.
Qed.

(** ** Time stamps *)
Definition valid_timestamp (ts : Timestamp) : Prop :=
  0 ≤ hour ts < 32 ∧ 0 ≤ min ts < 64 ∧ 0 ≤ sec ts < 64 ∧ 0 ≤ day ts < 32 ∧ 0 ≤ month ts < 16 ∧
  1980 ≤ year ts < 2044.
Lemma land_field x n : 0 ≤ n → 0 ≤ x < 2 ^ n → Z.land x (Z.ones n) = x.
Proof. intros Hn Hx. rewrite Z.land_ones by done. by apply Z.mod_small. Qed.
Lemma lor_field a b n : 0 ≤ n → 0 ≤ a < 2 ^ n → Z.lor (Z.shiftl b n) a = b * 2 ^ n + a.
Proof.
  intros Hn Ha. rewrite <- Z.shiftl_mul_pow2 by done. symmetry. apply Z.add_nocarry_lor.
  apply Z.bits_inj'. intros i Hi. rewrite Z.land_spec, Z.bits_0.
  destruct (Z.ltb_spec i n).
  - by rewrite Z.shiftl_spec_low.
  - rewrite <- (Z.mod_small a (2 ^ n)), Z.mod_pow2_bits_high by lia. by rewrite andb_false_r.
Qed.
Lemma encode_fields ts :
  valid_timestamp ts →
  encode_timestamp ts =
  ((year ts - 1980) * 2 ^ 9 + month ts * 2 ^ 5 + day ts,
   hour ts * 2 ^ 11 + min ts * 2 ^ 5 + sec ts / 2).
Proof.
  intros (Hh & Hm & Hs & Hd & Hmo & Hy). unfold encode_timestamp.
  change 0x3f with (Z.ones 6). change 0xf with (Z.ones 4). change 0x1f with (Z.ones 5).
  rewrite (Z.quot_div_nonneg (sec ts)) by lia.
  rewrite !land_field by lia. f_equal.
  - rewrite <- Z.lor_assoc, (lor_field (day ts)) by lia.
    rewrite lor_field by lia. unfold u16. rewrite Z.mod_small by lia. lia.
  - rewrite Z.lor_comm, (Z.lor_comm (sec ts / 2)), (lor_field (sec ts / 2)) by lia.
    rewrite lor_field by lia. unfold u16. rewrite Z.mod_small by lia. lia.
Qed.
(** Times are kept to two seconds, until 2043. *)
Lemma timestamp_roundtrip ts :
  valid_timestamp ts →
  decode_timestamp (encode_timestamp ts).1 (encode_timestamp ts).2 =
  {| hour := hour ts; min := min ts; sec := sec ts / 2 * 2; day := day ts; month := month ts;
     year := year ts |}.
Proof.
  intros Hv. rewrite encode_fields by done. destruct Hv as (Hh & Hm & Hs & Hd & Hmo & Hy).
  unfold decode_timestamp. cbn [fst snd].
  change 0x3f with (Z.ones 6). change 0xf with (Z.ones 4). change 0x1f with (Z.ones 5).
  rewrite !Z.land_ones, !Z.shiftr_div_pow2 by lia. f_equal; lia.
Qed.
