(* ===== verification/FatTable.v ===== *)
(** * FAT32: the sector buffer, the allocation table and cluster chains

    The mounted volume of src/libs/fat32/fat.c: the one-sector write-back buffer
    ([sync_buf], [update_buf], [sync_fs]), the entries of the allocation table, the
    chains of clusters, and the walk over the entries of a directory.

    The disk is the set of sectors the device serves: reading or writing another one
    fails.  A function that returns an error code returns a [res]. *)
From S2P Require Import Prelude.
From S2P Require Import CString.
From S2P Require Import FatNames.
Local Open Scope Z_scope.

(** ** Error codes and flags (common/fat_types.h) *)
Definition FAT_ERR_NOFAT : Z := -1.
Definition FAT_ERR_IO : Z := -3.
Definition FAT_ERR_PARAM : Z := -4.
Definition FAT_ERR_PATH : Z := -5.
Definition FAT_ERR_EOF : Z := -6.
Definition FAT_ERR_DENIED : Z := -7.
Definition FAT_ERR_FULL : Z := -8.

Definition FAT_BUF_DIRTY : Z := 0x01.
Definition FAT_INFO_DIRTY : Z := 0x02.
Definition CLUST_FREE : Z := 0x01.
Definition CLUST_USED : Z := 0x02.
Definition CLUST_LAST : Z := 0x04.
Definition CLUST_BAD : Z := 0x08.

Inductive res (A : Type) := Ok (a : A) | Err (e : Z).
Arguments Ok {A} a.
Arguments Err {A} e.

(** ** The volume *)
Record Fat := {
  clust_msk : Z; clust_cnt : Z; info_sect : Z; fat_sect0 : Z; fat_sect1 : Z; data_sect : Z;
  root_clust : Z; last_used : Z; free_cnt : Z; sect : Z; buf : list Z; flags : Z; clust_shift : Z
}.
Record volume := { fat : Fat; disk : gmap Z (list Z) }.

Definition set_sect v f : Fat := {| f with sect := v |}.
Definition set_buf v f : Fat := {| f with buf := v |}.
Definition set_flags v f : Fat := {| f with flags := v |}.
Definition set_last_used v f : Fat := {| f with last_used := v |}.
Definition set_free_cnt v f : Fat := {| f with free_cnt := v |}.
Definition set_fat (g : Fat → Fat) (v : volume) : volume := {| v with fat := g (fat v) |}.
Definition set_disk (d : gmap Z (list Z)) (v : volume) : volume := {| v with disk := d |}.

Abbreviation V := (M volume).
Abbreviation F A := (V (res A)).
(** [err = f(...); if (err) return err;] *)
Declare Scope fat_scope.
Notation "x ←? m ; k" :=
  (mbind (λ r, match r with Ok x => k | Err e => mret (Err e) end) m)
  (at level 20, m at level 100, k at level 200, only parsing) : fat_scope.
Notation "m ;? k" :=
  (mbind (λ r, match r with Ok tt => k | Err e => mret (Err e) end) m)
  (at level 100, k at level 200, only parsing, right associativity) : fat_scope.
Local Open Scope fat_scope.

Definition get_fat_struct : V Fat := gets fat.
Definition change_fat (g : Fat → Fat) : V unit := modify (set_fat g).
(** [fat->flags |= f;] and [fat->flags &= ~f;] *)
Definition raise_flag (f : Z) : V unit := change_fat (λ v, set_flags (Z.lor (flags v) f) v).
Definition clear_flag (f : Z) : V unit := change_fat (λ v, set_flags (Z.land (flags v) (Z.lnot f)) v).
Definition has_flag (fl f : Z) : bool := negb (Z.land fl f =? 0).

(** [ops.read] and [ops.write]: whether the sector could be transferred. *)
Definition ops_read (s : Z) : V (option (list Z)) := gets (λ v, disk v !! s).
Definition ops_write (data : list Z) (s : Z) : V bool :=
  d ← gets disk;
  if decide (is_Some (d !! s)) then modify (set_disk (<[s := data]> d));; mret true
  else mret false.

(** ** The sector buffer *)
Definition sync_buf : F unit :=
  f ← get_fat_struct;
  if has_flag (flags f) FAT_BUF_DIRTY then
    ok ← ops_write (buf f) (sect f);
    if ok : bool then clear_flag FAT_BUF_DIRTY;; mret (Ok tt) else mret (Err FAT_ERR_IO)
  else mret (Ok tt).

Definition update_buf (s : Z) : F unit :=
  f ← get_fat_struct;
  if sect f =? s then mret (Ok tt) else
  sync_buf ;?
  data ← ops_read s;
  match data with
  | None => mret (Err FAT_ERR_IO)
  | Some b => change_fat (λ f, set_sect s (set_buf b f));; mret (Ok tt)
  end.

(** Offsets of [next_free] and [free_cnt] in the FsInfo sector. *)
Definition FSINFO_FREE_CNT : nat := 488.
Definition FSINFO_NEXT_FREE : nat := 492.
Definition sync_fs : F unit :=
  sync_buf ;?
  f ← get_fat_struct;
  if has_flag (flags f) FAT_INFO_DIRTY then
    update_buf (info_sect f) ;?
    raise_flag FAT_BUF_DIRTY;;
    change_fat (λ f, set_buf (set_le 4 FSINFO_FREE_CNT (free_cnt f)
                               (set_le 4 FSINFO_NEXT_FREE (last_used f) (buf f))) f);;
    sync_buf ;?
    clear_flag FAT_INFO_DIRTY;;
    mret (Ok tt)
  else mret (Ok tt).

(** ** Clusters and sectors *)
Definition sect_to_clust (f : Fat) (s : Z) : Z :=
  u32 (Z.shiftr (u32 (s - data_sect f)) (clust_shift f) + 2).
Definition clust_to_sect (f : Fat) (clust : Z) : Z :=
  u32 (u32 (Z.shiftl (u32 (clust - 2)) (clust_shift f)) + data_sect f).

(** ** The allocation table *)
Definition entry_value (b : list Z) (clust : Z) : Z := get_le 4 (4 * Z.to_nat (clust mod 128)) b.
Definition classify (f : Fat) (val : Z) : option Z :=
  if val =? 0 then Some CLUST_FREE
  else if val =? 0x0ffffff7 then Some CLUST_BAD
  else if 0x0ffffff8 <=? val then Some (Z.lor CLUST_USED CLUST_LAST)
  else if (2 <=? val) && (val <? clust_cnt f) then Some CLUST_USED
  else None.

(** The value and the kind of an entry. *)
Definition get_fat (clust : Z) : F (Z * Z) :=
  f ← get_fat_struct;
  update_buf (u32 (fat_sect0 f + clust / 128)) ;?
  f ← get_fat_struct;
  let val := Z.land (entry_value (buf f) clust) 0x0fffffff in
  mret (match classify f val with Some fl => Ok (val, fl) | None => Err FAT_ERR_BROKEN end).

Definition put_fat2 (fat_sect clust val : Z) : F unit :=
  update_buf (u32 (fat_sect + clust / 128)) ;?
  change_fat (λ f, set_buf (set_le 4 (4 * Z.to_nat (clust mod 128))
    (Z.lor (Z.land (entry_value (buf f) clust) 0xf0000000) (Z.land val 0x0fffffff)) (buf f)) f);;
  raise_flag FAT_BUF_DIRTY;;
  mret (Ok tt).

Definition put_fat (clust val : Z) : F unit :=
  f ← get_fat_struct;
  (if negb (fat_sect1 f =? 0) then put_fat2 (fat_sect1 f) clust val else mret (Ok tt)) ;?
  put_fat2 (fat_sect0 f) clust val.

(** ** Cluster chains *)
Fixpoint remove_links (fuel : nat) (clust : Z) : F unit :=
  match fuel with
  | O => out_of_fuel
  | S fuel' =>
      p ←? get_fat clust;
      if has_flag p.2 (Z.lor CLUST_BAD CLUST_FREE) then mret (Err FAT_ERR_BROKEN) else
      put_fat clust 0 ;?
      change_fat (λ f, set_free_cnt (u32 (free_cnt f + 1)) f);;
      if has_flag p.2 CLUST_LAST then mret (Ok tt) else remove_links fuel' p.1
  end.
(** A chain has at most as many clusters as the volume. *)
Definition chain_fuel (f : Fat) : nat := S (Z.to_nat (clust_cnt f)).
Definition remove_chain (clust : Z) : F unit :=
  raise_flag FAT_INFO_DIRTY;;
  f ← get_fat_struct;
  remove_links (chain_fuel f) clust ;?
  sync_fs.

(** [++clust >= fat->clust_cnt ? 2 : clust] *)
Definition next_clust (f : Fat) (clust : Z) : Z :=
  let c := u32 (clust + 1) in if clust_cnt f <=? c then 2 else c.
(** The scan for a free cluster; [last_flags] is the variable [flags], unset at first,
    which the code returns in place of the error. *)
Fixpoint scan_free (fuel : nat) (clust : Z) (last_flags : option Z) : F Z :=
  match fuel with
  | O => out_of_fuel
  | S fuel' =>
      f ← get_fat_struct;
      let clust := next_clust f clust in
      if clust =? last_used f then mret (Err FAT_ERR_FULL) else
      r ← get_fat clust;
      match r with
      | Err _ => match last_flags with Some fl => mret (Err fl) | None => undefined end
      | Ok (_, fl) => if has_flag fl CLUST_FREE then mret (Ok clust)
                      else scan_free fuel' clust (Some fl)
      end
  end.
Definition EOC : Z := 0x0fffffff.
(** A free cluster becomes the end of the chain that ends in [clust] (0: of a new one). *)
Definition stretch_chain (clust : Z) : F Z :=
  raise_flag FAT_INFO_DIRTY;;
  f ← get_fat_struct;
  let scan fl := scan_free (chain_fuel f) (last_used f) fl in
  c ←? (if clust =? 0 then scan None else
        let c := next_clust f clust in
        p ←? get_fat c;
        if has_flag p.2 CLUST_FREE then mret (Ok c) else scan (Some p.2));
  put_fat c EOC ;?
  (if clust =? 0 then mret (Ok tt) else put_fat clust c) ;?
  change_fat (λ f, set_free_cnt (u32 (free_cnt f - 1)) (set_last_used c f));;
  sync_fs ;?
  mret (Ok c).
Definition create_chain : F Z := stretch_chain 0.

Fixpoint clear_sectors (n : nat) (s : Z) : F unit :=
  match n with
  | O => mret (Ok tt)
  | S n' =>
      raise_flag FAT_BUF_DIRTY;;
      change_fat (set_sect s);;
      sync_buf ;?
      clear_sectors n' (u32 (s + 1))
  end.
Definition clust_clear (clust : Z) : F unit :=
  sync_buf ;?
  f ← get_fat_struct;
  change_fat (set_buf (replicate 512 0));;
  clear_sectors (Z.to_nat (Z.shiftl 1 (clust_shift f))) (clust_to_sect f clust).

(** ** Walking a directory *)
Record Dir := { sclust : Z; dclust : Z; dsect : Z; didx : Z }.
Definition SFN_SIZE : Z := 32.

Definition dir_at_clust (f : Fat) (dir : Dir) (clust : Z) : Dir :=
  {| dir with dclust := clust; dsect := clust_to_sect f clust; didx := 0 |}.
Definition dir_enter (f : Fat) (dir : Dir) (clust : Z) : Dir :=
  let clust := if clust =? 0 then root_clust f else clust in
  dir_at_clust f {| dir with sclust := clust |} clust.

(** The directory is left at its new position also when the end is reported. *)
Definition dir_next (dir : Dir) : V (Dir * res unit) :=
  let idx := didx dir + SFN_SIZE in
  if idx <? 512 then mret ({| dir with didx := idx |}, Ok tt) else
  let dir := {| dir with didx := 0; dsect := u32 (dsect dir + 1) |} in
  f ← get_fat_struct;
  if negb (Z.land (dsect dir) (clust_msk f) =? 0) then mret (dir, Ok tt) else
  r ← get_fat (dclust dir);
  match r with
  | Err e => mret (dir, Err e)
  | Ok (next, fl) =>
      if has_flag fl (Z.lor CLUST_BAD CLUST_FREE) then mret (dir, Err FAT_ERR_BROKEN)
      else if has_flag fl CLUST_LAST then mret (dir, Err FAT_ERR_EOF)
      else f ← get_fat_struct; mret (dir_at_clust f dir next, Ok tt)
  end.
Fixpoint dir_advance (cnt : nat) (dir : Dir) : V (Dir * res unit) :=
  match cnt with
  | O => mret (dir, Ok tt)
  | S cnt' =>
      r ← dir_next dir;
      match r.2 with Err e => mret r | Ok _ => dir_advance cnt' r.1 end
  end.
Definition dir_next_stretch (dir : Dir) : V (Dir * res unit) :=
  r ← dir_next dir;
  match r.2 with
  | Err e =>
      if e =? FAT_ERR_EOF then
        r' ← stretch_chain (dclust r.1);
        match r' with
        | Err e => mret (r.1, Err e)
        | Ok next =>
            f ← get_fat_struct;
            let dir := dir_at_clust f r.1 next in
            cleared ← clust_clear (dclust dir);
            mret (dir, cleared)
        end
      else mret r
  | Ok _ => mret r
  end.

(** ** Directory entries *)
Definition FAT_ATTR_DIR : Z := 0x10.
(** The 32 bytes [dir_ptr] points to. *)
Definition dir_entry (f : Fat) (dir : Dir) : list Z := take 32 (drop (Z.to_nat (didx dir)) (buf f)).
Definition sfn_is_last (sfn : list Z) : bool := get_le 1 0 sfn =? SFN_LAST.
Definition sfn_is_free (sfn : list Z) : bool :=
  (get_le 1 0 sfn =? SFN_LAST) || (get_le 1 0 sfn =? SFN_FREE).
Definition sfn_is_lfn (sfn : list Z) : bool := get_le 1 11 sfn =? FAT_ATTR_LFN.
Definition sfn_cluster (sfn : list Z) : Z := Z.lor (Z.shiftl (get_le 2 20 sfn) 16) (get_le 2 26 sfn).
Definition dir_at_root (f : Fat) (dir : Dir) : bool :=
  (dclust dir =? root_clust f) && (dsect dir =? clust_to_sect f (root_clust f)) && (didx dir =? 0).
