(* ===== verification/FatCache.v ===== *)
(** * FAT32: what the sector buffer and the allocation table promise

    The buffer is a transparent write-back cache: seen through it ([store]) the
    volume is a map from sectors to bytes, which [update_buf], [sync_buf] and [sync_fs]
    do not change.  On top of it the allocation table is a map from clusters to
    entries, which [put_fat] updates and [get_fat] reads. *)
From S2P Require Import Prelude.
From S2P Require Import CString.
From S2P Require Import FatNames.
From S2P Require Import FatTable.
Local Open Scope Z_scope.
Local Open Scope fat_scope.

(** ** The buffer as a cache *)

(** The contents of sector [s] with the writes still in the buffer.  Sector 0 is the
    name of no buffered sector: a freshly mounted volume has it as its current one. *)
Definition store (v : volume) (s : Z) : option (list Z) :=
  if decide (sect (fat v) = s) then Some (buf (fat v)) else disk v !! s.
Definition dirty (v : volume) : bool := has_flag (flags (fat v)) FAT_BUF_DIRTY.
Record cache_ok (v : volume) : Prop := {
  co_buf : length (buf (fat v)) = 512%nat;
  co_disk : ∀ s d, disk v !! s = Some d → length d = 512%nat;
  co_dirty : dirty v = true → 0 < sect (fat v) ∧ is_Some (disk v !! sect (fat v));
  co_clean : dirty v = false → 0 < sect (fat v) → disk v !! sect (fat v) = Some (buf (fat v))
}.
Definition same_store (v v' : volume) : Prop := ∀ s, 0 < s → store v' s = store v s.
(** The layout of the volume, fixed when it is mounted. *)
Definition geometry_of (f : Fat) :=
  (clust_msk f, clust_cnt f, info_sect f, fat_sect0 f, fat_sect1 f, data_sect f, root_clust f,
   clust_shift f).
(** Everything but the buffer, the current sector and the dirty bit. *)
Definition rest_of (f : Fat) :=
  (geometry_of f, last_used f, free_cnt f, has_flag (flags f) FAT_INFO_DIRTY).
Lemma rest_geometry f f' : rest_of f' = rest_of f → geometry_of f' = geometry_of f.
Proof. unfold rest_of. congruence. Qed.
Record transparent (v v' : volume) : Prop := {
  tr_ok : cache_ok v';
  tr_store : same_store v v';
  tr_rest : rest_of (fat v') = rest_of (fat v)
}.

Lemma transparent_refl v : cache_ok v → transparent v v.
Proof. by split. Qed.
Lemma transparent_trans v1 v2 v3 : transparent v1 v2 → transparent v2 v3 → transparent v1 v3.
Proof.
  intros [_ S1 R1] [O2 S2 R2]. split; [done| |congruence]. intros s Hs. by rewrite S2, S1.
Qed.

Lemma store_length v s b : cache_ok v → store v s = Some b → length b = 512%nat.
Proof.
  intros Hv. unfold store. case_decide; [intros [= <-]; apply Hv|]. by apply (co_disk _ Hv).
Qed.
Lemma current_on_disk v : cache_ok v → 0 < sect (fat v) → is_Some (disk v !! sect (fat v)).
Proof.
  intros Hv Hs. destruct (dirty v) eqn:Hd; [by apply (co_dirty _ Hv)|].
  rewrite (co_clean _ Hv) by done. eauto.
Qed.

(** A clean buffer is on the device. *)
Lemma clean_store v s : cache_ok v → dirty v = false → 0 < s → disk v !! s = store v s.
Proof.
  intros Hv Hd Hs. unfold store. case_decide as E; [|done]. subst s. by apply co_clean.
Qed.

(** Bits of the flag byte. *)
Lemma flag_bit f n : 0 ≤ n → has_flag f (2 ^ n) = Z.testbit f n.
Proof.
  intros Hn. unfold has_flag. destruct (Z.eqb_spec (Z.land f (2 ^ n)) 0) as [E|E]; cbn.
  - assert (Z.testbit (Z.land f (2 ^ n)) n = false) as H by by rewrite E, Z.bits_0.
    by rewrite Z.land_spec, Z.pow2_bits_true, andb_true_r in H.
  - destruct (Z.testbit f n) eqn:H; [done|]. exfalso. apply E. apply Z.bits_inj'. intros i Hi.
    rewrite Z.land_spec, Z.bits_0. destruct (decide (i = n)) as [->|]; [by rewrite H|].
    rewrite Z.pow2_bits_false by done. apply andb_false_r.
Qed.
Lemma dirty_bit f : has_flag f FAT_BUF_DIRTY = Z.testbit f 0.
Proof. by apply (flag_bit f 0). Qed.
Lemma info_bit f : has_flag f FAT_INFO_DIRTY = Z.testbit f 1.
Proof. by apply (flag_bit f 1). Qed.
Lemma raise_bits f n i : 0 ≤ n → 0 ≤ i → Z.testbit (Z.lor f (2 ^ n)) i = Z.testbit f i || bool_decide (i = n).
Proof.
  intros Hn Hi. rewrite Z.lor_spec. f_equal. case_bool_decide; subst.
  - by apply Z.pow2_bits_true.
  - by apply Z.pow2_bits_false.
Qed.
Lemma clear_bits f n i :
  0 ≤ n → 0 ≤ i → Z.testbit (Z.land f (Z.lnot (2 ^ n))) i = Z.testbit f i && bool_decide (i ≠ n).
Proof.
  intros Hn Hi. rewrite Z.land_spec, Z.lnot_spec by done. f_equal. destruct (decide (i = n)) as [->|Hne].
  - rewrite Z.pow2_bits_true, bool_decide_false by naive_solver. done.
  - by rewrite Z.pow2_bits_false, bool_decide_true by done.
Qed.

Ltac flag_bits :=
  rewrite ?dirty_bit, ?info_bit in *;
  repeat (first [ change FAT_BUF_DIRTY with (2 ^ 0) in * | change FAT_INFO_DIRTY with (2 ^ 1) in * ]);
  rewrite ?raise_bits, ?clear_bits in * by lia;
  rewrite ?andb_true_r, ?andb_false_r, ?orb_true_r, ?orb_false_r in *.

Lemma wp_sync_buf (Q : res unit → volume → Prop) v :
  cache_ok v →
  (∀ v', transparent v v' → sect (fat v') = sect (fat v) → buf (fat v') = buf (fat v) →
     dirty v' = false → Q (Ok tt) v') →
  wp sync_buf Q v.
Proof.
  intros Hv HQ. unfold sync_buf. apply wp_bind, wp_gets. unfold get_fat_struct. fold (dirty v).
  destruct (dirty v) eqn:Hd; [|by apply wp_ret, HQ; [apply transparent_refl| | |]].
  destruct (co_dirty _ Hv Hd) as [Hs Hon]. apply wp_bind. unfold ops_write.
  apply wp_bind, wp_gets. rewrite decide_True by done. apply wp_bind, wp_modify, wp_ret.
  apply wp_bind, wp_modify, wp_ret.
  set (v' := set_fat _ _).
  assert (Hd' : dirty v' = false).
  { unfold dirty, v'. cbn. flag_bits. done. }
  assert (Hdisk : ∀ s, disk v' !! s = if decide (sect (fat v) = s) then Some (buf (fat v)) else disk v !! s).
  { intros s. unfold v'. cbn. case_decide; [subst; by rewrite lookup_insert_eq|].
    by rewrite lookup_insert_ne. }
  apply HQ; [|done..]. split.
  - split.
    + apply Hv.
    + intros s d. rewrite Hdisk. case_decide; [intros [= <-]; apply Hv|]. by apply (co_disk _ Hv).
    + by rewrite Hd'.
    + intros _ _. change (sect (fat v')) with (sect (fat v)). change (buf (fat v')) with (buf (fat v)).
      by rewrite Hdisk, decide_True.
  - intros s Hs'. unfold store. rewrite Hdisk. change (sect (fat v')) with (sect (fat v)).
    change (buf (fat v')) with (buf (fat v)). by case_decide.
  - unfold rest_of, v'. cbn. f_equal. flag_bits. done.
Qed.

(** [update_buf] fails only for a sector the device does not serve. *)
Lemma wp_update_buf s (Q : res unit → volume → Prop) v :
  cache_ok v → 0 < s →
  (∀ v', transparent v v' →
     match store v s with
     | Some b => sect (fat v') = s ∧ buf (fat v') = b → Q (Ok tt) v'
     | None => Q (Err FAT_ERR_IO) v'
     end) →
  wp (update_buf s) Q v.
Proof.
  intros Hv Hs HQ. unfold update_buf. apply wp_bind, wp_gets. unfold get_fat_struct.
  destruct (Z.eqb_spec (sect (fat v)) s) as [E|E].
  { apply wp_ret. specialize (HQ v (transparent_refl _ Hv)). unfold store in HQ.
    rewrite decide_True in HQ by done. by apply HQ. }
  apply wp_bind, wp_sync_buf; [done|]. intros v1 Htr1 Hs1 Hb1 Hd1.
  apply wp_bind, wp_gets.
  assert (Hst : disk v1 !! s = store v s).
  { rewrite <- (tr_store _ _ Htr1 s Hs). unfold store. rewrite decide_False by congruence. done. }
  rewrite Hst. revert HQ. destruct (store v s) as [b|] eqn:Hb; intros HQ; [|apply wp_ret; by apply (HQ v1)].
  apply wp_bind, wp_modify, wp_ret. apply (HQ (set_fat _ v1)); [|done].
  eapply transparent_trans; [exact Htr1|]. set (v2 := set_fat _ v1).
  pose proof (tr_ok _ _ Htr1) as Hv1.
  split; [split|..].
  - cbn. by apply (store_length v s).
  - apply (co_disk _ Hv1).
  - intros Hd. change (dirty v1 = true) in Hd. congruence.
  - intros _ _. exact Hst.
  - intros s' Hs'. unfold store. change (sect (fat v2)) with s. change (disk v2) with (disk v1).
    change (buf (fat v2)) with b. destruct (decide (s = s')) as [<-|].
    + rewrite decide_False by congruence. by rewrite Hst.
    + case_decide as Hc; [|done]. subst s'. by rewrite (co_clean _ Hv1).
  - done.
Qed.

(** Writing into the buffered sector. *)
Lemma buffer_write s b g v :
  cache_ok v → 0 < s → sect (fat v) = s → buf (fat v) = b → length (g b) = 512%nat →
  let v' := set_fat (λ f, set_flags (Z.lor (flags f) FAT_BUF_DIRTY) (set_buf (g (buf f)) f)) v in
  cache_ok v' ∧ rest_of (fat v') = rest_of (fat v) ∧
  ∀ s', 0 < s' → store v' s' = if decide (s' = s) then Some (g b) else store v s'.
Proof.
  intros Hv Hs Hsect Hb Hl. cbn zeta. set (v' := set_fat _ v).
  assert (Hd : dirty v' = true) by (unfold dirty, v'; cbn; flag_bits; done).
  split_and!; [split|..].
  - cbn. by rewrite Hb.
  - apply (co_disk _ Hv).
  - intros _. change (0 < sect (fat v) ∧ is_Some (disk v !! sect (fat v))).
    split; [lia|]. apply current_on_disk; [done|lia].
  - by rewrite Hd.
  - unfold rest_of, v'. cbn. f_equal. flag_bits. done.
  - intros s' Hs'. unfold store. change (sect (fat v')) with (sect (fat v)).
    change (disk v') with (disk v). change (buf (fat v')) with (g (buf (fat v))).
    rewrite Hsect, Hb. destruct (decide (s' = s)) as [->|]; [by rewrite decide_True|].
    by rewrite !decide_False.
Qed.

(** ** The allocation table *)
Definition in_table (f : Fat) (c : Z) : Prop := 0 ≤ c < clust_cnt f.
(** The sectors of the tables and of FsInfo are distinct and exist. *)
Record geometry_ok (f : Fat) : Prop := {
  ge_count : 2 ≤ clust_cnt f < 2 ^ 28;
  ge_whole : clust_cnt f mod 128 = 0;
  ge_first : 0 < fat_sect0 f ∧ fat_sect0 f + clust_cnt f / 128 < 2 ^ 32;
  ge_second : fat_sect1 f = 0 ∨
    (0 < fat_sect1 f ∧ fat_sect1 f + clust_cnt f / 128 < 2 ^ 32 ∧
     (fat_sect0 f + clust_cnt f / 128 ≤ fat_sect1 f ∨ fat_sect1 f + clust_cnt f / 128 ≤ fat_sect0 f));
  ge_info : 0 < info_sect f < fat_sect0 f ∧ (fat_sect1 f = 0 ∨ info_sect f < fat_sect1 f)
}.
Record fat_ok (v : volume) : Prop := {
  fo_cache : cache_ok v;
  fo_geometry : geometry_ok (fat v);
  fo_first : ∀ c, in_table (fat v) c → is_Some (store v (fat_sect0 (fat v) + c / 128));
  fo_second : ∀ c, in_table (fat v) c → fat_sect1 (fat v) ≠ 0 →
    is_Some (store v (fat_sect1 (fat v) + c / 128));
  fo_info : is_Some (store v (info_sect (fat v)))
}.

(** The entry of a cluster: 28 bits of the word in the active table. *)
Definition entry_word (v : volume) (c : Z) : Z :=
  match store v (fat_sect0 (fat v) + c / 128) with Some b => entry_value b c | None => 0 end.
Definition fat_entry (v : volume) (c : Z) : Z := Z.land (entry_word v c) 0x0fffffff.

Lemma fat_ok_store v v' :
  fat_ok v → cache_ok v' → geometry_of (fat v') = geometry_of (fat v) →
  (∀ s, 0 < s → is_Some (store v s) → is_Some (store v' s)) → fat_ok v'.
Proof.
  intros [Hc Hg H1 H2 H3] Hc' Hr Hs. unfold geometry_of in Hr.
  injection Hr as E1 E2 E3 E4 E5 E6 E7 E8. pose proof Hg as [G1 G2 G3 G4 G5].
  assert (Hdiv : ∀ c, in_table (fat v) c → 0 ≤ c / 128) by (intros c [? ?]; by apply Z.div_pos).
  split; [done| | | |].
  - split; rewrite ?E2, ?E3, ?E4, ?E5; done.
  - intros c Hin. unfold in_table in *. rewrite E2 in Hin. rewrite E4. apply Hs; [|by apply H1].
    specialize (Hdiv c Hin). lia.
  - intros c Hin. unfold in_table in *. rewrite E2 in Hin. rewrite E5. intros Hne.
    apply Hs; [|by apply H2]. specialize (Hdiv c Hin). lia.
  - rewrite E3. apply Hs; [lia|done].
Qed.
Lemma transparent_fat_ok v v' : fat_ok v → transparent v v' → fat_ok v'.
Proof.
  intros Hv [Hc Hs Hr]. eapply fat_ok_store; [exact Hv|done|by apply rest_geometry|]. intros s H. by rewrite Hs.
Qed.
Lemma transparent_entry v v' c : fat_ok v → transparent v v' → in_table (fat v) c → entry_word v' c = entry_word v c.
Proof.
  intros Hv [_ Hs Hr] [Hc _]. injection Hr as E1 E2 E3 E4 E5 E6 E7 E8 E9 E10 E11.
  unfold entry_word. rewrite E4, Hs; [done|]. pose proof (ge_first _ (fo_geometry _ Hv)).
  assert (0 ≤ c / 128) by by apply Z.div_pos. lia.
Qed.

Lemma table_sector f c :
  geometry_ok f → in_table f c →
  0 ≤ c / 128 < clust_cnt f / 128 ∧ u32 (fat_sect0 f + c / 128) = fat_sect0 f + c / 128 ∧
  (fat_sect1 f ≠ 0 → u32 (fat_sect1 f + c / 128) = fat_sect1 f + c / 128).
Proof.
  intros [G1 G2 G3 G4 G5] [Hc0 Hc].
  assert (0 ≤ c / 128 < clust_cnt f / 128).
  { split; [by apply Z.div_pos|]. apply Z.div_lt_upper_bound; [lia|].
    rewrite <- (Z.div_exact (clust_cnt f) 128) in G2 by lia. lia. }
  split_and!; [lia|lia|apply u32_small; lia|]. intros Hne. apply u32_small. lia.
Qed.

(** [get_fat] reads the entry and says what it means. *)
Lemma wp_get_fat c (Q : res (Z * Z) → volume → Prop) v :
  fat_ok v → in_table (fat v) c →
  (∀ v', transparent v v' → sect (fat v') = fat_sect0 (fat v) + c / 128 →
     Q (match classify (fat v) (fat_entry v c) with
        | Some fl => Ok (fat_entry v c, fl)
        | None => Err FAT_ERR_BROKEN
        end) v') →
  wp (get_fat c) Q v.
Proof.
  intros Hv Hc HQ. destruct (table_sector _ _ (fo_geometry _ Hv) Hc) as (Hd & Hs & _).
  unfold get_fat. apply wp_bind, wp_gets. rewrite Hs. apply wp_bind.
  pose proof (ge_first _ (fo_geometry _ Hv)).
  apply wp_update_buf; [apply Hv|lia|]. intros v' Htr.
  destruct (fo_first _ Hv c Hc) as [b Hb]. rewrite Hb. intros [Hs' Hb'].
  apply wp_bind, wp_gets, wp_ret. unfold get_fat_struct. rewrite Hb'.
  assert (Hcl : ∀ x, classify (fat v') x = classify (fat v) x).
  { intros x. pose proof (tr_rest _ _ Htr) as Hr. injection Hr as E1 E2 _ _ _ _ _ _ _ _ _.
    unfold classify. by rewrite E2. }
  rewrite Hcl. specialize (HQ v' Htr Hs'). unfold fat_entry, entry_word in HQ. rewrite Hb in HQ.
  destruct (classify (fat v) (Z.land (entry_value b c) 0x0fffffff)); exact HQ.
Qed.

(** *** Writing an entry *)
Definition new_word (w val : Z) : Z := Z.lor (Z.land w 0xf0000000) (Z.land val 0x0fffffff).
Lemma new_word_range w val : new_word w val mod 256 ^ 4 = new_word w val.
Proof.
  change (256 ^ 4) with (2 ^ 32). rewrite <- Z.land_ones by lia. unfold new_word.
  rewrite Z.land_lor_distr_l, <- !Z.land_assoc. done.
Qed.
Lemma new_word_low w val : Z.land (new_word w val) 0x0fffffff = Z.land val 0x0fffffff.
Proof.
  unfold new_word. rewrite Z.land_lor_distr_l, <- !Z.land_assoc.
  change (Z.land 0xf0000000 0x0fffffff) with 0. change (Z.land 0x0fffffff 0x0fffffff) with 0x0fffffff.
  by rewrite Z.land_0_r, Z.lor_0_l.
Qed.
Lemma new_word_high w val : Z.land (new_word w val) 0xf0000000 = Z.land w 0xf0000000.
Proof.
  unfold new_word. rewrite Z.land_lor_distr_l, <- !Z.land_assoc.
  change (Z.land 0xf0000000 0xf0000000) with 0xf0000000. change (Z.land 0x0fffffff 0xf0000000) with 0.
  by rewrite Z.land_0_r, Z.lor_0_r.
Qed.

Definition set_entry (c val : Z) (b : list Z) : list Z :=
  set_le 4 (4 * Z.to_nat (c mod 128)) (new_word (entry_value b c) val) b.
Lemma slot_bound c : (4 * Z.to_nat (c mod 128) + 4 ≤ 512)%nat.
Proof. pose proof (Z.mod_pos_bound c 128 ltac:(lia)). lia. Qed.
Lemma set_entry_length c val b : length b = 512%nat → length (set_entry c val b) = 512%nat.
Proof.
  intros Hb. pose proof (slot_bound c). unfold set_entry, set_le.
  rewrite set_bytes_length; [done|]. rewrite le_bytes_length. lia.
Qed.
Lemma set_entry_value c c' val b :
  length b = 512%nat → c / 128 = c' / 128 →
  entry_value (set_entry c val b) c' =
  if decide (c' = c) then new_word (entry_value b c) val else entry_value b c'.
Proof.
  intros Hb Hd. pose proof (slot_bound c). unfold entry_value at 1, set_entry. case_decide as E.
  - subst c'. rewrite get_set_le by lia. apply new_word_range.
  - rewrite get_set_le_other; [done|lia|].
    pose proof (Z.mod_pos_bound c 128 ltac:(lia)). pose proof (Z.mod_pos_bound c' 128 ltac:(lia)).
    pose proof (Z.div_mod c 128). pose proof (Z.div_mod c' 128). lia.
Qed.

Lemma wp_put_fat2 table c val b (Q : res unit → volume → Prop) v :
  cache_ok v → 0 < table + c / 128 < 2 ^ 32 → store v (table + c / 128) = Some b →
  (∀ v', cache_ok v' → rest_of (fat v') = rest_of (fat v) →
     (∀ s, 0 < s → store v' s = if decide (s = table + c / 128) then Some (set_entry c val b) else store v s) →
     Q (Ok tt) v') →
  wp (put_fat2 table c val) Q v.
Proof.
  intros Hv Hs Hb HQ. unfold put_fat2. rewrite u32_small by lia. apply wp_bind.
  apply wp_update_buf; [done|lia|]. intros v1 Htr. rewrite Hb. intros [Hs1 Hb1].
  apply wp_bind, wp_modify, wp_bind, wp_modify, wp_ret.
  destruct (buffer_write (table + c / 128) b (set_entry c val) v1) as (H1 & H2 & H3);
    [apply Htr|lia|done|done|apply set_entry_length; by apply (store_length v (table + c / 128))|].
  apply HQ; [exact H1|rewrite <- (tr_rest _ _ Htr); exact H2|].
  intros s Hs'. rewrite <- (tr_store _ _ Htr s Hs'). by apply H3.
Qed.

(** What [put_fat] leaves: the entry in both tables, everything else as it was. *)
Definition mirror_word (v : volume) (c : Z) : Z :=
  match store v (fat_sect1 (fat v) + c / 128) with Some b => entry_value b c | None => 0 end.
Record put_post (c val : Z) (v v' : volume) : Prop := {
  pp_ok : fat_ok v';
  pp_rest : rest_of (fat v') = rest_of (fat v);
  pp_entry : ∀ c', in_table (fat v) c' →
    entry_word v' c' = if decide (c' = c) then new_word (entry_word v c) val else entry_word v c';
  pp_mirror : ∀ c', in_table (fat v) c' → fat_sect1 (fat v) ≠ 0 →
    mirror_word v' c' = if decide (c' = c) then new_word (mirror_word v c) val else mirror_word v c';
  pp_others : ∀ s, 0 < s → s ≠ fat_sect0 (fat v) + c / 128 →
    (fat_sect1 (fat v) = 0 ∨ s ≠ fat_sect1 (fat v) + c / 128) → store v' s = store v s
}.

(** The entries of a table after a write into one of its sectors. *)
Lemma table_after table c val b c' v v' :
  length b = 512%nat → 0 < table → 0 ≤ c → 0 ≤ c' → store v (table + c / 128) = Some b →
  store v' (table + c' / 128) =
    (if decide (table + c' / 128 = table + c / 128) then Some (set_entry c val b)
     else store v (table + c' / 128)) →
  (match store v' (table + c' / 128) with Some b => entry_value b c' | None => 0 end) =
  if decide (c' = c) then new_word (match store v (table + c / 128) with Some b => entry_value b c | None => 0 end) val
  else match store v (table + c' / 128) with Some b => entry_value b c' | None => 0 end.
Proof.
  intros Hl Ht Hc Hc' Hb ->. case_decide as E.
  - assert (Hd : c / 128 = c' / 128) by lia. rewrite set_entry_value, Hb by done.
    rewrite <- Hd, Hb. done.
  - rewrite (decide_False (P:=c' = c)); [done|]. by intros ->.
Qed.

Lemma wp_put_fat c val (Q : res unit → volume → Prop) v :
  fat_ok v → in_table (fat v) c → (∀ v', put_post c val v v' → Q (Ok tt) v') →
  wp (put_fat c val) Q v.
Proof.
  intros Hv Hc HQ. pose proof (fo_geometry _ Hv) as Hg. pose proof Hg as [G1 G2 G3 G4 G5].
  destruct (table_sector _ _ Hg Hc) as (Hd & _). destruct Hc as [Hc0 Hc1].
  destruct (fo_first _ Hv c) as [b Hb]; [done|].
  pose proof (store_length _ _ _ (fo_cache _ Hv) Hb) as Hbl.
  assert (Hin : ∀ c', in_table (fat v) c' → 0 ≤ c' ∧ 0 ≤ c' / 128 < clust_cnt (fat v) / 128).
  { intros c' H. split; [by apply H|]. by apply (table_sector _ _ Hg H). }
  unfold put_fat. apply wp_bind, wp_gets. unfold get_fat_struct.
  destruct (Z.eqb_spec (fat_sect1 (fat v)) 0) as [E0|E0]; cbn [negb]; apply wp_bind.
  - apply wp_ret. eapply wp_put_fat2; [apply Hv|lia|exact Hb|]. intros v' Hc' Hr Hs. apply HQ.
    assert (Hsome : ∀ s, 0 < s → is_Some (store v s) → is_Some (store v' s)).
    { intros s Hs0 Hon. rewrite Hs by done. case_decide; eauto. }
    pose proof Hr as Hr'. unfold rest_of in Hr'. injection Hr' as E1 E2 E3 E4 E5 E6 E7 E8 E9 E10 E11.
    split; [|done| |done|].
    + eapply fat_ok_store; [exact Hv|done|by apply rest_geometry|done].
    + intros c' [H1 H2]%Hin. unfold entry_word. rewrite E4.
      eapply table_after; [exact Hbl|lia|lia|lia|exact Hb|]. apply Hs. lia.
    + intros s Hs0 Hs1 _. rewrite Hs by done. by rewrite decide_False.
  - destruct G4 as [?|(G4 & G4' & Gd)]; [done|].
    destruct (fo_second _ Hv c) as [b1 Hb1]; [done|done|].
    pose proof (store_length _ _ _ (fo_cache _ Hv) Hb1) as Hbl1.
    eapply wp_put_fat2; [apply Hv|lia|exact Hb1|]. intros v1 Hc1' Hr1 Hs1.
    assert (Hb' : store v1 (fat_sect0 (fat v) + c / 128) = Some b).
    { rewrite Hs1, decide_False by lia. exact Hb. }
    eapply wp_put_fat2; [exact Hc1'|lia|exact Hb'|]. intros v' Hc' Hr Hs. apply HQ.
    assert (Hs' : ∀ s, 0 < s → store v' s =
      if decide (s = fat_sect0 (fat v) + c / 128) then Some (set_entry c val b)
      else if decide (s = fat_sect1 (fat v) + c / 128) then Some (set_entry c val b1) else store v s).
    { intros s Hs0. rewrite Hs by done. case_decide; [done|]. by apply Hs1. }
    assert (Hsome : ∀ s, 0 < s → is_Some (store v s) → is_Some (store v' s)).
    { intros s Hs0 Hon. rewrite Hs' by done. repeat case_decide; eauto. }
    rewrite Hr1 in Hr. pose proof Hr as Hr'. unfold rest_of in Hr'.
    injection Hr' as E1 E2 E3 E4 E5 E6 E7 E8 E9 E10 E11.
    split; [|done| | |].
    + eapply fat_ok_store; [exact Hv|done|by apply rest_geometry|done].
    + intros c' [H1 H2]%Hin. unfold entry_word. rewrite E4.
      eapply table_after; [exact Hbl|lia|lia|lia|exact Hb|]. rewrite Hs' by lia.
      case_decide; [done|]. by rewrite decide_False by lia.
    + intros c' [H1 H2]%Hin _. unfold mirror_word. rewrite E5.
      eapply table_after; [exact Hbl1|lia|lia|lia|exact Hb1|]. rewrite Hs' by lia.
      by rewrite decide_False by lia.
    + intros s Hs0 Hs2 Hs3. rewrite Hs' by done. by rewrite !decide_False by naive_solver.
Qed.

(** ** The information sector *)

(** [sync_fs] empties the buffer and, when they changed, stores the counters. *)
Record synced (v v' : volume) : Prop := {
  sy_ok : fat_ok v';
  sy_geometry : geometry_of (fat v') = geometry_of (fat v);
  sy_used : last_used (fat v') = last_used (fat v);
  sy_free : free_cnt (fat v') = free_cnt (fat v);
  sy_clean : dirty v' = false ∧ has_flag (flags (fat v')) FAT_INFO_DIRTY = false;
  sy_store : ∀ s, 0 < s → s ≠ info_sect (fat v) → store v' s = store v s
}.
Definition info_written (f : Fat) (b : list Z) : list Z :=
  set_le 4 FSINFO_FREE_CNT (free_cnt f) (set_le 4 FSINFO_NEXT_FREE (last_used f) b).

Lemma info_written_length f b : length b = 512%nat → length (info_written f b) = 512%nat.
Proof.
  intros Hb. unfold info_written, set_le, FSINFO_FREE_CNT, FSINFO_NEXT_FREE.
  rewrite !set_bytes_length; rewrite ?set_bytes_length; rewrite ?le_bytes_length; lia.
Qed.

Lemma wp_sync_fs (Q : res unit → volume → Prop) v :
  fat_ok v →
  (∀ v', synced v v' →
     (has_flag (flags (fat v)) FAT_INFO_DIRTY = true → ∀ b, store v (info_sect (fat v)) = Some b →
        store v' (info_sect (fat v)) = Some (info_written (fat v) b)) →
     Q (Ok tt) v') →
  wp sync_fs Q v.
Proof.
  intros Hv HQ. unfold sync_fs. apply wp_bind, wp_sync_buf; [apply Hv|]. intros v1 Htr1 _ _ Hd1.
  apply wp_bind, wp_gets. unfold get_fat_struct.
  pose proof (tr_rest _ _ Htr1) as Hr1. unfold rest_of, geometry_of in Hr1.
  injection Hr1 as E1 E2 E3 E4 E5 E6 E7 E8 E9 E10 E11. rewrite E11.
  pose proof (transparent_fat_ok _ _ Hv Htr1) as Hv1.
  destruct (has_flag (flags (fat v)) FAT_INFO_DIRTY) eqn:Hi.
  2:{ apply wp_ret, HQ; [|done]. split; try done; [unfold geometry_of; congruence|].
      intros s Hs _. by apply (tr_store _ _ Htr1). }
  pose proof (ge_info _ (fo_geometry _ Hv)) as [Hinfo _].
  apply wp_bind, wp_update_buf; [apply Hv1|lia|]. intros v2 Htr2.
  destruct (fo_info _ Hv1) as [b Hb]. rewrite Hb. intros [Hs2 Hb2].
  apply wp_bind, wp_modify, wp_bind, wp_modify, wp_bind.
  pose proof (store_length _ _ _ (fo_cache _ Hv1) Hb) as Hbl.
  destruct (buffer_write (info_sect (fat v1)) b (info_written (fat v2)) v2) as (H1 & H2 & H3);
    [apply Htr2|lia|done|done|by apply info_written_length|].
  set (v3 := set_fat _ v2) in H1, H2, H3.
  match goal with |- wp _ _ ?s => change s with v3 end.
  apply wp_sync_buf; [exact H1|]. intros v4 Htr4 _ _ Hd4.
  apply wp_bind, wp_modify, wp_ret. set (v5 := set_fat _ v4).
  pose proof (transparent_trans _ _ _ Htr1 Htr2) as Htr12.
  assert (Hs5 : ∀ s, 0 < s → store v5 s = if decide (s = info_sect (fat v)) then Some (info_written (fat v2) b) else store v s).
  { intros s Hs. change (store v5 s) with (store v4 s). rewrite (tr_store _ _ Htr4), H3, E3 by done.
    case_decide; [done|]. by apply (tr_store _ _ Htr12). }
  assert (Hr5 : rest_of (fat v4) = rest_of (fat v)).
  { rewrite (tr_rest _ _ Htr4), H2. apply (tr_rest _ _ Htr12). }
  assert (Hd5 : dirty v5 = false).
  { revert Hd4. unfold dirty, v5. cbn. rewrite !dirty_bit.
    change (Z.lnot FAT_INFO_DIRTY) with (Z.lnot (2 ^ 1)).
    rewrite clear_bits by lia. by intros ->. }
  assert (Hc5 : cache_ok v5).
  { pose proof (tr_ok _ _ Htr4) as [C1 C2 C3 C4]. split; [done|done|by rewrite Hd5|]. intros _. by apply C4. }
  assert (Hg5 : geometry_of (fat v5) = geometry_of (fat v)) by exact (rest_geometry _ _ Hr5).
  apply HQ.
  - unfold rest_of in Hr5. injection Hr5 as _ _ _ _ _ _ _ _ R9 R10 R11.
    split; try done.
    + eapply fat_ok_store; [exact Hv|done|done|]. intros s Hs Hon. rewrite Hs5 by done. case_decide; eauto.
    + split; [done|]. unfold v5. cbn. rewrite info_bit.
      change (Z.lnot FAT_INFO_DIRTY) with (Z.lnot (2 ^ 1)). rewrite clear_bits by lia. apply andb_false_r.
    + intros s Hs Hne. by rewrite Hs5, decide_False.
  - intros _ b' Hb'. rewrite Hs5, decide_True by (done || lia).
    rewrite <- E3, <- (tr_store _ _ Htr1), Hb in Hb' by lia. injection Hb' as <-.
    pose proof (tr_rest _ _ Htr12) as Hr2. unfold rest_of in Hr2. injection Hr2 as _ _ _ _ _ _ _ _ R9 R10 _.
    unfold info_written. by rewrite R9, R10.
Qed.
