(* ===== verification/FatChain.v ===== *)
(** * FAT32: cluster chains

    A file or a directory is a chain of clusters: each entry of the allocation table
    names the next cluster and the last one holds an end mark.  [remove_chain] frees
    exactly the clusters of a chain, and [stretch_chain] appends the first free cluster
    after the last one used. *)
From S2P Require Import Prelude.
From S2P Require Import CString.
From S2P Require Import FatNames.
From S2P Require Import FatTable.
From S2P Require Import FatCache.
Local Open Scope Z_scope.
Local Open Scope fat_scope.

(** ** Chains *)
Definition cluster (f : Fat) (c : Z) : Prop := 2 ≤ c < clust_cnt f.
Definition kind (v : volume) (c : Z) : option Z := classify (fat v) (fat_entry v c).
Definition LAST : Z := Z.lor CLUST_USED CLUST_LAST.
Inductive chain (v : volume) : Z → list Z → Prop :=
| chain_last c : cluster (fat v) c → kind v c = Some LAST → chain v c [c]
| chain_next c l :
    cluster (fat v) c → kind v c = Some CLUST_USED → chain v (fat_entry v c) l → chain v c (c :: l).

Lemma cluster_in_table f c : cluster f c → in_table f c.
Proof. unfold cluster, in_table. lia. Qed.
#[export] Hint Resolve cluster_in_table : core.

Lemma chain_clusters v c l : chain v c l → Forall (cluster (fat v)) l.
Proof. induction 1; eauto. Qed.
Lemma chain_functional v c l l' : chain v c l → chain v c l' → l = l'.
Proof.
  intros H. revert l'. induction H as [c Hc Hk|c l Hc Hk Hl IH]; intros l' H'; inversion H'; subst.
  - done.
  - unfold LAST in *. by rewrite Hk in *.
  - unfold LAST in *. by rewrite Hk in *.
  - f_equal. by apply IH.
Qed.
Lemma chain_suffix v c l d : chain v c l → d ∈ l → ∃ l', chain v d l' ∧ l' `suffix_of` l.
Proof.
  induction 1 as [c Hc Hk|c l Hc Hk Hl IH].
  - intros ->%list_elem_of_singleton. exists [c]. split; [by constructor|done].
  - intros [->|Hd]%elem_of_cons.
    + exists (c :: l). split; [by constructor|done].
    + destruct (IH Hd) as (l' & H1 & H2). exists l'. split; [done|]. by apply suffix_cons_r.
Qed.
(** No chain runs into itself. *)
Lemma chain_nodup v c l : chain v c l → NoDup l.
Proof.
  induction 1 as [c Hc Hk|c l Hc Hk Hl IH]; [apply NoDup_singleton|]. constructor; [|done]. intros Hin.
  destruct (chain_suffix _ _ _ _ Hl Hin) as (l' & H1 & [k Hsuf]).
  pose proof (chain_functional _ _ _ _ (chain_next _ _ _ Hc Hk Hl) H1) as <-.
  apply (f_equal length) in Hsuf. rewrite length_app in Hsuf. cbn in Hsuf. lia.
Qed.
Lemma chain_short v c l : chain v c l → (length l < Z.to_nat (clust_cnt (fat v)))%nat.
Proof.
  intros H. pose proof (chain_nodup _ _ _ H) as Hnd. pose proof (chain_clusters _ _ _ H) as Hcl.
  assert (Hsub : l ⊆ seqZ 2 (clust_cnt (fat v) - 2)).
  { intros x Hx. apply elem_of_seqZ. rewrite Forall_forall in Hcl. specialize (Hcl x Hx).
    unfold cluster in Hcl. lia. }
  pose proof (submseteq_length _ _ (NoDup_submseteq _ _ Hnd Hsub)) as Hlen.
  rewrite length_seqZ in Hlen. inversion H; subst; unfold cluster in *; lia.
Qed.

(** The chain depends only on the entries of its clusters. *)
Lemma chain_frame v v' c l :
  geometry_of (fat v') = geometry_of (fat v) →
  Forall (λ d, fat_entry v' d = fat_entry v d) l → chain v c l → chain v' c l.
Proof.
  intros Hg Hsame H. assert (Hcnt : clust_cnt (fat v') = clust_cnt (fat v)) by (unfold geometry_of in Hg; congruence).
  assert (Hk : ∀ d, fat_entry v' d = fat_entry v d → kind v' d = kind v d).
  { intros d Hd. unfold kind, classify. by rewrite Hd, Hcnt. }
  induction H as [c Hc Hk'|c l Hc Hk' Hl IH].
  - inversion_clear Hsame as [|? ? Hd _]. constructor; [unfold cluster in *; lia|]. by rewrite Hk.
  - inversion_clear Hsame as [|? ? Hd Hr]. constructor; [unfold cluster in *; lia|by rewrite Hk|].
    rewrite Hd. by apply IH.
Qed.

(** ** The table as a map *)

(** The sectors of the tables and FsInfo. *)
Definition system (f : Fat) (s : Z) : Prop :=
  s = info_sect f ∨ fat_sect0 f ≤ s < fat_sect0 f + clust_cnt f / 128 ∨
  (fat_sect1 f ≠ 0 ∧ fat_sect1 f ≤ s < fat_sect1 f + clust_cnt f / 128).
Lemma system_geometry f f' s : geometry_of f' = geometry_of f → system f' s ↔ system f s.
Proof. unfold geometry_of, system. intros [= E1 E2 E3 E4 E5 E6 E7 E8]. by rewrite E2, E3, E4, E5. Qed.
(** [v'] has the layout of [v] and the entries [g]. *)
Record table (g : Z → Z) (v v' : volume) : Prop := {
  tb_ok : fat_ok v';
  tb_geometry : geometry_of (fat v') = geometry_of (fat v);
  tb_entry : ∀ c, in_table (fat v) c → fat_entry v' c = g c
}.
(** [v'] has the layout of [v] and the entries [g], and differs in nothing but the sectors
    of the tables and FsInfo. *)
Record entries (g : Z → Z) (v v' : volume) : Prop := {
  en_ok : fat_ok v';
  en_geometry : geometry_of (fat v') = geometry_of (fat v);
  en_entry : ∀ c, in_table (fat v) c → fat_entry v' c = g c;
  en_store : ∀ s, 0 < s → ¬ system (fat v) s → store v' s = store v s
}.
Definition changed (c val : Z) (g : Z → Z) (d : Z) : Z :=
  if decide (d = c) then Z.land val 0x0fffffff else g d.

Lemma geometry_count f f' : geometry_of f' = geometry_of f → clust_cnt f' = clust_cnt f.
Proof. unfold geometry_of. congruence. Qed.
Lemma in_table_geometry f f' c : geometry_of f' = geometry_of f → in_table f' c ↔ in_table f c.
Proof. intros H%geometry_count. unfold in_table. by rewrite H. Qed.
Lemma classify_geometry f f' x : geometry_of f' = geometry_of f → classify f' x = classify f x.
Proof. intros H%geometry_count. unfold classify. by rewrite H. Qed.

Lemma entries_refl v : fat_ok v → entries (fat_entry v) v v.
Proof. by split. Qed.
Lemma table_refl v : fat_ok v → table (fat_entry v) v v.
Proof. by split. Qed.
Lemma entries_table g v v' : entries g v v' → table g v v'.
Proof. by intros [? ? ? _]. Qed.
Lemma table_transparent g v1 v2 v3 : table g v1 v2 → transparent v2 v3 → table g v1 v3.
Proof.
  intros [Hok Hg He] Htr. split.
  - by eapply transparent_fat_ok.
  - rewrite <- Hg. apply rest_geometry, Htr.
  - intros c Hc. rewrite <- He by done. unfold fat_entry. f_equal. apply transparent_entry; [done..|].
    by apply (in_table_geometry _ _ _ Hg).
Qed.
Lemma entries_transparent g v1 v2 v3 : entries g v1 v2 → transparent v2 v3 → entries g v1 v3.
Proof.
  intros Hen Htr. destruct (table_transparent _ _ _ _ (entries_table _ _ _ Hen) Htr). split; [done..|].
  intros s Hpos Hn. by rewrite (tr_store _ _ Htr s Hpos), (en_store _ _ _ Hen).
Qed.
Lemma entries_put g c val v1 v2 v3 :
  entries g v1 v2 → put_post c val v2 v3 → in_table (fat v1) c → entries (changed c val g) v1 v3.
Proof.
  intros [Hok Hg He Hs] [P1 P2 P3 _ P5] Hc. split; [done| | |].
  - rewrite <- Hg. by apply rest_geometry.
  - intros d Hd. unfold changed. pose proof (proj2 (in_table_geometry _ _ _ Hg) Hd) as Hd'.
    unfold fat_entry. rewrite P3 by done. case_decide; [apply new_word_low|]. by apply He.
  - intros s Hpos Hn. rewrite <- Hs by done. pose proof (proj2 (in_table_geometry _ _ _ Hg) Hc) as Hc'.
    destruct (table_sector _ _ (fo_geometry _ Hok) Hc') as (Hd & _).
    assert (Hn' : ¬ system (fat v2) s) by (by rewrite (system_geometry _ _ _ Hg)). unfold system in Hn'.
    destruct (decide (fat_sect1 (fat v2) = 0)); apply P5; lia.
Qed.
(** Counters and flags are no part of the table. *)
Lemma entries_counters g v1 v2 h :
  entries g v1 v2 → (∀ f, geometry_of (h f) = geometry_of f ∧ sect (h f) = sect f ∧ buf (h f) = buf f ∧
    has_flag (flags (h f)) FAT_BUF_DIRTY = has_flag (flags f) FAT_BUF_DIRTY) →
  entries g v1 (set_fat h v2).
Proof.
  intros [Hok Hg He Hs] Hh. destruct (Hh (fat v2)) as (H1 & H2 & H3 & H4).
  assert (Hst : ∀ s, store (set_fat h v2) s = store v2 s).
  { intros s. unfold store. cbn [fat disk set_fat]. by rewrite H2, H3. }
  assert (Hc : cache_ok (set_fat h v2)).
  { pose proof (fo_cache _ Hok) as [C1 C2 C3 C4]. split; unfold dirty in *; cbn [fat disk set_fat]; rewrite ?H2, ?H3, ?H4; done. }
  split.
  - eapply fat_ok_store; [exact Hok|exact Hc|exact H1|]. intros s _. by rewrite Hst.
  - cbn [fat set_fat]. congruence.
  - intros c Hcc. rewrite <- He by done. unfold fat_entry, entry_word. rewrite Hst.
    cbn [fat set_fat]. unfold geometry_of in H1. by replace (fat_sect0 (h (fat v2))) with (fat_sect0 (fat v2)) by congruence.
  - intros s Hpos Hn. rewrite Hst. by apply Hs.
Qed.
Lemma entries_synced g v1 v2 v3 : entries g v1 v2 → synced v2 v3 → entries g v1 v3.
Proof.
  intros [Hok Hg He Hs] [S1 S2 _ _ _ S6]. split; [done|congruence| |].
  2:{ intros s Hpos Hn. rewrite <- Hs by done. apply S6; [done|]. intros ->. apply Hn. left. unfold geometry_of in Hg. congruence. }
  intros c Hc. rewrite <- He by done.
  pose proof (proj2 (in_table_geometry _ _ _ Hg) Hc) as Hc'.
  destruct (table_sector _ _ (fo_geometry _ Hok) Hc') as (Hd & _).
  pose proof (ge_info _ (fo_geometry _ Hok)).
  unfold fat_entry, entry_word. unfold geometry_of in S2.
  replace (fat_sect0 (fat v3)) with (fat_sect0 (fat v2)) by congruence. by rewrite S6 by lia.
Qed.

Lemma wp_get_entry g c (Q : res (Z * Z) → volume → Prop) v0 v :
  entries g v0 v → in_table (fat v0) c →
  (∀ v', entries g v0 v' → rest_of (fat v') = rest_of (fat v) →
     Q (match classify (fat v0) (g c) with Some fl => Ok (g c, fl) | None => Err FAT_ERR_BROKEN end) v') →
  wp (get_fat c) Q v.
Proof.
  intros Hen Hc HQ. pose proof Hen as [Hok Hg He _].
  apply wp_get_fat; [done|by apply (in_table_geometry _ _ _ Hg)|]. intros v' Htr _.
  rewrite He, (classify_geometry _ _ _ Hg) by done. apply HQ; [by eapply entries_transparent|apply Htr].
Qed.
Lemma wp_set_entry g c val (Q : res unit → volume → Prop) v0 v :
  entries g v0 v → in_table (fat v0) c →
  (∀ v', entries (changed c val g) v0 v' → rest_of (fat v') = rest_of (fat v) → Q (Ok tt) v') →
  wp (put_fat c val) Q v.
Proof.
  intros Hen Hc HQ. pose proof Hen as [Hok Hg He _].
  apply wp_put_fat; [done|by apply (in_table_geometry _ _ _ Hg)|]. intros v' Hp.
  apply HQ; [by eapply entries_put|apply Hp].
Qed.

(** ** Removing a chain *)
Definition freed (l : list Z) (g : Z → Z) (d : Z) : Z := if decide (d ∈ l) then 0 else g d.
Lemma freed_cons c l g d : freed l (changed c 0 g) d = freed (c :: l) g d.
Proof. unfold freed, changed. repeat case_decide; set_solver. Qed.
Lemma entries_ext g g' v v' : (∀ c, in_table (fat v) c → g c = g' c) → entries g v v' → entries g' v v'.
Proof. intros Hg [H1 H2 H3 H4]. split; [done|done| |done]. intros c Hc. rewrite H3 by done. by apply Hg. Qed.

(** The links of [l] as the entries [g] give them. *)
Fixpoint linked (f : Fat) (g : Z → Z) (c : Z) (l : list Z) : Prop :=
  match l with
  | [] => False
  | d :: l' => d = c ∧ cluster f c ∧
      match l' with
      | [] => classify f (g c) = Some LAST
      | _ :: _ => classify f (g c) = Some CLUST_USED ∧ linked f g (g c) l'
      end
  end.
Lemma chain_linked v c l : chain v c l → linked (fat v) (fat_entry v) c l.
Proof.
  induction 1 as [c Hc Hk|c l Hc Hk Hl IH]; [done|]. destruct l; [inversion Hl|done].
Qed.
Lemma chain_linked_ext f g g' c l : (∀ d, d ∈ l → g' d = g d) → linked f g c l → linked f g' c l.
Proof.
  revert c. induction l as [|d l IH]; intros c Hg; [done|]. intros (-> & Hc & Hl). cbn.
  rewrite Hg by left. split_and!; [done..|]. destruct l; [done|]. destruct Hl as [H1 H2].
  split; [done|]. apply IH; [|done]. intros d' Hd'. apply Hg. by right.
Qed.

Definition keeps_counters (n : Z) (v v' : volume) : Prop :=
  last_used (fat v') = last_used (fat v) ∧ free_cnt (fat v') = u32 (free_cnt (fat v) + n) ∧
  has_flag (flags (fat v')) FAT_INFO_DIRTY = has_flag (flags (fat v)) FAT_INFO_DIRTY.

Lemma wp_remove_links l : ∀ fuel c g v0 v (Q : res unit → volume → Prop),
  (length l ≤ fuel)%nat → NoDup l → linked (fat v0) g c l → entries g v0 v →
  0 ≤ free_cnt (fat v) < 2 ^ 32 →
  (∀ v', entries (freed l g) v0 v' → keeps_counters (Z.of_nat (length l)) v v' → Q (Ok tt) v') →
  wp (remove_links fuel c) Q v.
Proof.
  induction l as [|d l IH]; intros fuel c g v0 v Q Hf Hnd Hl Hen Hcnt HQ; [done|].
  destruct Hl as (-> & Hc & Hl). destruct fuel as [|fuel]; [cbn in Hf; lia|]. cbn [remove_links].
  apply NoDup_cons in Hnd as [Hnin Hnd]. apply wp_bind. eapply wp_get_entry; [exact Hen|by auto|].
  intros v1 Hen1 Hr1.
  assert (Hlast : ∃ fl, classify (fat v0) (g c) = Some fl ∧ has_flag fl (Z.lor CLUST_BAD CLUST_FREE) = false ∧
     has_flag fl CLUST_LAST = match l with [] => true | _ => false end ∧
     match l with [] => True | _ => linked (fat v0) g (g c) l end).
  { destruct l; [|destruct Hl as [-> Hl]]; eauto. }
  destruct Hlast as (fl & Hfl & H1 & H2 & Hl'). rewrite Hfl. cbn [fst snd]. rewrite H1.
  apply wp_bind. eapply wp_set_entry; [exact Hen1|by auto|]. intros v2 Hen2 Hr2.
  apply wp_bind, wp_modify. set (v3 := set_fat _ v2).
  assert (Hen3 : entries (changed c 0 g) v0 v3) by (by apply entries_counters).
  assert (Hk3 : keeps_counters 1 v v3).
  { rewrite Hr1 in Hr2. unfold rest_of in Hr2. injection Hr2 as _ _ _ _ _ _ _ _ R9 R10 R11.
    unfold keeps_counters, v3. cbn. by rewrite R10. }
  rewrite H2. destruct l as [|d' l].
  - apply wp_ret, HQ; [|done]. eapply entries_ext; [|exact Hen3]. intros d _.
    rewrite <- freed_cons. unfold freed. by rewrite decide_False by set_solver.
  - destruct Hk3 as (K1 & K2 & K3). eapply IH; [cbn in *; lia|done| |exact Hen3| |].
    + eapply chain_linked_ext; [|exact Hl']. intros e He. unfold changed. rewrite decide_False; [done|].
      by intros ->.
    + rewrite K2. apply u32_range.
    + intros v' Hen' (K1' & K2' & K3'). apply HQ.
      * eapply entries_ext; [|exact Hen']. intros e _. apply freed_cons.
      * unfold keeps_counters. split_and!; [congruence| |congruence]. rewrite K2', K2.
        unfold u32. rewrite Zplus_mod_idemp_l. f_equal. cbn [length]. lia.
Qed.

(** [remove_chain] frees the clusters of the chain and no other, counts them, and
    leaves nothing to write. *)
Record removed (l : list Z) (v v' : volume) : Prop := {
  re_entries : entries (freed l (fat_entry v)) v v';
  re_count : free_cnt (fat v') = u32 (free_cnt (fat v) + Z.of_nat (length l));
  re_used : last_used (fat v') = last_used (fat v);
  re_clean : dirty v' = false ∧ has_flag (flags (fat v')) FAT_INFO_DIRTY = false
}.
Lemma wp_remove_chain l c (Q : res unit → volume → Prop) v :
  fat_ok v → chain v c l → 0 ≤ free_cnt (fat v) < 2 ^ 32 →
  (∀ v', removed l v v' → Q (Ok tt) v') → wp (remove_chain c) Q v.
Proof.
  intros Hok Hch Hcnt HQ. pose proof (chain_short _ _ _ Hch). unfold remove_chain.
  apply wp_bind, wp_modify. set (v1 := set_fat _ v).
  assert (Hen1 : entries (fat_entry v) v v1).
  { apply entries_counters; [by apply entries_refl|]. intros f. split_and!; try done. cbn.
    rewrite !dirty_bit. change FAT_INFO_DIRTY with (2 ^ 1). rewrite raise_bits by lia. apply orb_false_r. }
  apply wp_bind, wp_gets, wp_bind. unfold get_fat_struct, chain_fuel.
  eapply (wp_remove_links l); [cbn; lia|by eapply chain_nodup|by apply chain_linked|exact Hen1|exact Hcnt|].
  intros v2 Hen2 (K1 & K2 & K3). apply wp_sync_fs; [apply Hen2|]. intros v3 Hs _.
  pose proof Hs as [S1 S2 S3 S4 S5 S6]. apply HQ. split.
  - by eapply entries_synced.
  - by rewrite S4, K2.
  - by rewrite S3, K1.
  - done.
Qed.

(** ** Allocating a cluster *)

(** The [k]-th cluster after [u], in the cyclic order of the scan. *)
Definition after (f : Fat) (u k : Z) : Z := 2 + (u - 2 + k) mod (clust_cnt f - 2).
Lemma after_cluster f u k : cluster f u → cluster f (after f u k).
Proof.
  unfold cluster, after. intros H. pose proof (Z.mod_pos_bound (u - 2 + k) (clust_cnt f - 2) ltac:(lia)). lia.
Qed.
Lemma after_0 f u : cluster f u → after f u 0 = u.
Proof. unfold cluster, after. intros H. rewrite Z.mod_small by lia. lia. Qed.
Lemma after_full f u : cluster f u → after f u (clust_cnt f - 2) = u.
Proof.
  unfold cluster, after. intros H. replace (u - 2 + (clust_cnt f - 2)) with (u - 2 + 1 * (clust_cnt f - 2)) by lia.
  rewrite Z.mod_add, Z.mod_small by lia. lia.
Qed.
Lemma after_distinct f u k : cluster f u → 0 < k < clust_cnt f - 2 → after f u k ≠ u.
Proof.
  unfold cluster, after. intros H Hk E.
  assert (Hm : (u - 2 + k) mod (clust_cnt f - 2) = u - 2) by lia.
  pose proof (Z.div_mod (u - 2 + k) (clust_cnt f - 2) ltac:(lia)) as Hd. rewrite Hm in Hd.
  set (q := (u - 2 + k) / (clust_cnt f - 2)) in *.
  assert (k = (clust_cnt f - 2) * q) by lia. assert (0 < q < 1) by nia. lia.
Qed.
Lemma next_after f u k :
  clust_cnt f ≤ 2 ^ 28 → cluster f u → next_clust f (after f u k) = after f u (k + 1).
Proof.
  intros Hb Hu. pose proof (after_cluster _ _ k Hu) as Hc.
  unfold cluster in *. unfold next_clust, after in *. set (n := clust_cnt f - 2) in *.
  replace (u - 2 + (k + 1)) with (u - 2 + k + 1) by lia. set (x := u - 2 + k) in *.
  rewrite <- (Zplus_mod_idemp_l x 1 n).
  assert (Hm : 0 ≤ x mod n < n) by (apply Z.mod_pos_bound; lia).
  rewrite u32_small by lia. destruct (Z.leb_spec (clust_cnt f) (2 + x mod n + 1)).
  - replace (x mod n + 1) with n by (unfold n in *; lia). rewrite Z.mod_same by (unfold n in *; lia). done.
  - rewrite (Z.mod_small (x mod n + 1)) by (unfold n in *; lia). lia.
Qed.

(** Every entry of the volume has a meaning. *)
Definition table_ok (f : Fat) (g : Z → Z) : Prop := ∀ c, cluster f c → is_Some (classify f (g c)).
Lemma classify_free f x fl : classify f x = Some fl → has_flag fl CLUST_FREE = bool_decide (x = 0).
Proof.
  unfold classify. destruct (Z.eqb_spec x 0) as [->|]; [by intros [= <-]|].
  rewrite (bool_decide_false (x = 0)) by done.
  repeat match goal with |- (if ?b then _ else _) = _ → _ => destruct b end; by intros [= <-].
Qed.

(** The first free cluster strictly after the [k]-th. *)
Definition first_free_after (f : Fat) (g : Z → Z) (u k : Z) (c : Z) : Prop :=
  ∃ j, k < j < clust_cnt f - 2 ∧ c = after f u j ∧ g c = 0 ∧ ∀ i, k < i < j → g (after f u i) ≠ 0.
Definition none_free_after (f : Fat) (g : Z → Z) (u k : Z) : Prop :=
  ∀ i, k < i < clust_cnt f - 2 → g (after f u i) ≠ 0.
Definition scan_post (f : Fat) (g : Z → Z) (u k : Z) (r : res Z) : Prop :=
  match r with Ok c => first_free_after f g u k c | Err e => e = FAT_ERR_FULL ∧ none_free_after f g u k end.

Lemma scan_post_skip f g u k r : g (after f u (k + 1)) ≠ 0 → scan_post f g u (k + 1) r → scan_post f g u k r.
Proof.
  intros Hg. assert (Hi : ∀ i, k < i → i = k + 1 ∨ k + 1 < i) by lia.
  destruct r as [c|e]; cbn.
  - intros (j & Hj & Hc & H0 & Hb). exists j. split_and!; [lia|lia|done|done|].
    intros i [H1 H2]. destruct (Hi i H1) as [->|]; [done|]. by apply Hb.
  - intros [He Hn]. split; [done|]. intros i [H1 H2]. destruct (Hi i H1) as [->|]; [done|]. by apply Hn.
Qed.

Lemma wp_scan_free fuel : ∀ u k fl g v0 v (Q : res Z → volume → Prop),
  clust_cnt (fat v0) ≤ 2 ^ 28 → cluster (fat v0) u → table_ok (fat v0) g →
  entries g v0 v → last_used (fat v) = u → 0 ≤ k < clust_cnt (fat v0) - 2 →
  clust_cnt (fat v0) - 2 - k ≤ Z.of_nat fuel →
  (∀ r v', scan_post (fat v0) g u k r → entries g v0 v' → rest_of (fat v') = rest_of (fat v) → Q r v') →
  wp (scan_free fuel (after (fat v0) u k) fl) Q v.
Proof.
  induction fuel as [|fuel IH]; intros u k fl g v0 v Q Hb Hu Ht Hen Hlu Hk Hf HQ; [lia|].
  cbn [scan_free]. apply wp_bind, wp_gets. unfold get_fat_struct.
  assert (Hnc : next_clust (fat v) (after (fat v0) u k) = after (fat v0) u (k + 1)).
  { rewrite <- next_after by done. unfold next_clust. by rewrite (geometry_count _ _ (en_geometry _ _ _ Hen)). }
  rewrite Hnc, Hlu. destruct (Z.eqb_spec (after (fat v0) u (k + 1)) u) as [E|E].
  { apply wp_ret, HQ; [|done|done]. split; [done|]. intros i Hi. exfalso.
    destruct (decide (k + 1 < clust_cnt (fat v0) - 2)); [|lia]. by apply (after_distinct (fat v0) u (k + 1)); [|lia|]. }
  assert (Hk' : k + 1 < clust_cnt (fat v0) - 2).
  { destruct (decide (k + 1 = clust_cnt (fat v0) - 2)) as [Heq|]; [|lia]. exfalso. apply E. rewrite Heq. by apply after_full. }
  pose proof (after_cluster _ _ (k + 1) Hu) as Hc.
  apply wp_bind. eapply wp_get_entry; [exact Hen|by auto|]. intros v1 Hen1 Hr1.
  destruct (Ht _ Hc) as [fl' Hfl]. rewrite Hfl, (classify_free _ _ _ Hfl). case_bool_decide as H0.
  - apply wp_ret, HQ; [|done|done]. exists (k + 1). split_and!; [lia|lia|done|done|lia].
  - assert (Hlu1 : last_used (fat v1) = u) by (unfold rest_of in Hr1; congruence).
    eapply IH; [done|done|done|exact Hen1|done|lia|lia|].
    intros r v' Hp Hen' Hr'. apply HQ; [by apply scan_post_skip|done|congruence].
Qed.

(** The cluster [stretch_chain] chooses: the one behind [clust] when it is free, else the
    first free one after the last used. *)
Definition chosen (f : Fat) (g : Z → Z) (clust : Z) (r : res Z) : Prop :=
  if bool_decide (clust ≠ 0 ∧ g (next_clust f clust) = 0) then r = Ok (next_clust f clust)
  else scan_post f g (last_used f) 0 r.
Definition appended (clust c : Z) (g : Z → Z) : Z → Z :=
  let g' := changed c EOC g in if clust =? 0 then g' else changed clust c g'.
Record stretched (clust c : Z) (v v' : volume) : Prop := {
  st_entries : entries (appended clust c (fat_entry v)) v v';
  st_count : free_cnt (fat v') = u32 (free_cnt (fat v) - 1);
  st_used : last_used (fat v') = c;
  st_clean : dirty v' = false ∧ has_flag (flags (fat v')) FAT_INFO_DIRTY = false
}.

Lemma next_cluster f c : clust_cnt f ≤ 2 ^ 28 → cluster f c → cluster f (next_clust f c).
Proof.
  unfold cluster, next_clust. intros Hb Hc. rewrite u32_small by lia.
  destruct (Z.leb_spec (clust_cnt f) (c + 1)); lia.
Qed.
Lemma chosen_cluster f g clust c :
  clust_cnt f ≤ 2 ^ 28 → cluster f (last_used f) → (clust ≠ 0 → cluster f clust) →
  chosen f g clust (Ok c) → cluster f c ∧ g c = 0.
Proof.
  intros Hb Hu Hcl. unfold chosen. case_bool_decide as H.
  - destruct H as [H1 H2]. intros [= ->]. split; [|done]. apply next_cluster; auto.
  - intros (j & Hj & -> & H0 & _). split; [by apply after_cluster|done].
Qed.

Section stretch.
Context (v : volume).
Hypothesis Hok : fat_ok v.
Hypothesis Ht : table_ok (fat v) (fat_entry v).
Hypothesis Hu : cluster (fat v) (last_used (fat v)).

(** The entries and the counters are still those of [v]. *)
Record untouched (v' : volume) : Prop := {
  un_entries : entries (fat_entry v) v v';
  un_used : last_used (fat v') = last_used (fat v);
  un_free : free_cnt (fat v') = free_cnt (fat v)
}.
Lemma untouched_rest v1 v2 : untouched v1 → entries (fat_entry v) v v2 → rest_of (fat v2) = rest_of (fat v1) → untouched v2.
Proof using. intros [_ H1 H2] Hen Hr. unfold rest_of in Hr. split; [done|congruence|congruence]. Qed.

Lemma count_bound : clust_cnt (fat v) ≤ 2 ^ 28.
Proof using Hok. pose proof (ge_count _ (fo_geometry _ Hok)). lia. Qed.

Lemma wp_scan fl v2 (Q : res Z → volume → Prop) :
  untouched v2 →
  (∀ r v3, scan_post (fat v) (fat_entry v) (last_used (fat v)) 0 r → untouched v3 → Q r v3) →
  wp (scan_free (chain_fuel (fat v)) (last_used (fat v)) fl) Q v2.
Proof using Hok Ht Hu.
  intros Hun HQ. pose proof Hun as [Hen2 Hl2 Hf2].
  rewrite <- (after_0 (fat v) (last_used (fat v))) at 1 by done.
  eapply wp_scan_free; [exact count_bound|done|done|exact Hen2|done| | |].
  - unfold cluster in Hu. lia.
  - unfold chain_fuel. lia.
  - intros r v3 Hp Hen3 Hr3. apply HQ; [done|]. by eapply untouched_rest.
Qed.

Context (clust : Z).
Hypothesis Hcl : clust ≠ 0 → cluster (fat v) clust.

(** Linking the chosen cluster. *)
Lemma wp_append r v2 (Q : res Z → volume → Prop) :
  chosen (fat v) (fat_entry v) clust r → untouched v2 →
  (∀ c v', r = Ok c → stretched clust c v v' → Q (Ok c) v') →
  (∀ e, r = Err e → untouched v2 → Q (Err e) v2) →
  wp (c ←? mret r;
      put_fat c EOC ;?
      (if clust =? 0 then mret (Ok tt) else put_fat clust c) ;?
      change_fat (λ f, set_free_cnt (u32 (free_cnt f - 1)) (set_last_used c f));;
      sync_fs ;? mret (Ok c)) Q v2.
Proof using Hok Hu Hcl.
  intros Hch [Hen2 Hl2 Hf2] HQ HQe. apply wp_bind, wp_ret. destruct r as [c|e]; [|by apply wp_ret, HQe].
  destruct (chosen_cluster _ _ _ _ count_bound Hu Hcl Hch) as [Hc H0].
  apply wp_bind. eapply wp_set_entry; [exact Hen2|by auto|]. intros v3 Hen3 Hr3.
  assert (Hlink : ∀ Q' : res unit → volume → Prop,
    (∀ v4, entries (appended clust c (fat_entry v)) v v4 → rest_of (fat v4) = rest_of (fat v3) → Q' (Ok tt) v4) →
    wp (if clust =? 0 then mret (Ok tt) else put_fat clust c) Q' v3).
  { intros Q' HQ'. unfold appended in HQ'. destruct (Z.eqb_spec clust 0); [by apply wp_ret, HQ'|].
    eapply wp_set_entry; [exact Hen3|by auto|done]. }
  apply wp_bind, Hlink. intros v4 Hen4 Hr4. apply wp_bind, wp_modify.
  apply wp_bind, wp_sync_fs; [eapply entries_counters; [exact Hen4|done]|].
  intros v5 Hs _. pose proof Hs as [S1 S2 S3 S4 S5 S6]. apply wp_ret, HQ; [done|]. split.
  - eapply entries_synced; [|exact Hs]. by apply entries_counters.
  - rewrite S4. cbn. unfold rest_of in Hr3, Hr4. f_equal. congruence.
  - by rewrite S3.
  - done.
Qed.

Lemma wp_stretch_chain (Q : res Z → volume → Prop) :
  (∀ c v', chosen (fat v) (fat_entry v) clust (Ok c) → stretched clust c v v' → Q (Ok c) v') →
  (∀ v', chosen (fat v) (fat_entry v) clust (Err FAT_ERR_FULL) → untouched v' → Q (Err FAT_ERR_FULL) v') →
  wp (stretch_chain clust) Q v.
Proof using Hok Ht Hu Hcl.
  intros HQ HQf. assert (Hr : ∀ r v2, chosen (fat v) (fat_entry v) clust r → untouched v2 →
    wp (c ←? mret r; put_fat c EOC ;? (if clust =? 0 then mret (Ok tt) else put_fat clust c) ;?
        change_fat (λ f, set_free_cnt (u32 (free_cnt f - 1)) (set_last_used c f));;
        sync_fs ;? mret (Ok c)) Q v2).
  { intros r v2 Hch Hun. eapply wp_append; [exact Hch|done| |].
    - intros c v' -> Hs. by apply HQ.
    - intros e -> _. assert (e = FAT_ERR_FULL) as ->; [|by apply HQf].
      revert Hch. unfold chosen. case_bool_decide; [done|]. by intros [-> _]. }
  unfold stretch_chain. apply wp_bind, wp_modify. set (v1 := set_fat _ v).
  assert (Hun1 : untouched v1).
  { split; [|done..]. apply entries_counters; [by apply entries_refl|]. intros f. split_and!; try done. cbn.
    rewrite !dirty_bit. change FAT_INFO_DIRTY with (2 ^ 1). rewrite raise_bits by lia. apply orb_false_r. }
  apply wp_bind, wp_gets. unfold get_fat_struct. change (last_used (fat v1)) with (last_used (fat v)).
  change (chain_fuel (fat v1)) with (chain_fuel (fat v)).
  change (next_clust (fat v1) clust) with (next_clust (fat v) clust).
  clearbody v1. destruct (Z.eqb_spec clust 0) as [E|Hne].
  - apply wp_bind, wp_scan; [done|]. intros r v3 Hp Hun3. apply (Hr r); [|done].
    unfold chosen. by rewrite bool_decide_false by naive_solver.
  - pose proof (next_cluster _ _ count_bound (Hcl Hne)) as Hn. apply wp_bind, wp_bind.
    eapply wp_get_entry; [apply Hun1|by auto|]. intros v2 Hen2 Hr2.
    pose proof (untouched_rest _ _ Hun1 Hen2 Hr2) as Hun2.
    destruct (Ht _ Hn) as [fl Hfl]. rewrite Hfl. cbn [fst snd]. rewrite (classify_free _ _ _ Hfl).
    case_bool_decide as H0.
    + apply wp_ret. apply (Hr (Ok _)); [|done..]. unfold chosen. by rewrite bool_decide_true.
    + apply wp_scan; [done|]. intros r v3 Hp Hun3. apply (Hr r); [|done].
      unfold chosen. by rewrite bool_decide_false by naive_solver.
Qed.
End stretch.

(** A chain that ends in [clust] then also holds the new cluster. *)
Lemma stretched_chain v v' c0 l clust c :
  chain v c0 l → list.last l = Some clust → cluster (fat v) c → fat_entry v c = 0 → stretched clust c v v' →
  chain v' c0 (l ++ [c]).
Proof.
  intros Hch Hlast Hc H0 [[Hok Hg He _] _ _ _]. pose proof (geometry_count _ _ Hg) as Hcnt.
  assert (Hk : ∀ d, cluster (fat v) d → kind v' d = classify (fat v) (appended clust c (fat_entry v) d)).
  { intros d Hd. unfold kind. rewrite He by auto. by apply classify_geometry. }
  assert (Hcl : ∀ d, cluster (fat v) d → cluster (fat v') d) by (unfold cluster; by rewrite Hcnt).
  assert (Hnc : c ∉ l).
  { intros Hin. destruct (chain_suffix _ _ _ _ Hch Hin) as (l' & Hl' & _).
    inversion Hl' as [? _ Hk0|? ? _ Hk0]; subst; unfold kind in Hk0; by rewrite H0 in Hk0. }
  assert (Hclust : clust ∈ l) by by apply last_Some_elem_of.
  assert (Hcl' : cluster (fat v) clust).
  { pose proof (chain_clusters _ _ _ Hch) as Hall. rewrite Forall_forall in Hall. by apply Hall. }
  assert (Hcc : c ≠ clust) by by intros ->.
  assert (Hap : ∀ d, appended clust c (fat_entry v) d =
     if decide (d = clust) then Z.land c 0x0fffffff else if decide (d = c) then 0x0fffffff else fat_entry v d).
  { intros d. unfold appended. destruct (Z.eqb_spec clust 0); [unfold cluster in Hcl'; lia|]. done. }
  assert (Hend : chain v' c [c]).
  { constructor; [by apply Hcl|]. rewrite Hk, Hap, decide_False, decide_True by done.
    pose proof (ge_count _ (fo_geometry _ Hok)). unfold classify. done. }
  pose proof (ge_count _ (fo_geometry _ Hok)) as Hb. rewrite Hcnt in Hb.
  assert (Hlow : Z.land c 0x0fffffff = c).
  { change 0x0fffffff with (Z.ones 28). rewrite Z.land_ones, Z.mod_small; unfold cluster in Hc; lia. }
  clear Hclust. induction Hch as [d Hd Hkd|d l Hd Hkd Hl IH].
  - injection Hlast as ->. cbn. apply chain_next; [by apply Hcl| |].
    + rewrite Hk, Hap, decide_True, Hlow by done. unfold classify, cluster in *.
      pose proof (ge_whole _ (fo_geometry _ Hok)) as Hw. rewrite Hcnt in Hw.
      pose proof (Z.div_mod (clust_cnt (fat v)) 128 ltac:(lia)).
      destruct (Z.eqb_spec c 0); [lia|]. destruct (Z.eqb_spec c 0x0ffffff7); [lia|].
      destruct (Z.leb_spec 0x0ffffff8 c); [lia|]. destruct (Z.leb_spec 2 c); [|lia].
      destruct (Z.ltb_spec c (clust_cnt (fat v))); [done|lia].
    + rewrite He, Hap, decide_True, Hlow by auto. done.
  - assert (Hdc : d ≠ clust ∧ d ≠ c).
    { split; [|intros ->; apply Hnc; left]. intros ->. pose proof (chain_nodup _ _ _ (chain_next _ _ _ Hd Hkd Hl)) as Hnd.
      apply NoDup_cons in Hnd as [Hnd _]. destruct l; [inversion Hl|].
      by apply Hnd, last_Some_elem_of. }
    assert (Hent : appended clust c (fat_entry v) d = fat_entry v d) by (by rewrite Hap, !decide_False by apply Hdc).
    cbn. apply chain_next; [by apply Hcl|by rewrite Hk, Hent|]. rewrite He, Hent by auto.
    apply IH; [|intros Hin; apply Hnc; by right]. destruct l; [inversion Hl|done].
Qed.
