(* ===== verification/FatFile.v ===== *)
(** * FAT32: open files

    The sector buffer of an open file and the operations that move it: seeking,
    reading, writing, synchronizing ([fat_file_seek] and the functions around it, in
    src/libs/fat32/fat.c), on the file and the volume it is on.  [FatData] says what
    they do to the bytes of the file. *)
From S2P Require Import Prelude.
From S2P Require Import CString.
From S2P Require Import FatNames.
From S2P Require Import FatTable.
From S2P Require Import FatCache.
From S2P Require Import FatChain.
Local Open Scope Z_scope.
Local Open Scope fat_scope.

(** ** State (libs/fat32/fat.h) *)
Definition FAT_WRITE : Z := 0x01.
Definition FAT_READ : Z := 0x02.
Definition FAT_ACCESSED : Z := 0x20.
Definition FAT_MODIFIED : Z := 0x40.
Definition FAT_FILE_DIRTY : Z := 0x80.
Definition FAT_ATTR_ARCHIVE : Z := 0x20.
Inductive seek_mode := FAT_SEEK_START | FAT_SEEK_CURR | FAT_SEEK_END.

(** [f_open]: the pointer to the volume is not NULL. *)
Record File := {
  f_open : bool; f_dir_sect : Z; f_sclust : Z; f_clust : Z; f_sect : Z; f_size : Z; f_offset : Z;
  f_dir_idx : Z; f_attr : Z; f_flags : Z; f_buf : list Z
}.
(** An open file and the volume it is on. *)
Record session := { file : File; vol : volume }.

Definition set_clust c f : File := {| f with f_clust := c |}.
Definition set_size z f : File := {| f with f_size := z |}.
Definition set_f_flags z f : File := {| f with f_flags := z |}.
Definition set_f_buf b f : File := {| f with f_buf := b |}.
Definition change_file (g : File → File) : M session unit := modify (λ s, {| s with file := g (file s) |}).
Definition raise (fl : Z) : M session unit := change_file (λ f, set_f_flags (Z.lor (f_flags f) fl) f).
Definition lower (fl : Z) : M session unit :=
  change_file (λ f, set_f_flags (Z.land (f_flags f) (Z.lnot fl)) f).
(** A call on the volume. *)
Definition on_vol {A} (m : V A) : M session A := λ s,
  match m (vol s) with
  | Done a v => Done a {| s with vol := v |}
  | Undefined => Undefined
  | Fuel => Fuel
  end.
Lemma wp_on_vol {A} (m : V A) (Q : A → session → Prop) s :
  wp m (λ a v, Q a {| s with vol := v |}) (vol s) → wp (on_vol m) Q s.
Proof. unfold wp, on_vol. by destruct (m (vol s)). Qed.

(** ** Seeking *)

(** [n] links of the chain; the chain grows when it ends. *)
Fixpoint follow_links (n : nat) : M session (res unit) :=
  match n with
  | O => mret (Ok tt)
  | S n' =>
      f ← gets file;
      p ←? on_vol (get_fat (f_clust f));
      if has_flag p.2 (Z.lor CLUST_BAD CLUST_FREE) then mret (Err FAT_ERR_BROKEN) else
      next ←? (if has_flag p.2 CLUST_LAST then on_vol (stretch_chain (f_clust f)) else mret (Ok p.1));
      change_file (set_clust next);;
      follow_links n'
  end.
Definition clust_size (f : Fat) : Z := u32 (Z.shiftl 512 (clust_shift f)).
(** [file->sect] and [file->offset] for the offset [off]. *)
Definition placed (g : Fat) (off : Z) (f : File) : File :=
  {| f with f_sect := u32 (clust_to_sect g (f_clust f) + Z.land (off / 512) (clust_msk g));
            f_offset := off |}.
(** The file buffer follows [file->sect]: the old sector is written back, the new one read. *)
Definition refill (ssect : Z) : M session (res unit) :=
  f ← gets file;
  if f_sect f =? ssect then mret (Ok tt) else
  (if has_flag (f_flags f) FAT_FILE_DIRTY then
     ok ← on_vol (ops_write (f_buf f) ssect);
     if ok : bool then lower FAT_FILE_DIRTY;; mret (Ok tt) else mret (Err FAT_ERR_IO)
   else mret (Ok tt)) ;?
  data ← on_vol (ops_read (f_sect f));
  match data with
  | None => mret (Err FAT_ERR_IO)
  | Some b => change_file (set_f_buf b);; mret (Ok tt)
  end.
Definition restarted (g : Fat) (f : File) : File :=
  {| f with f_clust := f_sclust f; f_sect := clust_to_sect g (f_sclust f); f_offset := 0 |}.
Definition fat_file_seek (offset : Z) (seek : seek_mode) : M session (res unit) :=
  f ← gets file;
  g ← on_vol get_fat_struct;
  if negb (f_open f) then mret (Err FAT_ERR_PARAM) else
  let off := offset + match seek with
                      | FAT_SEEK_START => 0
                      | FAT_SEEK_CURR => f_offset f
                      | FAT_SEEK_END => f_size f
                      end in
  if (off <? 0) || (0xffffffff <? off) then mret (Err FAT_ERR_EOF) else
  let dst := off / clust_size g in
  let src := f_offset f / clust_size g in
  let back := dst <? src in
  when back (change_file (restarted g));;
  follow_links (Z.to_nat (dst - (if back then 0 else src))) ;?
  g ← on_vol get_fat_struct;
  change_file (placed g off);;
  refill (f_sect f).

(** ** Reading and writing

    The number of bytes moved is the length of the data: it is reported with an error
    as well.  In [fat_file_read] the comparison of [len] with the unsigned size is
    unsigned, in [fat_file_write] it is signed, and a negative length ends in [memcpy]. *)
Fixpoint read_loop (fuel : nat) (len : Z) (done : list Z) : M session (list Z * res unit) :=
  match fuel with
  | O => out_of_fuel
  | S fuel' =>
      f ← gets file;
      if (len =? 0) || (f_size f <=? f_offset f) then mret (done, Ok tt) else
      let idx := f_offset f mod 512 in
      let cnt := Z.min (u32 len) (Z.min (512 - idx) (f_size f - f_offset f)) in
      let done := done ++ take (Z.to_nat cnt) (drop (Z.to_nat idx) (f_buf f)) in
      r ← fat_file_seek cnt FAT_SEEK_CURR;
      match r with
      | Err e => mret (done, Err e)
      | Ok _ => read_loop fuel' (len - cnt) done
      end
  end.
Definition fat_file_read (len : Z) : M session (list Z * res unit) :=
  f ← gets file;
  if negb (f_open f) then mret ([], Err FAT_ERR_PARAM) else
  if negb (has_flag (f_flags f) FAT_READ) then mret ([], Err FAT_ERR_DENIED) else
  raise FAT_ACCESSED;;
  read_loop (S (Z.to_nat (f_size f - f_offset f))) len [].

(** [memcpy(file->buf + idx, src, n)] *)
Definition buf_put (idx : nat) (src b : list Z) : list Z := take idx b ++ src ++ drop (idx + length src) b.
(** The loop ends at the first error of the seek, which is not reported. *)
Fixpoint write_loop (fuel : nat) (src : list Z) (bytes : Z) : M session Z :=
  match fuel with
  | O => out_of_fuel
  | S fuel' =>
      if Z.of_nat (length src) =? 0 then mret bytes else
      f ← gets file;
      let idx := f_offset f mod 512 in
      let cnt := Z.min (Z.of_nat (length src)) (512 - idx) in
      change_file (set_f_buf (buf_put (Z.to_nat idx) (take (Z.to_nat cnt) src) (f_buf f)));;
      raise FAT_FILE_DIRTY;;
      e ← fat_file_seek cnt FAT_SEEK_CURR;
      match e with
      | Err _ => mret (bytes + cnt)
      | Ok _ => write_loop fuel' (drop (Z.to_nat cnt) src) (bytes + cnt)
      end
  end.
(** [src]: the [len] bytes the caller's buffer holds. *)
Definition fat_file_write (src : list Z) : M session (Z * res unit) :=
  f ← gets file;
  if negb (f_open f) then mret (0, Err FAT_ERR_PARAM) else
  if negb (has_flag (f_flags f) FAT_WRITE) then mret (0, Err FAT_ERR_DENIED) else
  raise (Z.lor FAT_MODIFIED FAT_ACCESSED);;
  bytes ← write_loop (S (length src)) src 0;
  f ← gets file;
  when (f_size f <? f_offset f) (change_file (set_size (f_offset f)));;
  mret (bytes, Ok tt).

(** ** Synchronizing *)

(** The directory entry: [acc_date], and for a modified file the attribute, the size and
    the time of the modification. *)
Definition touch_entry (f : File) (date time : Z) (b : list Z) : list Z :=
  let at_ (o : nat) := (Z.to_nat (f_dir_idx f) + o)%nat in
  let b := if has_flag (f_flags f) FAT_ACCESSED then set_le 2 (at_ 18%nat) date b else b in
  if has_flag (f_flags f) FAT_MODIFIED then
    let b := set_le 1 (at_ 11%nat) (Z.lor (get_le 1 (at_ 11%nat) b) FAT_ATTR_ARCHIVE) b in
    let b := set_le 4 (at_ 28%nat) (f_size f) b in
    let b := set_le 2 (at_ 24%nat) date b in
    set_le 2 (at_ 22%nat) time b
  else b.
Definition fat_file_sync : M session (res unit) :=
  f ← gets file;
  if negb (f_open f) then mret (Err FAT_ERR_PARAM) else
  ok ← on_vol (ops_write (f_buf f) (f_sect f));
  if negb (ok : bool) then mret (Err FAT_ERR_IO) else
  (if has_flag (f_flags f) (Z.lor FAT_ACCESSED FAT_MODIFIED) then
     on_vol (update_buf (f_dir_sect f)) ;?
     on_vol (raise_flag FAT_BUF_DIRTY);;
     let (date, time) := encode_timestamp fat_get_timestamp in
     on_vol (change_fat (λ g, set_buf (touch_entry f date time (buf g)) g));;
     mret (Ok tt)
   else mret (Ok tt)) ;?
  on_vol sync_fs ;?
  lower (Z.lor FAT_ACCESSED FAT_MODIFIED);;
  mret (Ok tt).
Definition fat_file_close : M session (res unit) :=
  f ← gets file;
  if negb (f_open f) then mret (Err FAT_ERR_PARAM) else fat_file_sync.
