(* ===== verification/FatData.v ===== *)
(** * FAT32: the contents of an open file

    Seen through its buffer an open file is a list of bytes: those of the sectors of
    its chain of clusters, in order.  Seeking leaves it unchanged, reading returns a
    part of it, writing replaces a part of it. *)
From S2P Require Import Prelude.
From S2P Require Import CString.
From S2P Require Import FatNames.
From S2P Require Import FatTable.
From S2P Require Import FatCache.
From S2P Require Import FatChain.
From S2P Require Import FatFile.
Local Open Scope Z_scope.
Local Open Scope fat_scope.

(** ** Concatenations of equal parts *)
Section parts.
Context {A B : Type}.
Implicit Types (f g : A → list B) (l : list A).

Lemma bind_split f l i x :
  l !! i = Some x → l ≫= f = (take i l ≫= f) ++ f x ++ (drop (S i) l ≫= f).
Proof. intros H. by rewrite <- (take_drop_middle _ _ _ H) at 1; rewrite bind_app, bind_cons. Qed.
Lemma bind_length f l k : (∀ x, x ∈ l → length (f x) = k) → length (l ≫= f) = (k * length l)%nat.
Proof.
  induction l as [|x l IH]; intros H; [cbn; lia|].
  rewrite bind_cons, length_app, H, IH by set_solver. cbn [length]. lia.
Qed.
Lemma bind_ext_in f g l : (∀ x, x ∈ l → f x = g x) → l ≫= f = l ≫= g.
Proof.
  induction l as [|x l IH]; intros H; [done|]. rewrite !bind_cons, H, IH by set_solver. done.
Qed.
Lemma bind_prefix_length f l i x k :
  (∀ y, y ∈ l → length (f y) = k) → l !! i = Some x → length (take i l ≫= f) = (k * i)%nat.
Proof.
  intros H Hi. rewrite (bind_length _ _ k).
  - rewrite length_take. apply lookup_lt_Some in Hi. f_equal. lia.
  - intros y Hy. apply H. revert Hy. apply subseteq_take.
Qed.
(** The [j]-th element of the [i]-th part. *)
Lemma bind_lookup f l i x k j :
  (∀ y, y ∈ l → length (f y) = k) → l !! i = Some x → (j < k)%nat →
  (l ≫= f) !! (k * i + j)%nat = f x !! j.
Proof.
  intros H Hi Hj. pose proof (bind_prefix_length _ _ _ _ _ H Hi) as Hl.
  rewrite (bind_split _ _ _ _ Hi), lookup_app_r, Hl by lia.
  replace (k * i + j - k * i)%nat with j by lia.
  rewrite lookup_app_l; [done|]. rewrite (H x); [done|]. by eapply list_elem_of_lookup_2.
Qed.
(** A piece that lies in the [i]-th part. *)
Lemma bind_piece f l i x k j n :
  (∀ y, y ∈ l → length (f y) = k) → l !! i = Some x → (j + n ≤ k)%nat →
  take n (drop (k * i + j) (l ≫= f)) = take n (drop j (f x)).
Proof.
  intros H Hi Hj. pose proof (bind_prefix_length _ _ _ _ _ H Hi) as Hl.
  assert (length (f x) = k) by (apply H; by eapply list_elem_of_lookup_2).
  rewrite (bind_split _ _ _ _ Hi), drop_app_ge, Hl by lia.
  replace (k * i + j - k * i)%nat with j by lia.
  rewrite drop_app_le, take_app_le by (rewrite ?length_drop; lia). done.
Qed.
(** Replacing a piece of the [i]-th part. *)
Lemma bind_replace f g l i x k j (p : list B) :
  (∀ y, y ∈ l → length (f y) = k) → NoDup l → l !! i = Some x →
  (∀ y, y ∈ l → y ≠ x → g y = f y) → (j + length p ≤ k)%nat →
  g x = take j (f x) ++ p ++ drop (j + length p) (f x) →
  l ≫= g = take (k * i + j) (l ≫= f) ++ p ++ drop (k * i + j + length p) (l ≫= f).
Proof.
  intros H Hnd Hi Hne Hj Hx. pose proof (bind_prefix_length _ _ _ _ _ H Hi) as Hl.
  assert (Hfx : length (f x) = k) by (apply H; by eapply list_elem_of_lookup_2).
  rewrite <- (take_drop_middle _ _ _ Hi) in Hnd. apply NoDup_app in Hnd as (_ & H1 & [H2 _]%NoDup_cons).
  rewrite !(bind_split _ l i x) by done.
  rewrite (bind_ext_in g f (take i l)), (bind_ext_in g f (drop (S i) l)), Hx.
  - rewrite take_app_ge, drop_app_ge, !Hl by lia.
    replace (k * i + j - k * i)%nat with j by lia.
    replace (k * i + j + length p - k * i)%nat with (j + length p)%nat by lia.
    rewrite take_app_le, drop_app_le by lia. by rewrite <- !app_assoc.
  - intros y Hy. apply Hne; [by eapply subseteq_drop|]. by intros ->.
  - intros y Hy. apply Hne; [by eapply subseteq_take|]. intros ->. eapply H1; [exact Hy|left].
Qed.
End parts.

(** ** The sectors of a file *)

(** The areas of the volume do not overlap and fit the 32 bits of a sector number; a
    cluster is a power of two of sectors. *)
Record layout_ok (f : Fat) : Prop := {
  la_shift : 0 ≤ clust_shift f < 8;
  la_mask : clust_msk f = Z.ones (clust_shift f);
  la_tables : 0 < info_sect f < data_sect f ∧ fat_sect0 f + clust_cnt f / 128 ≤ data_sect f ∧
    fat_sect1 f + clust_cnt f / 128 ≤ data_sect f;
  la_data : data_sect f + clust_cnt f * 2 ^ clust_shift f < 2 ^ 32
}.
(** Sectors per cluster. *)
Definition spc (f : Fat) : Z := 2 ^ clust_shift f.
Definition file_sectors (f : Fat) (l : list Z) : list Z :=
  l ≫= λ c, seqZ (clust_to_sect f c) (spc f).
(** The bytes that fit the clusters. *)
Definition capacity (f : Fat) (l : list Z) : Z := Z.of_nat (length l) * (512 * spc f).

Section sectors.
Context (f : Fat) (l : list Z).
Hypothesis Hf : layout_ok f.
Hypothesis Hl : Forall (cluster f) l.

Lemma spc_pos : 0 < spc f ≤ 128.
Proof using Hf.
  pose proof (la_shift _ Hf). unfold spc. split; [lia|]. change 128 with (2 ^ 7). apply Z.pow_le_mono_r; lia.
Qed.
Lemma clust_size_spc : clust_size f = 512 * spc f.
Proof using Hf.
  pose proof spc_pos. pose proof (la_shift _ Hf). unfold clust_size.
  rewrite Z.shiftl_mul_pow2 by lia. fold (spc f). apply u32_small. lia.
Qed.
Lemma cluster_sector c :
  cluster f c →
  clust_to_sect f c = data_sect f + (c - 2) * spc f ∧
  data_sect f ≤ clust_to_sect f c ∧ clust_to_sect f c + spc f < 2 ^ 32.
Proof using Hf.
  intros Hc. pose proof (la_tables _ Hf) as [H0 _]. pose proof spc_pos. pose proof (la_data _ Hf) as Hd. fold (spc f) in Hd.
  unfold cluster in Hc. unfold clust_to_sect.
  rewrite (u32_small (c - 2)), Z.shiftl_mul_pow2 by (pose proof (la_shift _ Hf); nia). fold (spc f).
  rewrite (u32_small ((c - 2) * spc f)), u32_small by nia. split_and!; [lia|nia|nia].
Qed.

Lemma file_sectors_length : length (file_sectors f l) = (Z.to_nat (spc f) * length l)%nat.
Proof using. apply bind_length. intros c _. apply length_seqZ. Qed.
Lemma file_sectors_lookup i c :
  0 ≤ i → l !! Z.to_nat (i / spc f) = Some c →
  file_sectors f l !! Z.to_nat i = Some (clust_to_sect f c + i mod spc f).
Proof using Hf.
  intros Hi Hc. pose proof spc_pos. pose proof (Z.mod_pos_bound i (spc f) ltac:(lia)).
  pose proof (Z.div_pos i (spc f) Hi ltac:(lia)).
  replace (Z.to_nat i) with (Z.to_nat (spc f) * Z.to_nat (i / spc f) + Z.to_nat (i mod spc f))%nat.
  - unfold file_sectors.
    rewrite (bind_lookup _ _ _ c (Z.to_nat (spc f))); [|intros; apply length_seqZ|done|lia].
    apply lookup_seqZ. lia.
  - rewrite <- Z2Nat.inj_mul, <- Z2Nat.inj_add by nia. f_equal. symmetry. apply Z.div_mod. lia.
Qed.
Lemma file_sector_data x : x ∈ file_sectors f l → data_sect f ≤ x < 2 ^ 32.
Proof using Hf Hl.
  intros (c & Hx & Hc)%list_elem_of_bind. rewrite Forall_forall in Hl.
  pose proof (cluster_sector c (Hl c Hc)). apply elem_of_seqZ in Hx. lia.
Qed.
Lemma file_sectors_nodup : NoDup l → NoDup (file_sectors f l).
Proof using Hf Hl.
  intros Hnd. rewrite Forall_forall in Hl. pose proof spc_pos. apply NoDup_bind; [|intros; apply NoDup_seqZ|done].
  intros c d x Hc Hd Hxc Hxd. apply elem_of_seqZ in Hxc, Hxd.
  pose proof (cluster_sector c (Hl c Hc)) as [E1 _]. pose proof (cluster_sector d (Hl d Hd)) as [E2 _]. nia.
Qed.
End sectors.

(** ** The view through the buffer of the file *)
Definition view (s : session) (x : Z) : option (list Z) :=
  if decide (f_sect (file s) = x) then Some (f_buf (file s)) else disk (vol s) !! x.
Definition sector (s : session) (x : Z) : list Z := default [] (view s x).
(** The bytes of a file whose clusters are [l]. *)
Definition contents (s : session) (l : list Z) : list Z := file_sectors (fat (vol s)) l ≫= sector s.

(** The file is open with the clusters [l], its current cluster and sector are those of
    its offset, and its buffer is this sector. *)
Record opened (l : list Z) (s : session) : Prop := {
  op_ok : fat_ok (vol s);
  op_layout : layout_ok (fat (vol s));
  op_open : f_open (file s) = true;
  op_chain : chain (vol s) (f_sclust (file s)) l;
  op_disk : ∀ x, x ∈ file_sectors (fat (vol s)) l → is_Some (disk (vol s) !! x);
  op_apart : sect (fat (vol s)) ∉ file_sectors (fat (vol s)) l;
  op_offset : 0 ≤ f_offset (file s) < capacity (fat (vol s)) l;
  op_clust : l !! Z.to_nat (f_offset (file s) / 512 / spc (fat (vol s))) = Some (f_clust (file s));
  op_sect : file_sectors (fat (vol s)) l !! Z.to_nat (f_offset (file s) / 512) = Some (f_sect (file s));
  op_buf : length (f_buf (file s)) = 512%nat;
  op_clean : has_flag (f_flags (file s)) FAT_FILE_DIRTY = false →
    disk (vol s) !! f_sect (file s) = Some (f_buf (file s))
}.

(** ** What is left alone *)
Section geometry.
Context (f f' : Fat).
Hypothesis Hg : geometry_of f' = geometry_of f.

Lemma clust_to_sect_geometry c : clust_to_sect f' c = clust_to_sect f c.
Proof using Hg.
  unfold geometry_of in Hg. injection Hg as E1 E2 E3 E4 E5 E6 E7 E8. unfold clust_to_sect. by rewrite E6, E8.
Qed.
Lemma spc_geometry : spc f' = spc f.
Proof using Hg. unfold geometry_of in Hg. injection Hg as E1 E2 E3 E4 E5 E6 E7 E8. unfold spc. by rewrite E8. Qed.
Lemma file_sectors_geometry l : file_sectors f' l = file_sectors f l.
Proof using Hg. apply bind_ext_in. intros c _. by rewrite clust_to_sect_geometry, spc_geometry. Qed.
Lemma capacity_geometry l : capacity f' l = capacity f l.
Proof using Hg. unfold capacity. by rewrite spc_geometry. Qed.
Lemma layout_geometry : layout_ok f → layout_ok f'.
Proof using Hg.
  unfold geometry_of in Hg. injection Hg as E1 E2 E3 E4 E5 E6 E7 E8. intros [H1 H2 H3 H4].
  split; rewrite ?E1, ?E2, ?E3, ?E4, ?E5, ?E6, ?E8; done.
Qed.
End geometry.

Lemma table_chain v v' c l : table (fat_entry v) v v' → chain v c l → chain v' c l.
Proof.
  intros [_ Hg He] Hch. apply (chain_frame v); [done| |done]. pose proof (chain_clusters _ _ _ Hch) as Hcl.
  eapply Forall_impl; [exact Hcl|]. intros d Hd. by apply He, cluster_in_table.
Qed.
(** The clusters of a chain, one after the other. *)
Lemma chain_step v c l k d e :
  chain v c l → l !! k = Some d → l !! S k = Some e → kind v d = Some CLUST_USED ∧ fat_entry v d = e.
Proof.
  intros H. revert k. induction H as [c Hc Hk|c l Hc Hk Hl IH]; intros [|k] Hd He; try done; [|by eapply IH].
  injection Hd as ->. split; [done|]. cbn in He. inversion Hl; subst; by injection He.
Qed.

(** The table, and the sectors of the file on the device. *)
Record moved (l : list Z) (v v' : volume) : Prop := {
  mo_entries : table (fat_entry v) v v';
  mo_disk : ∀ x, x ∈ file_sectors (fat v) l → disk v' !! x = disk v !! x;
  mo_apart : sect (fat v') ∉ file_sectors (fat v) l
}.

Lemma sector_pos f l x : layout_ok f → Forall (cluster f) l → x ∈ file_sectors f l → 0 < x.
Proof. intros Hf Hl Hx. pose proof (file_sector_data _ _ Hf Hl x Hx). pose proof (la_tables _ Hf). lia. Qed.

Lemma moved_refl l v : fat_ok v → sect (fat v) ∉ file_sectors (fat v) l → moved l v v.
Proof. intros Hok Ha. split; [by apply table_refl|done|done]. Qed.
Lemma moved_get_fat l v v1 v2 c :
  layout_ok (fat v) → Forall (cluster (fat v)) l → moved l v v1 → in_table (fat v) c →
  transparent v1 v2 → sect (fat v2) = fat_sect0 (fat v1) + c / 128 → moved l v v2.
Proof.
  intros Hla Hl [M1 M2 M3] Hc Htr Hs. pose proof M1 as [Hok Hg _].
  assert (Ha : sect (fat v2) ∉ file_sectors (fat v) l).
  { intros Hx. pose proof (file_sector_data _ _ Hla Hl _ Hx) as Hd. pose proof (la_tables _ Hla).
    unfold geometry_of in Hg. replace (fat_sect0 (fat v1)) with (fat_sect0 (fat v)) in Hs by congruence.
    destruct (table_sector _ _ (fo_geometry _ Hok) (proj2 (in_table_geometry _ _ _ Hg) Hc)) as (Hd' & _).
    rewrite (geometry_count _ _ Hg) in Hd'. lia. }
  split; [by eapply table_transparent| |done]. intros x Hx. rewrite <- (M2 x Hx).
  pose proof (tr_store _ _ Htr x ltac:(by eapply sector_pos)) as Hst. unfold store in Hst.
  rewrite !decide_False in Hst by (by intros <-). done.
Qed.

(** Writing a sector of the file to the device. *)
Lemma moved_write l v x b :
  fat_ok v → layout_ok (fat v) → Forall (cluster (fat v)) l → sect (fat v) ∉ file_sectors (fat v) l →
  x ∈ file_sectors (fat v) l → length b = 512%nat →
  table (fat_entry v) v (set_disk (<[x:=b]> (disk v)) v).
Proof.
  intros Hok Hla Hl Ha Hx Hb. pose proof (file_sector_data _ _ Hla Hl _ Hx) as Hd. pose proof (la_tables _ Hla).
  set (v' := set_disk _ v). pose proof (fo_cache _ Hok) as [C1 C2 C3 C4].
  assert (Hsx : sect (fat v) ≠ x) by (by intros <-).
  assert (Hst : ∀ y, y ≠ x → store v' y = store v y).
  { intros y Hy. unfold store, v'. cbn. case_decide; [done|]. by rewrite lookup_insert_ne by done. }
  assert (Hon : ∀ y, is_Some (disk v !! y) → is_Some (disk v' !! y)).
  { intros y Hy. unfold v'. cbn. apply lookup_insert_is_Some. destruct (decide (x = y)); auto. }
  split; [|done|].
  - eapply fat_ok_store; [exact Hok| |done|].
    + split; [done| | |].
      * intros y d. unfold v'. cbn. intros [[_ <-]|[_ Hy]]%lookup_insert_Some; [done|by eapply C2].
      * intros [? ?]%C3. split; [done|]. by apply Hon.
      * intros Hdd Hs. unfold v'. cbn. rewrite lookup_insert_ne by done. by apply C4.
    + intros y _. unfold store, v'. cbn. case_decide; [done|]. apply Hon.
  - intros c Hc. unfold fat_entry, entry_word. change (fat v') with (fat v).
    destruct (table_sector _ _ (fo_geometry _ Hok) Hc) as (Hd' & _). by rewrite Hst by lia.
Qed.

(** ** Seeking *)
Section seeking.
Context (l : list Z) (s0 : session).
Hypothesis H0 : opened l s0.
Local Abbreviation v0 := (vol s0).
Local Abbreviation f0 := (fat (vol s0)).

Lemma op_clusters : Forall (cluster f0) l.
Proof using H0. eapply chain_clusters, H0. Qed.
Lemma op_nodup : NoDup (file_sectors f0 l).
Proof using H0. apply file_sectors_nodup; [apply H0|apply op_clusters|eapply chain_nodup, H0]. Qed.
Lemma op_moved : moved l v0 v0.
Proof using H0. apply moved_refl; apply H0. Qed.
Lemma op_current : f_sect (file s0) ∈ file_sectors f0 l.
Proof using H0. eapply list_elem_of_lookup_2, H0. Qed.
Lemma sector_length x : x ∈ file_sectors f0 l → length (sector s0 x) = 512%nat.
Proof using H0.
  intros Hx. unfold sector, view. case_decide; [apply H0|]. destruct (op_disk _ _ H0 x Hx) as [b Hb].
  rewrite Hb. by apply (co_disk _ (fo_cache _ (op_ok _ _ H0)) x).
Qed.

(** The links from one cluster of the file to a later one. *)
Lemma wp_follow_links n : ∀ k d s (Q : res unit → session → Prop),
  l !! k = Some (f_clust (file s)) → l !! (k + n)%nat = Some d → moved l v0 (vol s) →
  (∀ v', moved l v0 v' → Q (Ok tt) {| file := set_clust d (file s); vol := v' |}) →
  wp (follow_links n) Q s.
Proof using H0.
  induction n as [|n IH]; intros k d s Q Hk Hd Hm HQ; cbn [follow_links].
  - apply wp_ret. rewrite Nat.add_0_r, Hk in Hd. injection Hd as <-.
    destruct s as [fl v]. specialize (HQ v Hm). by destruct fl.
  - apply wp_bind, wp_gets, wp_bind, wp_on_vol. pose proof Hm as [[Hok Hg He] _ _].
    destruct (lookup_lt_is_Some_2 l (S k)) as [e He']; [apply lookup_lt_Some in Hd; lia|].
    destruct (chain_step _ _ _ _ _ _ (op_chain _ _ H0) Hk He') as [Hkind Hnext].
    assert (Hin : in_table (fat v0) (f_clust (file s))).
    { apply cluster_in_table. pose proof op_clusters as H. rewrite Forall_forall in H. eapply H, list_elem_of_lookup_2, Hk. }
    apply wp_get_fat; [done|by apply (in_table_geometry _ _ _ Hg)|]. intros v' Htr Hs.
    rewrite He, (classify_geometry _ _ _ Hg) by done. unfold kind in Hkind.
    rewrite Hkind, Hnext. cbn [fst snd].
    change (has_flag CLUST_USED (Z.lor CLUST_BAD CLUST_FREE)) with false.
    change (has_flag CLUST_USED CLUST_LAST) with false. cbv iota.
    apply wp_bind, wp_ret, wp_bind, wp_modify. eapply (IH (S k) d); [done| | |].
    + replace (S k + n)%nat with (k + S n)%nat by lia. exact Hd.
    + eapply moved_get_fat; [apply H0|apply op_clusters|exact Hm|exact Hin|exact Htr|exact Hs].
    + intros v2 Hm2. apply (HQ v2 Hm2).
Qed.

(** The buffer of the file follows its sector. *)
Record refilled (x : Z) (s s' : session) : Prop := {
  rf_file : ∃ fl, file s' = set_f_flags fl (set_f_buf (sector s0 x) (file s)) ∧
    ∀ n, 0 ≤ n → n ≠ 7 → Z.testbit fl n = Z.testbit (f_flags (file s)) n;
  rf_entries : table (fat_entry v0) v0 (vol s');
  rf_apart : sect (fat (vol s')) ∉ file_sectors f0 l;
  rf_disk : ∀ y, y ∈ file_sectors f0 l → is_Some (disk (vol s') !! y) ∧ view s' y = view s0 y;
  rf_clean : has_flag (f_flags (file s')) FAT_FILE_DIRTY = false → disk (vol s') !! x = Some (f_buf (file s'))
}.

(** What holds between writing the old sector back and reading the new one. *)
Record flushed (v : volume) : Prop := {
  fl_entries : table (fat_entry v0) v0 v;
  fl_apart : sect (fat v) ∉ file_sectors f0 l;
  fl_disk : ∀ y, y ∈ file_sectors f0 l → is_Some (disk v !! y) ∧ disk v !! y = view s0 y
}.

Lemma wp_read_sector x s (Q : res unit → session → Prop) :
  flushed (vol s) → f_sect (file s) = x → x ∈ file_sectors f0 l →
  (∀ s', refilled x s s' → Q (Ok tt) s') →
  wp (data ← on_vol (ops_read x);
      match data with
      | None => mret (Err FAT_ERR_IO)
      | Some b => change_file (set_f_buf b);; mret (Ok tt)
      end) Q s.
Proof using Type.
  intros [He Ha Hd] Hx Hin HQ. apply wp_bind, wp_on_vol, wp_gets.
  destruct (Hd x Hin) as [[b Hb] Hv]. rewrite Hb. apply wp_bind, wp_modify, wp_ret, HQ.
  assert (Hs : sector s0 x = b) by (unfold sector; by rewrite <- Hv, Hb).
  split; cbn [vol file].
  - exists (f_flags (file s)). rewrite Hs. by destruct (file s).
  - done.
  - done.
  - intros y Hy. destruct (Hd y Hy) as [? Hvy]. split; [done|]. unfold view at 1. cbn.
    rewrite Hx. case_decide as E; [|done]. subst y. by rewrite <- Hvy, Hb.
  - intros _. exact Hb.
Qed.

(** The buffer is not the sector of the device it came from. *)
Lemma flushed_write_back v b :
  moved l v0 v → b = f_buf (file s0) →
  is_Some (disk v !! f_sect (file s0)) ∧ flushed (set_disk (<[f_sect (file s0):=b]> (disk v)) v).
Proof using H0.
  intros [He Hd Ha] ->. pose proof op_current as Hcur. pose proof (tb_geometry _ _ _ He) as Hg.
  pose proof (file_sectors_geometry _ _ Hg l) as Hfs.
  assert (Hw : table (fat_entry v) v (set_disk (<[f_sect (file s0):=f_buf (file s0)]> (disk v)) v)).
  { apply (moved_write l); [apply He|eapply layout_geometry; [exact Hg|apply H0]| |by rewrite Hfs..|apply H0].
    eapply Forall_impl; [apply op_clusters|]. intros c. unfold cluster. by rewrite (geometry_count _ _ Hg). }
  split; [rewrite Hd by done; by apply H0|]. split.
  - destruct Hw as [W1 W2 W3]. destruct He as [E1 E2 E3]. split; [done|by rewrite W2|].
    intros c Hc. rewrite W3; [by apply E3|]. by apply (in_table_geometry _ _ _ E2).
  - exact Ha.
  - intros y Hy. cbn. unfold view. case_decide as E.
    + subst y. rewrite lookup_insert_eq. eauto.
    + rewrite lookup_insert_ne, Hd by done. split; [by apply H0|done].
Qed.
Lemma flushed_clean v :
  moved l v0 v → has_flag (f_flags (file s0)) FAT_FILE_DIRTY = false → flushed v.
Proof using H0.
  intros [He Hd Ha] Hc. split; [done..|]. intros y Hy. rewrite Hd by done. split; [by apply H0|].
  unfold view. case_decide as E; [|done]. subst y. by apply H0.
Qed.

Lemma wp_refill x s (Q : res unit → session → Prop) :
  moved l v0 (vol s) → f_buf (file s) = f_buf (file s0) → f_flags (file s) = f_flags (file s0) →
  f_sect (file s) = x → x ∈ file_sectors f0 l →
  (∀ s', refilled x s s' → Q (Ok tt) s') →
  wp (refill (f_sect (file s0))) Q s.
Proof using H0.
  intros Hm Hb Hf Hx Hin HQ. pose proof Hm as [He Hd Ha].
  unfold refill. apply wp_bind, wp_gets. destruct (Z.eqb_spec (f_sect (file s)) (f_sect (file s0))) as [E|E].
  - apply wp_ret, HQ. split; [|done|done| |].
    + exists (f_flags (file s)). split; [|done]. unfold sector, view.
      rewrite decide_True, <- Hb by congruence. by destruct (file s).
    + intros y Hy. rewrite Hd by done. split; [by apply H0|]. unfold view. by rewrite Hb, E, Hd.
    + rewrite Hf, Hb, <- Hx, E, Hd by apply op_current. apply H0.
  - apply wp_bind. destruct (has_flag (f_flags (file s)) FAT_FILE_DIRTY) eqn:Hdirty.
    + destruct (flushed_write_back _ _ Hm Hb) as [Hon Hfl].
      apply wp_bind, wp_on_vol. unfold ops_write. apply wp_bind, wp_gets. rewrite decide_True by done.
      apply wp_bind, wp_modify, wp_ret. cbv iota. apply wp_bind, wp_modify, wp_ret.
      rewrite Hx. apply wp_read_sector; [exact Hfl|exact Hx|done|].
      intros s' [(fl & F1 & F2) R2 R3 R4 R5]. apply HQ. split; [|done..]. exists fl. split; [done|].
      intros n Hn Hn7. rewrite F2 by done. cbn. change FAT_FILE_DIRTY with (2 ^ 7).
      by rewrite clear_bits, bool_decide_true, andb_true_r by lia.
    + rewrite Hx. apply wp_ret, wp_read_sector; [|done..]. apply flushed_clean; [done|by rewrite <- Hf].
Qed.

(** The same file at the offset [off] with the bytes [c]. *)
Record seeked (off : Z) (c : list Z) (s' : session) : Prop := {
  se_opened : opened l s';
  se_offset : f_offset (file s') = off;
  se_geometry : geometry_of (fat (vol s')) = geometry_of f0;
  se_contents : contents s' l = c;
  se_size : f_size (file s') = f_size (file s0);
  se_start : f_sclust (file s') = f_sclust (file s0);
  se_flags : ∀ n, 0 ≤ n → n ≠ 7 → Z.testbit (f_flags (file s')) n = Z.testbit (f_flags (file s0)) n
}.

Lemma chain_first v c k : chain v c k → k !! 0%nat = Some c.
Proof using. by destruct 1. Qed.
Lemma place_cluster off :
  0 ≤ off < capacity f0 l →
  ∃ d x, l !! Z.to_nat (off / 512 / spc f0) = Some d ∧ file_sectors f0 l !! Z.to_nat (off / 512) = Some x ∧
    x = u32 (clust_to_sect f0 d + Z.land (off / 512) (clust_msk f0)).
Proof using H0.
  intros Hoff. pose proof (op_layout _ _ H0) as Hla. pose proof (spc_pos _ Hla) as Hs.
  assert (Hi : 0 ≤ off / 512) by (apply Z.div_pos; lia).
  assert (Hk : 0 ≤ off / 512 / spc f0 < Z.of_nat (length l)).
  { split; [apply Z.div_pos; lia|]. unfold capacity in Hoff.
    apply Z.div_lt_upper_bound; [lia|]. apply Z.div_lt_upper_bound; [lia|]. lia. }
  destruct (lookup_lt_is_Some_2 l (Z.to_nat (off / 512 / spc f0))) as [d Hd]; [lia|].
  exists d. eexists. split; [done|]. rewrite (file_sectors_lookup _ _ Hla _ d) by done. split; [done|].
  pose proof op_clusters as Hcl. rewrite Forall_forall in Hcl.
  destruct (cluster_sector _ Hla d) as (E & ? & ?); [eapply Hcl, list_elem_of_lookup_2, Hd|].
  pose proof (la_tables _ Hla). pose proof (Z.mod_pos_bound (off / 512) (spc f0) ltac:(lia)).
  rewrite (la_mask _ Hla), Z.land_ones by apply Hla. fold (spc f0). rewrite u32_small; lia.
Qed.

Lemma seeked_refilled off d x s s' :
  0 ≤ off < capacity f0 l → l !! Z.to_nat (off / 512 / spc f0) = Some d →
  file_sectors f0 l !! Z.to_nat (off / 512) = Some x →
  f_clust (file s) = d → f_sect (file s) = x → f_offset (file s) = off →
  f_open (file s) = true → f_size (file s) = f_size (file s0) → f_sclust (file s) = f_sclust (file s0) →
  f_flags (file s) = f_flags (file s0) →
  refilled x s s' → seeked off (contents s0 l) s'.
Proof using H0.
  intros Hoff Hd Hx Ec Es Eo Eopen Ez Ecl Efl [(fl & F1 & F2) R2 R3 R4 R5].
  pose proof (tb_geometry _ _ _ R2) as Hg. pose proof (file_sectors_geometry _ _ Hg l) as Hfs.
  assert (Hxin : x ∈ file_sectors f0 l) by by eapply list_elem_of_lookup_2.
  split; rewrite ?F1; try done.
  - split; rewrite ?Hfs, ?F1; try done.
    + apply R2.
    + eapply layout_geometry; [exact Hg|apply H0].
    + cbn. rewrite Ecl. eapply table_chain; [exact R2|apply H0].
    + intros y Hy. by apply R4.
    + cbn. rewrite Eo. by rewrite (capacity_geometry _ _ Hg).
    + cbn. rewrite Eo, Ec. by rewrite (spc_geometry _ _ Hg).
    + cbn. by rewrite Eo, Es.
    + cbn. by apply sector_length.
    + intros Hc. rewrite F1 in R5. cbn in *. rewrite Es. by apply R5.
  - unfold contents. rewrite Hfs. apply bind_ext_in. intros y Hy. unfold sector. by rewrite (proj2 (R4 y Hy)).
  - intros n Hn Hn7. cbn. rewrite F2, Efl by done. done.
Qed.

Lemma wp_fat_file_seek offset seek off (Q : res unit → session → Prop) :
  off = offset + match seek with
                 | FAT_SEEK_START => 0
                 | FAT_SEEK_CURR => f_offset (file s0)
                 | FAT_SEEK_END => f_size (file s0)
                 end →
  0 ≤ off < capacity f0 l → off < 2 ^ 32 →
  (∀ s', seeked off (contents s0 l) s' → Q (Ok tt) s') →
  wp (fat_file_seek offset seek) Q s0.
Proof using H0.
  intros Eoff Hoff Hw HQ. pose proof (op_layout _ _ H0) as Hla. pose proof (spc_pos _ Hla) as Hs.
  destruct (place_cluster off Hoff) as (d & x & Hd & Hx & Ex).
  assert (Hdiv : ∀ o, o / clust_size f0 = o / 512 / spc f0).
  { intros o. rewrite (clust_size_spc _ Hla), Z.div_div by lia. done. }
  unfold fat_file_seek. apply wp_bind, wp_gets, wp_bind, wp_on_vol, wp_gets.
  rewrite (op_open _ _ H0). cbn [negb]. rewrite <- Eoff.
  destruct (Z.ltb_spec off 0); [lia|]. destruct (Z.ltb_spec 0xffffffff off); [lia|]. cbn [orb].
  rewrite !Hdiv. set (back := off / 512 / spc f0 <? f_offset (file s0) / 512 / spc f0).
  set (f1 := if back then restarted f0 (file s0) else file s0).
  apply wp_bind. assert (Hwhen : ∀ Q' : unit → session → Prop, Q' tt {| file := f1; vol := v0 |} →
    wp (when back (change_file (restarted f0))) Q' {| file := file s0; vol := v0 |}).
  { intros Q' HQ'. apply wp_when. unfold f1 in HQ'. destruct back; [by apply wp_modify|done]. }
  apply Hwhen. clear Hwhen. apply wp_bind.
  eapply (wp_follow_links _ (Z.to_nat (if back then 0 else f_offset (file s0) / 512 / spc f0)) d).
  - unfold f1. destruct back; [cbn; eapply chain_first, H0|apply H0].
  - rewrite <- Hd. f_equal. assert (0 ≤ f_offset (file s0) / 512 / spc f0).
    { pose proof (op_offset _ _ H0). apply Z.div_pos; [|lia]. apply Z.div_pos; lia. }
    assert (0 ≤ off / 512 / spc f0) by (apply Z.div_pos; [|lia]; apply Z.div_pos; lia).
    unfold back. destruct (Z.ltb_spec (off / 512 / spc f0) (f_offset (file s0) / 512 / spc f0)); lia.
  - exact op_moved.
  - intros v' Hm. pose proof (tb_geometry _ _ _ (mo_entries _ _ _ Hm)) as Hg.
    apply wp_bind, wp_on_vol, wp_gets, wp_bind, wp_modify. unfold f1. cbn [vol file].
    assert (Hsect : u32 (clust_to_sect (fat v') d + Z.land (off / 512) (clust_msk (fat v'))) = x).
    { rewrite (clust_to_sect_geometry _ _ Hg), Ex. unfold geometry_of in Hg.
      by replace (clust_msk (fat v')) with (clust_msk f0) by congruence. }
    apply (wp_refill x); try (cbn [file vol]; destruct back; done).
    + eapply list_elem_of_lookup_2, Hx.
    + intros s' Hr. apply HQ. eapply seeked_refilled; [exact Hoff|exact Hd|exact Hx| | | | | | | |exact Hr];
        cbn [file]; try (destruct back; done); destruct back; cbn; apply H0.
Qed.
End seeking.

Lemma seeked_trans l s0 o1 c1 s1 o2 c2 s2 : seeked l s0 o1 c1 s1 → seeked l s1 o2 c2 s2 → seeked l s0 o2 c2 s2.
Proof.
  intros [A1 A2 A3 A4 A5 A6 A7] [B1 B2 B3 B4 B5 B6 B7]. split; try congruence.
  intros n Hn Hn7. rewrite B7, A7 by done. done.
Qed.
Lemma seeked_capacity l s0 o c s : seeked l s0 o c s → capacity (fat (vol s)) l = capacity (fat (vol s0)) l.
Proof. intros H. apply capacity_geometry, H. Qed.

(** Changes of the other fields of the file. *)
Lemma opened_file l s f' :
  opened l s → f_open f' = true → f_sclust f' = f_sclust (file s) → f_clust f' = f_clust (file s) →
  f_sect f' = f_sect (file s) → f_offset f' = f_offset (file s) → length (f_buf f') = 512%nat →
  (has_flag (f_flags f') FAT_FILE_DIRTY = false →
     has_flag (f_flags (file s)) FAT_FILE_DIRTY = false ∧ f_buf f' = f_buf (file s)) →
  opened l {| file := f'; vol := vol s |}.
Proof.
  intros [H1 H2 H3 H4 H5 H6 H7 H8 H9 H10 H11] Eo Es Ec Ex Eoff Hb Hd.
  split; cbn [file vol]; rewrite ?Es, ?Ec, ?Ex, ?Eoff; try done. by intros [? ->]%Hd; apply H11.
Qed.
Lemma dirty_flag f : has_flag f FAT_FILE_DIRTY = Z.testbit f 7.
Proof. by apply (flag_bit f 7). Qed.
Lemma raised_flags l s n :
  opened l s → 0 ≤ n → n ≠ 7 →
  opened l {| file := set_f_flags (Z.lor (f_flags (file s)) (2 ^ n)) (file s); vol := vol s |}.
Proof.
  intros H Hn Hn7. apply opened_file; try apply H; try done. cbn. rewrite !dirty_flag.
  rewrite raise_bits, bool_decide_false, orb_false_r by lia. done.
Qed.
Lemma file_length l s : opened l s → Z.of_nat (length (contents s l)) = capacity (fat (vol s)) l.
Proof.
  intros H. unfold contents. rewrite (bind_length _ _ 512) by by apply sector_length.
  rewrite file_sectors_length. unfold capacity. pose proof (spc_pos _ (op_layout _ _ H)). lia.
Qed.

(** The byte at the offset is in the buffer. *)
Lemma offset_split o : 0 ≤ o → Z.to_nat o = (512 * Z.to_nat (o / 512) + Z.to_nat (o mod 512))%nat.
Proof.
  intros Ho. pose proof (Z.div_pos o 512 Ho ltac:(lia)). pose proof (Z.mod_pos_bound o 512 ltac:(lia)).
  pose proof (Z.div_mod o 512 ltac:(lia)). lia.
Qed.
Lemma sector_current s : sector s (f_sect (file s)) = f_buf (file s).
Proof. unfold sector, view. by rewrite decide_True. Qed.

(** ** Reading *)
Lemma wp_read_loop l fuel : ∀ len done s (Q : list Z * res unit → session → Prop) (n : Z),
  opened l s → 0 ≤ len < 2 ^ 32 → 0 ≤ f_size (file s) < 2 ^ 32 →
  n = Z.max 0 (Z.min len (f_size (file s) - f_offset (file s))) →
  f_offset (file s) + n < capacity (fat (vol s)) l → (Z.to_nat n < fuel)%nat →
  (∀ s', seeked l s (f_offset (file s) + n) (contents s l) s' →
     Q (done ++ take (Z.to_nat n) (drop (Z.to_nat (f_offset (file s))) (contents s l)), Ok tt) s') →
  wp (read_loop fuel len done) Q s.
Proof.
  induction fuel as [|fuel IH]; intros len done s Q n Hop Hlen Hsize En Hcap Hfuel HQ; [lia|].
  cbn [read_loop]. apply wp_bind, wp_gets. pose proof (op_offset _ _ Hop) as Hoff.
  set (off := f_offset (file s)) in *. set (size := f_size (file s)) in *.
  destruct (Z.eqb_spec len 0) as [E|E]; cbn [orb]; [|destruct (Z.leb_spec size off) as [E'|E']].
  1, 2: assert (n = 0) as -> by lia; apply wp_ret; rewrite Z.add_0_r, take_0, app_nil_r in HQ;
    apply HQ; by split.
  pose proof (Z.mod_pos_bound off 512 ltac:(lia)) as Hidx.
  rewrite (u32_small len) by lia. set (cnt := Z.min len (Z.min (512 - off mod 512) (size - off))).
  assert (Hcnt : 0 < cnt ≤ n ∧ cnt ≤ 512 - off mod 512) by lia.
  apply wp_bind, (wp_fat_file_seek l s Hop _ _ (off + cnt)); [lia|lia|lia|]. intros s1 Hs1.
  pose proof Hs1 as [S1 S2 S3 S4 S5 S6 S7]. apply (IH _ _ _ _ (n - cnt)); [done|lia|by rewrite S5| | |lia|].
  - rewrite S2, S5. fold size. lia.
  - rewrite S2, (seeked_capacity _ _ _ _ _ Hs1). lia.
  - intros s2 Hs2. rewrite S2, S4 in Hs2. replace (off + cnt + (n - cnt)) with (off + n) in Hs2 by lia.
    rewrite S2, S4, <- app_assoc.
    assert (Hp : take (Z.to_nat cnt) (drop (Z.to_nat (off mod 512)) (f_buf (file s))) =
                 take (Z.to_nat cnt) (drop (Z.to_nat off) (contents s l))).
    { rewrite (offset_split off) by lia. unfold contents. rewrite (bind_piece _ _ _ (f_sect (file s)) 512).
      - by rewrite sector_current.
      - by apply sector_length.
      - apply Hop.
      - lia. }
    rewrite Hp. replace (Z.to_nat (off + cnt)) with (Z.to_nat off + Z.to_nat cnt)%nat by lia.
    rewrite <- drop_drop, take_take_drop.
    replace (Z.to_nat cnt + Z.to_nat (n - cnt))%nat with (Z.to_nat n) by lia.
    apply HQ. by eapply seeked_trans.
Qed.

(** What a flag leaves of the rest. *)
Lemma raised_seeked l s n o c s' :
  0 ≤ n → n ≠ 7 →
  seeked l {| file := set_f_flags (Z.lor (f_flags (file s)) (2 ^ n)) (file s); vol := vol s |} o c s' →
  opened l s' ∧ f_offset (file s') = o ∧ contents s' l = c ∧ f_size (file s') = f_size (file s) ∧
  geometry_of (fat (vol s')) = geometry_of (fat (vol s)) ∧
  ∀ i, 0 ≤ i → i ≠ 7 → Z.testbit (f_flags (file s')) i = Z.testbit (f_flags (file s)) i || bool_decide (i = n).
Proof.
  intros Hn Hn7 [H1 H2 H3 H4 H5 H6 H7]. split_and!; try done. intros i Hi Hi7.
  rewrite H7 by done. cbn. by rewrite raise_bits.
Qed.

Lemma wp_fat_file_read l len s (Q : list Z * res unit → session → Prop) (n : Z) :
  opened l s → has_flag (f_flags (file s)) FAT_READ = true →
  0 ≤ len < 2 ^ 32 → 0 ≤ f_size (file s) < 2 ^ 32 →
  n = Z.max 0 (Z.min len (f_size (file s) - f_offset (file s))) →
  f_offset (file s) + n < capacity (fat (vol s)) l →
  (∀ s', seeked l {| file := set_f_flags (Z.lor (f_flags (file s)) FAT_ACCESSED) (file s); vol := vol s |}
           (f_offset (file s) + n) (contents s l) s' →
     Q (take (Z.to_nat n) (drop (Z.to_nat (f_offset (file s))) (contents s l)), Ok tt) s') →
  wp (fat_file_read len) Q s.
Proof.
  intros Hop Hr Hlen Hsize En Hcap HQ. unfold fat_file_read. apply wp_bind, wp_gets.
  rewrite (op_open _ _ Hop), Hr. cbn [negb]. apply wp_bind, wp_modify.
  pose proof (raised_flags l s 5 Hop ltac:(lia) ltac:(lia)) as Hop'. change (2 ^ 5) with FAT_ACCESSED in Hop'.
  apply (wp_read_loop l _ len [] {| file := _; vol := vol s |} Q n); [exact Hop'|done|done|done|done| |exact HQ].
  lia.
Qed.

(** ** Writing *)

(** The bytes at the offset, within the sector. *)
Lemma opened_write l s p :
  opened l s → (Z.to_nat (f_offset (file s) mod 512) + length p ≤ 512)%nat →
  let off := Z.to_nat (f_offset (file s)) in
  let s' := {| file := set_f_flags (Z.lor (f_flags (file s)) FAT_FILE_DIRTY)
                         (set_f_buf (buf_put (Z.to_nat (f_offset (file s) mod 512)) p (f_buf (file s))) (file s));
               vol := vol s |} in
  opened l s' ∧
  contents s' l = take off (contents s l) ++ p ++ drop (off + length p) (contents s l).
Proof.
  intros Hop Hp off s'. pose proof (op_buf _ _ Hop) as Hb. split.
  - apply opened_file; try apply Hop; try done.
    + cbn. unfold buf_put. rewrite !length_app, length_take, length_drop. lia.
    + cbn. rewrite dirty_flag. change FAT_FILE_DIRTY with (2 ^ 7). rewrite raise_bits by lia.
      rewrite bool_decide_true, orb_true_r by done. done.
  - unfold off. rewrite (offset_split (f_offset (file s))) by apply Hop. unfold contents.
    change (vol s') with (vol s). apply (bind_replace (sector s) _ _ _ (f_sect (file s)) 512).
    + by apply sector_length.
    + by apply op_nodup.
    + apply Hop.
    + intros y _ Hy. unfold sector, view. cbn. by rewrite !decide_False by congruence.
    + done.
    + rewrite sector_current. unfold sector, view. cbn. by rewrite decide_True.
Qed.
(** Two pieces in a row. *)
Lemma replace_twice (c p q : list Z) off :
  (off + length p ≤ length c)%nat →
  let c' := take off c ++ p ++ drop (off + length p) c in
  take (off + length p) c' ++ q ++ drop (off + length p + length q) c' =
  take off c ++ (p ++ q) ++ drop (off + length (p ++ q)) c.
Proof.
  intros Hl c'. unfold c'. assert (length (take off c) = off) by (rewrite length_take; lia).
  rewrite take_app_ge, H, drop_app_ge, H by lia.
  replace (off + length p - off)%nat with (length p) by lia.
  rewrite take_app_length. replace (off + length p + length q - off)%nat with (length p + length q)%nat by lia.
  rewrite drop_app_ge by lia. replace (length p + length q - length p)%nat with (length q) by lia.
  rewrite drop_drop, length_app, <- !app_assoc. by rewrite Nat.add_assoc.
Qed.

Lemma wp_write_loop l fuel : ∀ src bytes s (Q : Z → session → Prop),
  opened l s → f_offset (file s) + Z.of_nat (length src) < capacity (fat (vol s)) l →
  f_offset (file s) + Z.of_nat (length src) < 2 ^ 32 → (length src < fuel)%nat →
  (∀ s', seeked l s (f_offset (file s) + Z.of_nat (length src))
           (take (Z.to_nat (f_offset (file s))) (contents s l) ++ src ++
            drop (Z.to_nat (f_offset (file s)) + length src) (contents s l)) s' →
     Q (bytes + Z.of_nat (length src)) s') →
  wp (write_loop fuel src bytes) Q s.
Proof.
  induction fuel as [|fuel IH]; intros src bytes s Q Hop Hcap H32 Hfuel HQ; [lia|].
  pose proof (op_offset _ _ Hop) as Hoff. pose proof (file_length _ _ Hop) as Hcl.
  cbn [write_loop]. set (off := f_offset (file s)) in *.
  destruct (Z.eqb_spec (Z.of_nat (length src)) 0) as [E|E].
  { apply wp_ret. destruct src; [|cbn in E; lia]. cbn [length app] in HQ. rewrite Nat.add_0_r, take_drop in HQ.
    rewrite !Z.add_0_r in HQ. apply HQ. by split. }
  apply wp_bind, wp_gets. pose proof (Z.mod_pos_bound off 512 ltac:(lia)) as Hidx. fold off.
  set (cnt := Z.min (Z.of_nat (length src)) (512 - off mod 512)).
  assert (Hcnt : 0 < cnt ≤ Z.of_nat (length src) ∧ cnt ≤ 512 - off mod 512) by lia.
  assert (Hp : length (take (Z.to_nat cnt) src) = Z.to_nat cnt) by (rewrite length_take; lia).
  destruct (opened_write l s (take (Z.to_nat cnt) src) Hop) as [Hop1 Hc1]; [rewrite Hp; fold off; lia|].
  fold off in Hop1, Hc1. set (s1 := {| file := set_f_flags _ _; vol := vol s |}) in Hop1, Hc1.
  apply wp_bind, wp_modify, wp_bind, wp_modify, wp_bind.
  match goal with |- wp _ _ ?s => change s with s1 end.
  apply (wp_fat_file_seek l s1 Hop1 _ _ (off + cnt)); [change (f_offset (file s1)) with off; lia| |lia|].
  { change (fat (vol s1)) with (fat (vol s)). lia. }
  intros s2 Hs2. pose proof Hs2 as [S1 S2 S3 S4 S5 S6 S7]. rewrite Hc1 in S4.
  apply IH; [done|rewrite S2, (seeked_capacity _ _ _ _ _ Hs2), length_drop|rewrite S2, length_drop|rewrite length_drop|].
  - change (fat (vol s1)) with (fat (vol s)). lia.
  - lia.
  - lia.
  - intros s3 Hs3. rewrite S2, S4 in Hs3. rewrite length_drop in Hs3 |- *.
    replace (off + cnt + Z.of_nat (length src - Z.to_nat cnt)) with (off + Z.of_nat (length src)) in Hs3 by lia.
    replace (bytes + cnt + Z.of_nat (length src - Z.to_nat cnt)) with (bytes + Z.of_nat (length src)) by lia.
    replace (Z.to_nat (off + cnt)) with (Z.to_nat off + length (take (Z.to_nat cnt) src))%nat in Hs3 by lia.
    rewrite <- (length_drop src (Z.to_nat cnt)), replace_twice, take_drop in Hs3 by lia.
    apply HQ. destruct (seeked_trans _ _ _ _ _ _ _ _ Hs2 Hs3) as [T1 T2 T3 T4 T5 T6 T7]. split; try done.
    intros i Hi Hi7. rewrite T7 by done. cbn. change FAT_FILE_DIRTY with (2 ^ 7).
    by rewrite raise_bits, bool_decide_false, orb_false_r by lia.
Qed.

Record written (l src : list Z) (s s' : session) : Prop := {
  wr_opened : opened l s';
  wr_offset : f_offset (file s') = f_offset (file s) + Z.of_nat (length src);
  wr_contents : contents s' l =
    take (Z.to_nat (f_offset (file s))) (contents s l) ++ src ++
    drop (Z.to_nat (f_offset (file s)) + length src) (contents s l);
  wr_size : f_size (file s') = Z.max (f_size (file s)) (f_offset (file s) + Z.of_nat (length src));
  wr_geometry : geometry_of (fat (vol s')) = geometry_of (fat (vol s));
  wr_flags : has_flag (f_flags (file s')) FAT_READ = has_flag (f_flags (file s)) FAT_READ ∧
    has_flag (f_flags (file s')) FAT_MODIFIED = true
}.
Lemma read_flag f : has_flag f FAT_READ = Z.testbit f 1.
Proof. by apply (flag_bit f 1). Qed.
Lemma modified_flag f : has_flag f FAT_MODIFIED = Z.testbit f 6.
Proof. by apply (flag_bit f 6). Qed.
Lemma touched_bit f i :
  0 ≤ i → Z.testbit (Z.lor f (Z.lor FAT_MODIFIED FAT_ACCESSED)) i = Z.testbit f i || bool_decide (i = 6) || bool_decide (i = 5).
Proof.
  intros Hi. change FAT_MODIFIED with (2 ^ 6). change FAT_ACCESSED with (2 ^ 5).
  by rewrite Z.lor_assoc, !raise_bits by lia.
Qed.

Lemma wp_fat_file_write l src s (Q : Z * res unit → session → Prop) :
  opened l s → has_flag (f_flags (file s)) FAT_WRITE = true →
  f_offset (file s) + Z.of_nat (length src) < capacity (fat (vol s)) l →
  f_offset (file s) + Z.of_nat (length src) < 2 ^ 32 →
  (∀ s', written l src s s' → Q (Z.of_nat (length src), Ok tt) s') →
  wp (fat_file_write src) Q s.
Proof.
  intros Hop Hw Hcap H32 HQ. unfold fat_file_write. apply wp_bind, wp_gets.
  rewrite (op_open _ _ Hop), Hw. cbn [negb]. apply wp_bind, wp_modify. set (s1 := {| file := _; vol := vol s |}).
  assert (Hop1 : opened l s1).
  { apply opened_file; try apply Hop; try done. cbn. by rewrite !dirty_flag, touched_bit, !orb_false_r by lia. }
  match goal with |- wp _ _ ?s => change s with s1 end.
  apply wp_bind, (wp_write_loop l); [done..|lia|]. intros s2 [S1 S2 S3 S4 S5 S6 S7].
  change (f_offset (file s1)) with (f_offset (file s)) in *. change (contents s1 l) with (contents s l) in *.
  change (fat (vol s1)) with (fat (vol s)) in *. change (f_size (file s1)) with (f_size (file s)) in *.
  assert (Hflags : has_flag (f_flags (file s2)) FAT_READ = has_flag (f_flags (file s)) FAT_READ ∧
    has_flag (f_flags (file s2)) FAT_MODIFIED = true).
  { rewrite !read_flag, modified_flag, !S7 by lia. 
    change (f_flags (file s1)) with (Z.lor (f_flags (file s)) (Z.lor FAT_MODIFIED FAT_ACCESSED)).
    rewrite !touched_bit by lia. cbn.
    by rewrite !orb_false_r, orb_true_r. }
  apply wp_bind, wp_gets, wp_bind, wp_when. rewrite Z.add_0_l.
  destruct (Z.ltb_spec (f_size (file s2)) (f_offset (file s2))); [apply wp_modify|]; apply wp_ret, HQ.
  - split; try done.
    + apply opened_file; try apply S1; try done.
    + cbn. lia.
  - split; try done. lia.
Qed.

(** ** Synchronizing *)

(** [c] differs from [b] in the directory entry at [o] only. *)
Definition in_entry (o : nat) (b c : list Z) : Prop :=
  length c = length b ∧ ∀ j, (j < o ∨ o + 32 ≤ j)%nat → c !! j = b !! j.
Lemma in_entry_refl o b : in_entry o b b.
Proof. done. Qed.
Lemma in_entry_set o b c n k v :
  (o + 32 ≤ length b)%nat → (k + n ≤ 32)%nat → in_entry o b c → in_entry o b (set_le n (o + k) v c).
Proof.
  intros Hb Hk [Hl Hc]. split.
  - unfold set_le. rewrite set_bytes_length; rewrite ?le_bytes_length; lia.
  - intros j Hj. rewrite <- Hc by done. apply set_bytes_lookup; rewrite le_bytes_length; lia.
Qed.

Section touching.
Context (f : File) (date time : Z) (b : list Z).
Hypothesis Hb : (Z.to_nat (f_dir_idx f) + 32 ≤ length b)%nat.

Lemma touch_entry_in : in_entry (Z.to_nat (f_dir_idx f)) b (touch_entry f date time b).
Proof using Hb.
  unfold touch_entry. destruct (has_flag _ FAT_ACCESSED), (has_flag _ FAT_MODIFIED);
    repeat (apply in_entry_set; [done|lia|]); apply in_entry_refl.
Qed.
Lemma touch_entry_size :
  has_flag (f_flags f) FAT_MODIFIED = true →
  get_le 4 (Z.to_nat (f_dir_idx f) + 28) (touch_entry f date time b) = f_size f mod 2 ^ 32.
Proof using Hb.
  intros Hm. unfold touch_entry. rewrite Hm. set (o := Z.to_nat (f_dir_idx f)) in *.
  set (b1 := if has_flag _ FAT_ACCESSED then _ else b).
  assert (H1 : in_entry o b b1).
  { unfold b1. destruct (has_flag _ FAT_ACCESSED); [|apply in_entry_refl].
    apply in_entry_set; [done|lia|apply in_entry_refl]. }
  set (b2 := set_le 1 _ _ b1). assert (H2 : in_entry o b b2) by (apply in_entry_set; [done|lia|done]).
  set (b3 := set_le 4 _ _ b2). assert (H3 : in_entry o b b3) by (apply in_entry_set; [done|lia|done]).
  set (b4 := set_le 2 _ _ b3). assert (H4 : in_entry o b b4) by (apply in_entry_set; [done|lia|done]).
  destruct H2 as [L2 _], H3 as [L3 _], H4 as [L4 _].
  rewrite get_set_le_other by lia. unfold b4. rewrite get_set_le_other by lia. unfold b3.
  rewrite get_set_le by lia. done.
Qed.
End touching.

(** What a synchronized file has on the device. *)
Record saved (l : list Z) (s s' : session) : Prop := {
  sv_ok : fat_ok (vol s');
  sv_chain : chain (vol s') (f_sclust (file s)) l;
  sv_geometry : geometry_of (fat (vol s')) = geometry_of (fat (vol s));
  sv_data : ∀ x, x ∈ file_sectors (fat (vol s)) l → disk (vol s') !! x = view s x;
  sv_entry : has_flag (f_flags (file s)) FAT_MODIFIED = true →
    ∃ b b', store (vol s) (f_dir_sect (file s)) = Some b ∧ disk (vol s') !! f_dir_sect (file s) = Some b' ∧
      in_entry (Z.to_nat (f_dir_idx (file s))) b b' ∧
      get_le 4 (Z.to_nat (f_dir_idx (file s)) + 28) b' = f_size (file s) mod 2 ^ 32
}.
(** The directory entry lies in the data area, outside the file. *)
Record entry_ok (l : list Z) (s : session) : Prop := {
  eo_idx : 0 ≤ f_dir_idx (file s) ∧ f_dir_idx (file s) + 32 ≤ 512;
  eo_sect : data_sect (fat (vol s)) ≤ f_dir_sect (file s);
  eo_apart : f_dir_sect (file s) ∉ file_sectors (fat (vol s)) l;
  eo_on : is_Some (store (vol s) (f_dir_sect (file s)))
}.

Lemma fat_entry_store v v' c :
  geometry_of (fat v') = geometry_of (fat v) →
  store v' (fat_sect0 (fat v) + c / 128) = store v (fat_sect0 (fat v) + c / 128) →
  fat_entry v' c = fat_entry v c.
Proof.
  intros Hg Hs. unfold geometry_of in Hg. unfold fat_entry, entry_word.
  replace (fat_sect0 (fat v')) with (fat_sect0 (fat v)) by congruence. by rewrite Hs.
Qed.
Lemma op_view l s x :
  opened l s → x ∈ file_sectors (fat (vol s)) l →
  store (set_disk (<[f_sect (file s):=f_buf (file s)]> (disk (vol s))) (vol s)) x = view s x.
Proof.
  intros Hop Hx. unfold store, view. cbn.
  rewrite decide_False by (intros E; apply (op_apart _ _ Hop); by rewrite E).
  case_decide as E; [subst x; by rewrite lookup_insert_eq|by rewrite lookup_insert_ne].
Qed.

(** [v] holds the sectors of the file and [e], when there is one, as its directory entry. *)
Record prepared (l : list Z) (s : session) (e : option (list Z)) (v : volume) : Prop := {
  pr_ok : fat_ok v;
  pr_geometry : geometry_of (fat v) = geometry_of (fat (vol s));
  pr_store : ∀ y, 0 < y → store v y =
    if decide (y = f_dir_sect (file s) ∧ is_Some e) then e
    else store (set_disk (<[f_sect (file s):=f_buf (file s)]> (disk (vol s))) (vol s)) y
}.
Lemma saved_prepared l s e v v' :
  opened l s → entry_ok l s → prepared l s e v → synced v v' →
  (has_flag (f_flags (file s)) FAT_MODIFIED = true → ∃ b b',
     e = Some b' ∧ store (vol s) (f_dir_sect (file s)) = Some b ∧
     in_entry (Z.to_nat (f_dir_idx (file s))) b b' ∧
     get_le 4 (Z.to_nat (f_dir_idx (file s)) + 28) b' = f_size (file s) mod 2 ^ 32) →
  ∀ s', vol s' = v' → saved l s s'.
Proof.
  intros Hop [Hidx Hd Hap _] [P1 P2 P3] [S1 S2 S3 S4 [S5 _] S6] He s' <-.
  pose proof (op_layout _ _ Hop) as Hla. pose proof (la_tables _ Hla) as Ht.
  pose proof (op_clusters _ _ Hop) as Hcl.
  pose proof (op_current _ _ Hop) as Hcur. pose proof (file_sector_data _ _ Hla Hcl _ Hcur) as Hcd.
  assert (Hinfo : info_sect (fat v) = info_sect (fat (vol s))) by (unfold geometry_of in P2; congruence).
  assert (Hst : ∀ y, 0 < y → y ≠ info_sect (fat (vol s)) → store (vol s') y = store v y).
  { intros y Hy Hne. apply S6; [done|by rewrite Hinfo]. }
  assert (Hg : geometry_of (fat (vol s')) = geometry_of (fat (vol s))) by (by rewrite S2).
  split; [done| |done| |].
  - apply (chain_frame (vol s)); [done| |apply Hop]. eapply Forall_impl; [exact Hcl|]. intros c Hc.
    apply cluster_in_table in Hc. destruct (table_sector _ _ (fo_geometry _ (op_ok _ _ Hop)) Hc) as (Hc' & _).
    pose proof (fo_geometry _ (op_ok _ _ Hop)) as [_ _ [G1 _] _ [G2 _]].
    apply fat_entry_store; [done|]. rewrite Hst, P3 by lia. rewrite decide_False by lia.
    unfold store. cbn. case_decide; [done|]. by rewrite lookup_insert_ne by lia.
  - intros x Hx. pose proof (file_sector_data _ _ Hla Hcl _ Hx) as Hxd.
    rewrite (clean_store (vol s')); [|apply S1|done|lia].
    rewrite Hst by lia. rewrite P3 by lia.
    rewrite decide_False by (intros [-> _]; by apply Hap). by apply (op_view l).
  - intros Hm. destruct (He Hm) as (b & b' & -> & Hb & Hin & Hz). exists b, b'. split_and!; try done.
    rewrite (clean_store (vol s')); [|apply S1|done|lia]. rewrite Hst, P3 by lia.
    rewrite decide_True by eauto. done.
Qed.

Lemma prepared_clean l s :
  opened l s → prepared l s None (set_disk (<[f_sect (file s):=f_buf (file s)]> (disk (vol s))) (vol s)).
Proof.
  intros Hop. split; [|done|].
  - eapply (moved_write l); try apply Hop; [by apply op_clusters|by apply op_current].
  - intros y _. by rewrite decide_False by (intros [_ []]; done).
Qed.
(** The entry is changed in the buffer of the volume. *)
Lemma prepared_touch l s b g v2 :
  opened l s → entry_ok l s →
  let v1 := set_disk (<[f_sect (file s):=f_buf (file s)]> (disk (vol s))) (vol s) in
  transparent v1 v2 → sect (fat v2) = f_dir_sect (file s) → buf (fat v2) = b → length (g b) = 512%nat →
  prepared l s (Some (g b))
    (set_fat (λ f, set_flags (Z.lor (flags f) FAT_BUF_DIRTY) (set_buf (g (buf f)) f)) v2).
Proof.
  intros Hop [Hidx Hd Hap _] v1 Htr Hs Hb Hg. pose proof (la_tables _ (op_layout _ _ Hop)) as Ht.
  destruct (buffer_write (f_dir_sect (file s)) b g v2) as (H1 & H2 & H3); [apply Htr|lia|done..|].
  cbn zeta in H1, H2, H3. set (v3 := set_fat _ v2) in *.
  assert (Hst : ∀ y, 0 < y → store v3 y = if decide (y = f_dir_sect (file s)) then Some (g b) else store v1 y).
  { intros y Hy. rewrite H3 by done. case_decide; [done|]. by apply (tr_store _ _ Htr). }
  assert (Hgeo : geometry_of (fat v3) = geometry_of (fat (vol s))).
  { rewrite (rest_geometry _ _ H2). apply rest_geometry, Htr. }
  split; [|done|].
  - eapply fat_ok_store; [apply (prepared_clean l s Hop)|exact H1|done|]. intros y Hy Hon.
    rewrite Hst by done. case_decide; eauto.
  - intros y Hy. rewrite Hst by done. destruct (decide (y = f_dir_sect (file s))).
    + rewrite decide_True by eauto. done.
    + by rewrite decide_False by naive_solver.
Qed.
Lemma has_flag_none f a b : has_flag f (Z.lor a b) = false → has_flag f b = false.
Proof.
  unfold has_flag. rewrite !negb_false_iff, !Z.eqb_eq, Z.land_lor_distr_r. by intros [_ H]%Z.lor_eq_0_iff.
Qed.

Lemma wp_fat_file_sync l s (Q : res unit → session → Prop) :
  opened l s → entry_ok l s → (∀ s', saved l s s' → Q (Ok tt) s') → wp fat_file_sync Q s.
Proof.
  intros Hop He HQ. pose proof He as [Hidx Hd Hap [b Hb]]. pose proof (la_tables _ (op_layout _ _ Hop)) as Ht.
  pose proof (op_current _ _ Hop) as Hcur. pose proof (prepared_clean l s Hop) as Hp1.
  unfold fat_file_sync. apply wp_bind, wp_gets. rewrite (op_open _ _ Hop). cbn [negb].
  apply wp_bind, wp_on_vol. unfold ops_write. apply wp_bind, wp_gets.
  rewrite decide_True by (apply Hop; exact Hcur). apply wp_bind, wp_modify, wp_ret. cbn [negb].
  set (v1 := set_disk _ (vol s)) in *.
  assert (Hend : ∀ e v, prepared l s e v →
    (has_flag (f_flags (file s)) FAT_MODIFIED = true → ∃ b b', e = Some b' ∧
       store (vol s) (f_dir_sect (file s)) = Some b ∧ in_entry (Z.to_nat (f_dir_idx (file s))) b b' ∧
       get_le 4 (Z.to_nat (f_dir_idx (file s)) + 28) b' = f_size (file s) mod 2 ^ 32) →
    wp (on_vol sync_fs ;? lower (Z.lor FAT_ACCESSED FAT_MODIFIED);; mret (Ok tt)) Q {| file := file s; vol := v |}).
  { intros e v Hp Hm. apply wp_bind, wp_on_vol, wp_sync_fs; [apply Hp|]. intros v' Hs _.
    apply wp_bind, wp_modify, wp_ret, HQ. by eapply saved_prepared. }
  apply wp_bind. destruct (has_flag (f_flags (file s)) (Z.lor FAT_ACCESSED FAT_MODIFIED)) eqn:Hfl.
  2:{ apply wp_ret, (Hend None); [done|]. by rewrite (has_flag_none _ _ _ Hfl). }
  assert (Hb1 : store v1 (f_dir_sect (file s)) = Some b).
  { revert Hb. unfold store, v1. cbn. case_decide; [done|]. rewrite lookup_insert_ne; [done|].
    intros E. apply Hap. by rewrite <- E. }
  apply wp_bind, wp_on_vol, wp_update_buf; [apply Hp1|cbn [vol]; lia|]. cbn [vol]. intros v2 Htr.
  rewrite Hb1. intros [Hs2 Hb2]. apply wp_bind, wp_on_vol, wp_modify.
  pose proof (store_length _ _ _ (fo_cache _ (op_ok _ _ Hop)) Hb) as Hbl.
  destruct (encode_timestamp fat_get_timestamp) as [date time]. apply wp_bind, wp_on_vol, wp_modify, wp_ret.
  assert (Hin : in_entry (Z.to_nat (f_dir_idx (file s))) b (touch_entry (file s) date time b)) by (apply touch_entry_in; lia).
  apply (Hend (Some (touch_entry (file s) date time b))).
  - apply (prepared_touch l s b (touch_entry (file s) date time) v2); try done. rewrite <- Hbl. apply Hin.
  - intros Hm. exists b, (touch_entry (file s) date time b). split_and!; try done. apply touch_entry_size; [lia|done].
Qed.
