(* ===== verification/FatMount.v ===== *)
(** * FAT32: mounted volumes

    The list of mounted volumes and the global buffer of src/libs/fat32/fat.c, with
    [fat_probe], [fat_mount], [find_fat_volume] and [fat_umount].  A [Fat*] is the
    address of the structure the caller provides; all volumes are on the one device the
    kernel has (the SD card), whose sectors are [device]. *)
From S2P Require Import Prelude.
From S2P Require Import CString.
From S2P Require Import FatNames.
From S2P Require Import FatTable.
Local Open Scope Z_scope.
Local Open Scope fat_scope.

(** ** State *)

(** A [Fat] with its fields [next], [name_len] and [name]. *)
Record mount := { m_fat : Fat; m_next : option Z; m_name_len : Z; m_name : list Z }.
Record library := {
  mounts : gmap Z mount;
  g_fat_list : option Z;
  device : gmap Z (list Z);
  g_buf : list Z;
  g_len : Z;
  g_crc : Z
}.
Definition set_mounts m s : library := {| s with mounts := m |}.
Definition set_fat_list p s : library := {| s with g_fat_list := p |}.
Definition set_g_buf b s : library := {| s with g_buf := b |}.
Definition set_g_len n s : library := {| s with g_len := n |}.
Definition set_g_crc c s : library := {| s with g_crc := c |}.
Definition set_m_fat f (m : mount) : mount := {| m with m_fat := f |}.
Definition set_m_next p (m : mount) : mount := {| m with m_next := p |}.

Abbreviation L := (M library).
Definition get_mount (p : Z) : L mount := λ s,
  match mounts s !! p with Some m => Done m s | None => Undefined end.
Definition change_mount (p : Z) (g : mount → mount) : L unit := λ s,
  match mounts s !! p with
  | Some m => Done tt (set_mounts (<[p := g m]> (mounts s)) s)
  | None => Undefined
  end.
(** A call on a volume. *)
Definition put_volume (p : Z) (m : mount) (v : volume) (s : library) : library :=
  {| s with mounts := <[p := set_m_fat (fat v) m]> (mounts s); device := disk v |}.
Definition on_fat {A} (p : Z) (c : V A) : L A := λ s,
  match mounts s !! p with
  | Some m =>
      match c {| fat := m_fat m; disk := device s |} with
      | Done a v => Done a (put_volume p m v s)
      | Undefined => Undefined
      | Fuel => Fuel
      end
  | None => Undefined
  end.

(** ** Finding a volume by its name *)
Fixpoint find_volume (fuel : nat) (it : option Z) (name : list Z) : L (option Z) :=
  match it with
  | None => mret None
  | Some p =>
      match fuel with
      | O => out_of_fuel
      | S fuel' =>
          m ← get_mount p;
          if (Z.of_nat (length name) =? m_name_len m) && bool_decide (name = take (length name) (m_name m))
          then mret (Some p) else find_volume fuel' (m_next m) name
      end
  end.
Definition list_fuel (s : library) : nat := S (size (mounts s)).
Definition find_fat_volume (name : list Z) : L (option Z) :=
  fuel ← gets list_fuel;
  it ← gets g_fat_list;
  find_volume fuel it name.

(** ** Probing and mounting *)

(** [ops->read(g_buf, sect)] *)
Definition read_g_buf (s : Z) : L (res unit) :=
  d ← gets device;
  match d !! s with
  | None => mret (Err FAT_ERR_IO)
  | Some b => modify (set_g_buf b);; mret (Ok tt)
  end.
(** The first sector of the volume. *)
Definition probe (partition : nat) : L (res Z) :=
  read_g_buf 0 ;?
  b ← gets g_buf;
  if check_fat b then mret (if decide (partition = 0%nat) then Ok 0 else Err FAT_ERR_NOFAT) else
  match get_part_lba b partition with
  | None => mret (Err FAT_ERR_NOFAT)
  | Some lba =>
      read_g_buf lba ;?
      b ← gets g_buf;
      mret (if check_fat b then Ok lba else Err FAT_ERR_NOFAT)
  end.
Definition fat_probe (partition : nat) : L (res unit) :=
  r ← probe partition;
  mret (match r with Ok _ => Ok tt | Err e => Err e end).

(** [__builtin_ctz] of a number that is not 0. *)
Fixpoint pos_ctz (p : positive) : Z := match p with xO p' => 1 + pos_ctz p' | _ => 0 end.
Definition ctz (z : Z) : Z := match z with Zpos p => pos_ctz p | _ => 0 end.

Definition FSINFO_HEAD_SIG : Z := 0x41615252.
Definition FSINFO_STRUCT_SIG : Z := 0x61417272.
Definition FSINFO_TAIL_SIG : Z := 0xaa550000.
Definition fsinfo_ok (b : list Z) : bool :=
  (get_le 4 508 b =? FSINFO_TAIL_SIG) && (get_le 4 0 b =? FSINFO_HEAD_SIG) &&
  (get_le 4 484 b =? FSINFO_STRUCT_SIG) && negb (get_le 4 FSINFO_NEXT_FREE b =? 0xffffffff) &&
  negb (get_le 4 FSINFO_FREE_CNT b =? 0xffffffff).

(** The fields computed from the boot record of the volume that starts at [lba]. *)
Definition layout_of (lba : Z) (bpb : Bpb) (f : Fat) : Fat :=
  let mirror := negb (Z.land (ext_flags bpb) EXT_FLAG_MIRROR =? 0) in
  let use_first := Z.land (ext_flags bpb) EXT_FLAG_SECOND =? 0 in
  let fat_0 := u32 (lba + res_sect_cnt bpb) in
  let fat_1 := u32 (lba + res_sect_cnt bpb + sect_per_fat_32 bpb) in
  {| f with
     clust_shift := ctz (sect_per_clust bpb);
     clust_msk := sect_per_clust bpb - 1;
     clust_cnt := u32 (sect_per_fat_32 bpb * 128);
     root_clust := root_cluster bpb;
     fat_sect0 := if use_first then fat_0 else fat_1;
     fat_sect1 := if mirror then (if use_first then fat_1 else fat_0) else 0;
     info_sect := u32 (lba + bpb_info_sect bpb);
     data_sect := u32 (lba + res_sect_cnt bpb + fat_cnt bpb * sect_per_fat_32 bpb) |}.

(** [name]: the buffer of the name, with its terminator. *)
Definition fat_mount (partition : nat) (p : Z) (name : list Z) : L (res unit) :=
  lba ←? probe partition;
  b ← gets g_buf;
  change_mount p (λ m, set_m_fat (layout_of lba (read_bpb b) (m_fat m)) m);;
  m ← get_mount p;
  read_g_buf (info_sect (m_fat m)) ;?
  b ← gets g_buf;
  if negb (fsinfo_ok b) then mret (Err FAT_ERR_NOFAT) else
  change_mount p (λ m, set_m_fat (set_last_used (get_le 4 FSINFO_NEXT_FREE b)
                                    (set_free_cnt (get_le 4 FSINFO_FREE_CNT b) (m_fat m))) m);;
  name_len ← defined (strlen name);
  if 32 <? name_len then mret (Err FAT_ERR_PARAM) else
  change_mount p (λ m, {| m with m_name := set_bytes 0 (take (Z.to_nat name_len) name) (m_name m);
                                 m_name_len := name_len |});;
  change_mount p (λ m, set_m_fat (set_sect 0 (m_fat m)) m);;
  first ← gets g_fat_list;
  change_mount p (set_m_next first);;
  modify (set_fat_list (Some p));;
  mret (Ok tt).

(** ** Unmounting *)

(** The node before [p] ([Some None]: [p] is the first of the list). *)
Fixpoint find_link (fuel : nat) (previous it : option Z) (p : Z) : L (option (option Z)) :=
  match it with
  | None => mret None
  | Some q =>
      if decide (q = p) then mret (Some previous) else
      match fuel with
      | O => out_of_fuel
      | S fuel' => m ← get_mount q; find_link fuel' it (m_next m) p
      end
  end.
Definition fat_umount (p : Z) : L (res unit) :=
  fuel ← gets list_fuel;
  first ← gets g_fat_list;
  link ← find_link fuel None first p;
  match link with
  | None => mret (Err FAT_ERR_PARAM)
  | Some previous =>
      m ← get_mount p;
      match previous with
      | None => modify (set_fat_list (m_next m))
      | Some q => change_mount q (set_m_next (m_next m))
      end;;
      on_fat p sync_fs
  end.
Definition fat_sync (p : Z) : L (res unit) := on_fat p sync_fs.
