(* ===== verification/FatMounted.v ===== *)
(** * FAT32: a volume that is mounted

    The volume [fat_mount] makes of a boot record: its tables, FsInfo sector and data area lie
    apart, and nothing is to be written back. *)
From S2P Require Import Prelude.
From S2P Require Import CString.
From S2P Require Import FatNames.
From S2P Require Import FatTable.
From S2P Require Import FatCache.
From S2P Require Import FatChain.
From S2P Require Import FatData.
From S2P Require Import FatMount.
Local Open Scope Z_scope.
Local Open Scope fat_scope.

(** The boot record of a volume that starts at [lba]: a cluster is a power of two of
    sectors, the tables are not empty, and the volume fits 32 bits of sectors and 28
    bits of clusters. *)
Record boot_ok (lba : Z) (bpb : Bpb) : Prop := {
  bo_lba : 0 ≤ lba;
  bo_reserved : 2 ≤ res_sect_cnt bpb;
  bo_cluster : ∃ k, 0 ≤ k < 8 ∧ sect_per_clust bpb = 2 ^ k;
  bo_tables : 1 ≤ sect_per_fat_32 bpb < 2 ^ 21;
  bo_fits : lba + res_sect_cnt bpb + 2 * sect_per_fat_32 bpb +
    128 * sect_per_fat_32 bpb * sect_per_clust bpb < 2 ^ 32
}.
Lemma ctz_pow k : 0 ≤ k → ctz (2 ^ k) = k.
Proof.
  intros Hk. rewrite <- (Z2Nat.id k) by done. generalize (Z.to_nat k). clear k Hk. intros n.
  assert (H : ∀ n, ∃ p, 2 ^ Z.of_nat n = Zpos p ∧ pos_ctz p = Z.of_nat n).
  { clear n. induction n as [|n (p & IH1 & IH2)]; [by exists 1%positive|].
    exists (xO p). rewrite Nat2Z.inj_succ, Z.pow_succ_r, IH1 by lia. split; [done|]. cbn. lia. }
  destruct (H n) as (p & E & Hp). by rewrite E.
Qed.
Lemma check_fat_fields b :
  check_fat b = true → fat_cnt (read_bpb b) = 2 ∧ bpb_info_sect (read_bpb b) = 1.
Proof.
  unfold check_fat. set (bpb := read_bpb b). clearbody bpb.
  destruct (Z.eqb_spec (fat_cnt bpb) 2), (Z.eqb_spec (bpb_info_sect bpb) 1); cbn [negb]; intros H; try done;
    repeat (case_match; try done).
Qed.

(** The geometry of the mounted volume. *)
Lemma layout_of_geometry lba bpb f :
  boot_ok lba bpb → fat_cnt bpb = 2 → bpb_info_sect bpb = 1 →
  let g := layout_of lba bpb f in
  geometry_ok g ∧ layout_ok g ∧ info_sect g = lba + 1 ∧ clust_cnt g / 128 = sect_per_fat_32 bpb ∧
  data_sect g = lba + res_sect_cnt bpb + 2 * sect_per_fat_32 bpb ∧
  (∀ t, t = fat_sect0 g ∨ (t = fat_sect1 g ∧ t ≠ 0) →
     lba + res_sect_cnt bpb ≤ t ∧ t + sect_per_fat_32 bpb ≤ data_sect g).
Proof.
  intros [H1 H2 (k & Hk & Hspc) H4 H5] Hcnt Hinfo g.
  assert (Hpow : 1 ≤ 2 ^ k) by (change 1 with (2 ^ 0); apply Z.pow_le_mono_r; lia).
  rewrite Hspc in H5.
  assert (Hbig : 128 * sect_per_fat_32 bpb ≤ 128 * sect_per_fat_32 bpb * 2 ^ k) by nia.
  assert (E1 : clust_cnt g = sect_per_fat_32 bpb * 128) by (apply u32_small; lia).
  assert (E2 : info_sect g = lba + 1) by (cbn; rewrite Hinfo; apply u32_small; lia).
  assert (E3 : data_sect g = lba + res_sect_cnt bpb + 2 * sect_per_fat_32 bpb) by (cbn; rewrite Hcnt; apply u32_small; lia).
  assert (E4 : clust_shift g = k) by (cbn; rewrite Hspc; apply ctz_pow; lia).
  assert (Hfat : (fat_sect0 g = lba + res_sect_cnt bpb ∧
                    (fat_sect1 g = 0 ∨ fat_sect1 g = lba + res_sect_cnt bpb + sect_per_fat_32 bpb)) ∨
                 (fat_sect0 g = lba + res_sect_cnt bpb + sect_per_fat_32 bpb ∧
                    (fat_sect1 g = 0 ∨ fat_sect1 g = lba + res_sect_cnt bpb))).
  { cbn. rewrite !(u32_small (lba + res_sect_cnt bpb)), !u32_small by lia. repeat case_match; lia. }
  assert (E5 : clust_cnt g / 128 = sect_per_fat_32 bpb) by (rewrite E1; apply Z.div_mul; lia).
  split_and!; try done.
  - split; rewrite ?E5, ?E1, ?E2; [lia|apply Z.mod_mul; lia|lia|lia|lia].
  - split; rewrite ?E5, ?E4, ?E3, ?E2, ?E1; [lia| |lia|lia].
    cbn [clust_msk g layout_of]. rewrite Hspc, Z.ones_equiv. lia.
  - lia.
Qed.

(** *** The steps of [fat_mount] *)
Lemma wp_change_mount p g m (Q : unit → library → Prop) s :
  mounts s !! p = Some m → (∀ s', mounts s' !! p = Some (g m) → device s' = device s → g_buf s' = g_buf s →
     g_fat_list s' = g_fat_list s → Q tt s') →
  wp (change_mount p g) Q s.
Proof.
  intros Hm HQ. unfold wp, change_mount. rewrite Hm. apply HQ; [|done..]. cbn. apply lookup_insert_eq.
Qed.
Lemma wp_get_mount p m (Q : mount → library → Prop) s :
  mounts s !! p = Some m → Q m s → wp (get_mount p) Q s.
Proof. intros Hm. unfold wp, get_mount. by rewrite Hm. Qed.
Lemma wp_read_g_buf x b (Q : res unit → library → Prop) s :
  device s !! x = Some b → Q (Ok tt) (set_g_buf b s) → wp (read_g_buf x) Q s.
Proof. intros Hb HQ. unfold read_g_buf. apply wp_bind, wp_gets. rewrite Hb. by apply wp_bind, wp_modify, wp_ret. Qed.
Lemma probe_ok partition s lba s1 :
  probe partition s = Done (Ok lba) s1 →
  check_fat (g_buf s1) = true ∧ mounts s1 = mounts s ∧ device s1 = device s.
Proof.
  intros E. assert (H : wp (probe partition) (λ r s1, ∀ lba, r = Ok lba →
    check_fat (g_buf s1) = true ∧ mounts s1 = mounts s ∧ device s1 = device s) s).
  { clear E lba s1. assert (Hread : ∀ x (Q : res unit → library → Prop) s, Q (Err FAT_ERR_IO) s →
      (∀ b, Q (Ok tt) (set_g_buf b s)) → wp (read_g_buf x) Q s).
    { intros x Q s' He Ho. unfold read_g_buf. apply wp_bind, wp_gets.
      destruct (device s' !! x); [apply wp_bind, wp_modify, wp_ret, Ho|by apply wp_ret]. }
    unfold probe. apply wp_bind, Hread; [by apply wp_ret|]. intros b. apply wp_bind, wp_gets.
    destruct (check_fat (g_buf _)) eqn:Hc; [by apply wp_ret; intros lba _|].
    destruct (get_part_lba _ _); [|by apply wp_ret]. apply wp_bind, Hread; [by apply wp_ret|]. intros b'.
    apply wp_bind, wp_gets, wp_ret. intros lba. by destruct (check_fat (g_buf (set_g_buf b' _))). }
  unfold wp in H. rewrite E in H. exact (H _ eq_refl).
Qed.

(** What the volume needs of the device. *)
Record device_ok (lba : Z) (bpb : Bpb) (s : library) : Prop := {
  de_length : ∀ x d, device s !! x = Some d → length d = 512%nat;
  de_tables : ∀ x, lba + res_sect_cnt bpb ≤ x < lba + res_sect_cnt bpb + 2 * sect_per_fat_32 bpb →
    is_Some (device s !! x)
}.

(** A volume with such a geometry and nothing to write back. *)
Lemma mounted_fat_ok f dev lba bpb s :
  device s = dev → device_ok lba bpb s → boot_ok lba bpb → geometry_ok f → info_sect f = lba + 1 →
  clust_cnt f / 128 = sect_per_fat_32 bpb → data_sect f = lba + res_sect_cnt bpb + 2 * sect_per_fat_32 bpb →
  (∀ t, t = fat_sect0 f ∨ (t = fat_sect1 f ∧ t ≠ 0) →
     lba + res_sect_cnt bpb ≤ t ∧ t + sect_per_fat_32 bpb ≤ data_sect f) →
  is_Some (dev !! (lba + 1)) → sect f = 0 → length (buf f) = 512%nat → flags f = 0 →
  fat_ok {| fat := f; disk := dev |}.
Proof.
  intros <- [D1 D2] [B1 B2 _ _ _] Hg Hi Ec Ed Ht Hinfo Hs Hb Hfl.
  assert (Hdirty : dirty {| fat := f; disk := device s |} = false) by (unfold dirty; cbn; by rewrite Hfl).
  assert (Hst : ∀ x, 0 < x → store {| fat := f; disk := device s |} x = device s !! x).
  { intros x Hx. unfold store. cbn. by rewrite decide_False by lia. }
  assert (Htab : ∀ t c, t = fat_sect0 f ∨ (t = fat_sect1 f ∧ t ≠ 0) → in_table f c →
    is_Some (store {| fat := f; disk := device s |} (t + c / 128))).
  { intros t c Hor Hc. destruct (table_sector _ _ Hg Hc) as (Hc' & _). destruct (Ht t Hor).
    rewrite Hst by lia. apply D2. lia. }
  split; [split|done| | |]; cbn [fat disk].
  - done.
  - exact D1.
  - by rewrite Hdirty.
  - intros _. rewrite Hs. lia.
  - intros c Hc. apply Htab; auto.
  - intros c Hc Hne. apply Htab; auto.
  - rewrite Hi, Hst by lia. exact Hinfo.
Qed.

(** [fat_mount] on such a volume: the fields of the structure, and the list. *)
Definition mounted_fat (lba : Z) (bpb : Bpb) (info : list Z) (f : Fat) : Fat :=
  set_sect 0 (set_last_used (get_le 4 FSINFO_NEXT_FREE info) (set_free_cnt (get_le 4 FSINFO_FREE_CNT info) (layout_of lba bpb f))).
Record mountable (partition : nat) (p : Z) (name : list Z) (s : library) (m : mount) (lba : Z) (s1 : library)
    (info : list Z) (n : Z) : Prop := {
  mb_mount : mounts s !! p = Some m;
  mb_clean : flags (m_fat m) = 0;
  mb_buffer : length (buf (m_fat m)) = 512%nat;
  mb_probe : probe partition s = Done (Ok lba) s1;
  mb_boot : boot_ok lba (read_bpb (g_buf s1));
  mb_device : device_ok lba (read_bpb (g_buf s1)) s;
  mb_info : device s !! (lba + 1) = Some info;
  mb_signature : fsinfo_ok info = true;
  mb_name : strlen name = Some n;
  mb_length : n ≤ 32
}.
Lemma mountable_ok partition p name s m lba s1 info n :
  mountable partition p name s m lba s1 info n →
  let f := mounted_fat lba (read_bpb (g_buf s1)) info (m_fat m) in
  fat_ok {| fat := f; disk := device s |} ∧ layout_ok f.
Proof.
  intros [Hm Hfl Hbl Hp Hboot Hdev Hinfo Hsig Hname Hn].
  destruct (probe_ok _ _ _ _ Hp) as (Hchk & _). destruct (check_fat_fields _ Hchk) as [Hcnt Hi1].
  destruct (layout_of_geometry lba _ (m_fat m) Hboot Hcnt Hi1) as (G1 & G2 & G3 & G4 & G5 & G6). split.
  - eapply (mounted_fat_ok _ _ lba _ s); try done; by destruct G1.
  - by destruct G2.
Qed.
Lemma wp_fat_mount partition p name s m lba s1 info n (Q : res unit → library → Prop) :
  mountable partition p name s m lba s1 info n →
  (∀ s' m', device s' = device s → g_fat_list s' = Some p → mounts s' !! p = Some m' →
     m_fat m' = mounted_fat lba (read_bpb (g_buf s1)) info (m_fat m) → m_next m' = g_fat_list s1 → m_name_len m' = n →
     m_name m' = set_bytes 0 (take (Z.to_nat n) name) (m_name m) → Q (Ok tt) s') →
  wp (fat_mount partition p name) Q s.
Proof.
  intros [Hm Hfl Hbl Hp Hboot Hdev Hinfo Hsig Hname Hn] HQ.
  destruct (probe_ok _ _ _ _ Hp) as (Hchk & Hms & Hds). destruct (check_fat_fields _ Hchk) as [Hcnt Hi1].
  set (bpb := read_bpb (g_buf s1)) in *.
  destruct (layout_of_geometry lba bpb (m_fat m) Hboot Hcnt Hi1) as (_ & _ & G3 & _).
  unfold fat_mount. apply wp_bind, wp_done. exists (Ok lba), s1. split; [exact Hp|].
  apply wp_bind, wp_gets, wp_bind. eapply wp_change_mount; [by rewrite Hms|]. intros s2 Hm2 Hd2 _ L2. fold bpb in Hm2.
  apply wp_bind. eapply wp_get_mount; [exact Hm2|]. cbn [m_fat set_m_fat]. rewrite G3.
  apply wp_bind. eapply wp_read_g_buf; [rewrite Hd2, Hds; exact Hinfo|]. apply wp_bind, wp_gets. cbn [g_buf set_g_buf].
  rewrite Hsig. cbn [negb]. apply wp_bind. eapply wp_change_mount; [exact Hm2|]. intros s3 Hm3 Hd3 _ L3.
  apply wp_bind, wp_defined. exists n. split; [exact Hname|]. destruct (Z.ltb_spec 32 n); [lia|].
  apply wp_bind. eapply wp_change_mount; [exact Hm3|]. intros s4 Hm4 Hd4 _ L4.
  apply wp_bind. eapply wp_change_mount; [exact Hm4|]. intros s5 Hm5 Hd5 _ L5.
  apply wp_bind, wp_gets, wp_bind. eapply wp_change_mount; [exact Hm5|]. intros s6 Hm6 Hd6 _ L6.
  apply wp_bind, wp_modify, wp_ret. eapply HQ; [|done|exact Hm6|done| |done|done].
  - cbn [device set_fat_list]. rewrite Hd6, Hd5, Hd4, Hd3. cbn. by rewrite Hd2, Hds.
  - cbn. rewrite L5, L4, L3. cbn. by rewrite L2.
Qed.
(** Probing twice gives the same answer. *)
Lemma probe_again partition s s1 lba :
  probe partition s = Done (Ok lba) s1 →
  ∃ s2, probe partition s1 = Done (Ok lba) s2 ∧ g_buf s2 = g_buf s1.
Proof.
  intros H. unfold probe, read_g_buf, mbind, M_bind, gets, modify, mret, M_ret in *.
  destruct (device s !! 0) as [b|] eqn:E0; [|done]. cbn [g_buf set_g_buf] in H.
  assert (Hd : ∀ b, device (set_g_buf b s) = device s) by done.
  destruct (check_fat b) eqn:Eb.
  - destruct (decide (partition = 0%nat)); [|done]. injection H as <- <-. rewrite Hd, E0. cbn [g_buf set_g_buf]. rewrite Eb. eauto.
  - destruct (get_part_lba b partition) as [x|] eqn:Ex; [|done]. rewrite Hd in H.
    destruct (device s !! x) as [b'|] eqn:Ex'; [|done]. cbn [g_buf set_g_buf] in H.
    destruct (check_fat b') eqn:Eb'; [|done]. injection H as <- <-. cbn [device set_g_buf]. rewrite E0. cbn [g_buf set_g_buf].
    rewrite Eb, Ex. cbn [device set_g_buf]. rewrite Ex'. cbn [g_buf set_g_buf]. rewrite Eb'. eauto.
Qed.

(** ** Mounting returns

    Whatever the device holds, the calls return, if the structure [p] exists. *)
Section total.
Variable p : Z.
Definition known (s : library) : Prop := is_Some (mounts s !! p).
Definition total {A} (c : L A) : Prop := ∀ s, known s → wp c (λ _, known) s.
Lemma total_bind {A B} (c : L A) (f : A → L B) : total c → (∀ a, total (f a)) → total (c ≫= f).
Proof. intros Hc Hf s Hs. apply wp_bind. eapply wp_mono; [by apply Hc|]. intros a s' Hs'. by apply Hf. Qed.
Lemma total_ret {A} (a : A) : total (mret a).
Proof. intros s Hs. by apply wp_ret. Qed.
Lemma total_gets {A} (f : library → A) : total (gets f).
Proof. intros s Hs. by apply wp_gets. Qed.
Lemma total_read x : total (read_g_buf x).
Proof.
  apply total_bind; [apply total_gets|]. intros d. destruct (d !! x); [|apply total_ret].
  apply total_bind; [|intros _; apply total_ret]. intros s Hs. by apply wp_modify.
Qed.
Lemma total_step {A B} (c : L (res A)) (f : A → L (res B)) :
  total c → (∀ a, total (f a)) → total (a ←? c; f a).
Proof. intros Hc Hf. apply total_bind; [exact Hc|]. intros [a|e]; [apply Hf|apply total_ret]. Qed.
Lemma total_probe n : total (probe n).
Proof.
  unfold probe. apply total_step; [apply total_read|intros []]. apply total_bind; [apply total_gets|intros b].
  destruct (check_fat b); [apply total_ret|]. destruct (get_part_lba b n); [|apply total_ret].
  apply total_step; [apply total_read|intros []]. apply total_bind; [apply total_gets|intros b']. apply total_ret.
Qed.
Lemma total_change g : total (change_mount p g).
Proof. intros s [m Hm]. eapply wp_change_mount; [exact Hm|]. intros s' Hs' _ _ _. by eexists. Qed.
Lemma total_get_mount : total (get_mount p).
Proof. intros s [m Hm]. eapply wp_get_mount; [exact Hm|]. by exists m. Qed.
Lemma total_fat_mount n name : is_Some (strlen name) → total (fat_mount n p name).
Proof.
  intros [len Hl]. unfold fat_mount. apply total_step; [apply total_probe|intros lba].
  apply total_bind; [apply total_gets|intros b]. apply total_bind; [apply total_change|intros _].
  apply total_bind; [apply total_get_mount|intros m]. apply total_step; [apply total_read|intros []].
  apply total_bind; [apply total_gets|intros b']. destruct (negb _); [apply total_ret|].
  apply total_bind; [apply total_change|intros _]. rewrite Hl. cbn [defined].
  apply total_bind; [apply total_ret|intros k]. destruct (32 <? k); [apply total_ret|].
  do 2 (apply total_bind; [apply total_change|intros _]). apply total_bind; [apply total_gets|intros first].
  apply total_bind; [apply total_change|intros _]. apply total_bind; [|intros _; apply total_ret].
  intros s Hs. by apply wp_modify.
Qed.
End total.
