(* ===== verification/FatDir.v ===== *)
(** * FAT32: directories

    The operations of src/libs/fat32/fat.c on directories and paths: searching a
    directory, following a path, adding and removing entries, and the calls built on
    them ([fat_stat], [fat_unlink], [fat_file_open], [fat_dir_create], [fat_dir_open],
    [fat_dir_read]).  [p] is the volume ([dir->fat]) of the directory. *)
From S2P Require Import Prelude.
From S2P Require Import CString.
From S2P Require Import FatNames.
From S2P Require Import FatTable.
From S2P Require Import FatFile.
From S2P Require Import FatMount.
Local Open Scope Z_scope.
Local Open Scope fat_scope.

Record Loc := { l_sect : Z; l_idx : Z }.
(** A step that leaves the directory at a new position, also when it fails. *)
Definition at_pos {A} (r : Dir * res A) (k : Dir → A → L (Dir * res A)) : L (Dir * res A) :=
  match r.2 with Err e => mret (r.1, Err e) | Ok a => k r.1 a end.

Definition get_fat_of (p : Z) : L Fat := m ← get_mount p; mret (m_fat m).
(** [dir_ptr(dir)]: the 32 bytes it points to. *)
Definition dir_ptr (p : Z) (dir : Dir) : L (list Z) := f ← get_fat_of p; mret (dir_entry f dir).
(** The bytes of the entry are replaced and the buffer is dirty. *)
Definition put_entry (p : Z) (dir : Dir) (bytes : list Z) : L unit :=
  on_fat p (change_fat (λ f, set_buf (set_bytes (Z.to_nat (didx dir)) bytes (buf f)) f));;
  on_fat p (raise_flag FAT_BUF_DIRTY).
Definition loc_of (dir : Dir) : Loc := {| l_sect := dsect dir; l_idx := didx dir |}.
(** [dir->clust = sect_to_clust(dir->fat, loc->sect); dir->sect = ...; dir->idx = ...] *)
Definition dir_at_loc (f : Fat) (dir : Dir) (loc : Loc) : Dir :=
  {| sclust := sclust dir; dclust := sect_to_clust f (l_sect loc); dsect := l_sect loc; didx := l_idx loc |}.
(** Every entry of the volume is visited at most once. *)
Definition dir_fuel (f : Fat) : nat := S (16 * Z.to_nat (Z.shiftl (clust_cnt f) (clust_shift f))).

(** ** Long names *)

(** The characters of an entry up to a zero; [false]: an end mark without one. *)
Fixpoint lfn_chars (indices : list nat) (raw : list Z) : list Z * bool :=
  match indices with
  | [] => ([], true)
  | i :: indices' =>
      let c := default 0 (raw !! i) in
      if c =? 0xff then ([], false)
      else if c =? 0 then ([], true)
      else let r := lfn_chars indices' raw in (c :: r.1, r.2)
  end.
Fixpoint parse_lfn_loop (cnt : nat) (p : Z) (dir : Dir) (lfn : list Z) : L (Dir * res unit) :=
  match cnt with
  | O => n ← gets g_len; mret (dir, if n <=? 255 then Ok tt else Err FAT_ERR_BROKEN)
  | S cnt' =>
      crc ← gets g_crc;
      if negb (get_le 1 11 lfn =? FAT_ATTR_LFN) || negb (get_le 1 13 lfn =? crc)
      then mret (dir, Err FAT_ERR_BROKEN) else
      let (chars, complete) := lfn_chars g_lfn_indices lfn in
      modify (λ s, set_g_buf (set_bytes (13 * cnt') chars (g_buf s)) s);;
      modify (λ s, set_g_len (u16 (g_len s + Z.of_nat (length chars))) s);;
      if negb complete then mret (dir, Err FAT_ERR_BROKEN) else
      r ← on_fat p (dir_next dir);
      at_pos r (λ dir _,
        u ← on_fat p (update_buf (dsect dir));
        match u with
        | Err e => mret (dir, Err e)
        | Ok _ => lfn ← dir_ptr p dir; parse_lfn_loop cnt' p dir lfn
        end)
  end.
Definition parse_lfn_name (p : Z) (dir : Dir) : L (Dir * res unit) :=
  u ← on_fat p (update_buf (dsect dir));
  match u with
  | Err e => mret (dir, Err e)
  | Ok _ =>
      lfn ← dir_ptr p dir;
      modify (set_g_crc (get_le 1 13 lfn));;
      modify (set_g_len 0);;
      let seq := get_le 1 0 lfn in
      if Z.land seq LFN_HEAD_MSK =? 0 then mret (dir, Err FAT_ERR_BROKEN) else
      let cnt := Z.land seq LFN_SEQ_MSK in
      if 20 <? cnt then mret (dir, Err FAT_ERR_BROKEN) else
      parse_lfn_loop (Z.to_nat cnt) p dir lfn
  end.

(** ** Searching a directory *)

(** [loc] is where the last entry that was looked at begins. *)
Fixpoint dir_search_loop (fuel : nat) (p : Z) (dir : Dir) (name sfn_name : list Z) (loc : option Loc) :
    L (Dir * option Loc * res unit) :=
  match fuel with
  | O => out_of_fuel
  | S fuel' =>
      u ← on_fat p (update_buf (dsect dir));
      match u with
      | Err e => mret (dir, loc, Err e)
      | Ok _ =>
          sfn ← dir_ptr p dir;
          let next dir loc :=
            r ← on_fat p (dir_next dir);
            match r.2 with
            | Err e => mret (r.1, loc, Err e)
            | Ok _ => dir_search_loop fuel' p r.1 name sfn_name loc
            end in
          if sfn_is_last sfn then mret (dir, loc, Err FAT_ERR_EOF) else
          if sfn_is_free sfn then next dir loc else
          let loc := Some (loc_of dir) in
          if sfn_is_lfn sfn then
            r ← parse_lfn_name p dir;
            let dir := r.1 in
            match r.2 with
            | Err e => mret (dir, loc, Err e)
            | Ok _ =>
                sfn ← dir_ptr p dir;
                crc ← gets g_crc;
                if sfn_is_free sfn || sfn_is_lfn sfn || negb (crc =? get_crc sfn)
                then mret (dir, loc, Err FAT_ERR_BROKEN) else
                len ← gets g_len;
                b ← gets g_buf;
                if (len =? Z.of_nat (length name)) && bool_decide (take (length name) b = name)
                then mret (dir, loc, Ok tt) else next dir loc
            end
          else if bool_decide (take 11 sfn = sfn_name) then mret (dir, loc, Ok tt)
          else next dir loc
      end
  end.
Definition dir_search (p : Z) (dir : Dir) (name : list Z) (loc : option Loc) :
    L (Dir * option Loc * res unit) :=
  f ← get_fat_of p;
  dir_search_loop (dir_fuel f) p (dir_at_clust f dir (sclust dir)) name (put_sfn_name name) loc.

(** ** Following a path *)

(** What [follow_path] leaves in its arguments. *)
Record walk := { w_fat : option Z; w_dir : Dir; w_path : list Z; w_loc : option Loc }.

(** A path that does not end in a zero byte is read past its end. *)
Fixpoint follow_loop (fuel : nat) (p : Z) (dir : Dir) (dir_clust : Z) (dir_enterable : bool)
    (str : list Z) (loc : option Loc) : L (walk * res unit) :=
  match fuel with
  | O => out_of_fuel
  | S fuel' =>
      let str := skip_slashes str in
      let at_ dir str loc := {| w_fat := Some p; w_dir := dir; w_path := str; w_loc := loc |} in
      len ← defined (subpath_len str);
      if len =? 0 then mret (at_ dir str loc, Ok tt) else
      if negb dir_enterable then mret (at_ dir str loc, Err FAT_ERR_PATH) else
      f ← get_fat_of p;
      let dir := dir_enter f dir dir_clust in
      r ← dir_search p dir (take (Z.to_nat len) str) loc;
      let dir := r.1.1 in
      let loc := r.1.2 in
      match r.2 with
      | Err e => mret (at_ dir str loc, Err e)
      | Ok _ =>
          sfn ← dir_ptr p dir;
          follow_loop fuel' p dir (sfn_cluster sfn)
            (has_flag (get_le 1 11 sfn) FAT_ATTR_DIR) (drop (Z.to_nat len) str) loc
      end
  end.
(** [d_fat], [dir]: the structure of the caller, as it was. *)
Definition follow_path (d_fat : option Z) (dir : Dir) (path : list Z) : L (walk * res unit) :=
  let at_ := {| w_fat := d_fat; w_dir := dir; w_path := path; w_loc := None |} in
  c ← defined (head path);
  if negb (c =? SLASH) then mret (at_, Err FAT_ERR_PATH) else
  let str := tail path in
  len ← defined (subpath_len str);
  if len =? 0 then mret (at_, Err FAT_ERR_PATH) else
  volume ← find_fat_volume (take (Z.to_nat len) str);
  match volume with
  | None => mret ({| w_fat := None; w_dir := dir; w_path := path; w_loc := None |}, Err FAT_ERR_PATH)
  | Some p =>
      f ← get_fat_of p;
      let dir := dir_enter f dir (root_clust f) in
      follow_loop (S (length path)) p dir (dclust dir) true (drop (Z.to_nat len) str) None
  end.

(** ** Removing and adding entries *)
Fixpoint remove_loop (fuel : nat) (p : Z) (dir : Dir) (sect idx : Z) : L (res unit) :=
  match fuel with
  | O => out_of_fuel
  | S fuel' =>
      on_fat p (update_buf (dsect dir)) ;?
      put_entry p dir [SFN_FREE];;
      if (dsect dir =? sect) && (didx dir =? idx) then mret (Ok tt) else
      r ← on_fat p (dir_next dir);
      match r.2 with Err e => mret (Err e) | Ok _ => remove_loop fuel' p r.1 sect idx end
  end.
Definition remove_entries (p : Z) (dir : Dir) (loc : Loc) : L (res unit) :=
  f ← get_fat_of p;
  remove_loop (dir_fuel f) p (dir_at_loc f dir loc) (dsect dir) (didx dir).

(** The search for [need] free entries in a row, of which [cnt] are found, from [first]
    on; [eod]: the end of the directory has been seen. *)
Fixpoint find_free_entries (fuel need : nat) (p : Z) (dir : Dir) (cnt : nat) (eod : bool) (first : Loc) :
    L (Dir * res (bool * Loc)) :=
  if decide (need ≤ cnt)%nat then mret (dir, Ok (eod, first)) else
  match fuel with
  | O => out_of_fuel
  | S fuel' =>
      u ← on_fat p (update_buf (dsect dir));
      match u with
      | Err e => mret (dir, Err e)
      | Ok _ =>
          sfn ← dir_ptr p dir;
          let free := eod || sfn_is_free sfn in
          let first := if free && bool_decide (cnt = 0%nat) then loc_of dir else first in
          let cnt := if free then S cnt else 0%nat in
          let eod := eod || sfn_is_last sfn in
          r ← on_fat p (dir_next_stretch dir);
          match r.2 with
          | Err e => mret (r.1, Err e)
          | Ok _ => find_free_entries fuel' need p r.1 cnt eod first
          end
      end
  end.
(** The entries of the long name, the [i]-th fragment first. *)
Fixpoint add_lfn (i : nat) (p : Z) (dir : Dir) (name : list Z) (mask crc : Z) : L (Dir * res unit) :=
  match i with
  | O => mret (dir, Ok tt)
  | S i' =>
      u ← on_fat p (update_buf (dsect dir));
      match u with
      | Err e => mret (dir, Err e)
      | Ok _ =>
          raw ← dir_ptr p dir;
          put_entry p dir (lfn_entry mask (Z.of_nat i) crc (take 13 (drop (13 * i') name)) raw);;
          r ← on_fat p (dir_next dir);
          at_pos r (λ dir _, add_lfn i' p dir name 0 crc)
      end
  end.
(** The bytes of the entry of a new file or directory. *)
Definition sfn_entry (sfn_name : list Z) (attr clust date time : Z) : list Z :=
  sfn_name ++ [u8 attr; 0; 0] ++ le_bytes 2 time ++ le_bytes 2 date ++ le_bytes 2 date ++
  le_bytes 2 (Z.shiftr clust 16) ++ le_bytes 2 time ++ le_bytes 2 date ++
  le_bytes 2 (Z.land clust 0xffff) ++ le_bytes 4 0.
(** [name]: the [len] bytes of the name. *)
Definition dir_add (p : Z) (dir : Dir) (name : list Z) (attr clust : Z) : L (Dir * res unit) :=
  let len := Z.of_nat (length name) in
  if (len <=? 0) || (255 <? len) then mret (dir, Err FAT_ERR_PARAM) else
  let lfns := Z.to_nat (lfn_count len) in
  f ← get_fat_of p;
  let dir := dir_enter f dir (sclust dir) in
  r ← find_free_entries (dir_fuel f) (S lfns) p dir 0 false {| l_sect := 0; l_idx := 0 |};
  match r.2 with
  | Err e => mret (r.1, Err e)
  | Ok (eod, first) =>
      let dir := r.1 in
      u ← (if eod : bool then
             on_fat p (update_buf (dsect dir)) ;?
             put_entry p dir [SFN_LAST];;
             mret (Ok tt)
           else mret (Ok tt));
      match u with
      | Err e => mret (dir, Err e)
      | Ok _ =>
          f ← get_fat_of p;
          let dir := dir_at_loc f dir first in
          let sfn_name := put_sfn_name name in
          r ← add_lfn lfns p dir name LFN_HEAD_MSK (get_crc sfn_name);
          at_pos r (λ dir _,
            let (date, time) := encode_timestamp fat_get_timestamp in
            u ← on_fat p (update_buf (dsect dir));
            match u with
            | Err e => mret (dir, Err e)
            | Ok _ => put_entry p dir (sfn_entry sfn_name attr clust date time);; mret (dir, Ok tt)
            end)
      end
  end.
