(* ===== verification/FatCalls.v ===== *)
(** * FAT32: the calls on paths

    [fat_stat], [fat_unlink], [fat_file_open], [fat_dir_create], [fat_dir_open],
    [fat_dir_read], [fat_dir_next], [fat_dir_rewind] and [fat_get_error] of
    src/libs/fat32/fat.c.  A [Dir] of a caller is its volume, which may be NULL, with its
    position. *)
From S2P Require Import Prelude.
From S2P Require Import CString.
From S2P Require Import FatNames.
From S2P Require Import FatTable.
From S2P Require Import FatFile.
From S2P Require Import FatMount.
From S2P Require Import FatDir.
From stdpp Require Import strings.
Local Open Scope Z_scope.
Local Open Scope fat_scope.

(** ** Reading a directory *)

(** [i_name]: the [name_len] bytes of the name. *)
Record DirInfo := {
  i_created : Timestamp; i_modified : Timestamp; i_size : Z; i_attr : Z; i_name : list Z; i_name_len : Z
}.
Definition info_of (sfn name : list Z) : DirInfo :=
  {| i_created := decode_timestamp (get_le 2 16 sfn) (get_le 2 14 sfn);
     i_modified := decode_timestamp (get_le 2 24 sfn) (get_le 2 22 sfn);
     i_size := get_le 4 28 sfn; i_attr := get_le 1 11 sfn;
     i_name := name; i_name_len := u8 (Z.of_nat (length name)) |}.
(** The name in the global buffer, with the data of the entry. *)
Definition found_info (dir : Dir) (sfn : list Z) : L (Dir * res DirInfo) :=
  b ← gets g_buf;
  n ← gets g_len;
  mret (dir, Ok (info_of sfn (take (Z.to_nat n) b))).

Fixpoint dir_read_loop (fuel : nat) (p : Z) (dir : Dir) : L (Dir * res DirInfo) :=
  match fuel with
  | O => out_of_fuel
  | S fuel' =>
      u ← on_fat p (update_buf (dsect dir));
      match u with
      | Err e => mret (dir, Err e)
      | Ok _ =>
          sfn ← dir_ptr p dir;
          if sfn_is_last sfn then mret (dir, Err FAT_ERR_EOF) else
          if sfn_is_free sfn then
            r ← on_fat p (dir_next dir);
            match r.2 with Err e => mret (r.1, Err e) | Ok _ => dir_read_loop fuel' p r.1 end
          else if sfn_is_lfn sfn then
            r ← parse_lfn_name p dir;
            let dir := r.1 in
            match r.2 with
            | Err e => mret (dir, Err e)
            | Ok _ =>
                u ← on_fat p (update_buf (dsect dir));
                match u with
                | Err e => mret (dir, Err e)
                | Ok _ =>
                    sfn ← dir_ptr p dir;
                    crc ← gets g_crc;
                    if sfn_is_free sfn || negb (crc =? get_crc sfn) then mret (dir, Err FAT_ERR_BROKEN)
                    else found_info dir sfn
                end
            end
          else
            let name := parse_sfn_name (take 11 sfn) in
            modify (λ s, set_g_buf (set_bytes 0 name (g_buf s)) s);;
            modify (set_g_len (Z.of_nat (length name)));;
            found_info dir sfn
      end
  end.
Definition fat_dir_read (d_fat : option Z) (dir : Dir) : L (Dir * res DirInfo) :=
  match d_fat with
  | None => mret (dir, Err FAT_ERR_PARAM)
  | Some p => f ← get_fat_of p; dir_read_loop (dir_fuel f) p dir
  end.
Definition fat_dir_next (d_fat : option Z) (dir : Dir) : L (Dir * res unit) :=
  match d_fat with
  | None => mret (dir, Err FAT_ERR_PARAM)
  | Some p => on_fat p (dir_next dir)
  end.
Definition fat_dir_rewind (d_fat : option Z) (dir : Dir) : L (Dir * res unit) :=
  match d_fat with
  | None => mret (dir, Err FAT_ERR_PARAM)
  | Some p => f ← get_fat_of p; mret (dir_at_clust f dir (sclust dir), Ok tt)
  end.

(** ** Files and directories by path *)

(** A [Dir] on the stack, before it is set. *)
Definition no_dir : Dir := {| sclust := 0; dclust := 0; dsect := 0; didx := 0 |}.
(** The path of the root directory has no entry: [loc] is not set. *)
Definition fat_stat (path : list Z) : L (res DirInfo) :=
  r ← follow_path None no_dir path;
  match r.2 with
  | Err e => mret (Err e)
  | Ok _ =>
      len ← defined (subpath_len (w_path r.1));
      if negb (len =? 0) then mret (Err FAT_ERR_PATH) else
      p ← defined (w_fat r.1);
      loc ← defined (w_loc r.1);
      f ← get_fat_of p;
      i ← fat_dir_read (Some p) (dir_at_loc f (w_dir r.1) loc);
      mret i.2
  end.

Definition FAT_ATTR_RO : Z := 0x01.
Definition FAT_ATTR_SYS : Z := 0x04.
Definition FAT_ATTR_LABEL : Z := 0x08.
(** No entry is in use from here on. *)
Fixpoint only_free (fuel : nat) (p : Z) (dir : Dir) : L (res unit) :=
  match fuel with
  | O => out_of_fuel
  | S fuel' =>
      on_fat p (update_buf (dsect dir)) ;?
      sfn ← dir_ptr p dir;
      if sfn_is_last sfn then mret (Ok tt) else
      if negb (sfn_is_free sfn) then mret (Err FAT_ERR_DENIED) else
      r ← on_fat p (dir_next dir);
      match r.2 with Err e => mret (Err e) | Ok _ => only_free fuel' p r.1 end
  end.
Definition check_empty (p : Z) (dir : Dir) (sfn : list Z) : L (res unit) :=
  if negb (has_flag (get_le 1 11 sfn) FAT_ATTR_DIR) then mret (Ok tt) else
  f ← get_fat_of p;
  r ← on_fat p (dir_advance 2 (dir_enter f dir (sfn_cluster sfn)));
  match r.2 with Err e => mret (Err e) | Ok _ => only_free (dir_fuel f) p r.1 end.
Definition fat_unlink (path : list Z) : L (res unit) :=
  r ← follow_path None no_dir path;
  match r.2 with
  | Err e => mret (Err e)
  | Ok _ =>
      p ← defined (w_fat r.1);
      let dir := w_dir r.1 in
      f ← get_fat_of p;
      if dir_at_root f dir then mret (Err FAT_ERR_DENIED) else
      sfn ← dir_ptr p dir;
      let clust := sfn_cluster sfn in
      if has_flag (get_le 1 11 sfn) (Z.lor FAT_ATTR_RO (Z.lor FAT_ATTR_SYS FAT_ATTR_LABEL))
      then mret (Err FAT_ERR_DENIED) else
      check_empty p dir sfn ;?
      on_fat p (remove_chain clust) ;?
      loc ← defined (w_loc r.1);
      remove_entries p dir loc ;?
      on_fat p sync_fs
  end.

(** ** Opening files *)
Definition FAT_APPEND : Z := 0x04.
Definition FAT_TRUNC : Z := 0x08.
Definition FAT_CREATE : Z := 0x10.
(** A call on an open file of the volume [p]. *)
Definition on_file {A} (p : Z) (f : File) (c : M session A) : L (File * A) := λ s,
  match mounts s !! p with
  | Some m =>
      match c {| file := f; vol := {| fat := m_fat m; disk := device s |} |} with
      | Done a s' => Done (file s', a) (put_volume p m (vol s') s)
      | Undefined => Undefined
      | Fuel => Fuel
      end
  | None => Undefined
  end.
(** The file the entry describes. *)
Definition file_of (sfn : list Z) (dir : Dir) (flags : Z) (buffer : list Z) : File :=
  let size := get_le 4 28 sfn in
  let trunc := negb (size =? 0) && has_flag flags FAT_TRUNC in
  {| f_open := true; f_dir_sect := dsect dir; f_dir_idx := didx dir;
     f_sclust := sfn_cluster sfn; f_clust := sfn_cluster sfn; f_sect := 0xffffffff; f_offset := 0;
     f_attr := get_le 1 11 sfn; f_size := if trunc then 0 else size;
     f_flags := if trunc then Z.lor flags FAT_MODIFIED else flags; f_buf := buffer |}.
(** A new file: a cluster and an entry in the directory the walk ended in. *)
Definition create_file (w : walk) : L (Dir * res unit) :=
  len ← defined (last_subpath_len (w_path w));
  if len =? 0 then mret (w_dir w, Err FAT_ERR_PATH) else
  p ← defined (w_fat w);
  r ← on_fat p create_chain;
  match r with
  | Err e => mret (w_dir w, Err e)
  | Ok clust => dir_add p (w_dir w) (take (Z.to_nat len) (w_path w)) FAT_ATTR_ARCHIVE clust
  end.
(** [file0]: the structure of the caller, as it was. *)
Definition fat_file_open (file0 : File) (path : list Z) (flags : Z) : L (option Z * File * res unit) :=
  r ← follow_path None no_dir path;
  let opened dir :=
    p ← defined (w_fat r.1);
    sfn ← dir_ptr p dir;
    let f := file_of sfn dir flags (f_buf file0) in
    q ← on_file p f (fat_file_seek 0 (if has_flag flags FAT_APPEND then FAT_SEEK_END else FAT_SEEK_START));
    mret (Some p, q.1, q.2) in
  match r.2 with
  | Ok _ => opened (w_dir r.1)
  | Err e =>
      if negb (e =? FAT_ERR_EOF) then mret (None, file0, Err e) else
      if negb (has_flag flags FAT_CREATE) then mret (None, file0, Err FAT_ERR_DENIED) else
      c ← create_file r.1;
      match c.2 with
      | Err e => mret (None, file0, Err e)
      | Ok _ => opened c.1
      end
  end.

(** ** Creating and opening directories *)

(** The entry [.] in the place of [raw], and [..] from it. *)
Definition dot_entry (clust date time : Z) (raw : list Z) : list Z :=
  let raw := set_bytes 0 (DOT :: replicate 10 SFN_PAD) raw in
  let raw := set_le 1 11 FAT_ATTR_DIR raw in
  let raw := set_le 2 20 (Z.shiftr clust 16) raw in
  let raw := set_le 2 26 (Z.land clust 0xffff) raw in
  let raw := set_le 2 16 date raw in
  let raw := set_le 2 14 time raw in
  let raw := set_le 2 24 date raw in
  let raw := set_le 2 22 time raw in
  set_le 2 18 date raw.
Definition dotdot_entry (parent : Z) (dot : list Z) : list Z :=
  set_le 2 26 (Z.land parent 0xffff) (set_le 2 20 (Z.shiftr parent 16) (set_bytes 1 [DOT] dot)).
Definition dot_entries (clust parent date time : Z) (b : list Z) : list Z :=
  let dot := dot_entry clust date time (take 32 b) in
  set_bytes 0 (dot ++ dotdot_entry parent dot) b.

Definition fat_dir_create (d_fat : option Z) (dir : Dir) (path : list Z) : L (option Z * Dir * res unit) :=
  r ← follow_path d_fat dir path;
  let w := r.1 in
  let failed dir e := mret (w_fat w, dir, e) in
  match r.2 with
  | Ok _ => failed (w_dir w) (Ok tt)
  | Err e =>
      if negb (e =? FAT_ERR_EOF) then failed (w_dir w) (Err e) else
      len ← defined (last_subpath_len (w_path w));
      if len =? 0 then failed (w_dir w) (Err FAT_ERR_PATH) else
      p ← defined (w_fat w);
      made ← on_fat p (clust ←? create_chain;
        clust_clear clust ;?
        f ← get_fat_struct;
        let (date, time) := encode_timestamp fat_get_timestamp in
        update_buf (clust_to_sect f clust) ;?
        raise_flag FAT_BUF_DIRTY;;
        let parent := if sclust (w_dir w) =? root_clust f then 0 else sclust (w_dir w) in
        change_fat (λ f, set_buf (dot_entries clust parent date time (buf f)) f);;
        mret (Ok clust));
      match made with
      | Err e => failed (w_dir w) (Err e)
      | Ok clust =>
          a ← dir_add p (w_dir w) (take (Z.to_nat len) (w_path w)) FAT_ATTR_DIR clust;
          match a.2 with
          | Err e => failed a.1 (Err e)
          | Ok _ =>
              f ← get_fat_of p;
              r ← on_fat p sync_fs;
              failed (dir_enter f a.1 clust) r
          end
      end
  end.

Definition fat_dir_open (d_fat : option Z) (dir : Dir) (path : list Z) : L (option Z * Dir * res unit) :=
  r ← follow_path d_fat dir path;
  let w := r.1 in
  match r.2 with
  | Err e => mret (w_fat w, w_dir w, Err e)
  | Ok _ =>
      p ← defined (w_fat w);
      f ← get_fat_of p;
      if dir_at_root f (w_dir w) then mret (w_fat w, w_dir w, Ok tt) else
      u ← on_fat p (update_buf (dsect (w_dir w)));
      match u with
      | Err e => mret (w_fat w, w_dir w, Err e)
      | Ok _ =>
          sfn ← dir_ptr p (w_dir w);
          if negb (has_flag (get_le 1 11 sfn) FAT_ATTR_DIR) then mret (w_fat w, w_dir w, Err FAT_ERR_PATH)
          else mret (w_fat w, dir_enter f (w_dir w) (sfn_cluster sfn), Ok tt)
      end
  end.

(** ** Names of the errors *)
Definition error_names : list string :=
  ["FAT_ERR_NONE"; "FAT_ERR_NOFAT"; "FAT_ERR_BROKEN"; "FAT_ERR_IO"; "FAT_ERR_PARAM"; "FAT_ERR_PATH";
   "FAT_ERR_EOF"; "FAT_ERR_DENIED"; "FAT_ERR_FULL"]%string.
(** [err] is the number, after the change of sign. *)
Definition fat_get_error (err : Z) : string :=
  if (- err <? 0) || (9 <=? - err) then "NULL" else default "NULL"%string (error_names !! Z.to_nat (- err)).
