(* ===== verification/FatTypes.v ===== *)
(** * FAT32: the types of volumes, open files and the library

    Whatever is on the device, and whatever the calls return: a number stays in the width of
    its field, a sector stays an array of 512 bytes, in the buffer of the volume and of the
    file and on the device, and a position in a directory is one of an entry in a sector.
    [safe] is partial correctness with an invariant of the state.  First a volume and an
    open file, then the mounted volumes and the global buffer, the directories, and every
    call on a path. *)
From S2P Require Import Prelude.
From S2P Require Import CString.
From S2P Require Import FatNames.
From S2P Require Import FatTable.
From S2P Require Import FatFile.
From S2P Require Import FatMount.
From S2P Require Import FatDir.
From S2P Require Import FatCalls.
Local Open Scope Z_scope.
Local Open Scope fat_scope.

(** ** Invariants of computations *)
Definition any {A} (_ : A) : Prop := True.
Definition safe {St A} (I : St → Prop) (P : A → Prop) (m : M St A) : Prop :=
  ∀ s, I s → wlp m (λ a s', I s' ∧ P a) s.
Create HintDb safe.

Section safe.
Context {St A B : Type} (I : St → Prop).
Implicit Types (m : M St A) (k : A → M St B).
Lemma safe_at (P : A → Prop) m s : safe I P m → I s → wlp m (λ a s', I s' ∧ P a) s.
Proof. auto. Qed.
Lemma safe_ret (P : A → Prop) a : P a → safe I P (mret a : M St A).
Proof. intros H s Hs. by split. Qed.
Lemma safe_bind (P : A → Prop) (Q : B → Prop) m k : safe I P m → (∀ a, P a → safe I Q (k a)) → safe I Q (m ≫= k).
Proof. intros Hm Hk s Hs. apply wlp_bind. eapply wlp_mono; [by apply Hm|]. intros a s' [Hs' Ha]. by apply (Hk a Ha). Qed.
Lemma safe_weaken (P Q : A → Prop) m : safe I P m → (∀ a, P a → Q a) → safe I Q m.
Proof. intros Hm H s Hs. eapply wlp_mono; [by apply Hm|]. intros a s' [? ?]. auto. Qed.
Lemma safe_gets (P : A → Prop) f : (∀ s, I s → P (f s)) → safe I P (gets f).
Proof. intros H s Hs. split; [done|by apply H]. Qed.
Lemma safe_undefined (P : A → Prop) : safe I P undefined.
Proof. done. Qed.
Lemma safe_fuel (P : A → Prop) : safe I P out_of_fuel.
Proof. done. Qed.
Lemma safe_defined_eq o : safe I (λ a : A, o = Some a) (defined o).
Proof. by destruct o. Qed.
Lemma safe_defined (P : A → Prop) o : (∀ a, o = Some a → P a) → safe I P (defined o).
Proof. destruct o; [intros H; apply safe_ret; by apply H|done]. Qed.
End safe.
Lemma safe_modify {St} (I : St → Prop) f : (∀ s, I s → I (f s)) → safe I any (modify f).
Proof. intros H s Hs. split; [by apply H|done]. Qed.
Lemma safe_when {St} (I : St → Prop) b (m : M St unit) : safe I any m → safe I any (when b m).
Proof. intros H. destruct b; [done|by apply safe_ret]. Qed.

(** A result is an error, or a value of its type. *)
Definition good {A} (P : A → Prop) (r : res A) : Prop := match r with Ok a => P a | Err _ => True end.
Lemma any_I {A} (a : A) : any a.
Proof. done. Qed.
Lemma good_err {A} (P : A → Prop) e : good P (Err e).
Proof. done. Qed.
Lemma good_ok {A} (P : A → Prop) a : P a → good P (Ok a).
Proof. done. Qed.
Lemma good_any {A} (r : res A) : good any r.
Proof. by destruct r. Qed.
#[export] Hint Resolve any_I good_err good_ok good_any safe_when : safe.

(** A step: the first computation by its lemma, the results by cases. *)
Ltac safe_step :=
  match goal with
  | |- safe _ _ (mret _) => apply safe_ret; eauto 9 with safe
  | |- safe _ _ undefined => apply safe_undefined
  | |- safe _ _ out_of_fuel => apply safe_fuel
  | |- safe _ _ (defined _) => apply safe_defined; intros ??; eauto 9 with safe
  | |- safe _ _ (mbind _ ?m) =>
      eapply safe_bind; [solve [apply safe_defined_eq | eauto 9 with safe]|cbv beta; intros ? ?; cbv zeta]
  | |- safe _ _ (match ?x with _ => _ end) => destruct x eqn:?; cbn [good fst snd] in *
  | |- safe _ _ _ => solve [eauto 9 with safe]
  | |- safe _ _ _ => eapply safe_weaken; [solve [eauto 9 with safe]|eauto 9 with safe]
  end.
Ltac safe := cbv zeta; repeat safe_step.
(** The next computation has a result in [P]. *)
Tactic Notation "safe_as" constr(P) := apply (safe_bind _ P); [safe|intros ? ?; safe].

(** ** Numbers and sectors *)
Definition fits (n z : Z) : Prop := 0 ≤ z < 2 ^ n.
Lemma fits_ones n z : 0 ≤ n → fits n z ↔ Z.land z (Z.ones n) = z.
Proof.
  intros Hn. rewrite Z.land_ones by done. unfold fits. split; [apply Z.mod_small|]. intros <-.
  apply Z.mod_pos_bound, Z.pow_pos_nonneg; lia.
Qed.
Lemma fits_land n a b : 0 ≤ n → fits n a → fits n (Z.land a b).
Proof. intros Hn. rewrite !fits_ones by done. intros H. by rewrite <- Z.land_assoc, (Z.land_comm b), Z.land_assoc, H. Qed.
Lemma fits_land_r n a b : 0 ≤ n → fits n b → fits n (Z.land a b).
Proof. rewrite Z.land_comm. apply fits_land. Qed.
Lemma fits_lor n a b : 0 ≤ n → fits n a → fits n b → fits n (Z.lor a b).
Proof. intros Hn. rewrite !fits_ones by done. intros Ha Hb. by rewrite Z.land_lor_distr_l, Ha, Hb. Qed.
Lemma fits_mono m n z : 0 ≤ m ≤ n → fits m z → fits n z.
Proof. unfold fits. intros H [? ?]. split; [done|]. eapply Z.lt_le_trans; [done|]. apply Z.pow_le_mono_r; lia. Qed.
Lemma fits_u8 z : fits 8 (u8 z).
Proof. apply u8_range. Qed.
Lemma fits_u16 z : fits 16 (u16 z).
Proof. apply u16_range. Qed.
Lemma fits_u32 z : fits 32 (u32 z).
Proof. apply u32_range. Qed.
Lemma fits_byte z : fits 8 z → byte_range z.
Proof. done. Qed.
#[export] Hint Resolve fits_u8 fits_u16 fits_u32 : safe.
#[export] Hint Extern 1 (fits _ (Z.land _ _)) => apply fits_land; [lia|] : safe.
#[export] Hint Extern 1 (fits _ (Z.lor _ _)) => apply fits_lor; [lia| |] : safe.
#[export] Hint Extern 1 (fits _ (Zpos _)) => (split; [lia|reflexivity]) : safe.
#[export] Hint Extern 1 (fits _ 0) => (split; [lia|reflexivity]) : safe.

Abbreviation bytes_ok := (Forall byte_range) (only parsing).
Lemma le_value_range l : bytes_ok l → 0 ≤ le_value l < 256 ^ Z.of_nat (length l).
Proof.
  induction 1 as [|b l Hb Hl IH]; cbn [le_value length]; [done|]. unfold byte_range in Hb.
  rewrite Nat2Z.inj_succ, Z.pow_succ_r by lia. lia.
Qed.
Lemma get_le_fits n off b : bytes_ok b → fits (8 * Z.of_nat n) (get_le n off b).
Proof.
  intros Hb. unfold get_le, fits.
  assert (H : bytes_ok (take n (drop off b))) by (by apply Forall_take, Forall_drop).
  apply le_value_range in H as [H1 H2]. split; [done|]. rewrite Z.pow_mul_r by lia. eapply Z.lt_le_trans; [done|].
  apply Z.pow_le_mono_r; [lia|]. rewrite length_take. lia.
Qed.
Lemma bytes_one c : byte_range c → bytes_ok [c].
Proof. intros. by apply Forall_singleton. Qed.
Lemma get_le_4 off b : bytes_ok b → fits 32 (get_le 4 off b).
Proof. apply (get_le_fits 4). Qed.
Lemma get_le_2 off b : bytes_ok b → fits 16 (get_le 2 off b).
Proof. apply (get_le_fits 2). Qed.
Lemma get_le_1 off b : bytes_ok b → fits 8 (get_le 1 off b).
Proof. apply (get_le_fits 1). Qed.
#[export] Hint Resolve get_le_4 get_le_2 get_le_1 : safe.
Lemma sfn_cluster_fits sfn : bytes_ok sfn → fits 32 (sfn_cluster sfn).
Proof.
  intros H. unfold sfn_cluster. rewrite lor_field; [|lia|by apply get_le_2].
  destruct (get_le_2 20 sfn H), (get_le_2 26 sfn H). unfold fits. lia.
Qed.
#[export] Hint Resolve sfn_cluster_fits : safe.

Record sector (b : list Z) : Prop := { se_length : length b = 512%nat; se_bytes : bytes_ok b }.
Lemma sector_set off bytes b : sector b → (off + length bytes ≤ 512)%nat → bytes_ok bytes → sector (set_bytes off bytes b).
Proof.
  intros [Hl Hb] Ho Hn. split; [rewrite set_bytes_length; lia|]. unfold set_bytes.
  rewrite !Forall_app. split; [by apply Forall_take|]. split; [done|by apply Forall_drop].
Qed.
Lemma sector_set_le off n v b : sector b → (off + n ≤ 512)%nat → sector (set_le n off v b).
Proof. intros Hb Ho. apply sector_set; [done|by rewrite le_bytes_length|apply le_bytes_range]. Qed.
Lemma sector_zero : sector (replicate 512 0).
Proof. split; [apply length_replicate|]. apply Forall_replicate. unfold byte_range. lia. Qed.
Lemma sector_entry b i : sector b → bytes_ok (take 32 (drop i b)).
Proof. intros [_ H]. by apply Forall_take, Forall_drop. Qed.
#[export] Hint Resolve se_bytes sector_zero sector_entry : safe.
#[export] Hint Extern 1 (sector (set_le _ _ _ _)) => (apply sector_set_le; [|first [apply Nat.leb_le; reflexivity | lia]]) : safe.

(** ** The volume *)
Record fat_typed (f : Fat) : Prop := {
  ft_clust_msk : fits 32 (clust_msk f); ft_clust_cnt : fits 32 (clust_cnt f); ft_info_sect : fits 32 (info_sect f);
  ft_fat_sect0 : fits 32 (fat_sect0 f); ft_fat_sect1 : fits 32 (fat_sect1 f); ft_data_sect : fits 32 (data_sect f);
  ft_root_clust : fits 32 (root_clust f); ft_last_used : fits 32 (last_used f); ft_free_cnt : fits 32 (free_cnt f);
  ft_sect : fits 32 (sect f); ft_buf : sector (buf f); ft_flags : fits 8 (flags f); ft_clust_shift : fits 8 (clust_shift f)
}.
Definition sectors_typed (d : gmap Z (list Z)) : Prop := map_Forall (λ _, sector) d.
Record vol_typed (v : volume) : Prop := { vt_fat : fat_typed (fat v); vt_disk : sectors_typed (disk v) }.
#[export] Hint Resolve ft_info_sect ft_root_clust ft_last_used ft_buf vt_fat vt_disk : safe.

Lemma fat_typed_buf b f : fat_typed f → sector b → fat_typed (set_buf b f).
Proof. by intros [] ?; split. Qed.
Lemma fat_typed_sect x f : fat_typed f → fits 32 x → fat_typed (set_sect x f).
Proof. by intros [] ?; split. Qed.
Lemma fat_typed_flags x f : fat_typed f → fits 8 x → fat_typed (set_flags x f).
Proof. by intros [] ?; split. Qed.
Lemma fat_typed_last x f : fat_typed f → fits 32 x → fat_typed (set_last_used x f).
Proof. by intros [] ?; split. Qed.
Lemma fat_typed_free x f : fat_typed f → fits 32 x → fat_typed (set_free_cnt x f).
Proof. by intros [] ?; split. Qed.
#[export] Hint Resolve fat_typed_buf fat_typed_sect fat_typed_flags fat_typed_last fat_typed_free : safe.

Lemma safe_get_fat_struct : safe vol_typed fat_typed get_fat_struct.
Proof. apply safe_gets. intros v []. done. Qed.
Lemma safe_change_fat g : (∀ f, fat_typed f → fat_typed (g f)) → safe vol_typed any (change_fat g).
Proof. intros H. apply safe_modify. intros v [Hb Hd]. split; [by apply H|done]. Qed.
#[export] Hint Resolve safe_get_fat_struct : safe.
#[export] Hint Extern 1 (safe _ _ (change_fat _)) => (apply safe_change_fat; intros ? ?; cbv beta) : safe.
Lemma safe_raise_flag n : fits 8 n → safe vol_typed any (raise_flag n).
Proof. intros Hn. apply safe_change_fat. intros f Hf. apply fat_typed_flags; [done|]. apply fits_lor; [lia|apply Hf|done]. Qed.
Lemma safe_clear_flag n : safe vol_typed any (clear_flag n).
Proof. apply safe_change_fat. intros f Hf. apply fat_typed_flags; [done|]. apply fits_land; [lia|apply Hf]. Qed.
Lemma safe_ops_read x : safe vol_typed (λ o, ∀ b, o = Some b → sector b) (ops_read x).
Proof. apply safe_gets. intros v [_ Hd] b Hb. by eapply Hd. Qed.
Lemma safe_ops_write b x : sector b → safe vol_typed any (ops_write b x).
Proof.
  intros Hb v [Hf Hd]. apply wlp_bind. unfold wlp at 1, gets. case_decide; [|by split; split].
  split; [|done]. split; [done|]. by apply map_Forall_insert_2.
Qed.
#[export] Hint Resolve safe_clear_flag safe_ops_read safe_ops_write : safe.
#[export] Hint Extern 1 (safe _ _ (raise_flag _)) => (apply safe_raise_flag; split; [done|reflexivity]) : safe.

Lemma safe_sync_buf : safe vol_typed any sync_buf.
Proof. unfold sync_buf. safe. Qed.
#[export] Hint Resolve safe_sync_buf : safe.
Lemma safe_update_buf x : fits 32 x → safe vol_typed any (update_buf x).
Proof. intros Hx. unfold update_buf. safe. Qed.
#[export] Hint Resolve safe_update_buf : safe.
Lemma safe_sync_fs : safe vol_typed any sync_fs.
Proof. unfold sync_fs. safe. Qed.
#[export] Hint Resolve safe_sync_fs : safe.

(** *** The allocation table *)
Lemma entry_offset c : (4 * Z.to_nat (c mod 128) + 4 ≤ 512)%nat.
Proof. pose proof (Z.mod_pos_bound c 128). lia. Qed.
#[export] Hint Resolve entry_offset : safe.
Lemma safe_get_fat c : safe vol_typed (good (λ p, fits 32 p.1)) (get_fat c).
Proof.
  unfold get_fat. safe. destruct (classify _ _); [|done]. apply (fits_mono 28); [lia|]. apply fits_land_r; [lia|]. by split.
Qed.
Lemma safe_put_fat2 x c v : safe vol_typed any (put_fat2 x c v).
Proof.
  unfold put_fat2. safe. eapply safe_bind; [apply safe_change_fat; intros f Hf|intros; safe].
  apply fat_typed_buf; [done|]. apply sector_set_le; [apply Hf|apply entry_offset].
Qed.
#[export] Hint Resolve safe_get_fat safe_put_fat2 : safe.
Lemma safe_put_fat c v : safe vol_typed any (put_fat c v).
Proof. unfold put_fat. safe. safe_as (@any (res unit)). Qed.
#[export] Hint Resolve safe_put_fat : safe.
Lemma safe_remove_links fuel c : safe vol_typed any (remove_links fuel c).
Proof. revert c. induction fuel as [|fuel IH]; intros c; cbn [remove_links]; safe. Qed.
#[export] Hint Resolve safe_remove_links : safe.
Lemma safe_remove_chain c : safe vol_typed any (remove_chain c).
Proof. unfold remove_chain. safe. Qed.
Lemma next_clust_fits f c : fits 32 (next_clust f c).
Proof. unfold next_clust. destruct (_ <=? _); auto with safe. Qed.
#[export] Hint Resolve safe_remove_chain next_clust_fits : safe.
Lemma safe_scan_free fuel c fl : safe vol_typed (good (fits 32)) (scan_free fuel c fl).
Proof. revert c fl. induction fuel as [|fuel IH]; intros c fl; cbn [scan_free]; safe. Qed.
#[export] Hint Resolve safe_scan_free : safe.
Lemma safe_stretch_chain c : safe vol_typed (good (fits 32)) (stretch_chain c).
Proof. unfold stretch_chain. safe. safe_as (good (fits 32)). safe_as (@any (res unit)). Qed.
#[export] Hint Resolve safe_stretch_chain : safe.
Lemma safe_create_chain : safe vol_typed (good (fits 32)) create_chain.
Proof. apply safe_stretch_chain. Qed.
Lemma safe_clear_sectors n x : fits 32 x → safe vol_typed any (clear_sectors n x).
Proof. revert x. induction n as [|n IH]; intros x Hx; cbn [clear_sectors]; safe. Qed.
#[export] Hint Resolve safe_create_chain safe_clear_sectors : safe.
Lemma safe_clust_clear c : safe vol_typed any (clust_clear c).
Proof. unfold clust_clear. safe. Qed.
#[export] Hint Resolve safe_clust_clear : safe.

(** *** Positions in a directory *)
Definition entry_index (i : Z) : Prop := 0 ≤ i < 512 ∧ i mod 32 = 0.
Lemma entry_index_room i : entry_index i → (Z.to_nat i + 32 ≤ 512)%nat.
Proof. intros [Hi Hm]. apply Z.mod_divide in Hm as [k ->]; lia. Qed.
Lemma entry_index_next i : entry_index i → i + SFN_SIZE < 512 → entry_index (i + SFN_SIZE).
Proof. intros [Hi Hm] H. unfold SFN_SIZE in *. split; [lia|]. rewrite Z.add_mod, Hm by lia. done. Qed.
Lemma entry_index_0 : entry_index 0.
Proof. split; [lia|done]. Qed.
Record dir_typed (d : Dir) : Prop := {
  dt_sclust : fits 32 (sclust d); dt_dclust : fits 32 (dclust d); dt_dsect : fits 32 (dsect d);
  dt_idx : entry_index (didx d)
}.
#[export] Hint Resolve dt_sclust dt_dclust dt_dsect dt_idx entry_index_0 : safe.
Lemma dir_at_clust_typed f d c : dir_typed d → fits 32 c → dir_typed (dir_at_clust f d c).
Proof. intros [] Hc. split; [done|done|apply u32_range|apply entry_index_0]. Qed.
Lemma dir_enter_typed f d c : fat_typed f → fits 32 c → dir_typed d → dir_typed (dir_enter f d c).
Proof.
  intros Hf Hc [? ? ? ?]. unfold dir_enter. assert (fits 32 (if c =? 0 then root_clust f else c)) by (destruct (_ =? _); [apply Hf|done]).
  by apply dir_at_clust_typed.
Qed.
#[export] Hint Resolve dir_at_clust_typed dir_enter_typed : safe.
Definition at_typed {A} (P : A → Prop) (r : Dir * res A) : Prop := dir_typed r.1 ∧ good P r.2.
Lemma at_typed_I {A} (P : A → Prop) d r : dir_typed d → good P r → at_typed P (d, r).
Proof. by split. Qed.
Lemma at_typed_dir {A} (P : A → Prop) r : at_typed P r → dir_typed r.1.
Proof. by intros []. Qed.
Lemma at_typed_ok {A} (P : A → Prop) r a : at_typed P r → r.2 = Ok a → P a.
Proof. intros [_ H] E. by rewrite E in H. Qed.
#[export] Hint Resolve at_typed_I at_typed_dir : safe.

Lemma safe_dir_next d : dir_typed d → safe vol_typed (at_typed any) (dir_next d).
Proof.
  intros Hd. unfold dir_next. cbv zeta. destruct (Z.ltb_spec (didx d + SFN_SIZE) 512) as [Hi|_].
  - apply safe_ret, at_typed_I; [|done]. destruct Hd. split; [done..|by apply entry_index_next].
  - assert (Hn : dir_typed {| d with didx := 0; dsect := u32 (dsect d + 1) |}).
    { destruct Hd. split; [done..|apply u32_range|apply entry_index_0]. }
    safe.
Qed.
#[export] Hint Resolve safe_dir_next : safe.
Lemma safe_dir_advance n d : dir_typed d → safe vol_typed (at_typed any) (dir_advance n d).
Proof. revert d. induction n as [|n IH]; intros d Hd; cbn [dir_advance]; safe. Qed.
Lemma safe_dir_next_stretch d : dir_typed d → safe vol_typed (at_typed any) (dir_next_stretch d).
Proof. intros Hd. unfold dir_next_stretch. safe. Qed.
#[export] Hint Resolve safe_dir_advance safe_dir_next_stretch : safe.

(** ** An open file *)
Record file_typed (f : File) : Prop := {
  fl_dir_sect : fits 32 (f_dir_sect f); fl_sclust : fits 32 (f_sclust f); fl_clust : fits 32 (f_clust f);
  fl_sect : fits 32 (f_sect f); fl_size : fits 32 (f_size f); fl_offset : fits 32 (f_offset f);
  fl_dir_idx : entry_index (f_dir_idx f); fl_attr : fits 8 (f_attr f); fl_flags : fits 8 (f_flags f);
  fl_buf : sector (f_buf f)
}.
Record session_typed (s : session) : Prop := { st_file : file_typed (file s); st_vol : vol_typed (vol s) }.
#[export] Hint Resolve fl_dir_sect fl_clust fl_buf fl_flags fl_size fl_offset fl_sect : safe.

Lemma safe_gets_file : safe session_typed file_typed (gets file).
Proof. apply safe_gets. by intros s []. Qed.
Lemma safe_change_file g : (∀ f, file_typed f → file_typed (g f)) → safe session_typed any (change_file g).
Proof. intros H. apply safe_modify. intros s [Hf Hv]. split; [by apply H|done]. Qed.
Lemma safe_on_vol {A} (P : A → Prop) (m : V A) : safe vol_typed P m → safe session_typed P (on_vol m).
Proof.
  intros H s [Hf Hv]. specialize (H _ Hv). unfold wlp, on_vol in *. destruct (m (vol s)); [|done..].
  destruct H. split; [by split|done].
Qed.
#[export] Hint Resolve safe_gets_file safe_on_vol : safe.
#[export] Hint Extern 1 (safe _ _ (change_file _)) => (apply safe_change_file; intros ? ?; cbv beta) : safe.

Lemma file_typed_clust c f : file_typed f → fits 32 c → file_typed (set_clust c f).
Proof. by intros [] ?; split. Qed.
Lemma file_typed_size c f : file_typed f → fits 32 c → file_typed (set_size c f).
Proof. by intros [] ?; split. Qed.
Lemma file_typed_flags c f : file_typed f → fits 8 c → file_typed (set_f_flags c f).
Proof. by intros [] ?; split. Qed.
Lemma file_typed_buf b f : file_typed f → sector b → file_typed (set_f_buf b f).
Proof. by intros [] ?; split. Qed.
Lemma file_typed_placed g off f : file_typed f → fits 32 off → file_typed (placed g off f).
Proof. intros [] ?; split; try done; apply u32_range. Qed.
Lemma file_typed_restarted g f : file_typed f → file_typed (restarted g f).
Proof. intros []; split; try done; apply u32_range. Qed.
#[export] Hint Resolve file_typed_clust file_typed_size file_typed_flags file_typed_buf file_typed_placed
  file_typed_restarted : safe.
Lemma safe_raise n : fits 8 n → safe session_typed any (raise n).
Proof. intros Hn. apply safe_change_file. intros f Hf. apply file_typed_flags; [done|]. apply fits_lor; [lia|apply Hf|done]. Qed.
Lemma safe_lower n : safe session_typed any (lower n).
Proof. apply safe_change_file. intros f Hf. apply file_typed_flags; [done|]. apply fits_land; [lia|apply Hf]. Qed.
#[export] Hint Resolve safe_lower : safe.
#[export] Hint Extern 1 (safe _ _ (raise _)) => (apply safe_raise; split; [done|reflexivity]) : safe.

Lemma safe_follow_links n : safe session_typed any (follow_links n).
Proof.
  induction n as [|n IH]; cbn [follow_links]; safe. safe_as (good (fits 32)).
Qed.
#[export] Hint Resolve safe_follow_links : safe.
Lemma safe_refill x : safe session_typed any (refill x).
Proof. unfold refill. safe. safe_as (@any (res unit)). Qed.
#[export] Hint Resolve safe_refill : safe.
Lemma safe_file_seek off mode : safe session_typed any (fat_file_seek off mode).
Proof.
  unfold fat_file_seek. cbv zeta. do 3 safe_step; [safe|].
  match goal with |- context [?o <? 0] => set (x := o) end.
  destruct (_ || _) eqn:Ho; [safe|]. apply orb_false_iff in Ho as [H1 H2].
  apply Z.ltb_ge in H1, H2. assert (fits 32 x) by (unfold fits; lia). clearbody x. safe.
Qed.
#[export] Hint Resolve safe_file_seek : safe.

(** The bytes read, with the result. *)
Definition data_typed {A} (r : list Z * A) : Prop := bytes_ok r.1.
Lemma data_typed_I {A} l (a : A) : bytes_ok l → data_typed (l, a).
Proof. done. Qed.
Lemma bytes_app l l' : bytes_ok l → bytes_ok l' → bytes_ok (l ++ l').
Proof. by rewrite Forall_app. Qed.
Lemma bytes_part n i l : bytes_ok l → bytes_ok (take n (drop i l)).
Proof. intros. by apply Forall_take, Forall_drop. Qed.
Lemma bytes_drop i l : bytes_ok l → bytes_ok (drop i l).
Proof. apply Forall_drop. Qed.
Lemma bytes_take i l : bytes_ok l → bytes_ok (take i l).
Proof. apply Forall_take. Qed.
Lemma bytes_nil : bytes_ok [].
Proof. done. Qed.
#[export] Hint Resolve data_typed_I bytes_app bytes_part bytes_drop bytes_take bytes_nil : safe.
Lemma safe_read_loop fuel len done : bytes_ok done → safe session_typed data_typed (read_loop fuel len done).
Proof. revert len done. induction fuel as [|fuel IH]; intros len done Hd; cbn [read_loop]; safe. Qed.
#[export] Hint Resolve safe_read_loop : safe.
Lemma safe_file_read len : safe session_typed data_typed (fat_file_read len).
Proof. unfold fat_file_read. safe. Qed.

Lemma sector_put idx src b :
  sector b → bytes_ok src → (idx + length src ≤ 512)%nat → sector (buf_put idx src b).
Proof. intros Hb Hs Hl. by apply (sector_set idx src b). Qed.
Lemma safe_write_loop fuel src n : bytes_ok src → safe session_typed any (write_loop fuel src n).
Proof.
  revert src n. induction fuel as [|fuel IH]; intros src n Hs; cbn [write_loop]; safe.
  eapply safe_bind; [apply safe_change_file; intros g Hg|intros; safe].
  apply file_typed_buf; [done|]. apply sector_put; [by apply fl_buf|by apply bytes_take|].
  rewrite length_take. pose proof (Z.mod_pos_bound (f_offset a) 512). lia.
Qed.
#[export] Hint Resolve safe_write_loop : safe.
Lemma safe_file_write src : bytes_ok src → safe session_typed any (fat_file_write src).
Proof. intros Hs. unfold fat_file_write. safe. Qed.

Lemma sector_touch f date time b : file_typed f → sector b → sector (touch_entry f date time b).
Proof.
  intros Hf Hb. pose proof (entry_index_room _ (fl_dir_idx _ Hf)). unfold touch_entry.
  assert (sector (if has_flag (f_flags f) FAT_ACCESSED then set_le 2 (Z.to_nat (f_dir_idx f) + 18) date b else b)).
  { destruct (has_flag _ _); [apply sector_set_le; [done|lia]|done]. }
  destruct (has_flag (f_flags f) FAT_MODIFIED); [|done]. repeat (apply sector_set_le; [|lia]). done.
Qed.
#[export] Hint Resolve sector_touch : safe.
Lemma safe_file_sync : safe session_typed any fat_file_sync.
Proof. unfold fat_file_sync. safe. safe_as (@any (res unit)). Qed.
#[export] Hint Resolve safe_file_sync : safe.
Lemma safe_file_close : safe session_typed any fat_file_close.
Proof. unfold fat_file_close. safe. Qed.
#[export] Hint Resolve safe_file_read safe_file_write safe_file_close : safe.

(** ** The library *)
Record mount_typed (m : mount) : Prop := {
  mt_fat : fat_typed (m_fat m); mt_name_len : fits 8 (m_name_len m); mt_length : length (m_name m) = 32%nat;
  mt_name : bytes_ok (m_name m)
}.
(** [R]: what is known of the length of the name in the buffer. *)
Record lib_typed (R : Z → Prop) (s : library) : Prop := {
  lt_mounts : map_Forall (λ _, mount_typed) (mounts s); lt_device : sectors_typed (device s);
  lt_buf : sector (g_buf s); lt_len : R (g_len s); lt_crc : fits 8 (g_crc s)
}.
#[export] Hint Resolve mt_fat : safe.
Abbreviation LT := (lib_typed (fits 16)).

Section lib.
Context (R : Z → Prop).
Abbreviation T := (lib_typed R).

Lemma lib_typed_put p m v s : T s → mount_typed m → vol_typed v → T (put_volume p m v s).
Proof.
  intros [] [] [Hv Hd]. split; [|done..]. by apply map_Forall_insert_2.
Qed.
Lemma safe_on_fat {A} (P : A → Prop) p (c : V A) : safe vol_typed P c → safe T P (on_fat p c).
Proof.
  intros H s Hs. unfold wlp, on_fat. destruct (mounts s !! p) as [m|] eqn:Em; [|done].
  pose proof (lt_mounts _ _ Hs _ _ Em) as Hm.
  assert (Hv : vol_typed {| fat := m_fat m; disk := device s |}) by (split; [apply Hm|apply Hs]).
  specialize (H _ Hv). unfold wlp in H. destruct (c _); [|done..]. destruct H. split; [by apply lib_typed_put|done].
Qed.
Lemma safe_get_mount p : safe T mount_typed (get_mount p).
Proof.
  intros s Hs. unfold wlp, get_mount. destruct (mounts s !! p) as [m|] eqn:Em; [|done]. split; [done|]. by eapply lt_mounts.
Qed.
Lemma safe_change_mount p g : (∀ m, mount_typed m → mount_typed (g m)) → safe T any (change_mount p g).
Proof.
  intros H s Hs. unfold wlp, change_mount. destruct (mounts s !! p) as [m|] eqn:Em; [|done]. split; [|done].
  pose proof (lt_mounts _ _ Hs _ _ Em) as Hm. destruct Hs. split; [|done..]. apply map_Forall_insert_2; [by apply H|done].
Qed.
End lib.
#[export] Hint Resolve safe_on_fat safe_get_mount : safe.
#[export] Hint Extern 1 (safe _ _ (change_mount _ _)) => (apply safe_change_mount; intros ? ?; cbv beta) : safe.
Lemma safe_get_fat_of R p : safe (lib_typed R) fat_typed (get_fat_of p).
Proof. unfold get_fat_of. safe. Qed.
#[export] Hint Resolve safe_get_fat_of : safe.
Lemma safe_dir_ptr R p d : safe (lib_typed R) bytes_ok (dir_ptr p d).
Proof. unfold dir_ptr. safe. Qed.
#[export] Hint Resolve safe_dir_ptr : safe.
Lemma safe_dir_slot R p d : safe (lib_typed R) (λ raw, bytes_ok raw ∧ (length raw ≤ 32)%nat) (dir_ptr p d).
Proof.
  unfold dir_ptr. safe. unfold dir_entry. rewrite length_take. split; [eauto with safe|lia].
Qed.
Lemma safe_put_entry R p d l : dir_typed d → bytes_ok l → (length l ≤ 32)%nat → safe (lib_typed R) any (put_entry p d l).
Proof.
  intros Hd Hb Hl. unfold put_entry.
  apply (safe_bind _ any); [apply safe_on_fat, safe_change_fat; intros f Hf|intros; safe].
  apply fat_typed_buf; [done|]. apply sector_set; [by apply ft_buf| |done].
  pose proof (entry_index_room _ (dt_idx _ Hd)). lia.
Qed.
#[export] Hint Resolve safe_put_entry : safe.

(** ** Long names *)
Lemma lfn_chars_typed indices raw : bytes_ok raw → bytes_ok (lfn_chars indices raw).1 ∧ (length (lfn_chars indices raw).1 ≤ length indices)%nat.
Proof.
  intros Hr. induction indices as [|i indices [IH1 IH2]]; cbn [lfn_chars]; [by split|].
  destruct (_ =? 0xff); [split; cbn; [apply bytes_nil|lia]|]. destruct (_ =? 0); [split; cbn; [apply bytes_nil|lia]|]. cbn. split; [|lia].
  constructor; [|done]. destruct (raw !! i) eqn:E; cbn; [by eapply (Forall_lookup_1 _ _ _ _ Hr)|by split].
Qed.
Lemma safe_g_len R : safe (lib_typed R) R (gets g_len).
Proof. apply safe_gets. by intros s []. Qed.
Lemma safe_g_buf R : safe (lib_typed R) sector (gets g_buf).
Proof. apply safe_gets. by intros s []. Qed.
Lemma safe_g_crc R : safe (lib_typed R) (fits 8) (gets g_crc).
Proof. apply safe_gets. by intros s []. Qed.
Lemma safe_set_g_len (R : Z → Prop) n : R n → safe (lib_typed R) any (modify (set_g_len n)).
Proof. intros Hn. apply safe_modify. intros s []. by split. Qed.
Lemma safe_set_g_crc R c : fits 8 c → safe (lib_typed R) any (modify (set_g_crc c)).
Proof. intros Hc. apply safe_modify. intros s []. by split. Qed.
Lemma safe_put_g_buf R off l :
  bytes_ok l → (off + length l ≤ 512)%nat → safe (lib_typed R) any (modify (λ s, set_g_buf (set_bytes off l (g_buf s)) s)).
Proof. intros Hb Hl. apply safe_modify. intros s []. split; try done. by apply sector_set. Qed.
#[export] Hint Resolve safe_g_len safe_g_buf safe_g_crc safe_set_g_len safe_set_g_crc : safe.
Lemma safe_add_g_len n : safe LT any (modify (λ s, set_g_len (u16 (g_len s + n)) s)).
Proof. apply safe_modify. intros s []. split; try done. apply u16_range. Qed.
#[export] Hint Resolve safe_add_g_len : safe.
Lemma safe_at_pos {A} I (P Q : A → Prop) (r : Dir * res A) (k : Dir → A → L (Dir * res A)) :
  at_typed P r → (∀ d a, dir_typed d → P a → safe I (at_typed Q) (k d a)) → safe I (at_typed Q) (at_pos r k).
Proof. intros [Hd Hr] Hk. unfold at_pos. destruct r as [d [a|e]]; cbn in *; [by apply Hk|by apply safe_ret]. Qed.

Lemma safe_parse_lfn_loop cnt p d lfn :
  (cnt ≤ 20)%nat → dir_typed d → bytes_ok lfn → safe LT (at_typed any) (parse_lfn_loop cnt p d lfn).
Proof.
  revert d lfn. induction cnt as [|cnt IH]; intros d lfn Hc Hd Hl; cbn [parse_lfn_loop]; safe.
  pose proof (lfn_chars_typed g_lfn_indices lfn Hl) as [Hb Hn]. rewrite Heqp0 in Hb, Hn.
  eapply safe_bind; [apply safe_put_g_buf; [done|cbn in *; lia]|intros _ _]. safe.
  eapply safe_at_pos; [done|]. intros d' _ Hd' _. safe. apply IH; [lia|done..].
Qed.
Lemma safe_parse_lfn_name p d : dir_typed d → safe LT (at_typed any) (parse_lfn_name p d).
Proof.
  intros Hd. unfold parse_lfn_name. safe. apply safe_parse_lfn_loop; [|done..].
  apply Z.ltb_ge in Heqb0. lia.
Qed.
#[export] Hint Resolve safe_parse_lfn_name : safe.

(** ** Searching and following a path *)
Record loc_typed (l : Loc) : Prop := { lc_sect : fits 32 (l_sect l); lc_idx : entry_index (l_idx l) }.
Definition maybe {A} (P : A → Prop) (o : option A) : Prop := ∀ a, o = Some a → P a.
Lemma maybe_none {A} (P : A → Prop) : maybe P None.
Proof. done. Qed.
Lemma maybe_some {A} (P : A → Prop) a : P a → maybe P (Some a).
Proof. by intros ? ? [= <-]. Qed.
Lemma loc_of_typed d : dir_typed d → loc_typed (loc_of d).
Proof. by intros []. Qed.
Lemma dir_at_loc_typed f d l : dir_typed d → loc_typed l → dir_typed (dir_at_loc f d l).
Proof. intros [] []. split; try done. apply u32_range. Qed.
#[export] Hint Resolve maybe_none maybe_some loc_of_typed dir_at_loc_typed : safe.

Definition search_typed (r : Dir * option Loc * res unit) : Prop := dir_typed r.1.1 ∧ maybe loc_typed r.1.2.
Lemma search_typed_I d l r : dir_typed d → maybe loc_typed l → search_typed (d, l, r).
Proof. by split. Qed.
Lemma search_typed_dir r : search_typed r → dir_typed r.1.1.
Proof. by intros []. Qed.
Lemma search_typed_loc r : search_typed r → maybe loc_typed r.1.2.
Proof. by intros []. Qed.
#[export] Hint Resolve search_typed_I search_typed_dir search_typed_loc : safe.
Lemma safe_dir_search_loop fuel p d name sfn_name l :
  dir_typed d → maybe loc_typed l → safe LT search_typed (dir_search_loop fuel p d name sfn_name l).
Proof.
  revert d l. induction fuel as [|fuel IH]; intros d l Hd Hl; cbn [dir_search_loop]; safe.
Qed.
#[export] Hint Resolve safe_dir_search_loop : safe.
Lemma safe_dir_search p d name l : dir_typed d → maybe loc_typed l → safe LT search_typed (dir_search p d name l).
Proof. intros Hd Hl. unfold dir_search. safe. Qed.
#[export] Hint Resolve safe_dir_search : safe.

Record walk_typed (w : walk) : Prop := {
  wt_dir : dir_typed (w_dir w); wt_path : bytes_ok (w_path w); wt_loc : maybe loc_typed (w_loc w)
}.
Definition walked {A} (r : walk * A) : Prop := walk_typed r.1.
Lemma walked_I {A} p d str l (a : A) :
  dir_typed d → bytes_ok str → maybe loc_typed l → walked ({| w_fat := p; w_dir := d; w_path := str; w_loc := l |}, a).
Proof. by split. Qed.
Lemma walked_dir {A} (r : walk * A) : walked r → dir_typed (w_dir r.1).
Proof. by intros []. Qed.
Lemma walked_loc {A} (r : walk * A) l : walked r → w_loc r.1 = Some l → loc_typed l.
Proof. intros [_ _ H]. apply H. Qed.
Lemma bytes_skip str : bytes_ok str → bytes_ok (skip_slashes str).
Proof. induction 1; cbn; [done|]. destruct (_ =? _); [done|by constructor]. Qed.
Lemma bytes_tail str : bytes_ok str → bytes_ok (tail str).
Proof. by intros []. Qed.
#[export] Hint Resolve walked_I walked_dir walked_loc bytes_skip bytes_tail : safe.
Lemma safe_follow_loop fuel p d c enterable str l :
  dir_typed d → fits 32 c → bytes_ok str → maybe loc_typed l → safe LT walked (follow_loop fuel p d c enterable str l).
Proof.
  revert d c enterable str l. induction fuel as [|fuel IH]; intros d c enterable str l Hd Hc Hs Hl; cbn [follow_loop]; safe.
Qed.
#[export] Hint Resolve safe_follow_loop : safe.
Lemma safe_find_volume R fuel it name : safe (lib_typed R) any (find_volume fuel it name).
Proof. revert it. induction fuel as [|fuel IH]; intros it; cbn [find_volume]; safe. Qed.
Lemma safe_any_gets {A} R (f : library → A) : safe (lib_typed R) any (gets f).
Proof. by apply safe_gets. Qed.
#[export] Hint Resolve safe_find_volume | 5 : safe.
#[export] Hint Resolve safe_any_gets | 9 : safe.
Lemma safe_find_fat_volume name : safe LT any (find_fat_volume name).
Proof. unfold find_fat_volume. safe. Qed.
#[export] Hint Resolve safe_find_fat_volume : safe.
Lemma safe_follow_path p d path : dir_typed d → bytes_ok path → safe LT walked (follow_path p d path).
Proof. intros Hd Hp. unfold follow_path. safe. Qed.
#[export] Hint Resolve safe_follow_path : safe.

(** ** Removing and adding entries *)
Lemma mark_bytes c : c = SFN_LAST ∨ c = SFN_FREE → bytes_ok [c].
Proof. intros H. apply bytes_one. unfold byte_range. destruct H as [-> | ->]; unfold SFN_LAST, SFN_FREE; lia. Qed.
Lemma safe_remove_loop fuel p d x i : dir_typed d → safe LT any (remove_loop fuel p d x i).
Proof.
  revert d. induction fuel as [|fuel IH]; intros d Hd; cbn [remove_loop]; safe.
  eapply safe_bind; [apply safe_put_entry; [done|apply mark_bytes; by right|apply le_n_S, Nat.le_0_l]|intros _ _]. safe.
Qed.
#[export] Hint Resolve safe_remove_loop : safe.
Lemma safe_remove_entries p d l : dir_typed d → loc_typed l → safe LT any (remove_entries p d l).
Proof. intros Hd Hl. unfold remove_entries. safe. Qed.
#[export] Hint Resolve safe_remove_entries : safe.

Definition free_typed (r : bool * Loc) : Prop := loc_typed r.2.
Lemma free_typed_I b l : loc_typed l → free_typed (b, l).
Proof. done. Qed.
#[export] Hint Resolve free_typed_I : safe.
#[export] Hint Extern 1 (loc_typed (if ?b then _ else _)) => destruct b : safe.
Lemma safe_find_free_entries fuel need p d cnt eod first :
  dir_typed d → loc_typed first → safe LT (at_typed free_typed) (find_free_entries fuel need p d cnt eod first).
Proof.
  revert d cnt eod first. induction fuel as [|fuel IH]; intros d cnt eod first Hd Hf; cbn [find_free_entries]; safe.
Qed.
#[export] Hint Resolve safe_find_free_entries : safe.

Lemma bytes_insert i c l : byte_range c → bytes_ok l → bytes_ok (<[i := c]> l).
Proof. intros Hc Hl. by apply Forall_insert. Qed.
Lemma put_chars_typed indices chars t raw : bytes_ok chars → bytes_ok raw → bytes_ok (put_chars indices chars t raw).
Proof.
  intros Hc. revert chars Hc t raw. induction indices as [|i indices IH]; intros chars Hc t raw Hr; cbn [put_chars]; [done|].
  destruct Hc as [|c chars Hb Hc]; apply IH; try done; repeat apply bytes_insert; try done; by destruct t.
Qed.
Lemma lfn_entry_typed mask i crc frag raw :
  fits 8 mask → fits 8 i → fits 8 crc → bytes_ok frag → bytes_ok raw → bytes_ok (lfn_entry mask i crc frag raw).
Proof.
  intros Hm Hi Hc Hf Hr. unfold lfn_entry, set_le, set_bytes. cbv zeta.
  set (e := <[12%nat := 0]> _). assert (bytes_ok e).
  { subst e. repeat apply bytes_insert; try done; [by apply (fits_lor 8)|by apply put_chars_typed]. }
  repeat apply bytes_app; [by apply bytes_take|apply le_bytes_range|by apply bytes_drop].
Qed.
Lemma lfn_entry_fits mask i crc frag raw : (length raw ≤ 32)%nat → (length (lfn_entry mask i crc frag raw) ≤ 32)%nat.
Proof.
  intros Hr. unfold lfn_entry, set_le, set_bytes. cbv zeta. rewrite !length_app, length_take, length_drop, le_bytes_length, !length_insert.
  unfold put_lfn_name_frag. rewrite put_chars_length. lia.
Qed.
Lemma sfn_char_typed c : byte_range (sfn_char c).
Proof.
  unfold sfn_char. cbv zeta. destruct (_ && _) eqn:E; [apply andb_true_iff in E as [H1%Z.leb_le H2%Z.leb_le]; unfold byte_range; lia|].
  case_bool_decide as H; [|by split]. revert H. generalize (to_upper c). intros x H.
  apply (Forall_forall byte_range special_chars); [|done]. apply (bool_decide_unpack _). vm_compute. exact I.
Qed.
Lemma padded_typed n l : bytes_ok l → bytes_ok (padded n l).
Proof. intros H. apply bytes_app; [done|]. by apply Forall_replicate. Qed.
Lemma put_sfn_name_typed name : bytes_ok (put_sfn_name name).
Proof.
  unfold put_sfn_name. cbv zeta.
  apply bytes_app; apply padded_typed, Forall_fmap, Forall_true; intros c; apply sfn_char_typed.
Qed.
Lemma get_crc_typed l : fits 8 (get_crc l).
Proof. apply (crc_fold_range (take 11 l)). by split. Qed.
#[export] Hint Resolve get_crc_typed : safe.

Lemma safe_add_lfn i p d name mask crc :
  (i ≤ 20)%nat → dir_typed d → bytes_ok name → fits 8 mask → fits 8 crc → safe LT (at_typed any) (add_lfn i p d name mask crc).
Proof.
  revert d mask. induction i as [|i IH]; intros d mask Hi Hd Hn Hm Hc; cbn [add_lfn]; [safe|]. safe_step. safe_step; [|safe].
  eapply safe_bind; [apply safe_dir_slot|]. intros raw [Hr Hl].
  eapply safe_bind.
  { apply safe_put_entry; [done| |by apply lfn_entry_fits]. apply lfn_entry_typed; try done; [unfold fits; lia|by apply bytes_part]. }
  intros _ _. safe_step. eapply safe_at_pos; [done|]. intros d' _ Hd' _. apply IH; try done. lia.
Qed.
#[export] Hint Resolve safe_add_lfn : safe.
Lemma sfn_entry_typed name attr clust date time :
  bytes_ok name → length name = 11%nat →
  bytes_ok (sfn_entry name attr clust date time) ∧ (length (sfn_entry name attr clust date time) ≤ 32)%nat.
Proof.
  intros Hn Hl. unfold sfn_entry. split.
  - repeat apply bytes_app; try apply le_bytes_range; [done|]. repeat constructor; try apply u8_range; by vm_compute.
  - rewrite !length_app, !le_bytes_length, Hl. cbn. lia.
Qed.
Lemma lfn_count_le n : n ≤ 255 → (Z.to_nat (lfn_count n) ≤ 20)%nat.
Proof. intros H. unfold lfn_count. assert ((n + 12) / 13 < 21) by (apply Z.div_lt_upper_bound; lia). lia. Qed.
Lemma safe_dir_add p d name attr clust : dir_typed d → bytes_ok name → safe LT (at_typed any) (dir_add p d name attr clust).
Proof.
  intros Hd Hn. unfold dir_add. cbv zeta. destruct (_ || _) eqn:Hl; [safe|].
  apply orb_false_iff in Hl as [_ Hl%Z.ltb_ge]. apply lfn_count_le in Hl.
  safe_step. eapply safe_bind; [by apply safe_find_free_entries; eauto with safe; split|]. intros r Hr.
  destruct r as [d1 [[eod first]|e]]; cbn [fst snd]; [|safe; eauto with safe]. destruct Hr as [Hd1 Hf]; cbn in Hd1, Hf.
  apply (safe_bind _ (@any (res unit))).
  { destruct eod; [|safe]. safe. eapply safe_bind; [apply safe_put_entry; [done|apply mark_bytes; by left|apply le_n_S, Nat.le_0_l]|intros _ _; safe]. }
  intros u _. destruct u as [|e]; [|safe]. safe_step.
  eapply safe_bind; [apply safe_add_lfn; [done|eauto with safe|done|by split|apply get_crc_typed]|]. intros r Hr.
  eapply safe_at_pos; [done|]. intros d2 _ Hd2 _. safe.
  destruct (sfn_entry_typed (put_sfn_name name) attr clust z z0 (put_sfn_name_typed _) (put_sfn_name_length _)) as [H3 H4].
  eapply safe_bind; [by apply safe_put_entry|intros _ _; safe].
Qed.
#[export] Hint Resolve safe_dir_add : safe.

(** ** Mounting *)
Lemma safe_read_g_buf R x : safe (lib_typed R) any (read_g_buf x).
Proof.
  unfold read_g_buf. intros s Hs. unfold wlp, mbind, M_bind, gets. cbn.
  destruct (device s !! x) as [b|] eqn:Eb; cbn; [|done]. split; [|done].
  pose proof (lt_device _ _ Hs _ _ Eb). destruct Hs. by split.
Qed.
#[export] Hint Resolve safe_read_g_buf : safe.
Lemma check_fat_clust b : check_fat b = true → get_le 1 13 b ≠ 0.
Proof.
  unfold check_fat. cbv zeta. intros H E.
  repeat match type of H with (if ?c then false else _) = true => destruct c; [discriminate|] end.
  cbn [read_bpb sect_per_clust] in H. rewrite E, Z.div_0_r in H. discriminate.
Qed.
(** The sector that was recognized is in the buffer. *)
Lemma wlp_probe R n s :
  lib_typed R s → wlp (probe n) (λ r s', lib_typed R s' ∧ ∀ lba, r = Ok lba → fits 32 lba ∧ get_le 1 13 (g_buf s') ≠ 0) s.
Proof.
  intros Hs. unfold probe. apply wlp_bind. eapply wlp_mono; [by apply (safe_read_g_buf R)|]. intros [[]|e] s1 [H1 _]; [|by split].
  apply wlp_bind. unfold wlp at 1, gets. destruct (check_fat (g_buf s1)) eqn:E1.
  { split; [done|]. intros lba. case_decide; [|done]. intros [= <-]. split; [by split|by apply check_fat_clust]. }
  destruct (get_part_lba _ _) as [lba|] eqn:El; [|by split].
  assert (Hl : fits 32 lba).
  { unfold get_part_lba in El. cbv zeta in El. do 2 (destruct (negb _); [done|]). injection El as <-. apply get_le_4, H1. }
  apply wlp_bind. eapply wlp_mono; [by apply (safe_read_g_buf R)|]. intros [[]|e] s2 [H2 _]; [|by split].
  apply wlp_bind. unfold wlp, gets. cbn. split; [done|]. intros lba' E. destruct (check_fat (g_buf s2)) eqn:E2; [|done].
  injection E as <-. split; [done|by apply check_fat_clust].
Qed.
Lemma safe_fat_probe n : safe LT any (fat_probe n).
Proof.
  intros s Hs. unfold fat_probe. apply wlp_bind. eapply wlp_mono; [by apply wlp_probe|]. by intros r s' [? _].
Qed.

Lemma ctz_fits z : fits 8 z → z ≠ 0 → fits 8 (ctz z).
Proof.
  intros [H0 H1] Hz. destruct z as [|q|q]; [done| |lia]. cbn.
  assert (H : ∀ q, 0 ≤ pos_ctz q < Zpos q) by (intros r; induction r; cbn [pos_ctz]; lia).
  specialize (H q). unfold fits. lia.
Qed.
Lemma layout_typed lba b f :
  fits 32 lba → bytes_ok b → get_le 1 13 b ≠ 0 → fat_typed f → fat_typed (layout_of lba (read_bpb b) f).
Proof.
  intros Hl Hb Hc []. pose proof (get_le_1 13 b Hb) as H8.
  split; cbn; try done; try apply u32_range.
  - unfold fits in *. lia.
  - destruct (_ =? 0); apply u32_range.
  - destruct (negb _); [destruct (_ =? 0); apply u32_range|by split].
  - by apply get_le_4.
  - by apply ctz_fits.
Qed.
Lemma mount_typed_fat g m : mount_typed m → fat_typed (g (m_fat m)) → mount_typed (set_m_fat (g (m_fat m)) m).
Proof. by intros [] ?; split. Qed.
Lemma mount_typed_next q m : mount_typed m → mount_typed (set_m_next q m).
Proof. by intros []; split. Qed.
#[export] Hint Resolve mount_typed_next : safe.
Lemma strlen_nonneg str n : strlen str = Some n → 0 ≤ n.
Proof.
  revert n. induction str as [|c str IH]; intros n; cbn; [done|]. destruct (_ =? _); [by intros [= <-]|].
  destruct (strlen str) as [k|]; [|done]. intros [= <-]. specialize (IH k eq_refl). lia.
Qed.
Lemma safe_set_fat_list R p : safe (lib_typed R) any (modify (set_fat_list p)).
Proof. apply safe_modify. intros s []. by split. Qed.
#[export] Hint Resolve safe_set_fat_list : safe.
Lemma safe_set_name R p n name :
  0 ≤ n ≤ 32 → bytes_ok name →
  safe (lib_typed R) any (change_mount p (λ m, {| m with m_name := set_bytes 0 (take (Z.to_nat n) name) (m_name m); m_name_len := n |})).
Proof.
  intros Hn Hb. apply safe_change_mount. intros m []. split; cbn; [done|unfold fits; lia| |].
  - rewrite set_bytes_length; rewrite ?length_take; lia.
  - unfold set_bytes. repeat apply bytes_app; [by apply bytes_take..|by apply bytes_drop].
Qed.
Lemma safe_fat_mount n p name : bytes_ok name → safe LT any (fat_mount n p name).
Proof.
  intros Hn s Hs. unfold fat_mount. apply wlp_bind. eapply wlp_mono; [by apply wlp_probe|]. intros [lba|e] s1 [H1 Hl]; [|done].
  destruct (Hl lba eq_refl) as [Hlba Hc]. clear Hl. apply wlp_bind. unfold wlp at 1, gets.
  pose proof (se_bytes _ (lt_buf _ _ H1)) as Hb. revert Hb Hc. generalize (g_buf s1). intros b Hb Hc.
  apply (safe_at LT any); [clear s s1 Hs H1|done].
  apply (safe_bind _ any); [apply safe_change_mount; intros m Hm; apply (mount_typed_fat (layout_of lba (read_bpb b))); [done|by apply layout_typed, Hm]|intros _ _].
  safe_step. safe_step. safe_step; [safe_step|safe]. safe_step. safe_step; [safe|].
  match goal with H : sector ?x |- context [get_le 4 FSINFO_NEXT_FREE ?x] => rename H into Hx; rename x into c end.
  apply (safe_bind _ any).
  { apply safe_change_mount. intros m Hm.
    apply (mount_typed_fat (λ f, set_last_used (get_le 4 FSINFO_NEXT_FREE c) (set_free_cnt (get_le 4 FSINFO_FREE_CNT c) f))); [done|].
    destruct Hx. eauto 9 with safe. }
  intros _ _. safe_step. match goal with |- context [32 <? ?z] => destruct (Z.ltb_spec 32 z) as [|Hle] end; [safe|].
  apply (safe_bind _ any); [apply safe_set_name; [split; [by eapply strlen_nonneg|done]|done]|intros _ _].
  apply (safe_bind _ any); [apply safe_change_mount; intros m Hm; apply (mount_typed_fat (set_sect 0)); [done|by apply fat_typed_sect; [apply Hm|]]|intros _ _].
  safe.
Qed.
#[export] Hint Resolve safe_fat_probe safe_fat_mount : safe.

Lemma safe_find_link R fuel prev it p : safe (lib_typed R) any (find_link fuel prev it p).
Proof. revert prev it. induction fuel as [|fuel IH]; intros prev it; cbn [find_link]; safe. Qed.
#[export] Hint Resolve safe_find_link | 5 : safe.
Lemma safe_fat_umount p : safe LT any (fat_umount p).
Proof. unfold fat_umount. safe. safe_as (@any unit). Qed.
Lemma safe_fat_sync p : safe LT any (fat_sync p).
Proof. unfold fat_sync. safe. Qed.
#[export] Hint Resolve safe_fat_umount safe_fat_sync : safe.

(** ** Reading a directory *)
Record stamp_typed (t : Timestamp) : Prop := {
  ts_hour : fits 8 (hour t); ts_min : fits 8 (min t); ts_sec : fits 8 (sec t); ts_day : fits 8 (day t);
  ts_month : fits 8 (month t); ts_year : fits 16 (year t)
}.
(** The name is no longer than the array of the caller. *)
Record info_typed (i : DirInfo) : Prop := {
  in_created : stamp_typed (i_created i); in_modified : stamp_typed (i_modified i); in_size : fits 32 (i_size i);
  in_attr : fits 8 (i_attr i); in_length : (length (i_name i) ≤ 255)%nat; in_name : bytes_ok (i_name i);
  in_name_len : i_name_len i = Z.of_nat (length (i_name i))
}.
Lemma stamp_decode date time : stamp_typed (decode_timestamp date time).
Proof.
  assert (H : ∀ k m x, 0 ≤ k → fits k m → 0 ≤ Z.land x m < 2 ^ k) by (intros; by apply fits_land_r).
  assert (H5 : ∀ x, 0 ≤ Z.land x 0x1f < 2 ^ 5) by (intros; by apply H).
  assert (H6 : ∀ x, 0 ≤ Z.land x 0x3f < 2 ^ 6) by (intros; by apply H).
  assert (H4 : ∀ x, 0 ≤ Z.land x 0xf < 2 ^ 4) by (intros; by apply H).
  split; cbn [decode_timestamp hour min sec day month year]; unfold fits.
  - specialize (H5 (Z.shiftr time 11)). lia.
  - specialize (H6 (Z.shiftr time 5)). lia.
  - specialize (H5 time). lia.
  - specialize (H5 date). lia.
  - specialize (H4 (Z.shiftr date 5)). lia.
  - specialize (H6 (Z.shiftr date 9)). lia.
Qed.
Lemma info_of_typed sfn name :
  bytes_ok sfn → bytes_ok name → (length name ≤ 255)%nat → info_typed (info_of sfn name).
Proof.
  intros Hs Hn Hl. split; cbn; [apply stamp_decode..|by apply get_le_4|by apply get_le_1|done|done|].
  unfold u8. apply Z.mod_small. lia.
Qed.
Lemma safe_found_info d sfn : dir_typed d → bytes_ok sfn → safe (lib_typed (fits 8)) (at_typed info_typed) (found_info d sfn).
Proof.
  intros Hd Hs. unfold found_info. do 2 safe_step. apply safe_ret, at_typed_I; [done|].
  apply info_of_typed; [done|by apply bytes_take, se_bytes|].
  match goal with H : fits 8 ?n |- _ => rewrite length_take; unfold fits in H; lia end.
Qed.

(** An invariant that is stronger in between. *)
Lemma safe_shift {A B} (I J : library → Prop) (P : A → Prop) (Q : B → Prop) (m : L A) (k : A → L B) s :
  wlp m (λ a s', J s' ∧ P a) s → (∀ a, P a → safe J Q (k a)) → (∀ s, J s → I s) → wlp (m ≫= k) (λ b s', I s' ∧ Q b) s.
Proof.
  intros Hm Hk HJ. apply wlp_bind. eapply wlp_mono; [exact Hm|]. intros a s' [Hs Ha].
  eapply wlp_mono; [by apply (Hk a Ha)|]. intros b s2 []. auto.
Qed.
Lemma lib_typed_mono (R R' : Z → Prop) s : (∀ n, R n → R' n) → lib_typed R s → lib_typed R' s.
Proof. intros H []. split; auto. Qed.
Lemma fits_8_16 n : fits 8 n → fits 16 n.
Proof. by apply fits_mono. Qed.
Lemma lib_typed_8_16 s : lib_typed (fits 8) s → LT s.
Proof. apply lib_typed_mono, fits_8_16. Qed.
Lemma wlp_skip {St A B} (m : M St A) (k : A → M St B) Q s : (∀ a s', wlp (k a) Q s') → wlp (m ≫= k) Q s.
Proof. intros H. apply wlp_bind. unfold wlp. destruct (m s); auto. apply H. Qed.
Lemma wlp_both {St A} (m : M St A) P Q s : wlp m P s → wlp m Q s → wlp m (λ a s', P a s' ∧ Q a s') s.
Proof. unfold wlp. by destruct (m s). Qed.
(** A name that was parsed has at most 255 bytes. *)
Lemma wlp_parse_len cnt p d lfn s :
  wlp (parse_lfn_loop cnt p d lfn) (λ r s', ∀ a, r.2 = Ok a → g_len s' ≤ 255) s.
Proof.
  revert d lfn s. induction cnt as [|cnt IH]; intros d lfn s; cbn [parse_lfn_loop].
  { apply wlp_bind. unfold wlp, gets. cbn. intros a. destruct (Z.leb_spec (g_len s) 255); [done|discriminate]. }
  apply wlp_skip. intros crc s0. destruct (_ || _); [done|]. destruct (lfn_chars _ _) as [chars complete].
  apply wlp_skip. intros _ s1. apply wlp_skip. intros _ s2. destruct complete; [|done]. cbn [negb].
  apply wlp_skip. intros r s3. unfold at_pos. destruct r.2; [|done].
  apply wlp_skip. intros u s4. destruct u; [|done]. apply wlp_skip. intros raw s5. apply IH.
Qed.
Lemma wlp_parse_name p d s :
  LT s → dir_typed d →
  wlp (parse_lfn_name p d) (λ r s', LT s' ∧ dir_typed r.1 ∧ ∀ a, r.2 = Ok a → lib_typed (fits 8) s') s.
Proof.
  intros Hs Hd. eapply wlp_mono; [apply (wlp_both _ (λ r s', LT s' ∧ at_typed any r) (λ r s', ∀ a, r.2 = Ok a → g_len s' ≤ 255))|].
  - by apply safe_parse_lfn_name.
  - unfold parse_lfn_name. apply wlp_skip. intros u s1. destruct u; [|done]. apply wlp_skip. intros lfn s2.
    apply wlp_skip. intros _ s3. apply wlp_skip. intros _ s4. destruct (_ =? 0); [done|]. destruct (20 <? _); [done|]. apply wlp_parse_len.
  - intros r s' [[Hl Hr] H]. split; [done|]. split; [apply Hr|]. intros a Ha. specialize (H a Ha).
    destruct Hl as [? ? ? Hn ?]. split; try done. unfold fits in *. lia.
Qed.
Lemma parse_sfn_typed sfn : bytes_ok sfn → bytes_ok (parse_sfn_name sfn) ∧ (length (parse_sfn_name sfn) ≤ 12)%nat.
Proof.
  assert (Hu : ∀ l, bytes_ok l → bytes_ok (until SFN_PAD l) ∧ (length (until SFN_PAD l) ≤ length l)%nat).
  { induction 1 as [|c l Hc Hl [IH1 IH2]]; cbn; [by split|]. destruct (_ =? _); cbn; split; [apply bytes_nil|lia|by constructor|lia]. }
  intros Hs. unfold parse_sfn_name. cbv zeta.
  destruct (Hu (take 8 sfn)) as [B1 L1]; [by apply bytes_take|].
  destruct (Hu (take 3 (drop 8 sfn))) as [B2 L2]; [by apply bytes_part|].
  rewrite length_take in L1, L2. destruct (_ =? SFN_PAD).
  - split; [by repeat apply bytes_app|]. rewrite !length_app. cbn. lia.
  - split; [repeat apply bytes_app; [done| |done]; by apply bytes_one|]. rewrite !length_app. cbn. lia.
Qed.
Lemma safe_dir_read_loop fuel p d : dir_typed d → safe LT (at_typed info_typed) (dir_read_loop fuel p d).
Proof.
  revert d. induction fuel as [|fuel IH]; intros d Hd; cbn [dir_read_loop]; [safe|]. safe_step. safe_step; [|safe].
  safe_step. safe_step; [safe|]. safe_step; [safe|]. safe_step.
  - intros s Hs. apply wlp_bind. eapply wlp_mono; [by apply wlp_parse_name|]. intros [d' [u|e]] s' (Hl & Hd' & Hlen); cbn [fst snd] in *.
    + eapply wlp_mono; [apply (safe_at (lib_typed (fits 8)) (at_typed info_typed)); [|by eapply Hlen]|intros x s2 []; split; [by apply lib_typed_8_16|done]].
      safe_step. safe_step; [|safe]. do 2 safe_step. destruct (_ || _); [safe|by apply safe_found_info].
    + by split.
  - destruct (parse_sfn_typed (take 11 a1)) as [Hb Hl]; [by apply bytes_take|]. cbv zeta.
    eapply safe_bind; [apply safe_put_g_buf; [done|lia]|intros _ _]. intros s Hs.
    eapply (safe_shift LT (lib_typed (fits 8)) any); [|intros _ _; by apply safe_found_info|apply lib_typed_8_16].
    unfold wlp, modify. split; [|done]. destruct Hs. split; try done. cbn. unfold fits. lia.
Qed.
#[export] Hint Resolve safe_dir_read_loop : safe.
Lemma safe_fat_dir_read o d : dir_typed d → safe LT (at_typed info_typed) (fat_dir_read o d).
Proof. intros Hd. unfold fat_dir_read. safe. Qed.
Lemma safe_fat_dir_next o d : dir_typed d → safe LT (at_typed any) (fat_dir_next o d).
Proof. intros Hd. unfold fat_dir_next. safe. Qed.
Lemma safe_fat_dir_rewind o d : dir_typed d → safe LT (at_typed any) (fat_dir_rewind o d).
Proof. intros Hd. unfold fat_dir_rewind. safe. Qed.
#[export] Hint Resolve safe_fat_dir_read safe_fat_dir_next safe_fat_dir_rewind : safe.

(** ** The calls on paths *)
Lemma no_dir_typed : dir_typed no_dir.
Proof. by repeat split. Qed.
Lemma at_typed_good {A} (P : A → Prop) r : at_typed P r → good P r.2.
Proof. by intros []. Qed.
Lemma walked_path {A} (r : walk * A) : walked r → bytes_ok (w_path r.1).
Proof. by intros []. Qed.
#[export] Hint Resolve no_dir_typed at_typed_good walked_path : safe.
Lemma safe_fat_stat path : bytes_ok path → safe LT (good info_typed) (fat_stat path).
Proof. intros Hp. unfold fat_stat. safe. Qed.
Lemma safe_only_free fuel p d : dir_typed d → safe LT any (only_free fuel p d).
Proof. revert d. induction fuel as [|fuel IH]; intros d Hd; cbn [only_free]; safe. Qed.
#[export] Hint Resolve safe_only_free : safe.
Lemma safe_check_empty p d sfn : dir_typed d → bytes_ok sfn → safe LT any (check_empty p d sfn).
Proof. intros Hd Hs. unfold check_empty. safe. Qed.
#[export] Hint Resolve safe_check_empty : safe.
Lemma safe_fat_unlink path : bytes_ok path → safe LT any (fat_unlink path).
Proof. intros Hp. unfold fat_unlink. safe. Qed.

(** The structure of the caller, typed before and after. *)
Definition call_typed {A} (P : A → Prop) (r : File * A) : Prop := file_typed r.1 ∧ P r.2.
Lemma safe_on_file {A} (P : A → Prop) p f (c : M session A) :
  file_typed f → safe session_typed P c → safe LT (call_typed P) (on_file p f c).
Proof.
  intros Hf H s Hs. unfold wlp, on_file. destruct (mounts s !! p) as [m|] eqn:Em; [|done].
  pose proof (lt_mounts _ _ Hs _ _ Em) as Hm.
  assert (Hv : session_typed {| file := f; vol := {| fat := m_fat m; disk := device s |} |}) by (split; [done|split; [apply Hm|apply Hs]]).
  specialize (H _ Hv). unfold wlp in H. destruct (c _); [|done..]. destruct H as [[? ?] ?]. split; [by apply lib_typed_put|by split].
Qed.
Lemma file_of_typed sfn d flags b :
  bytes_ok sfn → dir_typed d → fits 8 flags → sector b → file_typed (file_of sfn d flags b).
Proof.
  intros Hs [] Hf Hb. unfold file_of. cbv zeta.
  split; cbn; try done; try (by apply sfn_cluster_fits); try (by apply get_le_1).
  - destruct (_ && _); [by split|by apply get_le_4].
  - destruct (_ && _); [|done]. apply fits_lor; [lia|done|by split].
Qed.
Lemma safe_create_file w : walk_typed w → safe LT (at_typed any) (create_file w).
Proof. intros []. unfold create_file. safe. Qed.
#[export] Hint Resolve safe_create_file : safe.
Definition open_typed (r : option Z * File * res unit) : Prop := file_typed r.1.2.
Lemma call_typed_file {A} (P : A → Prop) r : call_typed P r → file_typed r.1.
Proof. by intros []. Qed.
Lemma open_typed_I o f r : file_typed f → open_typed (o, f, r).
Proof. done. Qed.
#[export] Hint Resolve call_typed_file open_typed_I : safe.
Lemma safe_fat_file_open f path flags :
  file_typed f → bytes_ok path → fits 8 flags → safe LT open_typed (fat_file_open f path flags).
Proof.
  intros Hf Hp Hfl. unfold fat_file_open. safe_step. cbv zeta.
  assert (Ho : ∀ d, dir_typed d → safe LT open_typed (
    p ← defined (w_fat a.1); sfn ← dir_ptr p d;
    q ← on_file p (file_of sfn d flags (f_buf f)) (fat_file_seek 0 (if has_flag flags FAT_APPEND then FAT_SEEK_END else FAT_SEEK_START));
    mret (Some p, q.1, q.2))).
  { intros d Hd. safe. eapply safe_bind; [apply (safe_on_file any); [apply file_of_typed; auto with safe|apply safe_file_seek]|].
    intros q Hq. safe. }
  safe_step; [apply Ho; eauto with safe|]. do 2 (safe_step; [safe|]). safe_step. safe_step; [apply Ho; eauto with safe|safe].
Qed.

(** The 32 bytes of an entry. *)
Definition entry_typed (l : list Z) : Prop := length l = 32%nat ∧ bytes_ok l.
Lemma entry_set off bytes l : entry_typed l → bytes_ok bytes → (off + length bytes ≤ 32)%nat → entry_typed (set_bytes off bytes l).
Proof.
  intros [Hl Hb] Hn Ho. split; [rewrite set_bytes_length; lia|]. unfold set_bytes.
  repeat apply bytes_app; [by apply bytes_take|done|by apply bytes_drop].
Qed.
Lemma entry_set_le n off v l : (off + n ≤ 32)%nat → entry_typed l → entry_typed (set_le n off v l).
Proof. intros Ho Hl. apply entry_set; [done|apply le_bytes_range|by rewrite le_bytes_length]. Qed.
Lemma dot_entry_typed clust date time raw : entry_typed raw → entry_typed (dot_entry clust date time raw).
Proof.
  intros Hr. unfold dot_entry. cbv zeta. repeat (apply entry_set_le; [apply Nat.leb_le; reflexivity|]).
  apply entry_set; [done| |apply Nat.leb_le; reflexivity]. repeat constructor; by unfold byte_range.
Qed.
Lemma dotdot_entry_typed parent dot : entry_typed dot → entry_typed (dotdot_entry parent dot).
Proof.
  intros Hd. unfold dotdot_entry. repeat (apply entry_set_le; [apply Nat.leb_le; reflexivity|]).
  apply entry_set; [done| |apply Nat.leb_le; reflexivity]. apply bytes_one. by split.
Qed.
Lemma dot_entries_typed clust parent date time b : sector b → sector (dot_entries clust parent date time b).
Proof.
  intros Hb. unfold dot_entries. cbv zeta.
  destruct (dot_entry_typed clust date time (take 32 b)) as [L1 B1].
  { split; [rewrite length_take, (se_length _ Hb); lia|by apply bytes_take, se_bytes]. }
  destruct (dotdot_entry_typed parent _ (conj L1 B1)) as [L2 B2].
  apply sector_set; [done|rewrite length_app, L1, L2; apply Nat.leb_le; reflexivity|by apply bytes_app].
Qed.
#[export] Hint Resolve dot_entries_typed : safe.

Definition made_typed (r : option Z * Dir * res unit) : Prop := dir_typed r.1.2.
Lemma made_typed_I p d r : dir_typed d → made_typed (p, d, r).
Proof. done. Qed.
#[export] Hint Resolve made_typed_I : safe.
Lemma safe_make_dir pick :
  safe vol_typed (good (fits 32)) (clust ←? create_chain;
    clust_clear clust ;?
    f ← get_fat_struct;
    let (date, time) := encode_timestamp fat_get_timestamp in
    update_buf (clust_to_sect f clust) ;?
    raise_flag FAT_BUF_DIRTY;;
    let parent := pick f in
    change_fat (λ f, set_buf (dot_entries clust parent date time (buf f)) f);;
    mret (Ok clust)).
Proof. safe. Qed.
Lemma safe_fat_dir_create o d path : dir_typed d → bytes_ok path → safe LT made_typed (fat_dir_create o d path).
Proof.
  intros Hd Hp. unfold fat_dir_create. cbv zeta. safe_step. safe_step; [safe|]. safe_step; [safe|]. safe_step. safe_step; [safe|]. safe_step.
  eapply safe_bind; [apply safe_on_fat, (safe_make_dir (λ f, if sclust (w_dir a.1) =? root_clust f then 0 else sclust (w_dir a.1)))|].
  intros made Hm. safe.
Qed.
Lemma safe_fat_dir_open o d path : dir_typed d → bytes_ok path → safe LT made_typed (fat_dir_open o d path).
Proof. intros Hd Hp. unfold fat_dir_open. cbv zeta. safe. Qed.
