(* ===== verification/Sd.v ===== *)
(** * The SD card driver

    src/drivers/sd/sd.c: the commands to the card through the EMMC controller, the transfer
    of blocks and the start-up of the card.  The controller and the system timer are a
    device ([Mmio]); [polls] bounds how often one call of [wait_msec] reads the timer.
    The counters of the waiting loops are those of the code.  Blocks are lists of bytes. *)
From stdpp Require Import strings.
From S2P Require Import Prelude.
From S2P Require Import Process.
From S2P Require Import Mm.
From S2P Require Import FatNames.
From S2P Require Import Mmio.
Local Open Scope Z_scope.

(** ** Registers, commands and flags *)
Definition EMMC_BLKSIZECNT : Z := VA_START + GPIO_MMIO_BASE + 0x00300004.
Definition EMMC_ARG1 : Z := VA_START + GPIO_MMIO_BASE + 0x00300008.
Definition EMMC_CMDTM : Z := VA_START + GPIO_MMIO_BASE + 0x0030000C.
Definition EMMC_RESP0 : Z := VA_START + GPIO_MMIO_BASE + 0x00300010.
Definition EMMC_RESP1 : Z := VA_START + GPIO_MMIO_BASE + 0x00300014.
Definition EMMC_RESP2 : Z := VA_START + GPIO_MMIO_BASE + 0x00300018.
Definition EMMC_RESP3 : Z := VA_START + GPIO_MMIO_BASE + 0x0030001C.
Definition EMMC_DATA : Z := VA_START + GPIO_MMIO_BASE + 0x00300020.
Definition EMMC_STATUS : Z := VA_START + GPIO_MMIO_BASE + 0x00300024.
Definition EMMC_CONTROL0 : Z := VA_START + GPIO_MMIO_BASE + 0x00300028.
Definition EMMC_CONTROL1 : Z := VA_START + GPIO_MMIO_BASE + 0x0030002C.
Definition EMMC_INTERRUPT : Z := VA_START + GPIO_MMIO_BASE + 0x00300030.
Definition EMMC_INT_MASK : Z := VA_START + GPIO_MMIO_BASE + 0x00300034.
Definition EMMC_INT_EN : Z := VA_START + GPIO_MMIO_BASE + 0x00300038.
Definition EMMC_SLOTISR_VER : Z := VA_START + GPIO_MMIO_BASE + 0x003000FC.

Definition CMD_NEED_APP : Z := 0x80000000.
Definition CMD_RSPNS_48 : Z := 0x00020000.
Definition CMD_ERRORS_MASK : Z := 0xfff9c004.
Definition CMD_RCA_MASK : Z := 0xffff0000.
Definition CMD_GO_IDLE : Z := 0x00000000.
Definition CMD_ALL_SEND_CID : Z := 0x02010000.
Definition CMD_SEND_REL_ADDR : Z := 0x03020000.
Definition CMD_CARD_SELECT : Z := 0x07030000.
Definition CMD_SEND_IF_COND : Z := 0x08020000.
Definition CMD_STOP_TRANS : Z := 0x0C030000.
Definition CMD_READ_SINGLE : Z := 0x11220010.
Definition CMD_READ_MULTI : Z := 0x12220032.
Definition CMD_SET_BLOCKCNT : Z := 0x17020000.
Definition CMD_WRITE_SINGLE : Z := 0x18220000.
Definition CMD_WRITE_MULTI : Z := 0x19220022.
Definition CMD_APP_CMD : Z := 0x37000000.
Definition CMD_SET_BUS_WIDTH : Z := Z.lor 0x06020000 CMD_NEED_APP.
Definition CMD_SEND_OP_COND : Z := Z.lor 0x29020000 CMD_NEED_APP.
Definition CMD_SEND_SCR : Z := Z.lor 0x33220010 CMD_NEED_APP.

Definition SR_READ_AVAILABLE : Z := 0x00000800.
Definition SR_WRITE_AVAILABLE : Z := 0x00000400.
Definition SR_DAT_INHIBIT : Z := 0x00000002.
Definition SR_CMD_INHIBIT : Z := 0x00000001.
Definition SR_APP_CMD : Z := 0x00000020.

Definition INT_DATA_TIMEOUT : Z := 0x00100000.
Definition INT_CMD_TIMEOUT : Z := 0x00010000.
Definition INT_READ_RDY : Z := 0x00000020.
Definition INT_WRITE_RDY : Z := 0x00000010.
Definition INT_DATA_DONE : Z := 0x00000002.
Definition INT_CMD_DONE : Z := 0x00000001.
Definition INT_ERROR_MASK : Z := 0x017E8000.

Definition C0_HCTL_DWITDH : Z := 0x00000002.
Definition C1_SRST_HC : Z := 0x01000000.
Definition C1_TOUNIT_MAX : Z := 0x000e0000.
Definition C1_CLK_EN : Z := 0x00000004.
Definition C1_CLK_STABLE : Z := 0x00000002.
Definition C1_CLK_INTLEN : Z := 0x00000001.

Definition HOST_SPEC_NUM : Z := 0x00ff0000.
Definition HOST_SPEC_NUM_SHIFT : Z := 16.
Definition HOST_SPEC_V2 : Z := 1.

Definition SCR_SD_BUS_WIDTH_4 : Z := 0x00000400.
Definition SCR_SUPP_SET_BLKCNT : Z := 0x02000000.
Definition SCR_SUPP_CCS : Z := 0x00000001.

Definition ACMD41_VOLTAGE : Z := 0x00ff8000.
Definition ACMD41_CMD_COMPLETE : Z := 0x80000000.
Definition ACMD41_CMD_CCS : Z := 0x40000000.
Definition ACMD41_ARG_HC : Z := 0x51ff8000.

Definition SD_OK : Z := 0.
Definition SD_TIMEOUT : Z := -1.
Definition SD_ERROR : Z := -2.
Definition SYS_TIMER_BASE : Z := 0x3F003000.
Definition SYS_TIMER_CLOCK : Z := SYS_TIMER_BASE + 0x04.

Definition bit_set (v mask : Z) : bool := negb (Z.land v mask =? 0).

(** ** State *)

(** The device and the globals of the driver ([sd_ocr] is never used); the messages it
    prints are [sd_out].  [sd_err] and [sd_rca] are [unsigned long]. *)
Record driver (hw : Type) := {
  device : hw;
  sd_scr : list Z;
  sd_rca : Z;
  sd_err : Z;
  sd_hv : Z;
  sd_out : list Z
}.
Arguments device {hw}.
Arguments sd_scr {hw}.
Arguments sd_rca {hw}.
Arguments sd_err {hw}.
Arguments sd_hv {hw}.
Arguments sd_out {hw}.

Section driver.
Context {hw : Type} `{!Mmio hw}.
Variable polls : nat.
Abbreviation D := (M (driver hw)).
Implicit Types s : driver hw.

Definition set_device h s : driver hw := {| s with device := h |}.
Definition set_sd_scr v s : driver hw := {| s with sd_scr := v |}.
Definition set_sd_rca v s : driver hw := {| s with sd_rca := v |}.
Definition set_sd_hv v s : driver hw := {| s with sd_hv := v |}.
Definition set_err (v : Z) : D unit := modify (λ s, {| s with sd_err := u64 v |}).
(** [uart_puts] of a line *)
Definition line (text : string) : list Z := bytes_of_string text ++ [10].
Definition report (message : list Z) : D unit :=
  modify (λ s, {| s with sd_out := sd_out s ++ message |}).

(** [*reg] and [*reg = v] *)
Definition reg_read (reg : Z) : D Z := λ s,
  let r := read_register reg (device s) in Done (u32 r.1) (set_device r.2 s).
Definition reg_write (reg v : Z) : D unit :=
  modify (λ s, set_device (write_register reg (u32 v) (device s)) s).
(** [sd_scr[0] & flag] *)
Definition scr_has (flag : Z) : D bool :=
  l ← gets sd_scr; v ← defined (arr_get l 0); mret (bit_set v flag).

(** ** Waiting *)
Fixpoint wait_until (n : nat) (target : Z) : D unit :=
  match n with
  | O => out_of_fuel
  | S n' =>
      clock ← reg_read SYS_TIMER_CLOCK;
      if to_int (clock - target) <? 0 then wait_until n' target else mret tt
  end.
Definition wait_msec (n : Z) : D unit :=
  system_clock ← reg_read SYS_TIMER_CLOCK;
  let target := u32 (system_clock + u32 (n * 1000)) in
  wait_until polls target.

(** The loop of [sd_status], from [cnt = n]; the result is [cnt]. *)
Fixpoint status_loop (mask : Z) (n : nat) : D Z :=
  status ← reg_read EMMC_STATUS;
  if negb (bit_set status mask) then mret (Z.of_nat n) else
  interrupt ← reg_read EMMC_INTERRUPT;
  if bit_set interrupt INT_ERROR_MASK then mret (Z.of_nat n) else
  match n with
  | O => mret (-1)
  | S n' => wait_msec 1;; status_loop mask n'
  end.
Definition STATUS_POLLS : Z := 500000.
Definition sd_status (mask : Z) : D Z :=
  cnt ← status_loop mask (Z.to_nat STATUS_POLLS);
  if cnt <=? 0 then mret SD_ERROR else
  interrupt ← reg_read EMMC_INTERRUPT;
  mret (if bit_set interrupt INT_ERROR_MASK then SD_ERROR else SD_OK).

Fixpoint int_loop (m : Z) (n : nat) : D Z :=
  interrupt ← reg_read EMMC_INTERRUPT;
  if bit_set interrupt m then mret (Z.of_nat n) else
  match n with
  | O => mret (-1)
  | S n' => wait_msec 1;; int_loop m n'
  end.
Definition INT_POLLS : Z := 1000000.
Definition sd_int (mask : Z) : D Z :=
  cnt ← int_loop (Z.lor mask INT_ERROR_MASK) (Z.to_nat INT_POLLS);
  r ← reg_read EMMC_INTERRUPT;
  if (cnt <=? 0) || bit_set r INT_CMD_TIMEOUT || bit_set r INT_DATA_TIMEOUT then
    reg_write EMMC_INTERRUPT r;; mret SD_TIMEOUT
  else if bit_set r INT_ERROR_MASK then reg_write EMMC_INTERRUPT r;; mret SD_ERROR
  else reg_write EMMC_INTERRUPT mask;; mret 0.

(** ** Commands *)

(** What is left of [r], the first word of the response. *)
Definition response (code arg r : Z) : D Z :=
  if (code =? CMD_GO_IDLE) || (code =? CMD_APP_CMD) then mret 0
  else if code =? Z.lor CMD_APP_CMD CMD_RSPNS_48 then mret (Z.land r SR_APP_CMD)
  else if code =? CMD_SEND_OP_COND then mret r
  else if code =? CMD_SEND_IF_COND then mret (if u32 r =? arg then SD_OK else SD_ERROR)
  else if code =? CMD_ALL_SEND_CID then
    r3 ← reg_read EMMC_RESP3;
    r2 ← reg_read EMMC_RESP2;
    r1 ← reg_read EMMC_RESP1;
    mret (to_int (Z.lor (Z.lor (Z.lor r r3) r2) r1))
  else if code =? CMD_SEND_REL_ADDR then
    set_err (Z.land (Z.lor (Z.lor (Z.lor (Z.land r 0x1fff) (Z.shiftl (Z.land r 0x2000) 6))
               (Z.shiftl (Z.land r 0x4000) 8)) (Z.shiftl (Z.land r 0x8000) 8)) CMD_ERRORS_MASK);;
    mret (to_int (Z.land r CMD_RCA_MASK))
  else mret (to_int (Z.land r CMD_ERRORS_MASK)).
(** [sd_execute_command] from the wait for the command line on. *)
Definition send_command (code arg : Z) : D Z :=
  busy ← sd_status SR_CMD_INHIBIT;
  if negb (busy =? 0) then
    report (line "ERROR: EMMC busy");; set_err SD_TIMEOUT;; mret 0
  else
  flags ← reg_read EMMC_INTERRUPT;
  reg_write EMMC_INTERRUPT flags;;
  reg_write EMMC_ARG1 arg;;
  reg_write EMMC_CMDTM code;;
  (if code =? CMD_SEND_OP_COND then wait_msec 1000
   else when ((code =? CMD_SEND_IF_COND) || (code =? CMD_APP_CMD)) (wait_msec 100));;
  r ← sd_int INT_CMD_DONE;
  if negb (r =? 0) then
    report (line "ERROR: failed to send EMMC command");; set_err r;; mret 0
  else
  r ← reg_read EMMC_RESP0;
  response code arg (to_int r).
(** The call of [sd_execute_command] in itself is with a code that has not [CMD_NEED_APP]. *)
Definition app_command : D Z :=
  rca ← gets sd_rca;
  set_err SD_OK;;
  send_command (Z.lor CMD_APP_CMD (if rca =? 0 then 0 else CMD_RSPNS_48)) (u32 rca).
Definition sd_execute_command (code arg : Z) : D Z :=
  set_err SD_OK;;
  if bit_set code CMD_NEED_APP then
    rca ← gets sd_rca;
    r ← app_command;
    if negb (rca =? 0) && (r =? 0) then
      report (line "ERROR: failed to send SD APP command");; set_err SD_ERROR;; mret 0
    else send_command (Z.land code (Z.lnot CMD_NEED_APP)) arg
  else send_command code arg.
(** [if (sd_err)] *)
Definition failed : D bool := e ← gets sd_err; mret (negb (e =? 0)).

(** ** Blocks *)

(** [for (d = 0; d < 128; d++) buf[d] = *EMMC_DATA;] *)
Fixpoint read_words (n : nat) : D (list Z) :=
  match n with
  | O => mret []
  | S n' => w ← reg_read EMMC_DATA; rest ← read_words n'; mret (le_bytes 4 w ++ rest)
  end.
(** The buffer from the first byte that was not written. *)
Fixpoint write_words (n : nat) (buf : list Z) : D (list Z) :=
  match n with
  | O => mret buf
  | S n' =>
      match buf with
      | b0 :: b1 :: b2 :: b3 :: buf' => reg_write EMMC_DATA (le_value [b0; b1; b2; b3]);; write_words n' buf'
      | _ => undefined
      end
  end.
Definition BLOCK_WORDS : nat := 128.

(** The command a transfer starts with, or one per block; the result says whether to go on. *)
Definition start_transfer (single multi lba num : Z) : D bool :=
  ccs ← scr_has SCR_SUPP_CCS;
  if ccs : bool then
    supp ← scr_has SCR_SUPP_SET_BLKCNT;
    stop ← (if (1 <? num) && supp then _ ← sd_execute_command CMD_SET_BLOCKCNT num; failed else mret false);
    if stop : bool then mret false else
    reg_write EMMC_BLKSIZECNT (Z.lor (Z.shiftl num 16) 512);;
    _ ← sd_execute_command (if num =? 1 then single else multi) lba;
    error ← failed; mret (negb error)
  else reg_write EMMC_BLKSIZECNT (Z.lor (Z.shiftl 1 16) 512);; mret true.
(** One block more, the [c]th; the result says whether to go on. *)
Definition next_block (single ready lba c : Z) (message : list Z) : D bool :=
  ccs ← scr_has SCR_SUPP_CCS;
  stop ← (if ccs : bool then mret false
          else _ ← sd_execute_command single (u32 ((lba + c) * 512)); failed);
  if stop : bool then mret false else
  r ← sd_int ready;
  if negb (r =? 0) then report message;; set_err r;; mret false else mret true.
Definition read_timeout : list Z := 13 :: line "ERROR: Timeout waiting for ready to read".
Definition write_timeout : list Z := 13 :: line "ERROR: Timeout waiting for ready to write".
Definition done_timeout : list Z := 13 :: line "ERROR: Timeout waiting for data done".
(** What was stored in the buffer, and whether the loop came to its end. *)
Fixpoint read_blocks (n : nat) (c lba : Z) : D (list Z * bool) :=
  match n with
  | O => mret ([], true)
  | S n' =>
      go ← next_block CMD_READ_SINGLE INT_READ_RDY lba c read_timeout;
      if go : bool then
        block ← read_words BLOCK_WORDS;
        rest ← read_blocks n' (c + 1) lba;
        mret (block ++ rest.1, rest.2)
      else mret ([], false)
  end.
Fixpoint write_blocks (n : nat) (c lba : Z) (buf : list Z) : D bool :=
  match n with
  | O => mret true
  | S n' =>
      go ← next_block CMD_WRITE_SINGLE INT_WRITE_RDY lba c write_timeout;
      if go : bool then
        buf ← write_words BLOCK_WORDS buf;
        write_blocks n' (c + 1) lba buf
      else mret false
  end.
(** The end of a transfer: [c == num] where the loop came to its end. *)
Definition end_transfer (num : Z) : D Z :=
  supp ← scr_has SCR_SUPP_SET_BLKCNT;
  ccs ← scr_has SCR_SUPP_CCS;
  (if (1 <? num) && negb supp && ccs then _ ← sd_execute_command CMD_STOP_TRANS 0; mret tt else mret tt);;
  e ← gets sd_err;
  mret (if negb (e =? SD_OK) then 0 else to_int (u32 (num * 512))).

(** The first result is what is stored from the start of [buffer] on. *)
Definition sd_readblock (lba num : Z) : D (list Z * Z) :=
  let num := if num <? 1 then 1 else num in
  busy ← sd_status SR_DAT_INHIBIT;
  if negb (busy =? 0) then set_err SD_TIMEOUT;; mret ([], 0) else
  go ← start_transfer CMD_READ_SINGLE CMD_READ_MULTI lba num;
  if negb go then mret ([], 0) else
  blocks ← read_blocks (Z.to_nat num) 0 lba;
  if negb blocks.2 then mret (blocks.1, 0) else
  r ← end_transfer num;
  mret (blocks.1, r).
Definition sd_writeblock (buffer : list Z) (lba num : Z) : D Z :=
  let num := if num <? 1 then 1 else num in
  busy ← sd_status (Z.lor SR_DAT_INHIBIT SR_WRITE_AVAILABLE);
  if negb (busy =? 0) then set_err SD_TIMEOUT;; mret 0 else
  go ← start_transfer CMD_WRITE_SINGLE CMD_WRITE_MULTI lba num;
  if negb go then mret 0 else
  complete ← write_blocks (Z.to_nat num) 0 lba buffer;
  if negb complete then mret 0 else
  r ← sd_int INT_DATA_DONE;
  if negb (r =? 0) then report done_timeout;; set_err r;; mret 0
  else end_transfer num.

(** *** The callbacks of the FAT library (src/libs/filesystem.c) *)
Definition sd_read_adapter (sector : Z) : D (list Z * bool) :=
  res ← sd_readblock sector 1; mret (res.1, negb (res.2 =? 0)).
Definition sd_write_adapter (buffer : list Z) (sector : Z) : D bool :=
  res ← sd_writeblock buffer sector 1; mret (negb (res =? 0)).

(** ** Start-up *)

(** The base clock is 41.67 MHz.  [s]: the position of the highest bit of [x = c - 1], at most 7. *)
Definition narrow (step : Z * Z) (mask shift : Z) : Z * Z :=
  let '(x, s) := step in if Z.land x mask =? 0 then (u32 (Z.shiftl x shift), s - shift) else (x, s).
Definition clock_shift (c : Z) : Z :=
  let x := u32 (c - 1) in
  if x =? 0 then 0 else
  let s := (narrow (narrow (narrow (narrow (narrow (x, 32) 0xffff0000 16) 0xff000000 8) 0xf0000000 4)
             0xc0000000 2) 0x80000000 1).2 in
  let s := if 0 <? s then s - 1 else s in
  if 7 <? s then 7 else s.
(** The bits of the divisor in CONTROL1, for a host of version [hv]. *)
Definition clock_divider (f hv : Z) : Z :=
  let c := 41666666 / f in
  let d := if HOST_SPEC_V2 <? hv then c else Z.shiftl 1 (clock_shift c) in
  let d := if d <=? 2 then 2 else d in
  let h := if HOST_SPEC_V2 <? hv then Z.shiftr (Z.land d 0x300) 2 else 0 in
  Z.lor (Z.shiftl (Z.land d 0x0ff) 8) h.

Fixpoint inhibit_loop (n : nat) : D Z :=
  status ← reg_read EMMC_STATUS;
  if negb (bit_set status (Z.lor SR_CMD_INHIBIT SR_DAT_INHIBIT)) then mret (Z.of_nat n) else
  match n with
  | O => mret (-1)
  | S n' => wait_msec 1;; inhibit_loop n'
  end.
Fixpoint stable_loop (n : nat) : D Z :=
  control ← reg_read EMMC_CONTROL1;
  if bit_set control C1_CLK_STABLE then mret (Z.of_nat n) else
  match n with
  | O => mret (-1)
  | S n' => wait_msec 10;; stable_loop n'
  end.
Definition INHIBIT_POLLS : Z := 100000.
Definition STABLE_POLLS : Z := 10000.
Definition sd_set_clock (f : Z) : D Z :=
  cnt ← inhibit_loop (Z.to_nat INHIBIT_POLLS);
  if cnt <=? 0 then report (line "ERROR: timeout waiting for inhibit flag");; mret SD_ERROR else
  control ← reg_read EMMC_CONTROL1;
  reg_write EMMC_CONTROL1 (Z.land control (Z.lnot C1_CLK_EN));;
  wait_msec 10;;
  hv ← gets sd_hv;
  control ← reg_read EMMC_CONTROL1;
  reg_write EMMC_CONTROL1 (Z.lor (Z.land control 0xffff003f) (clock_divider f hv));;
  wait_msec 10;;
  control ← reg_read EMMC_CONTROL1;
  reg_write EMMC_CONTROL1 (Z.lor control C1_CLK_EN);;
  wait_msec 10;;
  cnt ← stable_loop (Z.to_nat STABLE_POLLS);
  if cnt <=? 0 then report (line "ERROR: failed to get stable clock");; mret SD_ERROR else
  mret SD_OK.

(** The pins of the card: detection, clock and command, data.  [delay] only takes time. *)
Definition pull_up (pins : Z) : D unit :=
  reg_write GPPUD 2;;
  reg_write GPPUDCLK1 pins;;
  reg_write GPPUD 0;;
  reg_write GPPUDCLK1 0.
Definition enable_card_detect : D unit :=
  r ← reg_read GPFSEL4;
  reg_write GPFSEL4 (Z.land r (Z.lnot (Z.shiftl 7 (7 * 3))));;
  pull_up (Z.shiftl 1 15);;
  r ← reg_read GPHEN1;
  reg_write GPHEN1 (Z.lor r (Z.shiftl 1 15)).
Definition enable_clock_and_command : D unit :=
  r ← reg_read GPFSEL4;
  reg_write GPFSEL4 (Z.lor r (Z.lor (Z.shiftl 7 (8 * 3)) (Z.shiftl 7 (9 * 3))));;
  pull_up (Z.lor (Z.shiftl 1 16) (Z.shiftl 1 17)).
Definition enable_data_pins : D unit :=
  r ← reg_read GPFSEL5;
  reg_write GPFSEL5 (Z.lor r (Z.lor (Z.lor (Z.lor (Z.shiftl 7 (0 * 3)) (Z.shiftl 7 (1 * 3)))
    (Z.shiftl 7 (2 * 3))) (Z.shiftl 7 (3 * 3))));;
  reg_write GPPUD 2;;
  c ← reg_read GPPUDCLK1;
  reg_write GPPUDCLK1 (Z.lor c (Z.lor (Z.lor (Z.lor (Z.shiftl 1 18) (Z.shiftl 1 19)) (Z.shiftl 1 20))
    (Z.shiftl 1 21)));;
  reg_write GPPUD 0;;
  reg_write GPPUDCLK1 0.

(** The loop of [reset_emmc], from [cnt = n]; the result is [cnt]. *)
Fixpoint reset_loop (n : nat) : D Z :=
  wait_msec 10;;
  control ← reg_read EMMC_CONTROL1;
  if negb (bit_set control C1_SRST_HC) then mret (Z.of_nat n) else
  match n with O => mret (-1) | S n' => reset_loop n' end.
Definition RESET_POLLS : Z := 10000.
Definition reset_emmc : D Z :=
  reg_write EMMC_CONTROL0 0;;
  control ← reg_read EMMC_CONTROL1;
  reg_write EMMC_CONTROL1 (Z.lor control C1_SRST_HC);;
  reset_loop (Z.to_nat RESET_POLLS).

(** The loop of [enable_card]: [r] and [cnt] behind it, or the error it returns. *)
Fixpoint op_cond_loop (n : nat) (r : Z) : D (Z * Z + Z) :=
  if bit_set r ACMD41_CMD_COMPLETE then mret (inl (r, Z.of_nat n)) else
  match n with
  | O => mret (inl (r, -1))
  | S n' =>
      r ← sd_execute_command CMD_SEND_OP_COND ACMD41_ARG_HC;
      error ← gets sd_err;
      if negb (to_int error =? SD_TIMEOUT) && negb (to_int error =? SD_OK) then
        report (line "ERROR: EMMC ACMD41 returned error");; mret (inr (to_int error))
      else op_cond_loop n' r
  end.
Definition OP_COND_TRIES : nat := 6.
(** The result and what is stored in [*ccs], if anything is. *)
Definition enable_card : D (Z * option Z) :=
  l ← op_cond_loop OP_COND_TRIES 0;
  match l with
  | inr error => mret (error, None)
  | inl (r, cnt) =>
      mret (if negb (bit_set r ACMD41_CMD_COMPLETE) || (cnt =? 0) then (SD_TIMEOUT, None)
            else if negb (bit_set r ACMD41_VOLTAGE) then (SD_ERROR, None)
            else (SD_OK, if bit_set r ACMD41_CMD_CCS then Some SCR_SUPP_CCS else None))
  end.

(** The loop that reads the SCR register of the card.  [cnt] is never decremented: [fuel] is
    not a counter of the code. *)
Fixpoint scr_loop (fuel : nat) (r : Z) : D unit :=
  if 2 <=? r then mret tt else
  match fuel with
  | O => out_of_fuel
  | S fuel' =>
      status ← reg_read EMMC_STATUS;
      if bit_set status SR_READ_AVAILABLE then
        w ← reg_read EMMC_DATA;
        l ← gets sd_scr;
        l' ← defined (arr_set l r w);
        modify (set_sd_scr l');;
        scr_loop fuel' (r + 1)
      else wait_msec 1;; scr_loop fuel' r
  end.
Definition set_scr_flags (ccs : Z) : D unit :=
  l ← gets sd_scr;
  v ← defined (arr_get l 0);
  l' ← defined (arr_set l 0 (Z.lor (Z.land v (Z.lnot SCR_SUPP_CCS)) ccs));
  modify (set_sd_scr l').

(** [return sd_err;] where a command failed. *)
Definition checked (c : D Z) (rest : Z → D Z) : D Z :=
  r ← c;
  error ← gets sd_err;
  if negb (error =? 0) then mret (to_int error) else rest r.
Definition start_host : D Z :=
  enable_card_detect;;
  enable_clock_and_command;;
  enable_data_pins;;
  version ← reg_read EMMC_SLOTISR_VER;
  modify (set_sd_hv (Z.shiftr (Z.land version HOST_SPEC_NUM) HOST_SPEC_NUM_SHIFT));;
  cnt ← reset_emmc;
  if cnt <=? 0 then report (line "[ERROR] Failed to reset EMMC");; mret SD_ERROR else
  control ← reg_read EMMC_CONTROL1;
  reg_write EMMC_CONTROL1 (Z.lor control (Z.lor C1_CLK_INTLEN C1_TOUNIT_MAX));;
  wait_msec 10;;
  r ← sd_set_clock 400000;
  if negb (r =? 0) then mret r else
  reg_write EMMC_INT_EN 0xffffffff;;
  reg_write EMMC_INT_MASK 0xffffffff;;
  modify (set_sd_scr [0; 0]);; modify (set_sd_rca 0);; set_err 0;;
  mret SD_OK.
Definition start_card (fuel : nat) (ccs : Z) : D Z :=
  _ ← sd_execute_command CMD_ALL_SEND_CID 0;
  checked (rca ← sd_execute_command CMD_SEND_REL_ADDR 0; modify (set_sd_rca (u64 rca));; mret 0) (λ _,
  r ← sd_set_clock 25000000;
  if negb (r =? 0) then mret r else
  rca ← gets sd_rca;
  checked (sd_execute_command CMD_CARD_SELECT (u32 rca)) (λ _,
  busy ← sd_status SR_DAT_INHIBIT;
  if negb (busy =? 0) then mret SD_TIMEOUT else
  reg_write EMMC_BLKSIZECNT (Z.lor (Z.shiftl 1 16) 8);;
  checked (sd_execute_command CMD_SEND_SCR 0) (λ _,
  r ← sd_int INT_READ_RDY;
  if negb (r =? 0) then mret SD_TIMEOUT else
  scr_loop fuel 0;;
  wide ← scr_has SCR_SD_BUS_WIDTH_4;
  if wide : bool then
    rca ← gets sd_rca;
    checked (sd_execute_command CMD_SET_BUS_WIDTH (u32 (Z.lor rca 2))) (λ _,
    control ← reg_read EMMC_CONTROL0;
    reg_write EMMC_CONTROL0 (Z.lor control C0_HCTL_DWITDH);;
    set_scr_flags ccs;;
    mret SD_OK)
  else set_scr_flags ccs;; mret SD_OK))).
Definition sd_init (fuel : nat) : D Z :=
  r ← start_host;
  if negb (r =? 0) then mret r else
  checked (sd_execute_command CMD_GO_IDLE 0) (λ _,
  checked (sd_execute_command CMD_SEND_IF_COND 0x000001AA) (λ _,
  '(enable_card_ok, ccs) ← enable_card;
  if negb (enable_card_ok =? SD_OK) then mret enable_card_ok else
  start_card fuel (default 0 ccs))).
End driver.
