(* ===== verification/SdSpec.v ===== *)
(** * What the SD card driver relies on and delivers

    The laws of the devices the driver of src/drivers/sd/sd.c works with, after the
    peripherals manual of the BCM2835: the system timer ([SystemTimer]), which counts
    microseconds, and the EMMC controller with a card in it ([EmmcController]).  With the
    timer alone every transfer returns; with the controller it moves the blocks of the card. *)
From S2P Require Import Prelude.
From S2P Require Import FatNames.
From S2P Require Import Mmio.
From S2P Require Import Sd.
Local Open Scope Z_scope.

(** ** The system timer *)

(** [time]: microseconds since it was started, of which the register shows 32 bits.  Reads
    that come before the next microsecond use up [patience]; a read takes less than 2^30. *)
Class SystemTimer (hw : Type) `{!Mmio hw} := {
  time : hw → Z;
  patience : hw → Z;
  max_patience : Z;
  read_clock h : u32 (read_register SYS_TIMER_CLOCK h).1 = u32 (time h);
  clock_step h : let h' := (read_register SYS_TIMER_CLOCK h).2 in
    time h < time h' < time h + 2 ^ 30 ∨ time h' = time h ∧ patience h' < patience h;
  patience_range h : 0 ≤ patience h ≤ max_patience
}.

(** Reads that are enough to wait for a second. *)
Definition enough_polls (max_patience : Z) (polls : nat) : Prop :=
  1000000 * (max_patience + 1) + max_patience < Z.of_nat polls.

Lemma to_int_difference a b : - 2 ^ 31 ≤ a - b < 2 ^ 31 → to_int (u32 a - u32 b) = a - b.
Proof.
  intros H. rewrite <- (to_int_small (a - b)) by done. unfold to_int, u32. by rewrite <- Zminus_mod.
Qed.

Section waiting.
Context {hw : Type} `{!Mmio hw, !SystemTimer hw}.
Variable polls : nat.
Hypothesis Hpolls : enough_polls max_patience polls.
Abbreviation D := (M (driver hw)).
Implicit Types s : driver hw.

Lemma wp_reg_read reg (Q : Z → driver hw → Prop) s :
  Q (u32 (read_register reg (device s)).1) (set_device (read_register reg (device s)).2 s) → wp (reg_read reg) Q s.
Proof. done. Qed.
Lemma wp_reg_write reg v (Q : unit → driver hw → Prop) s :
  Q tt (set_device (write_register reg (u32 v) (device s)) s) → wp (reg_write reg v) Q s.
Proof. done. Qed.

(** Waiting only reads the timer. *)
Definition clock_stable (I : hw → Prop) : Prop := ∀ h, I h → I (read_register SYS_TIMER_CLOCK h).2.
Lemma wp_wait_until (I : hw → Prop) n target (Q : unit → driver hw → Prop) s :
  clock_stable I → I (device s) → target - 2 ^ 30 ≤ time (device s) < target + 2 ^ 30 →
  Z.max 0 (target - time (device s)) * (max_patience + 1) + patience (device s) < Z.of_nat n →
  (∀ h, I h → Q tt (set_device h s)) → wp (wait_until n (u32 target)) Q s.
Proof.
  intros HI. revert s. induction n as [|n IH]; intros s Hs Ht Hn HQ.
  { pose proof (patience_range (device s)). nia. }
  cbn [wait_until]. apply wp_bind, wp_reg_read. rewrite read_clock, to_int_difference by lia.
  destruct (Z.ltb_spec (time (device s) - target) 0); [|by apply wp_ret, HQ, HI].
  destruct (clock_step (device s)) as [Hstep|[Hstep Hpat]];
    pose proof (patience_range (device s)); pose proof (patience_range (read_register SYS_TIMER_CLOCK (device s)).2).
  - apply IH; cbn [device set_device]; [by apply HI|lia| |by intros h Hh; apply HQ].
    assert (Z.max 0 (target - time (read_register SYS_TIMER_CLOCK (device s)).2) ≤ target - time (device s) - 1) by lia. nia.
  - apply IH; cbn [device set_device]; [by apply HI|lia| |by intros h Hh; apply HQ].
    rewrite Hstep. nia.
Qed.
Lemma wp_wait_msec (I : hw → Prop) n (Q : unit → driver hw → Prop) s :
  0 ≤ n ≤ 1000 → clock_stable I → I (device s) → (∀ h, I h → Q tt (set_device h s)) → wp (wait_msec polls n) Q s.
Proof.
  intros Hn HI Hs HQ. unfold wait_msec. apply wp_bind, wp_reg_read. rewrite read_clock.
  assert (E : u32 (u32 (time (device s)) + u32 (n * 1000)) = u32 (time (device s) + n * 1000)).
  { unfold u32. by rewrite <- Zplus_mod. }
  rewrite E. pose proof (patience_range (device s)).
  pose proof (patience_range (read_register SYS_TIMER_CLOCK (device s)).2).
  assert (Hs' : time (device s) ≤ time (read_register SYS_TIMER_CLOCK (device s)).2 < time (device s) + 2 ^ 30)
    by (destruct (clock_step (device s)); lia).
  apply (wp_wait_until I); cbn [device set_device]; [done|by apply HI|lia| |by intros h Hh; apply HQ].
  unfold enough_polls in Hpolls.
  assert (Z.max 0 (time (device s) + n * 1000 - time (read_register SYS_TIMER_CLOCK (device s)).2) ≤ 1000000) by lia. nia.
Qed.
End waiting.

(** ** Every transfer returns

    [returns c Q]: [c] returns from every state of the driver, with [Q] of its result and
    the state. *)
Definition scr_ok {hw} (s : driver hw) : Prop := length (sd_scr s) = 2%nat.
Definition returns {hw A} (c : M (driver hw) A) (Q : A → driver hw → Prop) : Prop :=
  ∀ s, scr_ok s → wp c (λ a s', scr_ok s' ∧ Q a s') s.

Section returns.
Context {hw : Type} `{!Mmio hw, !SystemTimer hw}.
Variable polls : nat.
Hypothesis Hpolls : enough_polls max_patience polls.
Abbreviation D := (M (driver hw)).
Abbreviation anything := (λ _ _, True).
Implicit Types s : driver hw.

Lemma returns_bind {A B} (c : D A) (f : A → D B) P Q :
  returns c P → (∀ a s, scr_ok s → P a s → wp (f a) (λ b s', scr_ok s' ∧ Q b s') s) → returns (c ≫= f) Q.
Proof. intros Hc Hf s Hs. apply wp_bind. eapply wp_mono; [by apply Hc|]. cbn. intros a s' [? ?]. by apply Hf. Qed.
Lemma returns_then {A B} (c : D A) (f : A → D B) P Q :
  returns c P → (∀ a, returns (f a) Q) → returns (c ≫= f) Q.
Proof. intros Hc Hf. eapply returns_bind; [exact Hc|]. intros a s Hs _. by apply Hf. Qed.
Lemma returns_mono {A} (c : D A) (P Q : A → driver hw → Prop) : returns c P → (∀ a s, P a s → Q a s) → returns c Q.
Proof. intros Hc H s Hs. eapply wp_mono; [by apply Hc|]. cbn. intros a s' [? ?]. auto. Qed.
Lemma returns_ret {A} (a : A) (Q : A → driver hw → Prop) : (∀ s, Q a s) → returns (mret a) Q.
Proof. intros H s Hs. by apply wp_ret. Qed.
Lemma returns_reg_read reg : returns (reg_read reg) anything.
Proof. intros s Hs. apply wp_reg_read. done. Qed.
Lemma returns_reg_write reg v : returns (reg_write reg v) anything.
Proof. intros s Hs. apply wp_reg_write. done. Qed.
Lemma returns_wait n : 0 ≤ n ≤ 1000 → returns (wait_msec polls n) anything.
Proof. intros Hn s Hs. by apply (wp_wait_msec _ Hpolls (λ _, True)). Qed.
Lemma returns_set_err v : returns (set_err v : D unit) (λ _ s, sd_err s = u64 v).
Proof. intros s Hs. by apply wp_modify. Qed.
Lemma returns_report message : returns (report message : D unit) anything.
Proof. intros s Hs. by apply wp_modify. Qed.
Lemma returns_gets {A} (f : driver hw → A) : returns (gets f) (λ a s, a = f s).
Proof. intros s Hs. by apply wp_gets. Qed.
Lemma returns_scr_has flag : returns (scr_has flag : D bool) anything.
Proof.
  intros s Hs. unfold scr_has. apply wp_bind, wp_gets, wp_bind, wp_defined.
  destruct (arr_get_is_Some (sd_scr s) 0) as [_ [v Hv]]; [rewrite Hs; lia|]. by exists v.
Qed.
Lemma returns_failed : returns (failed : D bool) (λ b s, b = negb (sd_err s =? 0)).
Proof. intros s Hs. by apply wp_bind, wp_gets, wp_ret. Qed.

(** The steps of a command that only has to return. *)
Ltac run := repeat first
  [ assumption | by apply returns_ret
  | apply returns_reg_read | apply returns_reg_write | apply returns_report
  | apply returns_scr_has | eapply returns_mono; [apply returns_failed|done]
  | eapply returns_mono; [apply returns_set_err|done] | apply returns_wait; lia
  | match goal with |- returns (gets _ ≫= _) _ => eapply returns_then; [apply returns_gets|intro]
                  | |- returns (scr_has _ ≫= _) _ => eapply returns_then; [apply returns_scr_has|intro]
                  | |- returns (failed ≫= _) _ => eapply returns_then; [apply returns_failed|intro]
                  | |- returns (_ ≫= _) anything => eapply (returns_then _ _ anything); [|intro]
                  | |- returns (match ?x with _ => _ end) _ => destruct x
                  | |- returns (when ?b _) _ => destruct b end ].

Lemma returns_status_loop mask n : returns (status_loop polls mask n) anything.
Proof. induction n as [|n IH]; cbn [status_loop]; run. Qed.
Lemma returns_int_loop m n : returns (int_loop polls m n) anything.
Proof. induction n as [|n IH]; cbn [int_loop]; run. Qed.
Lemma returns_status mask : returns (sd_status polls mask) anything.
Proof. unfold sd_status. eapply returns_then; [apply returns_status_loop|intros cnt]. run. Qed.
Definition int_result (r : Z) : Prop := r = 0 ∨ r = SD_TIMEOUT ∨ r = SD_ERROR.
Lemma returns_int mask : returns (sd_int polls mask) (λ r _, int_result r).
Proof.
  unfold sd_int. eapply returns_then; [apply returns_int_loop|intros cnt].
  eapply returns_then; [apply returns_reg_read|intros r].
  destruct (_ || _); [|destruct (bit_set r INT_ERROR_MASK)];
    (eapply returns_then; [apply returns_reg_write|intros _; apply returns_ret; intros _; unfold int_result; tauto]).
Qed.
Lemma int_error r : int_result r → r ≠ 0 → u64 r ≠ 0.
Proof. intros [->|[->| ->]] H; done. Qed.
Lemma returns_response code arg r : returns (response code arg r : D Z) anything.
Proof. unfold response. run. Qed.
Lemma returns_send_command code arg : returns (send_command polls code arg) anything.
Proof.
  unfold send_command. eapply returns_then; [apply returns_status|intros busy].
  destruct (negb _); [run|]. do 4 (eapply returns_then; [run|intro]).
  eapply (returns_then _ _ anything); [run|intros _].
  eapply returns_then; [apply returns_int|intros r]. destruct (negb _); run. apply returns_response.
Qed.
Lemma returns_execute code arg : returns (sd_execute_command polls code arg) anything.
Proof.
  unfold sd_execute_command, app_command. pose proof returns_send_command.
  eapply returns_then; [apply returns_set_err|intros _]. destruct (bit_set _ _); [|done].
  eapply returns_then; [apply returns_gets|intros rca]. eapply (returns_then _ _ anything).
  - eapply returns_then; [apply returns_gets|intros rca']. eapply returns_then; [apply returns_set_err|done].
  - intros r. destruct (_ && _); run. done.
Qed.

(** A command leaves the flags of the card alone. *)
Lemma returns_read_words n : returns (read_words n : D (list Z)) (λ b _, length b = (4 * n)%nat).
Proof.
  induction n as [|n IH]; cbn [read_words]; [by apply returns_ret|].
  eapply returns_then; [apply returns_reg_read|intros w]. eapply returns_bind; [exact IH|].
  intros b s Hs Hb. apply wp_ret. split; [done|]. rewrite length_app, le_bytes_length, Hb. lia.
Qed.
Lemma wp_write_words n buf (s : driver hw) :
  scr_ok s → (4 * n ≤ length buf)%nat → wp (write_words n buf) (λ rest s', scr_ok s' ∧ rest = drop (4 * n) buf) s.
Proof.
  revert buf s. induction n as [|n IH]; intros buf s Hs Hl; cbn [write_words]; [by apply wp_ret|].
  destruct buf as [|b0 [|b1 [|b2 [|b3 buf]]]]; try (cbn in Hl; lia). apply wp_bind, wp_reg_write.
  eapply wp_mono; [apply IH; [done|cbn in Hl; lia]|]. cbv beta. intros rest s' [? ->]. split; [done|].
  replace (4 * S n)%nat with (S (S (S (S (4 * n))))) by lia; reflexivity.
Qed.
(** [false] stops the transfer, and [sd_err] says why. *)
Abbreviation says_why := (λ (b : bool) s, b = false → sd_err s ≠ 0).
Lemma returns_failed_then : returns (error ← failed; mret (negb error) : D bool) says_why.
Proof.
  eapply returns_bind; [apply returns_failed|]. intros b s Hs ->. apply wp_ret. split; [done|].
  destruct (Z.eqb_spec (sd_err s) 0); done.
Qed.
Lemma returns_start single multi lba num : returns (start_transfer polls single multi lba num : D bool) says_why.
Proof.
  unfold start_transfer. pose proof returns_execute as Hx. eapply returns_then; [apply returns_scr_has|intros ccs]. destruct ccs.
  - eapply returns_then; [apply returns_scr_has|intros supp].
    eapply (returns_bind _ _ (λ b s, b = true → sd_err s ≠ 0)).
    { destruct (_ && _); [|by apply returns_ret]. eapply returns_then; [apply Hx|intros _].
      eapply returns_mono; [apply returns_failed|]. intros b s ->. destruct (Z.eqb_spec (sd_err s) 0); done. }
    intros stop s Hs Hstop. destruct stop; [apply wp_ret; split; [done|by intros _; apply Hstop]|].
    revert s Hs Hstop. refine (λ s Hs _, (_ : returns _ says_why) s Hs).
    eapply returns_then; [apply returns_reg_write|intros _]. eapply returns_then; [apply Hx|intros _]. apply returns_failed_then.
  - eapply returns_then; [apply returns_reg_write|intros _]. by apply returns_ret.
Qed.
Lemma returns_next_block single ready lba c message : returns (next_block polls single ready lba c message : D bool) says_why.
Proof.
  unfold next_block. pose proof returns_execute as Hx. eapply returns_then; [apply returns_scr_has|intros ccs].
  eapply (returns_bind _ _ (λ b s, b = true → sd_err s ≠ 0)).
  { destruct ccs; [by apply returns_ret|]. eapply returns_then; [apply Hx|intros _].
    eapply returns_mono; [apply returns_failed|]. intros b s ->. destruct (Z.eqb_spec (sd_err s) 0); done. }
  intros stop s Hs Hstop. destruct stop; [apply wp_ret; split; [done|by intros _; apply Hstop]|].
  refine ((_ : returns _ says_why) s Hs). clear s Hs Hstop.
  eapply returns_bind; [apply returns_int|]. intros r s Hs Hr. cbv beta in Hr.
  destruct (Z.eqb_spec r 0) as [->|Hne]; cbn [negb]; [by apply wp_ret|].
  apply wp_bind, wp_modify, wp_bind, wp_modify, wp_ret. split; [done|]. intros _. by apply int_error.
Qed.
Lemma returns_read_blocks n c lba :
  returns (read_blocks polls n c lba) (λ r s, if r.2 then length r.1 = (512 * n)%nat else sd_err s ≠ 0).
Proof.
  revert c. induction n as [|n IH]; intros c; cbn [read_blocks]; [by apply returns_ret|].
  eapply returns_bind; [apply returns_next_block|]. intros go s Hs Hgo. destruct go; [|apply wp_ret; split; [done|by apply Hgo]].
  apply wp_bind. eapply wp_mono; [exact (returns_read_words BLOCK_WORDS s Hs)|]. intros block s1 [H1 Hb].
  apply wp_bind. eapply wp_mono; [by apply IH|]. intros [rest ok] s2 [H2 Hr]. apply wp_ret. split; [done|]. cbn in *.
  destruct ok; [|done]. rewrite length_app, Hb, Hr. unfold BLOCK_WORDS. lia.
Qed.
Lemma returns_write_blocks n c lba buf :
  (512 * n ≤ length buf)%nat → returns (write_blocks polls n c lba buf) says_why.
Proof.
  revert c buf. induction n as [|n IH]; intros c buf Hl; cbn [write_blocks]; [by apply returns_ret|].
  eapply returns_bind; [apply returns_next_block|]. intros go s Hs Hgo. destruct go; [|by apply wp_ret; split; [done|intros _; apply Hgo]].
  apply wp_bind. eapply wp_mono; [apply wp_write_words; [done|unfold BLOCK_WORDS; lia]|]. intros rest s1 [H1 ->].
  apply IH; [|done]. rewrite length_drop. unfold BLOCK_WORDS. lia.
Qed.
Definition outcome_of (num r : Z) (s : driver hw) : Prop := r = if sd_err s =? 0 then num * 512 else 0.
Lemma returns_end num : 1 ≤ num < 2 ^ 22 → returns (end_transfer polls num) (outcome_of num).
Proof.
  intros Hn. unfold end_transfer. pose proof returns_execute as Hx.
  do 2 (eapply returns_then; [apply returns_scr_has|intro]). eapply (returns_then _ _ anything).
  { destruct (_ && _); [|by apply returns_ret]. eapply returns_then; [apply Hx|]. intros _. by apply returns_ret. }
  intros _ s Hs. apply wp_bind, wp_gets, wp_ret. split; [done|]. unfold outcome_of, SD_OK.
  destruct (sd_err s =? 0); cbn [negb]; [|done]. rewrite u32_small, to_int_small by lia. done.
Qed.
Lemma returns_readblock lba num :
  1 ≤ num < 2 ^ 22 →
  returns (sd_readblock polls lba num)
    (λ r s, outcome_of num r.2 s ∧ (sd_err s = 0 → length r.1 = Z.to_nat (num * 512))).
Proof.
  intros Hn. unfold sd_readblock. destruct (Z.ltb_spec num 1); [lia|].
  eapply returns_then; [apply returns_status|intros busy]. destruct (negb _).
  { eapply returns_bind; [apply returns_set_err|]. intros [] s Hs E. cbv beta in E. apply wp_ret. split; [done|]. unfold outcome_of. cbn. by rewrite E. }
  eapply returns_bind; [apply returns_start|]. intros go s Hs Hgo. destruct go; cbn [negb].
  2: { specialize (Hgo eq_refl). apply wp_ret. unfold outcome_of. cbn. destruct (Z.eqb_spec (sd_err s) 0); done. }
  apply wp_bind. eapply wp_mono; [by apply returns_read_blocks|]. intros [block ok] s1 [H1 Hb]. cbn in *.
  destruct ok; cbn [negb].
  2: { apply wp_ret. unfold outcome_of. cbn. destruct (Z.eqb_spec (sd_err s1) 0); done. }
  apply wp_bind. eapply wp_mono; [by apply returns_end|]. cbn. intros r s2 [H2 Hr]. apply wp_ret.
  split_and!; [done|done|]. intros _. rewrite Hb. lia.
Qed.
Lemma returns_writeblock buffer lba num :
  1 ≤ num < 2 ^ 22 → num * 512 ≤ Z.of_nat (length buffer) → returns (sd_writeblock polls buffer lba num) (outcome_of num).
Proof.
  intros Hn Hl. unfold sd_writeblock. destruct (Z.ltb_spec num 1); [lia|].
  eapply returns_then; [apply returns_status|intros busy]. destruct (negb _).
  { eapply returns_bind; [apply returns_set_err|]. intros [] s Hs E. cbv beta in E. apply wp_ret. split; [done|]. unfold outcome_of. by rewrite E. }
  eapply returns_bind; [apply returns_start|]. intros go s Hs Hgo. destruct go; cbn [negb].
  2: { specialize (Hgo eq_refl). apply wp_ret. unfold outcome_of. destruct (Z.eqb_spec (sd_err s) 0); done. }
  apply wp_bind. eapply wp_mono; [apply returns_write_blocks; [lia|done]|]. intros ok s1 [H1 Hb]. cbv beta in Hb.
  destruct ok; cbn [negb].
  2: { specialize (Hb eq_refl). apply wp_ret. unfold outcome_of. destruct (Z.eqb_spec (sd_err s1) 0); done. }
  apply wp_bind. eapply wp_mono; [by apply returns_int|]. intros r s2 [H2 Hr].
  destruct (Z.eqb_spec r 0) as [->|Hne]; cbn [negb].
  - by apply returns_end.
  - apply wp_bind, wp_modify, wp_bind, wp_modify, wp_ret. split; [done|]. unfold outcome_of. cbn.
    destruct (Z.eqb_spec (u64 r) 0); [by destruct (int_error r)|done].
Qed.

(** *** Start-up *)
Lemma returns_inhibit n : returns (inhibit_loop polls n) anything.
Proof. induction n as [|n IH]; cbn [inhibit_loop]; run. Qed.
Lemma returns_stable n : returns (stable_loop polls n) anything.
Proof. induction n as [|n IH]; cbn [stable_loop]; run. Qed.
Lemma returns_reset_loop n : returns (reset_loop polls n) anything.
Proof. induction n as [|n IH]; cbn [reset_loop]; run. Qed.
(** As [run], with the calls that were proved to return. *)
Ltac call := repeat (run; try match goal with
  | |- returns (inhibit_loop _ _) _ => apply returns_inhibit
  | |- returns (stable_loop _ _) _ => apply returns_stable
  | |- returns (reset_loop _ _) _ => apply returns_reset_loop
  | |- returns (sd_execute_command _ _ _) _ => apply returns_execute
  | |- returns (sd_status _ _) _ => apply returns_status
  | |- returns (sd_int _ _) _ => eapply returns_mono; [apply returns_int|done]
  end).
Lemma returns_set_clock f : returns (sd_set_clock polls f) anything.
Proof. unfold sd_set_clock. call. Qed.
Lemma returns_pins :
  returns (enable_card_detect : D unit) anything ∧ returns (enable_clock_and_command : D unit) anything ∧
  returns (enable_data_pins : D unit) anything.
Proof. unfold enable_card_detect, enable_clock_and_command, enable_data_pins, pull_up. split_and!; run. Qed.
Lemma returns_reset : returns (reset_emmc polls) anything.
Proof. unfold reset_emmc. call. Qed.
Lemma returns_op_cond n r : returns (op_cond_loop polls n r) anything.
Proof. revert r. induction n as [|n IH]; intros r; cbn [op_cond_loop]; call. apply IH. Qed.
Lemma returns_enable_card : returns (enable_card polls) anything.
Proof. unfold enable_card. eapply returns_then; [apply returns_op_cond|intros l; run]. Qed.
Lemma returns_checked (c : D Z) rest :
  returns c anything → (∀ r, returns (rest r) anything) → returns (checked c rest) anything.
Proof.
  intros Hc Hrest. unfold checked. eapply returns_then; [exact Hc|intros r].
  eapply returns_then; [apply returns_gets|intros error]. destruct (negb _); [run|apply Hrest].
Qed.
Lemma returns_modify (f : driver hw → driver hw) : (∀ s, scr_ok s → scr_ok (f s)) → returns (modify f) anything.
Proof. intros Hf s Hs. apply wp_modify. split; [by apply Hf|done]. Qed.
Lemma returns_scr_flags ccs : returns (set_scr_flags ccs : D unit) anything.
Proof.
  intros s Hs. unfold set_scr_flags. apply wp_bind, wp_gets, wp_bind, wp_defined.
  destruct (arr_get_is_Some (sd_scr s) 0) as [_ [v Hv]]; [rewrite Hs; lia|]. exists v. split; [done|].
  unfold scr_ok in Hs. destruct (sd_scr s) as [|x0 [|x1 []]] eqn:El; try discriminate Hs.
  apply wp_bind, wp_defined. eexists. split; [reflexivity|]. by apply wp_modify.
Qed.
Lemma returns_start_host : returns (start_host polls) anything.
Proof.
  unfold start_host. destruct returns_pins as (H1 & H2 & H3). pose proof returns_reset. pose proof (returns_set_clock 400000).
  run; by apply returns_modify.
Qed.

(** The card sends its SCR register: the one wait without a bound in the code. *)
Definition sends_scr (fuel : nat) : Prop := returns (scr_loop polls fuel 0) anything.
Lemma returns_init fuel : sends_scr fuel → returns (sd_init polls fuel) anything.
Proof.
  intros Hscr. unfold sends_scr in Hscr. pose proof returns_start_host. pose proof returns_enable_card.
  pose proof (returns_set_clock 25000000). pose proof returns_scr_flags.
  unfold sd_init, start_card. repeat first [apply returns_checked; [|intro] | progress call | by apply returns_modify | done].
Qed.
End returns.
