(* ===== verification/SdCard.v ===== *)
(** * The driver with a card

    The laws of the EMMC controller with a card that works ([EmmcController]), and what
    src/drivers/sd/sd.c does with it: a block read is the sector of the card, a block
    written becomes the sector. *)
From S2P Require Import Prelude.
From S2P Require Import FatNames.
From S2P Require Import Mmio.
From S2P Require Import Sd.
From S2P Require Import SdSpec.
Local Open Scope Z_scope.

(** ** The controller *)

(** A block on its way to or from the card, as bytes. *)
Inductive transfer := Sending (block : list Z) | Receiving (sector : Z).
(** No transfer; a command that was given; a transfer that is announced to the driver; the
    bytes that the data register still delivers; those it has taken; a block being stored. *)
Inductive emmc_phase :=
  | Idle
  | Commanded (t : transfer)
  | Announced (t : transfer)
  | Outgoing (rest : list Z)
  | Incoming (sector : Z) (got : list Z)
  | Storing.
(** [pending]: reads of the interrupt register before the flag of the phase shows. *)
Record controller := {
  sectors : gmap Z (list Z);
  phase : emmc_phase;
  pending : Z;
  argument : Z;
  block_size : Z
}.
Definition set_phase p c : controller := {| c with phase := p |}.
Definition set_pending n c : controller := {| c with pending := n |}.
Definition set_argument v c : controller := {| c with argument := v |}.
Definition set_block_size v c : controller := {| c with block_size := v |}.
Definition set_sectors v c : controller := {| c with sectors := v |}.

(** The interrupt flag a phase raises. *)
Definition flag_of (p : emmc_phase) : option Z :=
  match p with
  | Commanded _ => Some INT_CMD_DONE
  | Announced (Sending _) => Some INT_READ_RDY
  | Announced (Receiving _) => Some INT_WRITE_RDY
  | Storing => Some INT_DATA_DONE
  | _ => None
  end.
(** What clearing the flag leads to. *)
Definition acknowledged (p : emmc_phase) : emmc_phase :=
  match p with
  | Commanded t => Announced t
  | Announced (Sending block) => Outgoing block
  | Announced (Receiving sector) => Incoming sector []
  | _ => Idle
  end.
Definition all_errors : Z := Z.lor INT_ERROR_MASK INT_CMD_TIMEOUT.
Definition busy_mask : Z := Z.lor (Z.lor SR_CMD_INHIBIT SR_DAT_INHIBIT) SR_WRITE_AVAILABLE.
Definition one_block : Z := Z.lor (Z.shiftl 1 16) 512.

(** [c'] is in phase [p], whatever the number of reads to its flag. *)
Definition enters (p : emmc_phase) (c c' : controller) : Prop :=
  ∃ n, c' = set_pending n (set_phase p c).

Class EmmcController (hw : Type) `{!Mmio hw} := {
  emmc : hw → controller;
  (** Whether the card is addressed by sectors; otherwise it is by bytes. *)
  high_capacity : bool;
  sector_of (arg : Z) : Z := if high_capacity then arg else arg / 512;
  emmc_pending h : pending (emmc h) < INT_POLLS;
  emmc_clock h : emmc (read_register SYS_TIMER_CLOCK h).2 = emmc h;
  emmc_status h : phase (emmc h) = Idle →
    let '(v, h') := read_register EMMC_STATUS h in Z.land (u32 v) busy_mask = 0 ∧ emmc h' = emmc h;
  emmc_no_error h : phase (emmc h) = Idle →
    let '(v, h') := read_register EMMC_INTERRUPT h in Z.land (u32 v) all_errors = 0 ∧ emmc h' = emmc h;
  emmc_clear h v : phase (emmc h) = Idle → emmc (write_register EMMC_INTERRUPT v h) = emmc h;
  emmc_wait h flag : flag_of (phase (emmc h)) = Some flag → 0 < pending (emmc h) →
    let '(v, h') := read_register EMMC_INTERRUPT h in
    Z.land (u32 v) (Z.lor flag all_errors) = 0 ∧
    ∃ n, n < pending (emmc h) ∧ emmc h' = set_pending n (emmc h);
  emmc_flag h flag : flag_of (phase (emmc h)) = Some flag → pending (emmc h) ≤ 0 →
    let '(v, h') := read_register EMMC_INTERRUPT h in
    bit_set (u32 v) flag = true ∧ Z.land (u32 v) all_errors = 0 ∧ emmc h' = emmc h;
  emmc_acknowledge h flag : flag_of (phase (emmc h)) = Some flag → pending (emmc h) ≤ 0 →
    enters (acknowledged (phase (emmc h))) (emmc h) (emmc (write_register EMMC_INTERRUPT flag h));
  emmc_argument h v : phase (emmc h) = Idle → emmc (write_register EMMC_ARG1 v h) = set_argument v (emmc h);
  emmc_block_size h v : phase (emmc h) = Idle →
    emmc (write_register EMMC_BLKSIZECNT v h) = set_block_size v (emmc h);
  emmc_read h block : phase (emmc h) = Idle → block_size (emmc h) = one_block →
    sectors (emmc h) !! sector_of (argument (emmc h)) = Some block →
    enters (Commanded (Sending block)) (emmc h) (emmc (write_register EMMC_CMDTM CMD_READ_SINGLE h));
  emmc_write h block : phase (emmc h) = Idle → block_size (emmc h) = one_block →
    sectors (emmc h) !! sector_of (argument (emmc h)) = Some block →
    enters (Commanded (Receiving (sector_of (argument (emmc h))))) (emmc h)
      (emmc (write_register EMMC_CMDTM CMD_WRITE_SINGLE h));
  emmc_response h t : phase (emmc h) = Announced t → emmc (read_register EMMC_RESP0 h).2 = emmc h;
  emmc_data_out h b0 b1 b2 b3 rest : phase (emmc h) = Outgoing (b0 :: b1 :: b2 :: b3 :: rest) →
    Forall byte_range [b0; b1; b2; b3] → let '(v, h') := read_register EMMC_DATA h in
    u32 v = le_value [b0; b1; b2; b3] ∧
    emmc h' = set_phase (match rest with [] => Idle | _ => Outgoing rest end) (emmc h);
  emmc_data_in h sector got v : phase (emmc h) = Incoming sector got →
    let got' := got ++ le_bytes 4 v in
    if decide (length got' = 512%nat)
    then enters Storing (set_sectors (<[sector := got']> (sectors (emmc h))) (emmc h))
           (emmc (write_register EMMC_DATA v h))
    else emmc (write_register EMMC_DATA v h) = set_phase (Incoming sector got') (emmc h)
}.

(** ** Bits *)
Lemma land_sub v m m' : Z.land v m = 0 → Z.land m m' = m' → bit_set v m' = false.
Proof.
  intros H Hm. unfold bit_set. rewrite <- Hm, Z.land_assoc, H, Z.land_0_l. done.
Qed.
Lemma bit_set_lor v m m' : bit_set v m = true → bit_set v (Z.lor m m') = true.
Proof.
  unfold bit_set. rewrite !negb_true_iff, !Z.eqb_neq. intros H E. apply H. apply Z.bits_inj'. intros i Hi.
  apply (f_equal (λ z, Z.testbit z i)) in E. rewrite Z.land_spec, Z.lor_spec, Z.bits_0 in *.
  destruct (Z.testbit v i), (Z.testbit m i); done.
Qed.
Lemma land_lor_prefix f a b : Z.land (Z.lor f (Z.lor a b)) (Z.lor f a) = Z.lor f a.
Proof.
  apply Z.bits_inj'. intros i Hi. rewrite Z.land_spec, !Z.lor_spec.
  by destruct (Z.testbit f i), (Z.testbit a i), (Z.testbit b i).
Qed.

Section card.
Context {hw : Type} `{!Mmio hw, !SystemTimer hw, !EmmcController hw}.
Variable polls : nat.
Hypothesis Hpolls : enough_polls max_patience polls.
Abbreviation D := (M (driver hw)).
Implicit Types s : driver hw.

(** The state of the driver with the controller [c] as its device. *)
Record at_controller (c : controller) (scr : list Z) (error : Z) s : Prop := {
  ac_emmc : emmc (device s) = c;
  ac_scr : sd_scr s = scr;
  ac_err : sd_err s = error
}.
Lemma at_self s : at_controller (emmc (device s)) (sd_scr s) (sd_err s) s.
Proof. done. Qed.
Lemma at_device c scr e s h : at_controller c scr e s → emmc h = emmc (device s) → at_controller c scr e (set_device h s).
Proof. intros [? ? ?] H. split; cbn; congruence. Qed.

(** [reaches m a c scr e]: [m] returns [a] with the controller [c]. *)
Definition reaches {A} (m : D A) (a : A) (c : controller) (scr : list Z) (e : Z) s : Prop :=
  wp m (λ a' s', a' = a ∧ at_controller c scr e s') s.
Lemma reaches_bind {A B} (m : D A) (f : A → D B) a c scr e (Q : B → driver hw → Prop) s :
  reaches m a c scr e s → (∀ s', at_controller c scr e s' → wp (f a) Q s') → wp (m ≫= f) Q s.
Proof. intros H HQ. apply wp_bind. eapply wp_mono; [exact H|]. cbn. intros a' s' [-> Hs]. by apply HQ. Qed.

(** *** Polling *)
Lemma reaches_status mask c scr e s :
  at_controller c scr e s → phase c = Idle → Z.land busy_mask mask = mask → reaches (sd_status polls mask) SD_OK c scr e s.
Proof.
  intros Hs Hp Hm. unfold reaches, sd_status. apply wp_bind. destruct Hs as [<- <- <-].
  remember (Z.to_nat STATUS_POLLS) as n eqn:En.
  assert (Hn : 0 < Z.of_nat n) by (rewrite En, Z2Nat.id; by vm_compute). clear En. destruct n as [|n]; [lia|].
  cbn [status_loop]. pose proof (emmc_status (device s) Hp) as H. destruct (read_register EMMC_STATUS (device s)) as [v h'] eqn:E.
  destruct H as [Hv Eh]. apply wp_bind, wp_reg_read. rewrite E. cbn [fst snd]. rewrite (land_sub _ _ _ Hv Hm). cbn [negb].
  apply wp_ret. destruct (Z.leb_spec (Z.of_nat (S n)) 0); [lia|]. apply wp_bind, wp_reg_read. cbn [device set_device].
  rewrite <- Eh in Hp. pose proof (emmc_no_error h' Hp) as H'. destruct (read_register EMMC_INTERRUPT h') as [v' h''].
  destruct H' as [Hv' Eh']. cbn [fst snd]. rewrite (land_sub _ _ INT_ERROR_MASK Hv') by done. apply wp_ret.
  split; [done|]. split; cbn; congruence.
Qed.
Lemma reg_read_at reg v h' (Q : Z → driver hw → Prop) s :
  read_register reg (device s) = (v, h') → Q (u32 v) (set_device h' s) → wp (reg_read reg) Q s.
Proof. intros E HQ. apply wp_reg_read. by rewrite E. Qed.
Lemma wp_int_loop c scr e flag n s (Q : Z → driver hw → Prop) :
  flag_of (phase c) = Some flag → Z.max 0 (pending c) < Z.of_nat n → at_controller c scr e s →
  (∀ cnt p s', 0 < cnt → p ≤ 0 → at_controller (set_pending p c) scr e s' → Q cnt s') →
  wp (int_loop polls (Z.lor flag INT_ERROR_MASK) n) Q s.
Proof.
  revert c s. induction n as [|n IH]; intros c s Hf Hn Hs HQ; [lia|]. cbn [int_loop].
  pose proof Hs as [Hc Hscr Herr]. rewrite <- Hc in Hf, Hn.
  destruct (read_register EMMC_INTERRUPT (device s)) as [v h'] eqn:E. apply wp_bind. eapply reg_read_at; [exact E|].
  destruct (decide (0 < pending (emmc (device s)))) as [Hw|Hw].
  - pose proof (emmc_wait (device s) flag Hf Hw) as H. rewrite E in H. destruct H as (Hv & p & Hp & Eh).
    rewrite (land_sub _ _ (Z.lor flag INT_ERROR_MASK) Hv) by apply land_lor_prefix.
    apply wp_bind. eapply (wp_wait_msec polls Hpolls (λ h, emmc h = set_pending p c)); [lia| |cbn; by rewrite Eh, Hc|].
    { intros h Hh. by rewrite emmc_clock. }
    intros h Hh. apply (IH (set_pending p c)); [cbn; by rewrite Hc in Hf|cbn; lia|by split|].
    intros cnt p' s' H1 H2 H3. by apply (HQ cnt p').
  - pose proof (emmc_flag (device s) flag Hf ltac:(lia)) as H. rewrite E in H. destruct H as (Hv & He & Eh).
    rewrite bit_set_lor by done. apply wp_ret, (HQ _ (pending c)); [lia|by rewrite Hc in Hw; lia|].
    replace (set_pending (pending c) c) with c by by destruct c. split; cbn; congruence.
Qed.
(** The flag of the phase shows and is cleared. *)
Lemma wp_sd_int c scr e flag s (Q : Z → driver hw → Prop) :
  flag_of (phase c) = Some flag → at_controller c scr e s →
  (∀ c' s', enters (acknowledged (phase c)) c c' → at_controller c' scr e s' → Q 0 s') → wp (sd_int polls flag) Q s.
Proof.
  intros Hf Hs HQ. unfold sd_int. apply wp_bind. pose proof Hs as [Hc _ _].
  eapply wp_int_loop; [exact Hf| |exact Hs|].
  { rewrite Z2Nat.id by by vm_compute. pose proof (emmc_pending (device s)). rewrite Hc in *.
    assert (0 < INT_POLLS) by done. lia. }
  intros cnt p s1 Hcnt Hp [Hc1 Hscr He]. destruct (read_register EMMC_INTERRUPT (device s1)) as [v h'] eqn:E.
  apply wp_bind. eapply reg_read_at; [exact E|].
  assert (Hf1 : flag_of (phase (emmc (device s1))) = Some flag) by by rewrite Hc1.
  assert (Hp1 : pending (emmc (device s1)) ≤ 0) by by rewrite Hc1.
  pose proof (emmc_flag (device s1) flag Hf1 Hp1) as H. rewrite E in H. destruct H as (_ & Hv & Eh).
  destruct (Z.leb_spec cnt 0); [lia|]. rewrite !(land_sub _ _ _ Hv) by done. cbn [orb].
  apply wp_bind, wp_reg_write, wp_ret. rewrite <- Eh in Hf1, Hp1.
  assert (Hfl : u32 flag = flag) by (destruct (phase c) as [|?|[|]|?|? ?|]; cbn in Hf; simplify_eq; done).
  rewrite Hfl. pose proof (emmc_acknowledge h' flag Hf1 Hp1) as Ha. cbn [device set_device].
  eapply (HQ (emmc (write_register EMMC_INTERRUPT flag h'))); [|by split].
  rewrite Eh, Hc1 in Ha. destruct Ha as [k ->]. by exists k.
Qed.

(** *** A command that starts a transfer *)
Inductive starts (c : controller) (arg : Z) : Z → transfer → Prop :=
  | starts_read block : sectors c !! sector_of arg = Some block → starts c arg CMD_READ_SINGLE (Sending block)
  | starts_write block : sectors c !! sector_of arg = Some block →
      starts c arg CMD_WRITE_SINGLE (Receiving (sector_of arg)).
Lemma enters_trans p q c c' c'' : enters p c c' → enters q c' c'' → enters q c c''.
Proof. intros [n ->] [m ->]. by exists m. Qed.
Lemma enters_phase p c c' : enters p c c' → phase c' = p.
Proof. by intros [n ->]. Qed.

Lemma emmc_command h code arg t c :
  emmc h = set_argument arg c → phase c = Idle → block_size c = one_block → starts c arg code t →
  enters (Commanded t) (set_argument arg c) (emmc (write_register EMMC_CMDTM code h)).
Proof.
  intros E Hp Hb Hst. rewrite <- E. destruct Hst as [block Hs|block Hs].
  - apply emmc_read; by rewrite E.
  - replace (sector_of arg) with (sector_of (argument (emmc h))) by by rewrite E.
    eapply emmc_write; by rewrite E.
Qed.
Lemma wp_command code arg t c scr e (Q : Z → driver hw → Prop) s :
  at_controller c scr e s → phase c = Idle → block_size c = one_block → 0 ≤ arg < 2 ^ 32 → starts c arg code t →
  (∀ r c' s', enters (Announced t) (set_argument arg c) c' → at_controller c' scr 0 s' → Q r s') →
  wp (sd_execute_command polls code arg) Q s.
Proof.
  intros [Hc Hscr He] Hp Hb Ha Hst HQ. unfold sd_execute_command. apply wp_bind, wp_modify.
  assert (Hcode : bit_set code CMD_NEED_APP = false ∧ u32 code = code ∧ code ≠ CMD_SEND_OP_COND ∧
    (code =? CMD_SEND_IF_COND) || (code =? CMD_APP_CMD) = false ∧
    ∀ r, response code arg r = (mret (to_int (Z.land r CMD_ERRORS_MASK)) : D Z)) by by destruct Hst.
  destruct Hcode as (-> & Eu & Hop & Hif & Hresp). unfold send_command.
  eapply reaches_bind; [apply (reaches_status _ c scr 0); [by split|done|done]|]. intros s1 [Hc1 Hscr1 He1].
  change (negb (SD_OK =? 0)) with false. cbv iota.
  destruct (read_register EMMC_INTERRUPT (device s1)) as [v h'] eqn:E. apply wp_bind. eapply reg_read_at; [exact E|].
  assert (Hp1 : phase (emmc (device s1)) = Idle) by by rewrite Hc1.
  pose proof (emmc_no_error (device s1) Hp1) as H. rewrite E in H. destruct H as [_ Eh].
  assert (Hh : phase (emmc h') = Idle) by by rewrite Eh. apply wp_bind, wp_reg_write. cbn [device set_device].
  pose proof (emmc_clear h' (u32 (u32 v)) Hh) as Ecl. set (h1 := write_register EMMC_INTERRUPT (u32 (u32 v)) h') in *.
  apply wp_bind, wp_reg_write. cbn [device set_device]. rewrite u32_small by done.
  assert (Hh1 : phase (emmc h1) = Idle) by by rewrite Ecl.
  pose proof (emmc_argument h1 arg Hh1) as Ear. set (h2 := write_register EMMC_ARG1 arg h1) in *.
  rewrite Ecl, Eh, Hc1 in Ear. apply wp_bind, wp_reg_write. cbn [device set_device]. rewrite Eu.
  pose proof (emmc_command h2 code arg t c Ear Hp Hb Hst) as Hcmd. set (h3 := write_register EMMC_CMDTM code h2) in *.
  apply wp_bind. destruct (Z.eqb_spec code CMD_SEND_OP_COND); [done|]. rewrite Hif. apply wp_ret.
  apply wp_bind. eapply (wp_sd_int (emmc h3) scr 0); [by rewrite (enters_phase _ _ _ Hcmd)|by split|].
  intros c4 s4 H4 [Hc4 Hscr4 He4]. rewrite (enters_phase _ _ _ Hcmd) in H4. cbn [acknowledged] in H4.
  pose proof (enters_trans _ _ _ _ _ Hcmd H4) as H4'. change (negb (0 =? 0)) with false. cbv iota.
  destruct (read_register EMMC_RESP0 (device s4)) as [r h5] eqn:E5. apply wp_bind. eapply reg_read_at; [exact E5|].
  rewrite Hresp. apply wp_ret. eapply HQ; [exact H4'|].
  pose proof (emmc_response (device s4) t) as H5. rewrite E5, Hc4 in H5. cbn in H5.
  split; cbn; [|done|done]. rewrite H5; [done|by apply (enters_phase _ _ _ H4)].
Qed.

(** *** The words of a block *)
Lemma le_bytes_word b0 b1 b2 b3 :
  Forall byte_range [b0; b1; b2; b3] → le_bytes 4 (le_value [b0; b1; b2; b3]) = [b0; b1; b2; b3].
Proof.
  intros H. repeat (apply Forall_cons in H as [? H]). unfold byte_range in *. cbn [le_bytes le_value].
  repeat f_equal; Z.div_mod_to_equations; lia.
Qed.
Lemma wp_read_words n rest c scr e (Q : list Z → driver hw → Prop) s :
  at_controller c scr e s → phase c = Outgoing rest → length rest = (4 * S n)%nat → Forall byte_range rest →
  (∀ s', at_controller (set_phase Idle c) scr e s' → Q rest s') → wp (read_words (S n)) Q s.
Proof.
  revert rest c s Q. induction n as [|n IH]; intros rest c s Q [Hc Hscr He] Hp Hl Hr HQ;
    (destruct rest as [|b0 [|b1 [|b2 [|b3 rest]]]]; try (cbn in Hl; lia));
    change (b0 :: b1 :: b2 :: b3 :: rest) with ([b0; b1; b2; b3] ++ rest) in Hr; apply Forall_app in Hr as [Hb Hr];
    (destruct (read_register EMMC_DATA (device s)) as [v h'] eqn:E); rewrite <- Hc in Hp;
    pose proof (emmc_data_out (device s) b0 b1 b2 b3 rest Hp Hb) as H; rewrite E in H; destruct H as [Hv Eh];
    cbn [read_words]; apply wp_bind; (eapply reg_read_at; [exact E|]); rewrite Hv, le_bytes_word by done.
  - destruct rest; [|cbn in Hl; lia]. apply wp_bind, wp_ret, wp_ret, HQ. split; cbn; congruence.
  - destruct rest as [|b rest]; [cbn in Hl; lia|]. apply wp_bind.
    apply (IH (b :: rest) (set_phase (Outgoing (b :: rest)) c)); [split; cbn; congruence|done|cbn in *; lia|done|].
    intros s' Hs'. apply wp_ret, HQ. exact Hs'.
Qed.
Lemma wp_write_words_in n buf got sector c scr e (Q : list Z → driver hw → Prop) s :
  at_controller c scr e s → phase c = Incoming sector got → (length got + 4 * S n = 512)%nat →
  (4 * S n ≤ length buf)%nat → Forall byte_range buf →
  (∀ c' s', enters Storing (set_sectors (<[sector := got ++ take (4 * S n) buf]> (sectors c)) c) c' →
     at_controller c' scr e s' → Q (drop (4 * S n) buf) s') →
  wp (write_words (S n) buf) Q s.
Proof.
  revert buf got c s Q. induction n as [|n IH]; intros buf got c s Q [Hc Hscr He] Hp Hg Hl Hr HQ;
    (destruct buf as [|b0 [|b1 [|b2 [|b3 buf]]]]; try (cbn in Hl; lia));
    change (b0 :: b1 :: b2 :: b3 :: buf) with ([b0; b1; b2; b3] ++ buf) in Hr; apply Forall_app in Hr as [Hb Hr];
    cbn [write_words]; apply wp_bind, wp_reg_write; rewrite <- Hc in Hp;
    pose proof (emmc_data_in (device s) sector got (u32 (le_value [b0; b1; b2; b3])) Hp) as H;
    rewrite u32_small in H |- * by (repeat (apply Forall_cons in Hb as [? Hb]); unfold byte_range in *; cbn; lia);
    cbv zeta in H; rewrite le_bytes_word in H by done; set (h' := write_register EMMC_DATA _ _) in *.
  - rewrite decide_True in H by (rewrite length_app; cbn; lia). rewrite Hc in H. apply wp_ret. eapply HQ; [exact H|by split].
  - rewrite decide_False in H by (rewrite length_app; cbn; lia). rewrite Hc in H.
    apply (IH buf (got ++ [b0; b1; b2; b3]) (set_phase (Incoming sector (got ++ [b0; b1; b2; b3])) c));
      [by split|done|rewrite length_app; cbn; lia|cbn in *; lia|done|].
    intros c' s' H1 H2. replace (4 * S (S n))%nat with (4 + 4 * S n)%nat in HQ by lia. eapply HQ; [|exact H2].
    destruct H1 as [k ->]. exists k. cbn -[take drop Nat.mul]. unfold set_pending, set_phase, set_sectors. cbn -[take Nat.mul].
    by rewrite <- app_assoc.
Qed.

(** *** One block *)

(** The sectors of a card. *)
Definition card_ok (d : gmap Z (list Z)) : Prop := ∀ sector b, d !! sector = Some b →
  length b = 512%nat ∧ Forall byte_range b ∧ 0 ≤ sector < (if high_capacity then 2 ^ 32 else 2 ^ 23).
(** The driver between two transfers, with the card contents [d]. *)
Record ready (d : gmap Z (list Z)) (s : driver hw) : Prop := {
  rd_idle : phase (emmc (device s)) = Idle;
  rd_sectors : sectors (emmc (device s)) = d;
  rd_card : card_ok d;
  rd_scr : ∃ v, arr_get (sd_scr s) 0 = Some v ∧ bit_set v SCR_SUPP_CCS = high_capacity
}.
Lemma card_ok_insert d lba old block :
  card_ok d → d !! lba = Some old → length block = 512%nat → Forall byte_range block → card_ok (<[lba := block]> d).
Proof.
  intros Hd Ho Hl Hb sector b. rewrite lookup_insert_Some. intros [[<- <-]|[_ H]]; [|by apply Hd].
  destruct (Hd _ _ Ho) as (_ & _ & Hr). split; [done|]. split; [done|exact Hr].
Qed.
Lemma wp_scr_has flag v (Q : bool → driver hw → Prop) s :
  arr_get (sd_scr s) 0 = Some v → Q (bit_set v flag) s → wp (scr_has flag) Q s.
Proof. intros Hv HQ. apply wp_bind, wp_gets, wp_bind, wp_defined. exists v. by split. Qed.
Lemma wp_failed (Q : bool → driver hw → Prop) s : Q (negb (sd_err s =? 0)) s → wp failed Q s.
Proof. done. Qed.

(** Transfers of one block between the driver and a sector that exists. *)
Inductive direction (c : controller) (lba : Z) : Z → Z → Z → transfer → Prop :=
  | reading block : sectors c !! lba = Some block →
      direction c lba CMD_READ_SINGLE CMD_READ_MULTI INT_READ_RDY (Sending block)
  | writing block : sectors c !! lba = Some block →
      direction c lba CMD_WRITE_SINGLE CMD_WRITE_MULTI INT_WRITE_RDY (Receiving lba).
Lemma direction_range c d lba single multi flag t :
  direction c lba single multi flag t → sectors c = d → card_ok d → 0 ≤ lba < (if high_capacity then 2 ^ 32 else 2 ^ 23).
Proof. intros H Hs Hd. destruct H as [b Hb|b Hb]; rewrite Hs in Hb; by destruct (Hd _ _ Hb) as (_ & _ & ?). Qed.
Lemma direction_starts c lba single multi flag t c' arg :
  direction c lba single multi flag t → sectors c' = sectors c → sector_of arg = lba → starts c' arg single t.
Proof. intros [b Hb|b Hb] Hs <-; econstructor; by rewrite Hs. Qed.
Lemma direction_flag c lba single multi flag t : direction c lba single multi flag t → flag_of (Announced t) = Some flag.
Proof. by intros []. Qed.

Lemma wp_start_block c d lba single multi flag t message (Q : bool → driver hw → Prop) (f : bool → D bool) s :
  ready d s → emmc (device s) = c → direction c lba single multi flag t →
  (∀ c' s', phase c' = acknowledged (Announced t) → sectors c' = d → at_controller c' (sd_scr s) 0 s' → Q true s') →
  (∀ go, f go = if go : bool then next_block polls single flag lba 0 message else mret false) →
  wp (start_transfer polls single multi lba 1 ≫= f) Q s.
Proof.
  intros [Hidle Hsec Hcard (v & Hv & Hcap)] Hc Hd HQ Hf. rewrite Hc in Hidle, Hsec.
  pose proof (direction_range c d lba single multi flag t Hd Hsec Hcard) as Hlba.
  pose proof (direction_flag _ _ _ _ _ _ Hd) as Hflag.
  assert (Hend : ∀ c1 s1, phase c1 = Announced t → sectors c1 = d → at_controller c1 (sd_scr s) 0 s1 →
    wp (r ← sd_int polls flag;
        if negb (r =? 0) then report message;; set_err r;; mret false else mret true) Q s1).
  { intros c1 s1 Hp1 Hs1 H1. apply wp_bind. eapply (wp_sd_int c1); [by rewrite Hp1|exact H1|].
    intros c2 s2 [k ->] H2. apply wp_ret. apply (HQ (set_pending k (set_phase (acknowledged (phase c1)) c1))); [cbn; by rewrite Hp1|exact Hs1|exact H2]. }
  unfold start_transfer. apply wp_bind, wp_bind. eapply wp_scr_has; [exact Hv|].
  rewrite Hcap. destruct high_capacity eqn:Ecap.
  - apply wp_bind. eapply wp_scr_has; [exact Hv|]. change (1 <? 1) with false. cbn [andb]. apply wp_bind, wp_ret.
    change (Z.lor (Z.shiftl 1 16) 512) with one_block. apply wp_bind, wp_reg_write. change (u32 one_block) with one_block.
    pose proof (emmc_block_size (device s) one_block ltac:(by rewrite Hc)) as Eb. rewrite Hc in Eb.
    change (1 =? 1) with true. cbv iota. apply wp_bind.
    eapply (wp_command single lba t (set_block_size one_block c) (sd_scr s) (sd_err s)); [by split|done|done|lia| |].
    { eapply direction_starts; [exact Hd|done|]. unfold sector_of. by rewrite Ecap. }
    intros r c1 s1 H1 Ha1. apply wp_bind, wp_failed. rewrite (ac_err _ _ _ _ Ha1). apply wp_ret. rewrite Hf. cbn [negb Z.eqb].
    apply wp_bind. eapply wp_scr_has; [by rewrite (ac_scr _ _ _ _ Ha1)|]. rewrite Hcap. cbv iota. apply wp_bind, wp_ret.
    destruct H1 as [k ->]. by eapply Hend; [| |exact Ha1].
  - apply wp_bind, wp_reg_write. change (u32 (Z.lor (Z.shiftl 1 16) 512)) with one_block. apply wp_ret.
    pose proof (emmc_block_size (device s) one_block ltac:(by rewrite Hc)) as Eb. rewrite Hc in Eb. rewrite Hf.
    apply wp_bind. eapply wp_scr_has; [exact Hv|]. rewrite Hcap. cbv iota. apply wp_bind, wp_bind.
    rewrite Z.add_0_r, u32_small by lia.
    eapply (wp_command single (lba * 512) t (set_block_size one_block c) (sd_scr s) (sd_err s)); [by split|done|done|lia| |].
    { eapply direction_starts; [exact Hd|done|]. unfold sector_of. rewrite Ecap. apply Z.div_mul. lia. }
    intros r c1 s1 H1 Ha1. apply wp_failed. rewrite (ac_err _ _ _ _ Ha1). cbn [negb Z.eqb].
    destruct H1 as [k ->]. by eapply Hend; [| |exact Ha1].
Qed.
(** The same in two steps, as the transfers take them. *)
Lemma wp_start d lba single multi flag t message (Q : bool → driver hw → Prop) s :
  ready d s → direction (emmc (device s)) lba single multi flag t →
  (∀ s1, wp (next_block polls single flag lba 0 message) (λ go s', go = true ∧ ∃ c,
     phase c = acknowledged (Announced t) ∧ sectors c = d ∧ at_controller c (sd_scr s) 0 s') s1 → Q true s1) →
  wp (start_transfer polls single multi lba 1) Q s.
Proof.
  intros Hr Hd HQ.
  assert (W : wp (start_transfer polls single multi lba 1 ≫= λ go : bool,
      if go then next_block polls single flag lba 0 message else mret false)
    (λ go s', go = true ∧ ∃ c, phase c = acknowledged (Announced t) ∧ sectors c = d ∧ at_controller c (sd_scr s) 0 s') s).
  { eapply wp_start_block; [exact Hr|done|exact Hd| |done]. intros c' s' H1 H2 H3. split; [done|]. by exists c'. }
  apply wp_bind in W. eapply wp_mono; [exact W|]. intros [] s1 H1; [by apply HQ|]. by destruct H1.
Qed.
Lemma wp_end_one v (Q : Z → driver hw → Prop) s :
  arr_get (sd_scr s) 0 = Some v → sd_err s = 0 → Q 512 s → wp (end_transfer polls 1) Q s.
Proof.
  intros Hv He HQ. unfold end_transfer. apply wp_bind. eapply wp_scr_has; [exact Hv|]. apply wp_bind.
  eapply wp_scr_has; [exact Hv|]. change (1 <? 1) with false. cbn [andb]. apply wp_bind, wp_ret, wp_bind, wp_gets, wp_ret.
  rewrite He. exact HQ.
Qed.
Lemma ready_again c d scr e s0 s :
  ready d s0 → scr = sd_scr s0 → phase c = Idle → sectors c = d → at_controller c scr e s → ready d s.
Proof. intros [_ _ Hd Hv] -> Hp Hs [Hc Hscr _]. split; [by rewrite Hc|by rewrite Hc|done|by rewrite Hscr]. Qed.

Lemma wp_sd_readblock d lba block (Q : list Z * Z → driver hw → Prop) s :
  ready d s → d !! lba = Some block → (∀ s', ready d s' → Q (block, 512) s') → wp (sd_readblock polls lba 1) Q s.
Proof.
  intros Hr Hb HQ. pose proof Hr as [Hidle Hsec Hcard (v & Hv & Hcap)].
  destruct (Hcard lba block Hb) as (Hlen & Hbytes & _).
  unfold sd_readblock. change (1 <? 1) with false. cbv iota zeta.
  eapply reaches_bind; [apply (reaches_status _ _ _ _ s (at_self s)); done|]. intros s1 [Hc1 Hscr1 _].
  change (negb (SD_OK =? 0)) with false. cbv iota.
  assert (Hr1 : ready d s1) by (split; [by rewrite Hc1|by rewrite Hc1|done|rewrite Hscr1; eauto]).
  apply wp_bind. eapply (wp_start d lba _ _ INT_READ_RDY (Sending block) read_timeout); [exact Hr1|constructor; by rewrite Hc1, Hsec|].
  intros s2 H2. cbn [negb]. change (Z.to_nat 1) with 1%nat. apply wp_bind. cbn [read_blocks]. apply wp_bind.
  eapply wp_mono; [exact H2|]. intros go s3 (-> & c & Hp & Hs & Hat). cbv iota. apply (proj2 (wp_bind _ _ _ _)).
  unfold BLOCK_WORDS. eapply (wp_read_words 127 block); [exact Hat|exact Hp|rewrite Hlen; reflexivity|exact Hbytes|].
  intros s4 Hat4. apply wp_bind, wp_ret, wp_ret. cbn [fst snd negb]. rewrite app_nil_r. apply wp_bind.
  pose proof Hat4 as [_ Hscr4 He4]. eapply wp_end_one; [rewrite Hscr4, Hscr1; exact Hv|exact He4|]. apply wp_ret, HQ.
  eapply (ready_again _ _ _ _ s1); [exact Hr1|reflexivity| | |exact Hat4]; done.
Qed.
Lemma wp_sd_writeblock d lba old block (Q : Z → driver hw → Prop) s :
  ready d s → d !! lba = Some old → length block = 512%nat → Forall byte_range block →
  (∀ s', ready (<[lba := block]> d) s' → Q 512 s') → wp (sd_writeblock polls block lba 1) Q s.
Proof.
  intros Hr Hb Hlen Hbytes HQ. pose proof Hr as [Hidle Hsec Hcard (v & Hv & Hcap)].
  unfold sd_writeblock. change (1 <? 1) with false. cbv iota zeta.
  eapply reaches_bind; [apply (reaches_status _ _ _ _ s (at_self s)); done|]. intros s1 [Hc1 Hscr1 _].
  change (negb (SD_OK =? 0)) with false. cbv iota.
  assert (Hr1 : ready d s1) by (split; [by rewrite Hc1|by rewrite Hc1|done|rewrite Hscr1; eauto]).
  apply wp_bind. eapply (wp_start d lba _ _ INT_WRITE_RDY (Receiving lba) write_timeout);
    [exact Hr1|by econstructor; rewrite Hc1, Hsec|].
  intros s2 H2. cbn [negb]. change (Z.to_nat 1) with 1%nat. apply wp_bind. cbn [write_blocks]. apply wp_bind.
  eapply wp_mono; [exact H2|]. intros go s3 (-> & c & Hp & Hs & Hat). cbv iota. apply (proj2 (wp_bind _ _ _ _)).
  unfold BLOCK_WORDS. eapply (wp_write_words_in 127 block [] lba); [exact Hat|exact Hp|reflexivity|rewrite Hlen; reflexivity|exact Hbytes|].
  intros c4 s4 H4 Hat4. apply wp_ret. cbn [negb]. apply wp_bind.
  eapply (wp_sd_int c4); [by rewrite (enters_phase _ _ _ H4)|exact Hat4|]. intros c5 s5 H5 Hat5.
  change (negb (0 =? 0)) with false. cbv iota.
  pose proof Hat5 as [_ Hscr5 He5]. eapply wp_end_one; [rewrite Hscr5, Hscr1; exact Hv|exact He5|]. apply HQ.
  rewrite (enters_phase _ _ _ H4) in H5. destruct H4 as [k ->]. destruct H5 as [k' ->].
  split; [by rewrite (ac_emmc _ _ _ _ Hat5)| |by eapply card_ok_insert|rewrite Hscr5, Hscr1; eauto].
  rewrite (ac_emmc _ _ _ _ Hat5). cbn -[take]. rewrite Hs. f_equal. apply take_ge. rewrite Hlen. reflexivity.
Qed.
End card.
