(* ===== verification/Board.v ===== *)
(** * The board

    The kernel together with all its devices: the interrupt machine of [Irq], the globals
    of the SD card driver, those of the FAT32 library and the message buffer of the
    mailbox.  The operations of each are lifted to it.  src/drivers/mbox/mbox.c: the
    mailbox property channel to the VideoCore. *)
From S2P Require Import Prelude.
From S2P Require Import Process.
From S2P Require Import Mm.
From S2P Require Import FatMount.
From S2P Require Import Mmio.
From S2P Require Import Irq.
From S2P Require Import Sd.
Local Open Scope Z_scope.

(** The driver's own globals, without the device it is plugged in. *)
Record board (hw : Type) := { b_machine : machine hw; b_mbox : list Z; b_driver : driver unit; b_lib : library }.
Arguments b_machine {hw}.
Arguments b_mbox {hw}.
Arguments b_driver {hw}.
Arguments b_lib {hw}.

Section board.
Context {hw : Type} `{!Mmio hw}.
Abbreviation B := (M (board hw)).
Implicit Types b : board hw.

Definition set_machine m b : board hw := {| b with b_machine := m |}.
Definition set_mbox l b : board hw := {| b with b_mbox := l |}.
Definition set_driver d b : board hw := {| b with b_driver := d |}.
Definition set_lib l b : board hw := {| b with b_lib := l |}.
Definition on_machine {A} (c : M (machine hw) A) : B A := λ b,
  match c (b_machine b) with
  | Done a m => Done a (set_machine m b)
  | Undefined => Undefined
  | Fuel => Fuel
  end.
Definition on_kernel {A} (c : K A) : B A := on_machine (in_kernel c).
Definition on_lib {A} (c : L A) : B A := λ b,
  match c (b_lib b) with
  | Done a l => Done a (set_lib l b)
  | Undefined => Undefined
  | Fuel => Fuel
  end.
(** The driver on the devices of the machine; what it prints goes to the UART. *)
Definition plug {hw hw'} (h : hw') (out : list Z) (d : driver hw) : driver hw' :=
  {| Sd.device := h; sd_scr := sd_scr d; sd_rca := sd_rca d; sd_err := sd_err d; sd_hv := sd_hv d; sd_out := out |}.
Definition on_driver {A} (c : M (driver hw) A) : B A := λ b,
  match c (plug (devices (b_machine b)) [] (b_driver b)) with
  | Done a d =>
      on_kernel (uart_put_bytes (sd_out d);; mret a)
        (set_driver (plug tt [] d) (set_machine (set_devices (Sd.device d) (b_machine b)) b))
  | Undefined => Undefined
  | Fuel => Fuel
  end.

(** ** The mailbox *)
Definition MBOX_BASE : Z := 0xB880.
Definition MBOX_READ : Z := MBOX_BASE + 0x00.
Definition MBOX_STATUS : Z := MBOX_BASE + 0x18.
Definition MBOX_WRITE : Z := MBOX_BASE + 0x20.
Definition MBOX_REQUEST : Z := 0.
Definition MBOX_RESPONSE : Z := 0x80000000.
Definition MBOX_FULL : Z := 0x80000000.
Definition MBOX_EMPTY : Z := 0x40000000.
Definition MBOX_MAIL_CHANNEL_MASK : Z := 0xF.
Definition MBOX_CH_PROP : Z := 8.
Definition MBOX_TAG_LAST : Z := 0.
Definition MBOX_TAG_SETCLKRATE : Z := 0x38002.

(** The address the kernel has for the buffer [mbox], and what the VideoCore makes of a
    message in it. *)
Variable mbox_address : Z.
Variable answer : list Z → list Z.

(** The two loops of [mbox_call], which have no bound in the code. *)
Fixpoint wait_not_full (fuel : nat) : B unit :=
  match fuel with
  | O => out_of_fuel
  | S fuel' =>
      status ← on_machine (mmio_read MBOX_STATUS);
      if bit_set status MBOX_FULL then wait_not_full fuel' else mret tt
  end.
Fixpoint wait_response (fuel : nat) (r : Z) : B unit :=
  match fuel with
  | O => out_of_fuel
  | S fuel' =>
      status ← on_machine (mmio_read MBOX_STATUS);
      if bit_set status MBOX_EMPTY then wait_response fuel' r else
      v ← on_machine (mmio_read MBOX_READ);
      if v =? r then mret tt else wait_response fuel' r
  end.
Definition mbox_message (channel : Z) : Z :=
  Z.lor (Z.land (u64 (mbox_address - VA_START)) (Z.lnot MBOX_MAIL_CHANNEL_MASK)) (Z.land channel MBOX_MAIL_CHANNEL_MASK).
Definition mbox_call (fuel : nat) (channel : Z) : B bool :=
  let r := mbox_message channel in
  wait_not_full fuel;;
  on_machine (mmio_write MBOX_WRITE r);;
  wait_response fuel r;;
  modify (λ b, set_mbox (answer (b_mbox b)) b);;
  l ← gets b_mbox;
  v ← defined (arr_get l 1);
  mret (v =? MBOX_RESPONSE).
(** [mbox[0] = ..; mbox[1] = ..;] *)
Definition fill_mbox (message : list Z) : B unit :=
  l ← gets b_mbox;
  if decide (length message ≤ length l)%nat
  then modify (set_mbox ((u32 <$> message) ++ drop (length message) l))
  else undefined.
End board.
