(* ===== verification/Framebuffer.v ===== *)
(** * The framebuffer

    src/drivers/framebuffer/framebuffer.c: asking the VideoCore for a screen, and drawing
    text in it with the font that is linked to the kernel.  The screen is the pixels of 32
    bits by their addresses; the font is its header and its bytes. *)
From S2P Require Import Prelude.
From S2P Require Import Process.
From S2P Require Import CString.
From S2P Require Import Mmio.
From S2P Require Import Board.
Local Open Scope Z_scope.

Definition WIDTH : Z := 1024.
Definition HEIGHT : Z := 768.
Definition DEPTH : Z := 32.
Definition MBOX_TAG_ALLOCFB : Z := 0x40001.
Definition MBOX_TAG_GETPITCH : Z := 0x40008.
Definition MBOX_TAG_SETPHYWH : Z := 0x48003.
Definition MBOX_TAG_SETVIRTWH : Z := 0x48004.
Definition MBOX_TAG_SETDEPTH : Z := 0x48005.
Definition MBOX_TAG_SETPIXLORDR : Z := 0x48006.
Definition MBOX_TAG_SETVIRTOFST : Z := 0x48009.

(** [framebuffer_address], [width], [height], [pitch] and [isrgb] *)
Record screen := { fb_address : Z; fb_width : Z; fb_height : Z; fb_pitch : Z; fb_isrgb : Z }.

(** ** Asking for a screen *)
Definition screen_message : list Z :=
  [35 * 4; MBOX_REQUEST;
   MBOX_TAG_SETPHYWH; 8; 8; WIDTH; HEIGHT;
   MBOX_TAG_SETVIRTWH; 8; 8; WIDTH; HEIGHT;
   MBOX_TAG_SETVIRTOFST; 8; 8; 0; 0;
   MBOX_TAG_SETDEPTH; 4; 4; DEPTH;
   MBOX_TAG_SETPIXLORDR; 4; 4; 1;
   MBOX_TAG_ALLOCFB; 8; 8; 4096; 0;
   MBOX_TAG_GETPITCH; 4; 4; 0;
   MBOX_TAG_LAST].
Section init.
Context {hw : Type} `{!Mmio hw}.
Abbreviation B := (M (board hw)).
Variable mbox_address : Z.
Variable answer : list Z → list Z.
Definition mbox_word (i : Z) : B Z := l ← gets b_mbox; defined (arr_get l i).
(** The globals are passed in and out. *)
Definition framebuffer_init (fuel : nat) (s : screen) : B (bool * screen) :=
  fill_mbox screen_message;;
  called ← mbox_call mbox_address answer fuel MBOX_CH_PROP;
  depth ← mbox_word 20;
  address ← mbox_word 28;
  if called && (depth =? DEPTH) && negb (address =? 0) then
    width ← mbox_word 5;
    height ← mbox_word 6;
    pitch ← mbox_word 33;
    isrgb ← mbox_word 24;
    mret (true, {| fb_address := Z.land address 0x3FFFFFFF; fb_width := width; fb_height := height;
                   fb_pitch := pitch; fb_isrgb := isrgb |})
  else mret (false, s).
End init.

(** ** Text *)
Definition LINE_FEED : Z := 10.
Definition CARRIAGE_RETURN : Z := 13.
(** The fields of the header that are used, and the byte at an offset from it. *)
Record psf_t := {
  headersize : Z; numglyph : Z; bytesperglyph : Z; font_height : Z; font_width : Z;
  font_byte : Z → Z
}.
Abbreviation pixels := (gmap Z Z).

Section print.
Variable font : psf_t.
Variable address : Z.
Variable pitch : Z.

(** [for (i = 0; i < font->width; i++)]: [n] columns left of a row whose bits are [glyph]. *)
Fixpoint draw_row (n : nat) (glyph line mask : Z) (p : pixels) : pixels :=
  match n with
  | O => p
  | S n' =>
      draw_row n' glyph (line + 4) (Z.shiftr mask 1)
        (<[address + line := if Z.land glyph mask =? 0 then 0 else 0xFFFFFF]> p)
  end.
(** [for (j = 0; j < font->height; j++)]: [glyph] is the offset of the row in the font. *)
Fixpoint draw_rows (n : nat) (glyph offs : Z) (p : pixels) : pixels :=
  match n with
  | O => p
  | S n' =>
      let bytesperline := (font_width font + 7) / 8 in
      let mask := to_int (Z.shiftl 1 (font_width font - 1)) in
      draw_rows n' (glyph + bytesperline) (to_int (offs + pitch))
        (draw_row (Z.to_nat (font_width font)) (font_byte font glyph) offs mask p)
  end.
Definition glyph_of (c : Z) : Z :=
  headersize font + (if c <? numglyph font then c else 0) * bytesperglyph font.
Fixpoint framebuffer_print (x y : Z) (s : list Z) (p : pixels) : option pixels :=
  match s with
  | [] => None
  | c :: s' =>
      if c =? NUL then Some p else
      let glyph := glyph_of c in
      let offs := to_int (y * pitch + x * 4) in
      if c =? CARRIAGE_RETURN then framebuffer_print 0 y s' p
      else if c =? LINE_FEED then framebuffer_print 0 (y + font_height font) s' p
      else framebuffer_print (x + (font_width font + 1)) y s'
             (draw_rows (Z.to_nat (font_height font)) glyph offs p)
  end.
End print.
