(* ===== verification/Filesystem.v ===== *)
(** * The file system of the kernel

    src/libs/filesystem.c: mounting the SD card at start-up and the calls on paths
    relative to the mount point.  The volume [g_fat] is at the address [g_fat], the
    [complete_path] array of a call holds [stack] before it is written. *)
From S2P Require Import Prelude.
From S2P Require Import CString.
From S2P Require Import FatNames.
From S2P Require Import FatTable.
From S2P Require Import FatFile.
From S2P Require Import FatMount.
From S2P Require Import FatDir.
From S2P Require Import FatCalls.
Local Open Scope Z_scope.
Local Open Scope fat_scope.

Definition FAT_MAX_PATH_SIZE : Z := 128.
Definition SD_OK : Z := 0.
Definition SD_FILESYSTEM_INIT_OK : Z := 0.
Definition SD_FILESYSTEM_INIT_ERROR : Z := 1.

Definition FAT_ERR_NONE : Z := 0.
(** The [int] a call returns. *)
Definition error_code (r : res unit) : Z := match r with Ok _ => FAT_ERR_NONE | Err e => e end.

(** ["mnt\0"] with the terminator of the literal, and ["/mnt/"]. *)
Definition mount_name : list Z := [109; 110; 116; NUL; NUL].
Definition mount_prefix : list Z := [47; 109; 110; 116; 47; NUL].

Section filesystem.
Variable g_fat : Z.
Variable stack : list Z.

(** [sd_result]: what [sd_init()] returned. *)
Definition sd_filesystem_init (sd_result : Z) : L Z :=
  if negb (sd_result =? SD_OK) then mret SD_FILESYSTEM_INIT_ERROR else
  probe_error ← fat_probe 0;
  if negb (error_code probe_error =? 0) then mret SD_FILESYSTEM_INIT_ERROR else
  mount_error ← fat_mount 0 g_fat mount_name;
  mret (if negb (error_code mount_error =? 0) then SD_FILESYSTEM_INIT_ERROR else SD_FILESYSTEM_INIT_OK).

(** [complete_path], [None] when the two strings do not fit. *)
Definition complete_path {St} (path : list Z) : M St (option (list Z)) :=
  prefix ← defined (strcpy stack mount_prefix);
  n ← defined (strlen prefix);
  m ← defined (strlen path);
  if FAT_MAX_PATH_SIZE <=? n + m then mret None else
  complete ← defined (strcat prefix path);
  mret (Some complete).

(** The [Dir] or [File] of the caller is passed in and out, with its volume. *)
Definition create_dir (dir_path : list Z) (d_fat : option Z) (created_dir : Dir) : L (option Z * Dir * Z) :=
  path ← complete_path dir_path;
  match path with
  | None => mret (d_fat, created_dir, -1)
  | Some complete =>
      '(d_fat, dir, r) ← fat_dir_create d_fat created_dir complete;
      mret (d_fat, dir, error_code r)
  end.
Definition open_dir (dir_path : list Z) (d_fat : option Z) (dir : Dir) : L (option Z * Dir * Z) :=
  path ← complete_path dir_path;
  match path with
  | None => mret (d_fat, dir, -1)
  | Some complete =>
      '(d_fat, dir, r) ← fat_dir_open d_fat dir complete;
      mret (d_fat, dir, error_code r)
  end.
Definition open_file (file_path : list Z) (flags : Z) (f_fat : option Z) (file : File) : L (option Z * File * Z) :=
  path ← complete_path file_path;
  match path with
  | None => mret (f_fat, file, -1)
  | Some complete =>
      '(f_fat, file, r) ← fat_file_open file complete flags;
      mret (f_fat, file, error_code r)
  end.
End filesystem.
