(* ===== verification/Kernel.v ===== *)
(** * The kernel's start

    src/kernel/kernel.c and [uart_init] of src/drivers/uart/uart.c: the initialisation from
    the first instruction of [kernel_main] to its idle loop, on the whole [board], and the
    first kernel process.  Interrupts that arrive meanwhile are steps of their own; what
    [irq_vector_init] does, setting the base of the vectors, is not part of the state. *)
From stdpp Require Import strings.
From S2P Require Import Prelude.
From S2P Require Import Process.
From S2P Require Import Scheduler.
From S2P Require Import Mm.
From S2P Require Import Mmio.
From S2P Require Import Irq.
From S2P Require Import Fork.
From S2P Require Import Filesystem.
From S2P Require Import Sd.
From S2P Require Import Board.
Local Open Scope Z_scope.

(** ** The UART *)
Definition UART0_BASE : Z := 0x201000.
Definition UART0_DR : Z := UART0_BASE + 0x00.
Definition UART0_FR : Z := UART0_BASE + 0x18.
Definition UART0_IBRD : Z := UART0_BASE + 0x24.
Definition UART0_FBRD : Z := UART0_BASE + 0x28.
Definition UART0_LCRH : Z := UART0_BASE + 0x2C.
Definition UART0_CR : Z := UART0_BASE + 0x30.
Definition UART0_IMSC : Z := UART0_BASE + 0x38.
Definition UART0_ICR : Z := UART0_BASE + 0x44.
(** The macros of src/arch/mmio.h *)
Definition GPPUD_REGISTER : Z := MMIO_BASE + 0x00200094.
Definition GPPUDCLK0_REGISTER : Z := MMIO_BASE + 0x00200098.
(** [(1 << i) | (1 << j) | ..] *)
Definition bits (l : list Z) : Z := foldr (λ i v, Z.lor (Z.shiftl 1 i) v) 0 l.

Section kernel.
Context {hw : Type} `{!Mmio hw}.
Abbreviation B := (M (board hw)).
Variable alg : SchedAlgorithm.
Variables init_process_address ret_from_fork mbox_address : Z.
Variable answer : list Z → list Z.
(** Bounds on the waits for devices: reads of the timer in one [wait_msec], rounds of the
    loop for the SCR register, reads of the mailbox. *)
Variable polls : nat.
Variables scr_fuel mbox_fuel : nat.

(** [*reg] *)
Definition register (reg : Z) : B Z := on_machine (λ m,
  let r := read_register reg (devices m) in Done (u32 r.1) (set_devices r.2 m)).
(** The value of the register, not its offset, is where [mmio_write] writes to. *)
Definition write_at (reg v : Z) : B unit := offset ← register reg; on_machine (mmio_write offset v).
Definition clock_message : list Z :=
  [9 * 4; MBOX_REQUEST; MBOX_TAG_SETCLKRATE; 12; 8; 2; 30000000; 0; MBOX_TAG_LAST].
Definition uart_init : B unit :=
  on_machine (mmio_write UART0_CR 0);;
  write_at GPPUD_REGISTER 0;;
  write_at GPPUDCLK0_REGISTER (bits [14; 15]);;
  write_at GPPUDCLK0_REGISTER 0;;
  on_machine (mmio_write UART0_ICR 0x7FF);;
  fill_mbox clock_message;;
  _ ← mbox_call mbox_address answer mbox_fuel MBOX_CH_PROP;
  on_machine (mmio_write UART0_IBRD 1);;
  on_machine (mmio_write UART0_FBRD 40);;
  on_machine (mmio_write UART0_LCRH (bits [4; 5; 6]));;
  on_machine (mmio_write UART0_IMSC (bits [1; 4; 5; 6; 7; 8; 9; 10]));;
  on_machine (mmio_write UART0_CR (bits [0; 8; 9])).

(** The wait has no bound in the code. *)
Fixpoint uart_getc (fuel : nat) : B Z :=
  match fuel with
  | O => out_of_fuel
  | S fuel' =>
      flags ← on_machine (mmio_read UART0_FR);
      if bit_set flags (Z.shiftl 1 4) then uart_getc fuel' else
      v ← on_machine (mmio_read UART0_DR);
      mret (v mod 256)
  end.

(** ** [kernel_main] *)
Definition puts (text : string) : B unit := on_kernel (uart_put_bytes (bytes_of_string text ++ [10])).
Definition enable_irq : B unit := on_kernel (modify (set_irq_enabled true)).
(** [sd_filesystem_init], with its call of [sd_init]. *)
Definition start_filesystem (g_fat : Z) : B Z :=
  sd_result ← on_driver (sd_init polls scr_fuel);
  on_lib (sd_filesystem_init g_fat sd_result).
(** Up to [while (1) {}]. *)
Definition kernel_main (g_fat kernel_process : Z) : B unit :=
  uart_init;;
  puts "demoOS v.0.0.1";;
  puts "[DONE] irq vector init";;
  on_machine enable_interrupt_controller;;
  puts "[DONE] enable interrupt controller";;
  enable_irq;;
  puts "[DONE] enable irq";;
  fs_ok ← start_filesystem g_fat;
  puts (if fs_ok =? SD_FILESYSTEM_INIT_OK then "[DONE] SD filesystem init success"
        else "[ERROR] SD filesystem init error");;
  res ← on_kernel (copy_process alg init_process_address ret_from_fork PF_KTHREAD kernel_process 0);
  (if res <? 0 then puts "[ERROR] Cannot create kernel process." else mret tt);;
  on_machine timer_init;;
  puts "[DONE] timer init".

(** ** The first process *)
Definition kernel_process (user_begin user_end init_process_main : Z) : K unit :=
  uart_put_bytes (bytes_of_string "[DEBUG] Kernel process started." ++ [10]);;
  let size := user_end - user_begin in
  let pc := init_process_main - user_begin in
  error ← move_to_user_mode init_process_address user_begin size pc;
  if error <? 0
  then uart_put_bytes (bytes_of_string "[ERROR] Cannot move process from kernel mode to user mode" ++ [10])
  else mret tt.
End kernel.
