(* ===== verification/FileCalls.v ===== *)
(** * System calls on files

    The handlers of src/libs/syscalls.c that open, read, write and close the files of
    the current process.  They join the kernel with the FAT library; the structures they
    allocate, [FatResource], [File] and [Dir], each in a kernel page of its own, are
    [objects].  A page that holds one structure is not accessed as another: that is
    undefined.  The pointers of the caller are the bytes behind them. *)
From S2P Require Import Prelude.
From S2P Require Import Process.
From S2P Require Import Mm.
From S2P Require Import CString.
From S2P Require Import Syscalls.
From S2P Require Import FatNames.
From S2P Require Import FatTable.
From S2P Require Import FatFile.
From S2P Require Import FatMount.
From S2P Require Import FatDir.
From S2P Require Import FatCalls.
From S2P Require Import Filesystem.
Local Open Scope Z_scope.
Local Open Scope fat_scope.

(** ** State *)

Definition RESOURCE_TYPE_FILE : Z := 0.
Definition RESOURCE_TYPE_FOLDER : Z := 1.
(** [resource]: the pointer of the union, [None] for NULL. *)
Record FatResource := { resource_type : Z; resource : option Z }.
(** [fat]: the field of the structure that points to the volume. *)
Inductive object :=
  | ZeroPage
  | AResource (r : FatResource)
  | AFile (fat : option Z) (f : File)
  | ADir (fat : option Z) (d : Dir).
Record world := { kern : kernel; lib : library; objects : gmap Z object }.
Definition set_kern k w : world := {| w with kern := k |}.
Definition set_lib l w : world := {| w with lib := l |}.
Definition set_objects o w : world := {| w with objects := o |}.

Abbreviation W := (M world).
Definition on_kernel {A} (c : K A) : W A := λ w,
  match c (kern w) with
  | Done a k => Done a (set_kern k w)
  | Undefined => Undefined
  | Fuel => Fuel
  end.
Definition on_library {A} (c : L A) : W A := λ w,
  match c (lib w) with
  | Done a l => Done a (set_lib l w)
  | Undefined => Undefined
  | Fuel => Fuel
  end.

(** *** Structures in pages *)
Definition zero_file : File :=
  {| f_open := false; f_dir_sect := 0; f_sclust := 0; f_clust := 0; f_sect := 0; f_size := 0; f_offset := 0;
     f_dir_idx := 0; f_attr := 0; f_flags := 0; f_buf := replicate 512 0 |}.
Definition as_file (o : object) : option (option Z * File) :=
  match o with ZeroPage => Some (None, zero_file) | AFile fat f => Some (fat, f) | _ => None end.
Definition as_dir (o : object) : option (option Z * Dir) :=
  match o with ZeroPage => Some (None, no_dir) | ADir fat d => Some (fat, d) | _ => None end.
Definition as_resource (o : object) : option FatResource :=
  match o with
  | ZeroPage => Some {| resource_type := 0; resource := None |}
  | AResource r => Some r
  | _ => None
  end.
(** The structure at [address], which a page holds as what [view] says. *)
Definition load_object {A} (view : object → option A) (address : Z) : W A := λ w,
  match objects w !! address ≫= view with Some a => Done a w | None => Undefined end.
Definition store_object (address : Z) (o : object) : W unit :=
  modify (λ w, set_objects (<[address := o]> (objects w)) w).

(** [allocate_kernel_page()] for a structure. *)
Definition new_object : W Z :=
  address ← on_kernel allocate_kernel_page;
  when (negb (address =? 0)) (store_object address ZeroPage);;
  mret address.
Definition free_object (address : Z) : W unit :=
  r ← on_kernel (free_page address);
  when (r =? 0) (modify (λ w, set_objects (delete address (objects w)) w)).

(** *** The table of open files *)
Definition set_files v pcb : PCB := {| pcb with files := v |}.
(** [current_process->files[file_descriptor]] *)
Definition get_resource (file_descriptor : Z) : W (option Z) :=
  pcb ← on_kernel load_current;
  defined (arr_get (files pcb) file_descriptor).
Definition set_resource (file_descriptor address : Z) : W unit :=
  pcb ← on_kernel load_current;
  l ← defined (arr_set (files pcb) file_descriptor (if address =? 0 then None else Some address));
  on_kernel (update_current (set_files l)).
(** [current_process->files[file_descriptor]] becomes a new [FatResource], whose fields are
    assigned. *)
Definition bind_resource (file_descriptor type : Z) (structure : option Z) : W unit :=
  address ← new_object;
  set_resource file_descriptor address;;
  _ ← load_object as_resource address;
  store_object address (AResource {| resource_type := type; resource := structure |}).
(** [current_process->files[file_descriptor]->f] *)
Definition resource_of (file_descriptor : Z) : W (option Z) :=
  address ← get_resource file_descriptor;
  address ← defined address;
  r ← load_object as_resource address;
  mret (resource r).

Definition free_descriptor : W Z :=
  on_kernel (current ← gets current_process; get_first_free_file_descriptor current).

(** ** Opening *)
Section calls.
Variable g_fat : Z.
Variable stack : list Z.

Definition with_dir (address : Z) (c : option Z → Dir → L (option Z * Dir * Z)) : W Z :=
  d ← load_object as_dir address;
  '(fat, dir, error) ← on_library (c d.1 d.2);
  store_object address (ADir fat dir);;
  mret error.
(** The structure at a page that was not allocated is NULL. *)
Definition syscall_create_dir (dir_path : list Z) : W Z :=
  file_descriptor ← free_descriptor;
  if file_descriptor =? -1 then mret (-1) else
  created_dir ← new_object;
  error ← with_dir created_dir (create_dir stack dir_path);
  if negb (error =? 0) then free_object created_dir;; mret error else
  bind_resource file_descriptor RESOURCE_TYPE_FOLDER (Some created_dir);;
  mret file_descriptor.
Definition syscall_open_dir (dir_path : list Z) : W Z :=
  file_descriptor ← free_descriptor;
  if file_descriptor =? -1 then mret (-1) else
  dir ← new_object;
  error ← with_dir dir (open_dir stack dir_path);
  if negb (error =? 0) then free_object dir;; mret (-1) else
  bind_resource file_descriptor RESOURCE_TYPE_FOLDER (Some dir);;
  mret file_descriptor.
Definition syscall_open_file (file_path : list Z) (flags : Z) : W Z :=
  file_descriptor ← free_descriptor;
  if file_descriptor =? -1 then mret (-1) else
  file ← new_object;
  f ← load_object as_file file;
  '(fat, f, error) ← on_library (open_file stack file_path flags f.1 f.2);
  store_object file (AFile fat f);;
  if negb (error =? 0) then free_object file;; mret (-1) else
  bind_resource file_descriptor RESOURCE_TYPE_FILE (Some file);;
  mret file_descriptor.

(** ** Open files *)

(** A call on the [File] at [address], which is NULL for [None]. *)
Definition with_file {A} (address : option Z) (c : M session A) (closed : A) : W A :=
  address ← defined address;
  '(fat, f) ← load_object as_file address;
  match fat with
  | None => mret closed
  | Some p =>
      r ← on_library (on_file p f c);
      store_object address (AFile fat r.1);;
      mret r.2
  end.
Definition syscall_close_file (file_descriptor : Z) : W Z :=
  if (file_descriptor <? 0) || (MAX_FILES_PER_PROCESS <=? file_descriptor) then mret (-1) else
  file ← resource_of file_descriptor;
  error ← with_file file fat_file_close (Err FAT_ERR_PARAM);
  if negb (error_code error =? 0) then mret (error_code error) else
  address ← defined file;
  free_object address;;
  bind_resource file_descriptor 0 None;;
  mret 0.
(** [buffer]: the [len] bytes of the caller.  The first result is what is stored in
    [*bytes], if anything is. *)
Definition syscall_write_file (file_descriptor : Z) (buffer : list Z) : W (option Z * Z) :=
  address ← get_resource file_descriptor;
  match address with
  | None => mret (None, -1)
  | Some _ =>
      file ← resource_of file_descriptor;
      r ← with_file file (fat_file_write buffer) (0, Err FAT_ERR_PARAM);
      mret (Some r.1, error_code r.2)
  end.
(** The bytes read, as many as [*bytes] says. *)
Definition syscall_read_file (file_descriptor len : Z) : W (list Z * Z) :=
  file ← resource_of file_descriptor;
  _ ← with_file file (fat_file_seek 0 FAT_SEEK_START) (Err FAT_ERR_PARAM);
  r ← with_file file (fat_file_read len) ([], Err FAT_ERR_PARAM);
  mret (r.1, error_code r.2).

(** The structure of the caller: the call leaves [size], and the name is not terminated. *)
Record FatEntryInfo := { e_size : Z; e_name : list Z; e_is_dir : Z }.
Definition FAT_MAX_NAME_SIZE : Z := 64.
(** [for (i = 0; i < size; i++) entry_info->name[i] = dir_info.name[i];] *)
Definition copy_name (name : list Z) (old : list Z) : option (list Z) :=
  if decide (length name ≤ length old)%nat then Some (set_bytes 0 name old) else None.
Definition syscall_get_next_entry (file_descriptor : Z) (entry_info : FatEntryInfo) : W (FatEntryInfo * Z) :=
  dir ← resource_of file_descriptor;
  match dir with
  | None => mret (entry_info, -1)
  | Some address =>
      '(fat, d) ← load_object as_dir address;
      r ← on_library (fat_dir_read fat d);
      store_object address (ADir fat r.1);;
      match r.2 with
      | Err _ => mret (entry_info, -1)
      | Ok dir_info =>
          let size := Z.min (i_name_len dir_info) 255 in
          name ← defined (copy_name (take (Z.to_nat size) (i_name dir_info)) (e_name entry_info));
          let entry_info := {| e_size := e_size entry_info; e_name := name;
                               e_is_dir := if has_flag (i_attr dir_info) FAT_ATTR_DIR then 1 else 0 |} in
          '(fat, d) ← load_object as_dir address;
          r ← on_library (fat_dir_next fat d);
          store_object address (ADir fat r.1);;
          mret (entry_info, match r.2 with Err _ => -1 | Ok _ => 0 end)
      end
  end.
End calls.
