(* ===== verification/UserCalls.v ===== *)
(** * The system calls of user programs

    src/common/user_syscalls.h: the calls a program can make are an interface with a state
    of its own ([UserCalls]), against which the programs are written. *)
From S2P Require Import Prelude.
From S2P Require Import FatCalls.
From S2P Require Import FileCalls.
Local Open Scope Z_scope.

(** A buffer is the bytes from the pointer to the end of the object; a call that fills one
    returns it. *)
Class UserCalls (St : Type) := {
  call_syscall_write : list Z → M St unit;
  call_syscall_write_hex : Z → M St unit;
  call_syscall_input : list Z → Z → M St (list Z);
  call_syscall_create_dir : list Z → M St Z;
  call_syscall_open_dir : list Z → M St Z;
  call_syscall_open_file : list Z → Z → M St Z;
  call_syscall_close_file : Z → M St Z;
  call_syscall_write_file : Z → list Z → Z → M St Z;
  call_syscall_read_file : Z → list Z → Z → M St (list Z * Z);
  call_syscall_get_next_entry : Z → FatEntryInfo → M St (FatEntryInfo * Z);
  call_syscall_fork : M St Z;
  call_syscall_exec : list Z → list (list Z) → M St Z;
  call_syscall_wait : Z → M St Z;
  call_syscall_exit : M St unit;
  call_syscall_set_sched_param : Z → Z → Z → M St Z;
  call_syscall_get_time : M St Z;
  call_syscall_malloc : M St Z;
  call_syscall_yield : M St unit;
  call_syscall_get_pid : M St Z;
  call_syscall_send_message : Z → list Z → M St Z;
  call_syscall_receive_message : list Z → M St (list Z);
  call_syscall_send_signal : Z → Z → M St Z
}.
