(* ===== verification/Exec.v ===== *)
(** * Executing a program

    [syscall_exec] of src/libs/syscalls.c: the code of a file replaces the memory of the
    current process, with the arguments at the top of its new stack. *)
From S2P Require Import Prelude.
From S2P Require Import Process.
From S2P Require Import Mm.
From S2P Require Import Paging.
From S2P Require Import Fork.
From S2P Require Import CString.
From S2P Require Import FatFile.
From S2P Require Import FileCalls.
Local Open Scope Z_scope.

Definition SYSCALL_EXEC_ARGUMENT_DIMENSION : Z := 64.
(** [PAGE_SIZE * 16] bytes may be read, code takes at most 15 pages. *)
Definition EXEC_READ : Z := PAGE_SIZE * 16.
Definition EXEC_MAX_CODE : Z := PAGE_SIZE * 15.

(** The bytes that a read puts behind [address]. *)
Fixpoint put_bytes (address : Z) (bytes : list Z) (w : gmap Z Z) : gmap Z Z :=
  match bytes with
  | [] => w
  | b :: bytes' => put_bytes (address + 1) bytes' (set_byte address b w)
  end.
(** The buffer is one page; NULL when none is left. *)
Definition fill_page (buffer : Z) (bytes : list Z) : K unit :=
  match bytes with
  | [] => mret tt
  | _ =>
      if (buffer =? 0) || (PAGE_SIZE <? Z.of_nat (length bytes)) then undefined
      else change_words (put_bytes buffer bytes)
  end.

(** [for (i = 0; i < n_arguments; i++) strcpy(safe_arguments[i], arguments[i]);] with the
    rows zeroed before.  A row of [arguments] goes on to its end. *)
Fixpoint save_arguments (n : nat) (arguments : list (list Z)) : option (list (list Z)) :=
  match n with
  | O => Some []
  | S n' =>
      match arguments with
      | [] => None
      | argument :: arguments' =>
          safe ← strcpy (replicate (Z.to_nat SYSCALL_EXEC_ARGUMENT_DIMENSION) 0) argument;
          rest ← save_arguments n' arguments';
          Some (safe :: rest)
      end
  end.

(** [for (i = 0; i < n_user_pages; i++)]: [n] pages left. *)
Definition forget_page (i : Z) (pcb : PCB) : option PCB :=
  let m := mm pcb in
  pages ← arr_set (user_pages m) i {| physical_address := 0; virtual_address := 0 |};
  Some (set_mm {| m with n_user_pages := n_user_pages m - 1; user_pages := pages |} pcb).
Fixpoint free_user_pages (n : nat) (i : Z) : K unit :=
  match n with
  | O => mret tt
  | S n' =>
      pcb ← load_current;
      page ← defined (arr_get (user_pages (mm pcb)) i);
      _ ← free_page (physical_address page + VA_START);
      pcb ← load_current;
      pcb' ← defined (forget_page i pcb);
      update_current (λ _, pcb');;
      free_user_pages n' (i + 1)
  end.

(** [strcpy((char* )stack_pointer, safe_arguments[i]);] *)
Fixpoint user_strcpy (address : Z) (src : list Z) : K unit :=
  match src with
  | [] => undefined
  | c :: src' =>
      user_store address c;;
      if c =? NUL then mret tt else user_strcpy (address + 1) src'
  end.
(** The arguments from [i] on, with the saved registers of the process. *)
Fixpoint push_arguments (i stack_pointer : Z) (safe_arguments : list (list Z)) (trap_frame : list Z) :
    K (Z * list Z) :=
  match safe_arguments with
  | [] => mret (stack_pointer, trap_frame)
  | argument :: safe_arguments' =>
      let stack_pointer := stack_pointer - SYSCALL_EXEC_ARGUMENT_DIMENSION in
      user_strcpy stack_pointer argument;;
      trap_frame ← defined (arr_set trap_frame (i + 1) stack_pointer);
      push_arguments (i + 1) stack_pointer safe_arguments' trap_frame
  end.

(** [trap_frame]: the registers saved at the entry, 31 general ones, [sp], [pc] and the
    state, which the call changes.  A negative number of arguments makes the size of
    [safe_arguments] negative. *)
Definition TRAP_SP : Z := 31.
Definition TRAP_PC : Z := 32.
Definition exec_image (buffer read_bytes : Z) (safe_arguments : list (list Z)) (n_arguments : Z)
    (trap_frame : list Z) : K (list Z) :=
  pcb ← load_current;
  free_user_pages (Z.to_nat (n_user_pages (mm pcb))) 0;;
  current ← gets current_process;
  copy_code current buffer read_bytes;;
  trap_frame ← defined (arr_set trap_frame 0 (u64 n_arguments));
  '(stack_pointer, trap_frame) ← push_arguments 0 (16 * PAGE_SIZE) safe_arguments trap_frame;
  update_current (λ pcb, set_cpu_context {| (cpu_context pcb) with pc := 0; sp := stack_pointer |} pcb);;
  trap_frame ← defined (arr_set trap_frame TRAP_SP stack_pointer);
  defined (arr_set trap_frame TRAP_PC 0).

Section exec.
Variable stack : list Z.

Definition syscall_exec (path trap_frame : list Z) (n_arguments : Z) (arguments : list (list Z)) :
    W (list Z * Z) :=
  fd ← syscall_open_file stack path FAT_READ;
  if fd =? -1 then mret (trap_frame, -1) else
  buffer ← on_kernel allocate_kernel_page;
  '(code, _) ← syscall_read_file fd EXEC_READ;
  on_kernel (fill_page buffer code);;
  _ ← syscall_close_file fd;
  let read_bytes := Z.of_nat (length code) in
  if EXEC_MAX_CODE <? read_bytes then mret (trap_frame, -1) else
  if n_arguments <? 0 then undefined else
  safe_arguments ← defined (save_arguments (Z.to_nat n_arguments) arguments);
  trap_frame ← on_kernel (exec_image buffer read_bytes safe_arguments n_arguments trap_frame);
  mret (trap_frame, 0).
End exec.
