(* ===== verification/ExecMem.v ===== *)
(** * The memory of a program that is executed

    What [exec_image], the part of [syscall_exec] behind the reading of the file, does to
    the current process: its pages are given back, the code is loaded and the arguments
    are put at the top of the new stack. *)
From S2P Require Import Prelude.
From S2P Require Import Process.
From S2P Require Import Mm.
From S2P Require Import Paging.
From S2P Require Import Fork.
From S2P Require Import UserMem.
From S2P Require Import CString.
From S2P Require Import Exec.
Local Open Scope Z_scope.

(** ** Giving the pages back *)

(** The tables alone, without the pages they map. *)
Definition tables_only (t : tree) : tree := filter (λ e, (length e.1 ≤ 3)%nat) t.
Lemma tables_only_lookup t x a : tables_only t !! x = Some a ↔ t !! x = Some a ∧ (length x ≤ 3)%nat.
Proof. apply map_lookup_filter_Some. Qed.
Lemma tables_only_low t x : (length x ≤ 3)%nat → tables_only t !! x = t !! x.
Proof.
  intros Hl. apply option_eq. intros a. rewrite tables_only_lookup. tauto.
Qed.
Lemma tables_only_ok m t : tables_ok m t → tables_ok m (tables_only t).
Proof.
  intros [H1 H2 H3 H4 H5 H6]. split; try done.
  - intros x a [Ha _]%tables_only_lookup. eauto.
  - intros x y a [Ha _]%tables_only_lookup [Hb _]%tables_only_lookup. eauto.
  - intros x i a [Ha Hl]%tables_only_lookup. destruct (H4 _ _ _ Ha) as (? & ? & ?). by rewrite tables_only_low.
  - intros x a i [Ha _]%tables_only_lookup Hl Hi. rewrite tables_only_low by (rewrite length_app; cbn; lia). auto.
  - intros x a i b [Ha _]%tables_only_lookup Hl [_ Hx]%tables_only_lookup. rewrite length_app in Hx. cbn in Hx. lia.
Qed.
Lemma tables_only_space m pcb t : space_ok m pcb t → space_ok m pcb (tables_only t).
Proof. intros [Hm Hr Hk Hu]. split; [by apply tables_only_ok| |done|done]. by rewrite tables_only_low by (cbn; lia). Qed.
Lemma tables_only_table t i : is_table (tables_only t) i ↔ is_table t i.
Proof.
  split; intros (x & Hl & Hx); exists x; (split; [done|]); [by apply tables_only_lookup in Hx as []|by apply tables_only_lookup].
Qed.
Lemma tables_only_missing t va : missing (tables_only t) va = missing t va.
Proof. unfold missing, need. by rewrite !tables_only_low by (cbn; lia). Qed.

Lemma without_page_words c m y : ¬ in_page c y → word_at (words (without_page c m)) y = word_at (words m) y.
Proof. intros Hy. cbn [words without_page]. by rewrite zero_page_spec, decide_False by tauto. Qed.
Lemma without_page_tables c m t :
  tables_ok m t → (∀ x a, t !! x = Some a → (length x ≤ 3)%nat) → ¬ is_table t c → tables_ok (without_page c m) t.
Proof.
  intros Hm Hlow Hc. destruct Hm as [H1 H2 H3 H4 H5 H6]. split; try done.
  - intros i Hi. apply H1. cbn in Hi. set_solver.
  - intros x a Ha. destruct (H2 _ _ Ha) as (i & -> & Hi). exists i. split; [done|]. cbn.
    assert (i ≠ c); [|set_solver]. intros ->. apply Hc. exists x. split; [by eapply Hlow|done].
  - intros x a i Ha Hl Hi. rewrite without_page_words; [auto|]. intros Hin. destruct (H2 _ _ Ha) as (k & -> & _).
    rewrite <- (in_page_disjoint _ _ _ (slot_in_page k i Hi) Hin) in Hc. apply Hc. exists x. split; [by eapply Hlow|done].
  - intros x a i b Ha Hl Hb. pose proof (Hlow _ _ Hb) as Hx. rewrite length_app in Hx. cbn in Hx. lia.
Qed.

(** The user pages of a process: none of them is a table. *)
Definition own_pages (pcb : PCB) (t : tree) : Prop :=
  ∀ i, 0 ≤ i < n_user_pages (mm pcb) → ∃ c va,
    user_pages (mm pcb) !! Z.to_nat i = Some {| physical_address := page_address c; Process.virtual_address := va |} ∧
    0 ≤ c < N_PAGES ∧ ¬ is_table t c.
(** An address in none of them. *)
Definition apart (pcb : PCB) (y : Z) : Prop :=
  ∀ i c va, 0 ≤ i < n_user_pages (mm pcb) →
    user_pages (mm pcb) !! Z.to_nat i = Some {| physical_address := page_address c; Process.virtual_address := va |} →
    ¬ in_page c y.

Section free.
Variables (p : pcb_ptr) (k : kernel).
Hypothesis Hcurrent : current_process k = p.

Lemma wp_load_current_put pcb m (Q : PCB → kernel → Prop) :
  Q pcb (put p pcb m k) → wp load_current Q (put p pcb m k).
Proof.
  intros HQ. unfold load_current. apply wp_bind, wp_gets.
  change (current_process (put p pcb m k)) with (current_process k). rewrite Hcurrent. by apply wp_load_put.
Qed.
Lemma wp_update_current_put f pcb m (Q : unit → kernel → Prop) :
  Q tt (put p (f pcb) m k) → wp (update_current f) Q (put p pcb m k).
Proof.
  intros HQ. unfold update_current. apply wp_bind, wp_gets.
  change (current_process (put p pcb m k)) with (current_process k). rewrite Hcurrent. by apply wp_update_put.
Qed.

(** The PCB after [i] of its pages have been given back, and the memory then. *)
Record pages_freed (i : Z) (m0 : memory) (pcb0 : PCB) (t : tree) (m : memory) (pcb : PCB) : Prop := {
  fr_tables : tables_ok m t;
  fr_pcb : ∃ us, pcb = set_mm {| (mm pcb0) with n_user_pages := n_user_pages (mm pcb0) - i; user_pages := us |} pcb0 ∧
    length us = length (user_pages (mm pcb0)) ∧
    ∀ j, i ≤ j < n_user_pages (mm pcb0) → us !! Z.to_nat j = user_pages (mm pcb0) !! Z.to_nat j;
  fr_pages : memory_pages m ⊆ memory_pages m0;
  fr_stable : ∀ y, apart pcb0 y → stable m0 t y → stable m t y ∧ word_at (words m) y = word_at (words m0) y
}.

Lemma wp_free_user_pages n i m0 pcb0 t m pcb (Q : unit → kernel → Prop) :
  0 ≤ i → i + Z.of_nat n = n_user_pages (mm pcb0) → (∀ x a, t !! x = Some a → (length x ≤ 3)%nat) →
  own_pages pcb0 t → pages_freed i m0 pcb0 t m pcb →
  (∀ m' pcb', pages_freed (n_user_pages (mm pcb0)) m0 pcb0 t m' pcb' → Q tt (put p pcb' m' k)) →
  wp (free_user_pages n i) Q (put p pcb m k).
Proof.
  intros Hi Hn Hlow Hown. revert i m pcb Hi Hn.
  induction n as [|n IH]; intros i m pcb Hi Hn [Hm (us & -> & Hlen & Hus) Hsub Hst] HQ; cbn [free_user_pages].
  { apply wp_ret, HQ. assert (i = n_user_pages (mm pcb0)) as -> by lia. split; try done. by exists us. }
  destruct (Hown i ltac:(lia)) as (c & va & Hc & Hr & Hnt).
  apply wp_bind, wp_load_current_put, wp_bind, wp_defined. eexists.
  split; [rewrite arr_get_lookup by lia; cbn; rewrite Hus by lia; exact Hc|]. cbn [physical_address].
  apply wp_bind, wp_free_page; [done|]. cbn [mem put set_mem].
  change (set_mem (without_page c m) (put p _ m k)) with (put p (set_mm {| (mm pcb0) with
    n_user_pages := n_user_pages (mm pcb0) - i; user_pages := us |} pcb0) (without_page c m) k).
  apply wp_bind, wp_load_current_put. apply wp_bind, wp_defined. unfold forget_page. cbn [mm set_mm user_pages].
  assert (Hb : (Z.to_nat i < length us)%nat).
  { rewrite Hlen. apply lookup_lt_is_Some. rewrite Hc. eauto. }
  rewrite arr_set_in by lia. cbn [mbind option_bind]. eexists. split; [reflexivity|].
  apply wp_bind, wp_update_current_put. apply IH; [lia|lia| |done]. split.
  - by apply without_page_tables.
  - rewrite Z.sub_add_distr. eexists. split; [reflexivity|]. split; [by rewrite length_insert|].
    intros j Hj. rewrite list_lookup_insert_ne by lia. apply Hus. lia.
  - cbn. set_solver.
  - intros y Hy Hs. destruct (Hst y Hy Hs) as [H1 H2]. pose proof (Hy i c va ltac:(lia) Hc) as Hnc. split.
    + intros l Hl Hin. destruct (H1 l Hl Hin) as [? ?]. split; [|done]. cbn.
      assert (l ≠ c); [|set_solver]. by intros ->.
    + by rewrite without_page_words.
Qed.
End free.

(** ** Arguments *)

(** The bytes a program sees in its 16 pages. *)
Definition sees (m : memory) (pcb : PCB) (f : Z → Z) : Prop :=
  ∀ va, 0 ≤ va < USER_SIZE → space_byte m pcb va = Some (f va).
(** [bytes] in the place of what [f] has from [va] on. *)
Definition over (va : Z) (bytes : list Z) (f : Z → Z) (x : Z) : Z :=
  if decide (va ≤ x < va + Z.of_nat (length bytes)) then nth (Z.to_nat (x - va)) bytes 0 else f x.

Lemma sees_ext m pcb f g : (∀ x, 0 ≤ x < USER_SIZE → f x = g x) → sees m pcb f → sees m pcb g.
Proof. intros H Hf va Hva. rewrite Hf, H; done. Qed.
Lemma over_cons va b bytes f x : over (va + 1) bytes (over va [b] f) x = over va (b :: bytes) f x.
Proof.
  unfold over. cbn [length]. destruct (decide (x = va)) as [->|Hne].
  - rewrite decide_False by lia. rewrite !decide_True by lia. by rewrite Z.sub_diag.
  - destruct (decide (va + 1 ≤ x < va + 1 + Z.of_nat (length bytes))).
    + rewrite decide_True by lia. by replace (Z.to_nat (x - va)) with (S (Z.to_nat (x - (va + 1)))) by lia.
    + by rewrite !decide_False by lia.
Qed.

Section store.
Variables (p : pcb_ptr) (k : kernel).

Lemma wp_user_store va v f m pcb t (Q : unit → kernel → Prop) :
  pgd (mm pcb) ≠ 0 → ttbr0_el1 k = pgd (mm pcb) → space_ok m pcb t → user_mapped t → sees m pcb f →
  0 ≤ va < USER_SIZE →
  (∀ m', memory_pages m' = memory_pages m → space_ok m' pcb t → sees m' pcb (over va [u8 v] f) → Q tt (put p pcb m' k)) →
  wp (user_store va v) Q (put p pcb m k).
Proof.
  intros H0 Hb Hs Hmap Hsee Hva HQ. pose proof Hs as [Hm Hroot _ _].
  destruct (Z.eqb_spec (pgd (mm pcb)) 0) as [|_]; [done|].
  assert (Htr : ∀ w m' x, 0 ≤ x < USER_SIZE → tables_ok m' t → w = words m' → ∃ c, t !! path_of x = Some (page_address c) ∧
    translate w (pgd (mm pcb)) x = Some (page_address c + x mod PAGE_SIZE)).
  { intros w m' x Hx Hm' ->. destruct (Hmap x Hx) as [c Hc]. exists c. split; [done|]. by apply translate_mapped with t. }
  destruct (Htr (words m) m va Hva Hm eq_refl) as (c & Hc & Ec).
  assert (Hin : ∀ d x, in_page d (page_address d + x mod PAGE_SIZE + VA_START)).
  { intros d x. replace (page_address d + x mod PAGE_SIZE + VA_START) with (page_address d + VA_START + x mod PAGE_SIZE) by lia.
    apply in_page_offset. by apply Z.mod_pos_bound. }
  unfold user_store. apply wp_bind, wp_gets.
  change (ttbr0_el1 (put p pcb m k)) with (ttbr0_el1 k). rewrite Hb. apply wp_bind, wp_gets.
  change (words (mem (put p pcb m k))) with (words m). apply wp_bind, wp_defined. eexists. split; [exact Ec|].
  apply wp_words_put. set (m' := {| memory_pages := _ |}).
  assert (Hs' : space_ok m' pcb t).
  { eapply written_space; [exact Hs|exact Hc|done|done|]. intros y Hy Hyw. apply word_at_set. intros E. apply Hy.
    rewrite E. apply in_page_word, Hin. }
  apply (HQ m'); [done|done|]. intros x Hx. specialize (Hsee x Hx).
  unfold space_byte, space_translate in *. destruct (Z.eqb_spec (pgd (mm pcb)) 0) as [|_]; [done|].
  destruct (Htr (words m) m x Hx Hm eq_refl) as (d & Hd & Ed). rewrite Ed in Hsee. cbn [mbind option_bind] in Hsee.
  destruct (Htr (words m') m' x Hx (so_tables _ _ _ Hs') eq_refl) as (d' & Hd' & Ed').
  rewrite Hd in Hd'. injection Hd' as <-%page_address_inj. rewrite Ed'. cbn [mbind option_bind].
  unfold m' at 1. cbn [words]. rewrite byte_at_set. unfold over. cbn [length].
  destruct (decide (x = va)) as [->|Hne].
  - rewrite Hd in Hc. injection Hc as ->%page_address_inj. rewrite decide_True by lia. rewrite decide_True by lia.
    by replace (Z.to_nat (va - va)) with 0%nat by lia.
  - rewrite (decide_False (P:=va ≤ x < va + Z.of_nat 1)) by lia. rewrite decide_False; [exact Hsee|]. intros E. apply Hne.
    pose proof (Hin d x) as H1. rewrite E in H1. pose proof (in_page_disjoint _ _ _ H1 (Hin c va)) as ->.
    assert (Hp : path_of x = path_of va) by (by eapply (ta_inj _ _ Hm)).
    unfold USER_SIZE in *. change PAGE_SIZE with 4096 in *.
    apply path_of_page in Hp; [|lia|lia]. change PAGE_SIZE with 4096 in Hp.
    rewrite (Z.div_mod x 4096), (Z.div_mod va 4096) by lia. rewrite Hp. lia.
Qed.

Lemma wp_user_strcpy text rest va f m pcb t (Q : unit → kernel → Prop) :
  no_nul text → Forall byte_range text →
  pgd (mm pcb) ≠ 0 → ttbr0_el1 k = pgd (mm pcb) → space_ok m pcb t → user_mapped t → sees m pcb f →
  0 ≤ va → va + Z.of_nat (length text) < USER_SIZE →
  (∀ m', memory_pages m' = memory_pages m → space_ok m' pcb t → sees m' pcb (over va (text ++ [NUL]) f) → Q tt (put p pcb m' k)) →
  wp (user_strcpy va (text ++ NUL :: rest)) Q (put p pcb m k).
Proof.
  intros Hn Hby H0 Hb. revert va f m Hn. induction Hby as [|c text Hc Hby IH];
    intros va f m Hn Hs Hmap Hsee Hva Hlen HQ; cbn [app user_strcpy].
  - apply wp_bind, (wp_user_store va NUL f m pcb t); try done. cbn in Hlen. lia.
  - apply no_nul_cons in Hn as [Hcn Hn]. cbn [length] in Hlen.
    apply wp_bind, (wp_user_store va c f m pcb t); try done; [lia|]. intros m' Hp' Hs' Hsee'. rewrite Hcn.
    apply (IH (va + 1) (over va [u8 c] f) m'); try done; [lia|lia|].
    intros m2 Hp2 Hs2 Hsee2. apply HQ; [by rewrite Hp2|done|]. eapply sees_ext; [|exact Hsee2].
    intros x _. rewrite over_cons. unfold u8. by rewrite Z.mod_small by exact Hc.
Qed.

(** What is on the stack when the arguments are pushed from [sp] on. *)
Fixpoint pushed_args (sp : Z) (args : list (list Z)) (f : Z → Z) : Z → Z :=
  match args with
  | [] => f
  | a :: args' => let sp := sp - SYSCALL_EXEC_ARGUMENT_DIMENSION in pushed_args sp args' (over sp (a ++ [NUL]) f)
  end.
Fixpoint pushed_frame (i sp : Z) (n : nat) (frame : list Z) : list Z :=
  match n with
  | O => frame
  | S n' =>
      let sp := sp - SYSCALL_EXEC_ARGUMENT_DIMENSION in
      pushed_frame (i + 1) sp n' (<[Z.to_nat (i + 1) := sp]> frame)
  end.
Definition argument_ok (a : list Z) : Prop :=
  no_nul a ∧ Forall byte_range a ∧ Z.of_nat (length a) < SYSCALL_EXEC_ARGUMENT_DIMENSION.
Definition saved_row (a : list Z) : list Z := a ++ NUL :: replicate (63 - length a) 0.
Lemma save_arguments_rows args arguments :
  Forall argument_ok args → Forall2 (λ a b, ∃ rest, b = a ++ NUL :: rest) args arguments →
  save_arguments (length args) arguments = Some (saved_row <$> args).
Proof.
  intros Hok H. induction H as [|a b args arguments [rest ->] H IH]; [done|].
  apply Forall_cons in Hok as [(Hn & _ & Hl) Hok]. cbn [length save_arguments fmap list_fmap].
  unfold SYSCALL_EXEC_ARGUMENT_DIMENSION in *. rewrite strcpy_terminated; [|done|rewrite length_replicate; lia].
  cbn [mbind option_bind]. rewrite IH by done. cbn. unfold saved_row. by rewrite drop_replicate.
Qed.

Lemma wp_push_arguments args i sp f m pcb t frame (Q : Z * list Z → kernel → Prop) :
  Forall argument_ok args → 0 ≤ i → i + Z.of_nat (length args) < Z.of_nat (length frame) →
  pgd (mm pcb) ≠ 0 → ttbr0_el1 k = pgd (mm pcb) → space_ok m pcb t → user_mapped t → sees m pcb f →
  SYSCALL_EXEC_ARGUMENT_DIMENSION * Z.of_nat (length args) ≤ sp ≤ USER_SIZE →
  (∀ m', memory_pages m' = memory_pages m → space_ok m' pcb t → sees m' pcb (pushed_args sp args f) →
     Q (sp - SYSCALL_EXEC_ARGUMENT_DIMENSION * Z.of_nat (length args), pushed_frame i sp (length args) frame)
       (put p pcb m' k)) →
  wp (push_arguments i sp (saved_row <$> args) frame) Q (put p pcb m k).
Proof.
  intros Hok Hi Hlen H0 Hb. unfold SYSCALL_EXEC_ARGUMENT_DIMENSION in *. revert i sp f m frame Hi Hlen.
  induction Hok as [|a args (Hn & Hby & Hl) Hok IH]; intros i sp f m frame Hi Hlen Hs Hmap Hsee Hsp HQ;
    cbn [fmap list_fmap push_arguments length] in *.
  - apply wp_ret. specialize (HQ m eq_refl Hs Hsee). by rewrite Z.sub_0_r in HQ.
  - unfold SYSCALL_EXEC_ARGUMENT_DIMENSION in *. apply wp_bind. unfold saved_row at 1.
    apply (wp_user_strcpy a _ (sp - 64) f m pcb t); try done; [lia|lia|]. intros m1 Hp1 Hs1 Hsee1.
    apply wp_bind, wp_defined. eexists. split; [apply arr_set_in; lia|].
    apply (IH (i + 1) (sp - 64) (over (sp - 64) (a ++ [NUL]) f) m1); try done.
    + lia.
    + rewrite length_insert. lia.
    + lia.
    + intros m2 Hp2 Hs2 Hsee2. rewrite <- Hp1 in HQ. specialize (HQ m2 Hp2 Hs2 Hsee2).
      cbn [pushed_frame] in HQ. unfold SYSCALL_EXEC_ARGUMENT_DIMENSION in HQ.
      by replace (sp - 64 * Z.of_nat (S (length args))) with (sp - 64 - 64 * Z.of_nat (length args)) in HQ by lia.
Qed.
End store.

(** ** The new program *)
Lemma tables_low t x a : tables_only t !! x = Some a → (length x ≤ 3)%nat.
Proof. by intros [_ ?]%tables_only_lookup. Qed.

(** The saved registers of the program. *)
Definition exec_frame (n : nat) (frame : list Z) : list Z :=
  <[Z.to_nat TRAP_PC := 0]> (<[Z.to_nat TRAP_SP := USER_SIZE - SYSCALL_EXEC_ARGUMENT_DIMENSION * Z.of_nat n]>
    (pushed_frame 0 USER_SIZE n (<[0%nat := u64 (Z.of_nat n)]> frame))).
Lemma pushed_frame_length i sp n frame : length (pushed_frame i sp n frame) = length frame.
Proof.
  revert i sp frame. induction n as [|n IH]; intros i sp frame; cbn [pushed_frame]; [done|].
  by rewrite IH, length_insert.
Qed.

(** A process that can execute a program: its tables are in use, and its pages are its own. *)
Record executable (m : memory) (pcb : PCB) (t : tree) : Prop := {
  ex_space : space_ok m pcb t;
  ex_root : pgd (mm pcb) ≠ 0;
  ex_own : own_pages pcb t;
  ex_pages : Z.of_nat (size (memory_pages m)) + 16 + missing t 0 ≤ N_PAGES;
  ex_kernel : n_kernel_pages (mm pcb) + missing t 0 ≤ MAX_PROCESS_PAGES
}.
(** The code: [size] bytes [src] at [buffer], in no page of the process. *)
Record code_at (m : memory) (pcb : PCB) (t : tree) (buffer size : Z) (src : Z → Z) : Prop := {
  co_size : 0 ≤ size;
  co_bytes : ∀ x, 0 ≤ x < size → stable m t (word_of (buffer + x)) ∧ apart pcb (word_of (buffer + x)) ∧
    byte_at (words m) (buffer + x) = src x
}.

Section image.
Variables (p : pcb_ptr) (k : kernel).
Hypothesis Hcurrent : current_process k = p.

Lemma wp_free_image m pcb t (Q : unit → kernel → Prop) buffer size src :
  executable m pcb t → code_at m pcb t buffer size src →
  (∀ m' pcb', space_ok m' pcb' (tables_only t) → page_room 16 0 m' pcb' (tables_only t) →
     n_user_pages (mm pcb') = 0 → pgd (mm pcb') = pgd (mm pcb) → (∃ s, pcb' = set_mm s pcb) →
     (∀ x, 0 ≤ x < size → stable m' (tables_only t) (word_of (buffer + x)) ∧ byte_at (words m') (buffer + x) = src x) →
     Q tt (put p pcb' m' k)) →
  wp (free_user_pages (Z.to_nat (n_user_pages (mm pcb))) 0) Q (put p pcb m k).
Proof.
  intros [Hs H0 Hown Hp Hk] [Hsize Hsrc] HQ. pose proof (so_user _ _ _ Hs) as [Hul Hun].
  pose proof (tables_only_space _ _ _ Hs) as Hs0.
  eapply (wp_free_user_pages p k Hcurrent _ 0 m pcb (tables_only t) m pcb).
  - lia.
  - lia.
  - apply tables_low.
  - intros i Hi. destruct (Hown i Hi) as (c & va & H1 & H2 & H3). exists c, va. split_and!; try done; try lia.
    by rewrite tables_only_table.
  - split; [apply Hs0| |done|done]. exists (user_pages (mm pcb)). split; [|done]. rewrite Z.sub_0_r. by destruct pcb as [? ? ? ? ? ? ? ? ? ? ? ? [] ? ? ? ?].
  - intros m' pcb' [F1 (us & -> & F2 & _) F3 F4]. apply HQ; cbn.
    + destruct Hs0 as [_ R K _]. split; cbn; try done. rewrite F2. lia.
    + rewrite Z.sub_diag. apply subseteq_size in F3. split; rewrite ?tables_only_missing; cbn; [lia|lia|done].
    + lia.
    + done.
    + eauto.
    + intros x Hx. destruct (Hsrc x Hx) as (S1 & S2 & S3).
      assert (S1' : stable m (tables_only t) (word_of (buffer + x))).
      { intros i Hi Hin. destruct (S1 i Hi Hin). by rewrite tables_only_table. }
      destruct (F4 _ S2 S1') as [G1 G2]. split; [done|]. rewrite <- S3. by apply byte_at_word.
Qed.

Lemma wp_exec_image m pcb t buffer size src args frame (Q : list Z → kernel → Prop) :
  ttbr0_el1 k = pgd (mm pcb) → executable m pcb t → code_at m pcb t buffer size src →
  Forall argument_ok args → Z.of_nat (length args) ≤ 30 → length frame = 34%nat →
  (∀ m' pcb' t', space_ok m' pcb' t' → sees m' pcb' (pushed_args USER_SIZE args (image src size)) →
     n_user_pages (mm pcb') = 16 → pgd (mm pcb') = pgd (mm pcb) →
     cpu_context pcb' = {| (cpu_context pcb) with pc := 0;
       sp := USER_SIZE - SYSCALL_EXEC_ARGUMENT_DIMENSION * Z.of_nat (length args) |} →
     Q (exec_frame (length args) frame) (put p pcb' m' k)) →
  wp (exec_image buffer size (saved_row <$> args) (Z.of_nat (length args)) frame) Q (put p pcb m k).
Proof.
  intros Hb Hex Hcode Hargs Hn Hframe HQ. unfold exec_image.
  apply wp_bind, (wp_load_current_put p k Hcurrent), wp_bind. eapply wp_free_image; [done|done|].
  intros m1 pcb1 Hs1 Hr1 Hn1 Hg1 (s1 & E1) Hsrc1. apply wp_bind, wp_gets.
  change (current_process (put p pcb1 m1 k)) with (current_process k). rewrite Hcurrent.
  apply wp_bind. eapply (wp_copy_code p buffer size m1 pcb1 (tables_only t)); [apply Hcode|done|done|exact Hsrc1|].
  intros m2 pcb2 t2 [A1 A2 A3 _ A4 (s2 & E2 & A5)] Hmap Hsee. apply wp_bind, wp_defined.
  pose proof (ex_root _ _ _ Hex) as H0. assert (Hg2 : pgd (mm pcb2) = pgd (mm pcb)) by (rewrite A4; congruence).
  eexists. split; [apply arr_set_in; lia|]. apply wp_bind.
  eapply (wp_push_arguments p k args 0 (16 * PAGE_SIZE) (image src size) m2 pcb2 t2); try done.
  - rewrite length_insert. lia.
  - congruence.
  - congruence.
  - unfold SYSCALL_EXEC_ARGUMENT_DIMENSION, USER_SIZE. change PAGE_SIZE with 4096. lia.
  - intros m3 Hp3 Hs3 Hsee3. apply wp_bind, (wp_update_current_put p k Hcurrent).
    change (16 * PAGE_SIZE) with USER_SIZE in *. set (sp' := USER_SIZE - _) in *.
    apply wp_bind, wp_defined. eexists. split; [apply arr_set_in; rewrite pushed_frame_length, length_insert, Hframe; by split|].
    apply wp_defined. eexists. split; [apply arr_set_in; rewrite length_insert, pushed_frame_length, length_insert, Hframe; by split|].
    eapply (HQ m3 (set_cpu_context {| (cpu_context pcb2) with pc := 0; sp := sp' |} pcb2) t2).
    + destruct Hs3 as [? ? ? ?]. by split.
    + exact Hsee3.
    + cbn. rewrite E2. cbn. lia.
    + exact Hg2.
    + by rewrite E2, E1.
Qed.
End image.
