(* ===== verification/Dispatch.v ===== *)
(** * The system call dispatcher

    [syscall_dispatcher] of src/libs/syscalls.c: the number is in [x8], the arguments in
    [x0] to [x3], and the result goes to [x0].  The memory of the caller is [memory_at]:
    the bytes from an address to the end of the object there.  What a handler stores
    through the pointers it was given is a list of writes. *)
From S2P Require Import Prelude.
From S2P Require Import Process.
From S2P Require Import Scheduler.
From S2P Require Import CString.
From S2P Require Import Ipc.
From S2P Require Import Uart.
From S2P Require Import Syscalls.
From S2P Require Import FatNames.
From S2P Require Import FileCalls.
From S2P Require Import Exec.
Local Open Scope Z_scope.

Definition SYSCALLS_NUMBER : Z := 21.

(** The handler returned, with the saved registers and its writes, or it gave the CPU away
    and goes on when its caller is dispatched again. *)
Inductive served :=
  | Served (registers : list Z) (writes : list (Z * list Z))
  | Suspended (input : option input_round).

(** [FatEntryInfo] in memory. *)
Definition ENTRY_NAME : nat := 4.
Definition ENTRY_IS_DIR : nat := 68.
Definition entry_of_bytes (b : list Z) : FatEntryInfo :=
  {| e_size := get_le 4 0 b; e_name := take 64 (drop ENTRY_NAME b); e_is_dir := get_le 1 ENTRY_IS_DIR b |}.
Definition entry_bytes (e : FatEntryInfo) : list Z := le_bytes 4 (e_size e) ++ e_name e ++ [e_is_dir e].

Section dispatch.
Variable alg : SchedAlgorithm.
Variables init_process_address ret_from_fork : Z.
Variables uninitialised stack : list Z.
Variable memory_at : Z → list Z.
Variable registers : list Z.

Definition register (i : Z) : W Z := defined (arr_get registers i).
(** [registers[0] = result;], an [int] or an [unsigned long] *)
Definition reply (result : Z) (writes : list (Z * list Z)) : W served :=
  registers' ← defined (arr_set registers 0 (u64 result));
  mret (Served registers' writes).
Definition no_reply : W served := mret (Served registers []).
Definition reply_round (r : round Z) : W served :=
  match r with Returned result => reply result [] | Blocked => mret (Suspended None) end.
(** [int] on its way to memory *)
Definition int_bytes (n : Z) : list Z := le_bytes 4 (u32 n).
(** The first [len] bytes at a pointer. *)
Definition bytes_at (address len : Z) : W (list Z) :=
  if decide (0 ≤ len ≤ Z.of_nat (length (memory_at address)))
  then mret (take (Z.to_nat len) (memory_at address)) else undefined.

Definition file_number (syscall_number x0 : Z) : W served :=
  match syscall_number with
  | 3 => r ← syscall_create_dir stack (memory_at x0); reply r []
  | 4 => r ← syscall_open_dir stack (memory_at x0); reply r []
  | 5 => x1 ← register 1; r ← syscall_open_file stack (memory_at x0) (u8 x1); reply r []
  | 6 => r ← syscall_close_file (to_int x0); reply r []
  | 7 =>
      x1 ← register 1; x2 ← register 2; x3 ← register 3;
      buffer ← bytes_at x1 (to_int x2);
      r ← syscall_write_file (to_int x0) buffer;
      reply r.2 (match r.1 with Some bytes => [(x3, int_bytes bytes)] | None => [] end)
  | 8 =>
      x1 ← register 1; x2 ← register 2; x3 ← register 3;
      r ← syscall_read_file (to_int x0) (to_int x2);
      if decide (length r.1 ≤ length (memory_at x1))%nat then
        reply r.2 [(x1, r.1); (x3, int_bytes (Z.of_nat (length r.1)))]
      else undefined
  | 11 =>
      x1 ← register 1;
      r ← syscall_get_next_entry (to_int x0) (entry_of_bytes (memory_at x1));
      reply r.2 [(x1, entry_bytes r.1)]
  | _ =>
      x1 ← register 1; x2 ← register 2;
      let n_arguments := to_int x1 in
      let row i := take (Z.to_nat SYSCALL_EXEC_ARGUMENT_DIMENSION)
                     (memory_at (x2 + SYSCALL_EXEC_ARGUMENT_DIMENSION * i)) in
      r ← syscall_exec stack (memory_at x0) registers n_arguments (row <$> seqZ 0 n_arguments);
      mret (Served r.1 [])
  end.
Definition process_number (syscall_number x0 : Z) : W served :=
  match syscall_number with
  | 0 => on_kernel (syscall_write (memory_at x0));; no_reply
  | 18 => on_kernel (syscall_write_hex (to_int x0));; no_reply
  | 1 => r ← on_kernel syscall_malloc; reply r []
  | 2 => on_kernel (syscall_exit alg);; no_reply
  | 9 => on_kernel (syscall_yield alg);; no_reply
  | 10 =>
      x1 ← register 1;
      r ← on_kernel (syscall_input alg (memory_at x0) (to_int x1));
      match r with
      | InputDone l => reply (current_len l) [(x0, line_buffer l)]
      | waits => mret (Suspended (Some waits))
      end
  | 12 => r ← on_kernel (syscall_fork alg init_process_address ret_from_fork); reply r []
  | 13 =>
      x1 ← register 1;
      r ← on_kernel (syscall_send_message alg uninitialised (to_int x0) (memory_at x1));
      reply_round r
  | 14 =>
      r ← on_kernel (syscall_receive_message alg uninitialised (memory_at x0));
      match r with
      | Returned body => mret (Served registers [(x0, body)])
      | Blocked => mret (Suspended None)
      end
  | 15 => x1 ← register 1; r ← on_kernel (syscall_send_signal (to_int x0) (to_int x1)); reply r []
  | 17 => r ← on_kernel (syscall_wait alg (to_int x0)); reply_round r
  | 19 => r ← on_kernel syscall_get_time; reply r []
  | 20 =>
      x1 ← register 1; x2 ← register 2;
      r ← on_kernel (syscall_set_sched_param alg (to_int x0) (to_int x1) (to_int x2));
      reply r []
  | 21 => r ← on_kernel syscall_get_pid; reply r []
  | _ => no_reply
  end.
(** The calls on files and on processes, by their numbers. *)
Definition is_file_number (syscall_number : Z) : bool :=
  bool_decide (syscall_number ∈ [3; 4; 5; 6; 7; 8; 11; 16]).
Definition syscall_dispatcher : W served :=
  syscall_number ← register 8;
  if SYSCALLS_NUMBER <? syscall_number then no_reply else
  x0 ← register 0;
  if is_file_number syscall_number then file_number syscall_number x0
  else process_number syscall_number x0.
End dispatch.
