(* ===== verification/Svc.v ===== *)
(** * Exceptions of user code

    src/drivers/irq/entry.S from [el0_sync] on: the way from an exception of a program
    through [kernel_entry] to the handler and back through [kernel_exit], and the stubs of
    src/common/user_syscalls.S, with which programs raise it.  The saved registers are the
    frame the dispatcher works on.  src/arch/sysregs.h. *)
From S2P Require Import Prelude.
From S2P Require Import Process.
From S2P Require Import Scheduler.
From S2P Require Import Mm.
From S2P Require Import Irq.
From S2P Require Import Uart.
From S2P Require Import FileCalls.
From S2P Require Import Dispatch.
Local Open Scope Z_scope.

Definition ESR_ELx_EC_SHIFT : Z := 26.
Definition ESR_ELx_EC_SVC64 : Z := 0x15.
Definition ESR_ELx_EC_DABT_LOW : Z := 0x24.

(** The program goes on with its registers, and what the handler stored for it; or it waits,
    with its registers in the frame; or the kernel stopped with a message. *)
Inductive resumed :=
  | Resumed (c : cpu_registers) (writes : list (Z * list Z))
  | Waiting (frame : list Z) (input : option input_round)
  | Hung.

Section entry.
Variable alg : SchedAlgorithm.
Variables init_process_address ret_from_fork : Z.
Variables uninitialised stack : list Z.
Variable memory_at : Z → list Z.

Definition enable_irq : W unit := on_kernel (modify (set_irq_enabled true)).
Definition disable_irq : W unit := on_kernel (modify (set_irq_enabled false)).
(** [err_hang] is a loop without an end. *)
Definition handle_invalid_entry (type esr : Z) (c : cpu_registers) : W resumed :=
  on_kernel (show_invalid_entry_message type esr (elr_el1 c));;
  mret Hung.
Definition el0_svc (frame : list Z) (c : cpu_registers) : W resumed :=
  enable_irq;;
  r ← syscall_dispatcher alg init_process_address ret_from_fork uninitialised stack memory_at frame;
  match r with
  | Served registers writes => disable_irq;; mret (Resumed (kernel_exit 0 registers c) writes)
  | Suspended input => mret (Waiting frame input)
  end.
(** The static [index] of [do_mem_abort] is passed in and out. *)
Definition el0_da (index far esr : Z) (frame : list Z) (c : cpu_registers) : W (resumed * Z) :=
  enable_irq;;
  '(r, index) ← on_kernel (do_mem_abort index far esr);
  if r =? 0 then disable_irq;; mret (Resumed (kernel_exit 0 frame c) [], index)
  else h ← handle_invalid_entry DATA_ABORT_ERROR esr c; mret (h, index).
Definition el0_sync (index far esr : Z) (c : cpu_registers) : W (resumed * Z) :=
  let '(frame, c) := kernel_entry 0 c in
  let class := Z.shiftr esr ESR_ELx_EC_SHIFT in
  if class =? ESR_ELx_EC_SVC64 then r ← el0_svc frame c; mret (r, index) else
  if class =? ESR_ELx_EC_DABT_LOW then el0_da index far esr frame c else
  r ← handle_invalid_entry SYNC_ERROR esr c; mret (r, index).

(** ** The stubs *)

(** [mov w8, #number], and what the exception saves is in [c]; then [svc #0]. *)
Definition with_number (number : Z) (c : cpu_registers) : cpu_registers :=
  {| x := <[8%nat := number]> (x c); sp_el0 := sp_el0 c; sp_el1 := sp_el1 c; elr_el1 := elr_el1 c; spsr_el1 := spsr_el1 c |}.
Definition call_stub (number index far esr : Z) (c : cpu_registers) : W (resumed * Z) :=
  el0_sync index far esr (with_number number c).
End entry.
