(* ===== verification/Shell.v ===== *)
(** * The shell

    src/app/shell.c, a program that works through the system calls: the handlers of the
    commands are written against the interface [UserCalls].  Local arrays are lists of
    their bytes, 64 of them unless said otherwise. *)
From stdpp Require Import strings.
From S2P Require Import Prelude.
From S2P Require Import Process.
From S2P Require Import CString.
From S2P Require Import FatFile.
From S2P Require Import FatCalls.
From S2P Require Import FileCalls.
From S2P Require Import Exec.
From S2P Require Import UserCalls.
Local Open Scope Z_scope.

Definition MAX_COMMAND_DIMENSION : Z := 64.
Definition MAX_FILE_DIMENSION : Z := 256.
Definition MAX_EXEC_ARGUMENTS : nat := 4.
Definition SPACE : Z := 32.
Definition SLASH : Z := 47.
Definition DOT : Z := 46.
(** A string literal. *)
Definition lit (s : string) : list Z := bytes_of_string s ++ [NUL].
Definition lit_line (s : string) : list Z := bytes_of_string s ++ [10; NUL].
Definition escape (s : string) : list Z := 27 :: lit s.
Definition UART_WHITE_COLOR : list Z := escape "[37m".
Definition UART_GREEN_COLOR : list Z := escape "[32m".
Definition UART_BLUE_COLOR : list Z := escape "[34m".
Definition UART_CLEAR_SCREEN : list Z := 27 :: bytes_of_string "[1;1H" ++ escape "[2J".
(** An array after [memzero]. *)
Definition zeroed : list Z := replicate (Z.to_nat MAX_COMMAND_DIMENSION) 0.
(** [memcpy(.., source, MAX_COMMAND_DIMENSION)] *)
Definition copy_array (source : list Z) : option (list Z) :=
  let n := Z.to_nat MAX_COMMAND_DIMENSION in
  if decide (n ≤ length source)%nat then Some (take n source) else None.
(** [memcmp] of src/common/memory.S *)
Fixpoint memcmp (n : nat) (src1 src2 : list Z) : option Z :=
  match n with
  | O => Some 0
  | S n' =>
      match src1, src2 with
      | c1 :: src1', c2 :: src2' => if c1 =? c2 then memcmp n' src1' src2' else Some (c1 - c2)
      | _, _ => None
      end
  end.

(** ** Paths *)

(** [path[i] == '/' || path[i] == '\0'] *)
Definition ends_component (path : list Z) (i : Z) : option bool :=
  c ← arr_get path i; Some ((c =? SLASH) || (c =? NUL)).
(** [path[i] == '/' ? n + 1 : n] more bytes read. *)
Definition skip (path : list Z) (i n : Z) : option Z :=
  c ← arr_get path i; Some (if c =? SLASH then n + 1 else n).
(** [while (write > 0 && path[write - 1] != '/') write--;] *)
Fixpoint back_up (fuel : nat) (path : list Z) (write : Z) : option Z :=
  match fuel with
  | O => Some write
  | S fuel' =>
      if 0 <? write then
        c ← arr_get path (write - 1);
        if c =? SLASH then Some write else back_up fuel' path (write - 1)
      else Some write
  end.
(** The array and [write] behind the loop.  Every round reads on. *)
Fixpoint normalize_loop (fuel : nat) (path : list Z) (read write : Z) : option (list Z * Z) :=
  match fuel with
  | O => None
  | S fuel' =>
      c ← arr_get path read;
      if c =? NUL then Some (path, write) else
      dot ← (if c =? DOT then ends_component path (read + 1) else Some false);
      if dot : bool then n ← skip path (read + 1) 1; normalize_loop fuel' path (read + n) write else
      second ← (if c =? DOT then c1 ← arr_get path (read + 1); Some (c1 =? DOT) else Some false);
      dotdot ← (if second : bool then ends_component path (read + 2) else Some false);
      if dotdot : bool then
        n ← skip path (read + 2) 2;
        write ← back_up (length path) path (write - 1);
        normalize_loop fuel' path (read + n) write
      else
      path ← arr_set path write c;
      normalize_loop fuel' path (read + 1) (write + 1)
  end.
Definition normalize_path (path : list Z) : option (list Z) :=
  '(path, write) ← normalize_loop (S (length path)) path 0 0;
  path ← arr_set path write NUL;
  if write =? 0 then path ← arr_set path 0 SLASH; arr_set path 1 NUL else Some path.

(** [strcat(temp, destination)] behind the working directory, if the path is relative. *)
Definition absolute_path (destination working_directory : list Z) : option (list Z) :=
  c ← arr_get destination 0;
  if c =? SLASH then copy_array destination else
  temp ← copy_array working_directory;
  len ← strlen temp;
  separated ← (if 2 <? len then last ← arr_get temp (len - 1); Some (last =? SLASH) else Some true);
  temp ← (if separated : bool then Some temp
          else temp ← arr_set temp len SLASH; arr_set temp (len + 1) NUL);
  strcat temp destination.

(** ** Words of a command line *)

(** [while ( *p != '\0' && *p != ' ')]: the word at [p] and what follows it. *)
Fixpoint take_word (p : list Z) : option (list Z * list Z) :=
  match p with
  | [] => None
  | c :: p' =>
      if (c =? NUL) || (c =? SPACE) then Some ([], p)
      else '(word, rest) ← take_word p'; Some (c :: word, rest)
  end.
Fixpoint take_rest (p : list Z) : option (list Z) :=
  match p with
  | [] => None
  | c :: p' => if c =? NUL then Some [] else cons c <$> take_rest p'
  end.
(** [p++;] *)
Definition next (p : list Z) : option (list Z) := match p with [] => None | _ :: p' => Some p' end.
(** [word] and a terminator in an array that was cleared. *)
Definition in_array (word : list Z) : option (list Z) := strcpy zeroed (word ++ [NUL]).

Section shell.
Context {St : Type} `{!UserCalls St}.
Abbreviation S := (M St).

Definition write_all (texts : list (list Z)) : S unit := for_each texts call_syscall_write.
Definition quoted (before : string) (text : list Z) (after : string) : S unit :=
  write_all [lit before; text; lit_line after].

(** ** Commands *)
Definition newline : list Z := [10; NUL].
Definition help_lines : list string :=
  ["[demoos shell]"; "Available commands:"; "  help       - Show this help message";
   "  pwd        - Show the current working directory"; "  ls         - Show content of the current folder";
   "  tree       - Show directory tree"; "  mkdir      - Create a directory in the working directory";
   "  write      - Creates a file and writes the given content in it";
   "  show       - Shows the content of the given file"; "  clear      - Clears the screen";
   "  exec       - Forks the current process and launches a new one from the file system, given its path";
   "  any        - If '/bin/any.bin' is a file, launches it as a new process"].
Definition handle_help : S unit := write_all (lit_line <$> help_lines).

(** [info]: what the structure on the stack holds before the call. *)
Definition clear_name (info : FatEntryInfo) : FatEntryInfo :=
  {| e_size := e_size info; e_name := zeroed; e_is_dir := e_is_dir info |}.
Fixpoint ls_loop (fuel : nat) (fd : Z) (info : FatEntryInfo) : S unit :=
  match fuel with
  | O => out_of_fuel
  | Datatypes.S fuel' =>
      '(info, result) ← call_syscall_get_next_entry fd (clear_name info);
      if negb (result =? 0) then mret tt else
      (if negb (e_is_dir info =? 0) then write_all [escape "[34m"; e_name info; escape "[0m"]
       else call_syscall_write (e_name info));;
      call_syscall_write newline;;
      ls_loop fuel' fd info
  end.
Definition handle_ls (fuel : nat) (info : FatEntryInfo) (working_directory : list Z) : S unit :=
  fd ← call_syscall_open_dir working_directory;
  if fd =? -1 then
    quoted "[SHELL] Error opening folder '" working_directory "'."
  else
  ls_loop fuel fd info;;
  call_syscall_write newline.
Definition handle_pwd (working_directory : list Z) : S unit := write_all [working_directory; newline].

Definition handle_mkdir (buffer working_directory : list Z) : S unit :=
  '(_, dir_name) ← defined (strsplit buffer SPACE zeroed zeroed);
  first ← defined (arr_get dir_name 0);
  if first =? 0 then call_syscall_write (lit_line "[SHELL] Error: please specify the directory name.") else
  len ← defined (strlen working_directory);
  if MAX_COMMAND_DIMENSION <=? len then
    call_syscall_write (lit_line "[SHELL] Error: working directory string is too big.")
  else
  temp ← defined (strcat zeroed working_directory);
  temp ← defined (if first =? SLASH then Some temp else strcat temp [SLASH; NUL]);
  temp ← defined (strcat temp dir_name);
  fd ← call_syscall_create_dir temp;
  when (fd =? -1) (quoted "[SHELL] Cannot create '" temp "'.").

(** The working directory after the command. *)
Definition handle_cd (buffer working_directory : list Z) : S (list Z) :=
  '(_, destination) ← defined (strsplit buffer SPACE zeroed zeroed);
  destination_len ← defined (strlen destination);
  last ← defined (arr_get destination (destination_len - 1));
  destination ← defined (if last =? SLASH then Some destination else strcat destination [SLASH; NUL]);
  temp ← defined (absolute_path destination working_directory);
  temp ← defined (normalize_path temp);
  fd ← call_syscall_open_dir temp;
  if fd =? -1 then
    quoted "[SHELL] Error: cannot change directory to '" temp "'.";;
    mret working_directory
  else defined (copy_array temp).

(** [file_content]: the array of 256 bytes, of which 64 are cleared. *)
Definition handle_show (file_content : list Z) (buffer working_directory : list Z) : S unit :=
  '(_, destination) ← defined (strsplit buffer SPACE zeroed zeroed);
  temp ← defined (absolute_path destination working_directory);
  temp ← defined (normalize_path temp);
  fd ← call_syscall_open_file temp FAT_READ;
  when (fd =? -1) (quoted "[SHELL] Cannot open '" temp "'.");;
  if -1 <? fd then
    '(file_content, error) ← call_syscall_read_file fd (zeroed ++ drop 64 file_content) MAX_FILE_DIMENSION;
    (if negb (error =? 0) then quoted "[SHELL] Cannot read '" temp "'."
     else write_all [file_content; newline]);;
    _ ← call_syscall_close_file fd;
    mret tt
  else mret tt.

(** [call_syscall_close_file(fd)] behind a call that failed is made too. *)
Definition handle_write (buffer working_directory : list Z) : S unit :=
  '(_, p) ← defined (take_word buffer);
  p ← defined (next p);
  '(word, p) ← defined (take_word p);
  file_name ← defined (in_array word);
  p ← defined (next p);
  content ← defined (take_rest p);
  file_content ← defined (in_array content);
  n ← defined (strlen working_directory);
  m ← defined (strlen file_name);
  file_path ← (if n + m <? MAX_COMMAND_DIMENSION
               then temp ← defined (strcat zeroed working_directory); defined (strcat temp file_name)
               else call_syscall_write (lit_line "[SHELL] Error: file path is too big");; mret zeroed);
  fd ← call_syscall_open_file file_path (Z.lor FAT_CREATE FAT_WRITE);
  when (fd =? -1) (quoted "[SHELL] Error: cannot open file '" file_path "'.");;
  (if negb (fd =? -1) && (0 <? Z.of_nat (length content)) then
     error ← call_syscall_write_file fd file_content MAX_FILE_DIMENSION;
     when (negb (error =? 0)) (quoted "[SHELL] Error: cannot write on file '" file_path "'.")
   else mret tt);;
  _ ← call_syscall_close_file fd;
  mret tt.

(** [child_path]: [path], a slash if it does not end in one, and the name. *)
Definition child_path (path name : list Z) : option (list Z) :=
  temp ← strcpy zeroed path;
  len ← strlen temp;
  last ← arr_get temp (len - 1);
  temp ← (if last =? SLASH then Some temp else strcat temp [SLASH; NUL]);
  temp ← strcat temp name;
  normalize_path temp.
Definition is_dots (name : list Z) : option bool :=
  c ← memcmp 2 name [DOT; NUL];
  if c =? 0 then Some true else
  c ← memcmp 3 name [DOT; DOT; NUL];
  Some (c =? 0).
(** [levels]: how deep directories may be nested; [entries]: of one directory. *)
Fixpoint tree_loop (subtree : list Z → S unit) (entries : nat) (path : list Z) (depth fd : Z)
    (info : FatEntryInfo) : S unit :=
  match entries with
  | O => out_of_fuel
  | Datatypes.S entries' =>
      '(info, result) ← call_syscall_get_next_entry fd (clear_name info);
      if negb (result =? 1) then mret tt else
      dots ← defined (is_dots (e_name info));
      if dots : bool then tree_loop subtree entries' path depth fd info else
      for_each (seqZ 0 depth) (λ _, call_syscall_write (lit "   "));;
      (if negb (e_is_dir info =? 0)
       then write_all [escape "[34m"; e_name info; SLASH :: 27 :: bytes_of_string "[0m" ++ newline]
       else write_all [e_name info; newline]);;
      (if negb (e_is_dir info =? 0) then child ← defined (child_path path (e_name info)); subtree child
       else mret tt);;
      tree_loop subtree entries' path depth fd info
  end.
Fixpoint print_tree (levels entries : nat) (info : FatEntryInfo) (path : list Z) (depth : Z) : S unit :=
  match levels with
  | O => out_of_fuel
  | Datatypes.S levels' =>
      fd ← call_syscall_open_dir path;
      if fd =? -1 then mret tt
      else tree_loop (λ child, print_tree levels' entries info child (depth + 1)) entries path depth fd info
  end.
Definition tree_path (target working_directory : list Z) : option (list Z) :=
  first ← arr_get target 0;
  if first =? 0 then copy_array working_directory else
  if first =? SLASH then copy_array target else
  fullpath ← copy_array working_directory;
  len ← strlen fullpath;
  separated ← (if 1 <? len then last ← arr_get fullpath (len - 1); Some (last =? SLASH) else Some true);
  fullpath ← (if separated : bool then Some fullpath else strcat fullpath [SLASH; NUL]);
  strcat fullpath target.
Definition handle_tree (levels entries : nat) (info : FatEntryInfo) (buffer working_directory : list Z) : S unit :=
  '(_, target) ← defined (strsplit buffer SPACE zeroed zeroed);
  fullpath ← defined (tree_path target working_directory);
  fullpath ← defined (normalize_path fullpath);
  fd ← call_syscall_open_dir fullpath;
  if fd =? -1 then quoted "[SHELL] Error: cannot open directory '" fullpath "'." else
  write_all [fullpath; newline];;
  print_tree levels entries info fullpath 0.

(** What the parent does with the pid of the process that runs the program. *)
Definition wait_for (pid : Z) : S unit :=
  ok ← call_syscall_wait pid;
  when (negb (ok =? 0))
    (call_syscall_write (lit "[SHELL] Cannot find process '");;
     call_syscall_write_hex pid;;
     call_syscall_write (lit_line "'")).
(** The loop of the child has no end. *)
Definition handle_exec (buffer working_directory : list Z) : S unit :=
  '(_, path) ← defined (strsplit buffer SPACE zeroed zeroed);
  m ← defined (strlen path);
  if m =? 0 then call_syscall_write (lit_line "[SHELL] Please specify the path of the new program to execute.") else
  n ← defined (strlen working_directory);
  if MAX_COMMAND_DIMENSION <=? n + m then call_syscall_write (lit_line "[SHELL] Path is too long.") else
  complete_path ← defined (strcat zeroed working_directory);
  complete_path ← defined (strcat complete_path path);
  complete_path ← defined (normalize_path complete_path);
  pid ← call_syscall_fork;
  if pid =? 0 then
    call_syscall_write (lit_line "[SON] I am the son.");;
    error ← call_syscall_exec complete_path [];
    when (negb (error =? 0)) (call_syscall_write (lit_line "[SON] Error running new process.");; call_syscall_exit);;
    out_of_fuel
  else wait_for pid.

(** The arguments, at most [n] more, that [arguments_raw] is split into. *)
Fixpoint split_arguments (n : nat) (arguments_raw : list Z) : option (list (list Z)) :=
  match n with
  | O => Some []
  | Datatypes.S n' =>
      len ← strlen arguments_raw;
      if len <=? 0 then Some [] else
      '(argument, temp) ← strsplit arguments_raw SPACE zeroed zeroed;
      arguments_raw ← strcpy arguments_raw temp;
      cons argument <$> split_arguments n' arguments_raw
  end.
Definition bin_path (file_name : list Z) : option (list Z) :=
  temp ← strcat zeroed (lit "/bin/");
  temp ← strcat temp file_name;
  temp ← strcat temp (lit ".bin");
  normalize_path temp.
Definition handle_exec_from_bin (buffer : list Z) : S unit :=
  '(file_name, arguments_raw) ← defined (strsplit buffer SPACE zeroed zeroed);
  n ← defined (strlen file_name);
  if MAX_COMMAND_DIMENSION <=? 5 + n + 4 then call_syscall_write (lit_line "[SHELL] Path is too long.") else
  complete_path ← defined (bin_path file_name);
  arguments ← defined (split_arguments MAX_EXEC_ARGUMENTS arguments_raw);
  pid ← call_syscall_fork;
  if pid =? 0 then
    error ← call_syscall_exec complete_path arguments;
    when (negb (error =? 0))
      (quoted "[SHELL] Cannot find '" file_name "' binary file.";; call_syscall_exit);;
    call_syscall_exit
  else wait_for pid.

(** ** The shell *)
Definition starts_with (command : string) (buffer : list Z) : option bool :=
  let c := bytes_of_string command in
  r ← memcmp (length c) buffer c; Some (r =? 0).
(** The stack of the handlers, and bounds on what the directory commands list. *)
Record frame := { f_info : FatEntryInfo; f_content : list Z; f_levels : nat; f_entries : nat }.
Definition keep (working_directory : list Z) (c : S unit) : S (list Z) := c;; mret working_directory.
Definition shell_command (f : frame) (buffer working_directory : list Z) : S (list Z) :=
  let wd := working_directory in
  b ← defined (starts_with "help" buffer); if b : bool then keep wd handle_help else
  b ← defined (starts_with "ls" buffer); if b : bool then keep wd (handle_ls (f_entries f) (f_info f) wd) else
  b ← defined (starts_with "pwd" buffer); if b : bool then keep wd (handle_pwd wd) else
  b ← defined (starts_with "mkdir" buffer); if b : bool then keep wd (handle_mkdir buffer wd) else
  b ← defined (starts_with "cd" buffer); if b : bool then handle_cd buffer wd else
  b ← defined (starts_with "tree" buffer);
  if b : bool then keep wd (handle_tree (f_levels f) (f_entries f) (f_info f) buffer wd) else
  b ← defined (starts_with "clear" buffer); if b : bool then keep wd (call_syscall_write UART_CLEAR_SCREEN) else
  b ← defined (starts_with "write" buffer); if b : bool then keep wd (handle_write buffer wd) else
  b ← defined (starts_with "show" buffer); if b : bool then keep wd (handle_show (f_content f) buffer wd) else
  b ← defined (starts_with "exec" buffer); if b : bool then keep wd (handle_exec buffer wd) else
  keep wd (handle_exec_from_bin buffer).
(** One round of the loop of [shell]. *)
Definition shell_round (f : frame) (working_directory : list Z) : S (list Z) :=
  write_all [UART_GREEN_COLOR; lit "demoos:"; UART_BLUE_COLOR; working_directory; UART_WHITE_COLOR; lit "$ "];;
  buffer ← call_syscall_input zeroed MAX_COMMAND_DIMENSION;
  call_syscall_write newline;;
  len ← defined (strlen buffer);
  if len =? 0 then mret working_directory else shell_command f buffer working_directory.
Fixpoint shell_rounds (f : frame) (n : nat) (working_directory : list Z) : S (list Z) :=
  match n with
  | O => mret working_directory
  | Datatypes.S n' => wd ← shell_round f working_directory; shell_rounds f n' wd
  end.
Definition root_directory : list Z := SLASH :: replicate 63 0.
End shell.
