(* ===== verification/UserLib.v ===== *)
(** * Libraries and the first user program

    src/common/testlib.c, the helpers of the test programs; src/common/process_api.c,
    creating a process from a binary with its own parameters; and src/user/user.c, the
    program the kernel starts.  They are written against [UserCalls]. *)
From stdpp Require Import strings.
From S2P Require Import Prelude.
From S2P Require Import Process.
From S2P Require Import CString.
From S2P Require Import UserCalls.
From S2P Require Import Shell.
Local Open Scope Z_scope.

(** ** Numbers *)
Definition ZERO : Z := 48.
Definition NINE : Z := 57.
(** [while (number > 0)]: the digits, least significant first.  A number has at most 20. *)
Fixpoint digit_loop (fuel : nat) (number : Z) (reversed : list Z) (i : Z) : option (list Z * Z) :=
  if number <=? 0 then Some (reversed, i) else
  match fuel with
  | O => None
  | S fuel' =>
      reversed ← arr_set reversed i (ZERO + number mod 10);
      digit_loop fuel' (number / 10) reversed (i + 1)
  end.
(** [while (i > 0)], from [i = n]. *)
Fixpoint reverse_loop (n : nat) (reversed buffer : list Z) (j : Z) : option (list Z * Z) :=
  match n with
  | O => Some (buffer, j)
  | S n' =>
      c ← arr_get reversed (Z.of_nat n');
      buffer ← arr_set buffer j c;
      reverse_loop n' reversed buffer (j + 1)
  end.
Definition DIGITS : nat := 20.
(** [reversed]: what the array of 24 bytes on the stack holds before. *)
Definition num_to_str (reversed : list Z) (number : Z) (buffer : list Z) : option (list Z) :=
  if number =? 0 then buffer ← arr_set buffer 0 ZERO; arr_set buffer 1 NUL else
  '(reversed, i) ← digit_loop DIGITS number reversed 0;
  '(buffer, j) ← reverse_loop (Z.to_nat i) reversed buffer 0;
  arr_set buffer j NUL.
Fixpoint read_digits (number : Z) (buffer : list Z) : option Z :=
  match buffer with
  | [] => None
  | c :: buffer' =>
      if (ZERO <=? c) && (c <=? NINE) then read_digits (u64 (number * 10 + (c - ZERO))) buffer' else Some number
  end.
Definition str_to_num (buffer : list Z) : option Z := read_digits 0 buffer.

Section library.
Context {St : Type} `{!UserCalls St}.
Abbreviation U := (M St).

(** The two arrays on the stack. *)
Definition print_num (buffer reversed : list Z) (number : Z) : U unit :=
  text ← defined (num_to_str reversed number buffer);
  call_syscall_write text.

(** ** Burning time *)
Fixpoint burn_loop (fuel : nat) (start limit : Z) : U unit :=
  match fuel with
  | O => out_of_fuel
  | S fuel' =>
      now ← call_syscall_get_time;
      if u64 (now - start) <? limit then burn_loop fuel' start limit else mret tt
  end.
Definition burn_cpu_ms (fuel : nat) (milliseconds : Z) : U unit :=
  start ← call_syscall_get_time;
  burn_loop fuel start (u64 (milliseconds * 1000)).

(** ** Creating a process *)
Definition spawn_process (path : list Z) (priority tickets queue_priority : Z) : U Z :=
  pid ← call_syscall_fork;
  if pid <? 0 then mret (-1) else
  if pid =? 0 then
    error ← call_syscall_exec path [];
    when (negb (error =? 0)) call_syscall_exit;;
    mret 0
  else
  (if 0 <=? priority then _ ← call_syscall_set_sched_param pid SCHED_PARAM_PRIORITY priority; mret tt else mret tt);;
  (if 0 <=? tickets then _ ← call_syscall_set_sched_param pid SCHED_PARAM_TICKETS tickets; mret tt else mret tt);;
  (if 0 <=? queue_priority
   then _ ← call_syscall_set_sched_param pid SCHED_PARAM_QUEUE_PRIORITY queue_priority; mret tt else mret tt);;
  mret pid.

(** ** The first program *)
Definition init_process_main : U unit :=
  pid ← call_syscall_fork;
  if pid =? 0 then
    error ← call_syscall_exec (lit "/bin/shell.bin") [];
    when (negb (error =? 0)) (call_syscall_write (lit_line "[INIT] Cannot start shell binary");; call_syscall_exit)
  else
    call_syscall_write (lit_line "[INIT] Init process started ");;
    _ ← call_syscall_wait pid;
    call_syscall_exit.
End library.
