(* ===== verification/Programs.v ===== *)
(** * The test programs

    src/app, without the shell: the benchmark and [run_all], the demonstrations of messages,
    signals and arguments, and the tests of the scheduling algorithms.  They are written
    against [UserCalls].  [call_syscall_exit] does not return, so a program ends there;
    after a fork a program is followed as the process that the result says it is. *)
From stdpp Require Import strings.
From S2P Require Import Prelude.
From S2P Require Import CString.
From S2P Require Import Process.
From S2P Require Import UserCalls.
From S2P Require Import Shell.
From S2P Require Import UserLib.
Local Open Scope Z_scope.

(** ** Printing a number (src/app/benchmark.c) *)

(** [while (num >= divisor) { num -= divisor; count++; }] *)
Fixpoint count_loop (fuel : nat) (num divisor count : Z) : option (Z * Z) :=
  if divisor <=? num then
    match fuel with
    | O => None
    | S fuel' => count_loop fuel' (num - divisor) divisor (to_int (count + 1))
    end
  else Some (num, count).
Definition divisors : list Z :=
  [1000000000; 100000000; 10000000; 1000000; 100000; 10000; 1000; 100; 10; 1].
(** The loop over the divisors [ds] that are left. *)
Fixpoint divisor_loop (ds : list Z) (num : Z) (buffer : list Z) (i : Z) (started : bool) : option (list Z * Z) :=
  match ds with
  | [] => Some (buffer, i)
  | d :: ds' =>
      '(num, count) ← count_loop (S (Z.to_nat (num / d))) num d 0;
      if (0 <? count) || started then
        buffer ← arr_set buffer i (u8 (count + ZERO));
        divisor_loop ds' num buffer (i + 1) true
      else divisor_loop ds' num buffer i started
  end.
(** [buffer]: what the array of 32 bytes on the stack holds before. *)
Definition int_text (buffer : list Z) (num : Z) : option (list Z) :=
  if num =? 0 then Some (lit "0") else
  '(buffer, i) ← divisor_loop divisors num buffer 0 false;
  arr_set buffer i NUL.

Section programs.
Context {St : Type} `{!UserCalls St}.
Abbreviation U := (M St).
(** [stack n]: what a local array of [n] bytes holds before; [burning]: how often a loop that
    burns time reads the clock. *)
Context (stack : nat → list Z) (burning : nat).

Definition say (text : string) : U unit := call_syscall_write (lit text).
Definition say_line (text : string) : U unit := call_syscall_write (lit_line text).
Definition print (number : Z) : U unit := print_num (stack 24) (stack 24) number.
Definition MAX_MESSAGES_BODY_SIZE : nat := 256.
(** A message into a local array, and a number as one. *)
Definition receive : U (list Z) := call_syscall_receive_message (stack MAX_MESSAGES_BODY_SIZE).
Definition send_number (pid number : Z) : U unit :=
  body ← defined (num_to_str (stack 24) number (stack 24));
  _ ← call_syscall_send_message pid body;
  mret tt.

(** ** The benchmark *)
Definition print_int (num : Z) : U unit :=
  text ← defined (int_text (stack 32) num);
  call_syscall_write text.
(** [calcolo += i; calcolo ^= (i % 3);] as the processor computes it: the sum overflows. *)
Definition benchmark_step (s : Z * Z) : Z * Z := (s.1 + 1, Z.lxor (to_int (s.2 + s.1)) (s.1 mod 3)).
Definition benchmark_work : Z := (N.iter 50000000 benchmark_step (0, 0)).2.
Definition benchmark_main : U unit :=
  start_time ← call_syscall_get_time;
  let calcolo := benchmark_work in
  end_time ← call_syscall_get_time;
  let delta_microsecondi := u64 (end_time - start_time) in
  say "Benchmark completed! Time elapsed (microseconds): ";;
  print_int delta_microsecondi;;
  say_line "";;
  call_syscall_exit.

(** ** Running several of them (src/app/run_all.c) *)

(** An entry of [pids] that was not set is [None].  The child, where [spawn_process] returns
    0, is another program by then. *)
Fixpoint spawn_loop (n : nat) (i : Z) (pids : list (option Z)) : U (option (list (option Z))) :=
  match n with
  | O => mret (Some pids)
  | S n' =>
      pid ← spawn_process (lit "/bin/benchmark.bin") (i + 1) ((i + 1) * 10) i;
      if pid =? 0 then mret None else
      if pid <? 0 then
        say_line "[RUN_ALL] Error: unable to start the binary!";;
        spawn_loop n' (i + 1) pids
      else spawn_loop n' (i + 1) (<[Z.to_nat i := Some pid]> pids)
  end.
Fixpoint wait_all (pids : list (option Z)) : U unit :=
  match pids with
  | [] => mret tt
  | p :: pids' => pid ← defined p; _ ← call_syscall_wait pid; wait_all pids'
  end.
Definition NUM_PROCESSES : nat := 4.
Definition run_all_main : U unit :=
  say_line "[RUN_ALL] Starting multiple load test...";;
  pids ← spawn_loop NUM_PROCESSES 0 (replicate NUM_PROCESSES None);
  match pids with
  | None => mret tt
  | Some pids =>
      say_line "[RUN_ALL] All processes started. Waiting for completion...";;
      wait_all pids;;
      say_line "[RUN_ALL] Test completed! All processes have terminated.";;
      call_syscall_exit
  end.

(** ** Arguments, messages and signals *)
Definition arguments_main (n_arguments : Z) (arg1 arg2 : list Z) : U unit :=
  call_syscall_write (bytes_of_string "[TEST]" ++ 10 :: lit_line "I'm loaded from the filesystem.");;
  say "TEST ARGUMENTS NUMBER (EXPECTED 1) - ";;
  (if n_arguments =? 1 then say_line "SUCCESS" else say_line "FAIL");;
  say "Argument 1: ";;
  call_syscall_write arg1;;
  say_line "";;
  say "Argument 2: ";;
  call_syscall_write arg2;;
  say_line "";;
  call_syscall_exit.

(** [n] messages.  The array of the sender is cleared in part before all of it is set. *)
Fixpoint fork_receive (n : nat) : U unit :=
  match n with
  | O => mret tt
  | S n' =>
      buffer ← call_syscall_receive_message (replicate 64 0);
      say "[FATHER] Message received from FATHER: '";;
      call_syscall_write buffer;;
      say_line "'.";;
      fork_receive n'
  end.
Fixpoint fork_send (pid : Z) (messages : list (list Z)) : U unit :=
  match messages with
  | [] => mret tt
  | m :: messages' =>
      ok ← call_syscall_send_message pid m;
      if ok =? -1 then say_line "[SON] Error sending message to SON." else
      say "[SON] Message '";;
      call_syscall_write m;;
      say_line "' sent to SON.";;
      fork_send pid messages'
  end.
Definition fork_main : U unit :=
  pid ← call_syscall_fork;
  if pid =? 0 then
    call_syscall_yield;;
    fork_receive 5;;
    call_syscall_exit
  else
    say_line "[SON] Sending message to SON";;
    fork_send pid [lit "hello"; lit "world"; lit "demoos"; lit "is"; lit "great!"];;
    say_line "[SON] I sent all the messages";;
    call_syscall_exit.

(** The endless loop of the son, [rounds] of it. *)
Fixpoint signals_loop (rounds : nat) : U unit :=
  match rounds with
  | O => out_of_fuel
  | S rounds' =>
      say_line "[SON] I am the son and I'm using the CPU just for fun";;
      call_syscall_yield;;
      signals_loop rounds'
  end.
Definition signals_main (rounds : nat) : U unit :=
  pid ← call_syscall_fork;
  if pid =? 0 then
    say_line "[SON] Started...";;
    signals_loop rounds
  else
    call_syscall_yield;;
    _ ← call_syscall_send_signal pid SIGNAL_KILL;
    say_line "[FATHER] I terminate my son.";;
    call_syscall_exit.

(** ** The tests of the scheduling algorithms *)

(** [for (int i = 0; ..)] with a fork each: the [i]-th child runs [child i] and exits, the
    parent goes on with [created i pid].  The result is [pids], or [None] in a child. *)
Fixpoint fork_loop (n : nat) (i : Z) (child : Z → U unit) (created : Z → Z → U unit) (pids : list Z) : U (option (list Z)) :=
  match n with
  | O => mret (Some pids)
  | S n' =>
      pid ← call_syscall_fork;
      if pid =? 0 then child i;; mret None else
      created i pid;;
      fork_loop n' (i + 1) child created (pids ++ [pid])
  end.
Definition forked (children : U (option (list Z))) (parent : list Z → U unit) : U unit :=
  pids ← children;
  match pids with None => mret tt | Some pids => parent pids end.
Definition wait_each (pids : list Z) : U unit := wait_all (Some <$> pids).
Definition go (pids : list Z) : U unit := foldr (λ pid k, _ ← call_syscall_send_message pid (lit "GO"); k) (mret tt) pids.

(** *** test_fcfs.c *)
Definition fcfs_child (parent_pid i : Z) : U unit :=
  let my_id := i + 1 in
  say "[FIGLIO ";; print my_id;; say_line "] START";;
  burn_cpu_ms burning 300;;
  send_number parent_pid my_id;;
  say "[FIGLIO ";; print my_id;; say_line "] END";;
  call_syscall_exit.
Fixpoint fcfs_receive (n : nat) (i : Z) (pass : bool) : U bool :=
  match n with
  | O => mret pass
  | S n' =>
      body ← receive;
      finished ← defined (str_to_num body);
      say "[TEST FCFS] completato il figlio ";; print finished;; say_line "";;
      fcfs_receive n' (i + 1) (if negb (finished =? i + 1) then false else pass)
  end.
Definition fcfs_main : U unit :=
  parent_pid ← call_syscall_get_pid;
  say_line "[TEST FCFS] 3 figli CPU-bound creati in ordine 1, 2, 3";;
  forked (fork_loop 3 0 (fcfs_child parent_pid) (λ _ _, mret tt) []) (λ pids,
    pass ← fcfs_receive 3 0 true;
    wait_each pids;;
    (if pass : bool then say_line "[TEST FCFS] PASS: completamento nell'ordine di creazione"
     else say_line "[TEST FCFS] FAIL: ordine diverso da quello di creazione");;
    call_syscall_exit).

(** *** test_rr.c *)
Fixpoint rr_markers (n : nat) (marker : list Z) : U unit :=
  match n with
  | O => mret tt
  | S n' => burn_cpu_ms burning 150;; call_syscall_write marker;; rr_markers n' marker
  end.
Definition rr_child (i : Z) : U unit :=
  let marker := <[1%nat := u8 (65 + i)]> (lit "[A]") in
  rr_markers 10 marker;;
  say_line "";;
  call_syscall_write marker;;
  say_line " fine";;
  call_syscall_exit.
Definition rr_main : U unit :=
  say_line "[TEST RR] quattro figli CPU-bound: attesi [A] [B] [C] [D] alternati";;
  forked (fork_loop 4 0 rr_child (λ _ _, mret tt) []) (λ pids,
    wait_each pids;;
    say_line "[TEST RR] completato: verificare l'alternanza dei marcatori";;
    call_syscall_exit).

(** *** test_aging.c and test_mlq.c: two children that wait for the go *)
Definition set_param (param : Z) (value : Z → Z) (i pid : Z) : U unit :=
  _ ← call_syscall_set_sched_param pid param (value i); mret tt.
Definition aging_prio (i : Z) : Z := if i =? 0 then 1 else 4.
Definition aging_child (parent_pid i : Z) : U unit :=
  _ ← receive;
  burn_cpu_ms burning 2000;;
  send_number parent_pid (aging_prio i);;
  call_syscall_exit.
Definition aging_main : U unit :=
  parent_pid ← call_syscall_get_pid;
  forked (fork_loop 2 0 (aging_child parent_pid) (set_param SCHED_PARAM_PRIORITY aging_prio) []) (λ pids,
    say_line "[TEST AGING] stesso lavoro (2s), priorita' statiche 1 e 4";;
    go pids;;
    body ← receive;
    first ← defined (str_to_num body);
    say "[TEST AGING] primo a completare: priorita' ";; print first;; say_line "";;
    _ ← call_syscall_receive_message body;
    say_line "[TEST AGING] completato anche l'altro (niente starvation)";;
    (if first =? 4 then say_line "[TEST AGING] PASS: ha vinto la priorita' piu' alta"
     else say_line "[TEST AGING] FAIL: atteso il figlio a priorita' 4");;
    wait_each pids;;
    call_syscall_exit).

Definition mlq_level (i : Z) : Z := if i =? 0 then 3 else 0.
Definition mlq_child (parent_pid i : Z) : U unit :=
  _ ← receive;
  say "[FIGLIO L";; print (mlq_level i);; say_line "] START";;
  burn_cpu_ms burning 1000;;
  send_number parent_pid (mlq_level i);;
  call_syscall_exit.
Definition mlq_main : U unit :=
  parent_pid ← call_syscall_get_pid;
  forked (fork_loop 2 0 (mlq_child parent_pid) (set_param SCHED_PARAM_QUEUE_PRIORITY mlq_level) []) (λ pids,
    say_line "[TEST MLQ] livello 0 contro livello 3 (creato prima il 3)";;
    go pids;;
    body ← receive;
    first ← defined (str_to_num body);
    say "[TEST MLQ] primo a completare: livello ";; print first;; say_line "";;
    _ ← call_syscall_receive_message body;
    (if first =? 0 then say_line "[TEST MLQ] PASS: la coda a priorita' piu' alta vince"
     else say_line "[TEST MLQ] FAIL: ha completato prima il livello 3");;
    wait_each pids;;
    call_syscall_exit).

(** *** test_sjf.c *)
Fixpoint sjf_rounds (n : nat) (parent_pid my_id my_burst : Z) : U unit :=
  match n with
  | O => mret tt
  | S n' =>
      _ ← receive;
      burn_cpu_ms burning my_burst;;
      send_number parent_pid my_id;;
      sjf_rounds n' parent_pid my_id my_burst
  end.
Definition ROUNDS : nat := 4.
Definition sjf_child (parent_pid i : Z) : U unit :=
  sjf_rounds ROUNDS parent_pid (i + 1) (if i =? 0 then 20 else 300);;
  call_syscall_exit.
Fixpoint sjf_parent (n : nat) (r : Z) (pids : list Z) (last_first : Z) : U Z :=
  match n with
  | O => mret last_first
  | S n' =>
      go pids;;
      body ← receive;
      first ← defined (str_to_num body);
      let last_first := to_int first in
      say "[TEST SJF] round ";; print (r + 1);;
      say ": primo DONE dal figlio ";; print (u64 last_first);;
      (if last_first =? 1 then say_line " (burst corto)" else say_line " (burst lungo)");;
      _ ← call_syscall_receive_message body;
      sjf_parent n' (r + 1) pids last_first
  end.
Definition sjf_main : U unit :=
  parent_pid ← call_syscall_get_pid;
  say_line "[TEST SJF] burst 20ms vs 300ms: dopo il warmup vince il corto";;
  forked (fork_loop 2 0 (sjf_child parent_pid) (λ _ _, mret tt) []) (λ pids,
    last_first ← sjf_parent ROUNDS 0 pids 0;
    (if last_first =? 1 then say_line "[TEST SJF] PASS: il burst corto e' servito per primo"
     else say_line "[TEST SJF] FAIL: servito prima il burst lungo");;
    wait_each pids;;
    call_syscall_exit).

(** *** test_lottery.c *)

(** Rounds of work, which is only counted, until the window of three seconds is over. *)
Fixpoint lottery_work (fuel : nat) (start count : Z) : U Z :=
  match fuel with
  | O => out_of_fuel
  | S fuel' =>
      now ← call_syscall_get_time;
      if u64 (now - start) <? 3000000 then lottery_work fuel' start (u64 (count + 1)) else mret count
  end.
Definition lottery_tickets (my_id : Z) : Z := if my_id =? 3 then 40 else my_id * 10.
Definition lottery_child (parent_pid i : Z) : U unit :=
  let my_id := i + 1 in
  _ ← receive;
  start ← call_syscall_get_time;
  count ← lottery_work burning start 0;
  number ← defined (num_to_str (stack 24) count (drop 2 (stack 32)));
  _ ← call_syscall_send_message parent_pid (u8 (ZERO + my_id) :: 58 :: number);
  call_syscall_exit.
Fixpoint lottery_receive (n : nat) (counts : list Z) : U (list Z) :=
  match n with
  | O => mret counts
  | S n' =>
      body ← receive;
      c ← defined (head body);
      number ← defined (str_to_num (drop 2 body));
      counts ← defined (arr_set counts (c - ZERO) number);
      lottery_receive n' counts
  end.
Fixpoint lottery_report (ids : list Z) (counts : list Z) : U unit :=
  match ids with
  | [] => mret tt
  | id :: ids' =>
      count ← defined (arr_get counts id);
      say "[TEST LOTTERY] figlio ";; print id;;
      say " (biglietti ";; print (lottery_tickets id);; say "): ";;
      print count;; say_line " iterazioni";;
      lottery_report ids' counts
  end.
Definition lottery_main : U unit :=
  parent_pid ← call_syscall_get_pid;
  forked (fork_loop 3 0 (lottery_child parent_pid) (set_param SCHED_PARAM_TICKETS (λ i, lottery_tickets (i + 1))) []) (λ pids,
    say_line "[TEST LOTTERY] biglietti 10/20/40, finestra di 3 secondi";;
    go pids;;
    counts ← lottery_receive 3 [0; 0; 0; 0];
    lottery_report [1; 2; 3] counts;;
    c1 ← defined (arr_get counts 1);
    c2 ← defined (arr_get counts 2);
    c3 ← defined (arr_get counts 3);
    (if (c2 <? c3) && (c1 <? c2) then say_line "[TEST LOTTERY] PASS: i conteggi crescono con i biglietti"
     else say_line "[TEST LOTTERY] FAIL: conteggi non ordinati con i biglietti");;
    wait_each pids;;
    call_syscall_exit).

(** *** test_mlfq.c *)
Fixpoint mlfq_interactive (fuel : nat) (start : Z) : U unit :=
  match fuel with
  | O => out_of_fuel
  | S fuel' =>
      now ← call_syscall_get_time;
      if u64 (now - start) <? 4000000 then burn_cpu_ms burning 20;; call_syscall_yield;; mlfq_interactive fuel' start
      else mret tt
  end.
Definition mlfq_child (i : Z) : U unit :=
  (if i =? 0 then
     burn_cpu_ms burning 4000;;
     say_line "[A cpu-bound L0] fine"
   else if i =? 1 then
     start ← call_syscall_get_time;
     mlfq_interactive burning start;;
     say_line "[B interattivo L0] fine"
   else
     _ ← receive;
     burn_cpu_ms burning 2000;;
     say_line "[C cpu-bound L3] fine");;
  call_syscall_exit.
Definition mlfq_main : U unit :=
  say_line "[TEST MLFQ] osservare le tracce [MLFQ] del kernel";;
  forked (fork_loop 3 0 mlfq_child (λ _ _, mret tt) []) (λ pids,
    c ← defined (pids !! 2%nat);
    _ ← call_syscall_set_sched_param c SCHED_PARAM_QUEUE_PRIORITY 3;
    _ ← call_syscall_send_message c (lit "GO");
    wait_each pids;;
    say_line "[TEST MLFQ] completato: A demotato a catena, B rimasto in cima,";;
    say_line "[TEST MLFQ] C partito dal livello 3, boost ogni 3 secondi";;
    call_syscall_exit).
End programs.
