(* ===== verification/ShellPath.v ===== *)
(** * Paths and words of the shell

    What [normalize_path] and the splitting of a command line in src/app/shell.c compute:
    the path without its dots, and the words of the line. *)
From S2P Require Import Prelude.
From S2P Require Import CString.
From S2P Require Import Shell.
Local Open Scope Z_scope.

(** ** Paths as lists of components *)
Inductive component := Here | Up | Name (n : list Z).
Definition spelled (c : component) : list Z :=
  match c with Here => [DOT] | Up => [DOT; DOT] | Name n => n end.
Definition folders (cs : list component) : list Z := cs ≫= (λ c, spelled c ++ [SLASH]).
(** A name the loop copies: it has no slash and its last byte is no dot. *)
Record name_ok (n : list Z) : Prop := {
  nm_last : ∃ m c, n = m ++ [c] ∧ c ≠ DOT;
  nm_slash : SLASH ∉ n;
  nm_nul : no_nul n
}.
Definition component_ok (c : component) : Prop := match c with Name n => name_ok n | _ => True end.
(** The folders from the root to the one a path leads to, innermost first. *)
Fixpoint resolve (stack : list (list Z)) (cs : list component) : option (list (list Z)) :=
  match cs with
  | [] => Some stack
  | Here :: cs' => resolve stack cs'
  | Up :: cs' => match stack with [] => None | _ :: stack' => resolve stack' cs' end
  | Name n :: cs' => resolve (n :: stack) cs'
  end.
Definition folder_path (stack : list (list Z)) : list Z := SLASH :: folders (Name <$> reverse stack).

Lemma folder_path_cons n stack : folder_path (n :: stack) = folder_path stack ++ n ++ [SLASH].
Proof.
  unfold folder_path, folders. rewrite reverse_cons, fmap_app, bind_app. cbn. by rewrite app_nil_r.
Qed.

(** ** The loop *)

(** [path] holds the output, bytes that have been read, and the input. *)
Definition reading (path out input : list Z) (read write : Z) : Prop :=
  ∃ mid, path = out ++ mid ++ input ∧ write = Z.of_nat (length out) ∧ read = Z.of_nat (length out + length mid).

Lemma arr_get_app {A} (l1 l2 : list A) c i : i = Z.of_nat (length l1) → arr_get (l1 ++ c :: l2) i = Some c.
Proof. intros ->. rewrite arr_get_lookup, Nat2Z.id by lia. by rewrite list_lookup_middle. Qed.
Lemma reading_get path out input read write k c :
  reading path out input read write → input !! k = Some c → arr_get path (read + Z.of_nat k) = Some c.
Proof.
  intros (mid & -> & -> & ->) Hk. rewrite arr_get_lookup by lia.
  rewrite app_assoc, lookup_app_r by (rewrite length_app; lia). rewrite length_app. rewrite <- Hk. f_equal. lia.
Qed.
Lemma reading_get0 path out c input read write : reading path out (c :: input) read write → arr_get path read = Some c.
Proof. intros H. rewrite <- (Z.add_0_r read). by eapply (reading_get _ _ _ _ _ 0). Qed.
Lemma reading_skip path out skipped input read write :
  reading path out (skipped ++ input) read write → reading path out input (read + Z.of_nat (length skipped)) write.
Proof.
  intros (mid & -> & -> & ->). exists (mid ++ skipped). rewrite <- !app_assoc, length_app.
  split; [done|]. split; [done|lia].
Qed.
Lemma reading_copy path out c input read write :
  reading path out (c :: input) read write →
  ∃ path', arr_set path write c = Some path' ∧ length path' = length path ∧
    reading path' (out ++ [c]) input (read + 1) (write + 1).
Proof.
  intros (mid & -> & -> & ->). rewrite arr_set_in by (rewrite !length_app; cbn; lia). eexists. split; [done|].
  split; [by rewrite length_insert|]. rewrite Nat2Z.id, insert_app_r_alt, Nat.sub_diag by lia.
  destruct mid as [|m mid]; cbn [app list_insert insert].
  - exists []. rewrite length_app, <- app_assoc. cbn. split; [done|]. lia.
  - exists (mid ++ [c]). rewrite !length_app, <- !app_assoc. cbn. rewrite <- ?app_assoc. split; [done|]. lia.
Qed.
(** The copied byte is no dot, or one that starts neither ["./"] nor ["../"]. *)
Definition plain (c : Z) (input : list Z) : Prop :=
  c ≠ NUL ∧ (c = DOT → ∃ c1 input', input = c1 :: input' ∧ c1 ≠ SLASH ∧ c1 ≠ NUL ∧
    (c1 = DOT → ∃ c2 input'', input' = c2 :: input'' ∧ c2 ≠ SLASH ∧ c2 ≠ NUL)).
Lemma loop_copy fuel path out c input read write :
  reading path out (c :: input) read write → plain c input →
  ∃ path', normalize_loop (S fuel) path read write = normalize_loop fuel path' (read + 1) (write + 1) ∧
    length path' = length path ∧ reading path' (out ++ [c]) input (read + 1) (write + 1).
Proof.
  intros Hr [Hnul Hdot]. destruct (reading_copy _ _ _ _ _ _ Hr) as (path' & E & Hl & Hr').
  exists path'. split; [|done]. cbn [normalize_loop]. rewrite (reading_get0 _ _ _ _ _ _ Hr). cbn [mbind option_bind].
  rewrite (proj2 (Z.eqb_neq c NUL)) by done. destruct (Z.eqb_spec c DOT) as [->|Hne].
  - destruct (Hdot eq_refl) as (c1 & input1 & -> & Hs1 & Hn1 & H2).
    pose proof (reading_get _ _ _ _ _ 1 c1 Hr eq_refl) as E1. change (Z.of_nat 1) with 1 in E1. unfold ends_component. rewrite E1.
    cbn [mbind option_bind]. rewrite (proj2 (Z.eqb_neq c1 SLASH)), (proj2 (Z.eqb_neq c1 NUL)) by done. cbn.
    destruct (Z.eqb_spec c1 DOT) as [->|Hne1]; [|by rewrite E].
    destruct (H2 eq_refl) as (c2 & input2 & -> & Hs2 & Hn2).
    pose proof (reading_get _ _ _ _ _ 2 c2 Hr eq_refl) as E2. change (Z.of_nat 2) with 2 in E2. rewrite E2. cbn.
    rewrite (proj2 (Z.eqb_neq c2 SLASH)), (proj2 (Z.eqb_neq c2 NUL)) by done. cbn. by rewrite E.
  - cbn. by rewrite E.
Qed.
Definition all_plain (s rest : list Z) : Prop := ∀ s1 c s2, s = s1 ++ c :: s2 → plain c (s2 ++ rest).
Lemma loop_copies fuel path out s rest read write :
  reading path out (s ++ rest) read write → all_plain s rest →
  ∃ path', normalize_loop (length s + fuel) path read write =
      normalize_loop fuel path' (read + Z.of_nat (length s)) (write + Z.of_nat (length s)) ∧
    length path' = length path ∧
    reading path' (out ++ s) rest (read + Z.of_nat (length s)) (write + Z.of_nat (length s)).
Proof.
  revert path out read write. induction s as [|c s IH]; intros path out read write Hr Hp.
  - exists path. rewrite !Z.add_0_r, app_nil_r. done.
  - destruct (loop_copy (length s + fuel) _ _ _ _ _ _ Hr) as (path1 & E1 & L1 & R1); [by apply (Hp [])|].
    destruct (IH _ _ _ _ R1) as (path2 & E2 & L2 & R2).
    { intros s1 c' s2 ->. by apply (Hp (c :: s1)). }
    exists path2. cbn [length plus]. rewrite E1, E2. rewrite <- app_assoc in R2.
    replace (read + Z.of_nat (S (length s))) with (read + 1 + Z.of_nat (length s)) by lia.
    replace (write + Z.of_nat (S (length s))) with (write + 1 + Z.of_nat (length s)) by lia.
    split; [done|]. split; [congruence|exact R2].
Qed.
Lemma name_plain n rest : name_ok n → all_plain n rest.
Proof.
  intros [(m & c & -> & Hc) Hs Hn] s1 b s2 E.
  assert (Hin : ∀ z, z ∈ b :: s2 → z ≠ SLASH ∧ z ≠ NUL).
  { intros z Hz. assert (z ∈ m ++ [c]) by (rewrite E; apply elem_of_app; by right).
    split; intros ->; [by apply Hs|by apply Hn]. }
  assert (Hlast : ∀ t z, m ++ [c] = t ++ [z] → z ≠ DOT) by (intros t z [_ [= <-]]%app_inj_tail; done).
  split; [by apply (Hin b); left|]. intros ->. destruct s2 as [|c1 s2]; [by destruct (Hlast _ _ E)|].
  exists c1, (s2 ++ rest). split; [done|]. split; [apply (Hin c1); right; left|]. split; [apply (Hin c1); right; left|].
  intros ->. destruct s2 as [|c2 s2]; [destruct (Hlast (s1 ++ [DOT]) DOT); [by rewrite <- app_assoc|done]|].
  exists c2, (s2 ++ rest). split; [done|]. by split; apply (Hin c2); right; right; left.
Qed.
Lemma slash_plain rest : all_plain [SLASH] rest.
Proof. intros s1 c s2 E. destruct s1 as [|? [|]]; simplify_eq/=. by split. Qed.

(** *** Dots *)
(** What ends a component: a slash, which is read too, or the end of the path. *)
Inductive component_end : list Z → list Z → nat → Prop :=
  | slash_end rest : component_end (SLASH :: rest) rest 1
  | path_end rest : component_end (NUL :: rest) (NUL :: rest) 0.
Lemma loop_here fuel path out input rest k read write :
  reading path out (DOT :: input) read write → component_end input rest k →
  normalize_loop (S fuel) path read write = normalize_loop fuel path (read + Z.of_nat (1 + k)) write ∧
  reading path out rest (read + Z.of_nat (1 + k)) write.
Proof.
  intros Hr He. cbn [normalize_loop]. rewrite (reading_get0 _ _ _ _ _ _ Hr). cbn [mbind option_bind].
  change (DOT =? NUL) with false. change (DOT =? DOT) with true. cbv iota. unfold ends_component, skip.
  destruct He as [rest|rest]; pose proof (reading_get _ _ _ _ _ 1 _ Hr eq_refl) as E1;
    change (Z.of_nat 1) with 1 in E1; rewrite E1; cbn [mbind option_bind].
  - split; [done|]. by apply (reading_skip _ _ [DOT; SLASH]).
  - split; [done|]. by apply (reading_skip _ _ [DOT]).
Qed.
Lemma back_up_spec fuel path a n rest :
  path = a ++ n ++ rest → (a = [] ∨ ∃ a', a = a' ++ [SLASH]) → SLASH ∉ n → (length n ≤ fuel)%nat →
  back_up fuel path (Z.of_nat (length a + length n)) = Some (Z.of_nat (length a)).
Proof.
  intros -> Ha. revert fuel rest. induction n as [|c n IH] using rev_ind; intros fuel rest Hn Hl.
  - rewrite Nat.add_0_r. destruct fuel as [|fuel]; [done|]. cbn [back_up].
    destruct Ha as [->|[a' ->]]; [done|]. rewrite length_app. cbn [length].
    destruct (Z.ltb_spec 0 (Z.of_nat (length a' + 1))); [|lia]. rewrite <- app_assoc. cbn [app].
    rewrite (arr_get_app a') by lia. done.
  - rewrite length_app in *. cbn [length] in *. destruct fuel as [|fuel]; [lia|]. cbn [back_up].
    destruct (Z.ltb_spec 0 (Z.of_nat (length a + (length n + 1)))); [|lia].
    assert (E : a ++ (n ++ [c]) ++ rest = (a ++ n) ++ c :: rest) by by rewrite <- !app_assoc.
    rewrite E. rewrite (arr_get_app (a ++ n)) by (rewrite length_app; lia). cbn [mbind option_bind].
    rewrite (proj2 (Z.eqb_neq c SLASH)) by set_solver.
    replace (Z.of_nat (length a + (length n + 1)) - 1) with (Z.of_nat (length a + length n)) by lia.
    rewrite <- app_assoc. apply IH; [set_solver|lia].
Qed.
Lemma loop_up fuel path a n input rest k read write :
  reading path (a ++ n ++ [SLASH]) (DOT :: DOT :: input) read write → component_end input rest k →
  (a = [] ∨ ∃ a', a = a' ++ [SLASH]) → SLASH ∉ n →
  normalize_loop (S fuel) path read write = normalize_loop fuel path (read + Z.of_nat (2 + k)) (Z.of_nat (length a)) ∧
  reading path a rest (read + Z.of_nat (2 + k)) (Z.of_nat (length a)).
Proof.
  intros Hr He Ha Hn. assert (Hpath : path = a ++ n ++ drop (length a + length n) path ∧
    write = Z.of_nat (length a + length n) + 1 ∧ (length n ≤ length path)%nat).
  { destruct Hr as (mid & -> & -> & _). rewrite !length_app. cbn [length]. split; [|split; lia].
    rewrite <- !app_assoc, (app_assoc a n). rewrite drop_app_length' by (rewrite length_app; lia). by rewrite <- !app_assoc. }
  destruct Hpath as (Ep & Ew & Hl).
  assert (Hb : back_up (length path) path (write - 1) = Some (Z.of_nat (length a))).
  { rewrite Ew, Z.add_simpl_r. eapply back_up_spec; [exact Ep|done|done|done]. }
  assert (Hk : ∀ skipped, DOT :: DOT :: input = skipped ++ rest →
    reading path a rest (read + Z.of_nat (length skipped)) (Z.of_nat (length a))).
  { intros skipped E. rewrite E in Hr. apply reading_skip in Hr. destruct Hr as (mid & -> & _ & Hread).
    exists ((n ++ [SLASH]) ++ mid). rewrite Hread, !length_app, <- !app_assoc. cbn. split; [done|]. split; [done|lia]. }
  cbn [normalize_loop]. rewrite (reading_get0 _ _ _ _ _ _ Hr). cbn [mbind option_bind].
  change (DOT =? NUL) with false. change (DOT =? DOT) with true. cbv iota. unfold ends_component, skip.
  pose proof (reading_get _ _ _ _ _ 1 DOT Hr eq_refl) as E1. change (Z.of_nat 1) with 1 in E1.
  rewrite E1. cbn [mbind option_bind]. change (DOT =? SLASH) with false. change (DOT =? NUL) with false.
  change (DOT =? DOT) with true. cbn [orb].
  destruct He as [rest|rest]; pose proof (reading_get _ _ _ _ _ 2 _ Hr eq_refl) as E2;
    change (Z.of_nat 2) with 2 in E2; rewrite E2; cbn [mbind option_bind].
  - change ((SLASH =? SLASH) || (SLASH =? NUL)) with true. change (SLASH =? SLASH) with true. cbv iota. rewrite Hb.
    split; [done|]. by apply (Hk [DOT; DOT; SLASH]).
  - change ((NUL =? SLASH) || (NUL =? NUL)) with true. change (NUL =? SLASH) with false. cbv iota. rewrite Hb.
    split; [done|]. by apply (Hk [DOT; DOT]).
Qed.

(** *** Whole paths *)
Lemma folder_path_end stack : ∃ a', folder_path stack = a' ++ [SLASH].
Proof.
  destruct stack as [|n stack]; [by exists []|]. rewrite folder_path_cons. exists (folder_path stack ++ n). by rewrite <- app_assoc.
Qed.
Lemma loop_folders cs stack stack' fuel path rest read write :
  resolve stack cs = Some stack' → Forall component_ok cs → Forall name_ok stack → (length (folders cs) ≤ fuel)%nat →
  reading path (folder_path stack) (folders cs ++ rest) read write →
  ∃ fuel' path' read' write', normalize_loop fuel path read write = normalize_loop fuel' path' read' write' ∧
    (fuel - length (folders cs) ≤ fuel')%nat ∧ length path' = length path ∧ Forall name_ok stack' ∧
    reading path' (folder_path stack') rest read' write'.
Proof.
  revert stack fuel path read write. induction cs as [|c cs IH]; intros stack fuel path read write Hres Hok Hst Hf Hr.
  { injection Hres as <-. exists fuel, path, read, write. rewrite Nat.sub_0_r. by split_and!. }
  apply Forall_cons in Hok as [Hc Hok]. unfold folders in Hf, Hr |- *. rewrite bind_cons in Hf, Hr |- *.
  fold (folders cs) in Hf, Hr |- *. rewrite !length_app in Hf |- *. rewrite <- !app_assoc in Hr. cbn [length] in Hf |- *.
  destruct c as [| |n]; cbn [resolve spelled] in *.
  - destruct fuel as [|fuel]; [cbn in Hf; lia|]. cbn [app] in Hr.
    destruct (loop_here fuel _ _ _ _ 1 _ _ Hr (slash_end _)) as [E R]. rewrite E. cbn [length] in *.
    destruct (IH stack fuel _ _ _ Hres Hok Hst ltac:(lia) R) as (f' & p' & r' & w' & E' & Hf' & ?).
    exists f', p', r', w'. rewrite E'. split; [done|]. split; [lia|done].
  - destruct stack as [|n stack]; [done|]. apply Forall_cons in Hst as [Hn Hst]. rewrite folder_path_cons in Hr.
    destruct fuel as [|fuel]; [cbn in Hf; lia|]. cbn [app] in Hr.
    destruct (loop_up fuel _ _ _ _ _ 1 _ _ Hr (slash_end _) (or_intror (folder_path_end _)) (nm_slash _ Hn)) as [E R].
    rewrite E. cbn [length] in *. destruct (IH stack fuel _ _ _ Hres Hok Hst ltac:(lia) R) as (f' & p' & r' & w' & E' & Hf' & ?).
    exists f', p', r', w'. rewrite E'. split; [done|]. split; [lia|done].
  - cbn in Hc. assert (Ef : fuel = (length n + (1 + (fuel - length n - 1)))%nat) by lia. set (f0 := (fuel - length n - 1)%nat) in *.
    destruct (loop_copies (1 + f0) _ _ _ _ _ _ Hr (name_plain _ _ Hc)) as (p1 & E1 & L1 & R1).
    destruct (loop_copies f0 _ _ _ _ _ _ R1 (slash_plain _)) as (p2 & E2 & L2 & R2). cbn [length plus] in E2.
    cbn [length] in R2. rewrite <- app_assoc, <- folder_path_cons in R2.
    destruct (IH (n :: stack) f0 _ _ _ Hres Hok (Forall_cons_2 _ _ _ Hc Hst) ltac:(lia) R2)
      as (f' & p' & r' & w' & E' & Hf' & Hl' & ?).
    exists f', p', r', w'. replace (normalize_loop fuel path read write) with (normalize_loop (length n + (1 + f0)) path read write) by (by rewrite <- Ef).
    cbn [plus] in E1 |- *. rewrite E1, E2, E'.
    split; [done|]. split; [lia|]. split; [congruence|done].
Qed.
(** What a path with a last component, which no slash follows, leads to. *)
Definition destination (cs : list component) (last : option component) : option (list Z) :=
  stack ← resolve [] cs;
  match last with
  | None | Some Here => Some (folder_path stack)
  | Some Up => match stack with [] => None | _ :: stack => Some (folder_path stack) end
  | Some (Name n) => Some (folder_path stack ++ n)
  end.
Definition absolute (cs : list component) (last : option component) : list Z :=
  SLASH :: folders cs ++ default [] (spelled <$> last).
Lemma loop_end fuel path out rest read write :
  reading path out (NUL :: rest) read write → normalize_loop (S fuel) path read write = Some (path, write).
Proof. intros Hr. cbn [normalize_loop]. by rewrite (reading_get0 _ _ _ _ _ _ Hr). Qed.
Lemma normalize_finish path out rest read write :
  reading path out (NUL :: rest) read write → out ≠ [] →
  ∃ rest', (path ← arr_set path write NUL;
    if write =? 0 then path ← arr_set path 0 SLASH; arr_set path 1 NUL else Some path) = Some (out ++ NUL :: rest') ∧
    length (out ++ NUL :: rest') = length path.
Proof.
  intros Hr Hne. destruct (reading_copy _ _ _ _ _ _ Hr) as (p' & E & L & (mid & Ep & _)). rewrite E. cbn [mbind option_bind].
  destruct Hr as (_ & _ & -> & _). destruct (Z.eqb_spec (Z.of_nat (length out)) 0); [destruct out; [done|cbn in *; lia]|].
  exists (mid ++ rest). rewrite Ep, <- app_assoc in *. by rewrite <- L.
Qed.
Lemma normalize_spec cs last out rest :
  destination cs last = Some out → Forall component_ok cs → (∀ c, last = Some c → component_ok c) →
  ∃ rest', normalize_path (absolute cs last ++ NUL :: rest) = Some (out ++ NUL :: rest') ∧
    length (out ++ NUL :: rest') = length (absolute cs last ++ NUL :: rest).
Proof.
  intros Hd Hok Hlast. unfold destination in Hd. destruct (resolve [] cs) as [stack|] eqn:Hres; [|done]. cbn in Hd.
  set (path := absolute cs last ++ NUL :: rest). unfold normalize_path.
  assert (R0 : reading path [] ([SLASH] ++ folders cs ++ default [] (spelled <$> last) ++ NUL :: rest) 0 0).
  { exists []. unfold path, absolute. cbn. by rewrite <- app_assoc. }
  assert (Hlen : length path = S (length (folders cs) + length (default [] (spelled <$> last)) + S (length rest))).
  { unfold path, absolute. rewrite !length_app. cbn. rewrite length_app. lia. }
  destruct (loop_copies (length path) _ _ _ _ _ _ R0 (slash_plain _)) as (p1 & E1 & L1 & R1). cbn [length plus] in E1, R1. rewrite E1.
  change ([] ++ [SLASH]) with (folder_path []) in R1.
  destruct (loop_folders cs [] stack (length path) _ _ _ _ Hres Hok ltac:(done) ltac:(lia) R1)
    as (f' & p2 & r' & w' & E2 & Hf & L2 & Hst & R2). rewrite E2.
  assert (Hout : out ≠ []).
  { destruct last as [[| |n]|]; [| | |]; [by injection Hd as <-|destruct stack; [done|by injection Hd as <-]|by injection Hd as <-..]. }
  enough (∃ p3 r3 w3, normalize_loop f' p2 r' w' = Some (p3, w3) ∧ length p3 = length path ∧ reading p3 out (NUL :: rest) r3 w3)
    as (p3 & r3 & w3 & E3 & L3 & R3).
  { rewrite E3. cbn [mbind option_bind]. destruct (normalize_finish _ _ _ _ _ R3 Hout) as (rest' & E4 & L4).
    exists rest'. split; [exact E4|congruence]. }
  destruct last as [[| |n]|]; cbn [from_option id fmap option_fmap option_map spelled length] in *.
  - injection Hd as <-. destruct f' as [|[|f']]; try lia.
    destruct (loop_here (S f') _ _ _ _ 0 _ _ R2 (path_end _)) as [E3 R3]. rewrite E3.
    eexists _, _, _. split; [by eapply loop_end|]. split; [congruence|exact R3].
  - destruct stack as [|n stack]; [done|]. injection Hd as <-. apply Forall_cons in Hst as [Hn Hst].
    rewrite folder_path_cons in R2. destruct f' as [|[|f']]; try lia.
    destruct (loop_up (S f') _ _ _ _ _ 0 _ _ R2 (path_end _) (or_intror (folder_path_end _)) (nm_slash _ Hn)) as [E3 R3].
    rewrite E3. eexists _, _, _. split; [by eapply loop_end|]. split; [congruence|exact R3].
  - injection Hd as <-. pose proof (Hlast _ eq_refl) as Hn. cbn in Hn.
    assert (Ef : f' = (length n + S (f' - length n - 1))%nat) by lia. rewrite Ef.
    destruct (loop_copies (S (f' - length n - 1)) _ _ _ _ _ _ R2 (name_plain _ _ Hn)) as (p3 & E3 & L3 & R3). rewrite E3.
    eexists _, _, _. split; [by eapply loop_end|]. split; [congruence|exact R3].
  - injection Hd as <-. destruct f' as [|f']; [lia|].
    eexists _, _, _. split; [by eapply loop_end|]. split; [congruence|exact R2].
Qed.

(** *** Above the root *)
Lemma back_up_negative fuel path write : write ≤ 0 → back_up fuel path write = Some write.
Proof. intros H. destruct fuel; cbn [back_up]; [done|]. destruct (Z.ltb_spec 0 write); [lia|done]. Qed.
(** Once [write] is before the array, what follows is undefined. *)
Lemma loop_escaped fuel path read write path' write' :
  write < 0 → normalize_loop fuel path read write = Some (path', write') → write' < 0.
Proof.
  revert path read write. induction fuel as [|fuel IH]; intros path read write Hw; cbn [normalize_loop]; [done|].
  destruct (arr_get path read) as [c|]; [|done]. cbn [mbind option_bind]. destruct (c =? NUL); [by intros [= <- <-]|].
  intros H. apply bind_Some in H as (dot & _ & H). destruct dot.
  - apply bind_Some in H as (n & _ & H). by eapply IH.
  - apply bind_Some in H as (second & _ & H). apply bind_Some in H as (dotdot & _ & H). destruct dotdot.
    + apply bind_Some in H as (n & _ & H). rewrite back_up_negative in H by lia. cbn in H. eapply IH; [|exact H]. lia.
    + rewrite arr_set_out in H by lia. done.
Qed.
Lemma normalize_escapes rest : normalize_path (absolute [Up; Up] None ++ rest) = None.
Proof.
  destruct (normalize_path _) as [p|] eqn:E; [|done]. exfalso. unfold normalize_path in E.
  apply bind_Some in E as ([p' w] & E & E').
  assert (w < 0); [|rewrite arr_set_out in E' by lia; done].
  set (path := absolute [Up; Up] None ++ rest) in *.
  assert (R0 : reading path [] ([SLASH] ++ DOT :: DOT :: SLASH :: DOT :: DOT :: SLASH :: rest) 0 0) by by exists [].
  destruct (loop_copies (length path) _ _ _ _ _ _ R0 (slash_plain _)) as (p1 & E1 & L1 & R1). cbn [length plus] in E1, R1.
  rewrite E1 in E. cbn [app] in R1.
  assert (Hl : ∃ f, length path = S (S f)) by by (eexists; unfold path, absolute; cbn).
  destruct Hl as [f Hl]. rewrite Hl in E.
  destruct (loop_up (S f) p1 [] [] _ _ 1 _ _ R1 (slash_end _) (or_introl eq_refl) (not_elem_of_nil _)) as [E2 R2].
  rewrite E2 in E. cbn [length] in E, R2. set (r2 := 0 + Z.of_nat 1 + Z.of_nat (2 + 1)) in *. clearbody r2.
  change (Z.of_nat 0) with 0 in *. cbn [normalize_loop] in E. rewrite (reading_get0 _ _ _ _ _ _ R2) in E.
  cbn [mbind option_bind] in E. change (DOT =? NUL) with false in E. change (DOT =? DOT) with true in E. cbv iota in E.
  unfold ends_component in E. pose proof (reading_get _ _ _ _ _ 1 DOT R2 eq_refl) as E3. change (Z.of_nat 1) with 1 in E3.
  rewrite E3 in E. cbn [mbind option_bind] in E. change ((DOT =? SLASH) || (DOT =? NUL)) with false in E.
  change (DOT =? DOT) with true in E. cbv iota in E.
  pose proof (reading_get _ _ _ _ _ 2 SLASH R2 eq_refl) as E4. change (Z.of_nat 2) with 2 in E4. rewrite E4 in E.
  cbn [mbind option_bind] in E. change ((SLASH =? SLASH) || (SLASH =? NUL)) with true in E. cbv iota in E. unfold skip in E.
  rewrite E4 in E. cbn [mbind option_bind] in E. rewrite back_up_negative in E by done. cbn [mbind option_bind] in E.
  eapply loop_escaped; [|exact E]. done.
Qed.

(** ** Words *)
Fixpoint words (ws : list (list Z)) : list Z :=
  match ws with
  | [] => []
  | w :: ws' => w ++ (if ws' is [] then [] else SPACE :: words ws')
  end.
Record word_ok (w : list Z) : Prop := {
  wd_line : one_line w;
  wd_space : SPACE ∉ w;
  wd_some : w ≠ []
}.
Lemma one_line_no_nul w : one_line w → no_nul w.
Proof. intros H Hin. unfold one_line in H. rewrite Forall_forall in H. specialize (H _ Hin). by vm_compute in H. Qed.
Lemma words_line ws : Forall word_ok ws → one_line (words ws).
Proof.
  induction 1 as [|w ws Hw Hws IH]; cbn [words]; [constructor|]. apply Forall_app. split; [apply Hw|].
  destruct ws; [constructor|]. by constructor.
Qed.
(** A word in an array of 64 bytes that was cleared. *)
Definition row (w : list Z) : list Z := w ++ replicate (64 - length w) 0.
Lemma zeroed_length : length zeroed = 64%nat.
Proof. reflexivity. Qed.
Lemma zeroed_after n : (n ≤ 64)%nat → drop n zeroed = replicate (64 - n) 0.
Proof. intros H. unfold zeroed. rewrite drop_replicate. done. Qed.
Lemma split_arguments_words n ws array rest :
  array = words ws ++ NUL :: rest → length array = 64%nat → Forall word_ok ws →
  split_arguments n array = Some (row <$> take n ws).
Proof.
  revert ws array rest. induction n as [|n IH]; intros ws array rest -> Hl Hws; cbn [split_arguments]; [done|].
  rewrite strlen_terminated by by apply one_line_no_nul, words_line.
  cbn [mbind option_bind]. destruct ws as [|w ws]; [done|]. pose proof Hws as [Hw Hws']%Forall_cons.
  assert (Hne : (0 < length w)%nat) by (pose proof (wd_some _ Hw); destruct w; [done|cbn; lia]).
  cbn [words] in *. rewrite !length_app in Hl. cbn [length] in Hl. rewrite length_app.
  destruct (Z.leb_spec (Z.of_nat (length w + length (if ws is [] then [] else SPACE :: words ws))) 0); [lia|].
  destruct ws as [|w' ws].
  - cbn [app length] in *. rewrite app_nil_r. rewrite (strsplit_none w SPACE NUL rest) by
      (try apply Hw; try done; rewrite zeroed_length; lia). cbn [mbind option_bind].
    assert (E : strcpy (w ++ NUL :: rest) zeroed = Some ([] ++ NUL :: drop 1 (w ++ NUL :: rest))).
    { apply (strcpy_terminated _ [] (replicate 63 0)); [apply not_elem_of_nil|]. rewrite length_app. cbn. lia. }
    rewrite E. cbn [mbind option_bind app]. rewrite (IH [] _ (drop 1 (w ++ NUL :: rest))); [|done| |constructor].
    + cbn. rewrite take_nil. cbn. unfold row. rewrite zeroed_after by lia. done.
    + cbn [length]. rewrite length_drop, length_app. cbn [length]. lia.
  - assert (Hw2 : one_line (words (w' :: ws))) by by apply words_line.
    remember (words (w' :: ws)) as b eqn:Eb. rewrite <- app_assoc. cbn [app length] in *.
    rewrite (strsplit_spec w SPACE b NUL rest) by
      (try apply Hw; try done; rewrite zeroed_length; lia). cbn [mbind option_bind].
    rewrite (zeroed_after (length b)) by lia.
    assert (Ez : replicate (64 - length b) 0 = NUL :: replicate (63 - length b) 0)
      by (by replace (64 - length b)%nat with (S (63 - length b)) by lia).
    rewrite Ez, strcpy_terminated; [|by apply one_line_no_nul|rewrite length_app; cbn; rewrite length_app; cbn; lia].
    cbn [mbind option_bind]. rewrite (IH (w' :: ws) _ (drop (S (length b)) (w ++ SPACE :: b ++ NUL :: rest))); [|by rewrite Eb| |done].
    + cbn [fmap option_fmap option_map take list_fmap]. f_equal. f_equal. unfold row. rewrite (zeroed_after (S (length w))) by lia.
      by replace (64 - length w)%nat with (S (64 - S (length w))) by lia.
    + repeat (rewrite ?length_app, ?length_drop; cbn [length]). lia.
Qed.
