(* ===== verification/FileSpec.v ===== *)
(** * The table of open files

    What the system calls on files leave alone: a descriptor of the current process that is
    in use stays in use, whatever is called.  The steps of the calls on the kernel, the FAT
    library and the structures in pages. *)
From S2P Require Import Prelude.
From S2P Require Import Process.
From S2P Require Import Mm.
From S2P Require Import CString.
From S2P Require Import Syscalls.
From S2P Require Import FatNames.
From S2P Require Import FatTable.
From S2P Require Import FatFile.
From S2P Require Import FatMount.
From S2P Require Import FatDir.
From S2P Require Import FatCalls.
From S2P Require Import Filesystem.
From S2P Require Import FileCalls.
Local Open Scope Z_scope.
Local Open Scope fat_scope.

(** ** Steps *)
Section steps.
Implicit Types (w : world).

Lemma wp_on_kernel {A} (c : K A) (Q : A → world → Prop) w :
  wp c (λ a k, Q a (set_kern k w)) (kern w) → wp (on_kernel c) Q w.
Proof. unfold wp, on_kernel. by destruct (c (kern w)). Qed.
Lemma wp_on_library {A} (c : L A) (Q : A → world → Prop) w :
  wp c (λ a l, Q a (set_lib l w)) (lib w) → wp (on_library c) Q w.
Proof. unfold wp, on_library. by destruct (c (lib w)). Qed.
Lemma wp_load_object {A} (view : object → option A) address o a (Q : A → world → Prop) w :
  objects w !! address = Some o → view o = Some a → Q a w → wp (load_object view address) Q w.
Proof. intros Ho Hv HQ. unfold wp, load_object. rewrite Ho. cbn. by rewrite Hv. Qed.
Lemma wlp_load_object {A} (view : object → option A) address (Q : A → world → Prop) w :
  (∀ o a, objects w !! address = Some o → view o = Some a → Q a w) → wlp (load_object view address) Q w.
Proof.
  intros HQ. unfold wlp, load_object. destruct (objects w !! address) as [o|] eqn:Ho; cbn; [|done].
  destruct (view o) as [a|] eqn:Hv; [|done]. by eapply HQ.
Qed.
End steps.

(** ** Descriptors in use *)

(** The current process, with the descriptors in use, is still there, and no structure is
    at address 0. *)
Record keeps (w w' : world) : Prop := {
  kp_current : current_process (kern w') = current_process (kern w);
  kp_null : objects w' !! 0 = None;
  kp_files : ∀ pcb, heap (kern w) !! current_process (kern w) = Some pcb →
    ∃ pcb', heap (kern w') !! current_process (kern w) = Some pcb' ∧ length (files pcb') = length (files pcb) ∧
      ∀ i a, files pcb !! i = Some (Some a) → ∃ a', files pcb' !! i = Some (Some a')
}.
Definition preserving {A} (m : W A) : Prop := ∀ w, objects w !! 0 = None → wlp m (λ _, keeps w) w.

Section preserving.
Implicit Types (w : world).

Lemma keeps_refl w : objects w !! 0 = None → keeps w w.
Proof. intros H. split; [done|done|]. intros pcb Hp. exists pcb. naive_solver. Qed.
Lemma keeps_trans w1 w2 w3 : keeps w1 w2 → keeps w2 w3 → keeps w1 w3.
Proof.
  intros [A1 A2 A3] [B1 B2 B3]. split; [congruence|done|]. intros pcb Hp.
  destruct (A3 pcb Hp) as (pcb2 & Hp2 & Hl2 & H2). rewrite A1 in B3.
  destruct (B3 pcb2 Hp2) as (pcb3 & Hp3 & Hl3 & H3). exists pcb3. split_and!; [done|congruence|].
  intros i a Hi. destruct (H2 i a Hi) as [a2 Ha2]. by apply (H3 i a2).
Qed.
Lemma keeps_frame w w' :
  heap (kern w') = heap (kern w) → current_process (kern w') = current_process (kern w) → objects w' !! 0 = None → keeps w w'.
Proof. intros Hh Hc Ho. split; [done|done|]. intros pcb Hp. exists pcb. rewrite Hh. naive_solver. Qed.

Lemma preserving_bind {A B} (m : W A) (k : A → W B) : preserving m → (∀ a, preserving (k a)) → preserving (m ≫= k).
Proof.
  intros Hm Hk w Hw. apply wlp_bind. eapply wlp_mono; [by apply Hm|]. intros a w1 H1.
  eapply wlp_mono; [apply Hk, H1|]. intros b w2. by apply keeps_trans.
Qed.
Lemma preserving_ret {A} (a : A) : preserving (mret a).
Proof. intros w Hw. by apply keeps_refl. Qed.
Lemma preserving_defined {A} (o : option A) : preserving (defined o).
Proof. intros w Hw. apply wlp_defined. intros a _. by apply keeps_refl. Qed.
Lemma preserving_when b (m : W unit) : preserving m → preserving (when b m).
Proof. destruct b; [done|]. intros _. apply preserving_ret. Qed.
Lemma preserving_kernel {A} (c : K A) :
  (∀ k, wlp c (λ _ k', heap k' = heap k ∧ current_process k' = current_process k) k) → preserving (on_kernel c).
Proof.
  intros Hc w Hw. specialize (Hc (kern w)). unfold wlp, on_kernel in *. destruct (c (kern w)); [|done..].
  by apply keeps_frame; destruct Hc.
Qed.
Lemma preserving_library {A} (c : L A) : preserving (on_library c).
Proof. intros w Hw. unfold wlp, on_library. destruct (c (lib w)); [|done..]. by apply keeps_frame. Qed.
Lemma preserving_load {A} (view : object → option A) address : preserving (load_object view address).
Proof. intros w Hw. apply wlp_load_object. intros. by apply keeps_refl. Qed.
Lemma preserving_store address o : address ≠ 0 → preserving (store_object address o).
Proof. intros Hne w Hw. apply keeps_frame; [done|done|]. cbn. by rewrite lookup_insert_ne. Qed.

(** The kernel calls. *)
Lemma load_frame {A} (c : K A) : (∀ k, match c k with Done _ k' => k' = k | _ => True end) →
  ∀ k, wlp c (λ _ k', heap k' = heap k ∧ current_process k' = current_process k) k.
Proof. intros H k. specialize (H k). unfold wlp. destruct (c k); [by subst|done..]. Qed.
Lemma preserving_load_current : preserving (on_kernel load_current).
Proof.
  apply preserving_kernel, load_frame. intros k. unfold load_current, mbind, M_bind, gets, load.
  by destruct (heap k !! current_process k).
Qed.
Lemma preserving_free_descriptor : preserving free_descriptor.
Proof.
  apply preserving_kernel, load_frame. intros k. unfold get_first_free_file_descriptor, mbind, M_bind, gets, load.
  by destruct (heap k !! current_process k).
Qed.
Lemma preserving_allocate : preserving (on_kernel allocate_kernel_page).
Proof.
  apply preserving_kernel. intros k. apply wp_wlp. unfold allocate_kernel_page. apply wp_bind, wp_get_free_page.
  destruct (free_index (mem k)); apply wp_ret; [by split|by split].
Qed.
Lemma preserving_free_page address : preserving (on_kernel (free_page address)).
Proof.
  apply preserving_kernel. intros k. unfold free_page. destruct (negb _); [by split|].
  apply wlp_bind. unfold memzero. cbn zeta. unfold wlp at 1, change_words, modify. cbn.
  case_decide; [by split|done].
Qed.
Lemma preserving_new_object : preserving new_object.
Proof.
  apply preserving_bind; [apply preserving_allocate|]. intros a. apply preserving_bind; [|intros; apply preserving_ret].
  destruct (Z.eqb_spec a 0); [apply preserving_ret|by apply preserving_store].
Qed.
Lemma preserving_free_object address : preserving (free_object address).
Proof.
  apply preserving_bind; [apply preserving_free_page|]. intros r. apply preserving_when.
  intros w Hw. apply keeps_frame; [done|done|]. cbn. by apply lookup_delete_None; auto.
Qed.
(** A structure that was read is at an address that is not 0. *)
Lemma preserving_with_object {A B} (view : object → option A) address (k : A → W B) :
  (address ≠ 0 → ∀ a, preserving (k a)) → preserving (a ← load_object view address; k a).
Proof.
  intros Hk w Hw. apply wlp_bind, wlp_load_object. intros o a Ho _. apply Hk; [|done].
  intros ->. congruence.
Qed.
End preserving.

(** ** The calls *)
Lemma wlp_set_resource file_descriptor a (Q : unit → world → Prop) w :
  (∀ pcb l, heap (kern w) !! current_process (kern w) = Some pcb →
     arr_set (files pcb) file_descriptor (if a =? 0 then None else Some a) = Some l →
     Q tt (set_kern (set_heap (<[current_process (kern w) := set_files l pcb]> (heap (kern w))) (kern w)) w)) →
  wlp (set_resource file_descriptor a) Q w.
Proof.
  intros HQ. unfold wlp, set_resource, mbind, M_bind, on_kernel, load_current, update_current, mbind, M_bind, gets, load, update.
  destruct (heap (kern w) !! current_process (kern w)) as [pcb|] eqn:Hp; [|done]. cbn.
  destruct (arr_set _ _ _) as [l|] eqn:Hl; [|done]. cbn. rewrite Hp. by apply (HQ pcb l).
Qed.
Lemma preserving_set_resource file_descriptor a : a ≠ 0 → preserving (set_resource file_descriptor a).
Proof.
  intros Hne w Hw. apply wlp_set_resource. intros pcb l Hp [Hi ->]%arr_set_Some. split; [done|done|].
  intros pcb' Hp'. rewrite Hp in Hp'. injection Hp' as <-. eexists. split; [apply lookup_insert_eq|].
  cbn [files set_files]. split; [apply length_insert|]. intros i b Hb.
  destruct (Z.eqb_spec a 0); [done|]. destruct (decide (i = Z.to_nat file_descriptor)) as [->|].
  - exists a. apply list_lookup_insert_eq. lia.
  - exists b. by rewrite list_lookup_insert_ne.
Qed.
Lemma preserving_bind_resource file_descriptor type structure :
  preserving (bind_resource file_descriptor type structure).
Proof.
  apply preserving_bind; [apply preserving_new_object|]. intros a. destruct (decide (a = 0)) as [->|Hne].
  - intros w Hw. apply wlp_bind, wlp_set_resource. intros pcb l _ _. apply wlp_bind, wlp_load_object.
    intros o r Ho. cbn in Ho. congruence.
  - apply preserving_bind; [by apply preserving_set_resource|]. intros _.
    apply preserving_with_object. intros _ r. by apply preserving_store.
Qed.

Create HintDb preserving.
#[export] Hint Resolve preserving_ret preserving_defined preserving_when preserving_library preserving_load
  preserving_store preserving_load_current preserving_free_descriptor preserving_new_object preserving_free_object
  preserving_bind_resource : preserving.
Ltac preserving :=
  repeat first
    [ progress (intros; cbn beta iota zeta)
    | solve [auto with preserving]
    | match goal with
      | |- preserving (load_object _ _ ≫= _) => apply preserving_with_object
      | |- preserving (_ ≫= _) => apply preserving_bind
      | |- preserving (if ?b then _ else _) => destruct b
      | |- preserving (match ?x with _ => _ end) => destruct x
      end ].

Lemma preserving_with_dir address c : preserving (with_dir address c).
Proof. unfold with_dir. preserving. Qed.
Lemma preserving_with_file {A} address (c : M session A) closed : preserving (with_file address c closed).
Proof. unfold with_file. preserving. Qed.
Lemma preserving_get_resource file_descriptor : preserving (get_resource file_descriptor).
Proof. unfold get_resource. preserving. Qed.
#[export] Hint Resolve preserving_with_dir preserving_with_file preserving_get_resource : preserving.
Lemma preserving_resource_of file_descriptor : preserving (resource_of file_descriptor).
Proof. unfold resource_of. preserving. Qed.
#[export] Hint Resolve preserving_resource_of : preserving.

(** The calls a process makes on its files. *)
Inductive file_call :=
  | CreateDir (path : list Z)
  | OpenDir (path : list Z)
  | OpenFile (path : list Z) (flags : Z)
  | CloseFile (file_descriptor : Z)
  | WriteFile (file_descriptor : Z) (buffer : list Z)
  | ReadFile (file_descriptor len : Z)
  | GetNextEntry (file_descriptor : Z) (entry : FatEntryInfo).
Definition run_call (stack : list Z) (c : file_call) : W Z :=
  match c with
  | CreateDir path => syscall_create_dir stack path
  | OpenDir path => syscall_open_dir stack path
  | OpenFile path flags => syscall_open_file stack path flags
  | CloseFile fd => syscall_close_file fd
  | WriteFile fd buffer => r ← syscall_write_file fd buffer; mret r.2
  | ReadFile fd len => r ← syscall_read_file fd len; mret r.2
  | GetNextEntry fd entry => r ← syscall_get_next_entry fd entry; mret r.2
  end.
Lemma run_call_preserving stack c : preserving (run_call stack c).
Proof.
  destruct c; cbn [run_call]; unfold syscall_create_dir, syscall_open_dir, syscall_open_file, syscall_close_file,
    syscall_write_file, syscall_read_file, syscall_get_next_entry; preserving.
Qed.
(** The results of the calls in order. *)
Fixpoint run_calls (stack : list Z) (cs : list file_call) : W (list Z) :=
  match cs with
  | [] => mret []
  | c :: cs' => r ← run_call stack c; rs ← run_calls stack cs'; mret (r :: rs)
  end.
Lemma run_calls_preserving stack cs : preserving (run_calls stack cs).
Proof.
  induction cs as [|c cs IH]; cbn [run_calls]; [apply preserving_ret|].
  apply preserving_bind; [apply run_call_preserving|]. intros r. apply preserving_bind; [done|]. intros. apply preserving_ret.
Qed.

(** With all descriptors in use there is none to give. *)
Lemma first_free_none n i l :
  (∀ j, i ≤ j < i + Z.of_nat n → ∃ a, arr_get l j = Some (Some a)) → first_free n i l = -1.
Proof.
  revert i. induction n as [|n IH]; intros i H; cbn [first_free]; [done|].
  destruct (H i) as [a ->]; [lia|]. apply IH. intros j Hj. apply H. lia.
Qed.
(** The descriptor found is the lowest that is free. *)
Lemma first_free_some n i l :
  let fd := first_free n i l in
  (fd = -1 ∧ ∀ j, i ≤ j < i + Z.of_nat n → arr_get l j ≠ Some None) ∨
  (i ≤ fd < i + Z.of_nat n ∧ arr_get l fd = Some None ∧ ∀ j, i ≤ j < fd → arr_get l j ≠ Some None).
Proof.
  cbn zeta. revert i. induction n as [|n IH]; intros i; cbn [first_free]; [left; split; [done|lia]|].
  assert (Hnext : arr_get l i ≠ Some None →
    (first_free n (i + 1) l = -1 ∧ ∀ j, i ≤ j < i + Z.of_nat (S n) → arr_get l j ≠ Some None) ∨
    (i ≤ first_free n (i + 1) l < i + Z.of_nat (S n) ∧ arr_get l (first_free n (i + 1) l) = Some None ∧
     ∀ j, i ≤ j < first_free n (i + 1) l → arr_get l j ≠ Some None)).
  { intros Hi. destruct (IH (i + 1)) as [[E H]|(E & H1 & H2)]; [left|right].
    - split; [done|]. intros j Hj. destruct (decide (j = i)) as [->|]; [done|]. apply H. lia.
    - split; [lia|]. split; [done|]. intros j Hj. destruct (decide (j = i)) as [->|]; [done|]. apply H2. lia. }
  destruct (arr_get l i) as [[a|]|] eqn:E; [by apply Hnext| |by apply Hnext].
  right. split; [lia|]. split; [done|]. lia.
Qed.
