(* ===== verification/FatSlots.v ===== *)
(** * FAT32: a directory as a list of entries

    The sectors of the chain of a directory hold its entries, 32 bytes each.  Walking the
    entries with [dir_next] goes through this list of slots in order, to the end of the
    chain, and reading through the buffer gives the bytes of the slot. *)
From S2P Require Import Prelude.
From S2P Require Import CString.
From S2P Require Import FatNames.
From S2P Require Import FatTable.
From S2P Require Import FatCache.
From S2P Require Import FatChain.
From S2P Require Import FatFile.
From S2P Require Import FatData.
Local Open Scope Z_scope.
Local Open Scope fat_scope.

(** ** Stepping a counter in two digits *)
Lemma digit_step n m : (S (n mod m) < m)%nat → (S n / m = n / m ∧ S n mod m = S (n mod m))%nat.
Proof.
  intros H. pose proof (Nat.div_mod_eq n m). split; symmetry.
  - apply (Nat.div_unique _ _ _ (S (n mod m))); lia.
  - apply (Nat.mod_unique _ _ (n / m)); lia.
Qed.
Lemma digit_carry n m : (S (n mod m) = m)%nat → (S n / m = S (n / m) ∧ S n mod m = 0)%nat.
Proof.
  intros H. pose proof (Nat.div_mod_eq n m). split; symmetry.
  - apply (Nat.div_unique _ _ _ 0); lia.
  - apply (Nat.mod_unique _ _ (S (n / m))); lia.
Qed.
Lemma chain_end v c l k d : chain v c l → l !! k = Some d → S k = length l → kind v d = Some LAST.
Proof.
  intros H. revert k. induction H as [c Hc Hk|c l Hc Hk Hl IH]; intros [|k] Hd Hlen; cbn in Hd, Hlen; try done.
  - by injection Hd as <-.
  - destruct l; [inversion Hl|done].
  - apply (IH k); [done|lia].
Qed.

(** ** Slots *)

(** The entries of a sector. *)
Definition sector_slots (b : list Z) : list (list Z) := (λ i, take 32 (drop (32 * i) b)) <$> seq 0 16.
(** The entries of a directory whose clusters are [l]. *)
Definition slots (v : volume) (l : list Z) : list (list Z) :=
  file_sectors (fat v) l ≫= λ x, sector_slots (default [] (store v x)).

(** [dir] is at the [k]-th entry. *)
Record at_slot (f : Fat) (l : list Z) (k : nat) (dir : Dir) : Prop := {
  as_clust : l !! (k / 16 / Z.to_nat (spc f))%nat = Some (dclust dir);
  as_sect : dsect dir = clust_to_sect f (dclust dir) + Z.of_nat ((k / 16) mod Z.to_nat (spc f));
  as_idx : didx dir = 32 * Z.of_nat (k mod 16)
}.

(** A directory on a volume whose data area starts at a multiple of the cluster size. *)
Record directory (v : volume) (c : Z) (l : list Z) : Prop := {
  di_ok : fat_ok v;
  di_layout : layout_ok (fat v);
  di_aligned : data_sect (fat v) mod spc (fat v) = 0;
  di_chain : chain v c l;
  di_on : ∀ x, x ∈ file_sectors (fat v) l → is_Some (store v x)
}.

Section directory.
Context (v0 : volume) (c0 : Z) (l : list Z).
Hypothesis H0 : directory v0 c0 l.
Local Abbreviation sp := (Z.to_nat (spc (fat v0))).

Lemma sp_pos : (0 < sp)%nat ∧ Z.of_nat sp = spc (fat v0).
Proof using H0. pose proof (spc_pos _ (di_layout _ _ _ H0)). lia. Qed.
Lemma di_clusters : Forall (cluster (fat v0)) l.
Proof using H0. eapply chain_clusters, H0. Qed.
Lemma sector_slots_length b : length (sector_slots b) = 16%nat.
Proof using. unfold sector_slots. by rewrite length_fmap, length_seq. Qed.
Lemma slots_length : length (slots v0 l) = (16 * (sp * length l))%nat.
Proof using. unfold slots. rewrite (bind_length _ _ 16), file_sectors_length; [done|]. intros. apply sector_slots_length. Qed.

Lemma at_slot_sector k dir :
  at_slot (fat v0) l k dir →
  file_sectors (fat v0) l !! (k / 16)%nat = Some (dsect dir) ∧ 0 < dsect dir ∧
  dsect dir ∈ file_sectors (fat v0) l ∧ (k < length (slots v0 l))%nat.
Proof using H0.
  intros [Hc Hs _]. destruct sp_pos as [Hsp Hspz]. pose proof (di_layout _ _ _ H0) as Hla.
  assert (Hk : file_sectors (fat v0) l !! (k / 16)%nat = Some (dsect dir)).
  { pose proof (file_sectors_lookup _ l Hla (Z.of_nat (k / 16)) (dclust dir)) as H.
    rewrite Nat2Z.id in H. rewrite H, Hs; [|lia|].
    - by rewrite Nat2Z.inj_mod, Hspz.
    - replace (Z.of_nat (k / 16) / spc (fat v0)) with (Z.of_nat (k / 16 / sp)) by (by rewrite Nat2Z.inj_div, Hspz).
      by rewrite Nat2Z.id. }
  assert (Hin : dsect dir ∈ file_sectors (fat v0) l) by by eapply list_elem_of_lookup_2.
  split_and!; [done|eapply sector_pos; [apply Hla|apply di_clusters|done]|done|].
  apply lookup_lt_Some in Hk. rewrite file_sectors_length in Hk. rewrite slots_length.
  pose proof (Nat.div_mod_eq k 16). pose proof (Nat.mod_upper_bound k 16). lia.
Qed.
(** The bytes of the slot, in the sector of the position. *)
Lemma at_slot_bytes k dir b :
  at_slot (fat v0) l k dir → store v0 (dsect dir) = Some b →
  slots v0 l !! k = Some (take 32 (drop (Z.to_nat (didx dir)) b)).
Proof using H0.
  intros Hat Hb. destruct (at_slot_sector _ _ Hat) as (Hk & _). pose proof (as_idx _ _ _ _ Hat) as Hi.
  pose proof (Nat.mod_upper_bound k 16 ltac:(lia)) as Hm. rewrite (Nat.div_mod_eq k 16) at 1. unfold slots.
  rewrite (bind_lookup _ _ _ (dsect dir) 16); [|intros; apply sector_slots_length|done|lia].
  rewrite Hb. cbn [default]. unfold sector_slots. rewrite list_lookup_fmap, lookup_seq_lt by lia.
  replace (Z.to_nat (didx dir)) with (32 * (k mod 16))%nat by lia. done.
Qed.

(** The first slot of the directory. *)
Lemma at_slot_first dir : at_slot (fat v0) l 0 (dir_at_clust (fat v0) dir c0).
Proof using H0.
  destruct sp_pos as [Hsp _]. split; cbn [dclust dsect didx dir_at_clust].
  - change (0 / 16)%nat with 0%nat. rewrite Nat.Div0.div_0_l. eapply chain_first, H0.
  - change (0 / 16)%nat with 0%nat. rewrite Nat.Div0.mod_0_l. lia.
  - done.
Qed.

Lemma at_slot_full k :
  S k = length (slots v0 l) ↔ S (k mod 16) = 16%nat ∧ S ((k / 16) mod sp) = sp ∧ S (k / 16 / sp) = length l.
Proof using H0.
  destruct sp_pos as [Hsp _]. rewrite slots_length. pose proof (Nat.div_mod_eq k 16).
  pose proof (Nat.div_mod_eq (k / 16) sp). pose proof (Nat.mod_upper_bound k 16).
  pose proof (Nat.mod_upper_bound (k / 16) sp).
  set (q := (k / 16 / sp)%nat) in *. set (j := ((k / 16) mod sp)%nat) in *. set (a := (k / 16)%nat) in *.
  set (i := (k mod 16)%nat) in *. clearbody q j a i. split.
  - intros E. assert (i = 15%nat ∧ S a = sp * length l)%nat as [-> Ea] by lia. assert (Hq : (q < length l)%nat) by nia.
    assert (length l = S q) as El by nia. rewrite El in *. nia.
  - intros (Ei & Ej & <-). nia.
Qed.

Lemma transparent_kind v c : transparent v0 v → cluster (fat v0) c →
  fat_ok v ∧ in_table (fat v) c ∧ fat_entry v c = fat_entry v0 c ∧ classify (fat v) (fat_entry v0 c) = kind v0 c.
Proof using H0.
  intros Htr Hc. pose proof (rest_geometry _ _ (tr_rest _ _ Htr)) as Hg. split_and!.
  - eapply transparent_fat_ok; [apply H0|done].
  - apply (in_table_geometry _ _ _ Hg). by apply cluster_in_table.
  - unfold fat_entry. f_equal. apply transparent_entry; [apply H0|done|by apply cluster_in_table].
  - unfold kind. by apply classify_geometry.
Qed.

(** The next slot, or the end of the chain. *)
Lemma wp_dir_next k dir v (Q : Dir * res unit → volume → Prop) :
  at_slot (fat v0) l k dir → transparent v0 v →
  (∀ dir' v', transparent v0 v' → at_slot (fat v0) l (S k) dir' → sclust dir' = sclust dir → Q (dir', Ok tt) v') →
  (∀ dir' v', transparent v0 v' → S k = length (slots v0 l) → Q (dir', Err FAT_ERR_EOF) v') →
  wp (dir_next dir) Q v.
Proof using H0.
  intros Hat Htr HQ HQe. pose proof Hat as [Hc Hs Hi]. destruct sp_pos as [Hsp Hspz].
  pose proof (di_layout _ _ _ H0) as Hla. pose proof (rest_geometry _ _ (tr_rest _ _ Htr)) as Hg.
  pose proof di_clusters as Hcl. rewrite Forall_forall in Hcl.
  assert (Hcc : cluster (fat v0) (dclust dir)) by (eapply Hcl, list_elem_of_lookup_2, Hc).
  destruct (cluster_sector _ Hla _ Hcc) as (E & Hlo & Hw).
  pose proof (Nat.mod_upper_bound (k / 16) sp ltac:(lia)) as Hj.
  unfold dir_next. change SFN_SIZE with 32. destruct (Z.ltb_spec (didx dir + 32) 512) as [Hlt|Hge].
  { apply wp_ret, HQ; [done| |done]. destruct (digit_step k 16) as [D1 D2]; [lia|].
    split; cbn [dclust dsect didx]; rewrite ?D1, ?D2; [done|done|lia]. }
  destruct (digit_carry k 16) as [D1 D2]; [pose proof (Nat.mod_upper_bound k 16); lia|].
  apply wp_bind, wp_gets. cbn [dsect]. unfold get_fat_struct.
  replace (clust_msk (fat v)) with (Z.ones (clust_shift (fat v0))) by
    (rewrite <- (la_mask _ Hla); unfold geometry_of in Hg; congruence).
  rewrite u32_small by (pose proof (la_tables _ Hla); lia). rewrite Z.land_ones by apply Hla. fold (spc (fat v0)).
  assert (Hmod : (dsect dir + 1) mod spc (fat v0) = (Z.of_nat ((k / 16) mod sp) + 1) mod spc (fat v0)).
  { rewrite Hs, E. pose proof (di_aligned _ _ _ H0) as Ha. apply Z.mod_divide in Ha as [a Ha]; [|lia].
    rewrite Ha. replace (a * spc (fat v0) + (dclust dir - 2) * spc (fat v0) + Z.of_nat ((k / 16) mod sp) + 1)
      with (Z.of_nat ((k / 16) mod sp) + 1 + (a + (dclust dir - 2)) * spc (fat v0)) by lia.
    apply Z.mod_add. lia. }
  rewrite Hmod. destruct (decide (S ((k / 16) mod sp) < sp)%nat) as [Hin|Hout].
  - rewrite Z.mod_small by lia. destruct (Z.eqb_spec (Z.of_nat ((k / 16) mod sp) + 1) 0); [lia|]. cbn [negb].
    apply wp_ret, HQ; [done| |done]. destruct (digit_step _ _ Hin) as [D3 D4].
    split; cbn [dclust dsect didx]; rewrite ?D1, ?D2, ?D3, ?D4; [done|lia|done].
  - destruct (digit_carry (k / 16) sp) as [D3 D4]; [lia|].
    replace (Z.of_nat ((k / 16) mod sp) + 1) with (spc (fat v0)) by lia. rewrite Z.mod_same by lia.
    change (negb (0 =? 0)) with false. cbv iota. cbn [dclust]. apply wp_bind.
    destruct (transparent_kind v _ Htr Hcc) as (Hok & Hin & Ee & Ek).
    apply wp_get_fat; [done|done|]. intros v' Htr' _. rewrite Ee, Ek.
    pose proof (transparent_trans _ _ _ Htr Htr') as Htr''.
    destruct (decide (S (k / 16 / sp) = length l)) as [Hend|Hmore].
    + rewrite (chain_end _ _ _ _ _ (di_chain _ _ _ H0) Hc Hend). apply wp_ret, HQe; [done|]. apply at_slot_full.
      pose proof (Nat.mod_upper_bound k 16). lia.
    + destruct (lookup_lt_is_Some_2 l (S (k / 16 / sp))) as [d Hd].
      { apply lookup_lt_Some in Hc. lia. }
      destruct (chain_step _ _ _ _ _ _ (di_chain _ _ _ H0) Hc Hd) as [Hk He]. rewrite Hk, He.
      change (has_flag CLUST_USED (Z.lor CLUST_BAD CLUST_FREE)) with false.
      change (has_flag CLUST_USED CLUST_LAST) with false. cbv iota. apply wp_bind, wp_gets, wp_ret, HQ; [done| |done].
      unfold get_fat_struct. split; cbn [dclust dsect didx dir_at_clust]; rewrite ?D1, ?D2, ?D3, ?D4; [done| |done].
      rewrite (clust_to_sect_geometry _ _ (rest_geometry _ _ (tr_rest _ _ Htr''))). lia.
Qed.
End directory.
