(* ===== verification/FatSearch.v ===== *)
(** * FAT32: searching a directory

    What the entries of a directory say ([dir_items]): names, long or short, with the
    places of their entries.  [dir_search] finds the first of them with the name it is
    given, or reports the end of the directory. *)
From S2P Require Import Prelude.
From S2P Require Import CString.
From S2P Require Import FatNames.
From S2P Require Import FatTable.
From S2P Require Import FatCache.
From S2P Require Import FatChain.
From S2P Require Import FatFile.
From S2P Require Import FatData.
From S2P Require Import FatMount.
From S2P Require Import FatDir.
From S2P Require Import FatSlots.
Local Open Scope Z_scope.
Local Open Scope fat_scope.

(** ** Calls on the volume *)
Definition volume_of (p : Z) (s : library) : option volume :=
  (λ m, {| fat := m_fat m; disk := device s |}) <$> mounts s !! p.
Definition globals (s : library) := (g_buf s, g_len s, g_crc s).
Definition registry (s : library) (q : Z) := (λ m, (m_next m, m_name_len m, m_name m)) <$> mounts s !! q.
(** The list of volumes with their names. *)
Definition same_registry (s s' : library) : Prop :=
  g_fat_list s' = g_fat_list s ∧ ∀ q, registry s' q = registry s q.

Lemma wp_on_fat {A} p (c : V A) (Q : A → library → Prop) s v :
  volume_of p s = Some v →
  wp c (λ a v', ∀ s', volume_of p s' = Some v' → globals s' = globals s → same_registry s s' → Q a s') v →
  wp (on_fat p c) Q s.
Proof.
  intros (m & Hm & ->)%fmap_Some. unfold wp, on_fat. rewrite Hm.
  destruct (c _) as [a v'| |]; [|done..]. intros HQ. apply HQ.
  - unfold volume_of. cbn. rewrite lookup_insert_eq. by destruct v'.
  - done.
  - split; [done|]. intros q. unfold registry. cbn. destruct (decide (q = p)) as [->|Hne].
    + by rewrite lookup_insert_eq, Hm.
    + by rewrite lookup_insert_ne by done.
Qed.
Lemma wp_get_fat_of p (Q : Fat → library → Prop) s v :
  volume_of p s = Some v → Q (fat v) s → wp (get_fat_of p) Q s.
Proof.
  intros (m & Hm & ->)%fmap_Some HQ. unfold get_fat_of. apply wp_bind. unfold wp, get_mount. rewrite Hm. exact HQ.
Qed.
Lemma registry_trans s1 s2 s3 : same_registry s1 s2 → same_registry s2 s3 → same_registry s1 s3.
Proof. intros [A1 A2] [B1 B2]. split; [congruence|]. intros q. by rewrite B2, A2. Qed.

(** ** Positions *)
Section search.
Context (p : Z) (v0 : volume) (c0 : Z) (l : list Z) (s0 : library).
Hypothesis H0 : directory v0 c0 l.
Local Abbreviation sl := (slots v0 l).

(** The library after some walking: the volume, seen through its buffer, and the list of
    volumes are those of the beginning. *)
Record walking (s : library) : Prop := {
  wk_volume : ∃ v, volume_of p s = Some v ∧ transparent v0 v;
  wk_registry : same_registry s0 s;
  wk_buf : length (g_buf s) = 512%nat
}.
(** The [k]-th entry is in the buffer of the volume. *)
Record loaded (k : nat) (dir : Dir) (s : library) : Prop := {
  lo_walking : walking s;
  lo_slot : at_slot (fat v0) l k dir;
  lo_sector : ∀ v, volume_of p s = Some v → sect (fat v) = dsect dir;
  lo_entry : ∀ v, volume_of p s = Some v → sl !! k = Some (dir_entry (fat v) dir)
}.

Lemma wp_load_slot k dir (Q : res unit → library → Prop) s :
  walking s → at_slot (fat v0) l k dir →
  (∀ s', loaded k dir s' → globals s' = globals s → Q (Ok tt) s') →
  wp (on_fat p (update_buf (dsect dir))) Q s.
Proof using H0.
  intros [(v & Hv & Htr) Hreg Hb] Hat HQ. destruct (at_slot_sector v0 c0 l H0 _ _ Hat) as (_ & Hpos & Hin & _).
  eapply wp_on_fat; [exact Hv|]. apply wp_update_buf; [apply Htr|done|]. intros v' Htr'.
  destruct (di_on _ _ _ H0 _ Hin) as [b Hb0]. rewrite (tr_store _ _ Htr _ Hpos), Hb0. intros [Hs Hbuf] s' Hv' Hg Hr.
  apply HQ; [|done]. split; [split|done| |].
  - exists v'. split; [done|]. by eapply transparent_trans.
  - by eapply registry_trans.
  - unfold globals in Hg. congruence.
  - intros v2 Hv2. rewrite Hv' in Hv2. by injection Hv2 as <-.
  - intros v2 Hv2. rewrite Hv' in Hv2. injection Hv2 as <-. unfold dir_entry. rewrite Hbuf.
    by eapply at_slot_bytes.
Qed.
Lemma wp_dir_ptr k dir raw (Q : list Z → library → Prop) s :
  loaded k dir s → sl !! k = Some raw → Q raw s → wp (dir_ptr p dir) Q s.
Proof using Type.
  intros [[(v & Hv & _) _ _] _ _ He] Hraw HQ. unfold dir_ptr. apply wp_bind. eapply wp_get_fat_of; [exact Hv|].
  apply wp_ret. rewrite (He v Hv) in Hraw. by injection Hraw as ->.
Qed.
Lemma wp_step k dir (Q : Dir * res unit → library → Prop) s :
  walking s → at_slot (fat v0) l k dir →
  (∀ dir' s', walking s' → globals s' = globals s → at_slot (fat v0) l (S k) dir' → Q (dir', Ok tt) s') →
  (∀ dir' s', walking s' → S k = length sl → Q (dir', Err FAT_ERR_EOF) s') →
  wp (on_fat p (dir_next dir)) Q s.
Proof using H0.
  intros [(v & Hv & Htr) Hreg Hb] Hat HQ HQe.
  assert (Hw : ∀ v' s', transparent v0 v' → volume_of p s' = Some v' → globals s' = globals s → same_registry s s' → walking s').
  { intros v' s' Htr' Hv' Hg Hr. split; [by exists v'|by eapply registry_trans|]. unfold globals in Hg. congruence. }
  eapply wp_on_fat; [exact Hv|]. eapply wp_dir_next; [exact H0|exact Hat|exact Htr| |].
  - intros dir' v' Htr' Hat' _ s' Hv' Hg Hr. apply HQ; [by eapply Hw|done|done].
  - intros dir' v' Htr' Hend s' Hv' Hg Hr. apply HQe; [by eapply Hw|done].
Qed.
(** The global buffer is no part of the volume. *)
Lemma loaded_globals k dir s g :
  loaded k dir s → volume_of p (g s) = volume_of p s → same_registry s (g s) → length (g_buf (g s)) = 512%nat →
  loaded k dir (g s).
Proof using Type.
  intros [[W1 W2 W3] L2 L3 L4] Hv Hr Hb. split; [split|done| |].
  - by rewrite Hv.
  - by eapply registry_trans.
  - done.
  - by rewrite Hv.
  - by rewrite Hv.
Qed.

(** ** Long names *)
Lemma lfn_chars_complete indices raw chars :
  get_chars indices raw = Some chars → lfn_chars indices raw = (chars, true) ∧ (length chars ≤ length indices)%nat.
Proof using Type.
  revert chars. induction indices as [|i indices IH]; intros chars; cbn; [intros [= <-]; done|].
  destruct (_ =? 0xff); [done|]. destruct (_ =? 0); [intros [= <-]; split; [done|cbn; lia]|].
  destruct (get_chars indices raw) as [r|]; [|done]. cbn. intros [= <-].
  destruct (IH r eq_refl) as [E Hl]. rewrite E. split; [done|]. cbn. lia.
Qed.
Lemma get_le_byte i raw : (i < length raw)%nat → get_le 1 i raw = default 0 (raw !! i).
Proof using Type.
  intros Hi. unfold get_le. destruct (lookup_lt_is_Some_2 raw i Hi) as [b Hb].
  rewrite (drop_S _ _ _ Hb), Hb. cbn [take]. rewrite take_0. cbn. lia.
Qed.
Lemma slot_length k raw : sl !! k = Some raw → length raw = 32%nat.
Proof using H0.
  intros Hk. apply list_elem_of_lookup_2 in Hk. unfold slots in Hk.
  apply list_elem_of_bind in Hk as (x & Hin & Hx). destruct (di_on _ _ _ H0 x Hx) as [b Hb].
  pose proof (store_length _ _ _ (fo_cache _ (di_ok _ _ _ H0)) Hb) as Hl. rewrite Hb in Hin.
  apply list_elem_of_fmap in Hin as (i & -> & Hi%elem_of_seq). change (default [] (Some b)) with b.
  rewrite length_take, length_drop, Hl. lia.
Qed.

Lemma wp_parse_lfn_loop cnt : ∀ k dir raw s gbuf' glen' crc (Q : Dir * res unit → library → Prop),
  loaded k dir s → sl !! k = Some raw → g_crc s = crc → (cnt ≤ 20)%nat →
  0 ≤ g_len s ≤ 13 * (20 - Z.of_nat cnt) →
  read_lfn cnt crc (drop k sl) (g_buf s) (g_len s) = Some (gbuf', glen') → (k + cnt < length sl)%nat →
  (∀ dir' s', loaded (k + cnt) dir' s' → globals s' = (gbuf', glen', crc) → Q (dir', Ok tt) s') →
  wp (parse_lfn_loop cnt p dir raw) Q s.
Proof using H0.
  induction cnt as [|cnt IH]; intros k dir raw s gbuf' glen' crc Q Hld Hraw Hcrc Hcnt Hlen Hread Hk HQ;
    cbn [parse_lfn_loop].
  { cbn in Hread. destruct (Z.leb_spec (g_len s) 255) as [Hle|]; [|done]. injection Hread as <- <-.
    apply wp_bind, wp_gets, wp_ret. destruct (Z.leb_spec (g_len s) 255); [|lia].
    apply HQ; [by rewrite Nat.add_0_r|]. unfold globals. by rewrite Hcrc. }
  rewrite (drop_S _ _ _ Hraw) in Hread. cbn [read_lfn] in Hread.
  destruct (parse_lfn_entry crc raw) as [frag|] eqn:Hentry; [|done]. cbn [mbind option_bind] in Hread.
  pose proof (slot_length _ _ Hraw) as Hrl. unfold parse_lfn_entry in Hentry.
  apply wp_bind, wp_gets. rewrite Hcrc, !get_le_byte by lia.
  destruct (negb (default 0 (raw !! 11%nat) =? FAT_ATTR_LFN) || negb (default 0 (raw !! 13%nat) =? crc)); [done|].
  apply lfn_chars_complete in Hentry as [Hchars Hfl]. change (length g_lfn_indices) with 13%nat in Hfl.
  rewrite Hchars. apply wp_bind, wp_modify, wp_bind, wp_modify. cbn [negb].
  set (s1 := set_g_len _ _).
  assert (Hb1 : g_buf s1 = set_bytes (13 * cnt) frag (g_buf s)) by done.
  assert (Hc1 : g_crc s1 = crc) by exact Hcrc.
  assert (Hn1 : g_len s1 = g_len s + Z.of_nat (length frag)).
  { cbn. unfold u16. rewrite Z.mod_small by lia. done. }
  assert (Hld1 : loaded k dir s1).
  { apply (loaded_globals k dir s (λ s, set_g_len (u16 (g_len s + Z.of_nat (length frag)))
      (set_g_buf (set_bytes (13 * cnt) frag (g_buf s)) s))); [done..|].
    cbn [g_buf set_g_len set_g_buf]. rewrite set_bytes_length; [apply Hld|].
    rewrite (wk_buf _ (lo_walking _ _ _ Hld)). lia. }
  clearbody s1. apply wp_bind. eapply wp_step; [apply Hld1|apply Hld1| |intros; lia].
  intros dir' s2 Hw2 Hg2 Hat2. unfold at_pos. cbn [fst snd]. apply wp_bind. eapply wp_load_slot; [exact Hw2|exact Hat2|].
  intros s3 Hld3 Hg3. destruct (lookup_lt_is_Some_2 sl (S k)) as [raw' Hraw']; [lia|].
  apply wp_bind. eapply wp_dir_ptr; [exact Hld3|exact Hraw'|].
  unfold globals in Hg2, Hg3. assert (g_buf s3 = g_buf s1 ∧ g_len s3 = g_len s1 ∧ g_crc s3 = g_crc s1) as (G1 & G2 & G3).
  { split_and!; congruence. }
  eapply (IH (S k) dir' raw' s3 gbuf' glen' crc); [done|done| |lia| | |lia|].
  - by rewrite G3.
  - rewrite G2, Hn1. lia.
  - by rewrite G1, G2, Hn1, Hb1.
  - intros dir2 s4 Hld4 Hg4. apply HQ; [|done]. by replace (k + S cnt)%nat with (S k + cnt)%nat by lia.
Qed.

(** The number of entries of the long name that begins with [raw]. *)
Definition lfn_length (raw : list Z) : nat := Z.to_nat (Z.land (get_le 1 0 raw) LFN_SEQ_MSK).
Lemma wp_parse_lfn_name k dir raw s gbuf' glen' (Q : Dir * res unit → library → Prop) :
  walking s → at_slot (fat v0) l k dir → sl !! k = Some raw →
  parse_lfn (drop k sl) (g_buf s) = Some (gbuf', glen') → (k + lfn_length raw < length sl)%nat →
  (∀ dir' s', loaded (k + lfn_length raw) dir' s' → globals s' = (gbuf', glen', get_le 1 13 raw) → Q (dir', Ok tt) s') →
  wp (parse_lfn_name p dir) Q s.
Proof using H0.
  intros Hw Hat Hraw Hparse Hk HQ. unfold parse_lfn_name. apply wp_bind. eapply wp_load_slot; [done|exact Hat|].
  intros s1 Hld Hg. apply wp_bind. eapply wp_dir_ptr; [exact Hld|exact Hraw|].
  apply wp_bind, wp_modify, wp_bind, wp_modify. set (s2 := set_g_len 0 _).
  assert (Hld2 : loaded k dir s2).
  { apply (loaded_globals k dir s1 (λ s, set_g_len 0 (set_g_crc (get_le 1 13 raw) s))); [done..|apply Hld]. }
  assert (Hb2 : g_buf s2 = g_buf s) by (unfold globals in Hg; change (g_buf s2) with (g_buf s1); congruence).
  assert (Hc2 : g_crc s2 = get_le 1 13 raw) by done. assert (Hn2 : g_len s2 = 0) by done. clearbody s2.
  pose proof (slot_length _ _ Hraw) as Hrl. unfold parse_lfn in Hparse. rewrite (drop_S _ _ _ Hraw) in Hparse.
  cbn [head mbind option_bind] in Hparse. rewrite <- (drop_S _ _ _ Hraw), <- !get_le_byte in Hparse by lia.
  destruct (Z.land (get_le 1 0 raw) LFN_HEAD_MSK =? 0); [done|].
  destruct (Z.ltb_spec 20 (Z.land (get_le 1 0 raw) LFN_SEQ_MSK)) as [|H20]; [done|].
  fold (lfn_length raw) in *.
  eapply (wp_parse_lfn_loop (lfn_length raw) k dir raw s2 gbuf' glen' (get_le 1 13 raw));
    [done|done|done|unfold lfn_length; lia|rewrite Hn2; unfold lfn_length; lia| |done|done].
  by rewrite Hb2, Hn2.
Qed.
End search.

(** ** The names in a directory *)

(** A name with its first entry and the entry it names; a short one is the 11 bytes. *)
Record item := { it_start : nat; it_entry : nat; it_long : bool; it_name : list Z }.
Definition names (name : list Z) (it : item) : bool :=
  if it_long it then bool_decide (it_name it = name) else bool_decide (it_name it = put_sfn_name name).

(** The names from the [k]-th entry on, to the end mark or the end of the chain. *)
Inductive dir_items (sl : list (list Z)) : nat → list item → Prop :=
| items_mark k raw : sl !! k = Some raw → sfn_is_last raw = true → dir_items sl k []
| items_chain k : k = length sl → dir_items sl k []
| items_free k raw its :
    sl !! k = Some raw → sfn_is_last raw = false → sfn_is_free raw = true → dir_items sl (S k) its →
    dir_items sl k its
| items_short k raw its :
    sl !! k = Some raw → sfn_is_free raw = false → sfn_is_lfn raw = false → dir_items sl (S k) its →
    dir_items sl k ({| it_start := k; it_entry := k; it_long := false; it_name := take 11 raw |} :: its)
| items_long k n raw sfn name its :
    sl !! k = Some raw → sfn_is_free raw = false → sfn_is_lfn raw = true → n = lfn_length raw →
    (∀ gbuf, length gbuf = 512%nat → ∃ gbuf',
       parse_lfn (drop k sl) gbuf = Some (gbuf', Z.of_nat (length name)) ∧ take (length name) gbuf' = name) →
    sl !! (k + n)%nat = Some sfn → sfn_is_free sfn = false → sfn_is_lfn sfn = false →
    get_crc sfn = get_le 1 13 raw → dir_items sl (S (k + n)) its →
    dir_items sl k ({| it_start := k; it_entry := k + n; it_long := true; it_name := name |} :: its).

Lemma items_beyond sl k its : dir_items sl k its → (length sl ≤ k)%nat → its = [].
Proof.
  intros H Hk. apply lookup_ge_None_2 in Hk. inversion H; subst; congruence.
Qed.
Lemma not_last raw : sfn_is_free raw = false → sfn_is_last raw = false.
Proof. unfold sfn_is_free, sfn_is_last. by destruct (_ =? SFN_LAST). Qed.

(** ** The search *)
Section dir_search.
Context (p : Z) (v0 : volume) (c0 : Z) (l : list Z) (s0 : library) (name : list Z).
Hypothesis H0 : directory v0 c0 l.
Local Abbreviation sl := (slots v0 l).

(** What the search returns for the names [its]. *)
Definition search_post (its : list item) (r : Dir * option Loc * res unit) (s : library) : Prop :=
  match List.find (names name) its with
  | Some it => r.2 = Ok tt ∧ loaded p v0 l s0 (it_entry it) r.1.1 s ∧
      ∃ d, at_slot (fat v0) l (it_start it) d ∧ r.1.2 = Some (loc_of d)
  | None => r.2 = Err FAT_ERR_EOF ∧ walking p v0 s0 s
  end.
(** The loop from the [k]-th entry on. *)
Definition searches (k : nat) (its : list item) : Prop := ∀ fuel dir loc s,
  walking p v0 s0 s → at_slot (fat v0) l k dir → (length sl - k < fuel)%nat →
  wp (dir_search_loop fuel p dir name (put_sfn_name name) loc) (search_post its) s.

Lemma wp_search_next fuel k dir loc its s :
  searches (S k) its → dir_items sl (S k) its → walking p v0 s0 s → at_slot (fat v0) l k dir →
  (length sl - k < S fuel)%nat →
  wp (r ← on_fat p (dir_next dir);
      match r.2 with
      | Err e => mret (r.1, loc, Err e)
      | Ok _ => dir_search_loop fuel p r.1 name (put_sfn_name name) loc
      end) (search_post its) s.
Proof using H0.
  intros IH Hits Hw Hat Hf. apply wp_bind. eapply wp_step; [exact H0|exact Hw|exact Hat| |].
  - intros dir' s' Hw' _ Hat'. apply IH; [done..|].
    destruct (at_slot_sector _ _ _ H0 _ _ Hat') as (_ & _ & _ & Hk). lia.
  - intros dir' s' Hw' Hend. apply wp_ret. rewrite (items_beyond _ _ _ Hits) by lia. done.
Qed.

Lemma search_items k its : dir_items sl k its → searches k its.
Proof using H0.
  induction 1 as [k raw Hraw Hlast|k Hk|k raw its Hraw Hlast Hfree Hits IH|k raw its Hraw Hfree Hlfn Hits IH
    |k n raw sfn nm its Hraw Hfree Hlfn -> Hparse Hsfn Hfree' Hlfn' Hcrc Hits IH];
    intros fuel dir loc s Hw Hat Hf.
  2:{ destruct (at_slot_sector _ _ _ H0 _ _ Hat) as (_ & _ & _ & Hlt). lia. }
  all: destruct fuel as [|fuel]; [lia|]; cbn [dir_search_loop]; apply wp_bind;
    eapply wp_load_slot; [exact H0|exact Hw|exact Hat|]; intros s1 Hld Hg;
    apply wp_bind; eapply wp_dir_ptr; [exact Hld|exact Hraw|].
  - rewrite Hlast. apply wp_ret. split; [done|apply Hld].
  - rewrite Hlast, Hfree. eapply wp_search_next; [exact IH|done|apply Hld|done|done].
  - rewrite (not_last _ Hfree), Hfree, Hlfn. unfold search_post. cbn [List.find names it_long it_name].
    case_bool_decide as E.
    + apply wp_ret. split; [done|]. split; [exact Hld|]. by exists dir.
    + eapply wp_search_next; [exact IH|done|apply Hld|done|done].
  - rewrite (not_last _ Hfree), Hfree, Hlfn. apply wp_bind.
    destruct (Hparse (g_buf s1)) as (gbuf' & Hp & Hname); [apply Hld|].
    eapply wp_parse_lfn_name; [exact H0|apply Hld|exact Hat|exact Hraw|exact Hp|by apply lookup_lt_Some in Hsfn|].
    intros dir2 s2 Hld2 Hg2. unfold globals in Hg2. injection Hg2 as G1 G2 G3. cbn [fst snd].
    apply wp_bind. eapply wp_dir_ptr; [exact Hld2|exact Hsfn|]. apply wp_bind, wp_gets.
    rewrite Hfree', Hlfn', G3, Hcrc, Z.eqb_refl. cbn [orb negb].
    apply wp_bind, wp_gets, wp_bind, wp_gets. rewrite G1, G2.
    unfold search_post. cbn [List.find names it_long it_name].
    assert (E : (Z.of_nat (length nm) =? Z.of_nat (length name)) && bool_decide (take (length name) gbuf' = name) =
                bool_decide (nm = name)).
    { destruct (Z.eqb_spec (Z.of_nat (length nm)) (Z.of_nat (length name))) as [E|E]; cbn [andb].
      - apply bool_decide_ext. apply Nat2Z.inj in E. rewrite <- E, Hname. done.
      - symmetry. apply bool_decide_eq_false. by intros ->. }
    rewrite E. destruct (decide (nm = name)); [rewrite !bool_decide_true by done|rewrite !bool_decide_false by done].
    + apply wp_ret. split; [done|]. split; [exact Hld2|]. by exists dir.
    + eapply wp_search_next; [exact IH|done|apply Hld2|apply Hld2|].
      apply lookup_lt_Some in Hsfn. lia.
Qed.

(** The fuel is enough for every directory of the volume. *)
Lemma dir_fuel_slots : (length sl < dir_fuel (fat v0))%nat.
Proof using H0.
  destruct (sp_pos _ _ _ H0) as [Hsp Hz]. pose proof (chain_short _ _ _ (di_chain _ _ _ H0)) as Hl.
  rewrite slots_length. unfold dir_fuel.
  pose proof (la_shift _ (di_layout _ _ _ H0)). rewrite Z.shiftl_mul_pow2 by lia. fold (spc (fat v0)).
  rewrite Z2Nat.inj_mul by lia. nia.
Qed.
Lemma wp_dir_search dir loc its s :
  walking p v0 s0 s → dir_items sl 0 its → sclust dir = c0 →
  wp (dir_search p dir name loc) (search_post its) s.
Proof using H0.
  intros Hw Hits Hc. pose proof Hw as [(v & Hv & Htr) _ _]. pose proof (rest_geometry _ _ (tr_rest _ _ Htr)) as Hg.
  unfold dir_search. apply wp_bind. eapply wp_get_fat_of; [exact Hv|]. rewrite Hc.
  replace (dir_at_clust (fat v) dir c0) with (dir_at_clust (fat v0) dir c0) by
    (unfold dir_at_clust; by rewrite (clust_to_sect_geometry _ _ Hg)).
  apply (search_items 0 its Hits); [done|by apply at_slot_first|].
  pose proof dir_fuel_slots. unfold dir_fuel in *. unfold geometry_of in Hg.
  replace (clust_cnt (fat v)) with (clust_cnt (fat v0)) by congruence.
  replace (clust_shift (fat v)) with (clust_shift (fat v0)) by congruence. lia.
Qed.
End dir_search.

(** ** The entries [dir_add] writes *)
Lemma read_lfn_app cnt crc entries rest gbuf glen r :
  read_lfn cnt crc entries gbuf glen = Some r → read_lfn cnt crc (entries ++ rest) gbuf glen = Some r.
Proof.
  revert entries gbuf glen. induction cnt as [|cnt IH]; intros entries gbuf glen; cbn [read_lfn]; [done|].
  destruct entries as [|raw entries]; [done|]. cbn [app]. destruct (parse_lfn_entry crc raw); [|done].
  cbn [mbind option_bind]. apply IH.
Qed.
Lemma parse_lfn_app entries rest gbuf r :
  parse_lfn entries gbuf = Some r → parse_lfn (entries ++ rest) gbuf = Some r.
Proof.
  destruct entries as [|raw entries]; [done|]. unfold parse_lfn. cbn [app head mbind option_bind].
  destruct (_ =? 0); [done|]. destruct (_ <? _); [done|]. apply (read_lfn_app _ _ (raw :: entries)).
Qed.
Lemma lfn_entries_length n mask crc name raws : length raws = n → length (lfn_entries n mask crc name raws) = n.
Proof.
  revert mask raws. induction n as [|n IH]; intros mask [|raw raws]; cbn; try done. intros [= H]. by rewrite IH.
Qed.
Lemma sfn_char_kept c : sfn_char c ≠ 0 ∧ sfn_char c ≠ SFN_FREE.
Proof.
  unfold sfn_char. set (d := to_upper c). clearbody d. destruct ((65 <=? d) && (d <=? 90)) eqn:E.
  - apply andb_true_iff in E as [E1%Z.leb_le E2%Z.leb_le]. unfold SFN_FREE. lia.
  - case_bool_decide as Hin; [|done]. unfold special_chars in Hin. set_solver.
Qed.
Lemma sfn_name_in_use name :
  ∃ c rest, put_sfn_name name = c :: rest ∧ c ≠ 0 ∧ c ≠ SFN_FREE.
Proof.
  unfold put_sfn_name. destruct (until DOT (take 8 name)) as [|c base]; cbn; eexists _, _; (split; [done|]); [done|].
  apply sfn_char_kept.
Qed.

(** The first entry of a long name. *)
Lemma lfn_entries_head n crc name raws :
  (0 < n ≤ 20)%nat → length raws = n → Forall (λ raw, length raw = 32%nat) raws →
  ∃ raw rest, lfn_entries n LFN_HEAD_MSK crc name raws = raw :: rest ∧ length raw = 32%nat ∧
    raw !! 0%nat = Some (Z.lor LFN_HEAD_MSK (Z.of_nat n)) ∧ raw !! 11%nat = Some FAT_ATTR_LFN ∧
    raw !! 13%nat = Some crc.
Proof.
  intros Hn Hl Hr. destruct n as [|n]; [lia|]. destruct raws as [|raw raws]; [done|]. apply Forall_cons in Hr as [Hr _].
  cbn [lfn_entries]. eexists _, _. split; [done|]. split.
  - unfold lfn_entry, set_le. rewrite set_bytes_length, !length_insert; unfold put_lfn_name_frag;
      rewrite ?length_insert, ?put_chars_length; [done|]. rewrite le_bytes_length. lia.
  - by rewrite !lfn_entry_lookup by done.
Qed.

Lemma added_item sl k name raws attr clust date time rest its :
  let n := Z.to_nat (lfn_count (Z.of_nat (length name))) in
  let sfn_name := put_sfn_name name in
  (0 < length name ≤ 255)%nat → Forall lfn_char name → length raws = n → Forall (λ raw, length raw = 32%nat) raws →
  u8 attr ≠ FAT_ATTR_LFN →
  drop k sl = lfn_entries n LFN_HEAD_MSK (get_crc sfn_name) name raws ++ sfn_entry sfn_name attr clust date time :: rest →
  dir_items sl (S (k + n)) its →
  dir_items sl k ({| it_start := k; it_entry := k + n; it_long := true; it_name := name |} :: its).
Proof.
  intros n sfn_name Hlen Hc Hr Hraws Hattr Hsl Hits. destruct (lfn_count_bounds name Hlen) as [Hn _]. fold n in Hn.
  destruct (lfn_entries_head n (get_crc sfn_name) name raws Hn Hr Hraws) as (raw & es & He & Hrl & R0 & R11 & R13).
  assert (Hk : sl !! k = Some raw).
  { replace k with (k + 0)%nat by lia. rewrite <- lookup_drop, Hsl, He. done. }
  assert (Hs : sl !! (k + n)%nat = Some (sfn_entry sfn_name attr clust date time)).
  { rewrite <- lookup_drop, Hsl, lookup_app_r; rewrite lfn_entries_length by done; [|done].
    by rewrite Nat.sub_diag. }
  assert (Hb : ∀ i, (i < 32)%nat → get_le 1 i raw = default 0 (raw !! i)) by (intros; apply get_le_byte; lia).
  assert (Hseq : Z.land (Z.lor LFN_HEAD_MSK (Z.of_nat n)) LFN_SEQ_MSK = Z.of_nat n ∧
                 (Z.lor LFN_HEAD_MSK (Z.of_nat n) =? SFN_LAST) = false ∧ (Z.lor LFN_HEAD_MSK (Z.of_nat n) =? SFN_FREE) = false).
  { clearbody n. clear -Hn. do 21 (destruct n as [|n]; [try done; lia|]). lia. }
  destruct Hseq as (S1 & S2 & S3). destruct (sfn_name_in_use name) as (c & cs & Ec & Hc0 & Hc1). fold sfn_name in Ec.
  assert (Hsl11 : length sfn_name = 11%nat) by apply put_sfn_name_length.
  assert (Hsb : ∀ i x, sfn_entry sfn_name attr clust date time !! i = Some x → get_le 1 i (sfn_entry sfn_name attr clust date time) = x).
  { intros i x Hx. rewrite get_le_byte; [by rewrite Hx|]. by apply lookup_lt_Some in Hx. }
  eapply items_long; [exact Hk| | | | |exact Hs| | | |exact Hits].
  - unfold sfn_is_free. rewrite Hb, R0 by lia. cbn [default from_option id]. by rewrite S2, S3.
  - unfold sfn_is_lfn. rewrite Hb, R11 by lia. done.
  - unfold lfn_length. rewrite Hb, R0 by lia. cbn [default from_option id]. by rewrite S1, Nat2Z.id.
  - intros gbuf Hg. exists (name ++ drop (length name) gbuf). split; [|by rewrite take_app_length].
    rewrite Hsl. apply parse_lfn_app, parse_lfn_roundtrip; try done. lia.
  - unfold sfn_is_free. rewrite (Hsb 0%nat c); [|unfold sfn_entry; by rewrite Ec].
    apply orb_false_iff. by rewrite !Z.eqb_neq.
  - unfold sfn_is_lfn. rewrite (Hsb 11%nat (u8 attr)); [by apply Z.eqb_neq|].
    unfold sfn_entry. rewrite lookup_app_r by lia. by rewrite Hsl11.
  - rewrite Hb, R13 by lia. cbn [default from_option id]. unfold get_crc, sfn_entry. f_equal.
    rewrite take_app_le, !take_ge by lia. done.
Qed.
