(* ===== verification/FatAdd.v ===== *)
(** * FAT32: adding a name to a directory

    What [dir_add] does to a directory seen as a list of slots: it takes the first run of
    free entries that is long enough ([free_run]) and replaces it by the entries of the
    name; a mark behind the run keeps the end of the directory. *)
From S2P Require Import Prelude.
From S2P Require Import CString.
From S2P Require Import FatNames.
From S2P Require Import FatTable.
From S2P Require Import FatCache.
From S2P Require Import FatChain.
From S2P Require Import FatFile.
From S2P Require Import FatData.
From S2P Require Import FatMount.
From S2P Require Import FatDir.
From S2P Require Import FatSlots.
From S2P Require Import FatSearch.
Local Open Scope Z_scope.
Local Open Scope fat_scope.

(** ** Another volume with the same directory *)

(** The same layout and counters, and the same bytes outside the sectors of the directory. *)
Record rewritten (l : list Z) (v v1 : volume) : Prop := {
  rw_rest : rest_of (fat v1) = rest_of (fat v);
  rw_store : ∀ x, 0 < x → x ∉ file_sectors (fat v) l → store v1 x = store v x
}.
Lemma rw_geometry l v v1 : rewritten l v v1 → geometry_of (fat v1) = geometry_of (fat v).
Proof. intros [H _]. by apply rest_geometry. Qed.
Lemma rewritten_refl l v : rewritten l v v.
Proof. by split. Qed.
Lemma rewritten_trans l v1 v2 v3 : rewritten l v1 v2 → rewritten l v2 v3 → rewritten l v1 v3.
Proof.
  intros [G1 S1] [G2 S2]. split; [congruence|]. intros x Hx Hn. rewrite S2, S1; [done..|].
  by rewrite (file_sectors_geometry _ _ (rest_geometry _ _ G1)).
Qed.
Lemma transparent_rewritten l v v1 : transparent v v1 → rewritten l v v1.
Proof. intros [_ Hs Hr]. split; [done|]. intros x Hx _. by apply Hs. Qed.
(** The tables lie in front of the data. *)
Lemma rewritten_entry v v1 c l d :
  directory v c l → rewritten l v v1 → in_table (fat v) d → fat_entry v1 d = fat_entry v d.
Proof.
  intros Hd [Hg%rest_geometry Hs] Hin. apply fat_entry_store; [done|].
  destruct (table_sector _ _ (fo_geometry _ (di_ok _ _ _ Hd)) Hin) as (Ht & _).
  pose proof (ge_first _ (fo_geometry _ (di_ok _ _ _ Hd))). pose proof (la_tables _ (di_layout _ _ _ Hd)).
  apply Hs; [lia|]. intros Hf.
  apply (file_sector_data _ _ (di_layout _ _ _ Hd)) in Hf; [lia|]. eapply chain_clusters, Hd.
Qed.
Lemma rewritten_directory v v1 c l :
  directory v c l → rewritten l v v1 → cache_ok v1 → (∀ x, 0 < x → is_Some (store v x) → is_Some (store v1 x)) →
  directory v1 c l.
Proof.
  intros Hd Hrw Hc Hs. pose proof (rw_geometry _ _ _ Hrw) as Hg. pose proof (chain_clusters _ _ _ (di_chain _ _ _ Hd)) as Hcl.
  split.
  - eapply fat_ok_store; [apply Hd|done|done|done].
  - eapply layout_geometry; [exact Hg|apply Hd].
  - rewrite (spc_geometry _ _ Hg). replace (data_sect (fat v1)) with (data_sect (fat v)) by (unfold geometry_of in Hg; congruence).
    apply Hd.
  - apply (chain_frame v); [done| |apply Hd]. eapply Forall_impl; [exact Hcl|]. intros d Hdc.
    eapply rewritten_entry; [exact Hd|done|by apply cluster_in_table].
  - intros x. rewrite (file_sectors_geometry _ _ Hg). intros Hx. apply Hs; [|by apply Hd].
    by eapply sector_pos; [apply Hd|exact Hcl|].
Qed.
Lemma at_slot_geometry f f' l k dir : geometry_of f' = geometry_of f → at_slot f l k dir → at_slot f' l k dir.
Proof.
  intros Hg [H1 H2 H3]. split; rewrite ?(spc_geometry _ _ Hg), ?(clust_to_sect_geometry _ _ Hg); done.
Qed.
Lemma transparent_directory v v1 c l :
  directory v c l → transparent v v1 → directory v1 c l ∧ slots v1 l = slots v l.
Proof.
  intros Hd Htr. split.
  - eapply rewritten_directory; [exact Hd|by apply transparent_rewritten|apply Htr|]. intros x Hx. by rewrite (tr_store _ _ Htr x Hx).
  - unfold slots. rewrite (file_sectors_geometry _ _ (rest_geometry _ _ (tr_rest _ _ Htr))). apply bind_ext_in.
    intros x Hx. rewrite (tr_store _ _ Htr); [done|]. eapply sector_pos; [apply Hd| |exact Hx]. eapply chain_clusters, Hd.
Qed.

(** ** Writing a slot *)
Lemma sector_slots_lookup b i : (i < 16)%nat → sector_slots b !! i = Some (take 32 (drop (32 * i) b)).
Proof. intros Hi. unfold sector_slots. by rewrite list_lookup_fmap, lookup_seq_lt by lia. Qed.
Lemma set_bytes_drop off bytes (b : list Z) n :
  (off + length bytes ≤ length b)%nat → (off + length bytes ≤ n)%nat → drop n (set_bytes off bytes b) = drop n b.
Proof.
  intros Hl Hn. unfold set_bytes. rewrite !drop_app, drop_drop, length_take, (drop_ge (take off b)) by (rewrite length_take; lia).
  rewrite (drop_ge bytes) by lia. cbn. f_equal. lia.
Qed.
(** The bytes of the entry at [32 * i], of which the first are replaced. *)
Lemma sector_slots_set b i bytes :
  length b = 512%nat → (i < 16)%nat → (length bytes ≤ 32)%nat →
  sector_slots (set_bytes (32 * i) bytes b) =
    <[i := bytes ++ drop (length bytes) (take 32 (drop (32 * i) b))]> (sector_slots b).
Proof.
  intros Hb Hi Hl. apply list_eq_same_length with 16%nat.
  - by rewrite length_insert, sector_slots_length.
  - apply sector_slots_length.
  - intros j x y Hj. rewrite sector_slots_lookup by done. intros [= <-]. destruct (decide (j = i)) as [->|Hne].
    + rewrite list_lookup_insert_eq by (by rewrite sector_slots_length). intros [= <-].
      unfold set_bytes. rewrite drop_app_length' by (rewrite length_take; lia).
      rewrite take_app_ge by done. f_equal. rewrite skipn_firstn_comm, drop_drop. done.
    + rewrite list_lookup_insert_ne, sector_slots_lookup by done. intros [= <-].
      destruct (decide (j < i)%nat).
      * unfold set_bytes. rewrite drop_app_le by (rewrite length_take; lia).
        rewrite take_app_le by (rewrite length_drop, length_take; lia).
        rewrite skipn_firstn_comm, take_take. f_equal. lia.
      * rewrite set_bytes_drop by lia. done.
Qed.

Section put.
Context (p : Z) (v0 : volume) (c0 : Z) (l : list Z) (s0 : library).
Hypothesis H0 : directory v0 c0 l.
Local Abbreviation sl := (slots v0 l).

Lemma slots_set v1 k dir b raw bytes :
  at_slot (fat v0) l k dir → store v0 (dsect dir) = Some b → sl !! k = Some raw → (length bytes ≤ 32)%nat →
  geometry_of (fat v1) = geometry_of (fat v0) →
  (∀ x, 0 < x → store v1 x = if decide (x = dsect dir) then Some (set_bytes (Z.to_nat (didx dir)) bytes b) else store v0 x) →
  slots v1 l = <[k := bytes ++ drop (length bytes) raw]> sl.
Proof using H0.
  intros Hat Hb Hraw Hl Hg Hs. destruct (at_slot_sector v0 c0 l H0 _ _ Hat) as (Hk & Hpos & Hin & Hlt).
  pose proof (at_slot_bytes v0 c0 l H0 _ _ _ Hat Hb) as Hraw'. rewrite Hraw in Hraw'. injection Hraw' as ->.
  pose proof (as_idx _ _ _ _ Hat) as Hi. pose proof (Nat.mod_upper_bound k 16 ltac:(lia)) as Hm.
  assert (Ei : Z.to_nat (didx dir) = (32 * (k mod 16))%nat) by lia. rewrite Ei in *.
  assert (Hlb : length b = 512%nat) by (eapply store_length; [apply (fo_cache _ (di_ok _ _ _ H0))|exact Hb]).
  pose proof (chain_clusters _ _ _ (di_chain _ _ _ H0)) as Hcl.
  rewrite insert_take_drop by done. rewrite (Nat.div_mod_eq k 16) at 1 3. unfold slots.
  rewrite (file_sectors_geometry _ _ Hg).
  rewrite (bind_replace (λ x, sector_slots (default [] (store v0 x))) (λ x, sector_slots (default [] (store v1 x)))
    (file_sectors (fat v0) l) (k / 16) (dsect dir) 16 (k mod 16)
    [bytes ++ drop (length bytes) (take 32 (drop (32 * (k mod 16)) b))]).
  - cbn [length app]. by rewrite Nat.add_1_r.
  - intros. apply sector_slots_length.
  - apply file_sectors_nodup; [apply H0|done|]. eapply chain_nodup, H0.
  - done.
  - intros y Hy Hne. rewrite Hs, decide_False; [done|done|]. eapply sector_pos; [apply H0|exact Hcl|done].
  - cbn [length]. lia.
  - rewrite Hs, decide_True, Hb by done. cbn [default from_option id].
    rewrite sector_slots_set by done. rewrite insert_take_drop by (by rewrite sector_slots_length).
    cbn [length app]. by rewrite Nat.add_1_r.
Qed.

(** What a write of the [k]-th slot leaves: the directory with the new entry, which is in the
    buffer. *)
Record put_slot (k : nat) (dir : Dir) (raw : list Z) (s s' : library) (v1 : volume) : Prop := {
  ps_directory : directory v1 c0 l;
  ps_rewritten : rewritten l v0 v1;
  ps_slots : slots v1 l = <[k := raw]> sl;
  ps_loaded : loaded p v1 l s0 k dir s';
  ps_globals : globals s' = globals s
}.
Lemma wp_put_entry k dir raw bytes (Q : unit → library → Prop) s :
  loaded p v0 l s0 k dir s → sl !! k = Some raw → (length bytes ≤ 32)%nat →
  (∀ v1 s', put_slot k dir (bytes ++ drop (length bytes) raw) s s' v1 → Q tt s') →
  wp (put_entry p dir bytes) Q s.
Proof using H0.
  intros [[(v & Hv & Htr) Hreg Hgb] Hat Hsect _] Hraw Hl HQ.
  destruct (at_slot_sector v0 c0 l H0 _ _ Hat) as (_ & Hpos & Hin & _).
  destruct (di_on _ _ _ H0 _ Hin) as [b Hb].
  pose proof (tr_ok _ _ Htr) as Hc. specialize (Hsect v Hv).
  assert (Hbuf : buf (fat v) = b).
  { rewrite <- (tr_store _ _ Htr _ Hpos) in Hb. unfold store in Hb. rewrite decide_True in Hb by done. by injection Hb. }
  assert (Hlb : length b = 512%nat) by (rewrite <- Hbuf; apply Hc).
  pose proof (as_idx _ _ _ _ Hat) as Hi. pose proof (Nat.mod_upper_bound k 16 ltac:(lia)) as Hm.
  assert (Ei : Z.to_nat (didx dir) = (32 * (k mod 16))%nat) by lia.
  destruct (buffer_write (dsect dir) b (set_bytes (Z.to_nat (didx dir)) bytes) v Hc Hpos Hsect Hbuf) as (Hc1 & Hr1 & Hs1).
  { rewrite set_bytes_length; [done|]. lia. }
  set (v1 := set_fat _ v) in *.
  unfold put_entry. apply wp_bind. eapply wp_on_fat; [exact Hv|]. apply wp_modify. intros s1 Hv1 Hg1 Hreg1.
  eapply wp_on_fat; [exact Hv1|]. apply wp_modify. intros s2 Hv2 Hg2 Hreg2. cbn beta in Hv2.
  change (volume_of p s2 = Some v1) in Hv2.
  assert (Hs : ∀ x, 0 < x → store v1 x = if decide (x = dsect dir) then Some (set_bytes (Z.to_nat (didx dir)) bytes b) else store v0 x).
  { intros x Hx. rewrite Hs1 by done. case_decide; [done|]. by apply Htr. }
  assert (Hrw : rewritten l v0 v1).
  { split.
    - rewrite Hr1. apply Htr.
    - intros x Hx Hn. rewrite Hs, decide_False by (done || congruence). done. }
  assert (Hd1 : directory v1 c0 l).
  { eapply rewritten_directory; [exact H0|done|done|]. intros x Hx Hsome. rewrite Hs by done. case_decide; [done|by auto]. }
  assert (Hat1 : at_slot (fat v1) l k dir) by (eapply at_slot_geometry; [by eapply rw_geometry|done]).
  apply (HQ v1). split; [done|done| | |congruence].
  - eapply slots_set; [exact Hat|exact Hb|exact Hraw|done|by eapply rw_geometry|done].
  - split; [split|done| |].
    + exists v1. split; [done|]. by apply transparent_refl.
    + eapply registry_trans; [exact Hreg|]. by eapply registry_trans.
    + unfold globals in *. congruence.
    + intros v2 Hv2'. rewrite Hv2 in Hv2'. injection Hv2' as <-. exact Hsect.
    + intros v2 Hv2'. rewrite Hv2 in Hv2'. injection Hv2' as <-.
      assert (Hst : store v1 (dsect dir) = Some (buf (fat v1))).
      { unfold store. rewrite decide_True; [done|]. exact Hsect. }
      by eapply (at_slot_bytes v1 c0 l Hd1).
Qed.
End put.

(** ** Finding the place *)

(** [need] free entries in a row, [cnt] of them found before the [k]-th: the first of them,
    and whether the end mark has been passed. *)
Fixpoint free_run (need : nat) (sl : list (list Z)) (k cnt : nat) (eod : bool) : option (nat * bool) :=
  if decide (need ≤ cnt)%nat then Some ((k - cnt)%nat, eod) else
  match sl with
  | [] => None
  | raw :: sl' =>
      free_run need sl' (S k) (if eod || sfn_is_free raw then S cnt else 0%nat) (eod || sfn_is_last raw)
  end.

Lemma free_run_eod need sl k cnt first eod :
  free_run need sl k cnt true = Some (first, eod) → first = (k - cnt)%nat ∧ eod = true.
Proof.
  revert k cnt. induction sl as [|raw sl IH]; intros k cnt; cbn [free_run]; case_decide; try done; [naive_solver..|].
  cbn [orb]. intros [-> ->]%IH. split; [lia|done].
Qed.
Lemma free_run_bound need sl k cnt eod first eod' :
  free_run need sl k cnt eod = Some (first, eod') → (cnt ≤ k)%nat → (cnt ≤ need)%nat →
  (k - cnt ≤ first ∧ k ≤ first + need ≤ k + length sl)%nat.
Proof.
  revert k cnt eod. induction sl as [|raw sl IH]; intros k cnt eod; cbn [free_run length]; case_decide; try done.
  - intros [= <- _] ??. lia.
  - intros [= <- _] ??. lia.
  - intros Hrun ??. apply IH in Hrun; destruct (eod || sfn_is_free raw); lia.
Qed.
(** No entry before the run is the end mark; those of the run up to the mark, if it is in the
    run, are free. *)
Lemma free_run_free need sl k cnt first eod :
  free_run need sl k cnt false = Some (first, eod) → (cnt ≤ k)%nat → (cnt ≤ need)%nat →
  ∃ m, (first ≤ m ≤ first + need ∧ k ≤ m)%nat ∧
    (∀ j, (k ≤ j < m)%nat → ∃ raw, sl !! (j - k)%nat = Some raw ∧ sfn_is_last raw = false ∧
       ((first ≤ j)%nat → sfn_is_free raw = true)) ∧
    if eod then (m < first + need)%nat ∧ ∃ raw, sl !! (m - k)%nat = Some raw ∧ sfn_is_last raw = true
    else m = (first + need)%nat.
Proof.
  revert k cnt. induction sl as [|raw sl IH]; intros k cnt; cbn [free_run]; case_decide; try done.
  1,2: intros [= <- <-] ??; exists (k - cnt + need)%nat; split; [lia|]; split; [intros; lia|done].
  cbn [orb]. intros Hrun ??. destruct (sfn_is_last raw) eqn:Hlast.
  - pose proof Hrun as Hb. apply free_run_eod in Hrun as [E ->].
    assert (Hfree : sfn_is_free raw = true) by (unfold sfn_is_free; unfold sfn_is_last in Hlast; by rewrite Hlast).
    rewrite Hfree in *. exists k. split; [lia|]. split; [intros; lia|]. split; [lia|].
    exists raw. by rewrite Nat.sub_diag.
  - pose proof Hrun as Hb. apply free_run_bound in Hb; [|destruct (sfn_is_free raw); lia..].
    apply IH in Hrun as (m & Hm & Hfree & Hend); [|destruct (sfn_is_free raw); lia..].
    exists m. split; [lia|]. split.
    + intros j Hj. destruct (decide (j = k)) as [->|Hne].
      * exists raw. rewrite Nat.sub_diag. split; [done|]. split; [done|]. destruct (sfn_is_free raw); [done|lia].
      * destruct (Hfree j) as (raw' & Hr & ?); [lia|]. exists raw'. split; [|done].
        by replace (j - k)%nat with (S (j - S k)) by lia.
    + destruct eod; [|done]. destruct Hend as (Hlt & raw' & Hr & ?). split; [done|]. exists raw'. split; [|done].
      by replace (m - k)%nat with (S (m - S k)) by lia.
Qed.

Section place.
Context (p : Z) (v0 : volume) (c0 : Z) (l : list Z) (s0 : library).
Hypothesis H0 : directory v0 c0 l.
Local Abbreviation sl := (slots v0 l).

Lemma sector_cluster c j :
  cluster (fat v0) c → 0 ≤ j < spc (fat v0) → sect_to_clust (fat v0) (clust_to_sect (fat v0) c + j) = c.
Proof using H0.
  intros Hc Hj. pose proof (di_layout _ _ _ H0) as Hla. destruct (cluster_sector _ Hla _ Hc) as (E & Hlo & Hhi).
  pose proof (la_shift _ Hla). pose proof (la_tables _ Hla). pose proof (spc_pos _ Hla).
  pose proof (ge_count _ (fo_geometry _ (di_ok _ _ _ H0))). unfold cluster in Hc.
  unfold sect_to_clust. rewrite E. rewrite (u32_small (_ - _)) by nia. rewrite Z.shiftr_div_pow2 by lia.
  fold (spc (fat v0)).
  replace (data_sect (fat v0) + (c - 2) * spc (fat v0) + j - data_sect (fat v0)) with (j + (c - 2) * spc (fat v0)) by lia.
  rewrite Z.div_add, Z.div_small by lia. rewrite u32_small by lia. lia.
Qed.
Lemma at_slot_loc f k d dir :
  geometry_of f = geometry_of (fat v0) → at_slot (fat v0) l k d → at_slot (fat v0) l k (dir_at_loc f dir (loc_of d)).
Proof using H0.
  intros Hg [Hc Hs Hi]. destruct (sp_pos _ _ _ H0) as [Hsp Hspz].
  pose proof (Nat.mod_upper_bound (k / 16) (Z.to_nat (spc (fat v0))) ltac:(lia)).
  assert (Hcl : cluster (fat v0) (dclust d)).
  { pose proof (chain_clusters _ _ _ (di_chain _ _ _ H0)) as Hcl. rewrite Forall_forall in Hcl.
    eapply Hcl, list_elem_of_lookup_2, Hc. }
  assert (E : sect_to_clust f (dsect d) = dclust d).
  { replace (sect_to_clust f (dsect d)) with (sect_to_clust (fat v0) (dsect d)).
    - rewrite Hs. apply sector_cluster; [done|lia].
    - unfold geometry_of in Hg. injection Hg as E1 E2 E3 E4 E5 E6 E7 E8. unfold sect_to_clust. by rewrite E6, E8. }
  split; cbn [dir_at_loc loc_of l_sect l_idx dclust dsect didx]; rewrite ?E; done.
Qed.
Lemma wp_next_stretch k dir (Q : Dir * res unit → library → Prop) s :
  walking p v0 s0 s → at_slot (fat v0) l k dir → (S k < length sl)%nat →
  (∀ dir' s', walking p v0 s0 s' → globals s' = globals s → at_slot (fat v0) l (S k) dir' → Q (dir', Ok tt) s') →
  wp (on_fat p (dir_next_stretch dir)) Q s.
Proof using H0.
  intros [(v & Hv & Htr) Hreg Hb] Hat Hk HQ. eapply wp_on_fat; [exact Hv|]. unfold dir_next_stretch. apply wp_bind.
  eapply wp_dir_next; [exact H0|exact Hat|exact Htr| |intros; lia].
  intros dir' v' Htr' Hat' _. cbn [snd]. apply wp_ret. intros s' Hv' Hg Hr. apply HQ; [|done|done].
  split; [by exists v'|by eapply registry_trans|]. unfold globals in Hg. congruence.
Qed.

(** The entry before the next one. *)
Lemma wp_find_free fuel need : ∀ k dir cnt eod floc first eod' s (Q : Dir * res (bool * Loc) → library → Prop),
  free_run need (drop k sl) k cnt eod = Some (first, eod') → (first + need < length sl)%nat → (cnt ≤ k)%nat →
  walking p v0 s0 s → at_slot (fat v0) l k dir → (length sl - k < fuel)%nat → (cnt ≤ need)%nat →
  ((0 < cnt)%nat → ∃ d, at_slot (fat v0) l (k - cnt) d ∧ floc = loc_of d) → (0 < need)%nat →
  (∀ dir' d s', walking p v0 s0 s' → globals s' = globals s → at_slot (fat v0) l (first + need) dir' →
     at_slot (fat v0) l first d → Q (dir', Ok (eod', loc_of d)) s') →
  wp (find_free_entries fuel need p dir cnt eod floc) Q s.
Proof using H0.
  induction fuel as [|fuel IH]; intros k dir cnt eod floc first eod' s Q Hrun Hroom Hcnt Hw Hat Hf Hle Hloc Hn HQ; [lia|].
  destruct (at_slot_sector _ _ _ H0 _ _ Hat) as (_ & _ & _ & Hk).
  destruct (lookup_lt_is_Some_2 sl k Hk) as [raw Hraw]. rewrite (drop_S _ _ _ Hraw) in Hrun.
  cbn [free_run find_free_entries] in Hrun |- *. destruct (decide (need ≤ cnt)%nat) as [Hge|Hlt].
  { injection Hrun as <- <-. assert (cnt = need) as -> by lia. destruct Hloc as (d & Hd & ->); [lia|]. apply wp_ret.
    apply HQ; [done..| |done]. by replace (k - need + need)%nat with k by lia. }
  apply wp_bind. eapply wp_load_slot; [exact H0|exact Hw|exact Hat|]. intros s1 Hld Hg1.
  apply wp_bind. eapply wp_dir_ptr; [exact Hld|exact Hraw|]. cbv zeta.
  assert (Hmore : (S k < length sl)%nat).
  { apply free_run_bound in Hrun; [|destruct (eod || sfn_is_free raw); lia..]. lia. }
  apply wp_bind. eapply wp_next_stretch; [apply Hld|exact Hat|exact Hmore|]. intros dir' s2 Hw2 Hg2 Hat2. cbn [fst snd].
  eapply (IH (S k) dir'); [exact Hrun|done| |done|done|lia| | |done|].
  - destruct (eod || sfn_is_free raw); lia.
  - destruct (eod || sfn_is_free raw); lia.
  - destruct (eod || sfn_is_free raw); [|lia]. intros _. cbn [andb]. case_bool_decide as Ec.
    + subst cnt. exists dir. by replace (S k - 1)%nat with k by lia.
    + destruct Hloc as (d & Hd & ->); [lia|]. exists d. by replace (S k - S cnt)%nat with (k - cnt)%nat by lia.
  - intros d1 d2 s3 Hw3 Hg3. apply HQ; [done|]. congruence.
Qed.
End place.

(** ** Writing the entries *)
Fixpoint overwrite (k : nat) (es sl : list (list Z)) : list (list Z) :=
  match es with [] => sl | e :: es' => overwrite (S k) es' (<[k := e]> sl) end.
Lemma overwrite_app k es es' sl : overwrite k (es ++ es') sl = overwrite (k + length es) es' (overwrite k es sl).
Proof.
  revert k sl. induction es as [|e es IH]; intros k sl; cbn [app overwrite length]; [by rewrite Nat.add_0_r|].
  rewrite IH. f_equal. lia.
Qed.
Lemma overwrite_lookup k es sl j :
  (k + length es ≤ length sl)%nat →
  overwrite k es sl !! j = if decide (k ≤ j < k + length es)%nat then es !! (j - k)%nat else sl !! j.
Proof.
  revert k sl. induction es as [|e es IH]; intros k sl Hl; cbn [overwrite length] in *; [case_decide; [lia|done]|].
  rewrite IH by (rewrite length_insert; lia). destruct (decide (j = k)) as [->|Hne].
  - rewrite decide_False, decide_True by lia. rewrite list_lookup_insert_eq by lia. by rewrite Nat.sub_diag.
  - rewrite list_lookup_insert_ne by done. do 2 case_decide; try lia; [|done].
    by replace (j - k)%nat with (S (j - S k)) by lia.
Qed.
Lemma overwrite_length k es sl : length (overwrite k es sl) = length sl.
Proof. revert k sl. induction es as [|e es IH]; intros k sl; cbn [overwrite]; [done|]. by rewrite IH, length_insert. Qed.
Lemma lfn_entry_length mask i crc frag raw : length raw = 32%nat → length (lfn_entry mask i crc frag raw) = 32%nat.
Proof.
  intros H. unfold lfn_entry, set_le. rewrite set_bytes_length, !length_insert; unfold put_lfn_name_frag;
    rewrite ?length_insert, ?put_chars_length; [done|]. rewrite le_bytes_length. lia.
Qed.

Section add.
Context (p : Z) (c0 : Z) (l : list Z) (s0 : library).

(** The directory has become [v1], whose entries are [new]. *)
Record wrote (new : list (list Z)) (v0 v1 : volume) (s s' : library) : Prop := {
  wr_directory : directory v1 c0 l;
  wr_rewritten : rewritten l v0 v1;
  wr_slots : slots v1 l = new;
  wr_walking : walking p v1 s0 s';
  wr_globals : globals s' = globals s
}.
Lemma wp_add_lfn name crc i : ∀ v0 k dir mask s (Q : Dir * res unit → library → Prop),
  directory v0 c0 l → walking p v0 s0 s → at_slot (fat v0) l k dir → (k + i < length (slots v0 l))%nat →
  (∀ v1 dir' s',
     wrote (overwrite k (lfn_entries i mask crc name (take i (drop k (slots v0 l)))) (slots v0 l)) v0 v1 s s' →
     at_slot (fat v1) l (k + i) dir' → Q (dir', Ok tt) s') →
  wp (add_lfn i p dir name mask crc) Q s.
Proof.
  induction i as [|i IH]; intros v0 k dir mask s Q H0 Hw Hat Hk HQ; cbn [add_lfn].
  { apply wp_ret. apply (HQ v0); [|by rewrite Nat.add_0_r]. cbn. split; [done|apply rewritten_refl|done..]. }
  destruct (lookup_lt_is_Some_2 (slots v0 l) k) as [raw Hraw]; [lia|].
  apply wp_bind. eapply wp_load_slot; [exact H0|exact Hw|exact Hat|].
  intros s1 Hld Hg1. apply wp_bind. eapply wp_dir_ptr; [exact Hld|exact Hraw|].
  assert (Hlr : length raw = 32%nat) by by eapply slot_length.
  set (e := lfn_entry _ _ _ _ _). assert (Hle : length e = 32%nat) by by apply lfn_entry_length.
  apply wp_bind. eapply wp_put_entry; [exact H0|exact Hld|exact Hraw|lia|]. intros v1 s2 [Hd1 Hrw Hsl Hld1 Hg2].
  rewrite drop_ge, app_nil_r in Hsl by lia.
  apply wp_bind. eapply wp_step; [exact Hd1|apply Hld1|apply Hld1| |intros ?? _ He; rewrite Hsl, length_insert in He; lia].
  intros dir' s3 Hw3 Hg3 Hat3. unfold at_pos. cbn [fst snd].
  eapply (IH v1 (S k)); [exact Hd1|exact Hw3|exact Hat3|rewrite Hsl, length_insert; lia|].
  intros v2 dir2 s4 [Hd2 Hrw2 Hsl2 Hw4 Hg4] Hat4. apply (HQ v2); [|by replace (k + S i)%nat with (S k + i)%nat by lia].
  split; [done|by eapply rewritten_trans| |done|congruence]. rewrite Hsl2, Hsl.
  rewrite (drop_S (slots v0 l) raw k) by done. cbn [take lfn_entries overwrite].
  rewrite drop_insert_lt by lia. done.
Qed.

(** The directory with the new name. *)
Definition lfns_of (name : list Z) : nat := Z.to_nat (lfn_count (Z.of_nat (length name))).
Definition stamp : Z * Z := encode_timestamp fat_get_timestamp.
Definition new_entry (name : list Z) (attr clust : Z) : list Z := sfn_entry (put_sfn_name name) attr clust stamp.1 stamp.2.
Definition marked (k : nat) (sl : list (list Z)) : list (list Z) := <[k := SFN_LAST :: drop 1 (default [] (sl !! k))]> sl.
Definition added_slots (name : list Z) (attr clust : Z) (first : nat) (eod : bool) (sl : list (list Z)) : list (list Z) :=
  let n := lfns_of name in
  let sl := if eod then marked (first + S n) sl else sl in
  overwrite first (lfn_entries n LFN_HEAD_MSK (get_crc (put_sfn_name name)) name (take n (drop first sl)) ++
                   [new_entry name attr clust]) sl.
Lemma new_entry_length name attr clust : length (new_entry name attr clust) = 32%nat.
Proof.
  unfold new_entry, sfn_entry. rewrite !length_app, !le_bytes_length, put_sfn_name_length. done.
Qed.

Lemma wp_mark v0 k dir (eod : bool) s (K : res unit → L (Dir * res unit)) (Q : Dir * res unit → library → Prop) :
  directory v0 c0 l → walking p v0 s0 s → at_slot (fat v0) l k dir →
  (∀ v1 s', wrote (if eod then marked k (slots v0 l) else slots v0 l) v0 v1 s s' → wp (K (Ok tt)) Q s') →
  wp (u ← (if eod then on_fat p (update_buf (dsect dir)) ;? put_entry p dir [SFN_LAST];; mret (Ok tt) else mret (Ok tt));
      K u) Q s.
Proof.
  intros H0 Hw Hat HK. apply wp_bind. destruct eod.
  - apply wp_bind. eapply wp_load_slot; [exact H0|exact Hw|exact Hat|]. intros s1 Hld Hg1.
    destruct (at_slot_sector _ _ _ H0 _ _ Hat) as (_ & _ & _ & Hk). destruct (lookup_lt_is_Some_2 _ _ Hk) as [raw Hraw].
    apply wp_bind. eapply wp_put_entry; [exact H0|exact Hld|exact Hraw|cbn; lia|]. intros v1 s2 [Hd1 Hrw Hsl Hld1 Hg2].
    apply wp_ret, (HK v1). split; [done|done| |apply Hld1|congruence]. unfold marked. by rewrite Hsl, Hraw.
  - apply wp_ret, (HK v0). by split; [|apply rewritten_refl|..].
Qed.

Lemma wp_dir_add v0 dir name attr clust first eod s (Q : Dir * res unit → library → Prop) :
  directory v0 c0 l → walking p v0 s0 s → sclust dir = c0 → (0 < length name ≤ 255)%nat →
  free_run (S (lfns_of name)) (slots v0 l) 0 0 false = Some (first, eod) →
  (first + S (lfns_of name) < length (slots v0 l))%nat →
  (∀ v1 dir' s', wrote (added_slots name attr clust first eod (slots v0 l)) v0 v1 s s' →
     at_slot (fat v1) l (first + lfns_of name) dir' → Q (dir', Ok tt) s') →
  wp (dir_add p dir name attr clust) Q s.
Proof.
  intros H0 Hw Hc Hlen Hrun Hroom HQ. unfold dir_add.
  destruct (Z.leb_spec (Z.of_nat (length name)) 0); [lia|]. destruct (Z.ltb_spec 255 (Z.of_nat (length name))); [lia|].
  cbn [orb]. fold (lfns_of name). set (n := lfns_of name) in *.
  pose proof Hw as [(v & Hv & Htr) _ _]. pose proof (rest_geometry _ _ (tr_rest _ _ Htr)) as Hg.
  apply wp_bind. eapply wp_get_fat_of; [exact Hv|]. cbv zeta.
  assert (Hcl : cluster (fat v0) c0).
  { pose proof (chain_clusters _ _ _ (di_chain _ _ _ H0)) as Hcl. rewrite Forall_forall in Hcl.
    eapply Hcl, list_elem_of_lookup_2, chain_first, H0. }
  set (d0 := dir_enter (fat v) dir (sclust dir)).
  assert (Hat0 : at_slot (fat v0) l 0 d0).
  { unfold d0, dir_enter. rewrite Hc. destruct (Z.eqb_spec c0 0); [unfold cluster in Hcl; lia|].
    replace (dir_at_clust (fat v) {| sclust := c0; dclust := dclust dir; dsect := dsect dir; didx := didx dir |} c0)
      with (dir_at_clust (fat v0) {| sclust := c0; dclust := dclust dir; dsect := dsect dir; didx := didx dir |} c0) by
      (unfold dir_at_clust; by rewrite (clust_to_sect_geometry _ _ Hg)).
    by eapply at_slot_first. }
  clearbody d0. apply wp_bind. eapply (wp_find_free p v0 c0 l s0 H0 _ (S n) 0 d0 0 false); [exact Hrun|exact Hroom|lia|exact Hw|exact Hat0| |lia|lia|lia|].
  { pose proof (dir_fuel_slots _ _ _ H0). unfold dir_fuel in *. unfold geometry_of in Hg.
    replace (clust_cnt (fat v)) with (clust_cnt (fat v0)) by congruence.
    replace (clust_shift (fat v)) with (clust_shift (fat v0)) by congruence. lia. }
  intros d1 d s1 Hw1 Hg1 Hat1 Hatd. cbn [fst snd].
  eapply wp_mark; [exact H0|exact Hw1|exact Hat1|]. intros v1 s2 [Hd1 Hrw1 Hsl1 Hw2 Hg2]. cbv iota.
  pose proof Hw2 as [(v1' & Hv1 & Htr1) _ _].
  apply wp_bind. eapply wp_get_fat_of; [exact Hv1|]. cbv zeta.
  assert (Hat2 : at_slot (fat v1) l first (dir_at_loc (fat v1') d1 (loc_of d))).
  { eapply at_slot_loc; [exact Hd1|by apply rest_geometry, Htr1|]. eapply at_slot_geometry; [by eapply rw_geometry|exact Hatd]. }
  assert (Hl1 : length (slots v1 l) = length (slots v0 l)).
  { rewrite Hsl1. destruct eod; [apply length_insert|done]. }
  apply wp_bind. eapply wp_add_lfn; [exact Hd1|exact Hw2|exact Hat2|lia|].
  intros v2 d2 s3 [Hd2 Hrw2 Hsl2 Hw3 Hg3] Hat3. unfold at_pos. cbn [fst snd].
  fold stamp. destruct stamp as [date time] eqn:Estamp.
  apply wp_bind. eapply wp_load_slot; [exact Hd2|exact Hw3|exact Hat3|]. intros s4 Hld4 Hg4.
  assert (Hk : (first + n < length (slots v2 l))%nat) by (rewrite Hsl2, overwrite_length; lia).
  destruct (lookup_lt_is_Some_2 _ _ Hk) as [raw Hraw].
  pose proof (new_entry_length name attr clust) as Hnl. pose proof (slot_length _ _ _ Hd2 _ _ Hraw) as Hrl.
  assert (Ene : sfn_entry (put_sfn_name name) attr clust date time = new_entry name attr clust) by (unfold new_entry; by rewrite Estamp).
  rewrite Ene. apply wp_bind. eapply wp_put_entry; [exact Hd2|exact Hld4|exact Hraw|lia|].
  intros v3 s5 [Hd3 Hrw3 Hsl3 Hld5 Hg5]. rewrite drop_ge, app_nil_r in Hsl3 by lia.
  apply wp_ret, (HQ v3); [|apply Hld5]. split.
  - done.
  - eapply rewritten_trans; [exact Hrw1|]. by eapply rewritten_trans.
  - rewrite Hsl3, Hsl2, Hsl1. unfold added_slots. fold n. rewrite overwrite_app.
    rewrite lfn_entries_length; [done|]. rewrite length_take, length_drop. destruct eod; unfold marked; rewrite ?length_insert; lia.
  - apply Hld5.
  - congruence.
Qed.
End add.

(** ** The names afterwards *)
Lemma read_lfn_ext cnt crc a b gbuf glen : take cnt a = take cnt b → read_lfn cnt crc a gbuf glen = read_lfn cnt crc b gbuf glen.
Proof.
  revert a b gbuf glen. induction cnt as [|cnt IH]; intros a b gbuf glen; cbn [read_lfn]; [done|].
  destruct a as [|x a], b as [|y b]; try done. cbn [take]. intros [= -> E].
  destruct (parse_lfn_entry crc y); [|done]. cbn [mbind option_bind]. by apply IH.
Qed.
Lemma parse_lfn_ext raw a b gbuf :
  take (lfn_length raw) (raw :: a) = take (lfn_length raw) (raw :: b) → length raw = 32%nat →
  parse_lfn (raw :: a) gbuf = parse_lfn (raw :: b) gbuf.
Proof.
  intros E Hl. unfold parse_lfn. cbn [head mbind option_bind]. rewrite <- !get_le_byte by lia.
  destruct (_ =? 0); [done|]. destruct (_ <? _); [done|]. by apply read_lfn_ext.
Qed.
Lemma items_ext sl sl' k its :
  length sl' = length sl → (∀ j, (k ≤ j)%nat → sl' !! j = sl !! j) → dir_items sl k its → dir_items sl' k its.
Proof.
  intros Hl He H. induction H as [k raw Hraw Hlast|k Hk|k raw its Hraw Hlast Hfree Hits IH|k raw its Hraw Hfree Hlfn Hits IH
    |k n raw sfn nm its Hraw Hfree Hlfn Hn Hparse Hsfn Hfree' Hlfn' Hcrc Hits IH].
  - eapply items_mark; [rewrite He by lia; exact Hraw|done].
  - apply items_chain. lia.
  - eapply items_free; [rewrite He by lia; exact Hraw|done|done|]. apply IH. intros j Hj. apply He. lia.
  - eapply items_short; [rewrite He by lia; exact Hraw|done|done|]. apply IH. intros j Hj. apply He. lia.
  - apply (items_long sl' k n raw sfn nm); try done; [rewrite He by lia; exact Hraw| |rewrite He by lia; exact Hsfn|].
    + intros gbuf Hg. replace (drop k sl') with (drop k sl); [by apply Hparse|].
      apply list_eq. intros i. rewrite !lookup_drop. symmetry. apply He. lia.
    + apply IH. intros j Hj. apply He. lia.
Qed.

(** A long name whose entries are left alone stays. *)
Lemma items_long_frame sl sl' k n raw sfn nm rest :
  sl !! k = Some raw → sfn_is_free raw = false → sfn_is_lfn raw = true → n = lfn_length raw →
  (∀ gbuf, length gbuf = 512%nat → ∃ gbuf',
     parse_lfn (drop k sl) gbuf = Some (gbuf', Z.of_nat (length nm)) ∧ take (length nm) gbuf' = nm) →
  sl !! (k + n)%nat = Some sfn → sfn_is_free sfn = false → sfn_is_lfn sfn = false → get_crc sfn = get_le 1 13 raw →
  Forall (λ raw, length raw = 32%nat) sl → (∀ j, (j ≤ k + n)%nat → sl' !! j = sl !! j) →
  dir_items sl' (S (k + n)) rest →
  dir_items sl' k ({| it_start := k; it_entry := k + n; it_long := true; it_name := nm |} :: rest).
Proof.
  intros Hraw Hfree Hlfn Hn Hparse Hsfn Hfree' Hlfn' Hcrc Hlen He Hrest.
  assert (Hraw' : sl' !! k = Some raw) by (rewrite He by lia; exact Hraw).
  apply (items_long sl' k n raw sfn nm); try done; [|rewrite He by lia; exact Hsfn].
  intros gbuf Hg. rewrite (drop_S _ _ _ Hraw'). destruct (Hparse gbuf Hg) as (gb & Hp & Ht). exists gb. split; [|done].
  rewrite <- Hp, (drop_S _ _ _ Hraw). apply parse_lfn_ext.
  - rewrite <- Hn, <- (drop_S _ _ _ Hraw), <- (drop_S _ _ _ Hraw'). apply list_eq. intros i.
    destruct (decide (i < n)%nat); [|by rewrite !lookup_take_ge by lia].
    rewrite !lookup_take_lt, !lookup_drop by lia. apply He. lia.
  - rewrite Forall_forall in Hlen. eapply Hlen, list_elem_of_lookup_2, Hraw.
Qed.
(** A walk that passes entry [first] splits there, and what comes from there on may change. *)
Lemma items_split sl k its first need :
  dir_items sl k its → (k ≤ first < length sl)%nat → (0 < need)%nat → Forall (λ raw, length raw = 32%nat) sl →
  (∀ j raw, (k ≤ j < first)%nat → sl !! j = Some raw → sfn_is_last raw = false) →
  Forall (λ it, it_entry it < first ∨ first + need ≤ it_start it)%nat its →
  ∃ before after, its = before ++ after ∧ dir_items sl first after ∧
    ∀ sl' rest, length sl' = length sl → (∀ j, (j < first)%nat → sl' !! j = sl !! j) → dir_items sl' first rest →
      dir_items sl' k (before ++ rest).
Proof.
  intros H Hk Hneed Hlen Hlast Hits. induction H as [k raw Hraw Hl|k Hl|k raw its Hraw Hl Hfree H IH|k raw its Hraw Hfree Hlfn H IH
    |k n raw sfn nm its Hraw Hfree Hlfn Hn Hparse Hsfn Hfree' Hlfn' Hcrc H IH]; (destruct (decide (k = first)) as [->|Hne]; [eexists [], _; split; [reflexivity|]|]).
  1,3,5,7,9: split; [|done].
  - by eapply items_mark.
  - by apply items_chain.
  - by eapply items_free.
  - by eapply items_short.
  - by eapply items_long.
  - exfalso. assert (sfn_is_last raw = false) by (eapply Hlast; [|exact Hraw]; lia). congruence.
  - lia.
  - destruct IH as (before & after & -> & Ha & Hb); [lia|intros; eapply Hlast; [|done]; lia|done|].
    exists before, after. split; [done|]. split; [done|]. intros sl' rest Hl' He Hr.
    eapply items_free; [rewrite He by lia; exact Hraw|done|done|by apply Hb].
  - apply Forall_cons in Hits as [_ Hits].
    destruct IH as (before & after & -> & Ha & Hb); [lia|intros; eapply Hlast; [|done]; lia|done|].
    eexists (_ :: before), after. split; [reflexivity|]. split; [done|]. intros sl' rest Hl' He Hr. cbn [app].
    eapply items_short; [rewrite He by lia; exact Hraw|done|done|by apply Hb].
  - apply Forall_cons in Hits as [Hit Hits]. cbn [it_entry it_start] in Hit.
    destruct IH as (before & after & -> & Ha & Hb); [lia|intros; eapply Hlast; [|done]; lia|done|].
    eexists (_ :: before), after. split; [reflexivity|]. split; [done|]. intros sl' rest Hl' He Hr. cbn [app].
    eapply items_long_frame; [exact Hraw|done|done|done|exact Hparse|exact Hsfn|done|done|done|done| |by apply Hb].
    intros j Hj. apply He. lia.
Qed.
Lemma items_skip_free sl k m its :
  dir_items sl k its → (k ≤ m)%nat →
  (∀ j, (k ≤ j < m)%nat → ∃ raw, sl !! j = Some raw ∧ sfn_is_last raw = false ∧ sfn_is_free raw = true) → dir_items sl m its.
Proof.
  intros H Hk. remember (m - k)%nat as d eqn:Ed. revert k Hk Ed H. induction d as [|d IH]; intros k Hk Ed H Hf.
  { by replace m with k by lia. }
  destruct (Hf k) as (raw & Hr & Hl & Hfr); [lia|]. assert (dir_items sl (S k) its).
  { inversion H; subst; try congruence. apply lookup_lt_Some in Hr. lia. }
  apply (IH (S k)); [lia|lia|done|]. intros j Hj. apply Hf. lia.
Qed.
Lemma items_at_mark sl k raw its : dir_items sl k its → sl !! k = Some raw → sfn_is_last raw = true → its = [].
Proof.
  intros H Hr Hl. assert (Hf : sfn_is_free raw = true) by (unfold sfn_is_free; unfold sfn_is_last in Hl; by rewrite Hl).
  inversion H; subst; congruence.
Qed.

Lemma overwrite_drop k es sl :
  (k + length es ≤ length sl)%nat → drop k (overwrite k es sl) = es ++ drop (k + length es) sl.
Proof.
  intros Hl. apply list_eq. intros i. rewrite lookup_drop, overwrite_lookup by done.
  destruct (decide (i < length es)%nat).
  - rewrite decide_True, lookup_app_l by lia. f_equal. lia.
  - rewrite decide_False, lookup_app_r, lookup_drop by lia. f_equal. lia.
Qed.
(** The item of the new name. *)
Definition new_item (name : list Z) (first : nat) : item :=
  {| it_start := first; it_entry := first + lfns_of name; it_long := true; it_name := name |}.

Lemma added_items name attr clust sl its first eod :
  dir_items sl 0 its → Forall (λ raw, length raw = 32%nat) sl →
  (0 < length name ≤ 255)%nat → Forall lfn_char name → u8 attr ≠ FAT_ATTR_LFN →
  free_run (S (lfns_of name)) sl 0 0 false = Some (first, eod) → (first + S (lfns_of name) < length sl)%nat →
  Forall (λ it, it_entry it < first ∨ first + S (lfns_of name) ≤ it_start it)%nat its →
  ∃ before after, its = before ++ after ∧
    dir_items (added_slots name attr clust first eod sl) 0 (before ++ new_item name first :: after).
Proof.
  intros Hits Hlen Hname Hc Hattr Hrun Hroom Hapart. set (n := lfns_of name) in *.
  destruct (free_run_free _ _ _ _ _ _ Hrun) as (m & Hm & Hfree & Hend); [lia..|].
  destruct (items_split sl 0 its first (S n)) as (before & after & -> & Hafter & Hsplit); [done|lia|lia|done| |done|].
  { intros j raw Hj Hr. destruct (Hfree j) as (raw' & Hr' & Hl & _); [lia|]. rewrite Nat.sub_0_r, Hr in Hr'. by injection Hr' as <-. }
  exists before, after. split; [done|]. unfold added_slots. fold n. set (sl1 := if eod then _ else sl).
  assert (Hl1 : length sl1 = length sl) by (unfold sl1, marked; destruct eod; [apply length_insert|done]).
  assert (Hbefore : ∀ j, (j ≠ first + S n)%nat → sl1 !! j = sl !! j).
  { intros j Hj. unfold sl1, marked. destruct eod; [by rewrite list_lookup_insert_ne by lia|done]. }
  set (raws := take n (drop first sl1)).
  assert (Hraws : length raws = n) by (unfold raws; rewrite length_take, length_drop; lia).
  assert (Eraws : raws = take n (drop first sl)).
  { unfold raws. apply list_eq. intros i. destruct (decide (i < n)%nat); [|by rewrite !lookup_take_ge by lia].
    rewrite !lookup_take_lt, !lookup_drop by lia. apply Hbefore. lia. }
  set (es := _ ++ [_]). assert (Hes : length es = S n) by (unfold es; rewrite length_app, lfn_entries_length by done; cbn; lia).
  set (sl2 := overwrite first es sl1).
  assert (Hlook : ∀ j, ¬ (first ≤ j < first + S n)%nat → sl2 !! j = sl1 !! j).
  { intros j Hj. unfold sl2. rewrite overwrite_lookup by lia. rewrite decide_False; [done|]. lia. }
  apply Hsplit; [unfold sl2; by rewrite overwrite_length|intros j Hj; rewrite Hlook, Hbefore by lia; done|].
  eapply (added_item sl2 first name raws attr clust stamp.1 stamp.2 (drop (first + S n) sl1) after); try done.
  - rewrite Eraws. apply Forall_take, Forall_drop. exact Hlen.
  - unfold sl2. rewrite overwrite_drop by lia. rewrite Hes. unfold es. rewrite <- app_assoc. done.
  - fold (lfns_of name). fold n. replace (S (first + n)) with (first + S n)%nat by lia.
    assert (Hat : dir_items sl m after).
    { eapply items_skip_free; [exact Hafter|lia|]. intros j Hj. destruct (Hfree j) as (raw & Hr & Hl & Hf); [lia|].
      rewrite Nat.sub_0_r in Hr. exists raw. split; [done|]. split; [done|]. apply Hf. lia. }
    destruct eod.
    + destruct Hend as (Hlt & raw & Hr & Hl). rewrite Nat.sub_0_r in Hr. rewrite (items_at_mark _ _ _ _ Hat Hr Hl).
      eapply items_mark; [rewrite Hlook by lia; unfold sl1, marked; apply list_lookup_insert_eq; lia|]. done.
    + subst m. eapply items_ext; [|intros j Hj|exact Hat].
      * unfold sl2. by rewrite overwrite_length.
      * rewrite Hlook by lia. done.
Qed.
Lemma added_entry name attr clust first eod sl :
  (first + S (lfns_of name) < length sl)%nat → added_slots name attr clust first eod sl !! (first + lfns_of name)%nat = Some (new_entry name attr clust).
Proof.
  intros Hl. unfold added_slots. set (n := lfns_of name) in *. set (sl1 := if eod then _ else sl).
  assert (Hl1 : length sl1 = length sl) by (unfold sl1, marked; destruct eod; [apply length_insert|done]).
  assert (Hn : length (lfn_entries n LFN_HEAD_MSK (get_crc (put_sfn_name name)) name (take n (drop first sl1))) = n).
  { apply lfn_entries_length. rewrite length_take, length_drop. lia. }
  rewrite overwrite_lookup by (rewrite length_app, Hn; cbn; lia).
  rewrite decide_True by (rewrite length_app, Hn; cbn; lia).
  rewrite lookup_app_r, Hn by (rewrite Hn; lia). by replace (first + n - first - n)%nat with 0%nat by lia.
Qed.

(** ** Removing a name

    [remove_entries] frees the entries of the name, and the names of the directory are those
    before without it. *)
(** The entries from the [k]-th on, [n] of them, are free. *)
Fixpoint freed_slots (k n : nat) (sl : list (list Z)) : list (list Z) :=
  match n with
  | O => sl
  | S n' => freed_slots (S k) n' (<[k := SFN_FREE :: drop 1 (default [] (sl !! k))]> sl)
  end.
Lemma freed_slots_length k n sl : length (freed_slots k n sl) = length sl.
Proof. revert k sl. induction n as [|n IH]; intros k sl; cbn; [done|]. by rewrite IH, length_insert. Qed.
Lemma freed_slots_outside k n sl j : ¬ (k ≤ j < k + n)%nat → freed_slots k n sl !! j = sl !! j.
Proof.
  revert k sl. induction n as [|n IH]; intros k sl Hj; cbn; [done|]. rewrite IH by lia. apply list_lookup_insert_ne. lia.
Qed.
Lemma freed_slots_free k n sl j :
  (k ≤ j < k + n)%nat → (k + n ≤ length sl)%nat →
  ∃ raw, freed_slots k n sl !! j = Some raw ∧ sfn_is_last raw = false ∧ sfn_is_free raw = true.
Proof.
  revert k sl. induction n as [|n IH]; intros k sl Hj Hl; [lia|]. cbn [freed_slots]. destruct (decide (j = k)) as [->|Hne].
  - rewrite freed_slots_outside, list_lookup_insert_eq by lia. eexists. done.
  - apply IH; [lia|rewrite length_insert; lia].
Qed.

(** ** The writes *)
Section remove.
Context (p : Z) (c0 : Z) (l : list Z) (s0 : library).
Lemma wp_remove_loop fuel : ∀ v0 k n dir d s (Q : res unit → library → Prop),
  directory v0 c0 l → walking p v0 s0 s → at_slot (fat v0) l k dir → at_slot (fat v0) l (k + n) d →
  (n < fuel)%nat →
  (∀ v1 s', wrote p c0 l s0 (freed_slots k (S n) (slots v0 l)) v0 v1 s s' → Q (Ok tt) s') →
  wp (remove_loop fuel p dir (dsect d) (didx d)) Q s.
Proof.
  induction fuel as [|fuel IH]; intros v0 k n dir d s Q H0 Hw Hat Hd Hf HQ; [lia|]. cbn [remove_loop].
  apply wp_bind. eapply wp_load_slot; [exact H0|exact Hw|exact Hat|]. intros s1 Hld Hg1.
  destruct (at_slot_sector _ _ _ H0 _ _ Hat) as (Hsk & _ & _ & Hk).
  destruct (at_slot_sector _ _ _ H0 _ _ Hd) as (Hsd & _ & _ & Hkd).
  destruct (lookup_lt_is_Some_2 _ _ Hk) as [raw Hraw].
  apply wp_bind. eapply wp_put_entry; [exact H0|exact Hld|exact Hraw|cbn; lia|]. intros v1 s2 [Hd1 Hrw Hsl Hld1 Hg2].
  pose proof (as_idx _ _ _ _ Hat) as Hi. pose proof (as_idx _ _ _ _ Hd) as Hid.
  destruct ((dsect dir =? dsect d) && (didx dir =? didx d)) eqn:E.
  - apply andb_true_iff in E as [E1%Z.eqb_eq E2%Z.eqb_eq].
    assert (n = 0)%nat as ->.
    { rewrite E1 in Hsk. pose proof (chain_clusters _ _ _ (di_chain _ _ _ H0)) as Hcl.
      assert (Hnd : NoDup (file_sectors (fat v0) l)) by (apply file_sectors_nodup; [apply H0|done|eapply chain_nodup, H0]).
      pose proof (proj1 (NoDup_alt _) Hnd _ _ _ Hsk Hsd).
      pose proof (Nat.div_mod_eq k 16). pose proof (Nat.div_mod_eq (k + n) 16). lia. }
    apply wp_ret, (HQ v1). split; [done|done| |apply Hld1|congruence]. cbn [freed_slots]. by rewrite Hsl, Hraw.
  - destruct n as [|n].
    { exfalso. rewrite Nat.add_0_r in *. rewrite Hsk in Hsd. injection Hsd as E1.
      rewrite E1, Z.eqb_refl in E. cbn [andb] in E. apply Z.eqb_neq in E. congruence. }
    apply wp_bind. eapply wp_step; [exact Hd1|apply Hld1|apply Hld1| |].
    2:{ intros dir' s3 _ He. rewrite Hsl, length_insert in He. lia. }
    intros dir' s3 Hw3 Hg3 Hat3. cbn [fst snd].
    eapply (IH v1 (S k) n dir' d); [exact Hd1|exact Hw3|exact Hat3| |lia|].
    { eapply at_slot_geometry; [by eapply rw_geometry|]. by replace (S k + n)%nat with (k + S n)%nat by lia. }
    intros v2 s4 [Hd2 Hrw2 Hsl2 Hw4 Hg4]. apply (HQ v2). split; [done|by eapply rewritten_trans| |done|congruence].
    rewrite Hsl2, Hsl. cbn [freed_slots]. by rewrite Hraw.
Qed.
(** From the entry of the name, with the place where its entries begin. *)
Lemma wp_remove_entries v0 k n dir d s (Q : res unit → library → Prop) :
  directory v0 c0 l → walking p v0 s0 s → at_slot (fat v0) l (k + n) dir → at_slot (fat v0) l k d →
  (∀ v1 s', wrote p c0 l s0 (freed_slots k (S n) (slots v0 l)) v0 v1 s s' → Q (Ok tt) s') →
  wp (remove_entries p dir (loc_of d)) Q s.
Proof.
  intros H0 Hw Hat Hd HQ. pose proof Hw as [(v & Hv & Htr) _ _]. pose proof (rest_geometry _ _ (tr_rest _ _ Htr)) as Hg.
  unfold remove_entries. apply wp_bind. eapply wp_get_fat_of; [exact Hv|].
  eapply wp_remove_loop; [exact H0|exact Hw|by eapply at_slot_loc|exact Hat| |exact HQ].
  destruct (at_slot_sector _ _ _ H0 _ _ Hat) as (_ & _ & _ & Hk).
  pose proof (dir_fuel_slots _ _ _ H0). unfold dir_fuel in *. unfold geometry_of in Hg.
  replace (clust_cnt (fat v)) with (clust_cnt (fat v0)) by congruence.
  replace (clust_shift (fat v)) with (clust_shift (fat v0)) by congruence. lia.
Qed.
End remove.

(** ** The names afterwards *)
Lemma items_cut sl k before it after :
  dir_items sl k (before ++ it :: after) → Forall (λ raw, length raw = 32%nat) sl →
  (k ≤ it_start it ≤ it_entry it ∧ it_entry it < length sl)%nat ∧ dir_items sl (S (it_entry it)) after ∧
  ∀ sl' rest, length sl' = length sl → (∀ j, (j < it_start it)%nat → sl' !! j = sl !! j) → dir_items sl' (it_start it) rest →
    dir_items sl' k (before ++ rest).
Proof.
  intros H Hlen. remember (before ++ it :: after) as its eqn:Eits. revert before Eits.
  induction H as [k raw Hraw Hl|k Hl|k raw its Hraw Hl Hfree H IH|k raw its Hraw Hfree Hlfn H IH
    |k n raw sfn nm its Hraw Hfree Hlfn Hn Hparse Hsfn Hfree' Hlfn' Hcrc H IH]; intros before Eits.
  - by destruct before.
  - by destruct before.
  - destruct (IH before Eits) as (Hb & Ha & Hr). split; [lia|]. split; [done|]. intros sl' rest Hl' He Hrest.
    eapply items_free; [rewrite He by lia; exact Hraw|done|done|by apply Hr].
  - destruct before as [|x before]; cbn [app] in Eits.
    { injection Eits as <- ->. cbn [it_start it_entry]. apply lookup_lt_Some in Hraw. split; [lia|]. split; [done|]. done. }
    injection Eits as <- Eits. destruct (IH before Eits) as (Hb & Ha & Hr). split; [lia|]. split; [done|].
    intros sl' rest Hl' He Hrest. cbn [app].
    eapply items_short; [rewrite He by lia; exact Hraw|done|done|by apply Hr].
  - destruct before as [|x before]; cbn [app] in Eits.
    { injection Eits as <- ->. cbn [it_start it_entry]. apply lookup_lt_Some in Hsfn. split; [lia|]. split; [done|]. done. }
    injection Eits as <- Eits. destruct (IH before Eits) as (Hb & Ha & Hr). split; [lia|]. split; [done|].
    intros sl' rest Hl' He Hrest. cbn [app].
    eapply items_long_frame; [exact Hraw|done|done|done|exact Hparse|exact Hsfn|done|done|done|done| |by apply Hr].
    intros j Hj. apply He. lia.
Qed.
Lemma items_through_free sl k m its :
  dir_items sl m its → (k ≤ m)%nat →
  (∀ j, (k ≤ j < m)%nat → ∃ raw, sl !! j = Some raw ∧ sfn_is_last raw = false ∧ sfn_is_free raw = true) → dir_items sl k its.
Proof.
  intros H Hk. remember (m - k)%nat as d eqn:Ed. revert k Hk Ed. induction d as [|d IH]; intros k Hk Ed Hf.
  { by replace k with m by lia. }
  destruct (Hf k) as (raw & Hr & Hl & Hfr); [lia|]. eapply items_free; [done..|]. apply IH; [lia|lia|]. intros j Hj. apply Hf. lia.
Qed.
Lemma removed_items sl before it after :
  dir_items sl 0 (before ++ it :: after) → Forall (λ raw, length raw = 32%nat) sl →
  dir_items (freed_slots (it_start it) (S (it_entry it - it_start it)) sl) 0 (before ++ after).
Proof.
  intros H Hlen. destruct (items_cut _ _ _ _ _ H Hlen) as (Hb & Ha & Hr).
  apply Hr; [apply freed_slots_length|intros j Hj; apply freed_slots_outside; lia|].
  eapply (items_through_free _ _ (S (it_entry it))); [|lia|].
  - eapply items_ext; [apply freed_slots_length| |exact Ha]. intros j Hj. apply freed_slots_outside. lia.
  - intros j Hj. apply freed_slots_free; lia.
Qed.
