(* ===== verification/FatPath.v ===== *)
(** * FAT32: following a path

    What a path means on a volume ([resolves]): from the root, name by name through the
    directories, to the entry of the last name, or to the place where it ends.  And what
    stays of a directory when a chain of clusters is freed. *)
From S2P Require Import Prelude.
From S2P Require Import CString.
From S2P Require Import FatNames.
From S2P Require Import FatTable.
From S2P Require Import FatCache.
From S2P Require Import FatChain.
From S2P Require Import FatData.
From S2P Require Import FatMount.
From S2P Require Import FatDir.
From S2P Require Import FatSlots.
From S2P Require Import FatSearch.
From S2P Require Import FatAdd.
From S2P Require Import FatCalls.
Local Open Scope Z_scope.
Local Open Scope fat_scope.

(** ** Paths *)
Lemma subpath_bounds str n : subpath_len str = Some n → 0 ≤ n ∧ (Z.to_nat n ≤ length str)%nat.
Proof.
  revert n. induction str as [|c str IH]; intros n; cbn [subpath_len length]; [done|].
  destruct (_ || _); [intros [= <-]; lia|]. destruct (subpath_len str) as [m|]; [|done]. cbn. intros [= <-].
  destruct (IH m eq_refl). lia.
Qed.
Lemma skip_slashes_length str : (length (skip_slashes str) ≤ length str)%nat.
Proof. induction str as [|c str IH]; cbn; [done|]. destruct (_ =? _); cbn; lia. Qed.

(** An entry found on the way: its directory and the name in it. *)
Record place := { pl_clust : Z; pl_chain : list Z; pl_item : item }.
(** The first cluster of a directory; the entry [..] of a directory below the root has 0. *)
Definition dir_cluster (f : Fat) (c : Z) : Z := if c =? 0 then root_clust f else c.

(** [c]: the cluster the next name is searched from, in a directory if [enterable]; [last]:
    the entry found last. *)
Inductive resolves (v : volume) : Z → bool → list Z → option place → res (option place) → Prop :=
| rs_end c enterable str last : subpath_len (skip_slashes str) = Some 0 → resolves v c enterable str last (Ok last)
| rs_file c str last n :
    subpath_len (skip_slashes str) = Some n → n ≠ 0 → resolves v c false str last (Err FAT_ERR_PATH)
| rs_missing c str last n l its :
    subpath_len (skip_slashes str) = Some n → n ≠ 0 →
    directory v (dir_cluster (fat v) c) l → dir_items (slots v l) 0 its →
    List.find (names (take (Z.to_nat n) (skip_slashes str))) its = None →
    resolves v c true str last (Err FAT_ERR_EOF)
| rs_step c str last n l its it sfn r :
    subpath_len (skip_slashes str) = Some n → n ≠ 0 →
    directory v (dir_cluster (fat v) c) l → dir_items (slots v l) 0 its →
    List.find (names (take (Z.to_nat n) (skip_slashes str))) its = Some it →
    slots v l !! it_entry it = Some sfn →
    resolves v (sfn_cluster sfn) (has_flag (get_le 1 11 sfn) FAT_ATTR_DIR) (drop (Z.to_nat n) (skip_slashes str))
      (Some {| pl_clust := dir_cluster (fat v) c; pl_chain := l; pl_item := it |}) r →
    resolves v c true str last r.

Lemma dir_enter_cluster f f' dir c :
  geometry_of f' = geometry_of f → sclust (dir_enter f' dir c) = dir_cluster f c.
Proof. unfold geometry_of. intros Hg. cbn. unfold dir_cluster. by replace (root_clust f') with (root_clust f) by congruence. Qed.

Section follow.
Context (p : Z) (v0 : volume) (s0 : library).

(** The walk is at the entry of [last]. *)
Definition at_place (last : option place) (dir : Dir) (loc : option Loc) (s : library) : Prop :=
  match last with
  | None => walking p v0 s0 s
  | Some pl => loaded p v0 (pl_chain pl) s0 (it_entry (pl_item pl)) dir s ∧
      ∃ d, at_slot (fat v0) (pl_chain pl) (it_start (pl_item pl)) d ∧ loc = Some (loc_of d)
  end.
Definition resolved (r : res (option place)) (x : walk * res unit) (s : library) : Prop :=
  w_fat x.1 = Some p ∧
  match r with
  | Ok last => x.2 = Ok tt ∧ at_place last (w_dir x.1) (w_loc x.1) s
  | Err e => x.2 = Err e ∧ walking p v0 s0 s
  end.
Lemma at_place_walking last dir loc s : at_place last dir loc s → walking p v0 s0 s.
Proof. destruct last as [pl|]; [intros [Hl _]; apply Hl|done]. Qed.

Lemma wp_follow_loop c enterable str last r :
  resolves v0 c enterable str last r → ∀ fuel dir loc s,
  at_place last dir loc s → (length str < fuel)%nat →
  wp (follow_loop fuel p dir c enterable str loc) (resolved r) s.
Proof.
  induction 1 as [c enterable str last E|c str last n E Hn|c str last n l its E Hn Hd Hits Hf
    |c str last n l its it sfn r E Hn Hd Hits Hf Hs Hr IH]; intros fuel dir loc s Hat Hfuel;
    (destruct fuel as [|fuel]; [lia|]); cbn [follow_loop]; cbv zeta; apply wp_bind; rewrite E; apply wp_ret.
  - rewrite Z.eqb_refl. by apply wp_ret.
  - destruct (Z.eqb_spec n 0); [done|]. cbn [negb]. apply wp_ret. split; [done|]. split; [done|]. by eapply at_place_walking.
  - destruct (Z.eqb_spec n 0); [done|]. cbn [negb]. apply at_place_walking in Hat.
    pose proof Hat as [(v & Hv & Htr) _ _]. pose proof (rest_geometry _ _ (tr_rest _ _ Htr)) as Hg.
    apply wp_bind. eapply wp_get_fat_of; [exact Hv|]. apply wp_bind.
    eapply wp_mono; [eapply (wp_dir_search p v0 _ l s0 _ Hd); [exact Hat|exact Hits|by apply dir_enter_cluster]|].
    intros [[dir' loc'] r'] s' H. unfold search_post in H. cbn [fst snd] in H. rewrite Hf in H. destruct H as [-> Hw].
    cbn [fst snd]. apply wp_ret. by split.
  - destruct (Z.eqb_spec n 0); [done|]. cbn [negb]. apply at_place_walking in Hat.
    pose proof Hat as [(v & Hv & Htr) _ _]. pose proof (rest_geometry _ _ (tr_rest _ _ Htr)) as Hg.
    apply wp_bind. eapply wp_get_fat_of; [exact Hv|]. apply wp_bind.
    eapply wp_mono; [eapply (wp_dir_search p v0 _ l s0 _ Hd); [exact Hat|exact Hits|by apply dir_enter_cluster]|].
    intros [[dir' loc'] r'] s' H. unfold search_post in H. cbn [fst snd] in H. rewrite Hf in H. destruct H as (-> & Hl & Hloc).
    cbn [fst snd]. apply wp_bind. eapply wp_dir_ptr; [exact Hl|exact Hs|]. apply IH; [by split|].
    pose proof (skip_slashes_length str). destruct (subpath_bounds _ _ E). rewrite length_drop. lia.
Qed.

(** [/volume/..] *)
Lemma wp_follow_path d_fat dir c str n r s :
  c = SLASH → subpath_len str = Some n → n ≠ 0 → find_fat_volume (take (Z.to_nat n) str) s = Done (Some p) s →
  walking p v0 s0 s → resolves v0 (root_clust (fat v0)) true (drop (Z.to_nat n) str) None r →
  wp (follow_path d_fat dir (c :: str)) (resolved r) s.
Proof.
  intros -> E Hn Hfind Hw Hr. unfold follow_path. cbv zeta. apply wp_bind, wp_ret. rewrite Z.eqb_refl. cbn [negb tail].
  apply wp_bind. rewrite E. apply wp_ret. destruct (Z.eqb_spec n 0); [done|]. apply wp_bind. unfold wp at 1. rewrite Hfind.
  pose proof Hw as [(v & Hv & Htr) _ _]. pose proof (rest_geometry _ _ (tr_rest _ _ Htr)) as Hg.
  apply wp_bind. eapply wp_get_fat_of; [exact Hv|].
  replace (dclust (dir_enter (fat v) dir (root_clust (fat v)))) with (root_clust (fat v0)).
  2:{ unfold geometry_of in Hg. replace (root_clust (fat v0)) with (root_clust (fat v)) in * by congruence.
      unfold dir_enter. cbn. destruct (_ =? 0); done. }
  eapply wp_follow_loop; [exact Hr|exact Hw|].
  destruct (subpath_bounds _ _ E). rewrite length_drop. cbn [length]. lia.
Qed.
End follow.

(** What [path] means on the volume at [p], as it is seen through its buffer. *)
Record path_to (p : Z) (v : volume) (s : library) (path : list Z) (r : res (option place)) : Prop := {
  pt_path : ∃ str n, path = SLASH :: str ∧ subpath_len str = Some n ∧ n ≠ 0 ∧
    find_fat_volume (take (Z.to_nat n) str) s = Done (Some p) s ∧
    resolves v (root_clust (fat v)) true (drop (Z.to_nat n) str) None r;
  pt_volume : volume_of p s = Some v;
  pt_cache : cache_ok v;
  pt_buf : length (g_buf s) = 512%nat
}.
Lemma wp_follow p v s path r d_fat dir :
  path_to p v s path r → wp (follow_path d_fat dir path) (resolved p v s r) s.
Proof.
  intros [(str & n & -> & E & Hn & Hf & Hr) Hv Hc Hb]. eapply wp_follow_path; [done|exact E|done|exact Hf| |exact Hr].
  split; [|done|done]. exists v. split; [done|by apply transparent_refl].
Qed.
(** The volume and the list of volumes are as they were. *)
Definition unchanged (p : Z) (v : volume) (s s' : library) : Prop :=
  same_registry s s' ∧ ∃ v', volume_of p s' = Some v' ∧ transparent v v'.
Lemma walking_unchanged p v s s' : walking p v s s' → unchanged p v s s'.
Proof. intros [Hv Hr _]. by split. Qed.

(** ** Freeing a chain next to a directory *)
Lemma data_not_system f x : layout_ok f → data_sect f ≤ x → ¬ system f x.
Proof. intros Hla Hx. pose proof (la_tables _ Hla). unfold system. lia. Qed.
Lemma entries_directory g v v1 c l :
  entries g v v1 → (∀ d, d ∈ l → g d = fat_entry v d) → directory v c l → directory v1 c l ∧ slots v1 l = slots v l.
Proof.
  intros [Hok Hg He Hs] Hl Hd. pose proof (chain_clusters _ _ _ (di_chain _ _ _ Hd)) as Hcl.
  assert (Hst : ∀ x, x ∈ file_sectors (fat v) l → store v1 x = store v x).
  { intros x Hx. apply Hs; [eapply sector_pos; [apply Hd|exact Hcl|done]|].
    apply data_not_system; [apply Hd|]. eapply file_sector_data; [apply Hd|exact Hcl|done]. }
  split.
  - split.
    + done.
    + eapply layout_geometry; [exact Hg|apply Hd].
    + rewrite (spc_geometry _ _ Hg). replace (data_sect (fat v1)) with (data_sect (fat v)) by (unfold geometry_of in Hg; congruence).
      apply Hd.
    + apply (chain_frame v); [done| |apply Hd]. rewrite Forall_forall in Hcl. apply Forall_forall. intros d Hdl.
      rewrite He, Hl; [done..|]. by apply cluster_in_table, Hcl.
    + intros x. rewrite (file_sectors_geometry _ _ Hg). intros Hx. rewrite Hst by done. by apply Hd.
  - unfold slots. rewrite (file_sectors_geometry _ _ Hg). apply bind_ext_in. intros x Hx. by rewrite Hst.
Qed.

(** ** Unlinking *)

(** The first entry of the root directory, which the code takes for the root itself. *)
Definition root_slot (f : Fat) (l : list Z) (k : nat) : Prop :=
  l !! (k / 16 / Z.to_nat (spc f))%nat = Some (root_clust f) ∧ ((k / 16) mod Z.to_nat (spc f) = 0 ∧ k mod 16 = 0)%nat.
Lemma not_at_root f f' l k dir :
  geometry_of f' = geometry_of f → at_slot f l k dir → ¬ root_slot f l k → dir_at_root f' dir = false.
Proof.
  intros Hg [Hc Hs Hi] Hn. apply not_true_iff_false. intros H. apply Hn. unfold dir_at_root in H.
  rewrite (clust_to_sect_geometry _ _ Hg) in H.
  replace (root_clust f') with (root_clust f) in H by (unfold geometry_of in Hg; congruence).
  apply andb_true_iff in H as [[H1%Z.eqb_eq H2%Z.eqb_eq]%andb_true_iff H3%Z.eqb_eq].
  rewrite H1 in *. split; [done|]. lia.
Qed.

(** What unlinking the file at [pl], whose clusters are [lf], makes of the volume [v]. *)
Record unlinked (pl : place) (its : list item) (lf : list Z) (v v1 : volume) : Prop := {
  un_directory : directory v1 (pl_clust pl) (pl_chain pl);
  un_items : ∃ before after, its = before ++ pl_item pl :: after ∧ dir_items (slots v1 (pl_chain pl)) 0 (before ++ after);
  un_entries : ∀ d, in_table (fat v) d → fat_entry v1 d = if decide (d ∈ lf) then 0 else fat_entry v d;
  un_count : free_cnt (fat v1) = u32 (free_cnt (fat v) + Z.of_nat (length lf));
  un_clean : dirty v1 = false ∧ has_flag (flags (fat v1)) FAT_INFO_DIRTY = false;
  un_store : ∀ x, 0 < x → ¬ system (fat v) x → x ∉ file_sectors (fat v) (pl_chain pl) → store v1 x = store v x
}.

Section unlink.
Context (p : Z) (v0 : volume) (s0 : library) (pl : place) (its : list item) (sfn lf : list Z).
Local Abbreviation l := (pl_chain pl).
Local Abbreviation it := (pl_item pl).
Hypothesis Hd : directory v0 (pl_clust pl) l.
Hypothesis Hits : dir_items (slots v0 l) 0 its.
Hypothesis Hin : it ∈ its.
Hypothesis Hsfn : slots v0 l !! it_entry it = Some sfn.
Hypothesis Hlf : chain v0 (sfn_cluster sfn) lf.
Hypothesis Hapart : ∀ d, d ∈ l → d ∉ lf.
Hypothesis Hcount : 0 ≤ free_cnt (fat v0) < 2 ^ 32.

Lemma wp_remove_file_chain s (Q : res unit → library → Prop) :
  walking p v0 s0 s →
  (∀ v1 s', entries (freed lf (fat_entry v0)) v0 v1 → free_cnt (fat v1) = u32 (free_cnt (fat v0) + Z.of_nat (length lf)) →
     walking p v1 s0 s' → Q (Ok tt) s') →
  wp (on_fat p (remove_chain (sfn_cluster sfn))) Q s.
Proof using Hd Hlf Hcount.
  intros [(v & Hv & Htr) Hreg Hb] HQ. pose proof (transparent_fat_ok _ _ (di_ok _ _ _ Hd) Htr) as Hok.
  pose proof (entries_transparent _ _ _ _ (entries_refl _ (di_ok _ _ _ Hd)) Htr) as Hen.
  pose proof (tr_rest _ _ Htr) as Hr.
  assert (Hf : free_cnt (fat v) = free_cnt (fat v0)) by (unfold rest_of in Hr; congruence).
  eapply wp_on_fat; [exact Hv|]. apply (wp_remove_chain lf); [done| |by rewrite Hf|].
  { eapply chain_frame; [by apply rest_geometry| |exact Hlf]. apply Forall_forall. intros d Hdl.
    apply (en_entry _ _ _ Hen), cluster_in_table. pose proof (chain_clusters _ _ _ Hlf) as Hcl. rewrite Forall_forall in Hcl. by apply Hcl. }
  intros v1 [He Hc _ _] s' Hv' Hg Hreg'. apply (HQ v1).
  - pose proof (rest_geometry _ _ Hr) as Hge. destruct He as [H1 H2 H3 H4]. split; [done|congruence| |].
    + intros d Hdt. rewrite H3 by by apply (in_table_geometry _ _ _ Hge). unfold freed. case_decide; [done|].
      by apply (en_entry _ _ _ Hen).
    + intros x Hx Hns. rewrite H4 by (done || by rewrite (system_geometry _ _ _ Hge)). by apply (tr_store _ _ Htr).
  - by rewrite Hc, Hf.
  - split; [exists v1; split; [done|apply transparent_refl, fo_cache, He]|by eapply registry_trans|].
    unfold globals in Hg. congruence.
Qed.

Lemma wp_unlink_entries dir d s (Q : res unit → library → Prop) :
  walking p v0 s0 s → at_slot (fat v0) l (it_entry it) dir → at_slot (fat v0) l (it_start it) d →
  (∀ v1 s', unlinked pl its lf v0 v1 → volume_of p s' = Some v1 → same_registry s0 s' → Q (Ok tt) s') →
  wp (on_fat p (remove_chain (sfn_cluster sfn)) ;? remove_entries p dir (loc_of d) ;? on_fat p sync_fs) Q s.
Proof using All.
  intros Hw Hat Hat' HQ. apply wp_bind. eapply wp_remove_file_chain; [exact Hw|]. intros v1 s1 He1 Hc1 Hw1.
  pose proof (en_geometry _ _ _ He1) as Hg1.
  destruct (entries_directory _ _ _ (pl_clust pl) l He1) as [Hd1 Hs1]; [|exact Hd|].
  { intros c Hc. unfold freed. rewrite decide_False; [done|]. by apply Hapart. }
  assert (Hlen : Forall (λ raw, length raw = 32%nat) (slots v0 l)).
  { apply Forall_forall. intros raw (k & Hk)%list_elem_of_lookup_1. exact (slot_length _ _ _ Hd _ _ Hk). }
  destruct (list_elem_of_split its it Hin) as (before & after & Eits).
  rewrite Eits in Hits. destruct (items_cut _ _ _ _ _ Hits Hlen) as (Hle & _). pose proof (removed_items _ _ _ _ Hits Hlen) as Hnew.
  set (n := (it_entry it - it_start it)%nat) in *. rewrite <- Hs1 in Hnew.
  apply wp_bind. eapply (wp_remove_entries p (pl_clust pl) l s0 v1 (it_start it) n);
    [exact Hd1|exact Hw1| |eapply at_slot_geometry; [exact Hg1|exact Hat']|].
  { eapply at_slot_geometry; [exact Hg1|]. by replace (it_start it + n)%nat with (it_entry it) by lia. }
  intros v2 s2 [Hd2 Hrw2 Hsl2 Hw2 _]. rewrite <- Hsl2 in Hnew.
  destruct Hw2 as [(v2' & Hv2 & Htr2) Hreg2 _]. destruct (transparent_directory _ _ _ _ Hd2 Htr2) as [Hd2' Hsl2'].
  assert (Hrw : rewritten l v1 v2') by (eapply rewritten_trans; [exact Hrw2|by apply transparent_rewritten]).
  eapply wp_on_fat; [exact Hv2|]. apply wp_sync_fs; [apply Hd2'|]. intros v3 Hsy _ s3 Hv3 _ Hreg3.
  pose proof (entries_synced _ _ _ _ (entries_refl _ (di_ok _ _ _ Hd2')) Hsy) as He3.
  destruct (entries_directory _ _ _ (pl_clust pl) l He3) as [Hd3 Hs3]; [done|exact Hd2'|].
  pose proof (rw_geometry _ _ _ Hrw) as Hg2.
  apply (HQ v3); [|done|by eapply registry_trans]. split.
  - done.
  - exists before, after. split; [done|]. by rewrite Hs3, Hsl2'.
  - intros c Hc. assert (Hc1' : in_table (fat v1) c) by by apply (in_table_geometry _ _ _ Hg1).
    rewrite (en_entry _ _ _ He3) by by apply (in_table_geometry _ _ _ Hg2).
    rewrite (rewritten_entry _ _ _ _ _ Hd1 Hrw Hc1'). by rewrite (en_entry _ _ _ He1).
  - rewrite (sy_free _ _ Hsy), <- Hc1. pose proof (rw_rest _ _ _ Hrw) as Hr. unfold rest_of in Hr. congruence.
  - apply Hsy.
  - intros x Hx Hns Hnf. rewrite (en_store _ _ _ He3); [|done|by rewrite (system_geometry _ _ _ Hg2), (system_geometry _ _ _ Hg1)].
    rewrite (rw_store _ _ _ Hrw); [|done|by rewrite (file_sectors_geometry _ _ Hg1)]. by apply (en_store _ _ _ He1).
Qed.
End unlink.

Lemma wp_fat_unlink p v s path pl its sfn lf (Q : res unit → library → Prop) :
  path_to p v s path (Ok (Some pl)) →
  directory v (pl_clust pl) (pl_chain pl) → dir_items (slots v (pl_chain pl)) 0 its → pl_item pl ∈ its →
  slots v (pl_chain pl) !! it_entry (pl_item pl) = Some sfn → ¬ root_slot (fat v) (pl_chain pl) (it_entry (pl_item pl)) →
  has_flag (get_le 1 11 sfn) (Z.lor FAT_ATTR_RO (Z.lor FAT_ATTR_SYS FAT_ATTR_LABEL)) = false →
  has_flag (get_le 1 11 sfn) FAT_ATTR_DIR = false →
  chain v (sfn_cluster sfn) lf → (∀ d, d ∈ pl_chain pl → d ∉ lf) → 0 ≤ free_cnt (fat v) < 2 ^ 32 →
  (∀ v1 s', unlinked pl its lf v v1 → volume_of p s' = Some v1 → same_registry s s' → Q (Ok tt) s') →
  wp (fat_unlink path) Q s.
Proof.
  intros Hpath Hd Hits Hin Hsfn Hroot Ha1 Ha2 Hlf Hapart Hcnt HQ. unfold fat_unlink. apply wp_bind.
  eapply wp_mono; [by eapply wp_follow|]. intros [w r] s1 [Hw H]. cbn [fst snd at_place] in *.
  destruct H as (-> & Hl & d & Hdat & Hloc). rewrite Hw, Hloc. apply wp_bind, wp_ret.
  pose proof (lo_walking _ _ _ _ _ _ _ Hl) as Hwk. pose proof Hwk as [(v1 & Hv1 & Htr) _ _].
  cbv zeta. apply wp_bind. eapply wp_get_fat_of; [exact Hv1|].
  rewrite (not_at_root (fat v) (fat v1) (pl_chain pl) (it_entry (pl_item pl))); [|by apply rest_geometry, Htr|apply Hl|done].
  apply wp_bind. eapply wp_dir_ptr; [exact Hl|exact Hsfn|]. rewrite Ha1.
  apply wp_bind. unfold check_empty. rewrite Ha2. cbn [negb]. apply wp_ret.
  pose proof (wp_unlink_entries p v s pl its sfn lf Hd Hits Hin Hsfn Hlf Hapart Hcnt (w_dir w) d s1 Q Hwk (lo_slot _ _ _ _ _ _ _ Hl) Hdat HQ) as W.
  unfold wp, mbind, M_bind in W |- *. cbn [defined mret M_ret]. exact W.
Qed.
