(* ===== verification/FatDemo.v ===== *)
(** * FAT32: a sample volume

    A small volume with a file of three clusters, this file open, and the library with this
    volume mounted, for the examples that accompany the theorems. *)
From S2P Require Import Prelude.
From S2P Require Import CString.
From S2P Require Import FatNames.
From S2P Require Import FatTable.
From S2P Require Import FatCache.
From S2P Require Import FatChain.
From S2P Require Import FatFile.
From S2P Require Import FatData.
From S2P Require Import FatMount.
From S2P Require Import FatDir.
From S2P Require Import FatSlots.
From S2P Require Import FatSearch.
Local Open Scope Z_scope.

(** ** The volume

    128 clusters of one sector, two tables of one sector, a file in the clusters 3, 4, 6. *)
Definition blank : list Z := replicate 512 0.
Definition sample_table : list Z :=
  set_le 4 24 EOC (set_le 4 16 6 (set_le 4 12 4 (set_le 4 8 EOC blank))).
(** ["readme.markdown"], a long name of two entries. *)
Definition sample_name : list Z := [114; 101; 97; 100; 109; 101; 46; 109; 97; 114; 107; 100; 111; 119; 110].
Definition sample_long : list (list Z) :=
  lfn_entries 2 LFN_HEAD_MSK (get_crc (put_sfn_name sample_name)) sample_name [replicate 32 0; replicate 32 0].
(** The root directory: the file, then a short name, [KERNEL.IMG]. *)
Definition kernel_img : list Z := [75; 69; 82; 78; 69; 76; 46; 73; 77; 71].
Definition root_entries : list (list Z) :=
  sample_long ++ [sfn_entry (put_sfn_name sample_name) 0x20 3 33 33; sfn_entry (put_sfn_name kernel_img) 0x20 6 33 33].
Definition root_sector : list Z := (root_entries ≫= id) ++ replicate 384 0.
Definition sample_fat : Fat :=
  {| clust_msk := 0; clust_cnt := 128; info_sect := 1; fat_sect0 := 2; fat_sect1 := 3; data_sect := 4;
     root_clust := 2; last_used := 6; free_cnt := 122; sect := 0; buf := blank; flags := 0; clust_shift := 0 |}.
Definition sample_volume : volume :=
  {| fat := sample_fat; disk := <[1 := blank]> (<[2 := sample_table]> (<[3 := sample_table]> (<[4 := root_sector]>
      (<[5 := replicate 512 65]> (<[6 := replicate 512 66]> (<[8 := replicate 512 67]> ∅)))))) |}.

Lemma sample_cache : cache_ok sample_volume.
Proof.
  split; [reflexivity| | |].
  - apply (bool_decide_unpack (map_Forall (λ _ d, length d = 512%nat) (disk sample_volume))). reflexivity.
  - by vm_compute.
  - by vm_compute.
Qed.
Lemma sample_ok : fat_ok sample_volume.
Proof.
  assert (Hd : ∀ c, in_table (fat sample_volume) c → c / 128 = 0).
  { intros c Hc. apply Z.div_small. exact Hc. }
  split; [apply sample_cache| | | |].
  - split; unfold sample_volume, sample_fat; cbn [fat clust_cnt fat_sect0 fat_sect1 info_sect];
      change (128 / 128) with 1; change (2 ^ 28) with 268435456; change (2 ^ 32) with 4294967296; [lia|done|lia..].
  - intros c Hc. rewrite (Hd c Hc). vm_compute. eauto.
  - intros c Hc _. rewrite (Hd c Hc). vm_compute. eauto.
  - vm_compute. eauto.
Qed.
Lemma sample_chain : chain sample_volume 3 [3; 4; 6].
Proof.
  assert (E3 : fat_entry sample_volume 3 = 4) by (vm_compute; reflexivity).
  assert (E4 : fat_entry sample_volume 4 = 6) by (vm_compute; reflexivity).
  apply chain_next; [by vm_compute|by vm_compute|rewrite E3].
  apply chain_next; [by vm_compute|by vm_compute|rewrite E4].
  apply chain_last; by vm_compute.
Qed.
Lemma sample_table_ok : table_ok (fat sample_volume) (fat_entry sample_volume).
Proof.
  assert (H : Forall (λ c, is_Some (classify (fat sample_volume) (fat_entry sample_volume c))) (seqZ 2 126)).
  { apply (bool_decide_unpack (Forall (λ c, is_Some (classify (fat sample_volume) (fat_entry sample_volume c))) (seqZ 2 126))).
    vm_compute. reflexivity. }
  intros c Hc. rewrite Forall_forall in H. apply H, elem_of_seqZ. unfold cluster in Hc. cbn in Hc. lia.
Qed.

(** ** The open file

    1200 bytes, at offset 0, with an entry in the root directory. *)
Definition sample_file : File :=
  {| f_open := true; f_dir_sect := 4; f_sclust := 3; f_clust := 3; f_sect := 5; f_size := 1200;
     f_offset := 0; f_dir_idx := 32; f_attr := 0x20; f_flags := Z.lor FAT_READ FAT_WRITE;
     f_buf := replicate 512 65 |}.
Definition sample_session : session := {| file := sample_file; vol := sample_volume |}.

Lemma sample_layout : layout_ok (fat sample_volume).
Proof. split; by vm_compute. Qed.
Lemma sample_sectors : file_sectors (fat sample_volume) [3; 4; 6] = [5; 6; 8].
Proof. vm_compute. reflexivity. Qed.
Lemma sample_opened : opened [3; 4; 6] sample_session.
Proof.
  split.
  - apply sample_ok.
  - apply sample_layout.
  - reflexivity.
  - apply sample_chain.
  - change (vol sample_session) with sample_volume. rewrite sample_sectors. intros x Hx.
    apply (bool_decide_unpack _). revert x Hx. apply Forall_forall.
    repeat (constructor; [vm_compute; reflexivity|]). constructor.
  - change (vol sample_session) with sample_volume. rewrite sample_sectors.
    apply (bool_decide_unpack _). vm_compute. reflexivity.
  - by vm_compute.
  - vm_compute. reflexivity.
  - change (vol sample_session) with sample_volume. rewrite sample_sectors. vm_compute. reflexivity.
  - reflexivity.
  - intros _. vm_compute. reflexivity.
Qed.
Lemma sample_entry_ok : entry_ok [3; 4; 6] sample_session.
Proof.
  split.
  - by vm_compute.
  - by vm_compute.
  - change (vol sample_session) with sample_volume. rewrite sample_sectors.
    apply (bool_decide_unpack _). vm_compute. reflexivity.
  - vm_compute. eauto.
Qed.

(** ** The root directory *)
Definition sample_mounted : library :=
  {| mounts := {[ 100 := {| m_fat := sample_fat; m_next := None; m_name_len := 3; m_name := 109 :: 110 :: 116 :: replicate 29 0 |} ]};
     g_fat_list := Some 100; device := disk sample_volume; g_buf := blank; g_len := 0; g_crc := 0 |}.
Lemma sample_directory : directory sample_volume 2 [2].
Proof.
  split.
  - apply sample_ok.
  - apply sample_layout.
  - by vm_compute.
  - apply chain_last; by vm_compute.
  - intros x Hx. apply (bool_decide_unpack _). revert x Hx. apply Forall_forall.
    assert (E : file_sectors (fat sample_volume) [2] = [4]) by (vm_compute; reflexivity). rewrite E.
    repeat (constructor; [vm_compute; reflexivity|]). constructor.
Qed.
Lemma sample_slots : slots sample_volume [2] = root_entries ++ replicate 12 (replicate 32 0).
Proof. vm_compute. reflexivity. Qed.
Definition sample_items : list item :=
  [ {| it_start := 0; it_entry := 2; it_long := true; it_name := sample_name |};
    {| it_start := 3; it_entry := 3; it_long := false; it_name := put_sfn_name kernel_img |} ].
Lemma sample_dir_items : dir_items (slots sample_volume [2]) 0 sample_items.
Proof.
  rewrite sample_slots. apply (added_item _ 0 sample_name [replicate 32 0; replicate 32 0] 0x20 3 33 33
    (sfn_entry (put_sfn_name kernel_img) 0x20 6 33 33 :: replicate 12 (replicate 32 0))).
  - cbn. lia.
  - repeat (constructor; [by vm_compute|]). constructor.
  - reflexivity.
  - repeat constructor.
  - by vm_compute.
  - reflexivity.
  - refine (items_short _ 3 (sfn_entry (put_sfn_name kernel_img) 0x20 6 33 33) [] _ _ _ _); [reflexivity..|].
    eapply items_mark; reflexivity.
Qed.
