(* ===== verification/PropSched.v ===== *)
(** * Properties of the scheduling decisions

    What each of the seven algorithms dispatches, what a timer tick may do, and the
    operations on the ready queues, each with a sample state on which it applies. *)
From S2P Require Import Prelude.
From S2P Require Import Process.
From S2P Require Import ReadyQueue.
From S2P Require Import Scheduler.
From S2P Require Import SchedSpec.
From S2P Require Import SchedInv.
From S2P Require Import SchedDispatch.
From S2P Require Import SchedPick.
From S2P Require Import SchedAging.
From S2P Require Import SchedLottery.
From S2P Require Import SchedTick.
From S2P Require Import SchedChoice.
From S2P Require Import SchedOps.
From S2P Require Import SchedParam.
From S2P Require Import Fork.
From S2P Require Import Frame.
From S2P Require Import System.
From S2P Require Import Demo.
Local Open Scope Z_scope.

Lemma demo_decidable alg :
  alg ∈ all_algorithms → decidable_state alg (demo_ready_state alg) ∧ decidable_state alg (demo_running_state alg).
Proof.
  intros Hin. destruct (demo_ready_ok alg Hin) as [_ [Hm _]].
  destruct (demo_running_ok alg Hin) as [_ [Hm' _]].
  split; (apply kernel_ok_decidable; [by apply mo_ok|]); unfold settled; each_algorithm Hin; vm_compute; done.
Qed.

Lemma alg_at n alg : all_algorithms !! n = Some alg → alg ∈ all_algorithms.
Proof. apply list_elem_of_lookup_2. Qed.
Lemma alg_ok_at n alg : all_algorithms !! n = Some alg → alg_ok alg.
Proof. intros H. by eapply alg_ok_all, alg_at. Qed.

(** ** Who gets the CPU *)

(** C22: Round robin: the decision always completes, and the CPU goes to the first
    process of the ready queue, the outgoing one at its tail, that no pending kill or
    stop signal keeps from running, with a slice of 10 ticks; to the idle process when
    there is none. *)
Theorem round_robin_picks_first s a :
  rep s a → decidable_state sched_round_robin a →
  ∃ s', _schedule sched_round_robin s = Done tt s' ∧
    gets_cpu (head (runnable a (offered sched_round_robin a))) (Some 10) s'.
Proof.
  intros Hr Hds. destruct (proj1 (wp_done _ _ _) (wp__schedule _ _ _ (alg_ok_at 0 _ eq_refl) Hr Hds))
    as ([] & s' & E & Hd).
  exists s'. split; [done|]. pose proof (ready_choice (alg:=sched_round_robin) a ltac:(done) Hds) as Hc. cbn zeta in Hc.
  change (a_decide sched_round_robin) with (a_round_robin (alg:=sched_round_robin)) in Hd.
  eapply decides_gets_cpu; [exact Hd| |].
  - unfold a_round_robin. by rewrite leave_current, Hc.
  - intros p z Hp [= <-]. eapply recharged_counter; [exact Hd|].
    unfold a_round_robin. by rewrite Hc, Hp.
Qed.

Lemma round_robin_picks_first_witness :
  ∃ s', _schedule sched_round_robin (demo_running sched_round_robin) = Done tt s' ∧
    gets_cpu (Some P2) (Some 10) s'.
Proof.
  pose proof (demo_running_ok sched_round_robin ltac:(by left)) as [Hr _].
  exact (round_robin_picks_first _ _ Hr (proj2 (demo_decidable sched_round_robin ltac:(by left)))).
Defined.

(** FCFS and SJF: the decision always completes, and the CPU goes to the first
    runnable process of the ready queue. A process that yielded is put back at the tail
    by FCFS and at the place of its estimated burst by SJF. *)
Theorem queue_head_picks_first alg s a :
  alg = sched_fcfs ∨ alg = sched_sjf → rep s a → decidable_state alg a →
  ∃ s', _schedule alg s = Done tt s' ∧ gets_cpu (head (runnable a (offered alg a))) None s'.
Proof.
  intros Halg Hr Hds.
  assert (Hok : alg_ok alg) by (destruct Halg as [-> | ->]; [by apply (alg_ok_at 1)|by apply (alg_ok_at 2)]).
  destruct (proj1 (wp_done _ _ _) (wp__schedule _ _ _ Hok Hr Hds)) as ([] & s' & E & Hd).
  exists s'. split; [done|]. pose proof (ready_choice (alg:=alg) a ltac:(by destruct Halg as [-> | ->]) Hds) as Hc.
  cbn zeta in Hc. assert (Ha : a_decide alg a = a_queue_head (alg:=alg) a) by by destruct Halg as [-> | ->].
  eapply decides_gets_cpu; [exact Hd| |done]. rewrite Ha. unfold a_queue_head. by rewrite leave_current, Hc.
Qed.

Lemma queue_head_picks_first_witness :
  ∃ s', _schedule sched_sjf (demo_ready sched_sjf) = Done tt s' ∧ gets_cpu (Some P2) None s'.
Proof.
  pose proof (alg_at 2 sched_sjf eq_refl) as Hin.
  pose proof (demo_ready_ok sched_sjf Hin) as [Hr _].
  exact (queue_head_picks_first _ _ _ (or_intror eq_refl) Hr (proj1 (demo_decidable sched_sjf Hin))).
Defined.

(** SJF: with the ready queue in ascending order of the estimated bursts (the order
    its insertion keeps), the process that gets the CPU has the shortest estimated burst
    of all the runnable ones, the outgoing process included. *)
Theorem sjf_picks_shortest s a p :
  rep s a → decidable_state sched_sjf a → ascending (burst_of (core a)) (queues a ReadyQueue) →
  p ∈ runnable a (offered sched_sjf a) →
  ∃ s' q, _schedule sched_sjf s = Done tt s' ∧ current_process s' = q ∧
    q ∈ runnable a (offered sched_sjf a) ∧ burst_of (core a) q ≤ burst_of (core a) p.
Proof.
  intros Hr Hds Hasc Hp.
  destruct (proj1 (wp_done _ _ _) (wp__schedule _ _ _ (alg_ok_at 2 _ eq_refl) Hr Hds)) as ([] & s' & E & Hd).
  pose proof (ready_choice (alg:=sched_sjf) a ltac:(done) Hds) as Hc. cbn zeta in Hc.
  assert (Hs : ascending (burst_of (core a)) (offered sched_sjf a)).
  { unfold offered. destruct (still_running a); [by apply insert_by_ascending|done]. }
  pose proof (decides_current _ _ _ Hd) as Hcur.
  change (a_decide sched_sjf a) with (a_queue_head (alg:=sched_sjf) a) in Hcur.
  unfold a_queue_head in Hcur. rewrite leave_current, Hc in Hcur. exists s'.
  destruct (sorted_filter_head _ _ _ p (λ q, Z.le_refl (burst_of (core a) q)) Hs Hp) as (q & Hh & Hq & Hle).
  exists q. split_and!; [done| |done|done]. rewrite Hcur. unfold runnable. by rewrite Hh.
Qed.

Lemma sjf_picks_shortest_witness :
  ∃ s' q, _schedule sched_sjf (demo_running sched_sjf) = Done tt s' ∧ current_process s' = q ∧
    q ∈ [P2; P1] ∧ burst_of (core (demo_running_state sched_sjf)) q ≤ 7.
Proof.
  pose proof (alg_at 2 sched_sjf eq_refl) as Hin.
  pose proof (demo_running_ok sched_sjf Hin) as [Hr _].
  refine (sjf_picks_shortest _ _ P1 Hr (proj2 (demo_decidable sched_sjf Hin)) _ _).
  - vm_compute. repeat constructor.
  - vm_compute. right. left.
Defined.

(** C21: MLQ and MLFQ: the decision always completes, and the CPU goes to the first
    runnable process of the highest level that has one (level 0 first, the outgoing
    process at the tail of its own level), with the quantum of that level. *)
Theorem multilevel_picks_highest alg policy s a :
  alg = sched_mlq ∨ alg = sched_mlfq → ml_policy alg = Some policy →
  rep s a → decidable_state alg a →
  let best := head (by_level a (seqZ 0 (n_levels policy)) (offered_at a)) in
  ∃ s', _schedule alg s = Done tt s' ∧ gets_cpu (fst <$> best) (slice_of policy ∘ snd <$> best) s'.
Proof.
  intros Halg Hpol Hr Hds. cbn zeta.
  assert (Hok : alg_ok alg) by (destruct Halg as [-> | ->]; [by apply (alg_ok_at 5)|by apply (alg_ok_at 6)]).
  assert (He : enqueue alg = EnqueueMultilevel ∧ pick_next alg = ScheduleMultilevel) by by destruct Halg as [-> | ->].
  destruct He as [He Hpick]. destruct Hok as (Hok1 & Hok2 & Hok3). destruct (Hok3 _ Hpol) as [(Hn & _) _].
  destruct (proj1 (wp_done _ _ _) (wp__schedule _ _ _ (conj Hok1 (conj Hok2 Hok3)) Hr Hds)) as ([] & s' & E & Hd).
  exists s'. split; [done|].
  pose proof (level_choice (seqZ 0 (n_levels policy)) a He Hds (NoDup_seqZ _ _)) as Hc.
  specialize (Hc ltac:(apply Forall_forall; intros q Hq%elem_of_seqZ; cbn; lia)).
  assert (Ha : a_decide alg a = a_multilevel alg policy a) by (unfold a_decide; by rewrite Hpick, Hpol).
  unfold a_multilevel in Ha. rewrite Hc in Ha.
  eapply decides_gets_cpu; [exact Hd| |].
  - rewrite Ha. by destruct (head _) as [[p q]|]; rewrite leave_current.
  - intros p z Hp Hz. destruct (head _) as [[p' q]|]; [|done]. injection Hp as ->. injection Hz as <-.
    eapply recharged_counter; [exact Hd|exact Ha].
Qed.

Lemma multilevel_picks_highest_witness :
  ∃ s', _schedule sched_mlfq (demo_running sched_mlfq) = Done tt s' ∧ gets_cpu (Some P2) (Some 5) s'.
Proof.
  pose proof (alg_at 6 sched_mlfq eq_refl) as Hin.
  pose proof (demo_running_ok sched_mlfq Hin) as [Hr _].
  exact (multilevel_picks_highest _ _ _ _ (or_intror eq_refl) eq_refl Hr (proj2 (demo_decidable sched_mlfq Hin))).
Defined.

(** C19: Priority aging: the decision always completes (at most one new epoch is needed),
    and the CPU goes to the first of the runnable processes with the largest remaining
    slice; when all of them have used theirs up, after the recharge of every process, to
    the first with the largest priority. *)
Theorem aging_picks_largest s a :
  rep s a → decidable_state sched_priority_aging a →
  let l := runnable a (offered sched_priority_aging a) in
  ∃ s', _schedule sched_priority_aging s = Done tt s' ∧
    gets_cpu (first_max (aging_key a l) l) None s'.
Proof.
  intros Hr Hds. cbn zeta. set (l := runnable _ _).
  destruct (proj1 (wp_done _ _ _) (wp_schedule_priority_aging (alg:=sched_priority_aging) s a eq_refl Hr Hds))
    as ([] & s' & E & Hd & Hc).
  exists s'. split; [done|].
  assert (Hch : aging_choice (a_enter sched_priority_aging a) = first_max (aging_key a l) l).
  { assert (Hl : candidates (a_enter sched_priority_aging a) = l).
    { unfold candidates. rewrite enter_ready by done. apply runnable_ext, enter_dispatchable. }
    unfold aging_choice. rewrite Hl. apply first_max_ext. intros p _. unfold aging_key.
    rewrite enter_counter, enter_priority.
    replace (forallb (λ p, counter_of (a_enter sched_priority_aging a) p =? 0) l)
      with (forallb (λ p, counter_of a p =? 0) l); [done|].
    clear. induction l as [|q l IH]; [done|]. cbn. by rewrite enter_counter, IH. }
  rewrite Hch in Hc. pose proof (decides_current _ _ _ Hd) as Hcur.
  eapply decides_gets_cpu; [exact Hd|congruence|done].
Qed.

Lemma aging_picks_largest_witness :
  ∃ s', _schedule sched_priority_aging (demo_ready sched_priority_aging) = Done tt s' ∧ gets_cpu (Some P1) None s'.
Proof.
  pose proof (alg_at 4 sched_priority_aging eq_refl) as Hin.
  pose proof (demo_ready_ok _ Hin) as [Hr _].
  exact (aging_picks_largest _ _ Hr (proj1 (demo_decidable _ Hin))).
Defined.

(** ** The lottery *)

(** C20: Lottery: the decision always completes. When the process that holds the drawn
    ticket (the random number modulo the tickets on offer, numbered along the queue) may
    run, it gets the CPU with a slice of 10 ticks; with nobody on offer the idle
    process does. *)
Theorem lottery_dispatches_holder s a :
  rep s a → decidable_state sched_lottery a →
  let l := offered sched_lottery a in
  let ticket := (a_random a).1 mod total (tickets_at a) l in
  let winner := holder (tickets_at a) ticket l in
  ∃ s', _schedule sched_lottery s = Done tt s' ∧
    (l = [] → current_process s' = InitProcess) ∧
    (∀ p, winner = Some p → dispatchable_at a p = true → gets_cpu winner (Some 10) s').
Proof.
  intros Hr Hds. cbn zeta. set (l := offered _ _).
  destruct (proj1 (wp_done _ _ _) (wp__schedule _ _ _ (alg_ok_at 3 _ eq_refl) Hr Hds)) as ([] & s' & E & Hd).
  exists s'. split; [done|].
  change (a_decide sched_lottery) with (a_lottery sched_lottery) in Hd.
  set (a1 := a_enter sched_lottery a).
  assert (Hl : queues a1 ReadyQueue = l) by by apply enter_ready.
  assert (Ht : ∀ p, tickets_at a1 p = tickets_at a p) by apply enter_tickets.
  assert (Hrand : (a_random a1).1 = (a_random a).1).
  { unfold a1. rewrite enter_cases. by destruct (still_running a). }
  destruct (offered_facts (alg:=sched_lottery) ReadyQueue a Hds I) as [Hrd Hnd]. fold a1 in Hrd, Hnd.
  pose proof (decides_current _ _ _ Hd) as Hcur. unfold a_lottery in Hcur.
  rewrite leave_current in Hcur. fold a1 in Hcur. split.
  - intros Hnil. rewrite Hcur. unfold queue_fuel. cbn [a_draw]. cbn zeta. by rewrite Hl, Hnil.
  - intros p Hw Hdis.
    assert (Hdraw : (a_draw queue_fuel a1).1 = Some p).
    { unfold queue_fuel. cbn [a_draw]. cbn zeta. rewrite Hl, Hrand.
      rewrite (holder_ext _ _ Ht), (total_ext _ _ Ht), Hw.
      assert (Hp : p ∈ l) by by eapply holder_elem.
      destruct l as [|x l']; [by apply elem_of_nil in Hp|].
      rewrite decide_True; [done|]. apply winner_ready; [done|by rewrite Hl|transitivity (dispatchable_at a p); [apply enter_dispatchable|done]]. }
    rewrite Hw. eapply decides_gets_cpu; [exact Hd| |].
    + unfold a_lottery. fold a1. by rewrite leave_current, Hdraw.
    + intros q z [= <-] [= <-]. eapply recharged_counter; [exact Hd|].
      unfold a_lottery. fold a1. by rewrite Hdraw.
Qed.

Lemma lottery_dispatches_holder_witness :
  ∃ s', _schedule sched_lottery (demo_ready sched_lottery) = Done tt s' ∧ gets_cpu (Some P1) (Some 10) s'.
Proof.
  pose proof (alg_at 3 sched_lottery eq_refl) as Hin.
  pose proof (demo_ready_ok _ Hin) as [Hr _].
  destruct (lottery_dispatches_holder _ _ Hr (proj1 (demo_decidable _ Hin))) as (s' & E & _ & H).
  exists s'. split; [exact E|]. apply (H P1); vm_compute; reflexivity.
Defined.

(** Lottery: among the tickets on offer each process holds as many as its PCB says
    (one, if that is not positive), so that its share of the draws is its share of the
    tickets, and no process on offer has none. *)
Theorem lottery_share a l p :
  NoDup l → p ∈ l →
  let wins := filter (λ w, holder (tickets_at a) w l = Some p) (seqZ 0 (total (tickets_at a) l)) in
  Z.of_nat (length wins) = tickets_at a p ∧ 0 < tickets_at a p.
Proof.
  intros Hn Hp. split; [|apply tickets_at_pos].
  by apply (holder_share (tickets_at a) (tickets_at_pos a)).
Qed.

Lemma lottery_share_witness :
  Z.of_nat (length (filter (λ w, holder (tickets_at (demo_ready_state sched_lottery)) w [P1; P2] = Some P1)
    (seqZ 0 (total (tickets_at (demo_ready_state sched_lottery)) [P1; P2])))) = 3 ∧ 0 < 3.
Proof.
  refine (lottery_share (demo_ready_state sched_lottery) [P1; P2] P1 _ _).
  - apply NoDup_cons. split; [|apply NoDup_singleton]. rewrite list_elem_of_singleton. by vm_compute.
  - left.
Defined.

(** The random number generator: from any 64-bit state, zero included, and any value of
    the timer, a draw leaves and returns a number between 1 and 2^64 - 1, so the
    generator never gets stuck at zero. *)
Theorem lottery_random_nonzero s :
  0 ≤ lottery_rng_state s < 2 ^ 64 →
  ∃ r s', lottery_random s = Done r s' ∧ lottery_rng_state s' = r ∧ 0 < r < 2 ^ 64.
Proof.
  intros Hs. pose proof (u32_range (timer_clo s O)) as Hu.
  set (x := lottery_mix s). assert (Hx : 0 < x < 2 ^ 64).
  { unfold x, lottery_mix. assert (H : 0 ≤ Z.lxor (lottery_rng_state s) (u32 (timer_clo s O)) < 2 ^ 64)
      by (apply lxor_range; lia).
    destruct (Z.eqb_spec (Z.lxor (lottery_rng_state s) (u32 (timer_clo s O))) 0); [done|lia]. }
  exists (xorshift64 x), (set_lottery_rng_state (xorshift64 x) (set_timer_clo (λ n, timer_clo s (S n)) s)).
  split; [reflexivity|]. split; [done|by apply xorshift64_range].
Qed.

Lemma lottery_random_nonzero_witness :
  ∃ r s', lottery_random (set_lottery_rng_state 0 demo_boot) = Done r s' ∧ lottery_rng_state s' = r ∧ 0 < r < 2 ^ 64.
Proof. apply lottery_random_nonzero. vm_compute. split; congruence. Defined.
