(* ===== verification/PropState.v ===== *)
(** * Properties of the kernel state

    What holds in every reachable state, and the operations that change the ready queues
    and the states of the processes. *)
From S2P Require Import Prelude.
From S2P Require Import Process.
From S2P Require Import ReadyQueue.
From S2P Require Import Scheduler.
From S2P Require Import SchedSpec.
From S2P Require Import SchedInv.
From S2P Require Import SchedDispatch.
From S2P Require Import SchedPick.
From S2P Require Import SchedAging.
From S2P Require Import SchedLottery.
From S2P Require Import SchedTick.
From S2P Require Import SchedChoice.
From S2P Require Import SchedOps.
From S2P Require Import SchedParam.
From S2P Require Import Fork.
From S2P Require Import Frame.
From S2P Require Import System.
From S2P Require Import Demo.
From S2P Require Import PropSched.
Local Open Scope Z_scope.

(** ** Reachable states *)
Lemma reachable_good alg ia rf clo s :
  alg_ok alg → rtc (step alg ia rf) (boot_kernel clo) s → good alg s.
Proof.
  intros Hao H. assert (Hb : good alg (boot_kernel clo)) by apply boot_good.
  revert Hb. induction H as [s|s1 s2 s3 Hs _ IH]; intros Hg; [done|]. apply IH. by eapply step_good.
Qed.
(** The state after a tick of the boot kernel: a sample of a reachable state. *)
Definition demo_ticked (alg : SchedAlgorithm) : kernel := after (handle_timer_tick alg) demo_boot.
Lemma demo_ticked_reachable ia rf :
  rtc (step sched_round_robin ia rf) demo_boot (demo_ticked sched_round_robin).
Proof. apply rtc_once, TimerTick. vm_compute. reflexivity. Qed.



(** In every reachable state the only registered process whose state is RUNNING is
    the current one. *)
Theorem only_current_runs alg ia rf clo s p pcb :
  alg ∈ all_algorithms → rtc (step alg ia rf) (boot_kernel clo) s →
  Some p ∈ processes s → heap s !! p = Some pcb → state pcb = PROCESS_RUNNING → p = current_process s.
Proof.
  intros Hin H Hreg Hp Hst.
  destruct (reachable_good alg ia rf clo s (alg_ok_all _ Hin) H) as (a & Hr & [[Hi _] _ _ _ _ _] & _).
  rewrite (rep_current _ _ Hr). apply (inv_running _ _ _ Hi).
  - unfold registered. by rewrite <- (rep_field processes s a).
  - pose proof (rep_lookup_inv _ _ _ _ Hr Hp) as Hp'. unfold state_of, pcb_at. by rewrite Hp'.
Qed.

Lemma only_current_runs_witness : InitProcess = current_process (demo_ticked sched_round_robin).
Proof.
  refine (only_current_runs _ 0 0 (λ _, 0) _ InitProcess
    (default zero_PCB (heap (demo_ticked sched_round_robin) !! InitProcess))
    (alg_at 0 sched_round_robin eq_refl) (demo_ticked_reachable 0 0) _ _ _); vm_compute; [left|reflexivity|reflexivity].
Defined.

(** C25: In every reachable state each registered READY process but the idle one is linked
    into a ready queue, into one only, and once: following [next_ready] from the head of
    that queue gives a list without repetition that holds it. *)
Theorem ready_in_one_queue alg ia rf clo s p pcb :
  alg ∈ all_algorithms → rtc (step alg ia rf) (boot_kernel clo) s →
  Some p ∈ processes s → p ≠ InitProcess → heap s !! p = Some pcb → state pcb = PROCESS_READY →
  ∃ q pq l, valid_queue q ∧ queue_at s q = Some pq ∧ queue_rep (heap s) pq l ∧ p ∈ l ∧ NoDup l ∧
    ∀ q' pq' l', valid_queue q' → queue_at s q' = Some pq' → queue_rep (heap s) pq' l' → p ∈ l' → q' = q.
Proof.
  intros Hin H Hreg Hne Hp Hst.
  destruct (reachable_good alg ia rf clo s (alg_ok_all _ Hin) H) as (a & Hr & [[Hi _] _ _ _ _ _] & _).
  assert (Hst' : state_of a p = PROCESS_READY).
  { pose proof (rep_lookup_inv _ _ _ _ Hr Hp) as Hp'. unfold state_of, pcb_at. by rewrite Hp'. }
  rewrite (rep_field processes s a) in Hreg by done.
  destruct (inv_ready _ _ _ Hi p Hreg Hne Hst') as [|(q & Hq & Hpq)]; [done|].
  destruct (rep_queue _ _ Hr q Hq) as (pq & Hat & Hrep).
  exists q, pq, (queues a q). split_and!; try done; [by apply (inv_nodup _ _ _ Hi)|].
  intros q' pq' l' Hq' Hat' Hrep' Hp'. destruct (rep_queue _ _ Hr q' Hq') as (pq2 & Hat2 & Hrep2).
  assert (pq2 = pq') as -> by congruence.
  rewrite (linked_det _ _ _ _ (proj1 Hrep') (proj1 Hrep2)) in Hp'.
  by eapply (inv_disjoint _ _ _ Hi).
Qed.

Definition demo_thread : kernel :=
  after (copy_process sched_round_robin 0 0 PF_KTHREAD 4096 0) demo_boot.
Lemma demo_thread_reachable : rtc (step sched_round_robin 0 0) demo_boot demo_thread.
Proof.
  apply rtc_once, (KernelThread _ _ _ 4096 0 1). unfold demo_thread.
  assert (H : match copy_process sched_round_robin 0 0 PF_KTHREAD 4096 0 demo_boot with
              | Done r _ => r =? 1 | _ => false end = true) by (vm_compute; reflexivity).
  unfold after. destruct (copy_process _ _ _ _ _ _ _) as [r s'| |]; [|done..].
  by apply Z.eqb_eq in H as ->.
Qed.
Lemma ready_in_one_queue_witness :
  ∃ q pq l, valid_queue q ∧ queue_at demo_thread q = Some pq ∧ queue_rep (heap demo_thread) pq l ∧
    P1 ∈ l ∧ NoDup l ∧
    ∀ q' pq' l', valid_queue q' → queue_at demo_thread q' = Some pq' →
      queue_rep (heap demo_thread) pq' l' → P1 ∈ l' → q' = q.
Proof.
  refine (ready_in_one_queue _ 0 0 (λ _, 0) _ P1 (default zero_PCB (heap demo_thread !! P1))
    (alg_at 0 sched_round_robin eq_refl) demo_thread_reachable _ _ _ _).
  - vm_compute. right. left.
  - done.
  - vm_compute. reflexivity.
  - vm_compute. reflexivity.
Defined.

(** C2: Every entry into the scheduler completes: from a reachable state a timer tick
    returns, and so do [schedule] and [exit_process], with a process in the RUNNING state
    on the CPU after the last two. *)
Theorem scheduler_terminates alg s a :
  alg ∈ all_algorithms → rep s a → kernel_ok alg a →
  (∃ s', handle_timer_tick alg s = Done tt s') ∧
  (∃ s', schedule alg s = Done tt s' ∧ state <$> heap s' !! current_process s' = Some PROCESS_RUNNING) ∧
  (∃ s', exit_process alg s = Done tt s' ∧ state <$> heap s' !! current_process s' = Some PROCESS_RUNNING).
Proof.
  intros Hin Hr Hok. pose proof (alg_ok_all _ Hin) as Hao. split_and!.
  - assert (H : wp (handle_timer_tick alg) (λ _ _, True) s) by by eapply wp_handle_timer_tick.
    apply wp_done in H as ([] & s' & E & _). eauto.
  - destruct (proj1 (wp_done _ _ _) (wp_schedule _ _ Hao Hr Hok)) as ([] & s' & E & Hd).
    exists s'. split; [done|]. by eapply gc_state, (decides_gets_cpu _ _ _ _ (Some _) None Hd).
  - destruct (proj1 (wp_done _ _ _) (wp_exit_process _ _ Hao Hr Hok)) as ([] & s' & E & Hd).
    exists s'. split; [done|]. by eapply gc_state, (decides_gets_cpu _ _ _ _ (Some _) None Hd).
Qed.

Lemma scheduler_terminates_witness :
  let s := demo_running sched_priority_aging in
  (∃ s', handle_timer_tick sched_priority_aging s = Done tt s') ∧
  (∃ s', schedule sched_priority_aging s = Done tt s' ∧ state <$> heap s' !! current_process s' = Some PROCESS_RUNNING) ∧
  (∃ s', exit_process sched_priority_aging s = Done tt s' ∧ state <$> heap s' !! current_process s' = Some PROCESS_RUNNING).
Proof.
  pose proof (alg_at 4 sched_priority_aging eq_refl) as Hin.
  pose proof (demo_running_ok _ Hin) as [Hr [Hm _]].
  exact (scheduler_terminates _ _ _ Hin Hr (mo_ok _ _ Hm)).
Defined.

(** ** The ready queues *)

(** C23: The O(1) queue is a FIFO: [enqueue_process_to] appends the process, now READY, to
    the list the queue represents, and [dequeue_process_from] takes its head (or reports
    that it is empty); no other queue and no other PCB changes. *)
Theorem ready_queue_fifo q p s a :
  rep s a → valid_queue q → unqueued a p → p ≠ InitProcess → allocated a p →
  (∃ s', enqueue_process_to q (Some p) s = Done tt s' ∧
     rep s' (a_update p (set_state PROCESS_READY) (a_set_queue q (queues a q ++ [p]) a))) ∧
  (∃ s', dequeue_process_from q s = Done (head (queues a q)) s' ∧
     rep s' (a_set_queue q (tail (queues a q)) a)).
Proof.
  intros Hr Hq Hun Hne [pcb Hp]. split.
  - assert (H : wp (enqueue_process_to q (Some p)) (λ _ s', rep s' (a_enqueue q p a)) s)
      by by eapply wp_enqueue_process_to.
    apply wp_done in H as ([] & s' & E & H). eauto.
  - assert (H : wp (dequeue_process_from q) (λ r s', r = head (queues a q) ∧ rep s' (a_set_queue q (tail (queues a q)) a)) s).
    { eapply wp_dequeue_process_from; [exact Hr|done|].
      destruct (queues a q) as [|x l] eqn:Hl; [|done]. split; [done|]. cbn [tail].
      eapply rep_ext; [| |exact Hr]; [done|]. intros q'. cbn. unfold upd_queue. case_decide; [by subst|done]. }
    apply wp_done in H as (r & s' & E & -> & H). eauto.
Qed.

Lemma ready_queue_fifo_witness :
  let a := demo_running_state sched_round_robin in
  (∃ s', enqueue_process_to ReadyQueue (Some P1) (demo_running sched_round_robin) = Done tt s' ∧
     rep s' (a_update P1 (set_state PROCESS_READY) (a_set_queue ReadyQueue [P2; P1] a))) ∧
  (∃ s', dequeue_process_from ReadyQueue (demo_running sched_round_robin) = Done (Some P2) s' ∧
     rep s' (a_set_queue ReadyQueue [] a)).
Proof.
  pose proof (alg_at 0 sched_round_robin eq_refl) as Hin.
  pose proof (demo_running_ok _ Hin) as [Hr [Hm _]].
  refine (ready_queue_fifo ReadyQueue P1 _ _ Hr I _ _ _); [|done|vm_compute; eauto].
  exact (ko_unqueued _ _ (mo_ok _ _ Hm)).
Defined.

(** [remove_process_from], given the predecessor of a process in the queue (NULL for
    the head), unlinks exactly that process, also at the head and at the tail. *)
Theorem remove_unlinks q p l1 l2 s a :
  rep s a → valid_queue q → queues a q = l1 ++ p :: l2 →
  ∃ s', remove_process_from q (last l1) (Some p) s = Done tt s' ∧ rep s' (a_set_queue q (l1 ++ l2) a).
Proof.
  intros Hr Hq Hl.
  assert (H : wp (remove_process_from q (last l1) (Some p)) (λ _ s', rep s' (a_set_queue q (l1 ++ l2) a)) s)
    by by eapply wp_remove_process_from.
  apply wp_done in H as ([] & s' & E & H). eauto.
Qed.

Lemma remove_unlinks_witness :
  ∃ s', remove_process_from ReadyQueue (Some P1) (Some P2) (demo_ready sched_round_robin) = Done tt s' ∧
    rep s' (a_set_queue ReadyQueue [P1] (demo_ready_state sched_round_robin)).
Proof.
  pose proof (demo_ready_ok _ (alg_at 0 sched_round_robin eq_refl)) as [Hr _].
  exact (remove_unlinks ReadyQueue P2 [P1] [] _ _ Hr I ltac:(vm_compute; reflexivity)).
Defined.

(** C24: [enqueue_sorted_to] refines insertion into a sorted list: on a queue in ascending
    order of the estimated bursts (of at most as many processes as the table holds) it
    terminates and leaves it ascending, with the process, now READY, behind those of the
    same estimate (equal bursts stay in order of arrival). *)
Theorem sorted_enqueue_refines q p s a :
  rep s a → valid_queue q → unqueued a p → p ≠ InitProcess → allocated a p →
  (length (queues a q) ≤ Z.to_nat N_PROCESSES)%nat →
  let key := burst_of (core a) in
  ascending key (queues a q) →
  ∃ s' l1 l2, enqueue_sorted_to q (Some p) s = Done tt s' ∧ queues a q = l1 ++ l2 ∧
    rep s' (a_update p (set_state PROCESS_READY) (a_set_queue q (l1 ++ p :: l2) a)) ∧
    ascending key (l1 ++ p :: l2) ∧
    Forall (λ x, key x ≤ key p) l1 ∧ Forall (λ x, key p < key x) l2.
Proof.
  intros Hr Hq Hun Hne [pcb Hp] Hlen key Hasc.
  assert (H : wp (enqueue_sorted_to q (Some p)) (λ _ s', rep s' (a_enqueue_sorted q p a)) s).
  { eapply wp_enqueue_sorted_to; try done. unfold queue_fuel. lia. }
  apply wp_done in H as ([] & s' & E & H).
  destruct (insert_by_split key p _ Hasc) as (l1 & l2 & Hl & Hins & H1 & H2).
  exists s', l1, l2. unfold a_enqueue_sorted in H. fold key in H. rewrite Hins in H.
  split_and!; try done. rewrite <- Hins. by apply insert_by_ascending.
Qed.

Lemma sorted_enqueue_refines_witness :
  let a := demo_running_state sched_sjf in
  ∃ s' l1 l2, enqueue_sorted_to ReadyQueue (Some P2) (demo_running sched_sjf) = Done tt s' ∧ [P1] = l1 ++ l2 ∧
    rep s' (a_update P2 (set_state PROCESS_READY) (a_set_queue ReadyQueue (l1 ++ P2 :: l2) a)) ∧
    ascending (burst_of (core a)) (l1 ++ P2 :: l2) ∧
    Forall (λ x, burst_of (core a) x ≤ burst_of (core a) P2) l1 ∧
    Forall (λ x, burst_of (core a) P2 < burst_of (core a) x) l2.
Proof.
  pose proof (alg_at 2 sched_sjf eq_refl) as Hin.
  pose proof (demo_running_ok _ Hin) as [Hr [Hm _]].
  refine (sorted_enqueue_refines ReadyQueue P2 _ _ Hr I _ _ _ _ _).
  - exact (ko_unqueued _ _ (mo_ok _ _ Hm)).
  - done.
  - vm_compute. eauto.
  - vm_compute. lia.
  - vm_compute. repeat constructor.
Defined.
