(* ===== verification/PropTick.v ===== *)
(** * Properties of the timer tick, of signals and of the parameters

    Preemption, the migrations of MLFQ, pending signals, the scheduling parameters, the
    context switch and the end of a process. *)
From S2P Require Import Prelude.
From S2P Require Import Process.
From S2P Require Import ReadyQueue.
From S2P Require Import Scheduler.
From S2P Require Import SchedSpec.
From S2P Require Import SchedInv.
From S2P Require Import SchedDispatch.
From S2P Require Import SchedPick.
From S2P Require Import SchedAging.
From S2P Require Import SchedLottery.
From S2P Require Import SchedTick.
From S2P Require Import SchedChoice.
From S2P Require Import SchedOps.
From S2P Require Import SchedParam.
From S2P Require Import Fork.
From S2P Require Import Frame.
From S2P Require Import System.
From S2P Require Import Demo.
From S2P Require Import PropSched.
Local Open Scope Z_scope.

Section tick_frame.
Context {alg : SchedAlgorithm}.
Implicit Types (a : astate) (p : pcb_ptr).

Lemma demote_pcb policy a p :
  pcb_at (a_demote policy a) p = pcb_at a p ∧ current (a_demote policy a) = current a.
Proof. unfold a_demote. by destruct (_ && _). Qed.
Lemma on_tick_pcb a p : pcb_at (a_on_tick alg a) p = pcb_at a p ∧ current (a_on_tick alg a) = current a.
Proof.
  unfold a_on_tick. destruct (on_tick alg) as [[]|]; [|done]. destruct (ml_policy alg) as [policy|]; [|done].
  destruct (decide (0 < boost_period policy)).
  - destruct (demote_pcb policy (a_boost_tick policy a) p) as [-> ->].
    destruct (boost_tick_frame policy a) as (Hc & Hp & _). by rewrite Hp, Hc.
  - apply demote_pcb.
Qed.
Lemma account_pcb a p :
  pcb_at (a_account a) p =
  if decide (current a = p) then (λ pcb, set_burst_ticks (burst_ticks pcb + 1) (set_counter (counter pcb - 1) pcb)) <$> pcb_at a p
  else pcb_at a p.
Proof.
  unfold a_account. rewrite a_update_compose, pcb_at_update. case_decide; [|done]. by destruct (pcb_at a p).
Qed.
Lemma ticked_fields a p pcb :
  pcb_at a (current a) = Some pcb → p = current a →
  let a1 := a_on_tick alg (a_account a) in
  current a1 = p ∧ counter_of a1 p = counter pcb - 1 ∧ preempt_of a1 p = preempt_disabled pcb.
Proof.
  intros Hp -> a1. destruct (on_tick_pcb (a_account a) (current a)) as [Hp1 Hc1].
  fold a1 in Hp1, Hc1. rewrite account_pcb, decide_True, Hp in Hp1 by done.
  unfold counter_of, preempt_of. by rewrite Hp1.
Qed.
End tick_frame.

(** ** The timer tick *)

(** A tick takes the CPU from nobody it must not: when the current process has ticks
    left, when its preemption is disabled, and under FCFS and SJF whenever it is not the
    idle process, the tick returns with the same process on the CPU, one tick shorter. *)
Theorem tick_keeps_current alg s a pcb :
  alg ∈ all_algorithms → rep s a → kernel_ok alg a → pcb_at a (current a) = Some pcb →
  1 < counter pcb ∨ 0 < preempt_disabled pcb ∨ (is_preemptive alg = false ∧ current a ≠ InitProcess) →
  ∃ s', handle_timer_tick alg s = Done tt s' ∧ current_process s' = current_process s ∧
    slice_now s' (current a) = Some (if (1 <? counter pcb) || (0 <? preempt_disabled pcb) then counter pcb - 1 else 0).
Proof.
  intros Hin Hr Hok Hp Hwhy. pose proof (alg_ok_all _ Hin) as Hao.
  destruct (ticked_fields (alg:=alg) a _ _ Hp eq_refl) as (Hc1 & Hn1 & Hd1).
  assert (H : wp (handle_timer_tick alg) (λ _ s', rep s' (a_tick alg a) ∧ kernel_ok alg (a_tick alg a)) s)
    by by eapply wp_handle_timer_tick.
  apply wp_done in H as ([] & s' & E & Hr' & Hok'). exists s'. split; [done|].
  rewrite (rep_current _ _ Hr), (rep_current _ _ Hr').
  assert (Hslice : ∀ z, current (a_tick alg a) = current a → counter_of (a_tick alg a) (current a) = z →
    slice_now s' (current a) = Some z).
  { intros z Hc <-. destruct (current_pcb _ Hok') as (x & Hx & _). rewrite Hc in Hx. by eapply rep_slice. }
  unfold a_tick in *. set (a1 := a_on_tick alg (a_account a)) in *. cbv zeta in Hslice |- *. rewrite Hc1, Hn1, Hd1 in *.
  replace (0 <? counter pcb - 1) with (1 <? counter pcb) in *
    by (destruct (Z.ltb_spec 1 (counter pcb)), (Z.ltb_spec 0 (counter pcb - 1)); lia).
  destruct (_ || _) eqn:Hb.
  - split; [done|]. by apply Hslice.
  - apply orb_false_iff in Hb as [H1%Z.ltb_ge H2%Z.ltb_ge]. destruct Hwhy as [?|[?|[Hpre Hne]]]; [lia|lia|].
    rewrite Hpre in *. change (current (a_update ?p ?f a1)) with (current a1) in *. rewrite Hc1 in *.
    rewrite bool_decide_true in * by done. cbn [negb andb] in *. split; [done|]. apply Hslice; [done|].
    destruct (current_pcb _ Hok') as (x & Hx & _). change (current (a_update ?p ?f a1)) with (current a1) in Hx.
    rewrite Hc1, pcb_at_update, decide_True in Hx by done.
    destruct (pcb_at a1 (current a)) as [y|] eqn:Hy; [|done]. by eapply set_counter_counter.
Qed.

Lemma tick_keeps_current_witness :
  ∃ s', handle_timer_tick sched_fcfs (demo_running sched_fcfs) = Done tt s' ∧
    current_process s' = current_process (demo_running sched_fcfs) ∧ slice_now s' P1 = Some 4.
Proof.
  pose proof (alg_at 1 sched_fcfs eq_refl) as Hin.
  pose proof (demo_running_ok _ Hin) as [Hr [Hm _]].
  refine (tick_keeps_current _ _ _ (default zero_PCB (pcb_at (demo_running_state sched_fcfs) P1)) Hin Hr (mo_ok _ _ Hm) _ _).
  - vm_compute. reflexivity.
  - right. right. by vm_compute.
Defined.

(** ** MLFQ *)

(** The anti-starvation boost of MLFQ: on the tick that completes the period every
    process, queued or blocked, is back at level 0; the queue of level 0 holds its own
    processes followed by those of the levels below, in order of level and of arrival;
    the other queues are empty and the period starts again. On the ticks before only the
    count changes. *)
Theorem mlfq_boost s a :
  rep s a → kernel_ok sched_mlfq a →
  ∃ s' a', multilevel_boost ml_policy_mlfq s = Done tt s' ∧ rep s' a' ∧
    if decide (MLFQ_BOOST_PERIOD ≤ ml_ticks_since_boost (core a) + 1) then
      queue_level (core a') = replicate (Z.to_nat N_PROCESSES) 0 ∧ ml_ticks_since_boost (core a') = 0 ∧
      queues a' (MlQueue 0) = concat ((λ q, queues a (MlQueue q)) <$> [0; 1; 2; 3; 4]) ∧
      (∀ q, 1 ≤ q < ML_MAX_LEVELS → queues a' (MlQueue q) = [])
    else
      queue_level (core a') = queue_level (core a) ∧ queues a' = queues a ∧
      ml_ticks_since_boost (core a') = ml_ticks_since_boost (core a) + 1.
Proof.
  intros Hr [Hi _].
  assert (H : wp (multilevel_boost ml_policy_mlfq) (λ _ s', rep s' (a_boost_tick ml_policy_mlfq a)) s).
  { by eapply (wp_multilevel_boost (alg:=sched_mlfq)). }
  apply wp_done in H as ([] & s' & E & H). exists s', (a_boost_tick ml_policy_mlfq a).
  split_and!; [done|done|]. unfold a_boost_tick. set (a1 := a_core _ a).
  change (ml_ticks_since_boost (core a1)) with (ml_ticks_since_boost (core a) + 1).
  change (boost_period ml_policy_mlfq) with MLFQ_BOOST_PERIOD.
  case_decide; [|done]. split_and!; [done|done|done|]. intros q Hq. unfold ML_MAX_LEVELS in Hq.
  change (boosted_queues (seqZ 1 4) (queues a) (MlQueue q) = []). unfold boosted_queues.
  rewrite decide_False by lia. rewrite decide_True; [done|]. apply elem_of_seqZ. lia.
Qed.

Lemma rep_ticks n s a :
  rep s a → rep (set_ml_ticks_since_boost n s) (a_core (set_ml_ticks_since_boost n) a).
Proof.
  intros Hr. by apply (wp_modify_core (set_ml_ticks_since_boost n) (λ _ s', rep s' (a_core (set_ml_ticks_since_boost n) a)) s a).
Qed.
Lemma kernel_ok_ticks alg n a : kernel_ok alg a → kernel_ok alg (a_core (set_ml_ticks_since_boost n) a).
Proof. intros [Hi Hu]. split; [|exact Hu]. apply kinv_core; try done; apply Hi. Qed.
Definition demo_overdue : kernel := set_ml_ticks_since_boost 299 (demo_ready sched_mlfq).
Lemma mlfq_boost_witness :
  let a := a_core (set_ml_ticks_since_boost 299) (demo_ready_state sched_mlfq) in
  ∃ s' a', multilevel_boost ml_policy_mlfq demo_overdue = Done tt s' ∧ rep s' a' ∧
    if decide (MLFQ_BOOST_PERIOD ≤ ml_ticks_since_boost (core a) + 1) then
      queue_level (core a') = replicate (Z.to_nat N_PROCESSES) 0 ∧ ml_ticks_since_boost (core a') = 0 ∧
      queues a' (MlQueue 0) = concat ((λ q, queues a (MlQueue q)) <$> [0; 1; 2; 3; 4]) ∧
      (∀ q, 1 ≤ q < ML_MAX_LEVELS → queues a' (MlQueue q) = [])
    else
      queue_level (core a') = queue_level (core a) ∧ queues a' = queues a ∧
      ml_ticks_since_boost (core a') = ml_ticks_since_boost (core a) + 1.
Proof.
  pose proof (alg_at 6 sched_mlfq eq_refl) as Hin.
  pose proof (demo_ready_ok _ Hin) as [Hr [Hm _]].
  exact (mlfq_boost _ _ (rep_ticks 299 _ _ Hr) (kernel_ok_ticks _ 299 _ (mo_ok _ _ Hm))).
Defined.

(** Demotion in MLFQ: a user process that has used its slice up with its preemption
    enabled moves one level down, unless it is at the last; under MLQ, and otherwise, no
    level changes. *)
Theorem demotion_one_level alg policy s a pcb :
  alg = sched_mlq ∧ policy = ml_policy_mlq ∨ alg = sched_mlfq ∧ policy = ml_policy_mlfq →
  rep s a → kernel_ok alg a → pcb_at a (current a) = Some pcb →
  ∃ s' a', multilevel_demotion policy s = Done tt s' ∧ rep s' a' ∧ queues a' = queues a ∧
    queue_level (core a') =
      if demote_on_expiry policy && bool_decide (current a ≠ InitProcess) && (counter pcb <=? 0)
         && (preempt_disabled pcb =? 0) && (level_of a (current a) <? ML_MAX_LEVELS - 1)
      then <[Z.to_nat (pid pcb) := level_of a (current a) + 1]> (queue_level (core a))
      else queue_level (core a).
Proof.
  intros Halg Hr Hok Hp.
  assert (Hpol : policy_ok policy ∧ n_levels policy = ML_MAX_LEVELS).
  { destruct Halg as [[_ ->]|[_ ->]]; (split; [|done]).
    - by apply (alg_ok_at 5 _ eq_refl).
    - by apply (alg_ok_at 6 _ eq_refl). }
  destruct Hpol as [Hpol Hn].
  assert (H : wp (multilevel_demotion policy) (λ _ s', rep s' (a_demote policy a)) s)
    by by eapply (wp_multilevel_demotion (alg:=alg)).
  apply wp_done in H as ([] & s' & E & H). exists s', (a_demote policy a). split_and!; [done|done| |].
  - unfold a_demote. by destruct (_ && _ && _).
  - unfold a_demote, expired, counter_of, preempt_of. rewrite Hp, Hn. cbn [from_option].
    rewrite <- !andb_assoc. by destruct (_ && _).
Qed.

Lemma rep_set_counter p n s a :
  rep s a → is_Some (pcb_at a p) → rep (after (update p (set_counter n)) s) (a_update p (set_counter n) a).
Proof.
  intros Hr [pcb Hp]. apply (wp_after (update p (set_counter n)) (λ s, rep s (a_update p (set_counter n) a))).
  eapply wp_update; [exact Hr|auto with kernel|exact Hp|done].
Qed.
Lemma keeps_identity_counter n : keeps_identity (set_counter n).
Proof. auto with kernel. Qed.
Lemma demotion_one_level_witness :
  let a := a_update P2 (set_counter 0) (demo_running_state sched_mlfq) in
  ∃ s' a', multilevel_demotion ml_policy_mlfq (after (update P2 (set_counter 0)) (demo_running sched_mlfq)) = Done tt s' ∧
    rep s' a' ∧ queues a' = queues a ∧
    queue_level (core a') = <[2%nat := 1]> (queue_level (core a)).
Proof.
  pose proof (alg_at 6 sched_mlfq eq_refl) as Hin.
  pose proof (demo_running_ok _ Hin) as [Hr [Hm _]].
  pose proof (demotion_one_level sched_mlfq ml_policy_mlfq _ _
    (default zero_PCB (pcb_at (a_update P2 (set_counter 0) (demo_running_state sched_mlfq)) P2))
    (or_intror (conj eq_refl eq_refl))
    (rep_set_counter P2 0 _ _ Hr ltac:(vm_compute; eauto))
    (kernel_ok_update (set_counter 0) _ (mo_ok _ _ Hm) (keeps_identity_counter 0) (λ _, eq_refl)))
    as H.
  destruct H as (s' & a' & E & Hr' & Hq & Hl); [vm_compute; reflexivity|].
  exists s', a'. split; [exact E|]. split; [exact Hr'|]. split; [exact Hq|]. rewrite Hl. vm_compute. reflexivity.
Defined.

(** ** Scheduling parameters *)
Section set_param.
Context {alg : SchedAlgorithm}.
Implicit Types (a : astate) (p : pcb_ptr).

Lemma preempt_field {B} (g : PCB → B) d a p :
  (∀ pcb v, g (set_preempt_disabled v pcb) = g pcb) → g <$> pcb_at (a_preempt d a) p = g <$> pcb_at a p.
Proof. intros H. rewrite preempt_pcb. case_decide; [|done]. destruct (pcb_at a p); cbn; [by rewrite H|done]. Qed.
Lemma trace_pcb line a p : pcb_at (a_trace alg line a) p = pcb_at a p.
Proof. unfold pcb_at. by destruct (trace_frame alg line a) as (_ & _ & -> & _). Qed.

Lemma set_param_frame p param value a :
  queues (a_set_param alg p param value a) = queues a ∧
  processes (core (a_set_param alg p param value a)) = processes (core a).
Proof. unfold a_set_param, a_trace. by repeat case_match. Qed.
Lemma set_priority_result p value a x :
  pcb_at a p = Some x →
  pcb_at (a_set_param alg p SCHED_PARAM_PRIORITY value a) p = Some (set_priority value x).
Proof. intros Hx. exact (pcb_at_update_eq a p (set_priority value) x Hx). Qed.
Lemma set_tickets_result p value a x :
  pcb_at a p = Some x →
  pcb_at (a_set_param alg p SCHED_PARAM_TICKETS value a) p = Some (set_tickets value x).
Proof. intros Hx. exact (pcb_at_update_eq a p (set_tickets value) x Hx). Qed.
Lemma set_level_result p value a x :
  pcb_at a p = Some x →
  let a' := a_set_param alg p SCHED_PARAM_QUEUE_PRIORITY value a in
  queue_priority <$> pcb_at a' p = Some (clamp_level alg value) ∧ pid <$> pcb_at a' p = Some (pid x) ∧
  queue_level (core a') = <[Z.to_nat (pid x) := clamp_level alg value]> (queue_level (core a)).
Proof.
  intros Hx. cbn zeta. set (level := clamp_level alg value).
  assert (E : a_set_param alg p SCHED_PARAM_QUEUE_PRIORITY value a =
    a_trace alg (trace_line level_text (pid x) moved_text level) (a_preempt (-1) (a_set_level (pid x) level
      (a_update p (set_queue_priority level) (a_preempt 1 a))))).
  { unfold a_set_param. by rewrite Hx. }
  rewrite E, trace_pcb, !preempt_field by done. unfold a_set_level.
  change (pcb_at (a_core ?g ?y) p) with (pcb_at y p). split_and!.
  - rewrite pcb_at_update, decide_True by done. pose proof (preempt_field (λ _, tt) 1 a p (λ _ _, eq_refl)) as H.
    rewrite Hx in H. by destruct (pcb_at (a_preempt 1 a) p).
  - rewrite pcb_at_update, decide_True by done. pose proof (preempt_field pid 1 a p (λ _ _, eq_refl)) as H.
    rewrite Hx in H. by destruct (pcb_at (a_preempt 1 a) p).
  - unfold a_trace. by destruct (ml_policy alg).
Qed.
End set_param.

(** [sched_set_param] answers -1 and changes nothing for a NULL or idle target, an
    unknown selector or a value out of range; otherwise it answers 0, the field of the
    target has the new value (a queue level is first clamped to the levels of the active
    policy, and the tracked level follows it), and no ready queue changes. *)
Theorem set_param_checks alg target param value s a :
  alg ∈ all_algorithms → rep s a → kernel_ok alg a → (∀ p, target = Some p → registered a p) →
  match target with
  | Some (KernelPage _ as p) =>
      if param_accepted param value then
        ∃ s' a' pcb, sched_set_param alg target param value s = Done 0 s' ∧ rep s' a' ∧
          queues a' = queues a ∧ current a' = current a ∧ pcb_at a' p = Some pcb ∧
          (param = SCHED_PARAM_PRIORITY → priority pcb = value) ∧
          (param = SCHED_PARAM_TICKETS → tickets pcb = value) ∧
          (param = SCHED_PARAM_QUEUE_PRIORITY →
             queue_priority pcb = clamp_level alg value ∧
             queue_level (core a') !! Z.to_nat (pid pcb) = Some (clamp_level alg value))
      else sched_set_param alg target param value s = Done (-1) s
  | _ => sched_set_param alg target param value s = Done (-1) s
  end.
Proof.
  intros Hin Hr Hok Hreg. pose proof (alg_ok_all _ Hin) as Hao.
  destruct target as [[|address]|]; [apply set_param_refused; auto| |apply set_param_refused; auto].
  set (p := KernelPage address) in *. destruct (param_accepted param value) eqn:Hacc; [|apply set_param_refused; auto].
  specialize (Hreg p eq_refl). set (a' := a_set_param alg p param value a).
  assert (H : wp (sched_set_param alg (Some p) param value)
    (λ r s', r = 0 ∧ rep s' a' ∧ kernel_ok alg a' ∧ current a' = current a) s)
    by by eapply (wp_sched_set_param (alg:=alg)).
  apply wp_done in H as (r & s' & E & -> & Hr' & Hok' & Hc).
  destruct (registered_pcb _ _ _ (ko_inv _ _ Hok) Hreg) as (x & Hx & Hpid & _).
  destruct (set_param_frame (alg:=alg) p param value a) as (Hq & Ht). fold a' in Hq, Ht.
  assert (Hreg' : registered a' p) by (unfold registered; by rewrite Ht).
  destruct (registered_pcb _ _ _ (ko_inv _ _ Hok') Hreg') as (pcb & Hp & _).
  exists s', a', pcb. split_and!; try done; unfold a' in Hp; intros ->.
  - rewrite (set_priority_result _ _ _ _ Hx) in Hp. by injection Hp as <-.
  - rewrite (set_tickets_result _ _ _ _ Hx) in Hp. by injection Hp as <-.
  - destruct (set_level_result (alg:=alg) p value a x Hx) as (H1 & H2 & H3). rewrite Hp in H1, H2.
    injection H1 as H1. injection H2 as H2. split; [done|]. unfold a'. rewrite H3, H2.
    apply list_lookup_insert_eq. rewrite (inv_levels_length _ _ _ (ko_inv _ _ Hok)). unfold N_PROCESSES in *. lia.
Qed.

Lemma set_param_checks_witness :
  ∃ s' a' pcb, sched_set_param sched_mlq (Some P1) SCHED_PARAM_QUEUE_PRIORITY 3 (demo_ready sched_mlq) = Done 0 s' ∧
    rep s' a' ∧ queues a' = queues (demo_ready_state sched_mlq) ∧ current a' = InitProcess ∧ pcb_at a' P1 = Some pcb ∧
    queue_priority pcb = 3.
Proof.
  pose proof (alg_at 5 sched_mlq eq_refl) as Hin.
  pose proof (demo_ready_ok _ Hin) as [Hr [Hm _]].
  destruct (set_param_checks sched_mlq (Some P1) SCHED_PARAM_QUEUE_PRIORITY 3 _ _ Hin Hr (mo_ok _ _ Hm))
    as (s' & a' & pcb & E & Hr' & Hq & Hc & Hp & _ & _ & H).
  - intros p [= <-]. vm_compute. right. left.
  - exists s', a', pcb. destruct (H eq_refl) as [H1 _].
    split; [exact E|]. split; [exact Hr'|]. split; [exact Hq|]. split; [exact Hc|]. split; [exact Hp|exact H1].
Defined.

(** ** Signals *)

(** A pending signal is handled when its process is taken from a ready queue: kill
    makes it a ZOMBIE, else stop makes it STOPPED, else resume leaves it READY; one signal
    is consumed at a time and every other pending bit stays. *)
Theorem signals_by_priority alg p pcb s a :
  rep s a → pcb_at a p = Some pcb → state pcb = PROCESS_READY →
  let has k := has_signal (pending_signals pcb) k in
  ∃ s' a' pcb', handle_process_signals alg p s = Done tt s' ∧ rep s' a' ∧ queues a' = queues a ∧
    pcb_at a' p = Some pcb' ∧
    state pcb' = (if has SIGNAL_KILL then PROCESS_ZOMBIE else if has SIGNAL_STOP then PROCESS_STOPPED else PROCESS_READY) ∧
    pending_signals pcb' =
      if has SIGNAL_KILL then Z.land (pending_signals pcb) (Z.lnot 2)
      else if has SIGNAL_STOP then Z.land (pending_signals pcb) (Z.lnot 4)
      else if has SIGNAL_RESUME then Z.land (pending_signals pcb) (Z.lnot 8)
      else pending_signals pcb.
Proof.
  intros Hr Hp Hst. cbn zeta.
  assert (H : wp (handle_process_signals alg p) (λ _ s', rep s' (a_signals p a)) s) by by eapply wp_handle_process_signals.
  apply wp_done in H as ([] & s' & E & H). exists s', (a_signals p a), (signal_effect pcb).
  split_and!; [done|done|done|by apply pcb_at_update_eq| |]; unfold signal_effect;
    destruct (has_signal _ SIGNAL_KILL); [done| |done|];
    destruct (has_signal _ SIGNAL_STOP); try done; by destruct (has_signal _ SIGNAL_RESUME).
Qed.

Lemma signals_by_priority_witness :
  ∃ s' a' pcb', handle_process_signals sched_fcfs P1 (demo_ready sched_fcfs) = Done tt s' ∧ rep s' a' ∧
    queues a' = queues (demo_ready_state sched_fcfs) ∧ pcb_at a' P1 = Some pcb' ∧
    state pcb' = PROCESS_READY ∧ pending_signals pcb' = 0.
Proof.
  pose proof (demo_ready_ok _ (alg_at 1 sched_fcfs eq_refl)) as [Hr _].
  exact (signals_by_priority sched_fcfs P1 (default zero_PCB (pcb_at (demo_ready_state sched_fcfs) P1)) _ _ Hr
    ltac:(vm_compute; reflexivity) ltac:(vm_compute; reflexivity)).
Defined.

(** ** The context switch *)
Lemma rep_set_cpu c s a : rep s a → rep (set_cpu c s) (a_core (set_cpu c) a).
Proof. intros Hr. by apply (wp_modify_core (set_cpu c) (λ _ s', rep s' (a_core (set_cpu c) a)) s a). Qed.
Lemma switched_context next a p :
  cpu_context <$> pcb_at (a_switch next a) p =
  if decide (p ≠ next ∧ p = current a) then (λ _, cpu (core a)) <$> pcb_at a p else cpu_context <$> pcb_at a p.
Proof.
  rewrite switch_pcb. unfold switched. destruct (pcb_at a p) as [x|]; [|by destruct (decide (p ≠ next ∧ _))]. cbn.
  destruct (decide (p = next)) as [->|Hne]; [rewrite decide_False by naive_solver; done|].
  destruct (decide (p = current a)) as [->|Hne']; [by rewrite decide_True|].
  rewrite decide_False by naive_solver. done.
Qed.

Lemma switch_registers next a x :
  current a ≠ next → pcb_at a next = Some x →
  cpu (core (a_switch next a)) = cpu_context x ∧ ttbr0_el1 (core (a_switch next a)) = pgd (mm x).
Proof.
  intros Hne Hx. unfold a_switch. rewrite decide_False by done.
  change (from_option cpu_context zero_context (pcb_at a next) = cpu_context x ∧
    from_option (λ pcb, pgd (mm pcb)) 0 (pcb_at a next) = pgd (mm x)). by rewrite Hx.
Qed.

(** A context switch is transparent to the process that is switched out: whatever the
    next process leaves in the registers ([c]), switching back restores the registers of
    the first one, and those of the second are kept in its PCB; while it runs, the second
    has its saved registers and its own page tables. *)
Theorem context_switch_round_trip next pcb pcb0 c s a :
  rep s a → pcb_at a next = Some pcb → pcb_at a (current a) = Some pcb0 → next ≠ current a →
  ∃ s1 s2, switch_to_process next s = Done tt s1 ∧
    current_process s1 = next ∧ cpu s1 = cpu_context pcb ∧ ttbr0_el1 s1 = pgd (mm pcb) ∧
    switch_to_process (current a) (set_cpu c s1) = Done tt s2 ∧
    current_process s2 = current_process s ∧ cpu s2 = cpu s ∧ ttbr0_el1 s2 = pgd (mm pcb0) ∧
    cpu_context <$> heap s2 !! next = Some c.
Proof.
  intros Hr Hp Hp0 Hne.
  assert (H : wp (switch_to_process next) (λ _ s', rep s' (a_switch next a)) s) by by eapply wp_switch_to_process.
  apply wp_done in H as ([] & s1 & E1 & Hr1). set (a1 := a_switch next a) in *.
  set (a1' := a_core (set_cpu c) a1). pose proof (rep_set_cpu c _ _ Hr1) as Hr1'. fold a1' in Hr1'.
  assert (Hcur1 : current a1 = next) by apply switch_current.
  assert (Hq : ∀ p x, pcb_at a p = Some x → ∃ y, pcb_at a1 p = Some y ∧ mm y = mm x).
  { intros p x Hx. unfold a1. rewrite switch_pcb, Hx. eexists. split; [done|]. cbn. unfold switched.
    destruct (decide (p = next)); [done|]. by destruct (decide (p = current a)), (bool_decide (state x = PROCESS_RUNNING)). }
  destruct (Hq _ _ Hp) as (y & Hy & Hmy). destruct (Hq _ _ Hp0) as (y0 & Hy0 & Hmy0).
  assert (H : wp (switch_to_process (current a)) (λ _ s', rep s' (a_switch (current a) a1')) (set_cpu c s1)).
  { eapply wp_switch_to_process; [exact Hr1'|exact Hy0| |done].
    change (current a1') with (current a1). rewrite Hcur1. exact Hy. }
  apply wp_done in H as ([] & s2 & E2 & Hr2).
  pose proof (switch_registers next a pcb ltac:(congruence) Hp) as Hcpu1. fold a1 in Hcpu1.
  pose proof (switched_context next a (current a)) as Hsv. rewrite decide_True, Hp0 in Hsv by done. fold a1 in Hsv. rewrite Hy0 in Hsv.
  injection Hsv as Hsv.
  pose proof (switch_registers (current a) a1' y0 ltac:(change (current a1') with (current a1); congruence) Hy0) as Hcpu2.
  rewrite Hsv, Hmy0 in Hcpu2.
  exists s1, s2. rewrite (rep_current _ _ Hr), (rep_current _ _ Hr1), (rep_current _ _ Hr2).
  rewrite (rep_field cpu s a), (rep_field cpu s1 a1), (rep_field cpu s2 _) by done.
  rewrite (rep_field ttbr0_el1 s1 a1), (rep_field ttbr0_el1 s2 _) by done.
  split_and!; try done; try apply Hcpu1; try apply Hcpu2; [apply switch_current|].
  pose proof (switched_context (current a) a1' next) as Hn. change (pcb_at a1' next) with (pcb_at a1 next) in Hn.
  rewrite decide_True, Hy in Hn by done. cbn in Hn.
  destruct (pcb_at (a_switch (current a) a1') next) as [z|] eqn:Hz; [|done].
  destruct (rep_lookup _ _ _ _ Hr2 Hz) as (v & Hv & _). rewrite Hv. exact Hn.
Qed.

Lemma context_switch_round_trip_witness :
  ∃ s1 s2, switch_to_process P2 (demo_running sched_fcfs) = Done tt s1 ∧
    current_process s1 = P2 ∧ cpu s1 = zero_context ∧ ttbr0_el1 s1 = 0 ∧
    switch_to_process P1 (set_cpu {| zero_context with sp := 7 |} s1) = Done tt s2 ∧
    current_process s2 = P1 ∧ cpu s2 = zero_context ∧ ttbr0_el1 s2 = 0 ∧
    cpu_context <$> heap s2 !! P2 = Some {| zero_context with sp := 7 |}.
Proof.
  pose proof (demo_running_ok _ (alg_at 1 sched_fcfs eq_refl)) as [Hr _].
  exact (context_switch_round_trip P2 (default zero_PCB (pcb_at (demo_running_state sched_fcfs) P2))
    (default zero_PCB (pcb_at (demo_running_state sched_fcfs) P1)) {| zero_context with sp := 7 |} _ _ Hr
    ltac:(vm_compute; reflexivity) ltac:(vm_compute; reflexivity) ltac:(by vm_compute)).
Defined.

(** ** The end of a process *)
Section waiters.
Context {alg : SchedAlgorithm}.
Implicit Types (a : astate) (p : pcb_ptr).

Lemma a_insert_pcb p a p' :
  pcb_at (a_insert alg p a) p' =
  if decide (p' = p ∧ p ≠ InitProcess) then set_state PROCESS_READY <$> pcb_at a p' else pcb_at a p'.
Proof.
  destruct p as [|address]; cbn [a_insert].
  { by rewrite decide_False by naive_solver. }
  unfold pcb_at. rewrite put_core. change (heap (core ?x) !! p') with (pcb_at x p').
  rewrite pcb_at_update. case_decide as E; [subst p'; by rewrite decide_True|].
  by rewrite decide_False by naive_solver.
Qed.
Lemma wake_waiter_pcb e p a p' :
  pcb_at (a_wake_waiter alg e a p) p' =
  if decide (p' = p ∧ waits_for e a p = true) then wake_waiting <$> pcb_at a p' else pcb_at a p'.
Proof.
  unfold a_wake_waiter, a_wake. destruct (waits_for e a p); [|by rewrite decide_False by naive_solver].
  rewrite a_insert_pcb, pcb_at_update. destruct (decide (p' = p)) as [->|Hne].
  - rewrite (decide_True (P := p = p ∧ true = true)), (decide_True (P := p = p)) by done.
    case_decide; [|done]. by destruct (pcb_at a p).
  - rewrite !decide_False by naive_solver. done.
Qed.
Lemma waits_for_pcb e a a' p : pcb_at a' p = pcb_at a p → waits_for e a' p = waits_for e a p.
Proof. intros H. unfold waits_for, state_of. by rewrite H. Qed.
Lemma wake_waiters_pcb e l a p :
  NoDup l →
  pcb_at (foldl (a_wake_waiter alg e) a l) p =
  if decide (p ∈ l ∧ waits_for e a p = true) then wake_waiting <$> pcb_at a p else pcb_at a p.
Proof.
  revert a. induction l as [|x l IH]; intros a Hnd; cbn [foldl].
  { rewrite decide_False; [done|]. intros [H _]. by apply elem_of_nil in H. }
  apply NoDup_cons in Hnd as [Hx Hnd]. rewrite IH by done.
  assert (H : p ≠ x → pcb_at (a_wake_waiter alg e a x) p = pcb_at a p).
  { intros Hne. rewrite wake_waiter_pcb. by rewrite decide_False by naive_solver. }
  destruct (decide (p = x)) as [->|Hne].
  - rewrite decide_False by naive_solver. rewrite wake_waiter_pcb.
    destruct (decide (waits_for e a x = true)).
    + rewrite !decide_True; [done|split; [left|done]|done].
    + rewrite !decide_False by naive_solver. done.
  - rewrite (waits_for_pcb e _ _ _ (H Hne)), (H Hne). apply decide_ext.
    rewrite elem_of_cons. naive_solver.
Qed.
End waiters.


