(* ===== verification/PropCalls.v ===== *)
(** * Properties of the system calls and of the memory

    Messages, waiting, signals by pid, the creation of processes, the page allocator and
    the console. *)
From S2P Require Import Prelude.
From S2P Require Import Process.
From S2P Require Import ReadyQueue.
From S2P Require Import Scheduler.
From S2P Require Import SchedSpec.
From S2P Require Import SchedInv.
From S2P Require Import SchedDispatch.
From S2P Require Import SchedPick.
From S2P Require Import SchedAging.
From S2P Require Import SchedLottery.
From S2P Require Import SchedTick.
From S2P Require Import SchedOps.
From S2P Require Import SchedParam.
From S2P Require Import CString.
From S2P Require Import Ipc.
From S2P Require Import Mm.
From S2P Require Import Uart.
From S2P Require Import Fork.
From S2P Require Import Frame.
From S2P Require Import Syscalls.
From S2P Require Import System.
From S2P Require Import Demo.
From S2P Require Import PropSched.
Local Open Scope Z_scope.

(** A sample caller: the process on the CPU. *)
Lemma demo_caller alg :
  alg ∈ all_algorithms → rep (demo_running alg) (demo_running_state alg) ∧
  (current (demo_running_state alg) ≠ InitProcess → caller alg (demo_running_state alg)).
Proof. intros H. destruct (demo_running_ok alg H) as [Hr Hl]. split; [done|]. by apply live_caller. Qed.
Definition blank_body : list Z := replicate (Z.to_nat MAX_MESSAGES_BODY_SIZE) 0.
Definition hello : list Z := [104; 101; 108; 108; 111].

(** ** Messages *)

(** What a woken process looks like. *)
Definition woken (a : astate) (p : pcb_ptr) : Prop :=
  state_of a p = PROCESS_READY ∧ (p ≠ InitProcess → ∃ q, valid_queue q ∧ p ∈ queues a q).

Section push.
Context {alg : SchedAlgorithm}.
Implicit Types (a : astate) (p : pcb_ptr).

Lemma registered_woken a p :
  kernel_ok alg a → registered a p → state_of a p = PROCESS_READY → woken a p.
Proof.
  intros Hok Hreg Hst. split; [done|]. intros Hne.
  by destruct (inv_ready _ _ _ (ko_inv _ _ Hok) p Hreg Hne Hst) as [|?].
Qed.
Lemma push_facts m p a :
  registered a p → kernel_ok alg a → kernel_ok alg (a_push (alg:=alg) m p a) →
  let a' := a_push (alg:=alg) m p a in
  buffer_of a' p = pushed m (buffer_of a p) ∧ registered a' p ∧
  (awaits_message a p → woken a' p) ∧ (¬ awaits_message a p → state_of a' p = state_of a p) ∧
  (∀ p', p' ≠ p → pcb_at a' p' = pcb_at a p') ∧ current a' = current a.
Proof.
  intros Hreg Hok Hok' a'. destruct (registered_pcb _ _ _ (ko_inv _ _ Hok) Hreg) as (pcb & Hp & _).
  unfold a', a_push in *. set (a1 := a_update p _ a) in *.
  assert (Hp1 : pcb_at a1 p = Some (set_messages_buffer (pushed m (buffer_of a p)) pcb))
    by by apply pcb_at_update_eq.
  assert (Hne : ∀ p', p' ≠ p → pcb_at a1 p' = pcb_at a p') by (intros; by apply pcb_at_update_ne).
  destruct (decide (awaits_message a p)) as [Haw|Haw].
  - destruct (wake_ready_frame (alg:=alg) p a1 p) as (Hc & Ht & _).
    pose proof (wake_ready_pcb (alg:=alg) p a1 _ Hp1) as Hp2.
    assert (Hreg' : registered (a_wake_ready (alg:=alg) p a1) p) by (unfold registered; by rewrite Ht).
    split_and!; try done.
    + unfold buffer_of at 1. by rewrite Hp2.
    + intros _. apply registered_woken; [done..|]. unfold state_of. by rewrite Hp2.
    + intros p' Hn. destruct (wake_ready_frame (alg:=alg) p a1 p') as (_ & _ & _ & H). rewrite H; auto.
  - split_and!; try done.
    + unfold buffer_of at 1. by rewrite Hp1.
    + intros _. unfold state_of. by rewrite Hp1, Hp.
Qed.
End push.

(** Sending: while the head of the destination's ring has not reached its last slot,
    [send_message] returns 0 with the message, sender, destination and text, last in the
    destination's mailbox; a destination that waited for a message is READY in a ready
    queue, and no other process changes. *)
Theorem send_appends_message alg u s a p text rest :
  length u = Z.to_nat MAX_MESSAGES_BODY_SIZE → rep s a → caller alg a → registered a p →
  no_nul text → Z.of_nat (length text) < MAX_MESSAGES_BODY_SIZE →
  buffer_ok (buffer_of a p) → mb_head (buffer_of a p) < MAX_MESSAGES_PER_PROCESS →
  ∃ s' a' m, send_message alg u (current a) p (text ++ NUL :: rest) s = Done (Returned 0) s' ∧ rep s' a' ∧
    buffer_ok (buffer_of a' p) ∧ contents (buffer_of a' p) = contents (buffer_of a p) ++ [m] ∧
    source_process m = Some (current a) ∧ destination_process m = Some p ∧
    take (S (length text)) (body m) = text ++ [NUL] ∧
    (awaits_message a p → woken a' p) ∧ (¬ awaits_message a p → state_of a' p = state_of a p) ∧
    ∀ p', p' ≠ p → pcb_at a' p' = pcb_at a p'.
Proof.
  intros Hu Hr Hcl Hreg Hs Hl Hb Hh. pose proof (cl_ok _ _ Hcl) as Hok.
  set (m := new_message (uninitialised:=u) (current a) p text). set (a' := a_push (alg:=alg) m p a).
  assert (H : wp (send_message alg u (current a) p (text ++ NUL :: rest))
    (λ r s', r = Returned 0 ∧ rep s' a' ∧ kernel_ok alg a') s) by by eapply wp_send_message.
  apply wp_done in H as (r & s' & E & -> & Hr' & Hok'). exists s', a', m.
  pose proof (push_facts (alg:=alg) m p a Hreg Hok Hok') as H. cbn zeta in H. fold a' in H.
  destruct H as (Hbuf & _ & Hw & Hnw & Hne & _).
  destruct (pushed_contents m (buffer_of a p) Hb Hh) as [Hb' Hc']. rewrite <- Hbuf in Hb', Hc'.
  split_and!; try done. unfold m, new_message, copied. cbn [body].
  rewrite cons_middle, app_assoc. apply take_app_length'. rewrite length_app. cbn. lia.
Qed.

Lemma send_appends_message_witness :
  let alg := sched_round_robin in let a := demo_running_state alg in
  ∃ s' a' m, send_message alg blank_body (current a) P2 (hello ++ [NUL]) (demo_running alg) = Done (Returned 0) s' ∧
    rep s' a' ∧ contents (buffer_of a' P2) = [m] ∧ take 6 (body m) = hello ++ [NUL].
Proof.
  cbn zeta. pose proof (alg_at 0 sched_round_robin eq_refl) as Hin.
  destruct (demo_caller _ Hin) as [Hr Hcl].
  destruct (send_appends_message sched_round_robin blank_body (demo_running sched_round_robin)
    (demo_running_state sched_round_robin) P2 hello []) as (s' & a' & m & E & Hr' & _ & Hc & _ & _ & Ht & _).
  - reflexivity.
  - exact Hr.
  - apply Hcl. vm_compute. congruence.
  - vm_compute. right. right. left.
  - apply (bool_decide_unpack (no_nul hello)). reflexivity.
  - reflexivity.
  - vm_compute. repeat split; congruence.
  - reflexivity.
  - exists s', a', m. split_and!; [exact E|exact Hr'|exact Hc|exact Ht].
Defined.

(** A process that sends itself a message. *)
Lemma self_mail alg u s a text :
  length u = Z.to_nat MAX_MESSAGES_BODY_SIZE → rep s a → machine_ok alg a → caller alg a → no_nul text →
  Z.of_nat (length text) < MAX_MESSAGES_BODY_SIZE →
  let p := current a in let m := new_message (uninitialised:=u) p p text in
  mb_head (buffer_of a p) < MAX_MESSAGES_PER_PROCESS →
  ∃ s' a', rep s' a' ∧ caller alg a' ∧ machine_ok alg a' ∧ current a' = p ∧
    processes (core a') = processes (core a) ∧ buffer_ok (buffer_of a' p) ∧
    contents (buffer_of a' p) = contents (buffer_of a p) ++ [m] ∧
    mb_tail (buffer_of a' p) = mb_tail (buffer_of a p) ∧ mb_head (buffer_of a' p) = mb_head (buffer_of a p) + 1.
Proof.
  intros Hu Hr Hm Hcl Hs Hl p m Hh. pose proof (cl_ok _ _ Hcl) as Hok.
  assert (Hreg : registered a p) by apply (inv_current _ _ _ (ko_inv _ _ Hok)).
  assert (Hb : buffer_ok (buffer_of a p)) by by apply (mo_buffers _ _ Hm).
  assert (H : wp (send_message alg u (current a) p (text ++ [NUL]))
    (λ r s', let a' := a_push (alg:=alg) m p a in rep s' a' ∧ kernel_ok alg a') s).
  { by eapply (wp_send_message (alg:=alg) (uninitialised:=u)). }
  apply wp_done in H as (r & s' & _ & Hr' & Hok'). exists s', (a_push (alg:=alg) m p a).
  destruct (push_facts (alg:=alg) m p a Hreg Hok Hok') as (Hbuf & _ & _ & Hst & _ & Hc).
  assert (Hrun : state_of a p = PROCESS_RUNNING) by apply Hcl.
  assert (Hnaw : ¬ awaits_message a p) by (unfold awaits_message; by rewrite Hrun).
  destruct (pushed_contents m (buffer_of a p) Hb Hh) as [Hb' Hc']. rewrite <- Hbuf in Hb', Hc'.
  split_and!; try done.
  - split; [done|rewrite Hc; apply Hcl|]. rewrite Hc. fold p. by rewrite (Hst Hnaw).
  - by apply push_machine.
  - unfold a_push. by rewrite decide_False.
  - by rewrite Hbuf.
  - by rewrite Hbuf.
Qed.
(** A sample mailbox: the process on the CPU has sent itself a message. *)
Lemma demo_mail :
  let p := current (demo_running_state sched_round_robin) in
  ∃ s a, rep s a ∧ caller sched_round_robin a ∧ machine_ok sched_round_robin a ∧ current a = p ∧
    processes (core a) = processes (core (demo_running_state sched_round_robin)) ∧
    buffer_ok (buffer_of a p) ∧
    contents (buffer_of a p) = [new_message (uninitialised:=blank_body) p p hello].
Proof.
  cbn zeta. pose proof (alg_at 0 sched_round_robin eq_refl) as Hin.
  destruct (demo_running_ok _ Hin) as [Hr [Hm Hd]]. destruct (demo_caller _ Hin) as [_ Hcl].
  assert (H1 : current (demo_running_state sched_round_robin) ≠ InitProcess) by (vm_compute; congruence).
  destruct (self_mail sched_round_robin blank_body _ _ hello eq_refl Hr Hm (Hcl H1)
    ltac:(apply (bool_decide_unpack (no_nul hello)); reflexivity) eq_refl eq_refl) as (s & a & H).
  exists s, a. destruct H as (? & ? & ? & ? & ? & ? & Hc & _). split_and!; [assumption..|].
  assert (E : contents (buffer_of (demo_running_state sched_round_robin) (current (demo_running_state sched_round_robin))) = [])
    by (vm_compute; reflexivity).
  by rewrite E in Hc.
Qed.

(** Receiving from a mailbox: [pop_message] gives the oldest message, with its sender
    and its text, and leaves the others in order; from an empty mailbox it returns -1 and
    changes nothing. *)
Theorem pop_takes_oldest alg s a p m0 :
  rep s a → kernel_ok alg a → registered a p → buffer_ok (buffer_of a p) →
  match contents (buffer_of a p) with
  | [] => pop_message p m0 s = Done (-1, m0) s
  | m :: ms => ∀ text old, body m = text ++ NUL :: old → no_nul text → (length text < length (body m0))%nat →
      ∃ s' a' m', pop_message p m0 s = Done (0, m') s' ∧ rep s' a' ∧
        source_process m' = source_process m ∧ destination_process m' = destination_process m ∧
        take (S (length text)) (body m') = text ++ [NUL] ∧
        buffer_ok (buffer_of a' p) ∧ contents (buffer_of a' p) = ms ∧
        ∀ p', p' ≠ p → pcb_at a' p' = pcb_at a p'
  end.
Proof.
  intros Hr Hok Hreg Hb. destruct (contents (buffer_of a p)) as [|m ms] eqn:Hc.
  - assert (H : wp (pop_message p m0) (λ r s', r = (-1, m0) ∧ s' = s) s).
    { eapply wp_pop_message; [exact Hr|exact Hok|done|done|]. by rewrite Hc. }
    apply wp_done in H as (r & s' & E & -> & ->). exact E.
  - intros text old Hbody Hs Hl.
    assert (H : wp (pop_message p m0) (λ r s', r = (0, {| source_process := source_process m;
      destination_process := destination_process m; body := text ++ NUL :: drop (S (length text)) (body m0) |}) ∧
      rep s' (a_pop p a)) s).
    { eapply wp_pop_message; [exact Hr|exact Hok|done|done|]. rewrite Hc.
      eexists. split; [rewrite Hbody; by apply strcpy_terminated|]. by intros s' Hr' _. }
    apply wp_done in H as (r & s' & E & -> & Hr'). exists s', (a_pop p a). eexists.
    destruct (registered_pcb _ _ _ (ko_inv _ _ Hok) Hreg) as (pcb & Hp & _).
    assert (Hbp : buffer_of (a_pop p a) p = popped (buffer_of a p)).
    { unfold buffer_of at 1, a_pop. by rewrite (pcb_at_update_eq _ _ _ _ Hp). }
    assert (Hlen : mb_head (buffer_of a p) - mb_tail (buffer_of a p) = Z.of_nat (S (length ms))).
    { by rewrite <- (contents_length _ Hb), Hc. }
    assert (Hm : mb_buffer (buffer_of a p) !! Z.to_nat (mb_tail (buffer_of a p)) = Some m).
    { assert (E0 : contents (buffer_of a p) !! 0%nat = Some m) by by rewrite Hc.
      unfold contents in E0. rewrite lookup_take_lt, lookup_drop in E0 by lia. by rewrite Nat.add_0_r in E0. }
    destruct (popped_contents (buffer_of a p) m Hb Hm) as [Hb' Hc']; [lia|]. rewrite Hc in Hc'.
    injection Hc' as Hms. rewrite Hbp. split_and!; try done.
    + cbn [body]. rewrite cons_middle, app_assoc. apply take_app_length'. rewrite length_app. cbn. lia.
    + intros p' Hne. by apply pcb_at_update_ne.
Qed.

Lemma pop_takes_oldest_witness :
  ∃ s p m' s', pop_message p {| source_process := None; destination_process := None; body := blank_body |} s
    = Done (0, m') s' ∧ take 6 (body m') = hello ++ [NUL].
Proof.
  destruct demo_mail as (s & a & Hr & Hcl & Hm & Hc & _ & Hb & Hcont). set (p := current (demo_running_state sched_round_robin)) in *.
  exists s, p.
  pose proof (pop_takes_oldest sched_round_robin s a p
    {| source_process := None; destination_process := None; body := blank_body |} Hr (cl_ok _ _ Hcl)) as H.
  rewrite Hcont in H. destruct (H ltac:(rewrite <- Hc; apply (ko_inv _ _ (cl_ok _ _ Hcl))) Hb hello
    (drop 6 blank_body) eq_refl) as (s' & a' & m' & E & _ & _ & _ & Ht & _).
  - apply (bool_decide_unpack (no_nul hello)). reflexivity.
  - apply (bool_decide_unpack (length hello < length blank_body)%nat). reflexivity.
  - exists m', s'. split; [exact E|exact Ht].
Defined.


(** A sample full mailbox. *)
Lemma demo_full :
  let p := current (demo_running_state sched_round_robin) in
  ∃ s a, rep s a ∧ caller sched_round_robin a ∧ current a = p ∧ buffer_ok (buffer_of a p) ∧
    mb_head (buffer_of a p) = MAX_MESSAGES_PER_PROCESS ∧ mb_tail (buffer_of a p) = 0.
Proof.
  cbn zeta. pose proof (alg_at 0 sched_round_robin eq_refl) as Hin.
  destruct (demo_running_ok _ Hin) as [Hr [Hm Hd]]. destruct (demo_caller _ Hin) as [_ Hcl].
  specialize (Hcl ltac:(vm_compute; congruence)).
  assert (H : ∀ n s a, Z.of_nat n ≤ MAX_MESSAGES_PER_PROCESS → rep s a → machine_ok sched_round_robin a →
    caller sched_round_robin a → mb_head (buffer_of a (current a)) = MAX_MESSAGES_PER_PROCESS - Z.of_nat n →
    ∃ s' a', rep s' a' ∧ caller sched_round_robin a' ∧ machine_ok sched_round_robin a' ∧ current a' = current a ∧
      mb_head (buffer_of a' (current a)) = MAX_MESSAGES_PER_PROCESS ∧
      mb_tail (buffer_of a' (current a)) = mb_tail (buffer_of a (current a))).
  { clear. induction n as [|n IH]; intros s a Hn Hr Hm Hcl Hh.
    - exists s, a. split_and!; try done.
    - destruct (self_mail sched_round_robin blank_body s a hello eq_refl Hr Hm Hcl
        ltac:(apply (bool_decide_unpack (no_nul hello)); reflexivity) eq_refl ltac:(lia))
        as (s1 & a1 & Hr1 & Hcl1 & Hm1 & Hc1 & _ & _ & _ & Ht1 & Hh1).
      destruct (IH s1 a1) as (s' & a' & H); [lia|done..|rewrite Hc1, Hh1; lia|].
      exists s', a'. by rewrite Hc1, Ht1 in H. }
  destruct (H 4%nat _ _ ltac:(by vm_compute) Hr Hm Hcl ltac:(vm_compute; reflexivity))
    as (s & a & Hr' & Hcl' & Hm' & Hc' & Hh & Ht).
  exists s, a. rewrite <- Hc'. split_and!; [exact Hr'|exact Hcl'|done| |rewrite Hc'; exact Hh|].
  - apply (mo_buffers _ _ Hm'), (inv_current _ _ _ (ko_inv _ _ (cl_ok _ _ Hcl'))).
  - rewrite Hc', Ht. vm_compute. reflexivity.
Qed.


Section table.
Context {alg : SchedAlgorithm}.
Implicit Types (a : astate) (p : pcb_ptr).

(** Everyone registered is in the part of the table that is in use. *)
Lemma registered_slot a p :
  machine_ok alg a → registered a p →
  p ∈ omap id (take (Z.to_nat (n_processes (core a))) (processes (core a))).
Proof.
  intros Hm Hreg. apply list_elem_of_lookup_1 in Hreg as [i Hi].
  pose proof (lookup_lt_Some _ _ _ Hi) as Hlt. rewrite (inv_slots _ _ _ (ko_inv _ _ (mo_ok _ _ Hm))) in Hlt.
  pose proof (mo_dense _ _ Hm i Hlt) as Hd. case_decide as E; [|by rewrite Hi in Hd].
  apply list_elem_of_omap. exists (Some p). split; [|done].
  apply (list_elem_of_lookup_2 _ i). by rewrite lookup_take_lt.
Qed.
Lemma dense_next a :
  machine_ok alg a → n_processes (core a) < N_PROCESSES →
  processes (core a) !! Z.to_nat (n_processes (core a)) = Some None.
Proof.
  intros Hm Hlt. pose proof (mo_count _ _ Hm).
  pose proof (mo_dense _ _ Hm (Z.to_nat (n_processes (core a)))) as Hd.
  rewrite decide_False in Hd by lia. apply Hd. lia.
Qed.
End table.

(** Receiving a message: when one is there, the call only works if every slot of the
    process table is in use: then it returns the text of the oldest message and every
    registered process that was blocked on sending is READY; with a free slot the loop
    that wakes the senders dereferences the NULL in it. *)
Theorem receive_needs_full_table alg u s a m ms text old destination :
  length u = Z.to_nat MAX_MESSAGES_BODY_SIZE → rep s a → machine_ok alg a → caller alg a →
  contents (buffer_of a (current a)) = m :: ms → body m = text ++ NUL :: old → no_nul text →
  Z.of_nat (length text) < MAX_MESSAGES_BODY_SIZE → (length text < length destination)%nat →
  if decide (n_processes (core a) < N_PROCESSES) then
    receive_message alg u (current a) destination s = Undefined
  else ∃ s' a' out, receive_message alg u (current a) destination s = Done (Returned out) s' ∧ rep s' a' ∧
    take (S (length text)) out = text ++ [NUL] ∧
    ∀ p, registered a p → state_of a p = PROCESS_WAITING_TO_SEND_MESSAGE → state_of a' p = PROCESS_READY.
Proof.
  intros Hu Hr Hm Hcl Hc Hbody Hs Hl Hd.
  assert (Hb : buffer_ok (buffer_of a (current a))).
  { apply (mo_buffers _ _ Hm), (inv_current _ _ _ (ko_inv _ _ (cl_ok _ _ Hcl))). }
  pose proof (live_filled _ Hm) as Hf. case_decide as Hn.
  - pose proof (mo_count _ _ Hm). eapply (receive_undefined (alg:=alg) (uninitialised:=u) Hu
      (Z.to_nat (n_processes (core a)))); [exact Hr|done|done|exact Hc|exact Hbody|done|done|done|lia|done|].
    by apply (dense_next (alg:=alg)).
  - set (a1 := a_pop (current a) a). set (a' := a_wake_senders (alg:=alg) (Z.to_nat N_PROCESSES) a1).
    assert (HN : n_processes (core a) = N_PROCESSES) by (pose proof (mo_count _ _ Hm); lia).
    assert (H : wp (receive_message alg u (current a) destination)
      (λ r s', r = Returned (text ++ NUL :: drop (S (length text)) destination) ∧ rep s' a') s).
    { eapply (wp_receive_pop (alg:=alg) (uninitialised:=u) Hu); [exact Hr|done|done|exact Hc|exact Hbody|done|done|done|].
      intros s1 Hr1. apply wp_bind. unfold process_slots.
      replace N_PROCESSES with (Z.of_nat (Z.to_nat N_PROCESSES)) by done.
      eapply (wp_wake_senders (alg:=alg)); [exact Hr1|by apply pop_caller| |].
      - intros i Hi. apply (Hf i). by rewrite HN.
      - intros s2 Hr2 _ _. apply wp_ret. by split. }
    apply wp_done in H as (r & s' & E & -> & Hr'). exists s', a'. eexists. split_and!; [exact E|exact Hr'| |].
    + rewrite cons_middle, app_assoc. apply take_app_length'. rewrite length_app. cbn. lia.
    + intros p Hreg Hst. unfold a', a_wake_senders. rewrite wake_blocked_state by done.
      assert (Hst1 : state_of a1 p = state_of a p).
      { unfold a1, a_pop. rewrite state_of_update. case_decide as E1; [|done]. subst p. unfold state_of.
        by destruct (pcb_at a (current a)). }
      rewrite decide_True; [done|]. rewrite Hst1. split; [|done].
      change (processes (core a1)) with (processes (core a)). rewrite <- HN. by apply (registered_slot (alg:=alg)).
Qed.

Lemma receive_needs_full_table_witness :
  ∃ s p, receive_message sched_round_robin blank_body p (replicate 16 0) s = Undefined.
Proof.
  destruct demo_mail as (s & a & Hr & Hcl & Hm & Hc & Hp & Hb & Hcont). rewrite <- Hc in Hcont.
  pose proof (receive_needs_full_table sched_round_robin blank_body s a _ _ hello (drop 6 blank_body)
    (replicate 16 0) eq_refl Hr Hm Hcl Hcont eq_refl) as H.
  rewrite decide_True in H.
  - exists s, (current a). apply H; [apply (bool_decide_unpack (no_nul hello)); reflexivity|reflexivity|].
    cbn. lia.
  - pose proof (mo_count _ _ Hm). pose proof (mo_dense _ _ Hm 3%nat) as Hd. rewrite Hp in Hd.
    case_decide as E; [destruct Hd as [q Hq]; [by vm_compute; lia|vm_compute in Hq; congruence]|].
    unfold N_PROCESSES. lia.
Defined.

(** ** Waiting, signals by pid *)

(** Waiting: [syscall_wait] returns -1 at once if no process has the pid, 0 at once if
    that process is a zombie, and otherwise records the pid, blocks the caller and gives
    the CPU to another process. *)
Theorem wait_blocks_until_exit alg process_id s a :
  alg_ok alg → rep s a → kernel_ok alg a → 
  match process_of a process_id with
  | None => (∀ p, registered a p → from_option pid (-1) (pcb_at a p) ≠ process_id) ∧
      syscall_wait alg process_id s = Done (Returned (-1)) s
  | Some p => registered a p ∧ from_option pid (-1) (pcb_at a p) = process_id ∧
      if decide (state_of a p = PROCESS_ZOMBIE) then syscall_wait alg process_id s = Done (Returned 0) s
      else ∃ s' a', syscall_wait alg process_id s = Done Blocked s' ∧ rep s' a' ∧ kernel_ok alg a' ∧
        a' = a_schedule alg (a_block_wait process_id a) ∧
        waits_for process_id (a_block_wait process_id a) (current a) = true ∧
        state_of a' (current a') = PROCESS_RUNNING
  end.
Proof.
  intros Hao Hr Hok. pose proof (wp_syscall_wait (alg:=alg) process_id s a Hao Hr Hok) as H.
  apply wp_done in H as (r & s' & E & H). unfold wait_post in H.
  destruct (process_of a process_id) as [p|] eqn:Hp.
  - pose proof Hp as Hp'. apply (process_of_registered _ _ _ _ (ko_inv _ _ Hok)) in Hp' as [Hreg Hpid].
    split; [done|]. split; [done|]. case_decide.
    + destruct H as [-> ->]. exact E.
    + destruct H as [-> (Hr' & Hd & Hrun)]. eexists s', _. split_and!; [exact E|exact Hr'| |done| |done].
      * by apply decidable_kernel_ok.
      * destruct (current_pcb _ Hok) as (x & Hx & _). unfold waits_for, a_block_wait, state_of.
        by rewrite (pcb_at_update_eq _ _ _ _ Hx), !bool_decide_true.
  - destruct H as [-> ->]. split; [|exact E]. intros p Hreg Hpid.
    assert (H : process_of a process_id = Some p).
    { by apply (process_of_registered _ _ _ _ (ko_inv _ _ Hok)). }
    congruence.
Qed.

Lemma wait_blocks_until_exit_witness :
  syscall_wait sched_round_robin 9 (demo_running sched_round_robin) = Done (Returned (-1)) (demo_running sched_round_robin) ∧
  ∃ s', syscall_wait sched_round_robin 2 (demo_running sched_round_robin) = Done Blocked s'.
Proof.
  pose proof (alg_at 0 sched_round_robin eq_refl) as Hin.
  pose proof (demo_running_ok _ Hin) as [Hr [Hm _]]. split.
  - pose proof (wait_blocks_until_exit sched_round_robin 9 _ _ (alg_ok_all _ Hin) Hr (mo_ok _ _ Hm)) as H.
    assert (E : process_of (demo_running_state sched_round_robin) 9 = None) by (vm_compute; reflexivity).
    rewrite E in H. apply H.
  - pose proof (wait_blocks_until_exit sched_round_robin 2 _ _ (alg_ok_all _ Hin) Hr (mo_ok _ _ Hm)) as H.
    assert (E : process_of (demo_running_state sched_round_robin) 2 = Some P2) by (vm_compute; reflexivity).
    rewrite E in H. destruct H as (_ & _ & H). rewrite decide_False in H by (vm_compute; congruence).
    destruct H as (s' & a' & H & _). exists s'. exact H.
Defined.

Lemma has_signal_testbit s k : 0 ≤ k → has_signal s k = Z.testbit s k.
Proof.
  intros Hk. unfold has_signal, signal_bit. rewrite Z.shiftl_1_l.
  destruct (Z.testbit s k) eqn:E.
  - apply negb_true_iff, Z.eqb_neq. intros H.
    assert (Z.testbit (Z.land s (2 ^ k)) k = false) as H1 by (rewrite H; apply Z.bits_0).
    rewrite Z.land_spec, E, Z.pow2_bits_true in H1 by done. done.
  - apply negb_false_iff, Z.eqb_eq, Z.bits_inj'. intros n Hn. rewrite Z.land_spec, Z.bits_0.
    destruct (decide (k = n)) as [->|Hne]; [by rewrite E|]. rewrite Z.pow2_bits_false by done. apply andb_false_r.
Qed.
Lemma has_signal_set s k n :
  0 ≤ k → 0 ≤ n → has_signal (Z.lor s (signal_bit k)) n = (n =? k) || has_signal s n.
Proof.
  intros Hk Hn. rewrite !has_signal_testbit by done. unfold signal_bit. rewrite Z.shiftl_1_l, Z.lor_spec.
  destruct (Z.eqb_spec n k) as [->|]; [rewrite Z.pow2_bits_true by done; apply orb_true_r|].
  rewrite Z.pow2_bits_false by done. apply orb_false_r.
Qed.

(** A signal sent by pid: the call returns -1 and changes nothing if no process has the
    pid, and otherwise adds the signal to the pending ones of the process that has it and
    changes nothing else of it and no other process. *)
Theorem signal_reaches_pid alg process_id signal s a :
  rep s a → kernel_ok alg a → 0 ≤ signal < 31 →
  match process_of a process_id with
  | None => syscall_send_signal process_id signal s = Done (-1) s
  | Some p => ∃ s' a' x v, syscall_send_signal process_id signal s = Done 0 s' ∧ rep s' a' ∧ kernel_ok alg a' ∧
      pcb_at a p = Some x ∧ pid x = process_id ∧ pcb_at a' p = Some (set_pending_signals v x) ∧
      (∀ n, 0 ≤ n < 31 → has_signal v n = (n =? signal) || has_signal (pending_signals x) n) ∧
      ∀ p', p' ≠ p → pcb_at a' p' = pcb_at a p'
  end.
Proof.
  intros Hr Hok Hs.
  assert (H : wp (syscall_send_signal process_id signal) (λ r s',
    match process_of a process_id with None => r = -1 ∧ s' = s
    | Some p => r = 0 ∧ rep s' (a_signalled signal p a) ∧ kernel_ok alg (a_signalled signal p a) end) s).
  { eapply wp_syscall_send_signal; [exact Hr|done|]. by destruct (process_of a process_id). }
  apply wp_done in H as (r & s' & E & H). destruct (process_of a process_id) as [p|] eqn:Hp.
  - destruct H as (-> & Hr' & Hok').
    apply (process_of_registered _ _ _ _ (ko_inv _ _ Hok)) in Hp as [Hreg Hpid].
    destruct (registered_pcb _ _ _ (ko_inv _ _ Hok) Hreg) as (x & Hx & _).
    exists s', (a_signalled signal p a), x, (Z.lor (pending_signals x) (signal_bit signal)). split_and!; try done.
    + by rewrite Hx in Hpid.
    + unfold a_signalled. by rewrite (pcb_at_update_eq _ _ _ _ Hx).
    + intros n Hn. apply has_signal_set; lia.
    + intros p' Hne. by apply pcb_at_update_ne.
  - by destruct H as [-> ->].
Qed.

Lemma signal_reaches_pid_witness :
  syscall_send_signal 9 SIGNAL_STOP (demo_running sched_round_robin) = Done (-1) (demo_running sched_round_robin) ∧
  ∃ s' a' x v, syscall_send_signal 2 SIGNAL_STOP (demo_running sched_round_robin) = Done 0 s' ∧ rep s' a' ∧
    pcb_at a' P2 = Some (set_pending_signals v x) ∧ has_signal v SIGNAL_STOP = true.
Proof.
  pose proof (alg_at 0 sched_round_robin eq_refl) as Hin.
  pose proof (demo_running_ok _ Hin) as [Hr [Hm _]]. split.
  - pose proof (signal_reaches_pid sched_round_robin 9 SIGNAL_STOP _ _ Hr (mo_ok _ _ Hm) ltac:(by vm_compute)) as H.
    assert (E : process_of (demo_running_state sched_round_robin) 9 = None) by (vm_compute; reflexivity).
    rewrite E in H. exact H.
  - assert (Hs : 0 ≤ SIGNAL_STOP < 31) by by vm_compute.
    pose proof (signal_reaches_pid sched_round_robin 2 SIGNAL_STOP _ _ Hr (mo_ok _ _ Hm) Hs) as H.
    assert (E : process_of (demo_running_state sched_round_robin) 2 = Some P2) by (vm_compute; reflexivity).
    rewrite E in H. destruct H as (s' & a' & x & v & H & Hr' & _ & _ & _ & Hx & Hv & _).
    exists s', a', x, v. split_and!; [exact H|exact Hr'|exact Hx|]. exact (Hv SIGNAL_STOP Hs).
Defined.

(** ** Creating processes *)

(** C35: Fork: creating a kernel thread always returns, and any call of [copy_process] that
    returns either gives -1, with no page free or the process table full, or the next pid,
    that of a registered READY child, in a ready queue, with a fresh slice of 10, no
    charged burst and the priority, tickets, queue level and burst estimate of its
    parent; the invariant of the kernel holds in both cases. *)
Theorem fork_registers_child alg ia rf clone_flags function argument s a :
  alg_ok alg → rep s a → machine_ok alg a →
  (Z.land clone_flags PF_KTHREAD ≠ 0 → ∃ r s', copy_process alg ia rf clone_flags function argument s = Done r s') ∧
  ∀ r s', copy_process alg ia rf clone_flags function argument s = Done r s' →
    ∃ a', rep s' a' ∧ machine_ok alg a' ∧ current a' = current a ∧
      ((r = -1 ∧ (free_index (mem (core a)) = None ∨ N_PROCESSES ≤ n_processes (core a))) ∨
       forked (a_preempt 1 a) a' r).
Proof.
  intros Hao Hr Hm. pose proof (tlp_copy_process (alg:=alg) (init_process_address:=ia) (ret_from_fork:=rf)
    clone_flags function argument s a Hao Hr Hm) as H. split.
  - intros Hk%Z.eqb_neq. rewrite Hk in H. apply wp_done in H as (r & s' & E & _). by exists r, s'.
  - intros r s' E. apply tlp_wlp in H. unfold wlp in H. rewrite E in H.
    destruct H as (a' & ? & ? & ? & _ & ?). by exists a'.
Qed.

Lemma fork_registers_child_witness :
  let alg := sched_round_robin in
  ∃ r s' a', copy_process alg 0 0 PF_KTHREAD 5 6 (demo_running alg) = Done r s' ∧
    rep s' a' ∧ forked (a_preempt 1 (demo_running_state alg)) a' r.
Proof.
  cbn zeta. pose proof (alg_at 0 sched_round_robin eq_refl) as Hin.
  pose proof (demo_running_ok _ Hin) as [Hr [Hm _]].
  destruct (fork_registers_child sched_round_robin 0 0 PF_KTHREAD 5 6 _ _ (alg_ok_all _ Hin) Hr Hm) as [Ht H].
  destruct Ht as (r & s' & E); [by vm_compute|]. exists r, s'.
  destruct (H r s' E) as (a' & Hr' & _ & _ & [[_ Hbad]|Hf]).
  - exfalso. revert Hbad. vm_compute. intros [Hbad|Hbad]; congruence.
  - exists a'. split_and!; [exact E|exact Hr'|exact Hf].
Defined.

(** ** Memory *)

(** The page allocator: [get_free_page] returns 0 and changes nothing exactly when every
    page is in use; otherwise it marks the lowest free page and no other, returns its
    address and zeroes its words and no others. *)
Theorem get_free_page_lowest s :
  ∃ page s', get_free_page s = Done page s' ∧
    ((page = 0 ∧ s' = s ∧ ∀ i, 0 ≤ i < N_PAGES → i ∈ memory_pages (mem s)) ∨
     ∃ i, page = page_address i ∧ 0 ≤ i < N_PAGES ∧ i ∉ memory_pages (mem s) ∧
       (∀ k, 0 ≤ k < i → k ∈ memory_pages (mem s)) ∧
       memory_pages (mem s') = memory_pages (mem s) ∪ {[i]} ∧
       ∀ x, word_at (words (mem s')) x =
         if decide ((x - (page + VA_START)) mod 8 = 0 ∧ 0 ≤ x - (page + VA_START) < PAGE_SIZE) then 0
         else word_at (words (mem s)) x).
Proof.
  assert (H : wp get_free_page (λ r s', match free_index (mem s) with
    | Some i => r = page_address i ∧ s' = set_mem (with_page i (mem s)) s
    | None => r = 0 ∧ s' = s end) s).
  { apply wp_get_free_page. by destruct (free_index (mem s)). }
  apply wp_done in H as (page & s' & E & H). exists page, s'. split; [done|].
  destruct (free_index (mem s)) as [i|] eqn:Hf; destruct H as [-> ->].
  - right. exists i. destruct (free_index_range _ _ Hf) as [Hi Hn]. split_and!; try done; [lia|lia| |].
    + unfold free_index in Hf. apply find_free_Some in Hf as (_ & _ & Hk). exact Hk.
    + intros x. change (words (mem (set_mem (with_page i (mem s)) s))) with
        (zero_words page_words (page_address i + VA_START) (words (mem s))). by rewrite zero_words_spec.
  - left. split_and!; try done. intros i Hi. eapply (find_free_None _ 0); [exact Hf|].
    rewrite Z2Nat.id; [lia|by vm_compute].
Qed.

(** Giving a page back: freeing the kernel address of the page [get_free_page] has just
    returned succeeds, restores the set of pages in use, so that the next allocation
    returns the same page, and a misaligned address is refused with -1. *)
Theorem free_undoes_alloc s page s1 x :
  get_free_page s = Done page s1 → page ≠ 0 →
  (∃ s2 s3, free_page (page + VA_START) s1 = Done 0 s2 ∧ memory_pages (mem s2) = memory_pages (mem s) ∧
     get_free_page s2 = Done page s3) ∧
  (x mod PAGE_SIZE ≠ 0 → free_page x s1 = Done (-1) s1).
Proof.
  intros E Hne. split.
  2:{ intros Hx%Z.eqb_neq. unfold free_page. by rewrite Hx. }
  assert (H : wp get_free_page (λ r s', match free_index (mem s) with
    | Some i => r = page_address i ∧ s' = set_mem (with_page i (mem s)) s
    | None => r = 0 ∧ s' = s end) s).
  { apply wp_get_free_page. by destruct (free_index (mem s)). }
  unfold wp in H. rewrite E in H. destruct (free_index (mem s)) as [i|] eqn:Hf; [|by destruct H].
  destruct H as [-> ->]. destruct (free_index_range _ _ Hf) as [Hi Hn].
  assert (H : wp (free_page (page_address i + VA_START)) (λ r s2, r = 0 ∧
    memory_pages (mem s2) = (memory_pages (mem s) ∪ {[i]}) ∖ {[i]}) (set_mem (with_page i (mem s)) s)).
  { by apply wp_free_page. }
  apply wp_done in H as (r & s2 & E2 & -> & Hp2).
  assert (Hp : memory_pages (mem s2) = memory_pages (mem s)) by (rewrite Hp2; set_solver).
  assert (H : wp get_free_page (λ r _, r = page_address i) s2).
  { apply wp_get_free_page. unfold free_index in Hf |- *. rewrite Hp, Hf. done. }
  apply wp_done in H as (r & s3 & E3 & ->). by exists s2, s3.
Qed.

Lemma free_undoes_alloc_witness :
  ∃ s1 s2, get_free_page demo_boot = Done LOW_MEMORY s1 ∧ free_page (LOW_MEMORY + VA_START) s1 = Done 0 s2.
Proof.
  pose proof (wp_get_free_page (λ r s', r = LOW_MEMORY) demo_boot) as H.
  apply wp_done in H as (page & s1 & E & ->); [|reflexivity].
  destruct (free_undoes_alloc demo_boot LOW_MEMORY s1 0 E) as [(s2 & s3 & E2 & _) _]; [by vm_compute|].
  exists s1, s2. split; [exact E|exact E2].
Defined.

(** A data abort is never recovered: whatever the fault, [do_mem_abort] returns -1,
    maps no page and counts nothing. *)
Theorem data_abort_not_recovered index address esr s :
  do_mem_abort index address esr s = Done (-1, index) s.
Proof. apply do_mem_abort_fails. Qed.

(** ** The console *)

(** The receive ring: a byte is stored last, behind the bytes no call has read yet,
    unless 63 are waiting already: then it is dropped; the ring stays well formed, no
    other byte is lost or reordered, and the array is never written out of bounds. *)
Theorem uart_store_fifo c s :
  uart_ok s → ∃ s', uart_store c s = Done tt s' ∧ uart_ok s' ∧
    uart_pending s' = (if uart_count s <? 63 then uart_pending s ++ [c] else uart_pending s) ∧
    Z.of_nat (length (uart_pending s')) ≤ 63 ∧ heap s' = heap s.
Proof.
  intros Hu. assert (H : wp (uart_store c) (λ _ s', s' = stored c s) s).
  { unfold uart_store, stored. destruct Hu as [Hl Hh Ht]. apply wp_bind, wp_gets, wp_bind, wp_gets.
    rewrite Z.rem_mod_nonneg by (done || lia). apply wp_when.
    destruct (_ =? uart_tail s); cbn [negb]; [done|].
    apply wp_bind, wp_gets, wp_bind, wp_defined. eexists.
    split; [apply arr_set_in; unfold UART_BUFFER_SIZE in *; lia|]. done. }
  apply wp_done in H as ([] & s' & E & ->). exists (stored c s).
  destruct (stored_pending c s Hu) as [Hu' Hp]. split_and!; [done..| |].
  - pose proof (uart_pending_length (stored c s)) as H. pose proof (uart_count_range (stored c s)) as Hr.
    unfold UART_BUFFER_SIZE in *. lia.
  - unfold stored. by destruct (_ =? _).
Qed.

Lemma uart_store_fifo_witness :
  ∃ s', uart_store 65 demo_boot = Done tt s' ∧ uart_pending s' = [65].
Proof.
  destruct (uart_store_fifo 65 demo_boot) as (s' & E & _ & Hp & _).
  - split; vm_compute; try reflexivity; split; congruence.
  - exists s'. split; [exact E|]. rewrite Hp. vm_compute. reflexivity.
Defined.

(** The receive interrupt: a byte received without error goes to the ring and wakes
    everyone who waits for input: every registered process blocked on the console is
    READY, and no other process changes its state. *)
Theorem uart_byte_wakes_readers alg dr s a :
  rep s a → live alg a → Z.land (Z.shiftr dr 8) 15 = 0 →
  ∃ s' a', handle_uart_irq alg 16 [dr] [] s = Done tt s' ∧ rep s' a' ∧ current a' = current a ∧
    uart_pending (core a') = (if uart_count (core a) <? 63 then uart_pending (core a) ++ [Z.land dr 255]
                              else uart_pending (core a)) ∧
    ∀ p, registered a p →
      (state_of a p = PROCESS_WAITING_UART_INPUT → state_of a' p = PROCESS_READY) ∧
      (state_of a p ≠ PROCESS_WAITING_UART_INPUT → state_of a' p = state_of a p).
Proof.
  intros Hr Hl Hdr. set (a' := a_handle_uart_irq (alg:=alg) 16 [dr] [] a).
  assert (H : wp (handle_uart_irq alg 16 [dr] []) (λ _ s', rep s' a' ∧ current a' = current a) s).
  { eapply wp_handle_uart_irq; [exact Hr|by apply live_irq|]. intros s' a1 Hr' _ Hc _. by split. }
  assert (Ha : a' = a_wake_blocked (alg:=alg) PROCESS_WAITING_UART_INPUT (Z.to_nat (n_processes (core a)))
    (a_core (stored (Z.land dr 255)) a)).
  { unfold a', a_handle_uart_irq. change (Z.testbit 16 4) with true. change (Z.testbit 16 6) with false.
    cbn [foldl]. unfold a_receive_data. by rewrite Hdr. }
  apply wp_done in H as ([] & s' & E & Hr' & Hc). exists s', a'. split_and!; [done..| |]; rewrite Ha.
  - destruct (wake_blocked_frame (alg:=alg) PROCESS_WAITING_UART_INPUT
      (Z.to_nat (n_processes (core a))) (a_core (stored (Z.land dr 255)) a)) as (_ & _ & -> & _).
    by apply stored_pending, (mo_uart _ _ (proj1 Hl)).
  - intros p Hreg. rewrite wake_blocked_state by done.
    pose proof (stored_console (Z.land dr 255)) as Hg.
    rewrite (console_state _ _ p Hg), (console_processes _ _ Hg). split; intros Hst.
    + rewrite decide_True; [done|]. split; [|done]. apply (registered_slot (alg:=alg)); [apply Hl|done].
    + rewrite decide_False; [done|]. by intros [_ ?].
Qed.

Lemma uart_byte_wakes_readers_witness :
  ∃ s' a', handle_uart_irq sched_round_robin 16 [65] [] (demo_running sched_round_robin) = Done tt s' ∧
    rep s' a' ∧ uart_pending (core a') = [65].
Proof.
  pose proof (alg_at 0 sched_round_robin eq_refl) as Hin.
  pose proof (demo_running_ok _ Hin) as [Hr Hl].
  destruct (uart_byte_wakes_readers sched_round_robin 65 _ _ Hr Hl eq_refl) as (s' & a' & E & Hr' & _ & Hp & _).
  exists s', a'. split; [exact E|]. split; [exact Hr'|]. rewrite Hp. vm_compute. reflexivity.
Defined.

Lemma advanced_drop n k :
  uart_ok k → (n ≤ length (uart_pending k))%nat →
  uart_pending (advanced (Z.of_nat n) k) = drop n (uart_pending k).
Proof.
  revert k. induction n as [|n IH]; intros k Hu Hn.
  - unfold advanced. rewrite Z.add_0_r, Z.mod_small by apply Hu. by destruct k.
  - destruct (decide (uart_head k = uart_tail k)) as [E|E].
    { rewrite (no_pending k E) in Hn. cbn in Hn. lia. }
    destruct (advanced_pending k Hu E) as [Hu1 (c & _ & Hp)]. rewrite Hp in Hn |- *. cbn [drop].
    rewrite <- IH; [|done|cbn in Hn; lia]. f_equal.
    assert (Ht : (uart_tail (advanced 1 k) + Z.of_nat n) mod UART_BUFFER_SIZE =
      (uart_tail k + Z.of_nat (S n)) mod UART_BUFFER_SIZE).
    { cbn [advanced set_uart_tail uart_tail]. rewrite Zplus_mod_idemp_l. f_equal. lia. }
    unfold advanced at 1 2. by rewrite Ht.
Qed.
Lemma edit_line_length max_len line input :
  Z.of_nat (length line) ≤ max_len → Z.of_nat (length (edit max_len line input).1.1) ≤ max_len.
Proof.
  revert line. induction input as [|c input IH]; intros line Hl; cbn [edit]; [done|].
  case_match; [done|]. pose proof (edit_char_length max_len line c Hl) as H1.
  destruct (edit_char max_len line c) as [l1 x]. specialize (IH l1 H1).
  by destruct (edit max_len l1 input) as [[l2 e2] r2].
Qed.

Lemma edit_rest max_len line input :
  drop (length input - length (default [] (edit max_len line input).2)) input = default [] (edit max_len line input).2.
Proof.
  revert line. induction input as [|c input IH]; intros line; cbn [edit]; [done|].
  destruct ((c =? CR) || (c =? LF)).
  - cbn [snd from_option id length]. rewrite Nat.sub_succ_l, Nat.sub_diag by done. done.
  - destruct (edit_char max_len line c) as [l1 x]. specialize (IH l1).
    destruct (edit max_len l1 input) as [[l2 e2] r2] eqn:E. cbn [snd] in *. cbn [length].
    assert (Hl : (length (default [] r2) ≤ length input)%nat).
    { destruct r2; cbn; [|lia]. apply edit_rest_length in E. lia. }
    by rewrite Nat.sub_succ_l.
Qed.


(** More bytes arrive on the console. *)
Lemma stored_caller alg c s a :
  rep s a → caller alg a → uart_ok (core a) →
  let a' := a_core (stored c) a in rep (stored c s) a' ∧ caller alg a' ∧ uart_ok (core a').
Proof.
  intros Hr [Hok Hne Hrun] Hu a'. split_and!.
  - apply (wp_modify_core (stored c) (λ _ s', rep s' a') s a Hr); [| | | |by intros s' Hs'];
      unfold stored; cbn [erase uart_head uart_tail]; by destruct (_ =? uart_tail s).
  - pose proof (stored_console c) as Hg. pose proof (console_current _ a Hg) as Hc. fold a' in Hc.
    split; [by apply console_kernel_ok|by rewrite Hc|]. rewrite Hc. unfold a'. by rewrite (console_state _ _ _ Hg).
  - by apply stored_pending.
Qed.


(** ** Strings *)

(** Copying a string: with room for the string and its terminator [strcpy] writes
    exactly these bytes and leaves the rest of the destination; without that room it
    writes past the end of the destination; [strlen] gives the number of bytes before the
    terminator, and [strcmp] over at most the length of two buffers tells whether they
    start with the same bytes. *)
Theorem string_bounds dest s rest s1 s2 n :
  no_nul s → (Z.to_nat n ≤ length s1)%nat → (Z.to_nat n ≤ length s2)%nat →
  strlen (s ++ NUL :: rest) = Some (Z.of_nat (length s)) ∧
  strcpy dest (s ++ NUL :: rest) =
    (if decide (length s < length dest)%nat then Some (s ++ NUL :: drop (S (length s)) dest) else None) ∧
  strcmp s1 s2 n = Some (if decide (take (Z.to_nat n) s1 = take (Z.to_nat n) s2) then 0 else 1).
Proof.
  intros Hs H1 H2. split_and!; [by apply strlen_terminated| |by apply strcmp_spec].
  case_decide; [by apply strcpy_terminated|apply strcpy_overflow; [done|lia]].
Qed.

Lemma string_bounds_witness :
  strcpy [1; 2; 3; 4] ([7; 8] ++ [NUL]) = Some [7; 8; NUL; 4] ∧ strcpy [1; 2] ([7; 8] ++ [NUL]) = None.
Proof.
  assert (Hs : no_nul [7; 8]) by (apply (bool_decide_unpack (no_nul [7; 8])); reflexivity).
  split.
  - apply (string_bounds [1; 2; 3; 4] [7; 8] [] [] [] 0 Hs); apply Nat.le_refl.
  - apply (string_bounds [1; 2] [7; 8] [] [] [] 0 Hs); apply Nat.le_refl.
Defined.
