(* ===== verification/PropFat.v ===== *)
(** * Properties of the FAT32 file system

    The sector buffer, the allocation table, the chains of clusters, and the encodings of
    names and times. *)
From S2P Require Import Prelude.
From S2P Require Import CString.
From S2P Require Import FatNames.
From S2P Require Import FatTable.
From S2P Require Import FatCache.
From S2P Require Import FatChain.
From S2P Require Import FatDemo.
Local Open Scope Z_scope.
Local Open Scope fat_scope.

(** ** The sector buffer *)

(** C34: The sector buffer is transparent: whatever sector is asked for, [update_buf]
    leaves the contents of the volume, as seen through the buffer, as they were, also
    when a modified sector must be written back first; it makes the sector the current
    one with its contents, or fails with an I/O error if the device does not serve it. *)
Theorem buffer_is_transparent v s :
  cache_ok v → 0 < s →
  ∃ r v', update_buf s v = Done r v' ∧ cache_ok v' ∧ (∀ s', 0 < s' → store v' s' = store v s') ∧
    match store v s with
    | Some b => r = Ok tt ∧ sect (fat v') = s ∧ buf (fat v') = b
    | None => r = Err FAT_ERR_IO
    end.
Proof.
  intros Hv Hs. assert (H : wp (update_buf s) (λ r v', transparent v v' ∧
    match store v s with
    | Some b => r = Ok tt ∧ sect (fat v') = s ∧ buf (fat v') = b
    | None => r = Err FAT_ERR_IO end) v).
  { apply wp_update_buf; [done..|]. intros v' Htr. by destruct (store v s). }
  apply wp_done in H as (r & v' & E & [H1 H2 _] & H). by exists r, v'.
Qed.

Lemma buffer_is_transparent_witness :
  ∃ r v', update_buf 2 sample_volume = Done r v' ∧ buf (fat v') = sample_table.
Proof.
  destruct (buffer_is_transparent sample_volume 2 sample_cache ltac:(done)) as (r & v' & E & _ & _ & H).
  exists r, v'. split; [exact E|]. destruct H as (_ & _ & H). exact H.
Defined.

(** Synchronizing: [sync_fs] succeeds and afterwards every sector is on the device as
    the buffer showed it before; if the counters had changed, the FsInfo sector holds the
    number of free clusters and the last used one, and its other bytes are as they were. *)
Theorem sync_fs_persists v :
  fat_ok v →
  ∃ v', sync_fs v = Done (Ok tt) v' ∧ fat_ok v' ∧ dirty v' = false ∧
    (∀ s, 0 < s → s ≠ info_sect (fat v) → disk v' !! s = store v s) ∧
    (has_flag (flags (fat v)) FAT_INFO_DIRTY = true → ∀ b, store v (info_sect (fat v)) = Some b →
      ∃ b', disk v' !! info_sect (fat v) = Some b' ∧
        get_le 4 FSINFO_FREE_CNT b' = free_cnt (fat v) mod 2 ^ 32 ∧
        get_le 4 FSINFO_NEXT_FREE b' = last_used (fat v) mod 2 ^ 32 ∧
        ∀ j, (j < 488 ∨ 496 ≤ j)%nat → b' !! j = b !! j).
Proof.
  intros Hok. assert (H : wp sync_fs (λ r v', r = Ok tt ∧ synced v v' ∧
    (has_flag (flags (fat v)) FAT_INFO_DIRTY = true → ∀ b, store v (info_sect (fat v)) = Some b →
       store v' (info_sect (fat v)) = Some (info_written (fat v) b))) v) by by apply wp_sync_fs.
  apply wp_done in H as (r & v' & E & -> & [S1 _ _ _ [S5 _] S6] & Hi). exists v'.
  pose proof (fo_cache _ S1) as Hc. pose proof (ge_info _ (fo_geometry _ Hok)) as [Hinfo _].
  split_and!; [done..| |].
  - intros s Hs Hne. rewrite clean_store by done. by apply S6.
  - intros Hd b Hb. exists (info_written (fat v) b). split; [rewrite clean_store by (done || lia); by apply Hi|].
    pose proof (store_length _ _ _ (fo_cache _ Hok) Hb) as Hl. unfold info_written.
    unfold FSINFO_FREE_CNT, FSINFO_NEXT_FREE.
    assert (Hl1 : length (set_le 4 492 (last_used (fat v)) b) = 512%nat).
    { unfold set_le. rewrite set_bytes_length; [done|]. rewrite le_bytes_length. lia. }
    split_and!.
    + rewrite get_set_le by lia. done.
    + rewrite get_set_le_other by lia. by rewrite get_set_le by lia.
    + intros j Hj. unfold set_le. rewrite !set_bytes_lookup; [done|..];
        rewrite ?set_bytes_length; rewrite ?le_bytes_length; lia.
Qed.

Lemma sync_fs_persists_witness :
  ∃ v', sync_fs sample_volume = Done (Ok tt) v' ∧ disk v' !! 2 = Some sample_table.
Proof.
  destruct (sync_fs_persists sample_volume sample_ok) as (v' & E & _ & _ & H & _).
  exists v'. split; [exact E|]. transitivity (store sample_volume 2); [|vm_compute; reflexivity].
  apply H; by vm_compute.
Defined.

(** ** The allocation table *)

(** Entries: writing the entry of a cluster always succeeds, changes the 28 bits of that
    entry and nothing else: the reserved high bits and every other entry are kept, in
    both copies of the table, and reading an entry back gives its value with its kind, or
    reports a broken volume for a value that is none. *)
Theorem put_fat_get_fat v c val c' :
  fat_ok v → in_table (fat v) c → in_table (fat v) c' →
  let x := if decide (c' = c) then Z.land val 0x0fffffff else fat_entry v c' in
  ∃ v1 v2, put_fat c val v = Done (Ok tt) v1 ∧ fat_ok v1 ∧
    get_fat c' v1 = Done (match classify (fat v) x with Some kind => Ok (x, kind) | None => Err FAT_ERR_BROKEN end) v2 ∧
    fat_ok v2 ∧ fat_entry v2 c' = x ∧
    Z.land (entry_word v2 c') 0xf0000000 = Z.land (entry_word v c') 0xf0000000 ∧
    (fat_sect1 (fat v) ≠ 0 → mirror_word v1 c' = if decide (c' = c) then new_word (mirror_word v c) val else mirror_word v c').
Proof.
  intros Hok Hc Hc' x.
  assert (H : wp (put_fat c val) (λ r v', r = Ok tt ∧ put_post c val v v') v) by by apply wp_put_fat.
  apply wp_done in H as (r & v1 & E1 & -> & [P1 P2 P3 P4 P5]). exists v1.
  pose proof (rest_geometry _ _ P2) as Hg. pose proof (in_table_geometry _ _ c' Hg) as Hin.
  assert (Hx : fat_entry v1 c' = x).
  { unfold fat_entry, x. rewrite P3 by done. case_decide; [subst; apply new_word_low|done]. }
  assert (H : wp (get_fat c') (λ r v', r = (match classify (fat v) x with Some kind => Ok (x, kind) | None => Err FAT_ERR_BROKEN end)
    ∧ transparent v1 v') v1).
  { apply wp_get_fat; [done|by apply Hin|]. intros v2 Htr _. rewrite Hx.
    by rewrite (classify_geometry _ _ _ Hg). }
  apply wp_done in H as (r & v2 & E2 & -> & Htr). exists v2.
  assert (Hw : entry_word v2 c' = entry_word v1 c') by (apply transparent_entry; [done..|by apply Hin]).
  split_and!; try done.
  - by eapply transparent_fat_ok.
  - unfold fat_entry. by rewrite Hw.
  - rewrite Hw, P3 by done. case_decide; [subst; apply new_word_high|done].
  - intros Hs. by apply P4.
Qed.

Lemma put_fat_get_fat_witness :
  ∃ v1 v2, put_fat 6 9 sample_volume = Done (Ok tt) v1 ∧ get_fat 6 v1 = Done (Ok (9, CLUST_USED)) v2.
Proof.
  destruct (put_fat_get_fat sample_volume 6 9 6 sample_ok) as (v1 & v2 & E1 & _ & E2 & _).
  - by vm_compute.
  - by vm_compute.
  - exists v1, v2. split; [exact E1|exact E2].
Defined.

(** Chains: a chain of clusters is determined by its first cluster, visits none twice
    and has fewer clusters than the volume, so the walk along it ends. *)
Theorem chain_is_path v c l l' :
  chain v c l → chain v c l' → l = l' ∧ NoDup l ∧ (length l < Z.to_nat (clust_cnt (fat v)))%nat ∧
    Forall (cluster (fat v)) l.
Proof.
  intros H H'. split_and!; [by eapply chain_functional|by eapply chain_nodup|by eapply chain_short|by eapply chain_clusters].
Qed.

Lemma chain_is_path_witness : [3; 4; 6] = [3; 4; 6] ∧ NoDup [3; 4; 6].
Proof.
  destruct (chain_is_path sample_volume 3 [3; 4; 6] [3; 4; 6] sample_chain sample_chain) as (H1 & H2 & _).
  split; [exact H1|exact H2].
Defined.

(** Removing a chain: [remove_chain] ends, frees exactly the clusters of the chain,
    counts them as free, writes everything to the device, and every other chain that
    shares no cluster with it is still a chain. *)
Theorem remove_chain_frees v c l :
  fat_ok v → chain v c l → 0 ≤ free_cnt (fat v) < 2 ^ 32 →
  ∃ v', remove_chain c v = Done (Ok tt) v' ∧ fat_ok v' ∧ dirty v' = false ∧
    (∀ d, in_table (fat v) d → fat_entry v' d = if decide (d ∈ l) then 0 else fat_entry v d) ∧
    free_cnt (fat v') = u32 (free_cnt (fat v) + Z.of_nat (length l)) ∧
    ∀ c2 l2, chain v c2 l2 → (∀ d, d ∈ l2 → d ∉ l) → chain v' c2 l2.
Proof.
  intros Hok Hch Hcnt.
  assert (H : wp (remove_chain c) (λ r v', r = Ok tt ∧ removed l v v') v) by by eapply wp_remove_chain.
  apply wp_done in H as (r & v' & E & -> & [[R1 R2 R3] R4 R5 [R6 _]]). exists v'. split_and!; try done.
  intros c2 l2 Hc2 Hdis. apply (chain_frame v); [done| |done].
  apply Forall_forall. intros d Hd. rewrite R3.
  - unfold freed. rewrite decide_False; [done|]. by apply Hdis.
  - apply cluster_in_table. pose proof (chain_clusters _ _ _ Hc2) as H. rewrite Forall_forall in H. by apply H.
Qed.

Lemma remove_chain_frees_witness :
  ∃ v', remove_chain 3 sample_volume = Done (Ok tt) v' ∧ fat_entry v' 4 = 0 ∧ free_cnt (fat v') = 125.
Proof.
  assert (Hin : in_table (fat sample_volume) 4) by by vm_compute.
  destruct (remove_chain_frees sample_volume 3 [3; 4; 6] sample_ok sample_chain) as (v' & E & _ & _ & H & Hf & _).
  - by vm_compute.
  - exists v'. split; [exact E|]. split.
    + transitivity (if decide (4 ∈ [3; 4; 6]) then 0 else fat_entry sample_volume 4); [exact (H 4 Hin)|].
      vm_compute. reflexivity.
    + rewrite Hf. vm_compute. reflexivity.
Defined.

(** C33: Growing a file: with a table of valid entries and a valid last used cluster
    [stretch_chain] ends.  Either it gives a cluster that was free, now the last of the
    chain, with the clusters of the chain in their order before it and every chain that
    does not go through the old last cluster as it was, or it reports a full volume: then
    every cluster but the last used one is taken, and no entry has changed. *)
Theorem stretch_chain_appends v c0 l clust :
  fat_ok v → table_ok (fat v) (fat_entry v) → cluster (fat v) (last_used (fat v)) →
  chain v c0 l → list.last l = Some clust →
  ∃ r v', stretch_chain clust v = Done r v' ∧ fat_ok v' ∧
    match r with
    | Ok c => cluster (fat v) c ∧ fat_entry v c = 0 ∧ c ∉ l ∧ chain v' c0 (l ++ [c]) ∧
        (∀ c2 l2, chain v c2 l2 → clust ∉ l2 → chain v' c2 l2) ∧
        free_cnt (fat v') = u32 (free_cnt (fat v) - 1) ∧ last_used (fat v') = c ∧ dirty v' = false
    | Err e => e = FAT_ERR_FULL ∧
        (∀ i, 0 < i < clust_cnt (fat v) - 2 → fat_entry v (FatChain.after (fat v) (last_used (fat v)) i) ≠ 0) ∧
        ∀ d, in_table (fat v) d → fat_entry v' d = fat_entry v d
    end.
Proof.
  intros Hok Ht Hu Hch Hl.
  assert (Hcl : cluster (fat v) clust).
  { pose proof (chain_clusters _ _ _ Hch) as H. rewrite Forall_forall in H. by apply H, last_Some_elem_of. }
  assert (H : wp (stretch_chain clust) (λ r v', chosen (fat v) (fat_entry v) clust r ∧
    match r with Ok c => stretched clust c v v' | Err e => e = FAT_ERR_FULL ∧ untouched v v' end) v).
  { by apply wp_stretch_chain. }
  apply wp_done in H as (r & v' & E & Hc & H). exists r, v'. split; [done|]. destruct r as [c|e].
  - destruct (chosen_cluster _ _ _ _ (count_bound v Hok) Hu ltac:(done) Hc) as [Hcc H0].
    pose proof H as [[S1 S2 S3] S4 S5 [S6 _]].
    assert (Hfree : ∀ c2 l2, chain v c2 l2 → c ∉ l2).
    { intros c2 l2 Hc2 Hin. destruct (chain_suffix _ _ _ _ Hc2 Hin) as (l' & Hl' & _).
      inversion Hl' as [? _ Hk0|? ? _ Hk0]; subst; unfold kind in Hk0; by rewrite H0 in Hk0. }
    split_and!; try done; [by eapply Hfree|by eapply stretched_chain|].
    intros c2 l2 Hc2 Hn. apply (chain_frame v); [done| |done]. apply Forall_forall. intros d Hd.
    pose proof (chain_clusters _ _ _ Hc2) as Hall. rewrite Forall_forall in Hall. rewrite S3 by auto.
    unfold appended, changed. assert (d ≠ clust) by by intros ->.
    assert (d ≠ c) by (intros ->; by eapply Hfree). destruct (clust =? 0); by rewrite ?decide_False.
  - destruct H as [-> [[U1 U2 U3] _ _]]. split_and!; try done.
    unfold chosen in Hc. case_bool_decide; [done|]. destruct Hc as [_ Hn]. exact Hn.
Qed.

Lemma stretch_chain_appends_witness :
  ∃ v', stretch_chain 6 sample_volume = Done (Ok 7) v' ∧ chain v' 3 [3; 4; 6; 7].
Proof.
  destruct (stretch_chain_appends sample_volume 3 [3; 4; 6] 6 sample_ok sample_table_ok)
    as (r & v' & E & _ & H); [by vm_compute|apply sample_chain|reflexivity|].
  assert (Hr : match stretch_chain 6 sample_volume with Done r _ => r = Ok 7 | _ => False end) by (vm_compute; reflexivity).
  rewrite E in Hr. subst r. exists v'. split; [exact E|]. destruct H as (_ & _ & _ & H & _). exact H.
Defined.

(** ** Names and times *)

(** Long names: the entries written for a name of up to 255 characters, whatever the
    slots held before, are read back as exactly that name, if no character is 0 or 255. *)
Theorem long_name_round_trip crc name raws gbuf :
  (0 < length name ≤ 255)%nat → Forall lfn_char name →
  length raws = Z.to_nat (lfn_count (Z.of_nat (length name))) → Forall (λ raw, length raw = 32%nat) raws →
  (260 ≤ length gbuf)%nat →
  let entries := lfn_entries (length raws) LFN_HEAD_MSK crc name raws in
  parse_lfn entries gbuf = Some (name ++ drop (length name) gbuf, Z.of_nat (length name)).
Proof. intros Hl Hc Hr Hf Hg. rewrite Hr. by apply parse_lfn_roundtrip. Qed.

Lemma long_name_round_trip_witness :
  parse_lfn (lfn_entries 2 LFN_HEAD_MSK 77 sample_name [replicate 32 9; replicate 32 8]) (replicate 260 0) =
  Some (sample_name ++ replicate 245 0, 15).
Proof.
  refine (long_name_round_trip 77 sample_name [replicate 32 9; replicate 32 8] (replicate 260 0) _ _ _ _ _).
  - cbn. lia.
  - repeat (constructor; [by vm_compute|]). constructor.
  - reflexivity.
  - repeat constructor.
  - rewrite length_replicate. lia.
Defined.

(** Short names: a name of up to eight characters with an extension of up to three or
    none, all of them characters the encoding keeps, comes back from its padded form. *)
Theorem short_name_round_trip base ext :
  (0 < length base ≤ 8)%nat → (length ext ≤ 3)%nat → Forall sfn_kept base → Forall sfn_kept ext →
  let name := base ++ match ext with [] => [] | _ => DOT :: ext end in
  length (put_sfn_name name) = 11%nat ∧ parse_sfn_name (put_sfn_name name) = name.
Proof.
  intros Hb He Hkb Hke name. split; [apply put_sfn_name_length|]. unfold name. destruct ext as [|e ext].
  - rewrite app_nil_r. by apply sfn_roundtrip_plain.
  - apply sfn_roundtrip; try done. cbn in *. lia.
Qed.

Lemma short_name_round_trip_witness :
  parse_sfn_name (put_sfn_name [75; 69; 82; 78; 69; 76; 46; 73; 77; 71]) = [75; 69; 82; 78; 69; 76; 46; 73; 77; 71].
Proof.
  refine (proj2 (short_name_round_trip [75; 69; 82; 78; 69; 76] [73; 77; 71] _ _ _ _)).
  - cbn. lia.
  - cbn. lia.
  - repeat (constructor; [by vm_compute|]). constructor.
  - repeat (constructor; [by vm_compute|]). constructor.
Defined.

(** Times: a time with fields that fit comes back from its two 16-bit words, up to the
    two-second resolution, for the years 1980 to 2043; the year 2044 comes back as 1980. *)
Theorem timestamp_round_trip ts :
  0 ≤ hour ts < 32 → 0 ≤ min ts < 64 → 0 ≤ sec ts < 64 → 0 ≤ day ts < 32 → 0 ≤ month ts < 16 →
  let back := decode_timestamp (encode_timestamp ts).1 (encode_timestamp ts).2 in
  (1980 ≤ year ts < 2044 → back = {| hour := hour ts; min := min ts; sec := sec ts / 2 * 2; day := day ts;
                                      month := month ts; year := year ts |}) ∧
  (year ts = 2044 → year back = 1980).
Proof.
  intros Hh Hm Hs Hd Hmo back. split.
  - intros Hy. apply timestamp_roundtrip. unfold valid_timestamp. lia.
  - intros Hy. set (ts' := {| hour := hour ts; min := min ts; sec := sec ts; day := day ts; month := month ts; year := 1980 |}).
    assert (E : encode_timestamp ts = encode_timestamp ts') by (unfold encode_timestamp; by rewrite Hy).
    unfold back. rewrite E, (timestamp_roundtrip ts'); [done|]. unfold valid_timestamp, ts'. cbn. lia.
Qed.

Lemma timestamp_round_trip_witness :
  let ts := {| hour := 23; min := 59; sec := 58; day := 31; month := 12; year := 2026 |} in
  decode_timestamp (encode_timestamp ts).1 (encode_timestamp ts).2 = ts.
Proof.
  cbn zeta. refine (proj1 (timestamp_round_trip
    {| hour := 23; min := 59; sec := 58; day := 31; month := 12; year := 2026 |} _ _ _ _ _) _); cbn; lia.
Defined.
