(* ===== verification/PropFile.v ===== *)
(** * Properties of files and volumes

    Reading, writing and synchronizing an open file, in terms of its bytes. *)
From S2P Require Import Prelude.
From S2P Require Import CString.
From S2P Require Import FatNames.
From S2P Require Import FatTable.
From S2P Require Import FatCache.
From S2P Require Import FatChain.
From S2P Require Import FatFile.
From S2P Require Import FatData.
From S2P Require Import FatMount.
From S2P Require Import FatMounted.
From S2P Require Import FatDemo.
Local Open Scope Z_scope.
Local Open Scope fat_scope.

(** ** Open files *)

(** Reading: from a file whose clusters hold the bytes read, [fat_file_read] returns the
    bytes of the file from its offset on, as many as were asked for or as are left before
    the end of the file; the offset moves behind them and the bytes of the file stay. *)
Theorem read_returns_contents l s len :
  opened l s → has_flag (f_flags (file s)) FAT_READ = true →
  0 ≤ len < 2 ^ 31 → 0 ≤ f_size (file s) < 2 ^ 32 →
  let off := f_offset (file s) in
  let n := Z.max 0 (Z.min len (f_size (file s) - off)) in
  off + n < capacity (fat (vol s)) l →
  ∃ bytes s', fat_file_read len s = Done (bytes, Ok tt) s' ∧
    bytes = take (Z.to_nat n) (drop (Z.to_nat off) (contents s l)) ∧ Z.of_nat (length bytes) = n ∧
    opened l s' ∧ f_offset (file s') = off + n ∧ f_size (file s') = f_size (file s) ∧
    contents s' l = contents s l.
Proof.
  intros Hop Hr Hlen Hsize off n Hcap.
  assert (H : wp (fat_file_read len) (λ r s',
    r = (take (Z.to_nat n) (drop (Z.to_nat off) (contents s l)), Ok tt) ∧
    seeked l {| file := set_f_flags (Z.lor (f_flags (file s)) FAT_ACCESSED) (file s); vol := vol s |}
      (off + n) (contents s l) s') s).
  { apply (wp_fat_file_read l len s _ n); try done. lia. }
  apply wp_done in H as (r & s' & E & -> & [S1 S2 S3 S4 S5 S6 S7]). eexists _, s'. split; [exact E|].
  pose proof (file_length _ _ Hop). pose proof (op_offset _ _ Hop).
  split_and!; try done. rewrite length_take, length_drop. lia.
Qed.

Lemma read_returns_contents_witness :
  ∃ bytes s', fat_file_read 700 sample_session = Done (bytes, Ok tt) s' ∧
    bytes = replicate 512 65 ++ replicate 188 66 ∧ f_offset (file s') = 700.
Proof.
  destruct (read_returns_contents [3; 4; 6] sample_session 700 sample_opened) as (bytes & s' & E & H & _ & _ & Ho & _).
  - by vm_compute.
  - by vm_compute.
  - by vm_compute.
  - by vm_compute.
  - exists bytes, s'. split; [exact E|]. split; [rewrite H; vm_compute; reflexivity|exact Ho].
Defined.

(** C32: Writing: bytes written at an offset of a file whose clusters hold them replace
    those of the file from there on and no others, and are what is read back from there;
    the size grows to the end of what was written when that lies behind it. *)
Theorem write_then_read l s src :
  opened l s → has_flag (f_flags (file s)) FAT_WRITE = true → has_flag (f_flags (file s)) FAT_READ = true →
  0 ≤ f_size (file s) < 2 ^ 32 → Z.of_nat (length src) < 2 ^ 31 →
  let off := f_offset (file s) in
  off + Z.of_nat (length src) < capacity (fat (vol s)) l → off + Z.of_nat (length src) < 2 ^ 31 →
  ∃ s1 s2 s3, fat_file_write src s = Done (Z.of_nat (length src), Ok tt) s1 ∧
    fat_file_seek off FAT_SEEK_START s1 = Done (Ok tt) s2 ∧
    fat_file_read (Z.of_nat (length src)) s2 = Done (src, Ok tt) s3 ∧
    opened l s3 ∧
    contents s3 l = take (Z.to_nat off) (contents s l) ++ src ++
                    drop (Z.to_nat off + length src) (contents s l) ∧
    f_size (file s3) = Z.max (f_size (file s)) (off + Z.of_nat (length src)).
Proof.
  intros Hop Hw Hr Hsize Hlen off Hcap H31. pose proof (op_offset _ _ Hop) as Hoff.
  assert (H : wp (fat_file_write src) (λ r s', r = (Z.of_nat (length src), Ok tt) ∧ written l src s s') s).
  { apply (wp_fat_file_write l); try done. fold off. lia. }
  apply wp_done in H as (r & s1 & E1 & -> & [W1 W2 W3 W4 W5 [W6 _]]). exists s1.
  pose proof (capacity_geometry _ _ W5 l) as Hc1. fold off in W2, W3, W4, Hoff.
  assert (H : wp (fat_file_seek off FAT_SEEK_START) (λ r s', r = Ok tt ∧ seeked l s1 off (contents s1 l) s') s1).
  { apply (wp_fat_file_seek l s1 W1 _ _ off); [lia|rewrite Hc1; lia|lia|done]. }
  apply wp_done in H as (r & s2 & E2 & -> & Hs2). exists s2. pose proof Hs2 as [S1 S2 S3 S4 S5 S6 S7].
  destruct (read_returns_contents l s2 (Z.of_nat (length src))) as (bytes & s3 & E3 & Hb & _ & R1 & R2 & R3 & R4).
  - exact S1.
  - rewrite read_flag, S7, <- read_flag by lia. by rewrite W6.
  - lia.
  - rewrite S5, W4. lia.
  - rewrite S2, S5, W4, (seeked_capacity _ _ _ _ _ Hs2), Hc1. lia.
  - exists s3. rewrite S2, S5, W4, S4, W3 in Hb.
    replace (Z.max 0 (Z.min (Z.of_nat (length src)) (Z.max (f_size (file s)) (off + Z.of_nat (length src)) - off)))
      with (Z.of_nat (length src)) in Hb by lia.
    pose proof (file_length _ _ Hop) as Hcl.
    assert (Ht : length (take (Z.to_nat off) (contents s l)) = Z.to_nat off) by (rewrite length_take; lia).
    rewrite <- Ht, drop_app_length, Nat2Z.id, take_app_length in Hb at 1. subst bytes.
    split_and!; try done; congruence.
Qed.

Lemma write_then_read_witness :
  ∃ s1 s2 s3, fat_file_write (replicate 600 90) sample_session = Done (600, Ok tt) s1 ∧
    fat_file_seek 0 FAT_SEEK_START s1 = Done (Ok tt) s2 ∧
    fat_file_read 600 s2 = Done (replicate 600 90, Ok tt) s3.
Proof.
  destruct (write_then_read [3; 4; 6] sample_session (replicate 600 90) sample_opened)
    as (s1 & s2 & s3 & E1 & E2 & E3 & _).
  - by vm_compute.
  - by vm_compute.
  - by vm_compute.
  - by vm_compute.
  - by vm_compute.
  - by vm_compute.
  - exists s1, s2, s3. split; [exact E1|]. split; [exact E2|exact E3].
Defined.

(** Synchronizing a file: afterwards the sectors of the file on the device hold the
    bytes of the file, its clusters are the same, and for a modified file its directory
    entry on the device holds its size, with the other entries of that sector as they were. *)
Theorem sync_saves_file l s :
  opened l s → entry_ok l s →
  ∃ s', fat_file_sync s = Done (Ok tt) s' ∧ fat_ok (vol s') ∧ chain (vol s') (f_sclust (file s)) l ∧
    file_sectors (fat (vol s)) l ≫= (λ x, default [] (disk (vol s') !! x)) = contents s l ∧
    (has_flag (f_flags (file s)) FAT_MODIFIED = true →
     ∃ b b', store (vol s) (f_dir_sect (file s)) = Some b ∧ disk (vol s') !! f_dir_sect (file s) = Some b' ∧
       in_entry (Z.to_nat (f_dir_idx (file s))) b b' ∧
       get_le 4 (Z.to_nat (f_dir_idx (file s)) + 28) b' = f_size (file s) mod 2 ^ 32).
Proof.
  intros Hop He. assert (H : wp fat_file_sync (λ r s', r = Ok tt ∧ saved l s s') s) by by eapply wp_fat_file_sync.
  apply wp_done in H as (r & s' & E & -> & [S1 S2 S3 S4 S5]). exists s'. split_and!; try done.
  unfold contents. apply bind_ext_in. intros x Hx. unfold sector. by rewrite S4.
Qed.

Lemma sync_saves_file_witness :
  let s := {| file := set_f_flags (Z.lor (f_flags sample_file) FAT_MODIFIED) sample_file; vol := sample_volume |} in
  ∃ s' b', fat_file_sync s = Done (Ok tt) s' ∧ disk (vol s') !! 4 = Some b' ∧ get_le 4 60 b' = 1200.
Proof.
  intros s. assert (He : entry_ok [3; 4; 6] s) by (destruct sample_entry_ok; split; assumption).
  destruct (sync_saves_file [3; 4; 6] s (raised_flags _ _ 6 sample_opened ltac:(lia) ltac:(lia)) He)
    as (s' & E & _ & _ & _ & H).
  destruct H as (b & b' & _ & Hd & _ & Hz); [by vm_compute|].
  exists s', b'. split; [exact E|]. split; [exact Hd|exact Hz].
Defined.

(** ** Mounting *)

(** Mounting: when the probe finds a boot record whose volume fits the device, and the
    FsInfo sector and the name are valid, [fat_mount] on a zeroed [Fat] succeeds and leaves
    the volume in the state all operations on it assume: a clean buffer, the tables and
    FsInfo apart from each other and from the data area, with the counters of FsInfo. *)
Theorem mount_establishes partition p name s m lba s1 info n :
  mounts s !! p = Some m → flags (m_fat m) = 0 → length (buf (m_fat m)) = 512%nat →
  probe partition s = Done (Ok lba) s1 → boot_ok lba (read_bpb (g_buf s1)) →
  device_ok lba (read_bpb (g_buf s1)) s →
  device s !! (lba + 1) = Some info → fsinfo_ok info = true → strlen name = Some n → n ≤ 32 →
  ∃ s' m', fat_mount partition p name s = Done (Ok tt) s' ∧ mounts s' !! p = Some m' ∧
    g_fat_list s' = Some p ∧
    fat_ok {| fat := m_fat m'; disk := device s' |} ∧ layout_ok (m_fat m') ∧
    root_clust (m_fat m') = root_cluster (read_bpb (g_buf s1)) ∧
    free_cnt (m_fat m') = get_le 4 FSINFO_FREE_CNT info ∧ last_used (m_fat m') = get_le 4 FSINFO_NEXT_FREE info.
Proof.
  intros Hm Hfl Hbl Hp Hboot Hdev Hinfo Hsig Hname Hn.
  assert (Hmb : mountable partition p name s m lba s1 info n) by by split.
  destruct (mountable_ok _ _ _ _ _ _ _ _ _ Hmb) as [Hok Hla].
  assert (H : wp (fat_mount partition p name) (λ r s', r = Ok tt ∧ device s' = device s ∧ g_fat_list s' = Some p ∧
    ∃ m', mounts s' !! p = Some m' ∧ m_fat m' = mounted_fat lba (read_bpb (g_buf s1)) info (m_fat m)) s).
  { eapply wp_fat_mount; [exact Hmb|]. intros s' m' Hd Hl Hm' Ef _ _ _. split_and!; eauto. }
  apply wp_done in H as (r & s' & E & -> & Hd' & Hl & m' & Hm' & Ef). exists s', m'. rewrite Ef, Hd'. by split_and!.
Qed.

(** A device with a volume of one-sector clusters and tables of one sector. *)
Definition boot_sector : list Z :=
  set_bytes 82 fat32_type (set_le 2 48 1 (set_le 4 44 2 (set_le 2 40 0x80 (set_le 4 36 1 (set_le 4 32 70000
    (set_le 1 16 2 (set_le 2 14 2 (set_le 1 13 1 (set_le 2 11 512 (set_le 1 0 0xeb blank)))))))))).
Definition fsinfo_sector : list Z :=
  set_le 4 508 FSINFO_TAIL_SIG (set_le 4 492 6 (set_le 4 488 122 (set_le 4 484 FSINFO_STRUCT_SIG
    (set_le 4 0 FSINFO_HEAD_SIG blank)))).
Definition zero_fat : Fat :=
  {| clust_msk := 0; clust_cnt := 0; info_sect := 0; fat_sect0 := 0; fat_sect1 := 0; data_sect := 0;
     root_clust := 0; last_used := 0; free_cnt := 0; sect := 0; buf := blank; flags := 0; clust_shift := 0 |}.
Definition sample_library : library :=
  {| mounts := {[ 100 := {| m_fat := zero_fat; m_next := None; m_name_len := 0; m_name := replicate 32 0 |} ]};
     g_fat_list := None;
     device := <[0 := boot_sector]> (<[1 := fsinfo_sector]> (<[2 := sample_table]> (<[3 := sample_table]> ∅)));
     g_buf := blank; g_len := 0; g_crc := 0 |}.
(** ["mnt"] *)
Definition mnt : list Z := [109; 110; 116; 0].

Lemma sample_device_ok : device_ok 0 (read_bpb boot_sector) sample_library.
Proof.
  split.
  - apply (bool_decide_unpack (map_Forall (λ _ d, length d = 512%nat) (device sample_library))). vm_compute. reflexivity.
  - assert (H : Forall (λ x, is_Some (device sample_library !! x)) (seqZ 2 2)).
    { apply (bool_decide_unpack (Forall (λ x, is_Some (device sample_library !! x)) (seqZ 2 2))). vm_compute. reflexivity. }
    intros x Hx. rewrite Forall_forall in H. apply H, elem_of_seqZ.
    change (0 + res_sect_cnt (read_bpb boot_sector)) with 2 in Hx.
    change (2 * sect_per_fat_32 (read_bpb boot_sector)) with 2 in Hx. lia.
Qed.
Lemma sample_boot_ok : boot_ok 0 (read_bpb boot_sector).
Proof. split; [by vm_compute|by vm_compute|exists 0; by vm_compute|by vm_compute|by vm_compute]. Qed.

Lemma mount_establishes_witness :
  ∃ s' m', fat_mount 0 100 mnt sample_library = Done (Ok tt) s' ∧ mounts s' !! 100 = Some m' ∧
    fat_ok {| fat := m_fat m'; disk := device s' |} ∧ layout_ok (m_fat m') ∧ free_cnt (m_fat m') = 122.
Proof.
  destruct (mount_establishes 0 100 mnt sample_library
    {| m_fat := zero_fat; m_next := None; m_name_len := 0; m_name := replicate 32 0 |} 0
    (set_g_buf boot_sector sample_library) fsinfo_sector 3) as (s' & m' & E & Hm & _ & H1 & H2 & _ & H3 & _).
  - reflexivity.
  - reflexivity.
  - reflexivity.
  - vm_compute. reflexivity.
  - exact sample_boot_ok.
  - exact sample_device_ok.
  - reflexivity.
  - vm_compute. reflexivity.
  - reflexivity.
  - lia.
  - exists s', m'. split; [exact E|]. split; [exact Hm|]. split; [exact H1|]. split; [exact H2|].
    rewrite H3. vm_compute. reflexivity.
Defined.
