(* ===== verification/PropDir.v ===== *)
(** * Properties of directories

    Searching a directory, and the entries of a new name. *)
From S2P Require Import Prelude.
From S2P Require Import CString.
From S2P Require Import FatNames.
From S2P Require Import FatTable.
From S2P Require Import FatCache.
From S2P Require Import FatChain.
From S2P Require Import FatFile.
From S2P Require Import FatData.
From S2P Require Import FatMount.
From S2P Require Import FatDir.
From S2P Require Import FatSlots.
From S2P Require Import FatSearch.
From S2P Require Import FatAdd.
From S2P Require Import FatDemo.
Local Open Scope Z_scope.
Local Open Scope fat_scope.

(** Searching: in a directory whose entries are valid, [dir_search] ends at the entry of
    the first name that is the one searched for, a long name in full or a short one in its
    encoding, and reports where its entries begin; without such a name it reports the end.
    Nothing on the volume, as seen through its buffer, nor the list of volumes changes. *)
Theorem dir_search_finds p v c l its name dir loc s :
  directory v c l → dir_items (slots v l) 0 its → sclust dir = c →
  volume_of p s = Some v → length (g_buf s) = 512%nat →
  ∃ dir' loc' r s' v', dir_search p dir name loc s = Done (dir', loc', r) s' ∧
    volume_of p s' = Some v' ∧ (∀ x, 0 < x → store v' x = store v x) ∧ same_registry s s' ∧
    match List.find (names name) its with
    | Some it => r = Ok tt ∧ at_slot (fat v) l (it_entry it) dir' ∧
        slots v l !! it_entry it = Some (dir_entry (fat v') dir') ∧
        ∃ d, at_slot (fat v) l (it_start it) d ∧ loc' = Some (loc_of d)
    | None => r = Err FAT_ERR_EOF
    end.
Proof.
  intros Hd Hits Hc Hv Hb.
  assert (Hw : walking p v s s).
  { split; [exists v; split; [done|apply transparent_refl, fo_cache, Hd]|done|done]. }
  pose proof (wp_dir_search p v c l s name Hd dir loc its s Hw Hits Hc) as H.
  apply wp_done in H as ([[dir' loc'] r] & s' & E & H). unfold search_post in H. cbn [fst snd] in H.
  destruct (List.find (names name) its) as [it|].
  - destruct H as (-> & [[(v' & Hv' & Htr) Hreg _] Hat _ He] & Hloc). exists dir', loc', (Ok tt), s', v'.
    split_and!; try done; [apply Htr|by apply He].
  - destruct H as (-> & [(v' & Hv' & Htr) Hreg _]). exists dir', loc', (Err FAT_ERR_EOF), s', v'.
    split_and!; try done. apply Htr.
Qed.

Lemma dir_search_finds_witness :
  ∃ dir' loc' s', dir_search 100 {| sclust := 2; dclust := 0; dsect := 0; didx := 0 |} kernel_img None sample_mounted =
    Done (dir', loc', Ok tt) s' ∧ at_slot (fat sample_volume) [2] 3 dir'.
Proof.
  destruct (dir_search_finds 100 sample_volume 2 [2] sample_items kernel_img
    {| sclust := 2; dclust := 0; dsect := 0; didx := 0 |} None sample_mounted
    sample_directory sample_dir_items) as (dir' & loc' & r & s' & v' & E & _ & _ & _ & H).
  - reflexivity.
  - reflexivity.
  - reflexivity.
  - assert (Ef : List.find (names kernel_img) sample_items =
      Some {| it_start := 3; it_entry := 3; it_long := false; it_name := put_sfn_name kernel_img |}) by (vm_compute; reflexivity).
    rewrite Ef in H. destruct H as (Hr & H & _). exists dir', loc', s'. split; [rewrite E, Hr; reflexivity|exact H].
Defined.

Lemma find_app {A} (f : A → bool) (l k : list A) :
  List.find f (l ++ k) = match List.find f l with Some x => Some x | None => List.find f k end.
Proof. induction l as [|x l IH]; cbn; [done|]. by destruct (f x). Qed.

(** A search on another volume with the same layout of the directory. *)
Lemma search_again p v v' c l name dir loc its s :
  directory v' c l → rewritten l v v' → dir_items (slots v' l) 0 its → volume_of p s = Some v' → length (g_buf s) = 512%nat →
  sclust dir = c →
  ∃ dir' loc' r s', dir_search p dir name loc s = Done (dir', loc', r) s' ∧
    match List.find (names name) its with
    | Some it => r = Ok tt ∧ at_slot (fat v) l (it_entry it) dir'
    | None => r = Err FAT_ERR_EOF
    end.
Proof.
  intros Hd Hrw Hits Hv Hb Hc.
  assert (Hw : walking p v' s s).
  { split; [exists v'; split; [done|apply transparent_refl, fo_cache, Hd]|done|done]. }
  pose proof (wp_dir_search p v' c l s name Hd dir loc _ s Hw Hits Hc) as H.
  apply wp_done in H as ([[dir' loc'] r] & s' & E & H). exists dir', loc', r, s'. split; [exact E|].
  unfold search_post in H. cbn [fst snd] in H. destruct (List.find (names name) its) as [it|]; [|by destruct H].
  destruct H as (-> & Hl & _). split; [done|]. eapply at_slot_geometry; [|apply Hl]. symmetry. by eapply rw_geometry.
Qed.

(** C27: Creating a name: in a directory whose entries are valid and which has a run of free
    entries that is long enough, with an entry behind it, [dir_add] puts the name there; a
    search for it ends at its entry, with the attributes and the cluster it was given, and
    every other name is found, or not, as before.  Only the sectors of the directory change. *)
Theorem added_name_is_found p v c l its name attr clust dir first eod s :
  directory v c l → dir_items (slots v l) 0 its → List.find (names name) its = None → sclust dir = c →
  volume_of p s = Some v → length (g_buf s) = 512%nat →
  (0 < length name ≤ 255)%nat → Forall lfn_char name → u8 attr ≠ FAT_ATTR_LFN →
  free_run (S (lfns_of name)) (slots v l) 0 0 false = Some (first, eod) →
  (first + S (lfns_of name) < length (slots v l))%nat →
  Forall (λ it, it_entry it < first ∨ first + S (lfns_of name) ≤ it_start it)%nat its →
  ∃ dir1 s1 v1, dir_add p dir name attr clust s = Done (dir1, Ok tt) s1 ∧
    volume_of p s1 = Some v1 ∧ directory v1 c l ∧ rewritten l v v1 ∧ same_registry s s1 ∧
    ∀ other dir2 loc, sclust dir2 = c →
      ∃ dir3 loc3 r s2, dir_search p dir2 other loc s1 = Done (dir3, loc3, r) s2 ∧
        (other = name → dir_ptr p dir3 s2 = Done (new_entry name attr clust) s2) ∧
        match (if decide (other = name) then Some (new_item name first) else List.find (names other) its) with
        | Some it => r = Ok tt ∧ at_slot (fat v) l (it_entry it) dir3
        | None => r = Err FAT_ERR_EOF
        end.
Proof.
  intros Hd Hits Hnone Hc Hv Hb Hlen Hch Hattr Hrun Hroom Hapart.
  assert (Hw : walking p v s s).
  { split; [exists v; split; [done|apply transparent_refl, fo_cache, Hd]|done|done]. }
  destruct (added_items name attr clust (slots v l) its first eod) as (before & after & -> & Hnew); [done|..|done|done|done|done|done|done|].
  { apply Forall_forall. intros raw (k & Hk)%list_elem_of_lookup_1. by eapply slot_length. }
  assert (W : wp (dir_add p dir name attr clust) (λ r s1, r.2 = Ok tt ∧
    ∃ v1, wrote p c l s (added_slots name attr clust first eod (slots v l)) v v1 s s1) s).
  { eapply wp_dir_add; [exact Hd|exact Hw|exact Hc|exact Hlen|exact Hrun|exact Hroom|]. intros v1 dir' s' Hwr _. split; [done|by exists v1]. }
  apply wp_done in W as ([dir1 r1] & s1 & E1 & Hr1 & v1 & [Hd1 Hrw Hsl Hw1 Hg1]). cbn [snd] in Hr1. subst r1.
  destruct Hw1 as [(v' & Hv' & Htr) Hreg Hb1]. destruct (transparent_directory _ _ _ _ Hd1 Htr) as [Hd' Hsl'].
  assert (Hrw' : rewritten l v v') by (eapply rewritten_trans; [exact Hrw|by apply transparent_rewritten]).
  exists dir1, s1, v'. split_and!; [done..|]. intros other dir2 loc Hc2.
  assert (Hw' : walking p v' s1 s1).
  { split; [exists v'; split; [done|apply transparent_refl, Htr]|done|done]. }
  rewrite <- Hsl, <- Hsl' in Hnew.
  pose proof (wp_dir_search p v' c l s1 other Hd' dir2 loc _ s1 Hw' Hnew Hc2) as H.
  apply wp_done in H as ([[dir3 loc3] r] & s2 & E & H). exists dir3, loc3, r, s2. split; [exact E|].
  unfold search_post in H. cbn [fst snd] in H. rewrite find_app in Hnone, H. cbn [List.find] in H.
  assert (Hnn : names other (new_item name first) = bool_decide (name = other)) by done. rewrite Hnn in H.
  assert (Hsame : ∀ it, loaded p v' l s1 (it_entry it) dir3 s2 → at_slot (fat v) l (it_entry it) dir3).
  { intros it Hl. eapply at_slot_geometry; [|apply Hl]. symmetry. by eapply rw_geometry. }
  destruct (decide (other = name)) as [->|Hne].
  - rewrite bool_decide_true in H by done. destruct (List.find (names name) before); [done|].
    destruct H as (-> & Hl & _). split; [|split; [done|by apply Hsame]]. intros _.
    assert (W : wp (dir_ptr p dir3) (λ raw s', raw = new_entry name attr clust ∧ s' = s2) s2).
    { eapply wp_dir_ptr; [exact Hl| |done]. rewrite Hsl', Hsl. by apply added_entry. }
    apply wp_done in W as (raw & s3 & Er & -> & ->). exact Er.
  - rewrite bool_decide_false in H by congruence. split; [done|]. rewrite find_app.
    destruct (List.find (names other) before) as [it|].
    + destruct H as (-> & Hl & _). split; [done|by apply Hsame].
    + destruct (List.find (names other) after) as [it|]; [|by destruct H].
      destruct H as (-> & Hl & _). split; [done|by apply Hsame].
Qed.
(** ["notes"] goes behind the two names of the sample directory. *)
Definition notes : list Z := [110; 111; 116; 101; 115].
Lemma added_name_is_found_witness :
  ∃ dir1 s1 dir3 loc3 s2,
    dir_add 100 {| sclust := 2; dclust := 0; dsect := 0; didx := 0 |} notes 0x20 9 sample_mounted = Done (dir1, Ok tt) s1 ∧
    dir_search 100 {| sclust := 2; dclust := 0; dsect := 0; didx := 0 |} notes None s1 = Done (dir3, loc3, Ok tt) s2 ∧
    at_slot (fat sample_volume) [2] 5 dir3 ∧ dir_ptr 100 dir3 s2 = Done (new_entry notes 0x20 9) s2.
Proof.
  destruct (added_name_is_found 100 sample_volume 2 [2] sample_items notes 0x20 9
    {| sclust := 2; dclust := 0; dsect := 0; didx := 0 |} 4 true sample_mounted sample_directory sample_dir_items)
    as (dir1 & s1 & v1 & E & _ & _ & _ & _ & H).
  - vm_compute. reflexivity.
  - reflexivity.
  - reflexivity.
  - reflexivity.
  - cbn. lia.
  - repeat (constructor; [by vm_compute|]). constructor.
  - by vm_compute.
  - vm_compute. reflexivity.
  - rewrite sample_slots. apply Nat.ltb_lt. vm_compute. reflexivity.
  - apply (bool_decide_unpack _). vm_compute. reflexivity.
  - destruct (H notes {| sclust := 2; dclust := 0; dsect := 0; didx := 0 |} None eq_refl) as (dir3 & loc3 & r & s2 & E2 & Hp & Hm).
    rewrite decide_True in Hm by reflexivity. destruct Hm as [Hr Hat]. exists dir1, s1, dir3, loc3, s2.
    split; [exact E|]. split; [rewrite E2, Hr; reflexivity|]. split; [exact Hat|]. apply Hp. reflexivity.
Defined.

Lemma find_split {A} (f : A → bool) (l : list A) x : List.find f l = Some x → ∃ before after, l = before ++ x :: after.
Proof. intros (before & after & ->)%List.find_some%proj1%List.in_split. by exists before, after. Qed.

(** Removing a name: [dir_search] and then [remove_entries] with what it reports make the
    entries of the name free, all of them, whether the name is long or short: afterwards the
    directory has the names before without this one, and a search finds the first of those
    that is the one searched for, or none.  Only the sectors of the directory change. *)
Theorem removed_name_is_gone p v c l its it name dir loc s :
  directory v c l → dir_items (slots v l) 0 its → List.find (names name) its = Some it → sclust dir = c →
  volume_of p s = Some v → length (g_buf s) = 512%nat →
  ∃ dir1 loc1 s1 s2 v2 before after,
    dir_search p dir name loc s = Done (dir1, Some loc1, Ok tt) s1 ∧ remove_entries p dir1 loc1 s1 = Done (Ok tt) s2 ∧
    volume_of p s2 = Some v2 ∧ directory v2 c l ∧ rewritten l v v2 ∧ same_registry s s2 ∧
    its = before ++ it :: after ∧
    ∀ other dir2 loc, sclust dir2 = c →
      ∃ dir3 loc3 r s3, dir_search p dir2 other loc s2 = Done (dir3, loc3, r) s3 ∧
        match List.find (names other) (before ++ after) with
        | Some it' => r = Ok tt ∧ at_slot (fat v) l (it_entry it') dir3
        | None => r = Err FAT_ERR_EOF
        end.
Proof.
  intros Hd Hits Hfind Hc Hv Hb.
  assert (Hw : walking p v s s).
  { split; [exists v; split; [done|apply transparent_refl, fo_cache, Hd]|done|done]. }
  pose proof (wp_dir_search p v c l s name Hd dir loc its s Hw Hits Hc) as H.
  apply wp_done in H as ([[dir1 loc1] r1] & s1 & E1 & H). unfold search_post in H. cbn [fst snd] in H. rewrite Hfind in H.
  destruct H as (-> & Hl1 & d & Hd1 & ->). destruct (find_split _ _ _ Hfind) as (before & after & ->).
  assert (Hlen : Forall (λ raw, length raw = 32%nat) (slots v l)).
  { apply Forall_forall. intros raw (k & Hk)%list_elem_of_lookup_1. by eapply slot_length. }
  destruct (items_cut _ _ _ _ _ Hits Hlen) as (Hle & _). pose proof (removed_items _ _ _ _ Hits Hlen) as Hnew.
  set (n := (it_entry it - it_start it)%nat) in *.
  assert (W : wp (remove_entries p dir1 (loc_of d)) (λ r s2, r = Ok tt ∧
    ∃ v2, wrote p c l s (freed_slots (it_start it) (S n) (slots v l)) v v2 s1 s2) s1).
  { eapply (wp_remove_entries p c l s v (it_start it) n); [exact Hd|apply Hl1| |exact Hd1|].
    - replace (it_start it + n)%nat with (it_entry it) by lia. apply Hl1.
    - intros v2 s2 Hwr. split; [done|by exists v2]. }
  apply wp_done in W as (r & s2 & E2 & -> & v2 & [Hd2 Hrw Hsl Hw2 _]).
  destruct Hw2 as [(v' & Hv' & Htr) Hreg Hb2]. destruct (transparent_directory _ _ _ _ Hd2 Htr) as [Hd' Hsl'].
  assert (Hrw' : rewritten l v v') by (eapply rewritten_trans; [exact Hrw|by apply transparent_rewritten]).
  exists dir1, (loc_of d), s1, s2, v', before, after. split_and!; [done..|]. intros other dir2 loc' Hc2.
  rewrite <- Hsl, <- Hsl' in Hnew.
  eapply (search_again p v v' c l other dir2 loc'); [exact Hd'|exact Hrw'|exact Hnew|exact Hv'|exact Hb2|exact Hc2].
Qed.
Lemma removed_name_is_gone_witness :
  ∃ dir1 loc1 s1 s2 dir3 loc3 s3,
    dir_search 100 {| sclust := 2; dclust := 0; dsect := 0; didx := 0 |} sample_name None sample_mounted = Done (dir1, Some loc1, Ok tt) s1 ∧
    remove_entries 100 dir1 loc1 s1 = Done (Ok tt) s2 ∧
    dir_search 100 {| sclust := 2; dclust := 0; dsect := 0; didx := 0 |} sample_name None s2 = Done (dir3, loc3, Err FAT_ERR_EOF) s3.
Proof.
  destruct (removed_name_is_gone 100 sample_volume 2 [2] sample_items
    {| it_start := 0; it_entry := 2; it_long := true; it_name := sample_name |} sample_name
    {| sclust := 2; dclust := 0; dsect := 0; didx := 0 |} None sample_mounted sample_directory sample_dir_items)
    as (dir1 & loc1 & s1 & s2 & v2 & before & after & E1 & E2 & _ & _ & _ & _ & Eits & H).
  - vm_compute. reflexivity.
  - reflexivity.
  - reflexivity.
  - reflexivity.
  - destruct (H sample_name {| sclust := 2; dclust := 0; dsect := 0; didx := 0 |} None eq_refl) as (dir3 & loc3 & r & s3 & E3 & Hm).
    exists dir1, loc1, s1, s2, dir3, loc3, s3. split; [exact E1|]. split; [exact E2|].
    assert (En : before = [] ∧ after = [{| it_start := 3; it_entry := 3; it_long := false; it_name := put_sfn_name kernel_img |}]).
    { destruct before as [|x [|y [|z before]]]; try discriminate Eits. injection Eits as <-. split; reflexivity. }
    destruct En as [-> ->]. assert (Ef : List.find (names sample_name)
      ([] ++ [{| it_start := 3; it_entry := 3; it_long := false; it_name := put_sfn_name kernel_img |}]) = None) by (vm_compute; reflexivity).
    rewrite Ef in Hm. rewrite E3, Hm. reflexivity.
Defined.
