(* ===== verification/PropPath.v ===== *)
(** * Properties of paths

    What following a path finds, what the calls on paths return where there is nothing,
    unlinking a file, and the types that every sequence of calls keeps. *)
From S2P Require Import Prelude.
From S2P Require Import CString.
From S2P Require Import FatNames.
From S2P Require Import FatTable.
From S2P Require Import FatCache.
From S2P Require Import FatChain.
From S2P Require Import FatFile.
From S2P Require Import FatMount.
From S2P Require Import FatDir.
From S2P Require Import FatCalls.
From S2P Require Import FatTypes.
From S2P Require Import FatSlots.
From S2P Require Import FatSearch.
From S2P Require Import FatPath.
From S2P Require Import FatDemo.
Local Open Scope Z_scope.
Local Open Scope fat_scope.

(** C28: Paths: a path of any length through directories with valid entries is followed to the
    entry it means, whose place it reports; to the root, if it names only the volume; or to
    an error, at the first name that is not there or below a file.  Nothing on the volume, as
    seen through its buffer, nor the list of volumes changes. *)
Theorem follow_path_resolves p v s path r d_fat dir :
  path_to p v s path r →
  ∃ w r' s', follow_path d_fat dir path s = Done (w, r') s' ∧ unchanged p v s s' ∧ w_fat w = Some p ∧
    match r with
    | Ok (Some pl) => r' = Ok tt ∧ at_slot (fat v) (pl_chain pl) (it_entry (pl_item pl)) (w_dir w) ∧
        (∀ v', volume_of p s' = Some v' → slots v (pl_chain pl) !! it_entry (pl_item pl) = Some (dir_entry (fat v') (w_dir w))) ∧
        ∃ d, at_slot (fat v) (pl_chain pl) (it_start (pl_item pl)) d ∧ w_loc w = Some (loc_of d)
    | Ok None => r' = Ok tt
    | Err e => r' = Err e
    end.
Proof.
  intros Hp. pose proof (wp_follow p v s path r d_fat dir Hp) as W. apply wp_done in W as ([w r'] & s' & E & Hw & H).
  exists w, r', s'. cbn [fst snd] in *. split; [exact E|]. destruct r as [[pl|]|e]; cbn [at_place] in H.
  - destruct H as (-> & Hl & Hd). split; [apply walking_unchanged, Hl|]. split; [done|]. split; [done|].
    split; [apply Hl|]. split; [apply Hl|exact Hd].
  - destruct H as (-> & Hwk). by split; [apply walking_unchanged|].
  - destruct H as (-> & Hwk). by split; [apply walking_unchanged|].
Qed.

(** ["/mnt/readme.markdown"] and ["/mnt/nothing"] on the sample volume *)
Definition mnt : list Z := [SLASH; 109; 110; 116; SLASH].
Definition sample_path : list Z := mnt ++ sample_name ++ [NUL].
Definition readme : place :=
  {| pl_clust := 2; pl_chain := [2]; pl_item := {| it_start := 0; it_entry := 2; it_long := true; it_name := sample_name |} |}.
Lemma sample_path_to : path_to 100 sample_volume sample_mounted sample_path (Ok (Some readme)).
Proof.
  split; [|reflexivity|apply sample_cache|reflexivity].
  exists (tail sample_path), 3. split; [reflexivity|]. split; [reflexivity|]. split; [done|]. split; [vm_compute; reflexivity|].
  eapply (rs_step _ _ _ _ 15 [2] sample_items (pl_item readme)); [reflexivity|done|exact sample_directory|exact sample_dir_items| | |].
  - vm_compute. reflexivity.
  - rewrite sample_slots. reflexivity.
  - apply rs_end. reflexivity.
Qed.
Definition missing_path : list Z := mnt ++ [110; 111; 116; 104; 105; 110; 103; NUL].
Lemma missing_path_to : path_to 100 sample_volume sample_mounted missing_path (Err FAT_ERR_EOF).
Proof.
  split; [|reflexivity|apply sample_cache|reflexivity].
  exists (tail missing_path), 3. split; [reflexivity|]. split; [reflexivity|]. split; [done|]. split; [vm_compute; reflexivity|].
  eapply (rs_missing _ _ _ _ 7 [2] sample_items); [reflexivity|done|exact sample_directory|exact sample_dir_items|].
  vm_compute. reflexivity.
Qed.
Lemma follow_path_resolves_witness :
  ∃ w s', follow_path None no_dir sample_path sample_mounted = Done (w, Ok tt) s' ∧
    at_slot (fat sample_volume) [2] 2 (w_dir w).
Proof.
  destruct (follow_path_resolves 100 sample_volume sample_mounted sample_path (Ok (Some readme)) None no_dir sample_path_to)
    as (w & r' & s' & E & _ & _ & Hr & Hat & _).
  exists w, s'. split; [rewrite E, Hr; reflexivity|exact Hat].
Defined.

(** C30: Paths to nothing: where a path leads to no entry, because a name is not there or is below
    a file, [fat_stat], [fat_unlink] and [fat_dir_open] return this error, and
    [fat_file_open] without [FAT_CREATE] that the access is denied, or the error if it is
    another; the file of the caller, the volume and the list of volumes stay as they were. *)
Theorem missing_path_fails p v s path e d_fat dir file flags :
  path_to p v s path (Err e) → has_flag flags FAT_CREATE = false →
  (∃ s', fat_stat path s = Done (Err e) s' ∧ unchanged p v s s') ∧
  (∃ s', fat_unlink path s = Done (Err e) s' ∧ unchanged p v s s') ∧
  (∃ dir' s', fat_dir_open d_fat dir path s = Done (Some p, dir', Err e) s' ∧ unchanged p v s s') ∧
  (∃ s', fat_file_open file path flags s = Done (None, file, Err (if e =? FAT_ERR_EOF then FAT_ERR_DENIED else e)) s' ∧
     unchanged p v s s').
Proof.
  intros Hp Hf.
  assert (H : ∀ d_fat dir, ∃ w s', follow_path d_fat dir path s = Done (w, Err e) s' ∧ w_fat w = Some p ∧ unchanged p v s s').
  { intros d_fat' dir'. pose proof (wp_follow p v s path _ d_fat' dir' Hp) as W.
    apply wp_done in W as ([w r'] & s' & E & Hw & Hr & Hwk). cbn [fst snd] in *. subst r'. exists w, s'. split; [exact E|]. split; [exact Hw|by apply walking_unchanged]. }
  destruct (H None no_dir) as (w & s' & E & Hw & Hu). destruct (H d_fat dir) as (w2 & s2 & E2 & Hw2 & Hu2).
  split_and!.
  - exists s'. split; [|done]. unfold fat_stat, mbind, M_bind. by rewrite E.
  - exists s'. split; [|done]. unfold fat_unlink, mbind, M_bind. by rewrite E.
  - exists (w_dir w2), s2. split; [|done]. unfold fat_dir_open, mbind, M_bind. rewrite E2. cbn [fst snd]. by rewrite Hw2.
  - exists s'. split; [|done]. unfold fat_file_open, mbind, M_bind. rewrite E. cbn [fst snd].
    destruct (e =? FAT_ERR_EOF); cbn [negb]; [by rewrite Hf|done].
Qed.
Lemma missing_path_fails_witness : ∃ s', fat_unlink missing_path sample_mounted = Done (Err FAT_ERR_EOF) s'.
Proof.
  destruct (missing_path_fails 100 sample_volume sample_mounted missing_path FAT_ERR_EOF None no_dir sample_file FAT_READ missing_path_to eq_refl)
    as (_ & (s' & E & _) & _). exists s'. exact E.
Defined.

(** C29: Unlinking: the file a path leads to, if it is neither a directory nor protected and its
    clusters are not those of the directory, is gone: its entries are free and the directory
    has the other names as before, its clusters are free in the table and counted, no other
    entry of the table and no sector outside the table, FsInfo and the directory changes,
    and nothing is left to be written. *)
Theorem unlink_removes_file p v s path pl its sfn lf :
  path_to p v s path (Ok (Some pl)) →
  directory v (pl_clust pl) (pl_chain pl) → dir_items (slots v (pl_chain pl)) 0 its → pl_item pl ∈ its →
  slots v (pl_chain pl) !! it_entry (pl_item pl) = Some sfn → ¬ root_slot (fat v) (pl_chain pl) (it_entry (pl_item pl)) →
  has_flag (get_le 1 11 sfn) (Z.lor FAT_ATTR_RO (Z.lor FAT_ATTR_SYS FAT_ATTR_LABEL)) = false →
  has_flag (get_le 1 11 sfn) FAT_ATTR_DIR = false →
  chain v (sfn_cluster sfn) lf → (∀ d, d ∈ pl_chain pl → d ∉ lf) → 0 ≤ free_cnt (fat v) < 2 ^ 32 →
  ∃ s' v', fat_unlink path s = Done (Ok tt) s' ∧ volume_of p s' = Some v' ∧ same_registry s s' ∧ unlinked pl its lf v v'.
Proof.
  intros H1 H2 H3 H4 H5 H6 H7 H8 H9 H10 H11.
  assert (W : wp (fat_unlink path) (λ r s', r = Ok tt ∧ ∃ v', volume_of p s' = Some v' ∧ same_registry s s' ∧ unlinked pl its lf v v') s).
  { eapply wp_fat_unlink; [eassumption..|]. intros v1 s' Hu Hv Hr. split; [done|]. by exists v1. }
  apply wp_done in W as (r & s' & E & -> & v' & Hv & Hr & Hu). by exists s', v'.
Qed.
Lemma unlink_removes_file_witness :
  ∃ s' v', fat_unlink sample_path sample_mounted = Done (Ok tt) s' ∧ volume_of 100 s' = Some v' ∧ free_cnt (fat v') = 125.
Proof.
  destruct (unlink_removes_file 100 sample_volume sample_mounted sample_path readme sample_items
    (sfn_entry (put_sfn_name sample_name) 0x20 3 33 33) [3; 4; 6] sample_path_to sample_directory sample_dir_items) as (s' & v' & E & Hv & _ & Hu).
  - left.
  - change (slots sample_volume [2] !! 2%nat = Some (sfn_entry (put_sfn_name sample_name) 0x20 3 33 33)).
    rewrite sample_slots. reflexivity.
  - intros (_ & _ & H). vm_compute in H. discriminate.
  - reflexivity.
  - reflexivity.
  - apply sample_chain.
  - intros d Hd. apply list_elem_of_singleton in Hd as ->. apply (bool_decide_unpack _). vm_compute. reflexivity.
  - split; reflexivity || discriminate.
  - exists s', v'. split; [exact E|]. split; [exact Hv|]. rewrite (un_count _ _ _ _ _ Hu). reflexivity.
Defined.

(** ** Any sequence of calls

    A program that uses the library: its open files and directories by address, and the calls
    it makes, in any order and with any arguments of their types, on a device with anything
    in its sectors. *)
(** *** A client of the library *)
Record client := { lib : library; files : gmap Z (option Z * File); dirs : gmap Z (option Z * Dir) }.
Inductive call :=
| Probe (partition : nat) | Mount (partition : nat) (p : Z) (name : list Z) | Umount (p : Z) | Sync (p : Z)
| Stat (path : list Z) | Unlink (path : list Z)
| OpenFile (q : Z) (path : list Z) (flags : Z)
| ReadFile (q len : Z) | WriteFile (q : Z) (src : list Z) | SeekFile (q off : Z) (mode : seek_mode)
| SyncFile (q : Z) | CloseFile (q : Z)
| CreateDir (q : Z) (path : list Z) | OpenDir (q : Z) (path : list Z)
| ReadDir (q : Z) | RewindDir (q : Z) | NextDir (q : Z).
(** What a call stores for its caller besides the error. *)
Inductive reply := Returned | Data (bytes : list Z) | Info (i : res DirInfo).

Definition on_lib {A} (m : L A) : M client A := λ u,
  match m (lib u) with
  | Done a s => Done a {| u with lib := s |}
  | Undefined => Undefined
  | Fuel => Fuel
  end.
Definition get_file (q : Z) : M client (option Z * File) := fs ← gets files; defined (fs !! q).
Definition get_dir (q : Z) : M client (option Z * Dir) := ds ← gets dirs; defined (ds !! q).
Definition put_file (q : Z) (x : option Z * File) : M client unit := modify (λ u, {| u with files := <[q := x]> (files u) |}).
Definition put_dir (q : Z) (x : option Z * Dir) : M client unit := modify (λ u, {| u with dirs := <[q := x]> (dirs u) |}).
(** A call on an open file; one whose volume is NULL is refused. *)
Definition file_call {A} (q : Z) (c : M session A) (k : A → reply) : M client reply :=
  x ← get_file q;
  match x.1 with
  | None => mret Returned
  | Some p => r ← on_lib (on_file p x.2 c); put_file q (x.1, r.1);; mret (k r.2)
  end.
Definition dir_call {A} (q : Z) (c : option Z → Dir → L (Dir * A)) (k : A → reply) : M client reply :=
  x ← get_dir q; r ← on_lib (c x.1 x.2); put_dir q (x.1, r.1);; mret (k r.2).
Definition path_call (q : Z) (path : list Z) (c : option Z → Dir → list Z → L (option Z * Dir * res unit)) : M client reply :=
  x ← get_dir q; r ← on_lib (c x.1 x.2 path); put_dir q r.1;; mret Returned.
Definition perform (c : call) : M client reply :=
  match c with
  | Probe n => _ ← on_lib (fat_probe n); mret Returned
  | Mount n p name => _ ← on_lib (fat_mount n p name); mret Returned
  | Umount p => _ ← on_lib (fat_umount p); mret Returned
  | Sync p => _ ← on_lib (fat_sync p); mret Returned
  | Stat path => i ← on_lib (fat_stat path); mret (Info i)
  | Unlink path => _ ← on_lib (fat_unlink path); mret Returned
  | OpenFile q path flags => x ← get_file q; r ← on_lib (fat_file_open x.2 path flags); put_file q r.1;; mret Returned
  | ReadFile q len => file_call q (fat_file_read len) (λ r, Data r.1)
  | WriteFile q src => file_call q (fat_file_write src) (λ _, Returned)
  | SeekFile q off mode => file_call q (fat_file_seek off mode) (λ _, Returned)
  | SyncFile q => file_call q fat_file_sync (λ _, Returned)
  | CloseFile q => file_call q fat_file_close (λ _, Returned)
  | CreateDir q path => path_call q path fat_dir_create
  | OpenDir q path => path_call q path fat_dir_open
  | ReadDir q => dir_call q fat_dir_read Info
  | RewindDir q => dir_call q fat_dir_rewind (λ _, Returned)
  | NextDir q => dir_call q fat_dir_next (λ _, Returned)
  end.
Fixpoint perform_all (l : list call) : M client (list reply) :=
  match l with
  | [] => mret []
  | c :: l' => r ← perform c; rs ← perform_all l'; mret (r :: rs)
  end.

(** ** Types *)
Definition args_typed (c : call) : Prop :=
  match c with
  | Mount _ _ s | Stat s | Unlink s | WriteFile _ s | CreateDir _ s | OpenDir _ s => bytes_ok s
  | OpenFile _ s flags => bytes_ok s ∧ fits 8 flags
  | _ => True
  end.
Definition reply_typed (r : reply) : Prop :=
  match r with Returned => True | Data l => bytes_ok l | Info i => good info_typed i end.
Record client_typed (u : client) : Prop := {
  ct_lib : lib_typed (fits 16) (lib u); ct_files : map_Forall (λ _ x, file_typed x.2) (files u);
  ct_dirs : map_Forall (λ _ x, dir_typed x.2) (dirs u)
}.

Lemma safe_on_lib {A} (P : A → Prop) (m : L A) : safe (lib_typed (fits 16)) P m → safe client_typed P (on_lib m).
Proof.
  intros H u []. specialize (H (lib u) ltac:(done)). unfold wlp, on_lib in *. destruct (m (lib u)); [|done..].
  destruct H. by split; [split|].
Qed.
Lemma safe_get_file q : safe client_typed (λ x, file_typed x.2) (get_file q).
Proof.
  intros u Hu. unfold get_file. apply wlp_bind. unfold wlp at 1, gets. apply wlp_defined. intros x Hx. split; [done|]. by eapply ct_files.
Qed.
Lemma safe_get_dir q : safe client_typed (λ x, dir_typed x.2) (get_dir q).
Proof.
  intros u Hu. unfold get_dir. apply wlp_bind. unfold wlp at 1, gets. apply wlp_defined. intros x Hx. split; [done|]. by eapply ct_dirs.
Qed.
Lemma safe_put_file q x : file_typed x.2 → safe client_typed any (put_file q x).
Proof. intros Hx. apply safe_modify. intros u []. split; [done|by apply map_Forall_insert_2|done]. Qed.
Lemma safe_put_dir q x : dir_typed x.2 → safe client_typed any (put_dir q x).
Proof. intros Hx. apply safe_modify. intros u []. split; [done..|by apply map_Forall_insert_2]. Qed.
#[export] Hint Resolve safe_on_lib safe_get_file safe_get_dir safe_put_file safe_put_dir : safe.
#[export] Hint Resolve safe_fat_stat safe_fat_unlink safe_fat_file_open safe_fat_dir_create safe_fat_dir_open : safe.

Lemma safe_file_call {A} q (P : A → Prop) (c : M session A) k :
  safe session_typed P c → (∀ a, P a → reply_typed (k a)) → safe client_typed reply_typed (file_call q c k).
Proof.
  intros Hc Hk. unfold file_call. safe_step. safe_step; [|by apply safe_ret].
  eapply safe_bind; [apply safe_on_lib, safe_on_file; [done|exact Hc]|]. intros r [Hr Ha].
  eapply safe_bind; [by apply safe_put_file|]. intros _ _. apply safe_ret. auto.
Qed.
Lemma safe_dir_call {A} q (P : A → Prop) (c : option Z → Dir → L (Dir * res A)) k :
  (∀ o d, dir_typed d → safe (lib_typed (fits 16)) (at_typed P) (c o d)) → (∀ a, good P a → reply_typed (k a)) →
  safe client_typed reply_typed (dir_call q c k).
Proof.
  intros Hc Hk. unfold dir_call. safe_step. eapply safe_bind; [by apply safe_on_lib, Hc|]. intros r [Hr Ha].
  eapply safe_bind; [by apply safe_put_dir|]. intros _ _. apply safe_ret. auto.
Qed.
Lemma safe_path_call q path c :
  (∀ o d, dir_typed d → safe (lib_typed (fits 16)) made_typed (c o d path)) → safe client_typed reply_typed (path_call q path c).
Proof.
  intros Hc. unfold path_call. safe_step. eapply safe_bind; [by apply safe_on_lib, Hc|]. intros r Hr.
  eapply safe_bind; [by apply safe_put_dir|]. intros _ _. by apply safe_ret.
Qed.
Lemma safe_perform c : args_typed c → safe client_typed reply_typed (perform c).
Proof.
  destruct c; cbn [args_typed perform]; intros Ha;
    try (safe_step; by apply safe_ret); try (eapply safe_file_call; [by eauto with safe|done]);
    try (apply (safe_dir_call _ any); [by eauto with safe|done]); try (apply safe_path_call; by eauto with safe).
  - destruct Ha as [Hp Hf]. safe_step. eapply safe_bind; [by apply safe_on_lib, safe_fat_file_open|]. intros r Hr.
    eapply safe_bind; [by apply safe_put_file|]. intros _ _. by apply safe_ret.
  - by apply (safe_dir_call _ info_typed); [intros; apply safe_fat_dir_read|].
Qed.
Lemma safe_perform_all l : Forall args_typed l → safe client_typed (Forall reply_typed) (perform_all l).
Proof.
  induction 1 as [|c l Hc Hl IH]; cbn [perform_all]; [by apply safe_ret|].
  eapply safe_bind; [by apply safe_perform|]. intros r Hr. eapply safe_bind; [exact IH|]. intros rs Hrs.
  apply safe_ret. by constructor.
Qed.

(** ** Types *)

(** C31: Types: whatever is in the sectors of the device, after any sequence of calls with
    arguments of their types, every number of the mounted volumes, the open files and the
    directories is in the width of its field, every buffer has its size and holds bytes, the
    device was given whole sectors, every position is one of an entry in a sector; and what
    the calls stored is in its type, a name in at most 255 bytes. *)
Theorem calls_keep_types l u rs u' :
  client_typed u → Forall args_typed l → perform_all l u = Done rs u' → client_typed u' ∧ Forall reply_typed rs.
Proof. intros Hu Hl E. pose proof (safe_perform_all l Hl u Hu) as H. unfold wlp in H. by rewrite E in H. Qed.

(** On the sample volume a file is described, opened, written past a sector and closed. *)
Definition empty_file : File :=
  {| f_open := false; f_dir_sect := 0; f_sclust := 0; f_clust := 0; f_sect := 0; f_size := 0; f_offset := 0;
     f_dir_idx := 0; f_attr := 0; f_flags := 0; f_buf := blank |}.
Definition sample_client : client := {| lib := sample_mounted; files := {[ 7 := (None, empty_file) ]}; dirs := ∅ |}.
Definition readme_path : list Z := [SLASH; 109; 110; 116; SLASH] ++ sample_name ++ [NUL].
Definition sample_calls : list call :=
  [ Stat readme_path; OpenFile 7 readme_path (Z.lor FAT_READ FAT_WRITE); SeekFile 7 500 FAT_SEEK_START;
    WriteFile 7 [1; 2; 3]; ReadFile 7 20; CloseFile 7 ].
#[local] Instance byte_range_dec z : Decision (byte_range z).
Proof. unfold byte_range. apply _. Defined.
Definition sector_b (b : list Z) : bool := (length b =? 512)%nat && bool_decide (bytes_ok b).
Lemma sector_decided b : sector_b b = true → sector b.
Proof. intros [H1%Nat.eqb_eq H2]%andb_true_iff. split; [done|by apply bool_decide_eq_true_1 in H2]. Qed.
Lemma sample_client_typed : client_typed sample_client.
Proof.
  split.
  - split.
    + apply map_Forall_singleton. split; cbn [m_fat m_name_len m_name]; [|by split|reflexivity|by apply (bool_decide_unpack _); vm_compute].
      split; cbn; try (by split); apply sector_decided; vm_compute; reflexivity.
    + intros x b Hb. apply sector_decided. revert x b Hb.
      apply (bool_decide_unpack (map_Forall (λ _ b, sector_b b = true) (disk sample_volume))). vm_compute. exact I.
    + apply sector_decided. vm_compute. reflexivity.
    + by split.
    + by split.
  - apply map_Forall_singleton. split; cbn; try (by split); apply sector_decided; vm_compute; reflexivity.
  - apply map_Forall_empty.
Qed.
Lemma calls_keep_types_witness :
  ∃ rs u', perform_all sample_calls sample_client = Done rs u' ∧ length rs = 6%nat ∧ client_typed u'.
Proof.
  assert (E : ∃ rs u', perform_all sample_calls sample_client = Done rs u' ∧ length rs = 6%nat).
  { eexists _, _. split; [vm_compute; reflexivity|reflexivity]. }
  destruct E as (rs & u' & E & Hl). exists rs, u'. split; [exact E|]. split; [exact Hl|].
  apply (calls_keep_types sample_calls sample_client rs u' sample_client_typed); [|exact E].
  repeat constructor; by unfold byte_range.
Defined.
