(* ===== verification/PropMem.v ===== *)
(** * Properties of the memory of processes

    Mapping, loading code, the memory of a child and of an executed program, in terms of
    the translation of addresses and of the bytes a process sees. *)
From S2P Require Import Prelude.
From S2P Require Import Process.
From S2P Require Import Scheduler.
From S2P Require Import Mm.
From S2P Require Import Paging.
From S2P Require Import Fork.
From S2P Require Import UserMem.
From S2P Require Import ForkMem.
From S2P Require Import CString.
From S2P Require Import Exec.
From S2P Require Import ExecMem.
Local Open Scope Z_scope.

(** ** Mapping *)

Lemma heap_after_put p pcb m k : heap (put p pcb m k) !! p = Some pcb.
Proof. apply lookup_insert_eq. Qed.

(** C8: Mapping a page: in an address space whose tables are in order, with room for the
    tables that are missing, [map_page] makes the addresses of the page of [va] translate to
    the bytes of the given page, leaves the translation of every other address as it was,
    mapped or not, and the tables are in order again. *)
Theorem map_page_maps p pcb t va c s :
  heap s !! p = Some pcb → space_ok (mem s) pcb t → room (mem s) pcb (missing t va) →
  n_user_pages (mm pcb) < MAX_PROCESS_PAGES → c ∈ memory_pages (mem s) → (∀ x, t !! x ≠ Some (page_address c)) →
  0 ≤ va < 2 ^ 48 →
  ∃ s' pcb' t', map_page p va (page_address c) s = Done tt s' ∧ heap s' !! p = Some pcb' ∧ space_ok (mem s') pcb' t' ∧
    ∀ va', 0 ≤ va' < 2 ^ 48 → space_translate (mem s') pcb' va' =
      if decide (va' / PAGE_SIZE = va / PAGE_SIZE) then Some (page_address c + va' mod PAGE_SIZE)
      else space_translate (mem s) pcb va'.
Proof.
  intros Hp Hs Hr Hn Hc Hnew Hva.
  assert (H : wp (map_page p va (page_address c)) (λ _ s', ∃ m' pcb' t', s' = put p pcb' m' s ∧
    mapped va c (mem s) pcb t m' pcb' t') (put p pcb (mem s) s)).
  { apply (wp_map_page p va c (mem s) pcb t); eauto 10. }
  rewrite put_id in H by done.
  apply wp_done in H as ([] & s' & E & m' & pcb' & t' & -> & Hm). exists (put p pcb' m' s), pcb', t'.
  split; [exact E|]. split; [apply heap_after_put|]. split; [apply Hm|]. intros va' Hva'. cbn [mem put set_mem].
  case_decide as Hd.
  - apply space_translate_mapped with t'; [apply Hm|]. rewrite <- (mp_at _ _ _ _ _ _ _ _ Hm). f_equal. by apply path_of_page.
  - apply (mp_translate _ _ _ _ _ _ _ _ Hm). by rewrite path_of_page.
Qed.

(** A process without memory, in a machine with one page in use. *)
Definition sample_memory : memory := {| memory_pages := {[7]}; words := ∅ |}.
Definition sample_kernel : kernel := set_mem sample_memory (boot_kernel (λ _, 0)).
Lemma sample_space : space_ok sample_memory INIT_PROCESS ∅.
Proof.
  apply empty_space; try done. intros i. cbn. intros ->%elem_of_singleton. by vm_compute.
Qed.
Lemma sample_missing va : missing ∅ va = 4.
Proof. unfold missing, need. by rewrite !lookup_empty. Qed.

Lemma map_page_maps_witness :
  ∃ s' pcb', map_page InitProcess 4096 (page_address 7) sample_kernel = Done tt s' ∧
    heap s' !! InitProcess = Some pcb' ∧ space_translate (mem s') pcb' 4100 = Some (page_address 7 + 4) ∧
    space_translate (mem s') pcb' 8192 = None.
Proof.
  destruct (map_page_maps InitProcess INIT_PROCESS ∅ 4096 7 sample_kernel) as (s' & pcb' & t' & E & Hp & _ & H).
  - reflexivity.
  - exact sample_space.
  - rewrite sample_missing. split; by vm_compute.
  - by vm_compute.
  - cbn. set_solver.
  - intros x. by rewrite lookup_empty.
  - by vm_compute.
  - exists s', pcb'. split; [exact E|]. split; [exact Hp|].
    clear E Hp. split.
    + pose proof (H 4100 ltac:(by vm_compute)) as H1. rewrite decide_True in H1 by (vm_compute; reflexivity). exact H1.
    + rewrite H by by vm_compute. rewrite decide_False by (vm_compute; congruence). vm_compute. reflexivity.
Defined.

(** ** Loading code *)

(** The words of the saved registers of a process. *)
Definition regs_word (address y : Z) : Prop := ∃ k, 0 ≤ k < Z.of_nat PT_REGS_WORDS ∧ y = address + 8 * k.

(** Words that are written outside of the tables. *)
Lemma words_space m m' pcb t (S : Z → Prop) :
  space_ok m pcb t → memory_pages m' = memory_pages m → (∀ y, S y → stable m t y) →
  (∀ y, ¬ S y → word_at (words m') y = word_at (words m) y) → space_ok m' pcb t.
Proof.
  intros [Hm Hroot Hk Hu] Hp HS Hw. split; try done. apply (tables_frame m); [done|by rewrite Hp|rewrite Hp; apply Hm|].
  intros x a i Ha Hl Hi. apply Hw. intros Hin.
  exact (stable_slot m t x a i (slot a i) Hm Ha Hl Hi (HS _ Hin) eq_refl).
Qed.
Lemma zero_regs_in n address w k : 0 ≤ k < Z.of_nat n → word_at (zero_words n address w) (address + 8 * k) = 0.
Proof.
  intros Hk. rewrite zero_words_spec. replace (address + 8 * k - address) with (k * 8) by lia.
  rewrite decide_True; [done|]. split; [by apply Z.mod_mul|lia].
Qed.
Lemma zero_regs_out address w y :
  ¬ regs_word address y → word_at (zero_words PT_REGS_WORDS address w) y = word_at w y.
Proof.
  intros Hy. rewrite zero_words_spec, decide_False; [done|]. intros [H1 H2]. apply Hy.
  exists ((y - address) / 8). pose proof (Z.div_mod (y - address) 8). lia.
Qed.

(** The saved registers a program starts with: [sp], [pc] and [pstate] behind 31 zeros. *)
Definition start_register (pc k : Z) : Z := if k =? 31 then USER_SIZE else if k =? 32 then pc else 0.
Definition user_registers (regs pc : Z) (w : gmap Z Z) : gmap Z Z :=
  <[regs + PT_REGS_SP := u64 (16 * PAGE_SIZE)]> (<[regs + PT_REGS_PC := u64 pc]>
    (<[regs + PT_REGS_PSTATE := u64 PSR_MODE_EL0t]> (zero_words PT_REGS_WORDS regs w))).
Lemma user_registers_spec regs pc w :
  regs mod 8 = 0 → 0 ≤ pc < 2 ^ 64 →
  (∀ k, 0 ≤ k < Z.of_nat PT_REGS_WORDS → word_at (user_registers regs pc w) (regs + 8 * k) = start_register pc k) ∧
  (∀ y, ¬ regs_word regs y → word_at (user_registers regs pc w) y = word_at w y).
Proof.
  intros Hr Hpc. unfold user_registers, PT_REGS_SP, PT_REGS_PC, PT_REGS_PSTATE, start_register. split.
  - intros k Hk. rewrite !word_at_insert, zero_regs_in by done. rewrite (u64_small pc) by done.
    destruct (Z.eqb_spec k 31) as [->|]; [by rewrite decide_True|]. rewrite decide_False by lia.
    destruct (Z.eqb_spec k 32) as [->|]; [by rewrite decide_True|]. rewrite decide_False by lia.
    by case_decide.
  - intros y Hy. assert (Hk : ∀ k, 0 ≤ k < 34 → y ≠ regs + 8 * k) by (intros k Hk ->; apply Hy; by exists k).
    rewrite !word_at_insert, !decide_False by (apply Hk; lia). by apply zero_regs_out.
Qed.

(** Entering user mode: [move_to_user_mode] gives the current process 16 pages at the
    addresses from 0 on, which hold the code followed by zeros, makes its page tables
    the ones in use, and leaves saved registers that start it at [pc] with an empty
    stack at the end of its memory. *)
Theorem user_mode_entry init_process_address p pcb t start size pc s :
  let regs := task_pt_regs init_process_address p in
  current_process s = p → heap s !! p = Some pcb → space_ok (mem s) pcb t → page_room 16 0 (mem s) pcb t →
  regs mod 8 = 0 → (∀ y, regs_word regs y → stable (mem s) t y) → 0 ≤ pc < 2 ^ 64 → 0 ≤ size →
  (∀ x, 0 ≤ x < size → stable (mem s) t (word_of (start + x)) ∧ ¬ regs_word regs (word_of (start + x))) →
  ∃ s' pcb', move_to_user_mode init_process_address start size pc s = Done 0 s' ∧
    heap s' !! p = Some pcb' ∧ ttbr0_el1 s' = pgd (mm pcb') ∧ n_user_pages (mm pcb') = n_user_pages (mm pcb) + 16 ∧
    (∀ va, 0 ≤ va < USER_SIZE → space_byte (mem s') pcb' va =
       Some (image (λ x, byte_at (words (mem s)) (start + x)) size va)) ∧
    ∀ k, 0 ≤ k < Z.of_nat PT_REGS_WORDS → word_at (words (mem s')) (regs + 8 * k) = start_register pc k.
Proof.
  intros regs Hc Hp Hs Hr Hal Hregs Hpc Hsize Hsrc.
  assert (H : wp (move_to_user_mode init_process_address start size pc) (λ r s', r = 0 ∧ ∃ m' pcb',
    s' = set_ttbr0_el1 (pgd (mm pcb')) (put p pcb' m' s) ∧ n_user_pages (mm pcb') = n_user_pages (mm pcb) + 16 ∧
    sees m' pcb' (image (λ x, byte_at (words (mem s)) (start + x)) size) ∧
    ∀ k, 0 ≤ k < Z.of_nat PT_REGS_WORDS → word_at (words m') (regs + 8 * k) = start_register pc k) (put p pcb (mem s) s)).
  { unfold move_to_user_mode. apply wp_bind, wp_gets.
    change (current_process (put p pcb (mem s) s)) with (current_process s). rewrite Hc. fold regs. cbn zeta.
    do 4 (apply wp_bind; unfold memzero, write_word; apply wp_words_put).
    set (m1 := {| memory_pages := _ |}).
    destruct (user_registers_spec regs pc (words (mem s)) Hal Hpc) as [Hv Hw].
    change (user_registers regs pc (words (mem s))) with (words m1) in Hv, Hw.
    assert (Hs1 : space_ok m1 pcb t) by by eapply (words_space (mem s)).
    apply wp_bind. eapply (wp_copy_code p start size m1 pcb t); [done|done|by apply (page_room_same _ _ (mem s))| |].
    { intros x Hx. destruct (Hsrc x Hx) as [H1 H2]. split; [exact H1|]. apply byte_at_word, (Hw _ H2). }
    intros m2 pcb2 t2 [A1 A2 A3 _ _ (s2 & E2 & A4)] _ Hsee. apply wp_bind. unfold load_current. apply wp_bind, wp_gets.
    change (current_process (put p pcb2 m2 s)) with (current_process s). rewrite Hc. apply wp_load_put.
    apply wp_bind. unfold set_pgd. apply wp_modify, wp_ret. split; [done|]. exists m2, pcb2. split; [done|].
    split; [by rewrite E2; cbn; lia|]. split; [done|]. intros k Hk. rewrite <- Hv by done. apply A3.
    - apply (Hregs (regs + 8 * k)). by exists k.
    - unfold word_of. replace (regs + 8 * k) with (regs + k * 8) by lia. rewrite Z_mod_plus_full, Hal. lia. }
  rewrite put_id in H by done. apply wp_done in H as (r & s' & E & -> & m' & pcb' & -> & H1 & H2 & H3).
  eexists _, pcb'. split; [exact E|]. split; [apply lookup_insert_eq|]. by split_and!.
Qed.

(** The kernel image lies below the pages. *)
Lemma low_stable m t y : y < LOW_MEMORY + VA_START → stable m t y.
Proof.
  intros Hy i Hi Hin. exfalso. unfold in_page, page_address in Hin. change PAGE_SIZE with 4096 in Hin. lia.
Qed.
Lemma sample_room : page_room 16 0 sample_memory INIT_PROCESS ∅.
Proof. split; rewrite ?sample_missing; by vm_compute. Qed.

Lemma user_mode_entry_witness :
  ∃ s' pcb', move_to_user_mode (VA_START + 0x80000) (VA_START + 0x90000) 5000 64 sample_kernel = Done 0 s' ∧
    heap s' !! InitProcess = Some pcb' ∧ space_byte (mem s') pcb' 6000 = Some 0.
Proof.
  destruct (user_mode_entry (VA_START + 0x80000) InitProcess INIT_PROCESS ∅ (VA_START + 0x90000) 5000 64 sample_kernel)
    as (s' & pcb' & E & Hp & _ & _ & Hb & _).
  - reflexivity.
  - reflexivity.
  - exact sample_space.
  - exact sample_room.
  - reflexivity.
  - intros y (k & Hk & ->). apply low_stable. unfold task_pt_regs, pcb_address, THREAD_SIZE, PT_REGS_SIZE, PT_REGS_WORDS in *.
    change LOW_MEMORY with 4194304. lia.
  - by vm_compute.
  - by vm_compute.
  - intros x Hx. assert (Hw : VA_START + 0x90000 ≤ word_of (VA_START + 0x90000 + x) < VA_START + 0x90000 + 5000).
    { unfold word_of. pose proof (Z.mod_pos_bound (VA_START + 0x90000 + x) 8 ltac:(lia)).
      pose proof (Z.div_mod (VA_START + 0x90000 + x) 8 ltac:(lia)). unfold VA_START in *. lia. }
    split; [apply low_stable; change LOW_MEMORY with 4194304; lia|]. intros (k & Hk & E).
    unfold task_pt_regs, pcb_address, THREAD_SIZE, PT_REGS_SIZE, PT_REGS_WORDS in *. lia.
  - exists s', pcb'. split; [exact E|]. split; [exact Hp|]. clear E Hp.
    rewrite (Hb 6000) by by vm_compute. unfold image. by destruct (Z.ltb_spec 6000 5000); [lia|].
Defined.

(** ** The memory of a child *)

(** C7: A child has a copy of its parent's memory: for a parent whose user pages are listed
    in its PCB and mapped at distinct low addresses, and a child without memory, with
    room for the copies, [copy_virtual_memory] succeeds; at every address of those pages the
    child then finds the byte the parent had there, in a place of its own, and the parent
    finds it too; the PCB of the parent does not change. *)
Theorem child_memory_copied parent child pcb t pcbc s :
  child ≠ parent → current_process s = parent → heap s !! parent = Some pcb → heap s !! child = Some pcbc →
  forkable (mem s) pcb t → space_ok (mem s) pcbc ∅ → n_user_pages (mm pcbc) = 0 →
  page_room (n_user_pages (mm pcb)) 0 (mem s) pcbc ∅ →
  ∃ s' pcbc', copy_virtual_memory child s = Done 0 s' ∧ heap s' !! parent = Some pcb ∧ heap s' !! child = Some pcbc' ∧
    ∀ va, (∃ j page, 0 ≤ j < n_user_pages (mm pcb) ∧ user_pages (mm pcb) !! Z.to_nat j = Some page ∧
             va / PAGE_SIZE = Process.virtual_address page / PAGE_SIZE) →
      is_Some (space_byte (mem s) pcb va) ∧
      space_byte (mem s') pcbc' va = space_byte (mem s) pcb va ∧ space_byte (mem s') pcb va = space_byte (mem s) pcb va ∧
      space_translate (mem s') pcbc' va ≠ space_translate (mem s') pcb va.
Proof.
  intros Hne Hc Hp Hch Hf Hs Hn Hr.
  assert (H : wp (copy_virtual_memory child) (λ r s', r = 0 ∧ ∃ m' pcbc' t', s' = put child pcbc' m' s ∧
    pages_added (n_user_pages (mm pcb)) (mem s) pcbc ∅ m' pcbc' t' ∧
    copied_pages pcb (n_user_pages (mm pcb)) (mem s) m' t') (put child pcbc (mem s) s)).
  { apply (wp_copy_virtual_memory parent child (mem s) pcb t); eauto 10. }
  rewrite put_id in H by done. apply wp_done in H as (r & s' & E & -> & m' & pcbc' & t' & -> & Hadd & Hcp).
  exists (put child pcbc' m' s), pcbc'. split; [exact E|].
  split; [cbn; by rewrite lookup_insert_ne|]. split; [apply heap_after_put|].
  intros va Hva. by eapply (copied_byte (mem s) pcb t m' pcbc pcbc' t' va).
Qed.

(** A process with one page, at address 0. *)
Lemma sample_parent :
  ∃ m pcb t c, forkable m pcb t ∧ n_user_pages (mm pcb) = 1 ∧
    user_pages (mm pcb) !! 0%nat = Some {| physical_address := page_address c; Process.virtual_address := 0 |} ∧
    pgd (mm pcb) ≠ 0 ∧ n_kernel_pages (mm pcb) = 4 ∧ Z.of_nat (size (memory_pages m)) = 6 ∧ missing t 0 = 0.
Proof.
  pose proof (page_room_weaken 16 1 _ _ _ _ ltac:(lia) sample_room) as Hr1.
  assert (H : wp (allocate_user_page InitProcess 0) (λ _ _, ∃ c m pcb t,
    allocated 0 c sample_memory INIT_PROCESS ∅ m pcb t) (put InitProcess INIT_PROCESS sample_memory sample_kernel)).
  { apply (wp_allocate_user_page InitProcess 0 sample_memory INIT_PROCESS ∅); [exact sample_space|exact Hr1|eauto 10]. }
  apply (proj1 (wp_done _ _ _)) in H. destruct H as (r & s' & E & c & m & pcb & t & Ha). clear r s' E.
  pose proof (al_mapped _ _ _ _ _ _ _ _ Ha) as Hm.
  pose proof (mp_size _ _ _ _ _ _ _ _ Hm) as Hz. rewrite sample_missing in Hz. cbn [memory_pages with_page] in Hz.
  pose proof (free_index_range _ _ (al_free _ _ _ _ _ _ _ _ Ha)) as [_ Hc].
  rewrite size_union, size_singleton in Hz by set_solver. cbn [sample_memory memory_pages] in Hz. rewrite size_singleton in Hz.
  destruct (mp_pcb _ _ _ _ _ _ _ _ Hm) as (g & ks & Ep). rewrite sample_missing in Ep.
  exists m, pcb, t, c. split_and!.
  - split; [apply Hm| |by rewrite Ep; apply NoDup_singleton]. intros i Hi. rewrite Ep in Hi. cbn in Hi.
    assert (i = 0) as -> by lia. exists c, 0. rewrite Ep. split; [done|]. split; [by vm_compute|]. split; [done|]. apply Hm.
  - by rewrite Ep.
  - by rewrite Ep.
  - intros E0. pose proof (mp_space _ _ _ _ _ _ _ _ Hm) as Hs'. pose proof (so_root _ _ _ Hs') as R. rewrite E0 in R.
    pose proof (mp_at _ _ _ _ _ _ _ _ Hm) as A. by rewrite (no_root m t _ (so_tables _ _ _ Hs') R) in A.
  - by rewrite Ep.
  - lia.
  - exact (allocated_missing Ha).
Qed.

Lemma child_memory_copied_witness :
  ∃ s s' pcbc', copy_virtual_memory (KernelPage 0) s = Done 0 s' ∧ heap s' !! KernelPage 0 = Some pcbc' ∧
    is_Some (space_byte (mem s') pcbc' 100).
Proof.
  destruct sample_parent as (m & pcb & t & c & Hf & Hn & Hl & _ & _ & Hz & _).
  set (s := put (KernelPage 0) zero_PCB m (put InitProcess pcb m sample_kernel)).
  destruct (child_memory_copied InitProcess (KernelPage 0) pcb t zero_PCB s) as (s' & pcbc' & E & _ & Hc & H).
  - discriminate.
  - reflexivity.
  - reflexivity.
  - reflexivity.
  - exact Hf.
  - apply empty_space; [apply (so_tables _ _ _ (fk_space _ _ _ Hf))|reflexivity|reflexivity|cbn; lia|reflexivity|cbn; lia].
  - reflexivity.
  - rewrite Hn. split; rewrite ?sample_missing; [|by vm_compute|by vm_compute].
    change (mem s) with m. rewrite Hz. by vm_compute.
  - exists s, s', pcbc'. split; [exact E|]. split; [exact Hc|]. clear E Hc.
    destruct (H 100) as ([b Hb] & H2 & _).
    + exists 0, {| physical_address := page_address c; Process.virtual_address := 0 |}. rewrite Hn. split; [lia|].
      split; [exact Hl|reflexivity].
    + exists b. rewrite H2. exact Hb.
Defined.

(** ** An executed program *)

(** The bytes of the arguments on the new stack: argument [i] has a row of 64 bytes, from
    the end of the memory downwards. *)
Definition argument_address (i : Z) : Z := USER_SIZE - SYSCALL_EXEC_ARGUMENT_DIMENSION * (i + 1).
Lemma pushed_args_spec args sp f :
  Forall argument_ok args →
  (∀ x, x < sp - SYSCALL_EXEC_ARGUMENT_DIMENSION * Z.of_nat (length args) → pushed_args sp args f x = f x) ∧
  (∀ i a o, args !! i = Some a → (o ≤ length a)%nat →
     pushed_args sp args f (sp - SYSCALL_EXEC_ARGUMENT_DIMENSION * (Z.of_nat i + 1) + Z.of_nat o) = nth o (a ++ [NUL]) 0) ∧
  (∀ x, sp ≤ x → pushed_args sp args f x = f x).
Proof.
  unfold SYSCALL_EXEC_ARGUMENT_DIMENSION. intros H. revert sp f.
  induction H as [|a args (Hn & Hb & Hl) H IH]; intros sp f; cbn [pushed_args length].
  { split_and!; [done|by intros i a o|done]. }
  unfold SYSCALL_EXEC_ARGUMENT_DIMENSION in *. destruct (IH (sp - 64) (over (sp - 64) (a ++ [NUL]) f)) as (H1 & H2 & H3).
  split_and!.
  - intros x Hx. rewrite H1 by lia. unfold over. by rewrite decide_False by lia.
  - intros [|i] b o Hi Ho.
    + injection Hi as ->. rewrite H3 by lia. unfold over. rewrite length_app. cbn [length].
      rewrite decide_True by lia. f_equal. lia.
    + rewrite <- (H2 i b o Hi Ho). f_equal. lia.
  - intros x Hx. rewrite H3 by lia. unfold over. rewrite decide_False; [done|].
    rewrite length_app. cbn [length]. lia.
Qed.
Lemma pushed_frame_lookup n i sp frame j :
  0 ≤ i → (Z.to_nat i + n < length frame)%nat →
  pushed_frame i sp n frame !! j =
  if decide (Z.to_nat i < j ≤ Z.to_nat i + n)%nat
  then Some (sp - SYSCALL_EXEC_ARGUMENT_DIMENSION * (Z.of_nat j - i)) else frame !! j.
Proof.
  revert i sp frame. induction n as [|n IH]; intros i sp frame Hi Hl; cbn [pushed_frame].
  { by rewrite decide_False by lia. }
  rewrite IH by (rewrite ?length_insert; lia). unfold SYSCALL_EXEC_ARGUMENT_DIMENSION.
  destruct (decide (j = Z.to_nat (i + 1))) as [->|Hne].
  - rewrite decide_False by lia. rewrite decide_True by lia. rewrite list_lookup_insert_eq by lia. f_equal. lia.
  - rewrite list_lookup_insert_ne by done. destruct (decide (Z.to_nat (i + 1) < j ≤ Z.to_nat (i + 1) + n)%nat).
    + rewrite decide_True by lia. f_equal. lia.
    + by rewrite decide_False by lia.
Qed.

(** C6: Executing a program: with the code of at most 15 pages read into a buffer outside of
    the memory of the process, and at most 30 arguments of at most 63 bytes,
    [exec_image] gives the old pages back and leaves a process that finds the code at the
    addresses from 0 on and argument [i] as a terminated string at the address in saved
    register [i + 1], with their number in register 0, its stack below them, and 0 as
    program counter. *)
Theorem exec_replaces_program p pcb t buffer size args arguments frame s :
  current_process s = p → heap s !! p = Some pcb → ttbr0_el1 s = pgd (mm pcb) → executable (mem s) pcb t →
  code_at (mem s) pcb t buffer size (λ x, byte_at (words (mem s)) (buffer + x)) → size ≤ EXEC_MAX_CODE →
  Forall argument_ok args → Forall2 (λ a b, ∃ rest, b = a ++ NUL :: rest) args arguments →
  (length args ≤ 30)%nat → length frame = 34%nat →
  ∃ safe frame' s' pcb', save_arguments (length args) arguments = Some safe ∧
    exec_image buffer size safe (Z.of_nat (length args)) frame s = Done frame' s' ∧ heap s' !! p = Some pcb' ∧
    n_user_pages (mm pcb') = 16 ∧ ttbr0_el1 s' = pgd (mm pcb') ∧ pc (cpu_context pcb') = 0 ∧
    (∀ va, 0 ≤ va < size → space_byte (mem s') pcb' va = Some (byte_at (words (mem s)) (buffer + va))) ∧
    frame' !! 0%nat = Some (Z.of_nat (length args)) ∧
    (∀ i a, args !! i = Some a → frame' !! S i = Some (argument_address (Z.of_nat i)) ∧
       ∀ o, (o ≤ length a)%nat →
         space_byte (mem s') pcb' (argument_address (Z.of_nat i) + Z.of_nat o) = Some (nth o (a ++ [NUL]) 0)) ∧
    frame' !! 31%nat = Some (argument_address (Z.of_nat (length args) - 1)) ∧ frame' !! 32%nat = Some 0.
Proof.
  intros Hc Hp Htt Hex Hcode Hsize Hargs Hall Hn Hframe.
  pose proof (save_arguments_rows _ _ Hargs Hall) as Hsave.
  assert (H : wp (exec_image buffer size (saved_row <$> args) (Z.of_nat (length args)) frame) (λ r s', ∃ m' pcb',
    s' = put p pcb' m' s ∧ r = exec_frame (length args) frame ∧
    sees m' pcb' (pushed_args USER_SIZE args (image (λ x, byte_at (words (mem s)) (buffer + x)) size)) ∧
    n_user_pages (mm pcb') = 16 ∧ pgd (mm pcb') = pgd (mm pcb) ∧ pc (cpu_context pcb') = 0) (put p pcb (mem s) s)).
  { apply (wp_exec_image p s Hc (mem s) pcb t buffer size (λ x, byte_at (words (mem s)) (buffer + x))); try done; [lia|].
    intros m' pcb' t' Hs' Hsee Hu Hg Hcpu. exists m', pcb'. split_and!; try done. by rewrite Hcpu. }
  rewrite put_id in H by done. apply wp_done in H as (frame' & s' & E & m' & pcb' & -> & -> & Hsee & Hu & Hg & Hpc).
  exists (saved_row <$> args), (exec_frame (length args) frame), (put p pcb' m' s), pcb'.
  destruct (pushed_args_spec args USER_SIZE (image (λ x, byte_at (words (mem s)) (buffer + x)) size) Hargs) as (P1 & P2 & _).
  assert (Hus : USER_SIZE = 65536) by reflexivity. assert (Hmax : EXEC_MAX_CODE = 61440) by reflexivity.
  unfold argument_address, SYSCALL_EXEC_ARGUMENT_DIMENSION in *.
  assert (Hf : ∀ j, (j ≤ 30)%nat → exec_frame (length args) frame !! j =
    pushed_frame 0 USER_SIZE (length args) (<[0%nat := u64 (Z.of_nat (length args))]> frame) !! j).
  { intros j Hj. unfold exec_frame, TRAP_PC, TRAP_SP. rewrite !list_lookup_insert_ne; [done|lia|lia]. }
  assert (Hlk : ∀ j, pushed_frame 0 USER_SIZE (length args) (<[0%nat := u64 (Z.of_nat (length args))]> frame) !! j = _)
    by (intros j; apply pushed_frame_lookup; rewrite ?length_insert; lia).
  unfold SYSCALL_EXEC_ARGUMENT_DIMENSION in Hlk.
  split_and!; try done.
  - apply heap_after_put.
  - cbn. by rewrite Htt, Hg.
  - intros va Hva. cbn [mem put set_mem]. rewrite Hsee by lia. rewrite P1 by lia. unfold image.
    by destruct (Z.ltb_spec va size); [|lia].
  - rewrite Hf, Hlk by lia. rewrite decide_False by lia. rewrite list_lookup_insert_eq by lia.
    rewrite u64_small by lia. done.
  - intros i a Hi. pose proof (lookup_lt_Some _ _ _ Hi). split.
    + rewrite Hf, Hlk by lia. rewrite decide_True by lia. f_equal. lia.
    + intros o Ho. cbn [mem put set_mem]. pose proof (proj1 (Forall_lookup _ _) Hargs i a Hi) as (_ & _ & Hl).
      unfold SYSCALL_EXEC_ARGUMENT_DIMENSION in Hl. rewrite Hsee by lia. f_equal. by apply P2.
  - unfold exec_frame. rewrite list_lookup_insert_ne by done.
    rewrite list_lookup_insert_eq; [|rewrite pushed_frame_length, length_insert, Hframe; vm_compute; lia].
    unfold SYSCALL_EXEC_ARGUMENT_DIMENSION. f_equal. lia.
  - unfold exec_frame. rewrite list_lookup_insert_eq; [done|].
    rewrite length_insert, pushed_frame_length, length_insert, Hframe. vm_compute. lia.
Qed.

(** The arguments ["sh"] and ["-x"]. *)
Definition sample_args : list (list Z) := [[115; 104]; [45; 120]].
Lemma exec_replaces_program_witness :
  ∃ s frame' s' pcb', exec_image (VA_START + 0x90000) 5000 (saved_row <$> sample_args) 2 (replicate 34 0) s = Done frame' s' ∧
    heap s' !! InitProcess = Some pcb' ∧ frame' !! 1%nat = Some 65472 ∧ space_byte (mem s') pcb' 65472 = Some 115.
Proof.
  destruct sample_parent as (m & pcb & t & c & Hf & Hn & Hl & Hg & Hk & Hz & Hmiss).
  set (s := set_ttbr0_el1 (pgd (mm pcb)) (put InitProcess pcb m sample_kernel)).
  destruct (fk_listed _ _ _ Hf 0) as (c' & va & Hl' & _ & _ & Ht); [lia|].
  assert (c' = c) as ->. { change (Z.to_nat 0) with 0%nat in Hl'. rewrite Hl in Hl'. injection Hl' as E1 _. symmetry. by apply page_address_inj. }
  pose proof (so_tables _ _ _ (fk_space _ _ _ Hf)) as Hm.
  assert (Hlow : ∀ x, 0 ≤ x < 5000 → word_of (VA_START + 0x90000 + x) < LOW_MEMORY + VA_START).
  { intros x Hx. unfold word_of. pose proof (Z.mod_pos_bound (VA_START + 0x90000 + x) 8 ltac:(lia)).
    change LOW_MEMORY with 4194304. lia. }
  destruct (exec_replaces_program InitProcess pcb t (VA_START + 0x90000) 5000 sample_args
    ((λ a, a ++ [NUL]) <$> sample_args) (replicate 34 0) s) as (safe & frame' & s' & pcb' & Hsafe & E & Hp & _ & _ & _ & _ & _ & Ha & _).
  - reflexivity.
  - reflexivity.
  - reflexivity.
  - split; [apply Hf|exact Hg| |change (mem s) with m; rewrite Hz, Hmiss; vm_compute; discriminate|rewrite Hk, Hmiss; vm_compute; discriminate].
    intros i Hi. rewrite Hn in Hi. replace i with 0 by lia. exists c, 0. split; [exact Hl|]. split.
    + destruct (tables_page _ _ _ _ Hm Ht) as (j & Ej%page_address_inj & Hj). lia.
    + intros (x & Hx & E). pose proof (ta_inj _ _ Hm _ _ _ E Ht) as ->. cbn in Hx. lia.
  - split; [lia|]. intros x Hx. specialize (Hlow x Hx). split; [by apply low_stable|]. split; [|reflexivity].
    intros i c2 va2 Hi Hi2 Hin. rewrite Hn in Hi. replace i with 0 in Hi2 by lia.
    change (Z.to_nat 0) with 0%nat in Hi2. rewrite Hl in Hi2. injection Hi2 as E2%page_address_inj _. subst c2.
    unfold in_page, page_address in Hin. destruct (tables_page _ _ _ _ Hm Ht) as (j & Ej%page_address_inj & Hj).
    change PAGE_SIZE with 4096 in Hin. lia.
  - vm_compute. discriminate.
  - repeat constructor; try (apply (bool_decide_unpack (no_nul _))); vm_compute; try reflexivity; discriminate.
  - repeat constructor; by exists [].
  - cbn. lia.
  - reflexivity.
  - assert (safe = saved_row <$> sample_args) as -> by (vm_compute in Hsafe; by injection Hsafe as <-).
    exists s, frame', s', pcb'. split; [exact E|]. split; [exact Hp|].
    destruct (Ha 0%nat [115; 104] eq_refl) as [H1 H2]. split; [exact H1|]. exact (H2 0%nat ltac:(cbn; lia)).
Defined.
