(* ===== verification/PropWorld.v ===== *)
(** * Properties of the calls on files

    The system calls on files as a process sees them: opening, reading back what was
    written, running out of descriptors, and what the dispatcher returns. *)
From S2P Require Import Prelude.
From S2P Require Import Process.
From S2P Require Import Scheduler.
From S2P Require Import Mm.
From S2P Require Import CString.
From S2P Require Import Ipc.
From S2P Require Import Uart.
From S2P Require Import Syscalls.
From S2P Require Import FatNames.
From S2P Require Import FatTable.
From S2P Require Import FatCache.
From S2P Require Import FatChain.
From S2P Require Import FatFile.
From S2P Require Import FatData.
From S2P Require Import FatMount.
From S2P Require Import FatMounted.
From S2P Require Import FatDir.
From S2P Require Import FatCalls.
From S2P Require Import Filesystem.
From S2P Require Import FileCalls.
From S2P Require Import FileSpec.
From S2P Require Import Exec.
From S2P Require Import Dispatch.
From S2P Require Import FatDemo.
From S2P Require Import PropFile.
Local Open Scope Z_scope.
Local Open Scope fat_scope.

(** ** Opening *)

(** C13: Descriptors are not given back: once all descriptors of a process are in use, every
    later attempt to open or create returns -1 and changes nothing, whatever the process
    has called in between, closing its files included. *)
Theorem descriptors_run_out stack cs pcb w rs w' c :
  objects w !! 0 = None → heap (kern w) !! current_process (kern w) = Some pcb →
  (∀ i, 0 ≤ i < MAX_FILES_PER_PROCESS → ∃ a, arr_get (files pcb) i = Some (Some a)) →
  run_calls stack cs w = Done rs w' →
  match c with OpenFile _ _ | OpenDir _ | CreateDir _ => run_call stack c w' = Done (-1) w' | _ => True end.
Proof.
  intros Hn Hp Hfull E. pose proof (run_calls_preserving stack cs w Hn) as H. unfold wlp in H. rewrite E in H.
  destruct H as [Hc _ Hf]. destruct (Hf pcb Hp) as (pcb' & Hp' & Hl & Hi). rewrite <- Hc in Hp'.
  assert (Hfd : free_descriptor w' = Done (-1) w').
  { unfold free_descriptor, on_kernel, get_first_free_file_descriptor, mbind, M_bind, gets, load. rewrite Hp'. cbn.
    rewrite first_free_none; [by destruct w'|]. intros j Hj. destruct (Hfull j) as [a Ha]; [lia|].
    rewrite arr_get_lookup in * by lia. eauto. }
  destruct c; try done; cbn [run_call]; unfold syscall_create_dir, syscall_open_dir, syscall_open_file, mbind, M_bind;
    by rewrite Hfd.
Qed.

(** A process with the sample file open as descriptor 3, its other descriptors in use. *)
Definition resource_address : Z := page_address 0 + VA_START.
Definition file_address : Z := page_address 1 + VA_START.
Definition sample_world : world :=
  {| kern := set_mem {| memory_pages := {[0; 1]}; words := ∅ |} (set_heap
       {[ InitProcess := set_files (replicate 16 (Some resource_address)) INIT_PROCESS ]} (boot_kernel (λ _, 0)));
     lib := sample_mounted;
     objects := {[ resource_address := AResource {| resource_type := RESOURCE_TYPE_FILE; resource := Some file_address |};
                   file_address := AFile (Some 100) sample_file ]} |}.
Definition result_of {A} (o : outcome world A) : option A := match o with Done a _ => Some a | _ => None end.
Lemma result_done {A} (m : W A) w a : result_of (m w) = Some a → ∃ w', m w = Done a w'.
Proof. destruct (m w); [|done..]. intros [= ->]. eauto. Qed.
Lemma sample_close : result_of (run_calls [] [CloseFile 3] sample_world) = Some [0].
Proof. vm_compute. reflexivity. Qed.

Lemma descriptors_run_out_witness :
  ∃ w', run_calls [] [CloseFile 3] sample_world = Done [0] w' ∧ run_call [] (OpenFile [] 1) w' = Done (-1) w'.
Proof.
  destruct (result_done _ _ _ sample_close) as [w' E]. exists w'. split; [exact E|].
  refine (descriptors_run_out [] [CloseFile 3] (set_files (replicate 16 (Some resource_address)) INIT_PROCESS)
    sample_world [0] w' (OpenFile [] 1) _ _ _ E).
  - vm_compute. reflexivity.
  - reflexivity.
  - intros i Hi. exists resource_address. rewrite arr_get_lookup by lia. cbn [files set_files]. apply lookup_replicate.
    split; [reflexivity|]. unfold MAX_FILES_PER_PROCESS in Hi. lia.
Defined.

(** *** The steps of an opening *)
Lemma page_nonzero c : 0 ≤ c → page_address c + VA_START ≠ 0.
Proof. intros Hc. pose proof (page_address_pos c Hc). unfold VA_START. lia. Qed.

Lemma wp_free_descriptor pcb w (Q : Z → world → Prop) :
  heap (kern w) !! current_process (kern w) = Some pcb →
  Q (first_free (Z.to_nat MAX_FILES_PER_PROCESS) 0 (files pcb)) w → wp free_descriptor Q w.
Proof.
  intros Hp HQ. unfold free_descriptor. apply wp_on_kernel, wp_bind, wp_gets. unfold get_first_free_file_descriptor.
  apply wp_bind. unfold wp at 1, load. rewrite Hp. apply wp_ret. by destruct w.
Qed.
(** A new structure: a zeroed page that was free. *)
Definition with_object (c : Z) (o : object) (w : world) : world :=
  {| kern := set_mem (with_page c (mem (kern w))) (kern w); lib := lib w;
     objects := <[page_address c + VA_START := o]> (objects w) |}.
Lemma wp_new_object c w (Q : Z → world → Prop) :
  free_index (mem (kern w)) = Some c → Q (page_address c + VA_START) (with_object c ZeroPage w) → wp new_object Q w.
Proof.
  intros Hc HQ. destruct (free_index_range _ _ Hc) as [Hr _]. pose proof (page_address_pos c ltac:(lia)).
  unfold new_object. apply wp_bind, wp_on_kernel. unfold allocate_kernel_page. apply wp_bind, wp_get_free_page. rewrite Hc.
  destruct (Z.eqb_spec (page_address c) 0) as [|_]; [lia|]. apply wp_ret. apply wp_bind.
  destruct (Z.eqb_spec (page_address c + VA_START) 0) as [E|_]; [by destruct (page_nonzero c ltac:(lia))|].
  cbn [negb when]. unfold store_object. apply wp_modify, wp_ret. exact HQ.
Qed.
Lemma wp_free_object c w (Q : unit → world → Prop) :
  0 ≤ c < N_PAGES →
  Q tt {| kern := set_mem (without_page c (mem (kern w))) (kern w); lib := lib w;
          objects := delete (page_address c + VA_START) (objects w) |} → wp (free_object (page_address c + VA_START)) Q w.
Proof.
  intros Hc HQ. unfold free_object. apply wp_bind, wp_on_kernel, wp_free_page; [done|]. cbn [Z.eqb when]. by apply wp_modify.
Qed.
Lemma wp_bind_resource fd type structure c pcb w (Q : unit → world → Prop) :
  free_index (mem (kern w)) = Some c → heap (kern w) !! current_process (kern w) = Some pcb →
  0 ≤ fd < Z.of_nat (length (files pcb)) →
  (let w1 := with_object c (AResource {| resource_type := type; resource := structure |}) w in
   Q tt (set_kern (set_heap (<[current_process (kern w) :=
     set_files (<[Z.to_nat fd := Some (page_address c + VA_START)]> (files pcb)) pcb]> (heap (kern w))) (kern w1)) w1)) →
  wp (bind_resource fd type structure) Q w.
Proof.
  intros Hc Hp Hfd HQ. destruct (free_index_range _ _ Hc) as [Hr _]. pose proof (page_nonzero c ltac:(lia)) as Hne.
  unfold bind_resource. apply wp_bind, (wp_new_object c); [done|]. apply wp_bind.
  set (w1 := with_object c ZeroPage w). assert (Hp1 : heap (kern w1) !! current_process (kern w1) = Some pcb) by done.
  unfold set_resource. apply wp_bind, wp_on_kernel. unfold load_current. apply wp_bind, wp_gets.
  unfold wp at 1, load. rewrite Hp1. apply wp_bind, wp_defined. eexists. split; [by apply arr_set_in|].
  apply wp_on_kernel. unfold update_current. apply wp_bind, wp_gets. unfold wp at 1, update. cbn [kern set_kern].
  rewrite Hp1. destruct (Z.eqb_spec (page_address c + VA_START) 0) as [|_]; [done|].
  apply wp_bind. eapply wp_load_object; [apply lookup_insert_eq|done|]. unfold store_object. apply wp_modify.
  cbn [objects set_kern set_objects w1 with_object]. unfold set_objects, set_kern. cbn. rewrite insert_insert_eq. exact HQ.
Qed.

Lemma page_returned (c : Z) (used : gset Z) : c ∉ used → (used ∪ {[c]}) ∖ {[c]} = used.
Proof. set_solver. Qed.

(** C12: Opening a file: with a descriptor and two pages free, [syscall_open_file] returns
    the lowest free descriptor if the library opens the file, and binds it, and no other, to a
    resource that holds the opened file; if the library reports an error it returns -1, with the
    descriptors, the pages in use and the structures as they were. *)
Theorem open_file_outcome stack path flags pcb w c c2 fat f e l :
  heap (kern w) !! current_process (kern w) = Some pcb → Z.of_nat (length (files pcb)) = MAX_FILES_PER_PROCESS →
  free_index (mem (kern w)) = Some c → free_index (with_page c (mem (kern w))) = Some c2 →
  objects w !! (page_address c + VA_START) = None →
  let fd := first_free (Z.to_nat MAX_FILES_PER_PROCESS) 0 (files pcb) in
  fd ≠ -1 → open_file stack path flags None zero_file (lib w) = Done (fat, f, e) l →
  ∃ w', lib w' = l ∧
    if e =? 0 then
      syscall_open_file stack path flags w = Done fd w' ∧
      arr_get (files pcb) fd = Some None ∧ (∀ j, 0 ≤ j < fd → arr_get (files pcb) j ≠ Some None) ∧
      let resource_at := page_address c2 + VA_START in
      let file_at := page_address c + VA_START in
      ∃ pcb', heap (kern w') !! current_process (kern w) = Some pcb' ∧
        files pcb' = <[Z.to_nat fd := Some resource_at]> (files pcb) ∧
        objects w' !! resource_at = Some (AResource {| resource_type := RESOURCE_TYPE_FILE; resource := Some file_at |}) ∧
        objects w' !! file_at = Some (AFile fat f)
    else
      syscall_open_file stack path flags w = Done (-1) w' ∧ heap (kern w') = heap (kern w) ∧
      memory_pages (mem (kern w')) = memory_pages (mem (kern w)) ∧ objects w' = objects w.
Proof.
  intros Hp Hlen Hc Hc2 Hno fd Hfd Hopen. destruct (free_index_range _ _ Hc) as [Hr Hn].
  destruct (free_index_range _ _ Hc2) as [Hr2 Hn2].
  destruct (first_free_some (Z.to_nat MAX_FILES_PER_PROCESS) 0 (files pcb)) as [[E _]|(H1 & H2 & H3)]; [done|]. fold fd in H1, H2, H3.
  assert (Hrange : 0 ≤ fd < Z.of_nat (length (files pcb))) by (rewrite Hlen; unfold MAX_FILES_PER_PROCESS in *; lia).
  set (w2 := set_lib l (with_object c (AFile fat f) w)).
  assert (H : ∀ Q : Z → world → Prop,
    wp (if negb (e =? 0) then free_object (page_address c + VA_START);; mret (-1) else
        bind_resource fd RESOURCE_TYPE_FILE (Some (page_address c + VA_START));; mret fd) Q w2 →
    wp (syscall_open_file stack path flags) Q w).
  { intros Q HQ. unfold syscall_open_file. apply wp_bind, (wp_free_descriptor pcb); [done|]. fold fd.
    destruct (Z.eqb_spec fd (-1)) as [|_]; [done|]. apply wp_bind, (wp_new_object c); [done|].
    apply wp_bind. eapply wp_load_object; [apply lookup_insert_eq|reflexivity|].
    apply wp_bind, wp_on_library. unfold wp at 1. cbn [fst snd lib with_object]. rewrite Hopen.
    unfold store_object. apply wp_bind, wp_modify. unfold set_objects, set_lib. cbn. rewrite insert_insert_eq. exact HQ. }
  destruct (Z.eqb_spec e 0) as [->|He]; cbn [negb] in H.
  - assert (W : wp (syscall_open_file stack path flags) (λ r w', r = fd ∧ lib w' = l ∧
      let resource_at := page_address c2 + VA_START in
      let file_at := page_address c + VA_START in
      ∃ pcb', heap (kern w') !! current_process (kern w) = Some pcb' ∧
        files pcb' = <[Z.to_nat fd := Some resource_at]> (files pcb) ∧
        objects w' !! resource_at = Some (AResource {| resource_type := RESOURCE_TYPE_FILE; resource := Some file_at |}) ∧
        objects w' !! file_at = Some (AFile fat f)) w).
    { apply H. apply wp_bind. eapply (wp_bind_resource fd _ _ c2 pcb); [exact Hc2|exact Hp|done|]. apply wp_ret.
      split; [done|]. split; [done|]. eexists. split; [apply lookup_insert_eq|]. split; [reflexivity|].
      cbn [objects set_kern with_object w2 set_lib]. split; [apply lookup_insert_eq|].
      rewrite lookup_insert_ne; [apply lookup_insert_eq|]. intros E. apply Hn2. cbn.
      assert (c2 = c) as -> by (apply page_address_inj; lia). by apply elem_of_union_r, elem_of_singleton. }
    apply wp_done in W as (r & w' & E & -> & Hl & Hrest). exists w'. split; [exact Hl|]. by split_and!.
  - assert (W : wp (syscall_open_file stack path flags) (λ r w', r = -1 ∧ lib w' = l ∧ heap (kern w') = heap (kern w) ∧
      memory_pages (mem (kern w')) = memory_pages (mem (kern w)) ∧ objects w' = objects w) w).
    { apply H. apply wp_bind, wp_free_object; [done|]. apply wp_ret. cbn. split_and!; try done; [by apply page_returned|].
      by rewrite delete_insert_id. }
    apply wp_done in W as (r & w' & E & -> & Hl & Hh & Hpages & Hob). exists w'. by split_and!.
Qed.

(** The same process with all its descriptors free. *)
Definition fresh_world : world :=
  {| kern := set_mem {| memory_pages := ∅; words := ∅ |} (boot_kernel (λ _, 0)); lib := sample_mounted; objects := ∅ |}.
Definition stack128 : list Z := replicate 128 0.
Lemma sample_open :
  (λ r, (r.1.1, f_size r.1.2, f_sclust r.1.2, r.2)) <$>
    (match open_file stack128 (sample_name ++ [NUL]) FAT_READ None zero_file sample_mounted with
     | Done r _ => Some r | _ => None end) = Some (Some 100, 0, 3, 0).
Proof. vm_compute. reflexivity. Qed.

Lemma open_file_outcome_witness :
  ∃ w' f, syscall_open_file stack128 (sample_name ++ [NUL]) FAT_READ fresh_world = Done 0 w' ∧
    objects w' !! (page_address 0 + VA_START) = Some (AFile (Some 100) f) ∧ f_sclust f = 3.
Proof.
  pose proof sample_open as H.
  destruct (open_file stack128 (sample_name ++ [NUL]) FAT_READ None zero_file sample_mounted) as [[[fat f] e] l| |] eqn:E;
    [|discriminate H|discriminate H]. injection H as H1 H2 H3 H4. cbn in H1, H2, H3, H4. subst fat e.
  destruct (open_file_outcome stack128 (sample_name ++ [NUL]) FAT_READ INIT_PROCESS fresh_world 0 1 (Some 100) f 0 l)
    as (w' & _ & Hopen & _ & _ & pcb' & _ & _ & _ & Hf).
  - reflexivity.
  - reflexivity.
  - vm_compute. reflexivity.
  - vm_compute. reflexivity.
  - reflexivity.
  - vm_compute. discriminate.
  - exact E.
  - exists w', f. split; [exact Hopen|]. split; [exact Hf|exact H3].
Defined.

(** ** Reading and writing *)

(** Descriptor [fd] of the current process is the open file [f] of the volume at [p]. *)
Record bound (w : world) (fd ra fa p : Z) (r : FatResource) (f : File) (m : mount) : Prop := {
  bd_fd : ∃ pcb, heap (kern w) !! current_process (kern w) = Some pcb ∧ arr_get (files pcb) fd = Some (Some ra);
  bd_resource : objects w !! ra = Some (AResource r);
  bd_pointer : resource r = Some fa;
  bd_file : objects w !! fa = Some (AFile (Some p) f);
  bd_volume : mounts (lib w) !! p = Some m
}.
Definition session_of (w : world) (f : File) (m : mount) : session :=
  {| file := f; vol := {| fat := m_fat m; disk := device (lib w) |} |}.
(** The world after a call on the file that ends in [s]. *)
Definition with_session (fa p : Z) (m : mount) (s : session) (w : world) : world :=
  {| kern := kern w; lib := put_volume p m (vol s) (lib w); objects := <[fa := AFile (Some p) (file s)]> (objects w) |}.

Lemma wp_get_resource fd ra fa p r f m w (Q : option Z → world → Prop) :
  bound w fd ra fa p r f m → Q (Some ra) w → wp (get_resource fd) Q w.
Proof.
  intros [(pcb & Hp & Hfd) _ _ _ _] HQ. unfold get_resource. apply wp_bind, wp_on_kernel. unfold load_current.
  apply wp_bind, wp_gets. unfold wp at 1, load. rewrite Hp. apply wp_defined. eexists. split; [exact Hfd|]. by destruct w.
Qed.
Lemma wp_resource_of fd ra fa p r f m w (Q : option Z → world → Prop) :
  bound w fd ra fa p r f m → Q (Some fa) w → wp (resource_of fd) Q w.
Proof.
  intros Hb HQ. unfold resource_of. eapply wp_bind, wp_get_resource; [exact Hb|]. destruct Hb as [_ Hr Hpt _ _].
  apply wp_bind, wp_defined. eexists. split; [reflexivity|]. apply wp_bind. eapply wp_load_object; [exact Hr|reflexivity|].
  apply wp_ret. by rewrite Hpt.
Qed.
Lemma wp_with_file {A} fd ra fa p r f m w (c : M session A) (closed : A) (Q : A → world → Prop) :
  bound w fd ra fa p r f m →
  wp c (λ a s', Q a (with_session fa p m s' w)) (session_of w f m) →
  wp (with_file (Some fa) c closed) Q w.
Proof.
  intros [_ _ _ Hf Hv] H. unfold with_file. apply wp_bind, wp_defined. eexists. split; [reflexivity|].
  apply wp_bind. eapply wp_load_object; [exact Hf|reflexivity|]. cbn [fst snd]. apply wp_bind, wp_on_library.
  unfold wp, on_file. rewrite Hv. change {| file := f; vol := _ |} with (session_of w f m).
  unfold wp in H. destruct (c (session_of w f m)) as [a s'| |]; [exact H|done..].
Qed.
Lemma bound_session w fd ra fa p r f m s :
  bound w fd ra fa p r f m →
  bound (with_session fa p m s w) fd ra fa p r (file s) (set_m_fat (fat (vol s)) m) ∧
  session_of (with_session fa p m s w) (file s) (set_m_fat (fat (vol s)) m) = s.
Proof.
  intros [H1 H2 H3 H4 H5]. split.
  - split; try done; cbn.
    + rewrite lookup_insert_ne; [done|]. intros ->. congruence.
    + apply lookup_insert_eq.
    + apply lookup_insert_eq.
  - by destruct s as [? []].
Qed.

(** C9: What a process writes it reads back: writing through a descriptor at an offset of
    a file whose clusters hold the result stores all the bytes, and reading through it
    afterwards gives the file from its start, the old bytes up to the offset, what was
    written, and the old bytes behind it, as far as was asked for and the file goes. *)
Theorem file_round_trip fd ra fa p r f m w l data len :
  bound w fd ra fa p r f m → opened l (session_of w f m) →
  has_flag (f_flags f) FAT_WRITE = true → has_flag (f_flags f) FAT_READ = true →
  let off := f_offset f in
  let end_ := off + Z.of_nat (length data) in
  let size := Z.max (f_size f) end_ in
  0 ≤ f_size f → size < capacity (m_fat m) l → size < 2 ^ 31 → 0 ≤ len < 2 ^ 31 →
  ∃ w1 w2 bytes, syscall_write_file fd data w = Done (Some (Z.of_nat (length data)), 0) w1 ∧
    syscall_read_file fd len w1 = Done (bytes, 0) w2 ∧
    bytes = take (Z.to_nat (Z.min len size))
      (take (Z.to_nat off) (contents (session_of w f m) l) ++ data ++
       drop (Z.to_nat off + length data) (contents (session_of w f m) l)).
Proof.
  intros Hb Hop Hw Hr off end_ size Hsize Hcap H31 Hlen. set (s := session_of w f m) in *.
  pose proof (op_offset _ _ Hop) as Hoff. change (f_offset (file s)) with off in Hoff.
  assert (W : wp (syscall_write_file fd data) (λ r1 w1, r1 = (Some (Z.of_nat (length data)), 0) ∧
    ∃ s1, written l data s s1 ∧ w1 = with_session fa p m s1 w) w).
  { unfold syscall_write_file. eapply wp_bind, wp_get_resource; [exact Hb|]. eapply wp_bind, wp_resource_of; [exact Hb|].
    eapply wp_bind, wp_with_file; [exact Hb|]. fold s. apply (wp_fat_file_write l); [done|done| | |].
    - change (fat (vol s)) with (m_fat m). change (f_offset (file s)) with off. lia.
    - change (f_offset (file s)) with off. lia.
    - intros s1 Hs1. apply wp_ret. split; [done|]. by exists s1. }
  apply wp_done in W as (r1 & w1 & E1 & -> & s1 & [W1 W2 W3 W4 W5 [W6 _]] & ->). exists (with_session fa p m s1 w).
  destruct (bound_session w fd ra fa p r f m s1 Hb) as [Hb1 Es1].
  change (f_offset (file s)) with off in *. change (f_size (file s)) with (f_size f) in *. fold end_ in W2, W4. fold size in W4.
  pose proof (capacity_geometry _ _ W5 l) as Hc1. change (fat (vol s)) with (m_fat m) in Hc1.
  assert (R : wp (syscall_read_file fd len) (λ r2 _, r2 = (take (Z.to_nat (Z.min len size)) (contents s1 l), 0))
    (with_session fa p m s1 w)).
  { unfold syscall_read_file. eapply wp_bind, wp_resource_of; [exact Hb1|]. eapply wp_bind, wp_with_file; [exact Hb1|].
    rewrite Es1. apply (wp_fat_file_seek l s1 W1 0 FAT_SEEK_START 0); [done|rewrite Hc1; lia|lia|].
    intros s2 [S1 S2 S3 S4 S5 S6 S7]. destruct (bound_session _ _ _ _ _ _ _ _ s2 Hb1) as [Hb2 Es2].
    pose proof (capacity_geometry _ _ S3 l) as Hc2.
    eapply wp_bind, wp_with_file; [exact Hb2|]. rewrite Es2.
    eapply (wp_fat_file_read l len s2 _ (Z.min len size)); [done| |lia|lia| | |].
    - rewrite read_flag, S7, <- read_flag by lia. by rewrite W6.
    - rewrite S2, S5, W4. lia.
    - rewrite S2, Hc2, Hc1. lia.
    - intros s3 _. apply wp_ret. by rewrite S2, S4, drop_0. }
  apply wp_done in R as (r2 & w2 & E2 & ->). exists w2. eexists. split; [exact E1|]. split; [exact E2|].
  by rewrite W3.
Qed.

Lemma file_round_trip_witness :
  ∃ w1 w2, syscall_write_file 3 [104; 105] sample_world = Done (Some 2, 0) w1 ∧
    syscall_read_file 3 4 w1 = Done ([104; 105; 65; 65], 0) w2.
Proof.
  destruct (file_round_trip 3 resource_address file_address 100
    {| resource_type := RESOURCE_TYPE_FILE; resource := Some file_address |} sample_file
    {| m_fat := sample_fat; m_next := None; m_name_len := 3; m_name := 109 :: 110 :: 116 :: replicate 29 0 |}
    sample_world [3; 4; 6] [104; 105] 4) as (w1 & w2 & bytes & E1 & E2 & Hb).
  - split; [eexists; split; reflexivity|vm_compute; reflexivity|reflexivity|vm_compute; reflexivity|reflexivity].
  - exact sample_opened.
  - reflexivity.
  - reflexivity.
  - vm_compute. discriminate.
  - vm_compute. reflexivity.
  - vm_compute. reflexivity.
  - split; [vm_compute; discriminate|vm_compute; reflexivity].
  - exists w1, w2. split; [exact E1|]. rewrite E2, Hb. vm_compute. reflexivity.
Defined.

(** ** Paths and the mount point *)

(** Paths are bounded: a path of a process that fits 128 bytes with the prefix ["/mnt/"] and
    the terminator is completed in the array without writing past it, and a longer one is
    refused; neither is undefined. *)
Theorem path_bounded {St} stack path rest (s : St) :
  Z.of_nat (length stack) = FAT_MAX_PATH_SIZE → no_nul path →
  if decide (5 + Z.of_nat (length path) < FAT_MAX_PATH_SIZE) then
    ∃ old, length ([47; 109; 110; 116; 47] ++ path ++ NUL :: old) = length stack ∧
      complete_path stack (path ++ NUL :: rest) s = Done (Some ([47; 109; 110; 116; 47] ++ path ++ NUL :: old)) s
  else complete_path stack (path ++ NUL :: rest) s = Done None s.
Proof.
  intros Hlen Hp. unfold FAT_MAX_PATH_SIZE in *.
  assert (H1 : strcpy stack mount_prefix = Some ([47; 109; 110; 116; 47] ++ NUL :: drop 6 stack)).
  { apply (strcpy_terminated stack [47; 109; 110; 116; 47] []); [|cbn; lia].
    apply (bool_decide_unpack (no_nul _)). reflexivity. }
  assert (H2 : strlen ([47; 109; 110; 116; 47] ++ NUL :: drop 6 stack) = Some 5).
  { apply (strlen_terminated [47; 109; 110; 116; 47]). apply (bool_decide_unpack (no_nul _)). reflexivity. }
  pose proof (strlen_terminated path rest Hp) as H3.
  unfold complete_path, mbind, M_bind, defined, mret, M_ret. rewrite H1. cbv beta iota. rewrite H2. cbv beta iota.
  rewrite H3. cbv beta iota. unfold FAT_MAX_PATH_SIZE.
  destruct (decide (5 + Z.of_nat (length path) < 128)); destruct (Z.leb_spec 128 (5 + Z.of_nat (length path))); try lia.
  - rewrite strcat_terminated; [|apply (bool_decide_unpack (no_nul _)); reflexivity|done|rewrite length_drop; lia].
    eexists. split; [|reflexivity]. rewrite !length_app. cbn [length]. rewrite !length_drop. lia.
  - reflexivity.
Qed.

Lemma path_bounded_witness :
  complete_path stack128 (replicate 123 97 ++ [NUL]) tt = Done None tt ∧
  ∃ path, complete_path stack128 (replicate 122 97 ++ [NUL]) tt = Done (Some path) tt ∧ length path = 128%nat.
Proof.
  assert (Hn : ∀ n, no_nul (replicate n 97)).
  { intros n Hin. apply elem_of_replicate in Hin as [E _]. discriminate E. }
  split.
  - pose proof (path_bounded stack128 (replicate 123 97) [] tt eq_refl (Hn 123%nat)) as H. exact H.
  - pose proof (path_bounded stack128 (replicate 122 97) [] tt eq_refl (Hn 122%nat)) as (old & Hl & H).
    eexists. split; [exact H|exact Hl].
Defined.

(** C15: Starting the file system: on a card that works and holds such a volume in the zeroed
    [g_fat], [sd_filesystem_init] reports success, the volume is ready for all operations,
    and the name of the mount point finds it; on a card that does not work it reports an
    error and changes nothing. *)
Theorem init_mounts_volume g_fat s m lba s1 info n sd_result :
  mountable 0 g_fat mount_name s m lba s1 info n → length (m_name m) = 32%nat →
  (sd_result ≠ SD_OK → sd_filesystem_init g_fat sd_result s = Done SD_FILESYSTEM_INIT_ERROR s) ∧
  ∃ s' m', sd_filesystem_init g_fat SD_OK s = Done SD_FILESYSTEM_INIT_OK s' ∧ mounts s' !! g_fat = Some m' ∧
    fat_ok {| fat := m_fat m'; disk := device s' |} ∧ layout_ok (m_fat m') ∧
    find_fat_volume [109; 110; 116] s' = Done (Some g_fat) s'.
Proof.
  intros Hmb Hname. split.
  { intros Hne. unfold sd_filesystem_init. by destruct (Z.eqb_spec sd_result SD_OK). }
  assert (En : n = 3) by (pose proof (mb_name _ _ _ _ _ _ _ _ _ Hmb) as E; vm_compute in E; by injection E).
  subst n. pose proof (mb_probe _ _ _ _ _ _ _ _ _ Hmb) as Hp.
  destruct (probe_ok _ _ _ _ Hp) as (Hchk & Hms & Hds).
  assert (Hmb1 : ∃ s2, probe 0 s1 = Done (Ok lba) s2 ∧ mountable 0 g_fat mount_name s1 m lba s2 info 3).
  { destruct (probe_again 0 s s1 lba Hp) as (s2 & E2 & Eb). exists s2. split; [exact E2|].
    destruct Hmb as [B1 B2 B3 B4 B5 B6 B7 B8 B9 B10]. split; try done.
    - by rewrite Hms.
    - by rewrite Eb.
    - rewrite Eb. destruct B6. split; by rewrite Hds.
    - by rewrite Hds. }
  destruct Hmb1 as (s2 & E2 & Hmb1). destruct (mountable_ok _ _ _ _ _ _ _ _ _ Hmb1) as [Hok Hla].
  assert (W : wp (sd_filesystem_init g_fat SD_OK) (λ r s', r = SD_FILESYSTEM_INIT_OK ∧ ∃ m', mounts s' !! g_fat = Some m' ∧
    m_fat m' = mounted_fat lba (read_bpb (g_buf s2)) info (m_fat m) ∧ device s' = device s1 ∧ g_fat_list s' = Some g_fat ∧
    m_name_len m' = 3 ∧ m_name m' = set_bytes 0 [109; 110; 116] (m_name m)) s).
  { unfold sd_filesystem_init. change (negb (SD_OK =? SD_OK)) with false. cbv iota. apply wp_bind. unfold fat_probe.
    apply wp_bind, wp_done. exists (Ok lba), s1. split; [exact Hp|]. apply wp_ret.
    change (negb (error_code (Ok tt) =? 0)) with false. cbv iota.
    apply wp_bind. eapply wp_fat_mount; [exact Hmb1|]. intros s' m' Hd Hl Hm' Ef _ Hnl Hnm. apply wp_ret.
    split; [done|]. exists m'. split_and!; done. }
  apply wp_done in W as (r & s' & E & -> & m' & Hm' & Ef & Hd & Hl & Hnl & Hnm). exists s', m'.
  rewrite Ef, Hd. split_and!; try done.
  unfold find_fat_volume, mbind, M_bind, gets. rewrite Hl. unfold list_fuel. cbn [find_volume].
  unfold mbind, M_bind, get_mount. rewrite Hm', Hnl, Hnm.
  assert (E3 : take 3 (set_bytes 0 [109; 110; 116] (m_name m)) = [109; 110; 116]).
  { destruct (m_name m) as [|x0 [|x1 [|x2 rest]]]; try discriminate Hname. reflexivity. }
  cbn [length]. rewrite E3. reflexivity.
Qed.

Lemma init_mounts_volume_witness :
  ∃ s' m', sd_filesystem_init 100 SD_OK sample_library = Done SD_FILESYSTEM_INIT_OK s' ∧ mounts s' !! 100 = Some m' ∧
    fat_ok {| fat := m_fat m'; disk := device s' |} ∧ find_fat_volume [109; 110; 116] s' = Done (Some 100) s'.
Proof.
  destruct (init_mounts_volume 100 sample_library
    {| m_fat := zero_fat; m_next := None; m_name_len := 0; m_name := replicate 32 0 |} 0
    (set_g_buf boot_sector sample_library) fsinfo_sector 3 SD_OK) as (_ & s' & m' & E & Hm & H1 & _ & H2).
  - split.
    + reflexivity.
    + reflexivity.
    + reflexivity.
    + vm_compute. reflexivity.
    + exact sample_boot_ok.
    + exact sample_device_ok.
    + reflexivity.
    + vm_compute. reflexivity.
    + reflexivity.
    + lia.
  - reflexivity.
  - exists s', m'. split; [exact E|]. split; [exact Hm|]. split; [exact H1|exact H2].
Defined.

(** ** The dispatcher *)

(** What [c] hands back to the caller's registers differs from [registers] in [x0] at most. *)
Definition only_x0 (registers : list Z) (c : W served) : Prop :=
  ∀ w w' registers' writes, c w = Done (Served registers' writes) w' →
    length registers' = length registers ∧ ∀ i, i ≠ 0%nat → registers' !! i = registers !! i.
Section only_x0.
Variable registers : list Z.

Lemma only_x0_bind {A} (c : W A) (f : A → W served) : (∀ a, only_x0 registers (f a)) → only_x0 registers (c ≫= f).
Proof.
  intros H w w' r ws E. unfold mbind, M_bind in E. destruct (c w) as [a w1| |]; [|done|done]. by eapply H.
Qed.
Lemma only_x0_reply result writes : only_x0 registers (reply registers result writes).
Proof.
  intros w w' r ws E. unfold reply, mbind, M_bind, defined, arr_set in E.
  destruct (decide _); [|done]. injection E as <- _ _. rewrite length_insert. split; [done|].
  intros i Hi. by rewrite list_lookup_insert_ne by lia.
Qed.
Lemma only_x0_same writes : only_x0 registers (mret (Served registers writes)).
Proof. intros w w' r ws E. injection E as <- _ _. done. Qed.
Lemma only_x0_suspended input : only_x0 registers (mret (Suspended input)).
Proof. by intros w w' r ws [=]. Qed.
Lemma only_x0_undefined : only_x0 registers undefined.
Proof. by intros w w' r ws [=]. Qed.
Lemma only_x0_reply_round r : only_x0 registers (reply_round registers r).
Proof. destruct r; [apply only_x0_reply|apply only_x0_suspended]. Qed.
End only_x0.
Ltac keep_registers := repeat first
  [ apply only_x0_reply | apply only_x0_same | apply only_x0_suspended | apply only_x0_undefined
  | apply only_x0_reply_round | apply only_x0_bind; intro
  | match goal with |- only_x0 _ (match ?x with _ => _ end) => destruct x end ].

(** The dispatcher and the registers of the caller: whatever a system call other than
    exec does, the registers it hands back differ from the ones it was given in [x0] at
    most; a number above the last one does nothing at all. *)
Theorem dispatcher_keeps_registers alg init rff uninitialised stack memory_at registers n w :
  registers !! 8%nat = Some n → 0 ≤ n → n ≠ 16 →
  (∀ w' registers' writes,
     syscall_dispatcher alg init rff uninitialised stack memory_at registers w = Done (Served registers' writes) w' →
     length registers' = length registers ∧ ∀ i, i ≠ 0%nat → registers' !! i = registers !! i) ∧
  (SYSCALLS_NUMBER < n →
     syscall_dispatcher alg init rff uninitialised stack memory_at registers w = Done (Served registers []) w).
Proof.
  intros Hn H0 H16.
  assert (E8 : register registers 8 w = Done n w).
  { unfold register, arr_get. rewrite decide_True by lia.
    change (Z.to_nat 8) with 8%nat. by rewrite Hn. }
  unfold syscall_dispatcher, mbind, M_bind. rewrite E8. split.
  - intros w' r ws. destruct (SYSCALLS_NUMBER <? n); [intros [= <- _ _]; done|].
    destruct (register registers 0 w) as [x0 w1| |]; [|done|done].
    destruct (is_file_number n) eqn:Ef.
    + apply bool_decide_eq_true in Ef. revert w1 w' r ws. change (only_x0 registers (file_number stack memory_at registers n x0)).
      set_unfold in Ef. destruct Ef as [->|[->|[->|[->|[->|[->|[->|[->|[]]]]]]]]]; try done; cbn [file_number]; keep_registers.
    + revert w1 w' r ws. change (only_x0 registers (process_number alg init rff uninitialised memory_at registers n x0)).
      unfold process_number. keep_registers.
  - intros Hb. destruct (Z.ltb_spec SYSCALLS_NUMBER n); [done|lia].
Qed.

(** [get_pid()] with 7 in all other registers; what a suspended call returns does not matter. *)
Definition get_pid_registers : list Z := <[8%nat := SYSCALLS_NUMBER]> (replicate 34 7).
Definition sample_dispatch : W served :=
  syscall_dispatcher sched_round_robin 0 0 [] stack128 (λ _, []) get_pid_registers.
Lemma dispatcher_keeps_registers_witness :
  ∃ registers' w', sample_dispatch sample_world = Done (Served registers' []) w' ∧
    length registers' = 34%nat ∧ registers' !! 8%nat = Some SYSCALLS_NUMBER.
Proof.
  assert (E : ∃ registers' w', sample_dispatch sample_world = Done (Served registers' []) w').
  { eexists _, _. vm_compute. reflexivity. }
  destruct E as (registers' & w' & E). exists registers', w'. split; [exact E|].
  pose proof (dispatcher_keeps_registers sched_round_robin 0 0 [] stack128 (λ _, []) get_pid_registers SYSCALLS_NUMBER
    sample_world eq_refl) as H.
  assert (H0 : 0 ≤ SYSCALLS_NUMBER) by (vm_compute; discriminate).
  assert (H16 : SYSCALLS_NUMBER ≠ 16) by (vm_compute; discriminate).
  destruct (H H0 H16) as [H1 _]. destruct (H1 w' registers' [] E) as [Hl Hi]. split; [exact Hl|].
  rewrite (Hi 8%nat); [reflexivity|discriminate].
Defined.
