(* ===== verification/PropDevice.v ===== *)
(** * Properties of the SD card driver

    The driver returns whatever the card does, moves the blocks of a card that works, and so
    is the device the FAT32 library is modelled on; and where it waits for ever. *)
From S2P Require Import Prelude.
From S2P Require Import FatNames.
From S2P Require Import FatTable.
From S2P Require Import Mmio.
From S2P Require Import Sd.
From S2P Require Import SdSpec.
From S2P Require Import SdCard.
From S2P Require Import FatDemo.
Local Open Scope Z_scope.

(** ** A card to try the driver on *)

(** A controller that shows every flag at the second read, and a clock that a read of it
    moves by a millisecond. *)
Record sim := {
  s_sectors : gmap Z (list Z);
  s_phase : emmc_phase;
  s_waits : bool;
  s_arg : Z;
  s_blk : Z;
  s_time : Z
}.
Definition s_enter (p : emmc_phase) (h : sim) : sim := {| h with s_phase := p; s_waits := true |}.
Definition sim_controller (h : sim) : controller :=
  {| sectors := s_sectors h; phase := s_phase h; pending := if s_waits h then 1 else 0;
     argument := s_arg h; block_size := s_blk h |}.
Definition sim_read (reg : Z) (h : sim) : Z * sim :=
  if reg =? SYS_TIMER_CLOCK then (s_time h, {| h with s_time := s_time h + 1000 |})
  else if reg =? EMMC_INTERRUPT then
    match flag_of (s_phase h) with
    | None => (0, h)
    | Some flag => if s_waits h then (0, {| h with s_waits := false |}) else (flag, h)
    end
  else if reg =? EMMC_DATA then
    match s_phase h with
    | Outgoing (b0 :: b1 :: b2 :: b3 :: rest) =>
        (le_value [b0; b1; b2; b3], {| h with s_phase := match rest with [] => Idle | _ => Outgoing rest end |})
    | _ => (0, h)
    end
  else (0, h).
Definition sim_write (reg v : Z) (h : sim) : sim :=
  if reg =? EMMC_INTERRUPT then
    if bool_decide (flag_of (s_phase h) = Some v) && negb (s_waits h) then s_enter (acknowledged (s_phase h)) h else h
  else if reg =? EMMC_ARG1 then {| h with s_arg := v |}
  else if reg =? EMMC_BLKSIZECNT then {| h with s_blk := v |}
  else if reg =? EMMC_CMDTM then
    match s_sectors h !! s_arg h with
    | Some block => s_enter (Commanded (if v =? CMD_READ_SINGLE then Sending block else Receiving (s_arg h))) h
    | None => h
    end
  else if reg =? EMMC_DATA then
    match s_phase h with
    | Incoming sector got =>
        let got' := got ++ le_bytes 4 v in
        if decide (length got' = 512%nat)
        then s_enter Storing {| h with s_sectors := <[sector := got']> (s_sectors h) |}
        else {| h with s_phase := Incoming sector got' |}
    | _ => h
    end
  else h.
#[export] Instance sim_mmio : Mmio sim := {| read_register := sim_read; write_register := sim_write |}.
#[export] Instance sim_timer : SystemTimer sim.
Proof.
  refine {| time := s_time; patience _ := 0; max_patience := 0 |}.
  - done.
  - intros h. left. change (s_time h < s_time h + 1000 < s_time h + 2 ^ 30). lia.
  - intros h. lia.
Defined.
Lemma sim_enters p h : enters p (sim_controller h) (sim_controller (s_enter p h)).
Proof. by exists 1. Qed.
Lemma sim_read_flag h : sim_read EMMC_INTERRUPT h =
  match flag_of (s_phase h) with
  | None => (0, h)
  | Some flag => if s_waits h then (0, {| h with s_waits := false |}) else (flag, h)
  end.
Proof. reflexivity. Qed.
Lemma flag_of_bits p flag : flag_of p = Some flag →
  u32 flag = flag ∧ bit_set flag flag = true ∧ Z.land flag all_errors = 0 ∧ Z.land 0 (Z.lor flag all_errors) = 0.
Proof. destruct p as [|?|[|]|?|? ?|]; intros [= <-]; done. Qed.
#[export] Instance sim_emmc : EmmcController sim.
Proof.
  refine {| emmc := sim_controller; high_capacity := true |}.
  - intros [? ? [] ? ? ?]; by cbn.
  - done.
  - done.
  - intros h Hp. cbn in Hp. change (read_register EMMC_INTERRUPT h) with (sim_read EMMC_INTERRUPT h).
    rewrite sim_read_flag, Hp. done.
  - intros h v Hp. cbn in Hp. change (write_register EMMC_INTERRUPT v h) with (sim_write EMMC_INTERRUPT v h).
    unfold sim_write. rewrite Hp. done.
  - intros h flag Hf Hw. cbn in Hf. change (read_register EMMC_INTERRUPT h) with (sim_read EMMC_INTERRUPT h).
    rewrite sim_read_flag, Hf. destruct h as [? ? [] ? ? ?]; [|cbn in Hw; lia]. cbn in *.
    split; [apply (flag_of_bits _ _ Hf)|]. exists 0. split; [lia|done].
  - intros h flag Hf Hw. cbn in Hf. change (read_register EMMC_INTERRUPT h) with (sim_read EMMC_INTERRUPT h).
    rewrite sim_read_flag, Hf. destruct h as [? ? [] ? ? ?]; [cbn in Hw; lia|]. cbn in *.
    destruct (flag_of_bits _ _ Hf) as (-> & ? & ? & _). done.
  - intros h flag Hf Hw. cbn in Hf. change (write_register EMMC_INTERRUPT flag h) with (sim_write EMMC_INTERRUPT flag h).
    destruct h as [? p [] ? ? ?]; [cbn in Hw; lia|]. cbn in Hf. unfold sim_write. cbn [s_phase s_waits Z.eqb Pos.eqb].
    rewrite Hf, bool_decide_true by done. exists 1. done.
  - done.
  - done.
  - intros h block Hp Hb Hs. change (write_register EMMC_CMDTM CMD_READ_SINGLE h) with (sim_write EMMC_CMDTM CMD_READ_SINGLE h).
    unfold sim_write. cbn in Hs. rewrite Hs. exists 1. done.
  - intros h block Hp Hb Hs. change (write_register EMMC_CMDTM CMD_WRITE_SINGLE h) with (sim_write EMMC_CMDTM CMD_WRITE_SINGLE h).
    unfold sim_write. cbn in Hs. rewrite Hs. exists 1. done.
  - done.
  - intros h b0 b1 b2 b3 rest Hp Hb. cbn in Hp. change (read_register EMMC_DATA h) with (sim_read EMMC_DATA h).
    unfold sim_read. rewrite Hp. split; [|by destruct rest].
    repeat (apply Forall_cons in Hb as [? Hb]). unfold byte_range in *. cbn. apply u32_small. lia.
  - intros h sector got v Hp. cbn in Hp. cbv zeta. change (write_register EMMC_DATA v h) with (sim_write EMMC_DATA v h).
    unfold sim_write. rewrite Hp. cbv zeta. change (EMMC_DATA =? EMMC_INTERRUPT) with false.
    change (EMMC_DATA =? EMMC_ARG1) with false. change (EMMC_DATA =? EMMC_BLKSIZECNT) with false.
    change (EMMC_DATA =? EMMC_CMDTM) with false. change (EMMC_DATA =? EMMC_DATA) with true. cbv iota.
    destruct (decide _); [exists 1; done|done].
Defined.

(** Enough reads of the timer for the longest wait. *)
Definition sim_polls : nat := Z.to_nat 1000001.
Lemma sim_patient : enough_polls (max_patience (hw:=sim)) sim_polls.
Proof. unfold enough_polls, sim_polls. change (max_patience (hw:=sim)) with 0. rewrite Z2Nat.id by lia. lia. Qed.
Definition sim_card (b : Z) : list Z := replicate 512 b.
Definition sim_driver : driver sim :=
  {| device := {| s_sectors := {[ 7 := sim_card 170 ]}; s_phase := Idle; s_waits := false; s_arg := 0; s_blk := 0;
                  s_time := 2 ^ 32 - 5 |};
     sd_scr := [SCR_SUPP_CCS; 0]; sd_rca := 0; sd_err := 0; sd_hv := 2; sd_out := [] |}.

(** ** Every transfer returns *)

(** C11: The waiting of the driver is bounded: whatever the controller and the card do, as
    long as the timer counts, [sd_readblock] and [sd_writeblock] return; with the number of
    bytes of all blocks, which have been transferred, and no error in [sd_err], or with 0
    and the error there. *)
Theorem transfers_return {hw} `{!Mmio hw, !SystemTimer hw} polls lba num buffer (s : driver hw) :
  enough_polls max_patience polls → length (sd_scr s) = 2%nat → 1 ≤ num < 2 ^ 22 →
  num * 512 ≤ Z.of_nat (length buffer) →
  (∃ stored r s', sd_readblock polls lba num s = Done (stored, r) s' ∧
     (r = num * 512 ∧ sd_err s' = 0 ∧ length stored = Z.to_nat (num * 512) ∨ r = 0 ∧ sd_err s' ≠ 0)) ∧
  (∃ r s', sd_writeblock polls buffer lba num s = Done r s' ∧
     (r = num * 512 ∧ sd_err s' = 0 ∨ r = 0 ∧ sd_err s' ≠ 0)).
Proof.
  intros Hp Hs Hn Hl. split.
  - pose proof (returns_readblock polls Hp lba num Hn s Hs) as H.
    apply wp_done in H as ([stored r] & s' & E & _ & Hr & Hb). exists stored, r, s'. split; [exact E|].
    unfold outcome_of in Hr. cbn in Hr, Hb. destruct (Z.eqb_spec (sd_err s') 0); auto.
  - pose proof (returns_writeblock polls Hp buffer lba num Hn Hl s Hs) as H.
    apply wp_done in H as (r & s' & E & _ & Hr). exists r, s'. split; [exact E|].
    unfold outcome_of in Hr. destruct (Z.eqb_spec (sd_err s') 0); auto.
Qed.
Lemma transfers_return_witness :
  ∃ stored r s', sd_readblock sim_polls 9 3 sim_driver = Done (stored, r) s' ∧
    (r = 1536 ∧ sd_err s' = 0 ∧ length stored = 1536%nat ∨ r = 0 ∧ sd_err s' ≠ 0).
Proof.
  destruct (transfers_return sim_polls 9 3 (replicate 1536 0) sim_driver sim_patient eq_refl) as [H _].
  - lia.
  - rewrite length_replicate. lia.
  - exact H.
Defined.

(** ** The device of the file system *)

(** C10: The SD card driver is the device of the FAT32 library: over a controller and a
    card that work, in the state between two transfers, reading a sector of the card through
    [sd_read_adapter] and writing one through [sd_write_adapter] succeed and give the bytes
    and the new contents that [ops_read] and [ops_write] have, and leave the driver in such
    a state again. *)
Theorem driver_implements_device {hw} `{!Mmio hw, !SystemTimer hw, !EmmcController hw} polls v (s : driver hw) :
  enough_polls max_patience polls → ready (disk v) s →
  (∀ sector block v', ops_read sector v = Done (Some block) v' →
     ∃ s', sd_read_adapter polls sector s = Done (block, true) s' ∧ ready (disk v') s') ∧
  (∀ block sector v', ops_write block sector v = Done true v' → length block = 512%nat → Forall byte_range block →
     ∃ s', sd_write_adapter polls block sector s = Done true s' ∧ ready (disk v') s').
Proof.
  intros Hp Hr. split.
  - intros sector block v' [= Hb <-].
    assert (W : wp (sd_read_adapter polls sector) (λ r s', r = (block, true) ∧ ready (disk v) s') s).
    { unfold sd_read_adapter. apply wp_bind. eapply (wp_sd_readblock polls Hp); [exact Hr|exact Hb|].
      intros s' Hs'. apply wp_ret. by split. }
    apply wp_done in W as (r & s' & E & -> & Hs'). by exists s'.
  - intros block sector v' Hw Hl Hb. unfold ops_write, gets, mbind, M_bind in Hw.
    destruct (decide _) as [[old Ho]|] in Hw; [|done]. injection Hw as <-.
    assert (W : wp (sd_write_adapter polls block sector) (λ r s', r = true ∧ ready (<[sector := block]> (disk v)) s') s).
    { unfold sd_write_adapter. apply wp_bind. eapply (wp_sd_writeblock polls Hp); [exact Hr|exact Ho|exact Hl|exact Hb|].
      intros s' Hs'. apply wp_ret. by split. }
    apply wp_done in W as (r & s' & E & -> & Hs'). by exists s'.
Qed.

Lemma sim_ready : ready (sectors (sim_controller (Sd.device sim_driver))) sim_driver.
Proof.
  split; [done|done| |exists SCR_SUPP_CCS; by split].
  change (sectors (sim_controller (Sd.device sim_driver))) with ({[ 7 := sim_card 170 ]} : gmap Z (list Z)).
  intros sector b [<- <-]%lookup_singleton_Some. split; [reflexivity|]. split; [|change (0 ≤ 7 < 2 ^ 32); lia].
  apply Forall_replicate. by split.
Qed.
Lemma driver_implements_device_witness :
  let v := {| fat := sample_fat; disk := {[ 7 := sim_card 170 ]} |} in
  (∃ s', sd_read_adapter sim_polls 7 sim_driver = Done (sim_card 170, true) s' ∧ ready (disk v) s') ∧
  ∃ s', sd_write_adapter sim_polls (sim_card 85) 7 sim_driver = Done true s' ∧ ready {[ 7 := sim_card 85 ]} s'.
Proof.
  intros v. destruct (driver_implements_device sim_polls v sim_driver sim_patient sim_ready) as [H1 H2]. split.
  - exact (H1 7 (sim_card 170) v eq_refl).
  - destruct (H2 (sim_card 85) 7 {| fat := sample_fat; disk := {[ 7 := sim_card 85 ]} |}) as (s' & E & Hs').
    + reflexivity.
    + reflexivity.
    + apply Forall_replicate. by split.
    + exists s'. split; [exact E|exact Hs'].
Defined.

(** ** A wait without an end *)

(** Start-up may hang: [sd_init] waits for the SCR register of the card with a counter
    that it never decrements; when the card does not send it the loop has no end, however
    long it runs. *)
Theorem scr_wait_has_no_end {hw} `{!Mmio hw} polls fuel r (s : driver hw) :
  r < 2 → (∀ h, bit_set (u32 (read_register EMMC_STATUS h).1) SR_READ_AVAILABLE = false) →
  scr_loop polls fuel r s = Fuel.
Proof.
  intros Hr Hst. revert s. induction fuel as [|fuel IH]; intros s; cbn [scr_loop]; destruct (Z.leb_spec 2 r); try lia; [done|].
  unfold mbind, M_bind. unfold reg_read at 1. rewrite Hst.
  assert (Hw : ∀ n target s, wait_until n target s = Fuel ∨ ∃ s', wait_until (hw:=hw) n target s = Done tt s').
  { induction n as [|n IHn]; intros target s'; cbn [wait_until]; [by left|]. unfold mbind, M_bind, reg_read.
    destruct (_ <? 0); [apply IHn|right; eauto]. }
  destruct (wait_msec polls 1 (set_device (read_register EMMC_STATUS (Sd.device s)).2 s)) as [[] s'| |] eqn:E; [apply IH| |done].
  exfalso. unfold wait_msec, mbind, M_bind, reg_read in E. cbn in E.
  match type of E with wait_until ?n ?t ?s = _ => destruct (Hw n t s) as [Hf|[? Hd]]; congruence end.
Qed.
(** A card that never sends it. *)
#[local] Instance mute : Mmio Z :=
  {| read_register reg h := if reg =? SYS_TIMER_CLOCK then (h, h + 1000) else (0, h); write_register _ _ h := h |}.
Lemma scr_wait_has_no_end_witness :
  scr_loop sim_polls 1000 0
    {| Sd.device := 0; sd_scr := [0; 0]; sd_rca := 0; sd_err := 0; sd_hv := 2; sd_out := [] |} = Fuel.
Proof. apply (scr_wait_has_no_end sim_polls 1000 0); [lia|]. intros h. reflexivity. Defined.
