(* ===== verification/PropIrq.v ===== *)
(** * Properties of interrupts and exceptions

    What an interrupt does to the kernel, the registers of the program it interrupts, and
    the exceptions that end in a message. *)
From stdpp Require Import strings.
From S2P Require Import Prelude.
From S2P Require Import Process.
From S2P Require Import ReadyQueue.
From S2P Require Import Scheduler.
From S2P Require Import SchedSpec.
From S2P Require Import SchedInv.
From S2P Require Import SchedDispatch.
From S2P Require Import SchedTick.
From S2P Require Import SchedChoice.
From S2P Require Import SchedOps.
From S2P Require Import Uart.
From S2P Require Import Fork.
From S2P Require Import Frame.
From S2P Require Import System.
From S2P Require Import Demo.
From S2P Require Import Mmio.
From S2P Require Import Irq.
From S2P Require Import PropSched.
From S2P Require Import PropState.
Local Open Scope Z_scope.

(** ** Interrupts *)

(** The UART gets bytes and nothing else changes. *)
Definition only_prints (c : K unit) : Prop := ∀ s, ∃ l, c s = Done tt (set_uart_out l s).
Lemma only_prints_bind (c d : K unit) : only_prints c → only_prints d → only_prints (c;; d).
Proof.
  intros Hc Hd s. destruct (Hc s) as [l E]. destruct (Hd (set_uart_out l s)) as [l' E']. exists l'.
  unfold mbind, M_bind. by rewrite E, E'.
Qed.
Lemma only_prints_bytes l : only_prints (uart_put_bytes l).
Proof.
  induction l as [|c l IH]; cbn [uart_put_bytes]; [by intros s; exists (uart_out s); destruct s|].
  apply only_prints_bind; [by intros s; eexists|done].
Qed.
Lemma only_prints_hex num : only_prints (uart_hex num).
Proof.
  apply only_prints_bind; [apply only_prints_bytes|]. generalize ((λ k, 60 - 4 * k) <$> seqZ 0 16). intros l.
  induction l as [|i l IH]; cbn [for_each]; [by intros s; exists (uart_out s); destruct s|].
  apply only_prints_bind; [by intros s; eexists|done].
Qed.
Lemma only_prints_unknown p1 p2 : only_prints (unknown_irq p1 p2).
Proof.
  apply only_prints_bind; [apply only_prints_bytes|]. apply only_prints_bind; [apply only_prints_hex|apply only_prints_bytes].
Qed.
Lemma good_prints alg s l : good alg s → good alg (set_uart_out l s).
Proof.
  intros (a & Hr & [Hm Hd]).
  assert (W : wp (modify (set_uart_out l)) (λ _, good alg) s); [|exact W].
  eapply wp_modify_core; [exact Hr|done..|]. intros s' Hr'. exists (a_core (set_uart_out l) a).
  split; [exact Hr'|]. split; [|exact Hd]. apply machine_ok_console; [done|done|]. by destruct (mo_uart _ _ Hm).
Qed.
Lemma in_kernel_done {hw A} (c : K A) a k (m : machine hw) : c (kern m) = Done a k → in_kernel c m = Done a (set_kern k m).
Proof. intros E. unfold in_kernel. by rewrite E. Qed.

(** The pending registers as an interrupt finds them. *)
Section pending.
Context {hw : Type} `{!Mmio hw}.
Definition pending_1 (m : machine hw) : Z := u32 (read_register (MMIO_BASE + IRQ_PENDING_1) (devices m)).1.
Definition pending_2 (m : machine hw) : Z :=
  u32 (read_register (MMIO_BASE + IRQ_PENDING_2) (read_register (MMIO_BASE + IRQ_PENDING_1) (devices m)).2).1.
Definition timer_pending (m : machine hw) : Prop := Z.land (pending_1 m) SYSTEM_TIMER_IRQ_1 ≠ 0.
Definition uart_pending (m : machine hw) : Prop := Z.land (pending_2 m) UART0_IRQ_BIT ≠ 0.
(** The deadline in the compare register lies one period after the time [clo] it was set at. *)
Definition rearmed (m : machine hw) : Prop := ∃ h clo,
  clo = u32 (read_register (MMIO_BASE + TIMER_CLO) h).1 ∧
  devices m = write_register (MMIO_BASE + TIMER_C1) (cur_val m) (read_register (MMIO_BASE + TIMER_CLO) h).2 ∧
  u32 (cur_val m - clo) = TIMER_PERIOD.
End pending.
Lemma deadline clo : u32 (u32 (clo + TIMER_PERIOD) - clo) = TIMER_PERIOD.
Proof. unfold u32. rewrite Zminus_mod_idemp_l. by replace (clo + TIMER_PERIOD - clo) with TIMER_PERIOD by lia. Qed.

(** C3: An interrupt in any reachable state, under any algorithm: [handle_irq] returns, and
    the kernel invariant holds again.  A timer interrupt goes first: it sets the next
    deadline one period ahead of the present time, also across the wrap of the counter, and
    runs the tick; a UART interrupt alone runs its handler; any other one only prints. *)
Theorem interrupt_keeps_kernel {hw} `{!Mmio hw} alg ia rf clo mis received late (m : machine hw) :
  alg ∈ all_algorithms → rtc (step alg ia rf) (boot_kernel clo) (kern m) →
  ∃ m', handle_irq alg mis received late m = Done tt m' ∧
    (∃ a, rep (kern m') a ∧ machine_ok alg a ∧ dispatched a) ∧
    (timer_pending m → handle_timer_tick alg (kern m) = Done tt (kern m') ∧ rearmed m') ∧
    (¬ timer_pending m → uart_pending m → handle_uart_irq alg mis received late (kern m) = Done tt (kern m')) ∧
    (¬ timer_pending m → ¬ uart_pending m → ∃ l, kern m' = set_uart_out l (kern m)).
Proof.
  intros Hin H. assert (Hao := alg_ok_all _ Hin). pose proof (reachable_good alg ia rf clo _ Hao H) as Hg.
  assert (Hgood : ∀ k, good alg k → ∃ a, rep k a ∧ machine_ok alg a ∧ dispatched a)
    by (intros k (a & Hr & Hm & Hd); by exists a).
  assert (E : ∀ b, (b =? 0) = false ↔ b ≠ 0) by (intros; apply Z.eqb_neq).
  unfold handle_irq, timer_pending, uart_pending, mbind, M_bind. unfold mmio_read at 1 2. cbn [devices set_devices].
  fold (pending_1 m) (pending_2 m). set (h := (read_register (MMIO_BASE + IRQ_PENDING_2) _).2).
  set (m2 := set_devices h _). assert (Ek : kern m2 = kern m) by done.
  destruct Hg as (a & Hr & Hl). destruct (Z.eqb_spec (Z.land (pending_1 m) SYSTEM_TIMER_IRQ_1) 0) as [E1|E1]; cbn [negb].
  - destruct (Z.eqb_spec (Z.land (pending_2 m) UART0_IRQ_BIT) 0) as [E2|E2]; cbn [negb].
    + destruct (only_prints_unknown (pending_1 m) (pending_2 m) (kern m2)) as [l El].
      eexists. split; [by apply in_kernel_done|]. rewrite Ek.
      split; [apply Hgood, good_prints; by exists a|]. split; [done|]. split; [done|]. intros _ _. by exists l.
    + pose proof (wp_uart_good mis received late _ _ Hr Hl) as W.
      apply wp_done in W as ([] & k & El & Hk). rewrite <- Ek in El.
      eexists. split; [by apply in_kernel_done|]. split; [by apply Hgood|]. split; [done|]. split; [by rewrite <- Ek|done].
  - pose proof (wp_tick_good _ _ Hao Hr Hl) as W. apply wp_done in W as ([] & k & El & Hk).
    unfold handle_timer_irq, mbind, M_bind, mmio_write, mmio_read, modify. cbn [devices set_devices set_cur_val].
    eexists. split; [apply in_kernel_done; exact El|]. split; [by apply Hgood|]. split; [|by split; intros []].
    intros _. split; [exact El|]. unfold rearmed. cbn [devices cur_val set_kern set_devices set_cur_val].
    eexists _, _. split; [reflexivity|]. split; [|apply deadline]. f_equal. apply u32_small, u32_range.
Qed.

(** Devices whose timer interrupt is pending, shortly before the counter wraps. *)
#[local] Instance ticking : Mmio Z :=
  {| read_register reg h := (if reg =? MMIO_BASE + IRQ_PENDING_1 then SYSTEM_TIMER_IRQ_1
                             else if reg =? MMIO_BASE + TIMER_CLO then 2 ^ 32 - 1 else 0, h);
     write_register reg v h := if reg =? MMIO_BASE + TIMER_C1 then v else h |}.
Lemma interrupt_keeps_kernel_witness :
  let m := {| kern := demo_boot; devices := 0; cur_val := 0 |} in
  ∃ m', handle_irq sched_round_robin 0 [] [] m = Done tt m' ∧
    handle_timer_tick sched_round_robin demo_boot = Done tt (kern m') ∧ rearmed m'.
Proof.
  intros m.
  destruct (interrupt_keeps_kernel sched_round_robin 0 0 (λ _, 0) 0 [] [] m (alg_at 0 sched_round_robin eq_refl)
    (rtc_refl _ _)) as (m' & E & _ & H & _).
  exists m'. split; [exact E|]. apply H. vm_compute. discriminate.
Defined.

(** ** The registers of an interrupted program *)


(** ** Exceptions without a handler *)

Definition prints_from (s : kernel) (c : K unit) : Prop := ∀ l, ∃ l', c (set_uart_out l s) = Done tt (set_uart_out l' s).
Lemma prints_from_bind s (c d : K unit) : only_prints c → prints_from s d → prints_from s (c;; d).
Proof.
  intros Hc Hd l. destruct (Hc (set_uart_out l s)) as [l1 E1]. destruct (Hd l1) as [l2 E2]. exists l2.
  unfold mbind, M_bind. rewrite E1. exact E2.
Qed.
Lemma prints_from_now s (c : K unit) : prints_from s c → ∃ l, c s = Done tt (set_uart_out l s).
Proof. intros H. destruct (H (uart_out s)) as [l E]. exists l. by destruct s. Qed.
Lemma prints_from_current s pcb (f : PCB → K unit) :
  heap s !! current_process s = Some pcb → only_prints (f pcb) → prints_from s (pcb ← load_current; f pcb).
Proof.
  intros Hp Hf l. destruct (Hf (set_uart_out l s)) as [l' E]. exists l'. unfold mbind, M_bind.
  assert (El : load_current (set_uart_out l s) = Done pcb (set_uart_out l s)).
  { unfold load_current, gets, load, mbind, M_bind. cbn [heap current_process set_uart_out]. by rewrite Hp. }
  rewrite El. exact E.
Qed.

(** The message of an exception that has no handler is there for the sixteen entries of
    the vector table and only for them: [SYNC_ERROR] and [SYSCALL_ERROR], with which the
    entry code calls it too, read past the end of the table of messages. *)
Theorem error_messages_end s type esr address :
  is_Some (heap s !! current_process s) →
  (0 ≤ type < 16 → ∃ l, show_invalid_entry_message type esr address s = Done tt (set_uart_out l s)) ∧
  (¬ 0 ≤ type < 16 → show_invalid_entry_message type esr address s = Undefined) ∧
  show_invalid_entry_message SYNC_ERROR esr address s = Undefined ∧
  show_invalid_entry_message SYSCALL_ERROR esr address s = Undefined.
Proof.
  intros [pcb Hpcb].
  assert (Hout : ∀ t, ¬ 0 ≤ t < 16 → show_invalid_entry_message t esr address s = Undefined).
  { intros t Ht. unfold show_invalid_entry_message. unfold mbind at 1, M_bind at 1.
    destruct (only_prints_bytes (bytes_of_string "[KERNEL PANIC] ") s) as [l E]. unfold uart_puts at 1. rewrite E.
    destruct (arr_get entry_error_messages t) as [msg|] eqn:Et; [|reflexivity]. apply arr_get_Some_bound in Et. done. }
  split; [|split; [apply Hout|split; apply Hout; unfold SYNC_ERROR, SYSCALL_ERROR; lia]].
  intros Ht. destruct (arr_get_is_Some entry_error_messages type) as [_ [msg Et]]; [done|].
  apply prints_from_now. unfold show_invalid_entry_message. rewrite Et.
  apply prints_from_bind; [apply only_prints_bytes|]. intros l. unfold mbind at 1, M_bind at 1. cbn [defined].
  unfold mret, M_ret. revert l. change (prints_from s (uart_puts msg;; uart_puts ", ESR: ";; uart_hex esr;;
    uart_puts ", address: ";; uart_hex address;; uart_puts ", process: ";; pcb ← load_current;
    uart_hex (pid pcb);; uart_put_bytes newline)).
  do 6 (apply prints_from_bind; [first [apply only_prints_bytes|apply only_prints_hex]|]).
  eapply prints_from_current; [exact Hpcb|]. apply only_prints_bind; [apply only_prints_hex|apply only_prints_bytes].
Qed.
Lemma error_messages_end_witness :
  show_invalid_entry_message SYSCALL_ERROR 0 0 demo_boot = Undefined.
Proof.
  assert (H : is_Some (heap demo_boot !! current_process demo_boot)) by (eexists; vm_compute; reflexivity).
  destruct (error_messages_end demo_boot 0 0 0 H) as (_ & _ & _ & H'). exact H'.
Defined.
