(* ===== verification/PropShell.v ===== *)
(** * Properties of the shell

    The paths and the command lines of src/app/shell.c, and what two of its commands make
    of the system calls. *)
From stdpp Require Import strings.
From S2P Require Import Prelude.
From S2P Require Import Process.
From S2P Require Import CString.
From S2P Require Import FatFile.
From S2P Require Import FatCalls.
From S2P Require Import FileCalls.
From S2P Require Import UserCalls.
From S2P Require Import Shell.
From S2P Require Import ShellPath.
Local Open Scope Z_scope.

(** ** Paths *)

(** C17: [normalize_path] on an absolute path of names, ["."] and [".."] that does not leave
    the root: the array holds the path of the folder that following the components leads to,
    with the last component behind it if it is a name, and nothing past the array is
    touched.  Names must not end in a dot, which the code drops. *)
Theorem normalize_resolves cs last out rest :
  destination cs last = Some out → Forall component_ok cs → (∀ c, last = Some c → component_ok c) →
  ∃ rest', normalize_path (absolute cs last ++ NUL :: rest) = Some (out ++ NUL :: rest') ∧
    length (out ++ NUL :: rest') = length (absolute cs last ++ NUL :: rest).
Proof. apply normalize_spec. Qed.
Definition usr : list Z := [117; 115; 114].
Definition bin : list Z := [98; 105; 110].
Lemma usr_ok : name_ok usr.
Proof.
  split; [by exists [117; 115], 114|apply (bool_decide_unpack (SLASH ∉ usr))|apply (bool_decide_unpack (no_nul usr))]; vm_compute; exact I.
Qed.
Lemma bin_ok : name_ok bin.
Proof.
  split; [by exists [98; 105], 110|apply (bool_decide_unpack (SLASH ∉ bin))|apply (bool_decide_unpack (no_nul bin))]; vm_compute; exact I.
Qed.
(** ["/usr/./../bin"] *)
Lemma normalize_resolves_witness :
  ∃ rest', normalize_path ([47; 117; 115; 114; 47; 46; 47; 46; 46; 47; 98; 105; 110] ++ NUL :: replicate 50 0) =
    Some ([47; 98; 105; 110] ++ NUL :: rest').
Proof.
  destruct (normalize_resolves [Name usr; Here; Up] (Some (Name bin)) [47; 98; 105; 110] (replicate 50 0)) as (rest' & E & _).
  - reflexivity.
  - constructor; [exact usr_ok|]. constructor; [exact I|]. constructor; [exact I|constructor].
  - intros c [= <-]. exact bin_ok.
  - exists rest'. exact E.
Defined.

(** Two steps above the root leave the array: on ["/../../"] and whatever follows
    [normalize_path] moves its write index to -1 and stores before the array. *)
Theorem above_root_undefined rest : normalize_path (absolute [Up; Up] None ++ rest) = None.
Proof. apply normalize_escapes. Qed.

(** ** Programs *)
Section programs.
Context {St : Type} `{!UserCalls St}.

Lemma row_terminated w : (length w < 64)%nat → row w = w ++ NUL :: replicate (63 - length w) 0.
Proof. intros H. unfold row. by replace (64 - length w)%nat with (S (63 - length w)) by lia. Qed.
Lemma split_command w ws buffer rest :
  buffer = words (w :: ws) ++ NUL :: rest → length buffer = 64%nat → word_ok w → Forall word_ok ws →
  ∃ raw, strsplit buffer SPACE zeroed zeroed = Some (row w, raw) ∧
    length raw = 64%nat ∧ ∃ rest', raw = words ws ++ NUL :: rest'.
Proof.
  intros -> Hl Hw Hws. cbn [words] in *. rewrite !length_app in Hl. cbn [length] in Hl.
  destruct ws as [|w' ws].
  - exists zeroed. cbn [app length] in *. rewrite app_nil_r.
    rewrite (strsplit_none w SPACE NUL rest) by (try apply Hw; try done; rewrite zeroed_length; lia).
    rewrite zeroed_after by lia. split; [done|]. split; [done|]. by exists (replicate 63 0).
  - pose proof (words_line _ Hws) as Hb. remember (words (w' :: ws)) as b eqn:Eb. rewrite <- app_assoc. cbn [app length] in *.
    exists (b ++ drop (length b) zeroed).
    rewrite (strsplit_spec w SPACE b NUL rest) by (try apply Hw; try done; rewrite zeroed_length; lia).
    split; [|split].
    + rewrite zeroed_after by lia. rewrite row_terminated by lia.
      by replace (64 - S (length w))%nat with (63 - length w)%nat by lia.
    + rewrite length_app, length_drop, zeroed_length. lia.
    + exists (replicate (63 - length b) 0). rewrite zeroed_after by lia.
      by replace (64 - length b)%nat with (S (63 - length b)) by lia.
Qed.
Definition bin_prefix : list Z := [47; 98; 105; 110; 47].
Definition bin_suffix : list Z := [46; 98; 105; 110].
Lemma bin_path_spec w :
  no_nul w → SLASH ∉ w → (length w < 55)%nat →
  ∃ rest, bin_path (row w) = Some (bin_prefix ++ w ++ bin_suffix ++ NUL :: rest).
Proof.
  intros Hn Hs Hl. unfold bin_path.
  assert (H1 : strcat zeroed (lit "/bin/") = Some (bin_prefix ++ NUL :: replicate 58 0)).
  { vm_compute. reflexivity. }
  rewrite H1. cbn [mbind option_bind]. rewrite row_terminated by lia.
  assert (Hp : no_nul bin_prefix) by (apply (bool_decide_unpack (no_nul bin_prefix)); vm_compute; exact I).
  assert (Hq : no_nul bin_suffix) by (apply (bool_decide_unpack (no_nul bin_suffix)); vm_compute; exact I).
  rewrite strcat_terminated; [|done|done|rewrite length_replicate; lia]. cbn [mbind option_bind].
  assert (Hpw : no_nul (bin_prefix ++ w)) by (unfold no_nul in *; rewrite elem_of_app; tauto).
  rewrite (app_assoc bin_prefix w). change (lit ".bin") with (bin_suffix ++ NUL :: []).
  rewrite strcat_terminated; [|done|done|rewrite length_drop, length_replicate; cbn; lia]. cbn [mbind option_bind].
  set (rest := drop _ _). destruct (normalize_spec [Name bin] (Some (Name (w ++ bin_suffix))) (bin_prefix ++ w ++ bin_suffix) rest)
    as (rest' & E & _).
  - unfold destination. cbn. done.
  - constructor; [exact bin_ok|constructor].
  - intros c [= <-]. split.
    + exists (w ++ [46; 98; 105]), 110. by rewrite <- app_assoc.
    + rewrite elem_of_app. intros [H|H]; [done|]. revert H. apply (bool_decide_unpack (SLASH ∉ bin_suffix)). vm_compute. exact I.
    + unfold no_nul in *. rewrite elem_of_app. tauto.
  - exists rest'. change (absolute [Name bin] (Some (Name (w ++ bin_suffix)))) with (bin_prefix ++ (w ++ bin_suffix)) in E.
    repeat rewrite <- app_assoc in E. repeat rewrite <- app_assoc. exact E.
Qed.

(** C18: Starting a program by its name: the line of a command that is no built-in one, a
    name and words behind it, makes the shell fork; the child executes ["/bin/NAME.bin"]
    with the words, at most four of them, each in a row of 64 bytes, and the parent waits
    for the child. *)
Theorem command_starts_program w ws buffer rest s :
  buffer = words (w :: ws) ++ NUL :: rest → length buffer = 64%nat → word_ok w → Forall word_ok ws →
  SLASH ∉ w → (length w < 55)%nat →
  ∃ rest', handle_exec_from_bin buffer s =
    (pid ← call_syscall_fork;
     if pid =? 0 then
       error ← call_syscall_exec (bin_prefix ++ w ++ bin_suffix ++ NUL :: rest') (row <$> take 4 ws);
       when (negb (error =? 0))
         (quoted "[SHELL] Cannot find '" (row w) "' binary file.";; call_syscall_exit);;
       call_syscall_exit
     else wait_for pid) s.
Proof.
  intros Hb Hl Hw Hws Hs Hlen. destruct (split_command w ws buffer rest Hb Hl Hw Hws) as (raw & E & Hraw & rest1 & Er).
  destruct (bin_path_spec w (one_line_no_nul _ (wd_line _ Hw)) Hs Hlen) as (rest' & Ep). exists rest'.
  unfold handle_exec_from_bin, mbind at 1, M_bind at 1. rewrite E. cbn [defined]. unfold mret at 1, M_ret at 1.
  unfold mbind at 1, M_bind at 1. rewrite row_terminated, strlen_terminated by (first [lia|apply one_line_no_nul, Hw]).
  cbn [defined]. unfold mret at 1, M_ret at 1. unfold MAX_COMMAND_DIMENSION.
  destruct (Z.leb_spec 64 (5 + Z.of_nat (length w) + 4)); [lia|].
  unfold mbind at 1, M_bind at 1. rewrite <- row_terminated, Ep by lia. cbn [defined]. unfold mret at 1, M_ret at 1.
  unfold mbind at 1, M_bind at 1. rewrite (split_arguments_words MAX_EXEC_ARGUMENTS ws raw rest1 Er Hraw Hws).
  reflexivity.
Qed.
End programs.

(** A system that answers every call, of which the writes and the program executed are
    recorded: the process is the child of every fork, and no program can be executed. *)
#[local] Instance transcript : UserCalls (list (list Z)) :=
  {| call_syscall_write b := modify (λ s, s ++ [b]);
     call_syscall_write_hex _ := mret tt;
     call_syscall_input b _ := mret b;
     call_syscall_create_dir _ := mret 3;
     call_syscall_open_dir _ := mret 3;
     call_syscall_open_file _ _ := mret 3;
     call_syscall_close_file _ := mret 0;
     call_syscall_write_file _ _ _ := mret 0;
     call_syscall_read_file _ b _ := mret (b, 0);
     call_syscall_get_next_entry _ info := mret ({| e_size := 0; e_name := row usr; e_is_dir := 1 |}, 0);
     call_syscall_fork := mret 0;
     call_syscall_exec path arguments := modify (λ s, s ++ path :: arguments);; mret (-1);
     call_syscall_wait _ := mret 0;
     call_syscall_exit := mret tt;
     call_syscall_set_sched_param _ _ _ := mret 0;
     call_syscall_get_time := mret 0;
     call_syscall_malloc := mret 0;
     call_syscall_yield := mret tt;
     call_syscall_get_pid := mret 1;
     call_syscall_send_message _ _ := mret 0;
     call_syscall_receive_message b := mret b;
     call_syscall_send_signal _ _ := mret 0 |}.
(** ["usr bin usr"] *)
Definition sample_command : list Z := words [usr; bin; usr] ++ replicate 53 0.
Lemma word_usr : word_ok usr.
Proof.
  split; [|apply (bool_decide_unpack (SPACE ∉ usr)); vm_compute; exact I|discriminate].
  apply (bool_decide_unpack (Forall (λ c, line_end c = false) usr)). vm_compute. exact I.
Qed.
Lemma word_bin : word_ok bin.
Proof.
  split; [|apply (bool_decide_unpack (SPACE ∉ bin)); vm_compute; exact I|discriminate].
  apply (bool_decide_unpack (Forall (λ c, line_end c = false) bin)). vm_compute. exact I.
Qed.
Lemma command_starts_program_witness :
  ∃ rest' s', handle_exec_from_bin sample_command [] = Done tt s' ∧
    take 3 s' = [[47; 98; 105; 110; 47; 117; 115; 114; 46; 98; 105; 110] ++ NUL :: rest'; row bin; row usr].
Proof.
  destruct (command_starts_program usr [bin; usr] sample_command (replicate 52 0) []) as (rest' & E).
  - reflexivity.
  - reflexivity.
  - exact word_usr.
  - constructor; [exact word_bin|]. constructor; [exact word_usr|constructor].
  - apply (bool_decide_unpack (SLASH ∉ usr)). vm_compute. exact I.
  - cbn. lia.
  - exists rest'. eexists. split; [exact E|]. reflexivity.
Defined.

(** ** The directory tree *)
Lemma get_next_entry_result fd info w r w' : syscall_get_next_entry fd info w = Done r w' → r.2 = 0 ∨ r.2 = -1.
Proof.
  intros H. assert (W : wlp (syscall_get_next_entry fd info) (λ r _, r.2 = 0 ∨ r.2 = -1) w); [|unfold wlp in W; by rewrite H in W].
  clear H. unfold syscall_get_next_entry.
  assert (Hb : ∀ {A B} (c : W A) (f : A → W B) Q w, (∀ a w', wlp (f a) Q w') → wlp (c ≫= f) Q w).
  { intros A B c f Q w0 Hf. apply wlp_bind. unfold wlp. destruct (c w0); try done. apply Hf. }
  apply Hb. intros [address|] w1; [|right; reflexivity].
  apply Hb. intros [fat d] w2. apply Hb. intros r1 w3. apply Hb. intros [] w4.
  destruct r1.2 as [dir_info|e]; [|right; reflexivity].
  apply Hb. intros name w5. cbv zeta. apply Hb. intros [fat' d'] w6.
  apply Hb. intros r2 w7. apply Hb. intros [] w8. destruct r2.2; [left; reflexivity|right; reflexivity].
Qed.

(** Two continuations that agree on what the first part returns. *)
Lemma bind_same {St A B} (m : M St A) (f g : A → M St B) s :
  (∀ a s', m s = Done a s' → f a s' = g a s') → (m ≫= f) s = (m ≫= g) s.
Proof. intros H. unfold mbind, M_bind. destruct (m s) as [a s'| |] eqn:E; [apply H; exact eq_refl|done|done]. Qed.

(** The command tree lists nothing: it goes on while the result of the call for the next
    entry is 1, and the kernel's handler returns 0 or -1 in every state; over calls with
    these results [print_tree] asks for one entry of the directory and writes nothing,
    whatever the directory holds. *)
Theorem tree_lists_nothing :
  (∀ fd info w r w', syscall_get_next_entry fd info w = Done r w' → r.2 = 0 ∨ r.2 = -1) ∧
  ∀ St (H : UserCalls St) levels entries info path depth (s : St),
    (∀ fd info s r s', call_syscall_get_next_entry fd info s = Done r s' → r.2 = 0 ∨ r.2 = -1) →
    print_tree (S levels) (S entries) info path depth s =
      (fd ← call_syscall_open_dir path;
       if fd =? -1 then mret tt else _ ← call_syscall_get_next_entry fd (clear_name info); mret tt) s.
Proof.
  split; [exact get_next_entry_result|]. intros St H levels entries info path depth s Hcall.
  cbn [print_tree tree_loop]. apply bind_same. intros fd s1 _. destruct (fd =? -1); [reflexivity|].
  apply bind_same. intros [info' result] s2 E.
  destruct (Hcall _ _ _ _ _ E) as [Hr|Hr]; cbn in Hr; rewrite Hr; reflexivity.
Qed.
Lemma tree_lists_nothing_witness :
  let info := {| e_size := 0; e_name := zeroed; e_is_dir := 0 |} in
  print_tree 5 100 info root_directory 0 [] = Done tt ([] : list (list Z)).
Proof.
  intros info. destruct tree_lists_nothing as [_ H].
  assert (Hc : ∀ fd info s r s', call_syscall_get_next_entry (UserCalls := transcript) fd info s = Done r s' → r.2 = 0 ∨ r.2 = -1).
  { intros fd info' s r s' [= <- _]. left. reflexivity. }
  pose proof (H _ transcript 4%nat 99%nat info root_directory 0 [] Hc) as E. exact E.
Defined.
