(* ===== verification/PropBoot.v ===== *)
(** * Properties of the start

    What the page tables of the kernel map, and what [kernel_main] leaves behind. *)
From stdpp Require Import strings.
From S2P Require Import Prelude.
From S2P Require Import Process.
From S2P Require Import ReadyQueue.
From S2P Require Import Scheduler.
From S2P Require Import SchedSpec.
From S2P Require Import SchedInv.
From S2P Require Import SchedDispatch.
From S2P Require Import SchedTick.
From S2P Require Import SchedChoice.
From S2P Require Import SchedOps.
From S2P Require Import CString.
From S2P Require Import Mm.
From S2P Require Import Uart.
From S2P Require Import Fork.
From S2P Require Import Frame.
From S2P Require Import System.
From S2P Require Import Demo.
From S2P Require Import Paging.
From S2P Require Import Boot.
From S2P Require Import BootMap.
From S2P Require Import FatTable.
From S2P Require Import FatMount.
From S2P Require Import FatMounted.
From S2P Require Import Filesystem.
From S2P Require Import Mmio.
From S2P Require Import Irq.
From S2P Require Import Sd.
From S2P Require Import SdSpec.
From S2P Require Import Board.
From S2P Require Import Kernel.
From S2P Require Import FatDemo.
From S2P Require Import PropSched.
From S2P Require Import PropState.
From S2P Require Import PropIrq.
From S2P Require Import PropFile.
Local Open Scope Z_scope.

(** ** The mapping of the kernel *)

(** What [el1_entry] leaves: the tables, in both base registers. *)
Definition with_tables (pgd : Z) (k : kernel) : kernel :=
  set_ttbr0_el1 pgd (set_mem {| (mem k) with words := boot_words pgd (words (mem k)) |} k).
Lemma el1_entry_done pgd k : el1_entry pgd k = Done pgd (with_tables pgd k).
Proof. unfold el1_entry, mbind, M_bind. rewrite runs_tables. reflexivity. Qed.
(** The words of .bss, which are cleared. *)
Definition in_bss (l : layout) (x : Z) : Prop := in_range (bss_start l + VA_START) (bss_end l - bss_start l) x.
Lemma cleared_word a size x w :
  0 < size → in_range a size x → word_at (zero_words (Nat.max 1 (Z.to_nat ((size + 7) / 8))) a w) x = 0.
Proof.
  intros Hs (k & Hk & Hlt & ->). rewrite zero_words_spec, decide_True; [done|].
  replace (a + 8 * k - a) with (k * 8) by lia. rewrite Z.mod_mul by lia. split; [done|].
  pose proof (Z.div_mod (size + 7) 8). pose proof (Z.mod_pos_bound (size + 7) 8). lia.
Qed.
Lemma kept_word a size x w :
  0 < size → ¬ in_range a size x → word_at (zero_words (Nat.max 1 (Z.to_nat ((size + 7) / 8))) a w) x = word_at w x.
Proof.
  intros Hs Hx. rewrite zero_words_spec, decide_False; [done|]. intros [Hm Hb]. apply Hx. exists ((x - a) / 8).
  pose proof (Z.div_mod (x - a) 8). pose proof (Z.div_mod (size + 7) 8). pose proof (Z.mod_pos_bound (size + 7) 8). lia.
Qed.
Lemma wp_result {St A} (m : M St A) a (Q : St → Prop) s : wp m (λ b s', b = a ∧ Q s') s → ∃ s', m s = Done a s' ∧ Q s'.
Proof. intros (b & s' & E & -> & H)%wp_done. by exists s'. Qed.
(** The registers [kernel_main] is entered with. *)
Record kernel_mode (pgd : Z) (p : processor) : Prop := {
  km_level : current_el p = Z.shiftl 1 2;
  km_mmu : Z.testbit (sctlr_el1 p) 0 = true;
  km_sizes : Z.land (tcr_el1 p) 0x3f = 64 - 48 ∧ Z.land (Z.shiftr (tcr_el1 p) 16) 0x3f = 64 - 48;
  km_device : Z.land (Z.shiftr (mair_el1 p) (8 * MT_DEVICE_nGnRnE)) 0xff = 0x00;
  km_normal : Z.land (Z.shiftr (mair_el1 p) (8 * MT_NORMAL_NC)) 0xff = 0x44;
  km_stack : stack_pointer p = VA_START + LOW_MEMORY;
  km_tables : ttbr1_el1 p = pgd ∧ ttbr0_el1 (kernel_state p) = pgd
}.

(** The memory [kernel_main] is entered with. *)
Definition cleared (l : layout) (k : kernel) : kernel :=
  set_mem {| (mem k) with words := zero_words (Nat.max 1 (Z.to_nat ((bss_end l - bss_start l + 7) / 8))) (bss_start l + VA_START)
    (words (mem k)) |} k.
Definition entered (l : layout) (k : kernel) : kernel := with_tables (pgd_address l) (cleared l k).
Lemma to_el1_done p :
  ∃ p1, to_el1 p = Done tt p1 ∧ kernel_state p1 = kernel_state p ∧ mpidr_el1 p1 = mpidr_el1 p ∧
    (current_el p = Z.shiftl 2 2 ∨ current_el p = Z.shiftl 1 2 → current_el p1 = Z.shiftl 1 2) ∧
    (current_el p = Z.shiftl 2 2 → daif p1 = 7).
Proof.
  unfold to_el1, mbind, M_bind, gets. destruct (Z.eqb_spec (Z.shiftr (current_el p) 2) 2) as [E|E]; eexists; (split; [reflexivity|]).
  - by split_and!.
  - split; [done|]. split; [done|]. split; [intros [H|H]; [by rewrite H in E|exact H]|intros H; by rewrite H in E].
Qed.
Lemma start_done l p :
  ∃ p', _start l p = Done (Z.land (mpidr_el1 p) 3 =? 0) p' ∧
    if Z.land (mpidr_el1 p) 3 =? 0 then
      kernel_state p' = entered l (kernel_state p) ∧ (current_el p = Z.shiftl 2 2 → daif p' = 7) ∧
      (current_el p = Z.shiftl 2 2 ∨ current_el p = Z.shiftl 1 2 → kernel_mode (pgd_address l) p')
    else kernel_state p' = kernel_state p.
Proof.
  destruct (to_el1_done p) as (p1 & E1 & Hk & Hm & Hl & Hd).
  unfold _start, mbind at 1, M_bind at 1. rewrite E1. clear E1. apply wp_result.
  destruct p1 as [e1 d1 h1 sp1 m1 sc1 tt1 tc1 ma1 st1 k1]; cbn [current_el daif mpidr_el1 kernel_state] in Hl, Hd, Hk, Hm; subst k1 m1.
  unfold already_el1, msr_sctlr_el1. rewrite !wp_bind, wp_modify, wp_bind. unfold wp at 1, gets. cbn [mpidr_el1]. rewrite wp_ret.
  destruct (Z.land (mpidr_el1 p) 3 =? 0); cbn [negb]; [|rewrite wp_ret; split; reflexivity].
  unfold mov_sp, msr_ttbr1_el1, msr_tcr_el1, msr_mair_el1, clear_bss.
  rewrite wp_bind, wp_modify, wp_bind. unfold wp at 1, on_kernel_state, memzero, change_words, modify at 1. cbn [kernel_state].
  rewrite wp_bind. unfold wp at 1, on_kernel_state. cbn [kernel_state]. rewrite el1_entry_done.
  repeat (rewrite wp_bind, wp_modify; cbn [current_el daif hcr_el2 spsr_el2 mpidr_el1 sctlr_el1 ttbr1_el1 tcr_el1 mair_el1 stack_pointer kernel_state]).
  rewrite wp_ret. split; [reflexivity|]. split; [reflexivity|]. split; [exact Hd|]. intros He.
  split; [exact (Hl He)|reflexivity|split; reflexivity|reflexivity|reflexivity|reflexivity|split; reflexivity].
Qed.

(** C5: From the reset to [kernel_main]: the primary core, in EL2 or EL1, reaches it in EL1, with
    the exceptions masked if it came from EL2, on its stack and with the MMU on: addresses of
    48 bits, the attributes the tables name, and tables that map the whole physical memory,
    for the kernel in the high half and, as both base registers get them, at the physical
    addresses too: address [VA_START + p] and address [p] lead to [p], as a device from
    [DEVICE_BASE] on and as normal memory below, out of the reach of user code, and nothing
    else is mapped.  Of the memory .bss is cleared, the three pages of the tables are written
    and the rest stays.  Another core waits and writes nothing. *)
Theorem start_enters_kernel l p :
  let pgd := pgd_address l in
  pgd mod PAGE_SIZE = 0 → 0 ≤ pgd < PHYS_MEMORY_SIZE → bss_start l < bss_end l →
  current_el p = Z.shiftl 2 2 ∨ current_el p = Z.shiftl 1 2 →
  (Z.land (mpidr_el1 p) 3 = 0 → ∃ p', _start l p = Done true p' ∧ kernel_mode pgd p' ∧
     (current_el p = Z.shiftl 2 2 → daif p' = 7) ∧
     (∀ va a, 0 ≤ a < 2 ^ 48 → va = a ∨ va = VA_START + a →
        translate_block (words (mem (kernel_state p'))) pgd va = if a <? PHYS_MEMORY_SIZE then Some (physical a) else None) ∧
     (∀ x, ¬ (pgd + VA_START ≤ x < pgd + VA_START + PGD_SIZE) →
        (in_bss l x → word_at (words (mem (kernel_state p'))) x = 0) ∧
        (¬ in_bss l x → word_at (words (mem (kernel_state p'))) x = word_at (words (mem (kernel_state p))) x))) ∧
  (Z.land (mpidr_el1 p) 3 ≠ 0 → ∃ p', _start l p = Done false p' ∧ kernel_state p' = kernel_state p).
Proof.
  intros pgd Hp Hr Hb Hel. destruct (start_done l p) as (p' & E & H). split; intros Hc.
  - rewrite Hc in E, H. cbn [Z.eqb] in E, H. destruct H as (Hk & Hd & Hm). exists p'. rewrite Hk.
    split; [exact E|]. split; [exact (Hm Hel)|]. split; [exact Hd|]. split.
    + intros va a Ha Hva. exact (boot_translate pgd _ va a Hp Hr (conj Ha Hva)).
    + intros x Hx. unfold entered, with_tables. fold pgd. cbn [mem words set_mem set_ttbr0_el1]. rewrite (boot_outside pgd _ x Hx).
      split; intros Hi; [apply cleared_word; [lia|exact Hi]|apply kept_word; [lia|exact Hi]].
  - apply Z.eqb_neq in Hc. rewrite Hc in E, H. by exists p'.
Qed.
Definition demo_processor : processor :=
  {| current_el := 8; daif := 15; hcr_el2 := 0; spsr_el2 := 0; mpidr_el1 := 0x80000000; sctlr_el1 := 0; ttbr1_el1 := 0; tcr_el1 := 0;
     mair_el1 := 0; stack_pointer := 0; kernel_state := demo_boot |}.
Definition demo_layout : layout := {| bss_start := 0x98000; bss_end := 0x9f000; pgd_address := 0xa0000; start_address := 0x80000 |}.
Lemma start_enters_kernel_witness :
  ∃ p', _start demo_layout demo_processor = Done true p' ∧ daif p' = 7 ∧
    translate_block (words (mem (kernel_state p'))) 0xa0000 (VA_START + 0x3f201000) =
      Some {| m_address := 0x3f201000; m_attribute := MT_DEVICE_nGnRnE; m_user := false |} ∧
    translate_block (words (mem (kernel_state p'))) 0xa0000 0x80000 =
      Some {| m_address := 0x80000; m_attribute := MT_NORMAL_NC; m_user := false |}.
Proof.
  destruct (start_enters_kernel demo_layout demo_processor) as [H _]; [reflexivity|by vm_compute|reflexivity|left; reflexivity|].
  destruct H as (p' & E & _ & Hd & Hm & _); [reflexivity|]. exists p'. split; [exact E|]. split; [by apply Hd|]. split.
  - apply (Hm (VA_START + 0x3f201000) 0x3f201000); [lia|right; reflexivity].
  - apply (Hm 0x80000 0x80000); [lia|left; reflexivity].
Defined.

(** ** From [kernel_main] to the idle loop *)

(** The state the kernel starts in. *)
Section start.
Context {alg : SchedAlgorithm}.
Definition a_start (w : gmap Z Z) (pgd : Z) (clo : nat → Z) (l : list Z) : astate :=
  a_core (set_uart_out l) (a_core (set_irq_enabled true) (a_core (set_ttbr0_el1 pgd)
    (a_core (set_mem {| memory_pages := ∅; words := w |}) (boot_state clo)))).
Definition start_kernel (w : gmap Z Z) (pgd : Z) (clo : nat → Z) : kernel :=
  set_ttbr0_el1 pgd (set_mem {| memory_pages := ∅; words := w |} (boot_kernel clo)).
Lemma start_entered l clo p p' :
  kernel_state p = boot_kernel clo → _start l p = Done true p' → ∃ w, kernel_state p' = start_kernel w (pgd_address l) clo.
Proof.
  intros Hk E. destruct (start_done l p) as (p2 & E2 & H). rewrite E in E2. injection E2 as Hp <-. rewrite <- Hp in H.
  destruct H as [H _]. rewrite Hk in H. eexists. exact H.
Qed.
Lemma silent k : uart_out k = [] → k = set_uart_out [] k.
Proof. destruct k. cbn. by intros ->. Qed.
Lemma start_good w pgd clo l :
  rep (set_uart_out l (set_irq_enabled true (start_kernel w pgd clo))) (a_start w pgd clo l) ∧
  live alg (a_start w pgd clo l).
Proof.
  split.
  - assert (W : wp (modify (set_mem {| memory_pages := ∅; words := w |});; modify (set_ttbr0_el1 pgd);;
        modify (set_irq_enabled true);; modify (set_uart_out l)) (λ _ s, rep s (a_start w pgd clo l)) (boot_kernel clo)).
    { apply wp_bind. eapply wp_modify_core; [apply boot_rep|done..|]. intros s1 R1.
      apply wp_bind. eapply wp_modify_core; [exact R1|done..|]. intros s2 R2.
      apply wp_bind. eapply wp_modify_core; [exact R2|done..|]. intros s3 R3.
      eapply wp_modify_core; [exact R3|done..|]. intros s4 R4. exact R4. }
    exact W.
  - destruct (boot_live (alg:=alg) (clo:=clo)) as [Hm Hd].
    assert (H1 := machine_ok_mem {| memory_pages := ∅; words := w |} _ Hm ltac:(done)).
    assert (H2 : ∀ f a, machine_ok alg a → f = set_ttbr0_el1 pgd ∨ f = set_irq_enabled true → machine_ok alg (a_core f a)).
    { intros f a Ha Hf. eapply machine_ok_frame; [exact Ha| |by destruct Hf as [-> | ->]; apply frame_core].
      destruct (mo_ok _ _ Ha) as [Hi Hu]. split; [|by destruct Hf as [-> | ->]; exact Hu].
      apply kinv_core; first [by destruct Hf as [-> | ->]|destruct Hf as [-> | ->]; apply Hi]. }
    split.
    + apply machine_ok_console; [|done|by destruct (mo_uart _ _ Hm)]. apply H2; [|by right]. apply H2; [|by left]. exact H1.
    + exact Hd.
Qed.
Lemma start_free w pgd clo l : free_index (mem (core (a_start w pgd clo l))) ≠ None.
Proof.
  intros H. pose proof (find_free_None _ _ _ H 0) as H0. apply (not_elem_of_empty (C:=gset Z) 0), H0.
  split; [done|]. by vm_compute.
Qed.
End start.

(** *** What the initialisation keeps *)
Section keeps.
Context {hw : Type} `{!Mmio hw}.
Variable g_fat : Z.
Abbreviation B := (M (board hw)).
(** The kernel [k] has only printed since, and the globals of the devices have their sizes. *)
Record printed (k : kernel) (b : board hw) : Prop := {
  pr_kern : ∃ l, kern (b_machine b) = set_uart_out l k;
  pr_mbox : length (b_mbox b) = 36%nat;
  pr_scr : length (sd_scr (b_driver b)) = 2%nat;
  pr_fat : is_Some (mounts (b_lib b) !! g_fat)
}.
Definition keeps {A} (c : B A) : Prop := ∀ k b, printed k b → wp c (λ _, printed k) b.
Lemma keeps_bind {A C} (c : B A) (f : A → B C) : keeps c → (∀ a, keeps (f a)) → keeps (c ≫= f).
Proof. intros Hc Hf k b Hb. apply wp_bind. eapply wp_mono; [by apply Hc|]. intros a b' Hb'. by apply Hf. Qed.
Lemma keeps_ret {A} (a : A) : keeps (mret a).
Proof. intros k b Hb. by apply wp_ret. Qed.
Lemma keeps_write reg v : keeps (on_machine (mmio_write reg v)).
Proof. intros k b [[l H1] H2 H3 H4]. split; try done. by exists l. Qed.
Lemma keeps_read reg : keeps (on_machine (mmio_read reg)).
Proof. intros k b [[l H1] H2 H3 H4]. split; try done. by exists l. Qed.
Lemma keeps_register reg : keeps (register reg).
Proof. intros k b [[l H1] H2 H3 H4]. split; try done. by exists l. Qed.
Lemma keeps_print c : only_prints c → keeps (on_kernel c).
Proof.
  intros Hc k b [[l H1] H2 H3 H4]. unfold wp, on_kernel, on_machine, in_kernel.
  destruct (Hc (kern (b_machine b))) as [l' E]. rewrite E. split; try done. exists l'. cbn. by rewrite H1.
Qed.
Lemma keeps_puts text : keeps (puts text).
Proof. apply keeps_print, only_prints_bytes. Qed.
Lemma keeps_fill message : (length message ≤ 36)%nat → keeps (fill_mbox message).
Proof.
  intros Hm k b [H1 H2 H3 H4]. unfold fill_mbox. apply wp_bind, wp_gets. rewrite H2. rewrite decide_True by done.
  apply wp_modify. split; try done. cbn. rewrite length_app, length_fmap, length_drop, H2. lia.
Qed.
Lemma keeps_driver {A} (c : M (driver hw) A) : returns c (λ _ _, True) → keeps (on_driver c).
Proof.
  intros Hc k b [[l H1] H2 H3 H4]. unfold wp, on_driver.
  pose proof (Hc (plug (devices (b_machine b)) [] (b_driver b)) H3) as W.
  apply wp_done in W as (a & d & E & Hd & _). rewrite E.
  change (wp (on_kernel (uart_put_bytes (sd_out d);; mret a)) (λ _, printed k)
    (set_driver (plug tt [] d) (set_machine (set_devices (Sd.device d) (b_machine b)) b))).
  destruct (only_prints_bytes (sd_out d) (kern (b_machine b))) as [l' El].
  unfold wp, on_kernel, on_machine, in_kernel. cbn [b_machine set_driver set_machine kern set_devices].
  unfold mbind, M_bind. rewrite El. split; try done. exists l'. cbn. by rewrite H1.
Qed.
Lemma keeps_filesystem r : keeps (on_lib (sd_filesystem_init g_fat r)).
Proof.
  intros k b [H1 H2 H3 H4]. unfold wp, on_lib.
  assert (W : total g_fat (sd_filesystem_init g_fat r)).
  { unfold sd_filesystem_init. destruct (negb _); [apply total_ret|]. apply total_bind.
    - apply total_bind; [apply total_probe|intros r'; apply total_ret].
    - intros e. destruct (negb _); [apply total_ret|].
      apply total_bind; [by apply total_fat_mount; eexists|intros e'; apply total_ret]. }
  apply W in H4. apply wp_done in H4 as (x & l & E & Hl). by rewrite E.
Qed.

(** The VideoCore answers a message in the buffer with one, and lets the CPU see it. *)
Context (mbox_address : Z) (answer : list Z → list Z) (mbox_fuel : nat).
Definition answers : Prop := (∀ l, length l = 36%nat → length (answer l) = 36%nat) ∧
  ∀ b : board hw, length (b_mbox b) = 36%nat →
    wp (wait_not_full mbox_fuel;; on_machine (mmio_write MBOX_WRITE (mbox_message mbox_address MBOX_CH_PROP));;
        wait_response mbox_fuel (mbox_message mbox_address MBOX_CH_PROP)) (λ _ _, True) b.
(** Where a loop returns, it has only read. *)
Definition quiet {A} (c : B A) : Prop := ∀ k b, printed k b → wlp c (λ _, printed k) b.
Lemma quiet_keeps {A} (c : B A) : keeps c → quiet c.
Proof. intros H k b Hb. by apply wp_wlp, H. Qed.
Lemma quiet_bind {A C} (c : B A) (f : A → B C) : quiet c → (∀ a, quiet (f a)) → quiet (c ≫= f).
Proof.
  intros Hc Hf k b Hb. apply wlp_bind. pose proof (Hc k b Hb) as W. unfold wlp in *. destruct (c b) as [a b'| |]; try done.
  by apply (Hf a k b').
Qed.
Lemma quiet_not_full n : quiet (wait_not_full n).
Proof.
  induction n as [|n IH]; cbn [wait_not_full]; [done|]. apply quiet_bind; [apply quiet_keeps, keeps_read|intros status].
  destruct (bit_set _ _); [exact IH|apply quiet_keeps, keeps_ret].
Qed.
Lemma quiet_response n r : quiet (wait_response n r).
Proof.
  induction n as [|n IH]; cbn [wait_response]; [done|]. apply quiet_bind; [apply quiet_keeps, keeps_read|intros status].
  destruct (bit_set _ _); [exact IH|]. apply quiet_bind; [apply quiet_keeps, keeps_read|intros v].
  destruct (v =? r); [apply quiet_keeps, keeps_ret|exact IH].
Qed.
Lemma keeps_mbox_call : answers → keeps (mbox_call mbox_address answer mbox_fuel MBOX_CH_PROP).
Proof.
  intros [Hl Ha] k b Hb. unfold mbox_call. cbv zeta. set (r := mbox_message mbox_address MBOX_CH_PROP) in *.
  set (poll := wait_not_full mbox_fuel;; on_machine (mmio_write MBOX_WRITE r);; wait_response mbox_fuel r).
  set (rest := modify (λ b, set_mbox (answer (b_mbox b)) b);; l ← gets b_mbox; v ← defined (arr_get l 1); mret (v =? MBOX_RESPONSE)).
  assert (Wp : wp poll (λ _, printed k) b).
  { pose proof (Ha b (pr_mbox _ _ Hb)) as W. apply wp_done in W as (u & b' & E & _). fold poll in E.
    assert (Q : quiet poll).
    { apply quiet_bind; [apply quiet_not_full|intros _]. apply quiet_bind; [apply quiet_keeps, keeps_write|intros _]. apply quiet_response. }
    specialize (Q k b Hb). unfold wlp, wp in *. by rewrite E in *. }
  assert (Wr : ∀ b', printed k b' → wp rest (λ _, printed k) b').
  { intros b' [H1 H2 H3 H4]. unfold rest. apply wp_bind, wp_modify, wp_bind, wp_gets, wp_bind, wp_defined. cbn.
    destruct (arr_get_is_Some (answer (b_mbox b')) 1) as [_ [v Hv]]; [rewrite Hl by done; lia|]. exists v. split; [exact Hv|].
    apply wp_ret. split; try done. cbn. by apply Hl. }
  unfold poll in Wp. apply wp_bind in Wp. apply wp_bind. eapply wp_mono; [exact Wp|]. cbv beta. intros _ b1 Wp1.
  apply wp_bind in Wp1. apply wp_bind. eapply wp_mono; [exact Wp1|]. cbv beta. intros _ b2 Wp2.
  apply wp_bind. eapply wp_mono; [exact Wp2|]. cbv beta. intros _ b3 Hb3. by apply Wr.
Qed.
Lemma keeps_uart_init : answers → keeps (uart_init mbox_address answer mbox_fuel).
Proof.
  intros Ha. assert (Hw : ∀ reg v, keeps (write_at reg v)).
  { intros reg v. apply keeps_bind; [apply keeps_register|intros o; apply keeps_write]. }
  unfold uart_init. apply keeps_bind; [apply keeps_write|intros _]. do 3 (apply keeps_bind; [apply Hw|intros _]).
  apply keeps_bind; [apply keeps_write|intros _]. apply keeps_bind; [apply keeps_fill; cbn; lia|intros _].
  apply keeps_bind; [by apply keeps_mbox_call|intros _].
  do 4 (apply keeps_bind; [apply keeps_write|intros _]). apply keeps_write.
Qed.
Lemma keeps_start polls scr_fuel :
  returns (sd_init polls scr_fuel) (λ _ _, True) → keeps (start_filesystem polls scr_fuel g_fat).
Proof. intros H. apply keeps_bind; [by apply keeps_driver|apply keeps_filesystem]. Qed.
End keeps.

Section main.
Context {hw : Type} `{!Mmio hw, !SystemTimer hw} (alg : SchedAlgorithm).
Context (ia rf mbox_address : Z) (answer : list Z → list Z) (polls scr_fuel mbox_fuel : nat) (g_fat : Z).
Hypothesis Halg : alg_ok alg.
Hypothesis Hpolls : enough_polls max_patience polls.
Hypothesis Hscr : sends_scr (hw:=hw) polls scr_fuel.
Hypothesis Hmbox : answers (hw:=hw) mbox_address answer mbox_fuel.

(** The parts of [kernel_main] before and after the creation of the first process. *)
Lemma keeps_controller : keeps g_fat (on_machine enable_interrupt_controller).
Proof. intros k b [[l H1] H2 H3 H4]. split; try done. by exists l. Qed.
Lemma enables_irq k (b : board hw) : printed g_fat k b → wp enable_irq (λ _, printed g_fat (set_irq_enabled true k)) b.
Proof.
  intros [[l H1] H2 H3 H4]. split; try done. exists l. cbn. by rewrite H1.
Qed.
(** The first process is ready, behind the idle task. *)
Definition first_ready (k : kernel) : Prop := ∃ a p child,
  rep k a ∧ live alg a ∧ current a = InitProcess ∧ n_processes (core a) = 2 ∧
  processes (core a) !! 1%nat = Some (Some p) ∧ pcb_at a p = Some child ∧ state child = PROCESS_READY ∧
  ∃ q, valid_queue q ∧ p ∈ queues a q.
Lemma first_ready_prints k l : first_ready k → first_ready (set_uart_out l k).
Proof.
  intros (a & p & child & Hr & [Hm Hd] & H).
  assert (W : wp (modify (set_uart_out l)) (λ _, first_ready) k); [|exact W].
  eapply wp_modify_core; [exact Hr|done..|]. intros k' Hr'. exists (a_core (set_uart_out l) a), p, child.
  split; [exact Hr'|]. split; [|exact H]. split; [|exact Hd]. apply machine_ok_console; [done|done|]. by destruct (mo_uart _ _ Hm).
Qed.
Lemma creates_first w pgd clo l entry :
  wp (copy_process alg ia rf PF_KTHREAD entry 0) (λ r k, r = 1 ∧ first_ready k)
    (set_uart_out l (set_irq_enabled true (start_kernel w pgd clo))).
Proof.
  destruct (start_good (alg:=alg) w pgd clo l) as [Hr [Hm Hd]].
  pose proof (tlp_copy_process (alg:=alg) (init_process_address:=ia) (ret_from_fork:=rf) PF_KTHREAD entry 0 _ _ Halg Hr Hm) as W.
  change (negb (Z.land PF_KTHREAD PF_KTHREAD =? 0)) with true in W. unfold tlp in W.
  eapply wp_mono; [exact W|]. cbv beta. intros r k (a' & Hr' & Hm' & Hc & Hs & Hor).
  destruct Hor as [[_ [Hbad|Hbad]]|[Hpid Hn Hchild]].
  - by destruct (start_free w pgd clo l).
  - by vm_compute in Hbad.
  - change (n_processes (core (a_preempt 1 (a_start w pgd clo l)))) with 1 in Hpid, Hn. split; [done|].
    destruct Hchild as (p & child & parent & Hp & _ & Hpcb & Hq & _ & Hst & _).
    exists a', p, child. split; [done|]. split.
    { split; [done|]. right. rewrite Hc in Hs |- *. by split. }
    rewrite Hpid in Hp. by split_and!.
Qed.

Lemma wp_timer_init (Q : unit → board hw → Prop) b :
  (∀ m, kern m = kern (b_machine b) → rearmed m → Q tt (set_machine m b)) → wp (on_machine timer_init) Q b.
Proof.
  intros HQ. unfold wp, on_machine, timer_init, mbind, M_bind, mmio_read, mmio_write, modify. apply HQ; [done|].
  unfold rearmed. cbn [devices cur_val set_devices set_cur_val]. eexists _, _. split; [reflexivity|]. split; [|apply deadline].
  f_equal. apply u32_small, u32_range.
Qed.
Lemma wp_puts text (Q : unit → board hw → Prop) b :
  (∀ l, Q tt (set_machine (set_kern (set_uart_out l (kern (b_machine b))) (b_machine b)) b)) → wp (puts text) Q b.
Proof.
  intros HQ. unfold wp, puts, on_kernel, on_machine, in_kernel.
  destruct (only_prints_bytes (bytes_of_string text ++ [10]) (kern (b_machine b))) as [l E]. rewrite E. apply HQ.
Qed.
Lemma wp_board_kernel {A} (c : K A) a k (Q : A → board hw → Prop) b :
  c (kern (b_machine b)) = Done a k → Q a (set_machine (set_kern k (b_machine b)) b) → wp (on_kernel c) Q b.
Proof. intros E HQ. unfold wp, on_kernel, on_machine, in_kernel. by rewrite E. Qed.
Lemma wp_kernel_main k0 entry b :
  (∀ l, wp (copy_process alg ia rf PF_KTHREAD entry 0) (λ r k, r = 1 ∧ first_ready k)
          (set_uart_out l (set_irq_enabled true k0))) →
  printed g_fat k0 b →
  wp (kernel_main alg ia rf mbox_address answer polls scr_fuel mbox_fuel g_fat entry)
    (λ _ b', rearmed (b_machine b') ∧ first_ready (kern (b_machine b'))) b.
Proof.
  intros Hfork Hb. unfold kernel_main.
  pose proof (keeps_uart_init g_fat mbox_address answer mbox_fuel Hmbox) as Ku.
  pose proof (keeps_start g_fat _ _ (returns_init polls Hpolls scr_fuel Hscr)) as Ks.
  pose proof (keeps_puts (hw:=hw) g_fat) as Kp. pose proof keeps_controller as Kc.
  assert (B : ∀ {A C} (c : M (board hw) A) (f : A → M (board hw) C) k Q b, keeps g_fat c → printed g_fat k b →
    (∀ a b', printed g_fat k b' → wp (f a) Q b') → wp (c ≫= f) Q b).
  { intros A C c f k Q b0 Hc Hb0 Hf. apply wp_bind. eapply wp_mono; [by apply Hc|]. cbv beta. intros a b'. apply Hf. }
  eapply B; [exact Ku|exact Hb|]. intros _ b1 G1. do 2 (eapply B; [apply Kp|eassumption|intros [] ? ?]).
  eapply B; [exact Kc|eassumption|intros [] ? ?]. eapply B; [apply Kp|eassumption|intros [] ? ?].
  apply wp_bind. eapply wp_mono; [eapply enables_irq; eassumption|]. cbv beta. intros [] b2 G2.
  eapply B; [apply Kp|exact G2|intros [] ? ?]. eapply B; [exact Ks|eassumption|intros fs_ok ? ?].
  eapply B; [apply Kp|eassumption|]. intros [] b3 G3. destruct (pr_kern _ _ _ G3) as [l El].
  apply wp_bind. pose proof (Hfork l) as W. apply wp_done in W as (r & k & E & -> & Hk).
  eapply wp_board_kernel; [rewrite El; exact E|]. destruct (Z.ltb_spec 1 0); [lia|].
  apply wp_bind, wp_ret, wp_bind, wp_timer_init. intros m Em Hm.
  cbn [kern b_machine set_machine set_kern] in Em. apply wp_puts. intros l'. split.
  - destruct Hm as (h & clo' & ? & ? & ?). exists h, clo'. done.
  - cbn. rewrite Em. by apply first_ready_prints.
Qed.
End main.


(** A board on which no card answers a command, but every register of one reads as available. *)
#[local] Instance bare : Mmio (Z * Z) :=
  {| read_register reg h :=
       if reg =? SYS_TIMER_CLOCK then (h.1, (h.1 + 1000, h.2))
       else if reg =? EMMC_STATUS then (SR_READ_AVAILABLE, h)
       else if reg =? MMIO_BASE + MBOX_READ then (h.2, h) else (0, h);
     write_register reg v h := if reg =? MMIO_BASE + MBOX_WRITE then (h.1, v) else h |}.
#[local] Instance bare_timer : SystemTimer (Z * Z).
Proof.
  refine {| time := fst; patience := λ _, 0; max_patience := 0 |}.
  - reflexivity.
  - intros [c v]. left. change (c < c + 1000 < c + 2 ^ 30). lia.
  - lia.
Defined.
Lemma bare_scr polls : sends_scr (hw:=Z * Z) polls 3.
Proof.
  intros [[c v] l r e h o] Hs. unfold scr_ok in Hs. cbn in Hs. destruct l as [|x0 [|x1 []]]; try discriminate Hs.
  split; [reflexivity|exact I].
Qed.
Lemma bare_answers : answers (hw:=Z * Z) (VA_START + 0x90000) id 1.
Proof. split; [done|]. intros [[k [c v] cv] l d lib] Hl. exact I. Qed.
Definition reset_processor : processor :=
  {| current_el := 8; daif := 15; hcr_el2 := 0; spsr_el2 := 0; mpidr_el1 := 0x80000000; sctlr_el1 := 0; ttbr1_el1 := 0; tcr_el1 := 0;
     mair_el1 := 0; stack_pointer := 0; kernel_state := boot_kernel (λ _, 0) |}.
Definition bare_board : board (Z * Z) :=
  {| b_machine := {| kern := entered demo_layout (boot_kernel (λ _, 0)); devices := (0, 0); cur_val := 0 |};
     b_mbox := replicate 36 0;
     b_driver := {| Sd.device := tt; sd_scr := [0; 0]; sd_rca := 0; sd_err := 0; sd_hv := 0; sd_out := [] |};
     b_lib := sample_library |}.
