(* ===== verification/PropSvc.v ===== *)
(** * Properties of system calls as programs make them *)
From S2P Require Import Prelude.
From S2P Require Import Process.
From S2P Require Import Scheduler.
From S2P Require Import SchedTick.
From S2P Require Import Irq.
From S2P Require Import FileCalls.
From S2P Require Import Dispatch.
From S2P Require Import Svc.
From S2P Require Import PropFile.
From S2P Require Import PropWorld.
Local Open Scope Z_scope.

(** A list that differs from another in its first element at most. *)
Lemma differs_first (l l' : list Z) :
  l ≠ [] → length l' = length l → (∀ i, i ≠ 0%nat → l' !! i = l !! i) → ∃ v, l' = <[0%nat := v]> l.
Proof.
  intros Hne Hl Hi. destruct l as [|a l], l' as [|b l']; try done. exists b. cbn. f_equal.
  apply list_eq. intros i. by apply (Hi (S i)).
Qed.
(** The frame of a call: its eighth word is the number, and back again. *)
Lemma call_frame n c :
  length (x c) = 31%nat →
  let '(frame, c1) := kernel_entry 0 (with_number n c) in
  frame ≠ [] ∧ frame !! 8%nat = Some n ∧
  ∀ v, kernel_exit 0 (<[0%nat := v]> frame) c1 =
    {| x := <[0%nat := v]> (<[8%nat := n]> (x c)); sp_el0 := sp_el0 c; sp_el1 := sp_el1 c;
       elr_el1 := elr_el1 c; spsr_el1 := spsr_el1 c |}.
Proof.
  destruct c as [xs s0 s1 pc st]. cbn [x]. intros Hx.
  do 31 (destruct xs as [|? xs]; [discriminate|]). destruct xs; [|discriminate].
  unfold kernel_entry, with_number. cbn [sp_el1 x sp_el0 elr_el1 spsr_el1]. split; [done|]. split; [done|].
  intros v. unfold kernel_exit. cbn. f_equal. lia.
Qed.

(** [get_pid()] with 7 in all other registers, and a number above the last one. *)
Definition sample_registers : cpu_registers :=
  {| x := replicate 31 7; sp_el0 := 65536; sp_el1 := 4096; elr_el1 := 64; spsr_el1 := 0 |}.
Definition SVC_SYNDROME : Z := 0x56000000.
Definition sample_call (n : Z) : W (resumed * Z) :=
  call_stub sched_round_robin 0 0 [] stack128 (λ _, []) n 0 0 SVC_SYNDROME sample_registers.
Definition comes_back (n : Z) : bool :=
  match sample_call n sample_world with Done (Resumed _ [], _) _ => true | _ => false end.
