(* ===== verification/PropUser.v ===== *)
(** * Properties of the user libraries, the programs and the framebuffer *)
From S2P Require Import Prelude.
From S2P Require Import Process.
From S2P Require Import CString.
From S2P Require Import Framebuffer.
From S2P Require Import UserCalls.
From S2P Require Import Shell.
From S2P Require Import UserLib.
From S2P Require Import Programs.
Local Open Scope Z_scope.

(** ** Decimal numbers *)

(** The digits of a number, the least significant first. *)
Fixpoint decimal (fuel : nat) (number : Z) : list Z :=
  match fuel with
  | O => []
  | S fuel' => if number <=? 0 then [] else ZERO + number mod 10 :: decimal fuel' (number / 10)
  end.
Definition is_digit (c : Z) : Prop := ZERO ≤ c ≤ NINE.
Lemma decimal_digits fuel number : Forall is_digit (decimal fuel number).
Proof.
  revert number. induction fuel as [|fuel IH]; intros number; cbn [decimal]; [constructor|].
  destruct (number <=? 0); constructor; [|apply IH]. pose proof (Z.mod_pos_bound number 10). unfold is_digit, ZERO, NINE. lia.
Qed.
Lemma decimal_length fuel number : (length (decimal fuel number) ≤ fuel)%nat.
Proof.
  revert number. induction fuel as [|fuel IH]; intros number; cbn [decimal]; [done|].
  destruct (number <=? 0); cbn; [lia|]. pose proof (IH (number / 10)). lia.
Qed.
Lemma arr_set_mid {A} (pre rest : list A) x v : arr_set (pre ++ x :: rest) (Z.of_nat (length pre)) v = Some (pre ++ v :: rest).
Proof.
  rewrite arr_set_in by (rewrite length_app; cbn; lia). rewrite Nat2Z.id.
  by rewrite insert_app_r_alt, Nat.sub_diag by done.
Qed.
Lemma digit_loop_spec fuel number pre rest :
  0 ≤ number < 10 ^ Z.of_nat fuel → (fuel ≤ length rest)%nat →
  ∃ rest', digit_loop fuel number (pre ++ rest) (Z.of_nat (length pre)) =
    Some (pre ++ decimal fuel number ++ rest', Z.of_nat (length pre + length (decimal fuel number))).
Proof.
  revert number pre rest. induction fuel as [|fuel IH]; intros number pre rest Hn Hl; cbn [digit_loop decimal].
  - assert (number = 0) as -> by (change (10 ^ Z.of_nat 0) with 1 in Hn; lia). exists rest. cbn. by rewrite Nat.add_0_r.
  - destruct (Z.leb_spec number 0); [exists rest; cbn; by rewrite Nat.add_0_r|].
    destruct rest as [|x rest]; [cbn in Hl; lia|]. rewrite arr_set_mid. cbn [mbind option_bind].
    assert (Hd : 0 ≤ number / 10 < 10 ^ Z.of_nat fuel).
    { rewrite Nat2Z.inj_succ, Z.pow_succ_r in Hn by lia. split; [apply Z.div_pos; lia|]. apply Z.div_lt_upper_bound; lia. }
    destruct (IH (number / 10) (pre ++ [ZERO + number mod 10]) rest Hd ltac:(cbn in Hl; lia)) as [rest' E].
    exists rest'. rewrite length_app in E. cbn [length] in E |- *.
    replace (Z.of_nat (length pre) + 1) with (Z.of_nat (length pre + 1)) by lia.
    rewrite <- app_assoc in E. cbn [app] in E. rewrite E. rewrite <- app_assoc. cbn. f_equal. f_equal. lia.
Qed.
Lemma reverse_loop_spec ds rest out tail :
  (length ds ≤ length tail)%nat →
  reverse_loop (length ds) (ds ++ rest) (out ++ tail) (Z.of_nat (length out)) =
    Some (out ++ reverse ds ++ drop (length ds) tail, Z.of_nat (length out + length ds)).
Proof.
  revert rest out tail. induction ds as [|d ds IH] using rev_ind; intros rest out tail Hl.
  { cbn. by rewrite Nat.add_0_r. }
  rewrite length_app in Hl |- *. cbn [length] in *. rewrite Nat.add_1_r. cbn [reverse_loop].
  assert (Eg : arr_get ((ds ++ [d]) ++ rest) (Z.of_nat (length ds)) = Some d).
  { rewrite arr_get_lookup by lia. rewrite Nat2Z.id, <- app_assoc, lookup_app_r, Nat.sub_diag by lia. done. }
  rewrite Eg. cbn [mbind option_bind]. destruct tail as [|t tail]; [cbn in Hl; lia|]. rewrite arr_set_mid. cbn [mbind option_bind].
  pose proof (IH ([d] ++ rest) (out ++ [d]) tail ltac:(cbn in Hl; lia)) as E. rewrite length_app in E. cbn [length] in E.
  replace (Z.of_nat (length out) + 1) with (Z.of_nat (length out + 1)) by lia.
  rewrite <- !app_assoc in E |- *. cbn [app] in E |- *. rewrite E, reverse_app, reverse_singleton. cbn [app].
  rewrite Nat.add_1_r. replace (S (length out) + length ds)%nat with (length out + S (length ds))%nat by lia.
  cbn [drop]. by rewrite <- app_assoc.
Qed.

(** Reading them again. *)
Definition add_digit (number c : Z) : Z := u64 (number * 10 + (c - ZERO)).
Lemma read_digits_app l rest number :
  Forall is_digit l → read_digits number (l ++ NUL :: rest) = Some (foldl add_digit number l).
Proof.
  revert number. induction l as [|c l IH]; intros number Hl; cbn [app read_digits]; [done|].
  inversion Hl as [|? ? [H1 H2] Hl']; subst. rewrite (proj2 (Z.leb_le _ _) H1), (proj2 (Z.leb_le _ _) H2). cbn [andb].
  by apply IH.
Qed.
Lemma value_of_decimal fuel number :
  0 ≤ number < 10 ^ Z.of_nat fuel → foldl add_digit 0 (reverse (decimal fuel number)) = u64 number.
Proof.
  revert number. induction fuel as [|fuel IH]; intros number Hn; cbn [decimal].
  - assert (number = 0) as -> by (change (10 ^ Z.of_nat 0) with 1 in Hn; lia). done.
  - destruct (Z.leb_spec number 0); [by assert (number = 0) as -> by lia|].
    rewrite reverse_cons, foldl_app. cbn [foldl]. rewrite IH.
    + unfold add_digit, u64. replace (ZERO + number mod 10 - ZERO) with (number mod 10) by lia.
      rewrite Zplus_mod, Z.mul_mod_idemp_l by lia. rewrite <- Zplus_mod. f_equal. pose proof (Z.div_mod number 10). lia.
    + rewrite Nat2Z.inj_succ, Z.pow_succ_r in Hn by lia. split; [apply Z.div_pos; lia|]. apply Z.div_lt_upper_bound; lia.
Qed.

(** What [num_to_str] leaves in the buffer. *)
Lemma num_to_str_spec reversed number buffer :
  0 < number < 2 ^ 64 → length reversed = 24%nat → (21 ≤ length buffer)%nat →
  let ds := reverse (decimal DIGITS number) in
  ∃ rest, num_to_str reversed number buffer = Some (ds ++ NUL :: rest) ∧
    length (ds ++ NUL :: rest) = length buffer ∧ Forall is_digit ds ∧ (1 ≤ length ds ≤ 20)%nat.
Proof.
  intros Hn Hr Hb. cbv zeta. unfold num_to_str. destruct (Z.eqb_spec number 0); [lia|].
  assert (Hf : 0 ≤ number < 10 ^ Z.of_nat DIGITS) by (change (10 ^ Z.of_nat DIGITS) with 100000000000000000000; lia).
  destruct (digit_loop_spec DIGITS number [] reversed Hf) as [rest E]; [rewrite Hr; unfold DIGITS; lia|]. cbn [app length Nat.add] in E.
  change (Z.of_nat 0) with 0 in E. rewrite E. cbn [mbind option_bind].
  assert (Hpos : (1 ≤ length (decimal DIGITS number))%nat).
  { change DIGITS with (S 19). cbn [decimal]. destruct (Z.leb_spec number 0); [lia|]. cbn [length]. lia. }
  pose proof (decimal_length DIGITS number) as Hl. pose proof (decimal_digits DIGITS number) as Hd.
  set (ds := decimal DIGITS number) in *.
  rewrite Nat2Z.id. pose proof (reverse_loop_spec ds rest [] buffer ltac:(unfold DIGITS in Hl; lia)) as E2. cbn [app length Nat.add] in E2.
  change (Z.of_nat 0) with 0 in E2. rewrite E2. cbn [mbind option_bind].
  destruct (drop (length ds) buffer) as [|t tail] eqn:Et; apply (f_equal length) in Et; rewrite length_drop in Et; cbn [length] in Et; unfold DIGITS in Hl.
  { lia. }
  rewrite <- (length_reverse ds), arr_set_mid. exists tail. split; [reflexivity|].
  split; [rewrite length_app, length_reverse; cbn [length]; lia|]. split; [by apply Forall_reverse|]. rewrite length_reverse. lia.
Qed.
Lemma digits_no_nul l : Forall is_digit l → no_nul l.
Proof. intros Hl Hin. rewrite Forall_forall in Hl. apply Hl in Hin. by vm_compute in Hin; destruct Hin. Qed.
Lemma digits_strlen l rest : Forall is_digit l → strlen (l ++ NUL :: rest) = Some (Z.of_nat (length l)).
Proof. intros Hl. by apply strlen_terminated, digits_no_nul. Qed.

(** C37: Numbers in decimal: for every 64-bit number [num_to_str] stays inside its array of 24
    digits and a buffer of 21 bytes, writes one to twenty digits and a terminator, and
    [str_to_num] reads the same number back. *)
Theorem number_round_trip reversed number buffer :
  0 ≤ number < 2 ^ 64 → length reversed = 24%nat → (21 ≤ length buffer)%nat →
  ∃ buffer' n, num_to_str reversed number buffer = Some buffer' ∧ length buffer' = length buffer ∧
    str_to_num buffer' = Some number ∧ strlen buffer' = Some n ∧ 1 ≤ n ≤ 20.
Proof.
  intros Hn Hr Hb. destruct (Z.eqb_spec number 0) as [->|Hne].
  - destruct buffer as [|b0 [|b1 rest]]; [cbn in Hb; lia..|]. exists (ZERO :: NUL :: rest), 1. unfold num_to_str.
    pose proof (arr_set_mid [] (b1 :: rest) b0 ZERO) as E1. pose proof (arr_set_mid [ZERO] rest b1 NUL) as E2.
    cbn [app length] in E1, E2. change (Z.of_nat 0) with 0 in E1. change (Z.of_nat 1) with 1 in E2.
    rewrite Z.eqb_refl, E1. cbn [mbind option_bind]. rewrite E2. split_and!; try reflexivity; lia.
  - destruct (num_to_str_spec reversed number buffer ltac:(lia) Hr Hb) as (rest & E & Hl & Hd & Hlen).
    eexists _, _. split; [exact E|]. split; [exact Hl|]. split; [|split; [by apply digits_strlen|lia]].
    unfold str_to_num. rewrite read_digits_app by done. f_equal. rewrite value_of_decimal; [apply u64_small; lia|].
    change (10 ^ Z.of_nat DIGITS) with 100000000000000000000. lia.
Qed.
Lemma number_round_trip_witness :
  ∃ buffer' n, num_to_str (replicate 24 7) (2 ^ 64 - 1) (replicate 24 7) = Some buffer' ∧
    str_to_num buffer' = Some (2 ^ 64 - 1) ∧ strlen buffer' = Some n ∧ n = 20.
Proof.
  destruct (number_round_trip (replicate 24 7) (2 ^ 64 - 1) (replicate 24 7)) as (b & n & E & _ & H1 & H2 & _).
  - lia.
  - reflexivity.
  - cbn. lia.
  - exists b, n. split; [exact E|]. split; [exact H1|]. split; [exact H2|].
    vm_compute in E. injection E as <-. vm_compute in H2. by injection H2.
Defined.

(** ** The number the benchmark prints *)

(** [k] digits, the most significant first. *)
Fixpoint digits (k : nat) (num : Z) : list Z :=
  match k with O => [] | S k' => num / 10 ^ Z.of_nat k' :: digits k' (num mod 10 ^ Z.of_nat k') end.
Fixpoint strip (l : list Z) : list Z := match l with c :: l' => if c =? 0 then strip l' else l | [] => [] end.
Lemma pow10_succ k : 10 ^ Z.of_nat (S k) = 10 * 10 ^ Z.of_nat k.
Proof. rewrite Nat2Z.inj_succ, Z.pow_succ_r by lia. done. Qed.
Lemma pow10_pos k : 0 < 10 ^ Z.of_nat k.
Proof. apply Z.pow_pos_nonneg; lia. Qed.
Lemma digits_snoc k num : 0 ≤ num < 10 ^ Z.of_nat (S k) → digits (S k) num = digits k (num / 10) ++ [num mod 10].
Proof.
  revert num. induction k as [|k IH]; intros num Hn.
  { change (10 ^ Z.of_nat 1) with 10 in Hn. cbn. rewrite Z.div_1_r, Z.mod_small by lia. done. }
  pose proof (pow10_pos (S k)) as Hp. pose proof (pow10_pos k) as Hq.
  change (digits (S (S k)) num) with (num / 10 ^ Z.of_nat (S k) :: digits (S k) (num mod 10 ^ Z.of_nat (S k))).
  change (digits (S k) (num / 10)) with (num / 10 / 10 ^ Z.of_nat k :: digits k (num / 10 mod 10 ^ Z.of_nat k)).
  rewrite IH by (apply Z.mod_pos_bound, pow10_pos). rewrite pow10_succ, Z.rem_mul_r by lia. cbn [app]. rewrite Z.div_div by lia. f_equal.
  rewrite (Z.mul_comm 10 (num / 10 mod _)), Z.div_add, Z.mod_add, Z.mod_mod by lia.
  rewrite (Z.div_small (num mod 10)) by (apply Z.mod_pos_bound; lia). done.
Qed.
Lemma strip_snoc l x : strip (l ++ [x]) = match strip l with [] => strip [x] | l' => l' ++ [x] end.
Proof. induction l as [|c l IH]; [done|]. cbn [app strip]. destruct (c =? 0); [apply IH|done]. Qed.
Lemma digits_decimal k fuel num :
  0 ≤ num < 10 ^ Z.of_nat k → (k ≤ fuel)%nat → Z.add ZERO <$> strip (digits k num) = reverse (decimal fuel num).
Proof.
  revert fuel num. induction k as [|k IH]; intros fuel num Hn Hk.
  { change (10 ^ Z.of_nat 0) with 1 in Hn. assert (num = 0) as -> by lia. by destruct fuel. }
  destruct fuel as [|fuel]; [lia|]. rewrite digits_snoc, strip_snoc by done. cbn [decimal].
  assert (Hd : 0 ≤ num / 10 < 10 ^ Z.of_nat k).
  { rewrite pow10_succ in Hn. split; [apply Z.div_pos; lia|]. apply Z.div_lt_upper_bound; lia. }
  specialize (IH fuel (num / 10) Hd ltac:(lia)). destruct (Z.leb_spec num 0) as [H0|H0].
  - assert (num = 0) as -> by lia. assert (E : decimal fuel (0 / 10) = []) by (by destruct fuel).
    rewrite E in IH. apply fmap_nil_inv in IH. rewrite IH. done.
  - rewrite reverse_cons, <- IH. destruct (strip (digits k (num / 10))) as [|c l] eqn:Es.
    + assert (Hs : num < 10).
      { destruct fuel as [|fuel]; [assert (k = O) as -> by lia; change (10 ^ Z.of_nat 1) with 10 in Hn; lia|].
        cbn [decimal] in IH. destruct (Z.leb_spec (num / 10) 0) as [Hle|Hgt].
        - pose proof (Z.div_mod num 10). pose proof (Z.mod_pos_bound num 10). lia.
        - apply (f_equal length) in IH. rewrite reverse_cons, length_app in IH. cbn in IH. lia. }
      rewrite Z.mod_small by lia. cbn [strip]. destruct (Z.eqb_spec num 0); [lia|done].
    + by rewrite fmap_app.
Qed.

Lemma count_loop_spec fuel num d c :
  0 ≤ num → 0 < d → (Z.to_nat (num / d) < fuel)%nat → 0 ≤ c → c + num / d < 2 ^ 31 →
  count_loop fuel num d c = Some (num mod d, c + num / d).
Proof.
  revert num c. induction fuel as [|fuel IH]; intros num c Hn Hd Hf Hc Hb; [lia|]. cbn [count_loop].
  destruct (Z.leb_spec d num) as [Hle|Hlt].
  - assert (E : num / d = (num - d) / d + 1) by (rewrite <- Z.div_add by lia; f_equal; lia).
    assert (Em : num mod d = (num - d) mod d) by (rewrite <- (Z.mod_add (num - d) 1 d) by lia; f_equal; lia).
    pose proof (Z.div_pos (num - d) d ltac:(lia) Hd).
    rewrite to_int_small by lia. rewrite IH by lia. rewrite E, Em. do 2 f_equal. lia.
  - rewrite Z.div_small, Z.mod_small by lia. do 2 f_equal. lia.
Qed.
(** The powers of ten below the [k]-th. *)
Fixpoint powers (k : nat) : list Z := match k with O => [] | S k' => 10 ^ Z.of_nat k' :: powers k' end.
Lemma divisors_powers : divisors = powers 10.
Proof. reflexivity. Qed.
Definition shown (started : bool) (l : list Z) : list Z := Z.add ZERO <$> (if started then l else strip l).
Lemma divisor_loop_spec k num pre rest started :
  0 ≤ num < 10 ^ Z.of_nat k → (k ≤ length rest)%nat →
  let out := shown started (digits k num) in
  divisor_loop (powers k) num (pre ++ rest) (Z.of_nat (length pre)) started =
    Some (pre ++ out ++ drop (length out) rest, Z.of_nat (length pre + length out)).
Proof.
  revert num pre rest started. induction k as [|k IH]; intros num pre rest started Hn Hr; cbv zeta.
  { cbn. by destruct started; cbn; rewrite Nat.add_0_r. }
  pose proof (pow10_pos k) as Hp. rewrite pow10_succ in Hn.
  assert (Hq : 0 ≤ num / 10 ^ Z.of_nat k < 10) by (split; [apply Z.div_pos; lia|apply Z.div_lt_upper_bound; lia]).
  assert (Hm : 0 ≤ num mod 10 ^ Z.of_nat k < 10 ^ Z.of_nat k) by (by apply Z.mod_pos_bound).
  cbn [powers divisor_loop digits]. rewrite count_loop_spec by lia. cbn [mbind option_bind]. rewrite Z.add_0_l.
  destruct ((0 <? num / 10 ^ Z.of_nat k) || started) eqn:Es.
  - destruct rest as [|b rest]; [cbn in Hr; lia|]. rewrite arr_set_mid. cbn [mbind option_bind].
    assert (Eu : u8 (num / 10 ^ Z.of_nat k + ZERO) = ZERO + num / 10 ^ Z.of_nat k) by (unfold u8, ZERO; rewrite Z.mod_small; lia).
    rewrite Eu. set (c := ZERO + num / 10 ^ Z.of_nat k).
    assert (Eo : shown started (num / 10 ^ Z.of_nat k :: digits k (num mod 10 ^ Z.of_nat k)) = c :: shown true (digits k (num mod 10 ^ Z.of_nat k))).
    { unfold shown. destruct started; [done|]. cbn [strip]. rewrite orb_false_r in Es. apply Z.ltb_lt in Es.
      destruct (Z.eqb_spec (num / 10 ^ Z.of_nat k) 0); [lia|done]. }
    rewrite Eo. specialize (IH (num mod 10 ^ Z.of_nat k) (pre ++ [c]) rest true Hm ltac:(cbn in Hr; lia)). cbv zeta in IH.
    rewrite length_app, <- !app_assoc in IH. cbn [length app] in IH |- *.
    replace (Z.of_nat (length pre) + 1) with (Z.of_nat (length pre + 1)) by lia. rewrite IH. do 2 f_equal. lia.
  - apply orb_false_iff in Es as [Es ->]. apply Z.ltb_ge in Es.
    assert (E0 : num / 10 ^ Z.of_nat k = 0) by lia.
    assert (Eo : shown false (num / 10 ^ Z.of_nat k :: digits k (num mod 10 ^ Z.of_nat k)) = shown false (digits k (num mod 10 ^ Z.of_nat k))).
    { unfold shown. cbn [strip]. by rewrite E0. }
    rewrite Eo. apply IH; [done|lia].
Qed.

(** C38: Two ways to print a number: for every number below 10^10 the subtractions of [print_int]
    write the same digits as the divisions of [num_to_str], and no more than the array of 32
    bytes can hold. *)
Theorem print_int_agrees num buffer reversed buffer' :
  0 ≤ num < 10 ^ 10 → length buffer = 32%nat → length reversed = 24%nat → (21 ≤ length buffer')%nat →
  ∃ text text' n, int_text buffer num = Some text ∧ num_to_str reversed num buffer' = Some text' ∧
    strlen text = Some n ∧ strlen text' = Some n ∧ take (Z.to_nat n) text = take (Z.to_nat n) text'.
Proof.
  intros Hn Hb Hr Hb'. destruct (Z.eqb_spec num 0) as [->|Hne].
  - destruct buffer' as [|b0 [|b1 rest]]; [cbn in Hb'; lia..|]. eexists _, (ZERO :: NUL :: rest), 1.
    split; [reflexivity|]. split; [|by split_and!]. unfold num_to_str.
    pose proof (arr_set_mid [] (b1 :: rest) b0 ZERO) as E1. pose proof (arr_set_mid [ZERO] rest b1 NUL) as E2.
    cbn [app length] in E1, E2. change (Z.of_nat 0) with 0 in E1. change (Z.of_nat 1) with 1 in E2.
    rewrite Z.eqb_refl, E1. cbn [mbind option_bind]. by rewrite E2.
  - destruct (num_to_str_spec reversed num buffer' ltac:(lia) Hr Hb') as (rest & E & _ & Hd & _).
    pose proof (divisor_loop_spec 10 num [] buffer false Hn ltac:(lia)) as E2. cbv zeta in E2. cbn [app length Nat.add] in E2.
    unfold shown in E2. rewrite (digits_decimal 10 DIGITS num Hn) in E2 by (unfold DIGITS; lia).
    assert (Hl : (length (reverse (decimal DIGITS num)) ≤ 10)%nat).
    { rewrite <- (digits_decimal 10 DIGITS num Hn), (digits_decimal 10 10 num Hn), length_reverse by (unfold DIGITS; lia). apply decimal_length. }
    set (ds := reverse (decimal DIGITS num)) in *. unfold int_text. destruct (Z.eqb_spec num 0); [done|].
    rewrite divisors_powers. change (Z.of_nat 0) with 0 in E2. rewrite E2. cbn [mbind option_bind].
    destruct (drop (length ds) buffer) as [|t tail] eqn:Et; [apply (f_equal length) in Et; rewrite length_drop in Et; cbn [length] in Et; lia|].
    rewrite arr_set_mid. eexists _, _, _. split; [reflexivity|]. split; [exact E|]. split; [by apply digits_strlen|]. split; [by apply digits_strlen|].
    by rewrite Nat2Z.id, !take_app_length.
Qed.
Lemma print_int_agrees_witness :
  ∃ text n, int_text (replicate 32 7) 9876543210 = Some text ∧ strlen text = Some n ∧ n = 10.
Proof.
  destruct (print_int_agrees 9876543210 (replicate 32 7) (replicate 24 7) (replicate 24 7)) as (text & text' & n & E & _ & Hn & _).
  - lia.
  - reflexivity.
  - reflexivity.
  - cbn. lia.
  - exists text, n. split; [exact E|]. split; [exact Hn|]. vm_compute in E. injection E as <-. vm_compute in Hn. by injection Hn.
Defined.

(** ** The framebuffer *)
Section screen.
Context (font : psf_t) (address pitch : Z).
Abbreviation w := (font_width font).
Abbreviation h := (font_height font).
Definition pixel_at (px py : Z) : Z := address + py * pitch + 4 * px.
Lemma pixel_inj px py px' py' :
  0 ≤ px → 4 * px < pitch → 0 ≤ px' → 4 * px' < pitch → pixel_at px py = pixel_at px' py' → px = px' ∧ py = py'.
Proof.
  unfold pixel_at. intros H1 H2 H3 H4 E.
  destruct (Z.div_mod_unique pitch py py' (4 * px) (4 * px')); [lia|lia|lia|]. lia.
Qed.

(** ** A row, a glyph *)
Lemma row_outside n g line mask (p : pixels) a :
  (∀ i, 0 ≤ i < Z.of_nat n → a ≠ address + line + 4 * i) → draw_row address n g line mask p !! a = p !! a.
Proof.
  revert line mask p. induction n as [|n IH]; intros line mask p Ha; cbn [draw_row]; [done|].
  rewrite IH.
  - rewrite lookup_insert_ne; [done|]. specialize (Ha 0). lia.
  - intros i Hi. specialize (Ha (i + 1)). lia.
Qed.
Lemma row_inside n g line mask (p : pixels) i :
  0 ≤ i < Z.of_nat n →
  draw_row address n g line mask p !! (address + line + 4 * i) =
    Some (if Z.land g (Z.shiftr mask i) =? 0 then 0 else 0xFFFFFF).
Proof.
  revert line mask p i. induction n as [|n IH]; intros line mask p i Hi; [lia|]. cbn [draw_row].
  destruct (decide (i = 0)) as [->|Hne].
  - rewrite row_outside by (intros j Hj; lia). replace (address + line + 4 * 0) with (address + line) by lia.
    by rewrite lookup_insert_eq, Z.shiftr_0_r.
  - replace (address + line + 4 * i) with (address + (line + 4) + 4 * (i - 1)) by lia. rewrite IH by lia.
    rewrite Z.shiftr_shiftr by lia. by replace (1 + (i - 1)) with i by lia.
Qed.
(** The bit of a mask. *)
Lemma mask_bit g i :
  w < 32 → 0 ≤ i < w → (Z.land g (Z.shiftr (to_int (Z.shiftl 1 (w - 1))) i) =? 0) = negb (Z.testbit g (w - 1 - i)).
Proof.
  intros Hw Hi. rewrite to_int_small.
  2:{ rewrite Z.shiftl_1_l. pose proof (Z.pow_pos_nonneg 2 (w - 1) ltac:(lia) ltac:(lia)).
      pose proof (Z.pow_lt_mono_r 2 (w - 1) 31 ltac:(lia) ltac:(lia) ltac:(lia)). lia. }
  assert (E : Z.shiftr (Z.shiftl 1 (w - 1)) i = 2 ^ (w - 1 - i)).
  { rewrite Z.shiftl_1_l, Z.shiftr_div_pow2 by lia. rewrite <- Z.pow_sub_r by lia. done. }
  rewrite E. destruct (Z.testbit g (w - 1 - i)) eqn:Eb; cbn [negb].
  - apply Z.eqb_neq. intros H0. apply (f_equal (λ z, Z.testbit z (w - 1 - i))) in H0.
    rewrite Z.land_spec, Eb, Z.pow2_bits_true, Z.bits_0 in H0 by lia. done.
  - apply Z.eqb_eq, Z.bits_inj'. intros n Hn. rewrite Z.land_spec, Z.bits_0, Z.pow2_bits_eqb by lia.
    destruct (Z.eqb_spec (w - 1 - i) n) as [<-|]; [by rewrite Eb|apply andb_false_r].
Qed.
Definition row_bytes : Z := (w + 7) / 8.
(** The colour of the glyph at [glyph] in column [i] of row [j]. *)
Definition ink (glyph i j : Z) : Z := if Z.testbit (font_byte font (glyph + j * row_bytes)) (w - 1 - i) then 0xFFFFFF else 0.

Lemma rows_spec n glyph px py (p : pixels) :
  w < 32 → 0 ≤ px → 0 ≤ py → 4 * (px + w) ≤ pitch → (py + Z.of_nat n + 1) * pitch < 2 ^ 31 →
  let p' := draw_rows font address pitch n glyph (py * pitch + 4 * px) p in
  (∀ i j, 0 ≤ i < w → 0 ≤ j < Z.of_nat n → p' !! pixel_at (px + i) (py + j) = Some (ink glyph i j)) ∧
  (∀ a, (∀ i j, 0 ≤ i < w → 0 ≤ j < Z.of_nat n → a ≠ pixel_at (px + i) (py + j)) → p' !! a = p !! a).
Proof.
  intros Hw32 Hpx. revert glyph py p. induction n as [|n IH]; intros glyph py p Hpy Hw Hb; cbn [draw_rows]; [split; [lia|done]|].
  destruct (decide (w ≤ 0)) as [Hw0|Hw0].
  { split; [lia|]. intros a _. replace (Z.to_nat w) with 0%nat by lia. cbn [draw_row]. clear -Hw0.
    generalize (to_int (py * pitch + 4 * px + pitch)) (glyph + (w + 7) / 8). induction n as [|n IH]; intros o g; cbn [draw_rows]; [done|].
    replace (Z.to_nat w) with 0%nat by lia. apply IH. }
  assert (Eo : to_int (py * pitch + 4 * px + pitch) = (py + 1) * pitch + 4 * px).
  { rewrite to_int_small; [lia|].
    assert ((py + 2) * pitch ≤ (py + Z.of_nat (S n) + 1) * pitch) by (apply Z.mul_le_mono_nonneg_r; lia).
    assert (0 ≤ py * pitch) by (apply Z.mul_nonneg_nonneg; lia). lia. }
  rewrite Eo. set (p1 := draw_row _ _ _ _ _ _).
  destruct (IH (glyph + (w + 7) / 8) (py + 1) p1 ltac:(lia) Hw ltac:(rewrite Nat2Z.inj_succ in Hb; by replace (py + 1 + Z.of_nat n + 1) with (py + Z.succ (Z.of_nat n) + 1) by lia)) as [Hin Hout]. cbv zeta in Hin, Hout |- *. clear IH.
  assert (Ea : ∀ i, pixel_at (px + i) py = address + (py * pitch + 4 * px) + 4 * i) by (intros; unfold pixel_at; lia).
  split.
  - intros i j Hi Hj. destruct (decide (j = 0)) as [->|Hne].
    + rewrite Z.add_0_r, Hout.
      * rewrite Ea. unfold p1. rewrite row_inside by lia. rewrite mask_bit by done. unfold ink. rewrite Z.add_0_r.
        by destruct (Z.testbit _ _).
      * intros i' j' Hi' Hj' E. apply pixel_inj in E; lia.
    + replace (py + j) with (py + 1 + (j - 1)) by lia. rewrite Hin by lia. unfold ink, row_bytes.
      by replace (glyph + (w + 7) / 8 + (j - 1) * ((w + 7) / 8)) with (glyph + j * ((w + 7) / 8)) by lia.
  - intros a Ha. rewrite Hout.
    + unfold p1. apply row_outside. intros i Hi. rewrite <- Ea. rewrite <- (Z.add_0_r py). apply Ha; lia.
    + intros i j Hi Hj. replace (py + 1 + j) with (py + (j + 1)) by lia. apply Ha; lia.
Qed.

(** ** A line of text *)
Definition printable (c : Z) : Prop := c ≠ NUL ∧ c ≠ LINE_FEED ∧ c ≠ CARRIAGE_RETURN.
(** The cell of the [k]th character of a text that starts at column [px]. *)
Definition cell (px : Z) (k : nat) : Z := px + Z.of_nat k * (w + 1).
Definition drawn (px py : Z) (s : list Z) (a : Z) : Prop := ∃ k i j,
  (k < length s)%nat ∧ 0 ≤ i < w ∧ 0 ≤ j < h ∧ a = pixel_at (cell px k + i) (py + j).

Lemma text_spec s rest px py p :
  1 ≤ w < 32 → 0 ≤ h → Forall printable s → 0 ≤ px → 0 ≤ py → 4 * cell px (length s) ≤ pitch →
  (py + h + 1) * pitch < 2 ^ 31 →
  ∃ p', framebuffer_print font address pitch px py (s ++ NUL :: rest) p = Some p' ∧
    (∀ k c i j, s !! k = Some c → 0 ≤ i < w → 0 ≤ j < h →
       p' !! pixel_at (cell px k + i) (py + j) = Some (ink (glyph_of font c) i j)) ∧
    (∀ a, ¬ drawn px py s a → p' !! a = p !! a).
Proof.
  intros Hw Hh Hs. revert px p. induction Hs as [|c s [Hc0 [Hc1 Hc2]] Hs IH]; intros px p Hpx Hpy Hl Hb; cbn [app framebuffer_print].
  { exists p. done. }
  rewrite (proj2 (Z.eqb_neq _ _) Hc0), (proj2 (Z.eqb_neq _ _) Hc1), (proj2 (Z.eqb_neq _ _) Hc2).
  assert (Ec : ∀ k, cell px (S k) = cell (px + (w + 1)) k) by (intros k; unfold cell; lia).
  cbn [length] in Hl. rewrite Ec in Hl.
  assert (Hcell : 4 * (px + (w + 1)) ≤ pitch) by (unfold cell in Hl; nia).
  assert (Eo : to_int (py * pitch + px * 4) = py * pitch + 4 * px).
  { rewrite to_int_small; [lia|]. assert ((py + 1) * pitch ≤ (py + h + 1) * pitch) by (apply Z.mul_le_mono_nonneg_r; lia).
    assert (0 ≤ py * pitch) by (apply Z.mul_nonneg_nonneg; lia). lia. }
  rewrite Eo. set (p1 := draw_rows _ _ _ _ _ _ _).
  destruct (rows_spec (Z.to_nat h) (glyph_of font c) px py p ltac:(lia) Hpx Hpy ltac:(lia) ltac:(by rewrite Z2Nat.id)) as [Hin Hout].
  fold p1 in Hin, Hout. cbv zeta in Hin, Hout. rewrite Z2Nat.id in Hin, Hout by done.
  destruct (IH (px + (w + 1)) p1 ltac:(lia) Hpy Hl Hb) as (p' & E & Hin' & Hout'). exists p'. split; [exact E|].
  assert (Hlt : ∀ k, (k < length s)%nat → ∀ i, 0 ≤ i < w → 4 * (cell (px + (w + 1)) k + i) < pitch).
  { intros k Hk i Hi. unfold cell in *. nia. }
  split.
  - intros k c' i j Hk Hi Hj. destruct k as [|k].
    + injection Hk as <-. replace (cell px 0) with px by (unfold cell; lia). rewrite Hout'; [by apply Hin|].
      intros (k & i' & j' & Hk & Hi' & Hj' & Ea). apply pixel_inj in Ea; [|lia|lia|unfold cell; nia|by apply Hlt].
      unfold cell in Ea. nia.
    + rewrite Ec. by apply Hin'.
  - intros a Ha. rewrite Hout', Hout; [done| |].
    + intros i j Hi Hj ->. apply Ha. exists 0%nat, i, j. split_and!; [cbn; lia|lia|lia|lia|lia|].
      f_equal. unfold cell. lia.
    + intros (k & i & j & Hk & Hi & Hj & ->). apply Ha. exists (S k), i, j. rewrite Ec. split_and!; first [done|cbn; lia].
Qed.
End screen.

(** A font of two glyphs of two rows. *)
Definition sample_font : psf_t :=
  {| headersize := 32; numglyph := 66; bytesperglyph := 2; font_height := 2; font_width := 8;
     font_byte := λ o, if o =? 32 + 65 * 2 then 0x81 else 0 |}.
